(* ===== verification/_CoqProject ===== *)
-Q . S2P
Prelude.v
GoStrings.v
Paths.v
RoutePattern.v
Router.v
CircuitBreaker.v
RateLimiter.v
Http.v
RequestID.v
RetryTransport.v
Failover.v
Proxy.v
Metrics.v
MetricsJson.v
Rollout.v
Tenant.v
Unicode.v
Auth.v
Registry.v
Os.v
ProjectFs.v
Upgrade.v
UpgradeLive.v
Template.v
CrudTemplates.v
Crud.v
Governance.v
Ledger.v
Workflow.v
PolicyVersioning.v
ControlPlane.v
Base64.v
Hmr.v
Browser.v
SqliteStore.v
Server.v
Secrets.v
Filepath.v
DevFiles.v
DevLoop.v
Config.v
Generator.v
GeneratorSpec.v
Lifecycle.v
Assets.v
DemoApps.v
Tls.v
HmrServer.v
DevMain.v
HmrHub.v
SyncTemplates.v
Migrations.v
GenerateWatch.v
GenerateLoop.v
Build.v
RouteList.v
RouteTable.v
Cli.v
Flags.v
Serving.v
Terminal.v
Otel.v
