(* ===== verification/Prelude.v ===== *)
(** * FGOTHS: a verification library

    FGOTHS is a Go framework for HTTP services: a runtime (src/pkg/runtime) with a
    router, a reverse proxy, authentication, metrics, registries and a control plane for
    releases, and a command line (src/internal) that generates projects, keeps their
    copy of the runtime up to date, and builds and watches them.  This library
    translates that code into Rocq definitions, by file and function, and proves what
    makes each part correct.  Definitions keep the names of the source.

    ** How the program is put together, and which file models which part

    _Foundations._  [Prelude] (this file): errors as their text, 64-bit integers that
    wrap, times and durations in nanoseconds, binary64 numbers, shared lemmas and
    tactics.  [GoStrings], [Unicode]: package strings on bytes and on runes.  [Paths]:
    the path functions of router.go and proxy.go.  [Base64]: encoding/base64.  [Http]: a
    request, and a response as the calls a handler makes on its [ResponseWriter].
    [Filepath], [ProjectFs]: path/filepath and a tree of files and directories whose
    calls may fail or stop half way; [Os]: the flat files of the stores, likewise.

    _Serving a request._  [RoutePattern], [Router]: router.go, patterns, their index,
    registration, selection and dispatch.  [Server]: server.go and health.go, the
    middleware around the router, mounting, hooks and shutdown, readiness and alerts.
    [RequestID] (requestid.go), [Auth] (auth.go, identity.go, audit.go), [Tenant]
    (tenant.go), [Secrets] (secrets.go), [Metrics] and [MetricsJson] (metrics.go and the
    alert thresholds of health.go), [Tls] (tls.go), [Otel] (otel.go): the middlewares.  All state that
    requests share is passed along explicitly; a lock's critical section is one step.

    _Proxying it._  proxy.go: [CircuitBreaker], [RateLimiter] (a token bucket on
    binary64), [RetryTransport], [Failover] (the response writer that withholds a
    failing answer) and [Proxy], which puts them together.

    _Deciding where it goes._  [Registry]: config_registry.go, upstream.go, region.go and
    tenant_registry.go, the registry of routes, upstreams and policies; [Rollout]:
    rollout.go.

    _Releasing._  [Governance] (artifacts.go and the gates and plans of governance.go),
    [Ledger] and [Workflow] (its ledger, stores, workflows and event log),
    [PolicyVersioning] (policy_versioning.go), [SqliteStore] (sqlite_store.go), and
    [ControlPlane] (controlplane.go), the API over all of them, from the mux and the
    bearer token to every handler; [Serving] (cli/controlplane.go, reuseport_*.go), the
    process that serves it until a signal.

    _Making projects._  [Config] (internal/config and the flags of cli/init.go),
    [Generator] and [GeneratorSpec] (internal/generator/generator.go: the code, and the
    tree it has to produce), [Template], [CrudTemplates], [Crud] (cli/crud.go: the part
    of text/template it uses, its templates, its generation), [Upgrade] (cli/upgrade.go,
    upgrade_baseline.go), [UpgradeLive] (that it runs to its end), [Lifecycle] (a project
    from its generation to its upgrade), [SyncTemplates] (cli/sync_templates.go), [Migrations]
    (migrations.go of the generated projects).

    _The projects that are made._  [Assets]: cmd/assetmanifest, internal/assets and the
    static handler, from the hash of a file to its cache header.  [DemoApps]: the two
    examples, webapp-demo (main.go, handlers, middleware, internal/health and database)
    and api-demo (main.go, internal/metrics and openapi), on [Server].

    _Developing them._  [Hmr] (runtime/hmr: the hub, its event stream, the wire format,
    the browser's dispatch), [Browser] (the script of hmr/client.go: its table reader, what a
    message does to a page, its connection), [HmrServer] and [HmrHub] (hmr_server.go),
    [DevFiles], [DevLoop] and [DevMain] (cmd/dev/main.go of the generated projects), [GenerateWatch]
    and [GenerateLoop] (cli/generate.go), [Build] (cli/build.go, version.go), [RouteList] and
    [RouteTable] (cli/routes.go), [Cli] (cli/root.go, controlplane.go, sqlite_stores.go,
    sqlite_stubs.go), [Flags] (the flag package and the arguments of each command),
    [Terminal] (cli/ux.go and what the commands print).

    ** Conventions

    A method is a function from the state to the new state and its results; a nil
    receiver is [None].  A panic is [None] where the code can panic.  What the code reads
    from its surroundings (clock, random numbers, the order in which a map is ranged
    over, answers of the network) is an argument, so that every theorem holds for all of
    it.  A failing call is an outcome in a plan that the state carries ([io] in [Os],
    [faults] in [ProjectFs]) or an argument of the step ([Migrations], [DevLoop],
    [GenerateLoop]).  Concurrent code is a transition system: a step is a critical
    section, a channel operation or a callback, and a schedule is a list of steps, over
    all of which invariants are proved by induction ([Hmr], [DevLoop], [GenerateLoop],
    [Migrations]).

    Interfaces between components are type classes: [DeploymentStore] (with its laws
    [DurableStore], which the file store and SQLite discharge) and [PolicyVersionStore],
    against which the ledger, the versioner and the control plane are proved.
    Third-party code is a parameter with the laws the source relies on: [Flatbuffers]
    with [FlatbuffersLaws] in [Hmr], [Sqlite] with [SqliteLaws] in [SqliteStore], both
    with an instance that satisfies them; SHA-256, JWT and JSON decoding, url.Parse, gofmt and the merge
    of three texts are plain parameters.

    ** What is proved

    - Refinement of a specification: route selection chooses by the specified order
      ([Router]); the ledger is a log of valid releases ([Ledger]); tenant quotas count
      the accepted requests ([Tenant]); workflows follow their state machine
      ([Workflow]); the hub delivers what a queue with losses does, in order ([Hmr]);
      generation produces the tree of the configuration ([GeneratorSpec]); the script in the
      browser does what the dispatch rule gives for the hub's events ([Browser]); the counter
      of the example is a number behind a lock ([DemoApps]).
    - Composition: a generated project is upgraded without a conflict ([Lifecycle]); an edit of
      a view reaches, from the watcher through the endpoint and the hub, exactly the tabs that
      show it ([HmrHub]); a rebuilt server is told from the one before it ([DevMain]); the
      manifest, the addresses and the cache headers of static files agree ([Assets]).
    - Safety: no request without the admin token changes or learns anything, no invalid
      token reaches a handler, releases are approved exactly by enough distinct actors,
      nothing of a project is lost by an upgrade, by generation or by CRUD, an unhealthy
      upstream is not resolved, no migration runs twice however many programs start.
    - Invariants of the registry, the control plane, the policy history, the hub, the
      development loop and watch mode, over every sequence of operations.
    - Round trips: path parameters, the event stream, the stores over a restart,
      configuration lists, decimal numbers.
    - Errors: what each failure leaves behind, for the upgrade's commit, the SQLite
      transaction, generation, shutdown, TLS files.
    - Termination and liveness: retries are bounded, the breaker recovers, the
      development loop and watch mode come to rest having handled the last change,
      migration completes and resumes, an upgrade in which no call fails ends with every
      file at the new release ([UpgradeLive]).
    - Bounds: the burst of the rate limiter on binary64, queue and window sizes.

    Theorems that show the code to do something other than it means to stand next to the
    definitions they are about, in the same files.

    ** Bounds and fuel

    [RateLimiter] decides its burst theorem by computation for the capacities up to
    [capacities_checked] (300), the only theorem with such a limit; [Metrics] keeps the
    1000 outcomes of the code, [Hmr] its channel of [chan_cap] (8) and its replay.  Fuel
    stands where a loop consumes a string or a tree: [close_at] ([DevFiles]) gets the length
    of the page, enough by [rounds_all_le], and [replace_from] ([Crud]) that of the text, of
    which each round consumes a character; [Apply] ([Migrations]) is shown to return within
    two steps a file and two more.

    ** Not modelled

    The copies of the runtime, the watcher and the counter in examples/ and benchmarks/ (the
    code is the same); the load generators and servers of benchmarks/, which measure; the
    views that templ generates; the embedded template texts and upgrade baselines, which are
    data the theorems quantify over; the single lines that commands print about their
    progress; running programs, fsnotify, signals and the browser, which appear as outcomes
    of steps and as parameters.  Go's memory model is not modelled: data races are outside
    the scope of the critical sections. *)

From Stdlib Require Import ZArith Lia.
From Stdlib Require Export Ascii.
From Stdlib.Floats Require Import SpecFloat.
From stdpp Require Export base numbers list gmap strings sorting.

#[export] Set Default Goal Selector "!".
#[global] Arguments String.append : simpl nomatch.

(** ** Errors

    A Go [error] is its message: the control plane dispatches on the text of
    [err.Error()], so the text is kept verbatim.  [fmt.Errorf("...: %w", err)]
    is string concatenation. *)

Definition error : Type := string.

Inductive result (A : Type) : Type :=
  | Ok (a : A)
  | Err (e : error).
Arguments Ok {A} a.
Arguments Err {A} e.

Definition res_bind {A B} (r : result A) (f : A → result B) : result B :=
  match r with
  | Ok a => f a
  | Err e => Err e
  end.

Declare Scope go_scope.
Delimit Scope go_scope with go.
Notation "'try' x ':=' r 'in' k" := (res_bind r (λ x, k))
  (at level 10, x name, r at level 100, k at level 200) : go_scope.
Notation "'check' r 'in' k" := (res_bind r (λ _, k))
  (at level 10, r at level 100, k at level 200) : go_scope.
(** An early return: [if (c) { return err }]. *)
Notation "'fail_if' c 'with' e ; k" := (if (c : bool) then Err e else k)
  (at level 10, c at level 100, e at level 100, k at level 200) : go_scope.
Open Scope go_scope.

Definition is_ok {A} (r : result A) : bool :=
  match r with Ok _ => true | Err _ => false end.

(** A method call on a possibly nil receiver whose method starts with
    [if r == nil { return d }]. *)
Definition on_recv {S A} (r : option S) (d : A) (k : S → A) : A :=
  match r with None => d | Some s => k s end.

(** ** Machine integers: Go's [int] and [int64] on a 64-bit platform *)

Definition int64_min : Z := -9223372036854775808.
Definition int64_max : Z := 9223372036854775807.
Definition wrap64 (z : Z) : Z :=
  (z + 9223372036854775808) `mod` 18446744073709551616 - 9223372036854775808.
Definition in_int64 (z : Z) : Prop := (int64_min ≤ z ≤ int64_max)%Z.

Definition i64_add (a b : Z) : Z := wrap64 (a + b).
Definition i64_sub (a b : Z) : Z := wrap64 (a - b).

Lemma wrap64_id z : in_int64 z → wrap64 z = z.
Proof.
  unfold in_int64, wrap64, int64_min, int64_max. intros H.
  rewrite Z.mod_small; lia.
Qed.

Lemma wrap64_in z : in_int64 (wrap64 z).
Proof.
  unfold in_int64, wrap64, int64_min, int64_max.
  pose proof (Z.mod_pos_bound (z + 9223372036854775808) 18446744073709551616).
  lia.
Qed.

Lemma i64_add_id a b : in_int64 (a + b) → i64_add a b = (a + b)%Z.
Proof. apply wrap64_id. Qed.

(** Wrapping once at the end or at every step is the same. *)
Lemma wrap64_mod z k : wrap64 (z + k * 18446744073709551616) = wrap64 z.
Proof.
  unfold wrap64. f_equal.
  replace (z + k * 18446744073709551616 + 9223372036854775808)%Z
    with (z + 9223372036854775808 + k * 18446744073709551616)%Z by lia.
  apply Z_mod_plus_full.
Qed.
Lemma i64_add_wrap a b : i64_add (wrap64 a) b = wrap64 (a + b).
Proof.
  unfold i64_add.
  assert (∃ k, wrap64 a = a + k * 18446744073709551616)%Z as [k ->].
  { exists (- ((a + 9223372036854775808) / 18446744073709551616))%Z. unfold wrap64.
    pose proof (Z.div_mod (a + 9223372036854775808) 18446744073709551616). lia. }
  replace (a + k * 18446744073709551616 + b)%Z with (a + b + k * 18446744073709551616)%Z by lia.
  apply wrap64_mod.
Qed.

(** ** Time

    A [time.Time] is its distance in nanoseconds to the zero time, so the zero
    value (tested by [IsZero]) is [0].  [time.Duration] is an [int64] of
    nanoseconds and [Time.Sub] saturates at its ends. *)

Abbreviation time := Z (only parsing).
Abbreviation duration := Z (only parsing).

Definition time_zero : time := 0%Z.
Definition is_zero (t : time) : bool := (t =? 0)%Z.
Definition before (t u : time) : bool := (t <? u)%Z.
Definition after (t u : time) : bool := (u <? t)%Z.
Definition time_add (t : time) (d : duration) : time := (t + d)%Z.
Definition time_sub (t u : time) : duration :=
  Z.max int64_min (Z.min int64_max (t - u)).

Definition nanosecond : duration := 1%Z.
Definition second : duration := 1000000000%Z.
Definition minute : duration := (60 * second)%Z.

Lemma time_sub_exact t u : in_int64 (t - u) → time_sub t u = (t - u)%Z.
Proof. unfold time_sub, in_int64. lia. Qed.

Lemma time_sub_self t : time_sub t t = 0%Z.
Proof. rewrite time_sub_exact; unfold in_int64, int64_min, int64_max; lia. Qed.

(** ** [float64]: IEEE 754 binary64 through the executable [SpecFloat] *)

Abbreviation float64 := spec_float (only parsing).
Definition f64_prec : Z := 53.
Definition f64_emax : Z := 1024.
Definition f64_add : float64 → float64 → float64 := SFadd f64_prec f64_emax.
Definition f64_sub : float64 → float64 → float64 := SFsub f64_prec f64_emax.
Definition f64_mul : float64 → float64 → float64 := SFmul f64_prec f64_emax.
Definition f64_div : float64 → float64 → float64 := SFdiv f64_prec f64_emax.
Definition f64_of_int (z : Z) : float64 :=
  binary_normalize f64_prec f64_emax z 0 false.
(** The constant [n / d], rounded to nearest: a decimal literal. *)
Definition f64_lit (n d : Z) : float64 := f64_div (f64_of_int n) (f64_of_int d).
Definition f64_ltb (a b : float64) : bool := SFltb a b.
Definition f64_leb (a b : float64) : bool := SFleb a b.
Definition f64_gtb (a b : float64) : bool := SFltb b a.
Definition f64_geb (a b : float64) : bool := SFleb b a.
Definition f64_eqb (a b : float64) : bool := SFeqb a b.
Definition f64_zero : float64 := S754_zero false.

#[export] Instance spec_float_eq_dec : EqDecision spec_float.
Proof. solve_decision. Defined.

(** ** Tactics and generic lemmas *)

(** Case analysis on the tests and matches of the goal, one after another. *)
Ltac go_case :=
  match goal with
  | |- context [decide ?P] => destruct (decide P)
  | |- context [bool_decide ?P] => destruct (bool_decide_reflect P)
  | |- context [match ?x with _ => _ end] => destruct x eqn:?
  end.
Ltac go_cases := repeat (go_case; simplify_eq/=; try done).

(** The same on a hypothesis. *)
Ltac go_case_in H :=
  match type of H with
  | context [decide ?P] => destruct (decide P)
  | context [bool_decide ?P] => destruct (bool_decide_reflect P)
  | context [match ?x with _ => _ end] => destruct x eqn:?
  end.
Ltac go_inv H := repeat (go_case_in H; simplify_eq/=; try done).

Create HintDb go.

Lemma bool_decide_eq_refl {A} `{EqDecision A} (x : A) : bool_decide (x = x) = true.
Proof. by apply bool_decide_eq_true. Qed.
#[export] Hint Rewrite @bool_decide_eq_refl : go.
#[export] Hint Resolve wrap64_in : go.

Lemma res_bind_Ok {A B} (r : result A) (f : A → result B) b :
  res_bind r f = Ok b ↔ ∃ a, r = Ok a ∧ f a = Ok b.
Proof. destruct r; naive_solver. Qed.

Lemma fail_if_Ok {A} (b : bool) e (k : result A) a :
  (fail_if b with e; k) = Ok a ↔ b = false ∧ k = Ok a.
Proof. destruct b; naive_solver. Qed.

(** The first element of a list satisfying a test: [for ... { if c { return } }]. *)
Lemma existsb_false_iff {A} (f : A → bool) l :
  existsb f l = false ↔ ∀ x, x ∈ l → f x = false.
Proof.
  induction l as [|a l IH]; simpl.
  - split; [intros _ x Hx; by apply not_elem_of_nil in Hx | done].
  - rewrite orb_false_iff, IH. set_solver.
Qed.

Lemma existsb_true_iff {A} (f : A → bool) l :
  existsb f l = true ↔ ∃ x, x ∈ l ∧ f x = true.
Proof.
  induction l as [|a l IH]; simpl.
  - split; [done | intros (x & Hx & _); by apply not_elem_of_nil in Hx].
  - rewrite orb_true_iff, IH. set_solver.
Qed.

Lemma filter_none {A} (P : A → Prop) `{∀ x, Decision (P x)} (l : list A) :
  (∀ x, x ∈ l → ¬ P x) → filter P l = [].
Proof.
  induction l as [|x l IH]; intros Hn; [done|]. rewrite filter_cons_False by (apply Hn; by left).
  apply IH. intros. apply Hn. by right.
Qed.
