(* ===== verification/GoStrings.v ===== *)
(** * The Go string functions the runtime calls

    A Go string is a sequence of bytes, here [string] (each [ascii] one byte).
    The functions below are those of package [strings] that the modelled code
    uses.  [TrimSpace] trims exactly the UTF-8 encodings of the Unicode
    [White_Space] runes.  [ToUpper] maps the ASCII letters only: the runtime
    applies it to HTTP methods, which net/http restricts to ASCII tokens. *)

From stdpp Require Import strings pretty.
From S2P Require Import Prelude.

(** ** Prefixes, suffixes, slices *)

(** [s[n:]] and [s[:n]] for [n <= len(s)]. *)
Fixpoint str_drop (n : nat) (s : string) : string :=
  match n, s with
  | S n, String _ s => str_drop n s
  | _, _ => s
  end.
Fixpoint str_take (n : nat) (s : string) : string :=
  match n, s with
  | S n, String c s => String c (str_take n s)
  | _, _ => EmptyString
  end.

Fixpoint has_prefix (s p : string) {struct p} : bool :=
  match p with
  | EmptyString => true
  | String c p =>
      match s with
      | EmptyString => false
      | String d s => Ascii.eqb c d && has_prefix s p
      end
  end.
Definition trim_prefix (s p : string) : string :=
  if has_prefix s p then str_drop (String.length p) s else s.
Definition has_suffix (s p : string) : bool :=
  (String.length p <=? String.length s)
  && String.eqb (str_drop (String.length s - String.length p) s) p.
Definition trim_suffix (s p : string) : string :=
  if has_suffix s p then str_take (String.length s - String.length p) s else s.

(** ** Searching *)

(** [strings.IndexByte] and [strings.Index]; [None] is Go's -1. *)
Fixpoint index_byte (s : string) (c : ascii) : option nat :=
  match s with
  | EmptyString => None
  | String d s => if Ascii.eqb d c then Some 0 else S <$> index_byte s c
  end.
Fixpoint index (s sub : string) : option nat :=
  if has_prefix s sub then Some 0
  else match s with
       | EmptyString => None
       | String _ s => S <$> index s sub
       end.
Definition contains (s sub : string) : bool :=
  match index s sub with Some _ => true | None => false end.
Fixpoint mem_byte (c : ascii) (s : string) : bool :=
  match s with
  | EmptyString => false
  | String d s => Ascii.eqb d c || mem_byte c s
  end.

(** ** Splitting and joining on one byte *)

Fixpoint split (s : string) (sep : ascii) : list string :=
  match s with
  | EmptyString => [EmptyString]
  | String c s =>
      if Ascii.eqb c sep then EmptyString :: split s sep
      else match split s sep with
           | p :: ps => String c p :: ps
           | [] => [String c EmptyString]
           end
  end.
(** [strings.SplitN(s, sep, 2)]. *)
Definition split2 (s : string) (sep : ascii) : list string :=
  match index_byte s sep with
  | Some i => [str_take i s; str_drop (S i) s]
  | None => [s]
  end.
Fixpoint join (l : list string) (sep : string) : string :=
  match l with
  | [] => EmptyString
  | [s] => s
  | s :: l => s +:+ sep +:+ join l sep
  end.

(** ** Case and white space *)

Definition byte_val (c : ascii) : N := N_of_ascii c.
Definition byte_in (lo hi : N) (c : ascii) : bool :=
  ((lo <=? byte_val c) && (byte_val c <=? hi))%N.

Definition upper_byte (c : ascii) : ascii :=
  if byte_in 97 122 c then ascii_of_N (byte_val c - 32) else c.
Definition lower_byte (c : ascii) : ascii :=
  if byte_in 65 90 c then ascii_of_N (byte_val c + 32) else c.
Fixpoint str_map (f : ascii → ascii) (s : string) : string :=
  match s with
  | EmptyString => EmptyString
  | String c s => String (f c) (str_map f s)
  end.
Definition to_upper : string → string := str_map upper_byte.
Definition to_lower : string → string := str_map lower_byte.

(** [unicode.IsSpace] by encoded length: U+0009..U+000D, U+0020; U+0085,
    U+00A0; U+1680, U+2000..U+200A, U+2028, U+2029, U+202F, U+205F, U+3000. *)
Definition space1 (c : ascii) : bool := byte_in 9 13 c || byte_in 32 32 c.
Definition space2 (c d : ascii) : bool :=
  byte_in 194 194 c && (byte_in 133 133 d || byte_in 160 160 d).
Definition space3 (c d e : ascii) : bool :=
  (byte_in 225 225 c && byte_in 154 154 d && byte_in 128 128 e)
  || (byte_in 226 226 c && byte_in 128 128 d
      && (byte_in 128 138 e || byte_in 168 169 e || byte_in 175 175 e))
  || (byte_in 226 226 c && byte_in 129 129 d && byte_in 159 159 e)
  || (byte_in 227 227 c && byte_in 128 128 d && byte_in 128 128 e).

(** Drop the leading encodings accepted by [f1], [f2] and [f3]. *)
Section Trim.
Context (f1 : ascii → bool) (f2 : ascii → ascii → bool)
  (f3 : ascii → ascii → ascii → bool).

Fixpoint trim_front (s : string) : string :=
  match s with
  | EmptyString => EmptyString
  | String c r =>
      if f1 c then trim_front r
      else match r with
           | EmptyString => s
           | String d r2 =>
               if f2 c d then trim_front r2
               else match r2 with
                    | EmptyString => s
                    | String e r3 => if f3 c d e then trim_front r3 else s
                    end
           end
  end.

Definition front_ok (s : string) : bool :=
  match s with
  | EmptyString => true
  | String c r =>
      negb (f1 c)
      && match r with
         | EmptyString => true
         | String d r2 =>
             negb (f2 c d)
             && match r2 with
                | EmptyString => true
                | String e _ => negb (f3 c d e)
                end
         end
  end.
End Trim.

Definition trim_left : string → string := trim_front space1 space2 space3.
Definition trim_right (s : string) : string :=
  String.rev (trim_front space1 (λ c d, space2 d c) (λ c d e, space3 e d c)
                (String.rev s)).
Definition trim_space (s : string) : string := trim_right (trim_left s).

(** [fmt]'s [%q] for a string: a quoted Go literal.  Bytes above 127 are
    copied, as [strconv.Quote] does for printable runes. *)
Definition hex_digit (n : N) : ascii :=
  ascii_of_N (if (n <? 10)%N then 48 + n else 87 + n)%N.
Definition quote_byte (c : ascii) : string :=
  match byte_val c with
  | 34%N => String "\" (String (ascii_of_N 34) EmptyString)
  | 92%N => "\\"
  | 7%N => "\a" | 8%N => "\b" | 9%N => "\t" | 10%N => "\n" | 11%N => "\v"
  | 12%N => "\f" | 13%N => "\r"
  | n => if ((n <? 32) || (n =? 127))%N
         then "\x" +:+ String (hex_digit (n / 16)) (String (hex_digit (n mod 16)) "")
         else String c EmptyString
  end.
Fixpoint quote_body (s : string) : string :=
  match s with
  | EmptyString => EmptyString
  | String c s => quote_byte c +:+ quote_body s
  end.
Definition dquote : string := String (ascii_of_N 34) EmptyString.
Definition quote (s : string) : string := dquote +:+ quote_body s +:+ dquote.

(** [%d]. *)
Definition itoa (z : Z) : string := pretty z.

(** ** Facts: append, take, drop *)

Lemma str_app_nil_r s : s +:+ "" = s.
Proof. induction s; simpl; [done | cbn; f_equal; done]. Qed.
Lemma str_app_cons c s t : String c s +:+ t = String c (s +:+ t).
Proof. done. Qed.
Lemma str_app_nil_l s : "" +:+ s = s.
Proof. done. Qed.
Lemma str_app_assoc s t u : s +:+ (t +:+ u) = (s +:+ t) +:+ u.
Proof. induction s; [done | cbn; f_equal; done]. Qed.
#[export] Hint Rewrite str_app_nil_r str_app_cons str_app_nil_l : go.

Lemma str_length_app s t :
  String.length (s +:+ t) = String.length s + String.length t.
Proof. induction s; [done | cbn; f_equal; done]. Qed.
Lemma str_length_0 s : String.length s = 0 ↔ s = "".
Proof. by destruct s. Qed.

Lemma str_drop_app s t : str_drop (String.length s) (s +:+ t) = t.
Proof. induction s; [by destruct t | done]. Qed.
Lemma str_take_app s t : str_take (String.length s) (s +:+ t) = s.
Proof. induction s; [by destruct t | cbn; f_equal; done]. Qed.
Lemma str_take_drop n s : str_take n s +:+ str_drop n s = s.
Proof. revert s; induction n; intros [|c s]; cbn; [done..| by f_equal]. Qed.
Lemma str_length_take n s : n ≤ String.length s → String.length (str_take n s) = n.
Proof. revert s; induction n; intros [|c s]; cbn; [lia..| intros; f_equal; apply IHn; lia]. Qed.
Lemma str_length_drop n s : String.length (str_drop n s) = String.length s - n.
Proof. revert s; induction n; intros [|c s]; cbn; [lia..|]. apply IHn. Qed.
Lemma str_drop_all s n : String.length s ≤ n → str_drop n s = "".
Proof. intros. apply str_length_0. rewrite str_length_drop. lia. Qed.
Lemma str_app_inj_l s t u : s +:+ t = s +:+ u → t = u.
Proof. induction s; [done | cbn; intros; simplify_eq; auto]. Qed.
Lemma str_app_length_inj s s' t t' :
  String.length s = String.length s' → s +:+ t = s' +:+ t' → s = s' ∧ t = t'.
Proof.
  revert s'; induction s as [|c s IH]; intros [|c' s'] Hl Ha; try done.
  rewrite !str_app_cons in Ha. cbn in Hl. injection Hl as Hl. injection Ha as -> Ha.
  destruct (IH s' Hl Ha) as [-> ->]. done.
Qed.

(** ** Facts: prefixes and suffixes *)

Lemma has_prefix_spec s p : has_prefix s p = true ↔ ∃ r, s = p +:+ r.
Proof.
  revert s; induction p as [|c p IH]; intros s; cbn.
  - split; [by exists s | done].
  - destruct s as [|d s].
    + split; [done | intros [r Hr]; discriminate].
    + rewrite andb_true_iff, Ascii.eqb_eq, IH. split.
      * intros [-> [r ->]]. by exists r.
      * intros [r Hr]. simplify_eq. eauto.
Qed.
Lemma has_prefix_app p r : has_prefix (p +:+ r) p = true.
Proof. apply has_prefix_spec; eauto. Qed.
Lemma has_prefix_nil s : has_prefix s "" = true.
Proof. done. Qed.
#[export] Hint Rewrite has_prefix_app : go.

Lemma trim_prefix_app p r : trim_prefix (p +:+ r) p = r.
Proof. unfold trim_prefix. by rewrite has_prefix_app, str_drop_app. Qed.
Lemma trim_prefix_none s p : has_prefix s p = false → trim_prefix s p = s.
Proof. unfold trim_prefix. by intros ->. Qed.

Lemma has_suffix_spec s p : has_suffix s p = true ↔ ∃ r, s = r +:+ p.
Proof.
  unfold has_suffix. rewrite andb_true_iff, Nat.leb_le, String.eqb_eq. split.
  - intros [Hl Hd]. exists (str_take (String.length s - String.length p) s).
    rewrite <- Hd at 2. by rewrite str_take_drop.
  - intros [r ->]. rewrite str_length_app. split; [lia|].
    replace (_ + _ - _) with (String.length r) by lia. apply str_drop_app.
Qed.
Lemma has_suffix_app r p : has_suffix (r +:+ p) p = true.
Proof. apply has_suffix_spec; eauto. Qed.
Lemma trim_suffix_app r p : trim_suffix (r +:+ p) p = r.
Proof.
  unfold trim_suffix. rewrite has_suffix_app, str_length_app.
  replace (_ + _ - _) with (String.length r) by lia. apply str_take_app.
Qed.
Lemma trim_suffix_none s p : has_suffix s p = false → trim_suffix s p = s.
Proof. unfold trim_suffix. by intros ->. Qed.
#[export] Hint Rewrite trim_prefix_app has_suffix_app trim_suffix_app : go.

(** ** Facts: searching *)

Lemma mem_byte_app c s t : mem_byte c (s +:+ t) = mem_byte c s || mem_byte c t.
Proof.
  induction s as [|d s IH]; [done|].
  rewrite str_app_cons. cbn. by rewrite IH, orb_assoc.
Qed.

Lemma index_byte_Some s c i :
  index_byte s c = Some i →
  s = str_take i s +:+ String c (str_drop (S i) s) ∧ mem_byte c (str_take i s) = false.
Proof.
  revert i; induction s as [|d s IH]; intros i; cbn; [done|].
  destruct (Ascii.eqb_spec d c) as [->|Hne].
  - intros [= <-]. by destruct s.
  - destruct (index_byte s c) as [j|]; [|done]. intros [= <-].
    destruct (IH j eq_refl) as [Hs Hm]. cbn. split.
    + by f_equal.
    + rewrite Hm, orb_false_r. by apply Ascii.eqb_neq.
Qed.
Lemma index_byte_None s c : index_byte s c = None ↔ mem_byte c s = false.
Proof.
  induction s as [|d s IH]; cbn; [done|].
  destruct (Ascii.eqb d c); [done|]. cbn. rewrite <- IH.
  by destruct (index_byte s c).
Qed.
Lemma index_byte_app s c t :
  mem_byte c s = false → index_byte (s +:+ String c t) c = Some (String.length s).
Proof.
  induction s as [|d s IH]; cbn.
  - by rewrite Ascii.eqb_refl.
  - rewrite orb_false_iff. intros [-> Hs]. by rewrite IH.
Qed.

Lemma index_Some s sub i :
  index s sub = Some i →
  i ≤ String.length s ∧ s = str_take i s +:+ sub +:+ str_drop (i + String.length sub) s.
Proof.
  revert i; induction s as [|c s IH]; intros i; cbn [index].
  - destruct (has_prefix "" sub) eqn:Hp; [|done]. intros [= <-].
    apply has_prefix_spec in Hp as [r Hr]. by destruct sub, r.
  - destruct (has_prefix (String c s) sub) eqn:Hp.
    + intros [= <-]. split; [lia|]. apply has_prefix_spec in Hp as [r Hr].
      rewrite Hr. cbn [str_take Nat.add]. by rewrite str_drop_app.
    + destruct (index s sub) as [j|]; [|done]. intros [= <-].
      destruct (IH j eq_refl) as [Hl Hs]. cbn. split; [lia|].
      by f_equal.
Qed.
(** No occurrence starts before the index found. *)
Lemma index_first s sub i j :
  index s sub = Some i → j < i → has_prefix (str_drop j s) sub = false.
Proof.
  revert i j; induction s as [|c s IH]; intros i j; cbn [index].
  - destruct (has_prefix "" sub); [|done]. intros [= <-]. lia.
  - destruct (has_prefix (String c s) sub) eqn:Hp.
    + intros [= <-]. lia.
    + destruct (index s sub) as [k|]; [|done]. intros [= <-] Hj.
      destruct j as [|j]; [done|]. cbn. eapply IH; [done | lia].
Qed.
Lemma contains_app s sub t : contains (s +:+ sub +:+ t) sub = true.
Proof.
  unfold contains. induction s as [|c s IH].
  - rewrite str_app_nil_l. destruct (sub +:+ t) eqn:E; cbn;
      rewrite <- E, has_prefix_app; done.
  - rewrite str_app_cons. cbn [index]. destruct (has_prefix _ _); [done|].
    by destruct (index (s +:+ sub +:+ t) sub).
Qed.

(** ** Facts: split and join *)

Lemma split_not_nil s c : split s c ≠ [].
Proof. destruct s; cbn; [done|]. go_cases. Qed.

Lemma split_no_sep s c : mem_byte c s = false → split s c = [s].
Proof.
  induction s as [|d s IH]; cbn; [done|].
  rewrite orb_false_iff. intros [-> Hs]. by rewrite IH.
Qed.
Lemma split_app_sep s c t :
  mem_byte c s = false → split (s +:+ String c t) c = s :: split t c.
Proof.
  induction s as [|d s IH]; cbn.
  - by rewrite Ascii.eqb_refl.
  - rewrite orb_false_iff. intros [-> Hs]. by rewrite IH.
Qed.
(** Splitting distributes over the separator, whatever is on its left. *)
Lemma split_app s c t : split (s +:+ String c t) c = split s c ++ split t c.
Proof.
  induction s as [|d s IH]; cbn.
  - by rewrite Ascii.eqb_refl.
  - destruct (Ascii.eqb d c); [by rewrite IH|]. rewrite IH.
    destruct (split s c) eqn:Hs; [by apply split_not_nil in Hs | done].
Qed.
Lemma split_elem_no_sep s c x : x ∈ split s c → mem_byte c x = false.
Proof.
  revert x; induction s as [|d s IH]; intros x; cbn.
  - intros ->%list_elem_of_singleton. done.
  - destruct (Ascii.eqb_spec d c).
    + intros [->|?]%elem_of_cons; [done | auto].
    + destruct (split s c) as [|p ps] eqn:Hs; [by apply split_not_nil in Hs|].
      intros [->|?]%elem_of_cons; [|apply IH; by right].
      cbn. rewrite (IH p) by left. rewrite orb_false_r. by apply Ascii.eqb_neq.
Qed.
Lemma join_cons s l sep : l ≠ [] → join (s :: l) sep = s +:+ sep +:+ join l sep.
Proof. by destruct l. Qed.
Lemma join_app l l' sep : l ≠ [] → l' ≠ [] → join (l ++ l') sep = join l sep +:+ sep +:+ join l' sep.
Proof.
  intros Hl Hl'. induction l as [|x [|y l] IH]; [done|..].
  - cbn [app]. by rewrite join_cons.
  - cbn [app] in *. rewrite (join_cons x (y :: l)), (join_cons x (y :: l ++ l')), IH by done.
    by rewrite !str_app_assoc.
Qed.
Lemma join_split s c : join (split s c) (String c "") = s.
Proof.
  induction s as [|d s IH]; [done|]. cbn [split].
  destruct (Ascii.eqb_spec d c) as [->|].
  - rewrite join_cons by apply split_not_nil. by rewrite IH.
  - destruct (split s c) as [|p [|q ps]] eqn:Hs; [by apply split_not_nil in Hs|..];
      cbn in *; by rewrite IH.
Qed.
Lemma split_join l c :
  l ≠ [] → (∀ x, x ∈ l → mem_byte c x = false) → split (join l (String c "")) c = l.
Proof.
  induction l as [|s l IH]; [done|]. intros _ Hl.
  destruct l as [|t l]; [apply split_no_sep, Hl; by left|].
  rewrite join_cons by done. cbn [String.append].
  rewrite split_app_sep by (apply Hl; by left).
  f_equal. apply IH; [done|]. intros x Hx. apply Hl. by right.
Qed.

(** ** Facts: case mapping and trimming *)

Lemma upper_byte_idemp c : upper_byte (upper_byte c) = upper_byte c.
Proof. destruct c as [[] [] [] [] [] [] [] []]; reflexivity. Qed.
Lemma to_upper_idemp s : to_upper (to_upper s) = to_upper s.
Proof.
  unfold to_upper. induction s as [|c s IH]; cbn; [done|].
  by rewrite upper_byte_idemp, IH.
Qed.

Lemma str_rev_app_acc s t : String.rev_app s t = String.rev s +:+ t.
Proof.
  unfold String.rev. revert t. induction s as [|c s IH]; intros t; [done|].
  cbn. rewrite (IH (String c t)), (IH (String c "")), <- str_app_assoc. done.
Qed.
Lemma str_rev_cons c s : String.rev (String c s) = String.rev s +:+ String c "".
Proof. unfold String.rev at 1. cbn. apply str_rev_app_acc. Qed.
Lemma str_rev_app s t : String.rev (s +:+ t) = String.rev t +:+ String.rev s.
Proof.
  induction s as [|c s IH]; [by rewrite str_app_nil_r|].
  by rewrite str_app_cons, !str_rev_cons, IH, str_app_assoc.
Qed.
Lemma str_rev_involutive s : String.rev (String.rev s) = s.
Proof. induction s as [|c s IH]; [done|]. by rewrite str_rev_cons, str_rev_app, IH. Qed.

Section TrimFacts.
Context (f1 : ascii → bool) (f2 : ascii → ascii → bool)
  (f3 : ascii → ascii → ascii → bool).

Lemma trim_front_ok s : front_ok f1 f2 f3 s = true → trim_front f1 f2 f3 s = s.
Proof.
  destruct s as [|c [|d [|e s]]]; cbn; [done|..];
    destruct (f1 c); cbn; try done; destruct (f2 c d); cbn; try done.
  by destruct (f3 c d e).
Qed.
(** The result is a suffix of the input and starts with no accepted code. *)
Lemma trim_front_spec s :
  front_ok f1 f2 f3 (trim_front f1 f2 f3 s) = true
  ∧ ∃ p, s = p +:+ trim_front f1 f2 f3 s.
Proof.
  induction s as [s IH] using (induction_ltof1 _ String.length); unfold ltof in IH.
  assert (∀ p r, s = p +:+ r → String.length r < String.length s →
    front_ok f1 f2 f3 (trim_front f1 f2 f3 r) = true
    ∧ ∃ q, s = q +:+ trim_front f1 f2 f3 r) as Hstep.
  { intros p r -> Hl. destruct (IH r Hl) as [Hok [q Hq]]. split; [done|].
    exists (p +:+ q). by rewrite <- str_app_assoc, <- Hq. }
  destruct s as [|c s]; cbn [trim_front]; [split; [done | by exists ""]|].
  destruct (f1 c) eqn:E1; [apply (Hstep (String c "")); [done | cbn; lia]|].
  destruct s as [|d s]; [cbn; rewrite E1; split; [done | by exists ""]|].
  destruct (f2 c d) eqn:E2;
    [apply (Hstep (String c (String d ""))); [done | cbn; lia]|].
  destruct s as [|e s]; [cbn; rewrite E1, E2; split; [done | by exists ""]|].
  destruct (f3 c d e) eqn:E3;
    [apply (Hstep (String c (String d (String e "")))); [done | cbn; lia]|].
  cbn. rewrite E1, E2, E3. split; [done | by exists ""].
Qed.
Lemma front_ok_prefix s t : front_ok f1 f2 f3 (s +:+ t) = true → front_ok f1 f2 f3 s = true.
Proof.
  destruct s as [|c [|d [|e s]]]; cbn; try done;
    rewrite ?andb_true_iff; naive_solver.
Qed.
End TrimFacts.

Lemma trim_right_prefix s : ∃ t, s = trim_right s +:+ t.
Proof.
  unfold trim_right.
  destruct (trim_front_spec space1 (λ c d, space2 d c) (λ c d e, space3 e d c)
    (String.rev s)) as [_ [p Hp]].
  exists (String.rev p). rewrite <- str_rev_app, <- Hp. by rewrite str_rev_involutive.
Qed.
Lemma trim_right_idemp s : trim_right (trim_right s) = trim_right s.
Proof.
  unfold trim_right. rewrite str_rev_involutive. f_equal.
  apply trim_front_ok, trim_front_spec.
Qed.
(** Names are trimmed before they are stored and again before a lookup. *)
Lemma trim_space_idemp s : trim_space (trim_space s) = trim_space s.
Proof.
  unfold trim_space at 1. unfold trim_left.
  rewrite trim_front_ok; [apply trim_right_idemp|].
  destruct (trim_right_prefix (trim_left s)) as [t Ht].
  apply (front_ok_prefix _ _ _ _ t). unfold trim_space. rewrite <- Ht.
  apply trim_front_spec.
Qed.
Lemma trim_space_nil : trim_space "" = "".
Proof. done. Qed.
#[export] Hint Rewrite trim_space_idemp to_upper_idemp trim_space_nil : go.

(** ** Plain strings: visible ASCII, nothing to trim *)

Fixpoint all_bytes (f : ascii → bool) (s : string) : bool :=
  match s with
  | EmptyString => true
  | String c s => f c && all_bytes f s
  end.
Definition plain : string → bool := all_bytes (byte_in 33 127).

Lemma all_bytes_app f s t : all_bytes f (s +:+ t) = all_bytes f s && all_bytes f t.
Proof.
  induction s as [|c s IH]; [by rewrite str_app_nil_l|].
  rewrite str_app_cons. cbn [all_bytes]. by rewrite IH, andb_assoc.
Qed.
Lemma all_bytes_rev f s : all_bytes f (String.rev s) = all_bytes f s.
Proof.
  induction s as [|c s IH]; [done|]. rewrite str_rev_cons, all_bytes_app, IH. cbn [all_bytes].
  by rewrite andb_true_r, andb_comm.
Qed.

Lemma byte_in_true lo hi c : byte_in lo hi c = true ↔ (lo ≤ byte_val c ≤ hi)%N.
Proof. unfold byte_in. rewrite andb_true_iff, !N.leb_le. done. Qed.
Lemma byte_in_false lo hi lo' hi' c :
  byte_in lo hi c = true → (hi < lo' ∨ hi' < lo)%N → byte_in lo' hi' c = false.
Proof.
  rewrite byte_in_true. intros ? ?. apply not_true_iff_false. rewrite byte_in_true. lia.
Qed.
Lemma plain_not_space1 c : byte_in 33 127 c = true → space1 c = false.
Proof. intros H. unfold space1. by rewrite !(byte_in_false _ _ _ _ _ H) by lia. Qed.
(** Neither end of a plain string starts or ends an encoded space. *)
Lemma plain_not_space2 c d :
  byte_in 33 127 c = true ∨ byte_in 33 127 d = true → space2 c d = false.
Proof.
  intros [H|H]; unfold space2; by rewrite !(byte_in_false _ _ _ _ _ H), ?andb_false_r by lia.
Qed.
Lemma plain_not_space3 c d e :
  byte_in 33 127 c = true ∨ byte_in 33 127 e = true → space3 c d e = false.
Proof.
  intros [H|H]; unfold space3; by rewrite !(byte_in_false _ _ _ _ _ H), ?andb_false_r by lia.
Qed.
Lemma plain_front_ok s :
  plain s = true →
  front_ok space1 space2 space3 s = true
  ∧ front_ok space1 (λ c d, space2 d c) (λ c d e, space3 e d c) s = true.
Proof.
  unfold plain. destruct s as [|c r]; [done|]. cbn [all_bytes front_ok].
  intros [Hc _]%andb_true_iff. rewrite plain_not_space1 by done. cbn [negb andb].
  destruct r as [|d [|e r]]; [done|..];
    rewrite ?plain_not_space2, ?plain_not_space3 by eauto; done.
Qed.

Lemma plain_trim s : plain s = true → trim_space s = s.
Proof.
  unfold trim_space, trim_left, trim_right. intros Hs.
  rewrite (trim_front_ok space1 space2 space3 s) by apply (plain_front_ok s Hs).
  rewrite trim_front_ok; [apply str_rev_involutive|].
  apply plain_front_ok. unfold plain. by rewrite all_bytes_rev.
Qed.

(** ** [sort.Strings] *)

Definition sort_strings (l : list string) : list string := merge_sort String.le l.

Lemma sort_strings_Permutation l : sort_strings l ≡ₚ l.
Proof. apply merge_sort_Permutation. Qed.
Lemma sort_strings_sorted l : StronglySorted String.le (sort_strings l).
Proof. apply StronglySorted_merge_sort; apply _. Qed.
Lemma sort_strings_eq a b : sort_strings a = sort_strings b ↔ a ≡ₚ b.
Proof.
  split.
  - intros E. by rewrite <- (sort_strings_Permutation a), E, sort_strings_Permutation.
  - intros Hab. apply (StronglySorted_unique String.le); [apply sort_strings_sorted..|].
    by rewrite !sort_strings_Permutation.
Qed.
