(* ===== verification/Paths.v ===== *)
(** * Request paths: normalisation, wildcard routes, upstream rewriting

    Models [normalizePath] and [joinProxyPath] (src/pkg/runtime/proxy.go) and
    [routeMatches] and [withWildcardRoute] (src/pkg/runtime/router.go). *)

From S2P Require Import Prelude GoStrings.

Definition normalizePath (path : string) : string :=
  if decide (path = "") then "/" else
  let path := if has_prefix path "/" then path else "/" +:+ path in
  if negb (String.eqb path "/") && has_suffix path "/"
  then trim_suffix path "/" else path.

Definition joinProxyPath (basePath incomingPath stripPrefix targetPathPrefix
    rewriteFrom rewriteTo : string) : string :=
  let path := incomingPath in
  let path := if decide (stripPrefix ≠ "") then trim_prefix path stripPrefix else path in
  let path :=
    if decide (rewriteFrom ≠ "") then
      if decide (path = rewriteFrom) then rewriteTo
      else if has_prefix path (rewriteFrom +:+ "/")
           then rewriteTo +:+ trim_prefix path rewriteFrom else path
    else path in
  let path := if decide (path = "") then "/" else path in
  let path :=
    if decide (targetPathPrefix ≠ "") then
      let targetPathPrefix := normalizePath targetPathPrefix in
      if decide (targetPathPrefix ≠ "/") then targetPathPrefix +:+ path else path
    else path in
  if decide (basePath = "" ∨ basePath = "/") then path
  else if has_suffix basePath "/" then trim_suffix basePath "/" +:+ path
  else basePath +:+ path.

Definition routeMatches (route path : string) : bool :=
  let route := normalizePath route in
  let path := normalizePath path in
  if decide (route = path) then true
  else if has_suffix route "/*" then
    let basePath := trim_suffix route "/*" in
    if decide (basePath = "") then true
    else bool_decide (basePath = path) || has_prefix path (basePath +:+ "/")
  else has_prefix path (route +:+ "/").

Definition withWildcardRoute (prefix : string) : string :=
  let prefix := normalizePath prefix in
  if decide (prefix = "/") then "/*" else prefix +:+ "/*".

(** ** What the normal form is *)

(** A path that starts with a slash and, unless it is the root, does not end
    with one. *)
Definition normal_path (p : string) : bool :=
  has_prefix p "/" && (String.eqb p "/" || negb (has_suffix p "/")).

(** Whether a path ends with two slashes: the inputs on which one pass of the
    normalisation leaves a trailing slash. *)
Definition double_slash_end (p : string) : bool := has_suffix p "//".

(** The path is [base] or lies below it. *)
Definition under (base path : string) : bool :=
  bool_decide (path = base) || has_prefix path (base +:+ "/").

(** ** Lemmas *)

Lemma slash_prefix p : has_prefix p "/" = true ↔ ∃ r, p = String "/" r.
Proof. apply has_prefix_spec. Qed.

Lemma normalizePath_slash p : has_prefix (normalizePath p) "/" = true.
Proof.
  unfold normalizePath. case_decide; [done|].
  set (q := if has_prefix p "/" then p else "/" +:+ p).
  assert (has_prefix q "/" = true) as [r Hr]%slash_prefix.
  { unfold q. destruct (has_prefix p "/") eqn:E; [done | apply has_prefix_app]. }
  destruct (negb _ && _) eqn:E; [|rewrite Hr; done].
  apply andb_true_iff in E as [E1 [s Hs]%has_suffix_spec].
  rewrite Hs, trim_suffix_app. apply negb_true_iff, String.eqb_neq in E1.
  destruct s as [|c s]; rewrite Hs in Hr; cbn in Hr; [by rewrite Hs in E1|].
  by injection Hr as -> _.
Qed.

Lemma normalizePath_not_nil p : normalizePath p ≠ "".
Proof. intros E. pose proof (normalizePath_slash p) as H. by rewrite E in H. Qed.

Lemma normal_path_spec p :
  normal_path p = true ↔ has_prefix p "/" = true ∧ (p = "/" ∨ has_suffix p "/" = false).
Proof.
  unfold normal_path. rewrite andb_true_iff, orb_true_iff, String.eqb_eq, negb_true_iff.
  done.
Qed.

Lemma normal_path_fixed p : normal_path p = true → normalizePath p = p.
Proof.
  rewrite normal_path_spec. intros [Hp Hs]. unfold normalizePath.
  case_decide as Hnil; [by rewrite Hnil in Hp|]. rewrite Hp.
  destruct Hs as [->|Hs]; [done|]. rewrite Hs. by rewrite andb_false_r.
Qed.

(** One pass reaches the normal form exactly when the path does not end with a
    double slash. *)
Lemma normalizePath_normal p :
  double_slash_end p = false → normal_path (normalizePath p) = true.
Proof.
  intros Hd. apply normal_path_spec. split; [apply normalizePath_slash|].
  unfold normalizePath. case_decide; [by left|].
  set (q := if has_prefix p "/" then p else "/" +:+ p).
  destruct (negb _ && _) eqn:E.
  2: { apply andb_false_iff in E as [E|E]; [|by right].
       left. apply negb_false_iff, String.eqb_eq in E. done. }
  right. apply andb_true_iff in E as [E1 [s Hs]%has_suffix_spec].
  rewrite Hs, trim_suffix_app. apply not_true_iff_false.
  intros [t ->]%has_suffix_spec.
  apply not_true_iff_false in Hd. apply Hd, has_suffix_spec.
  rewrite <- str_app_assoc in Hs. cbn in Hs.
  unfold q in Hs. destruct (has_prefix p "/") eqn:Ep; [by exists t|].
  destruct t as [|c t]; cbn in Hs; injection Hs as Hs; [|by exists t].
  rewrite Hs in Ep. done.
Qed.

Lemma normalizePath_idemp p :
  double_slash_end p = false → normalizePath (normalizePath p) = normalizePath p.
Proof. intros. by apply normal_path_fixed, normalizePath_normal. Qed.

Lemma normal_path_no_double p : normal_path p = true → double_slash_end p = false.
Proof.
  rewrite normal_path_spec. intros [_ Hs]. apply not_true_iff_false.
  intros [r ->]%has_suffix_spec. destruct Hs as [Hs|Hs].
  - destruct r as [|c [|d r]]; cbn in Hs; simplify_eq.
  - change "//" with ("/" +:+ "/") in Hs. by rewrite str_app_assoc, has_suffix_app in Hs.
Qed.

Lemma withWildcardRoute_suffix p : has_suffix (withWildcardRoute p) "/*" = true.
Proof. unfold withWildcardRoute. case_decide; [done | apply has_suffix_app]. Qed.

Lemma wildcard_normal b : has_prefix b "/" = true → normal_path (b +:+ "/*") = true.
Proof.
  intros Hb. apply normal_path_spec. split.
  - apply slash_prefix in Hb as [r ->]. done.
  - right. apply not_true_iff_false. intros [r Hr]%has_suffix_spec.
    change "/*" with ("/" +:+ "*") in Hr. rewrite str_app_assoc in Hr.
    assert (String.rev ((b +:+ "/") +:+ "*") = String.rev (r +:+ "/")) as H by by rewrite Hr.
    rewrite !str_rev_app in H. by cbn in H.
Qed.

(** The two routes a mount registers match exactly the paths at or below it. *)
Lemma routeMatches_wildcard b p :
  normal_path b = true → b ≠ "/" → normal_path p = true →
  routeMatches (withWildcardRoute b) p = under b p || bool_decide (p = b +:+ "/*").
Proof.
  intros Hb Hne Hp. unfold routeMatches, withWildcardRoute, under.
  rewrite (normal_path_fixed b) by done. rewrite !(decide_False (P:=b = "/")) by done.
  pose proof (proj1 (normal_path_spec b) Hb) as [Hbs _].
  rewrite (normal_path_fixed (b +:+ "/*")) by by apply wildcard_normal.
  rewrite (normal_path_fixed p) by done.
  case_decide as Heq.
  - subst p. by rewrite (bool_decide_eq_true_2 (_ = b +:+ _)), orb_true_r.
  - rewrite has_suffix_app, trim_suffix_app.
    rewrite (decide_False (P:=b = "")) by (intros ->; done).
    rewrite (bool_decide_eq_false_2 (p = b +:+ _)) by congruence. rewrite orb_false_r.
    f_equal. apply bool_decide_ext. split; congruence.
Qed.

Lemma under_spec b p : under b p = true ↔ p = b ∨ ∃ r, p = b +:+ "/" +:+ r.
Proof.
  unfold under. rewrite orb_true_iff, bool_decide_eq_true, has_prefix_spec.
  setoid_rewrite <- str_app_assoc. done.
Qed.

(** ** What a mounted proxy asks its upstream for *)

(** A path that starts with a slash is its normal form, perhaps with a slash
    more. *)
Lemma normalizePath_cases p :
  has_prefix p "/" = true → p = normalizePath p ∨ p = normalizePath p +:+ "/".
Proof.
  intros Hp. unfold normalizePath. destruct (decide (p = "")) as [->|]; [done|]. rewrite Hp.
  destruct (negb _ && has_suffix p "/") eqn:E; [|by left]. right.
  apply andb_true_iff in E as [_ [s ->]%has_suffix_spec]. by rewrite trim_suffix_app.
Qed.

Lemma under_rest b p :
  has_prefix p "/" = true → under b (normalizePath p) = true → b ≠ "/" →
  ∃ rest, p = b +:+ rest ∧ (rest = "" ∨ has_prefix rest "/" = true).
Proof.
  intros Hp Hu Hb. apply under_spec in Hu.
  destruct (normalizePath_cases p Hp) as [E|E]; destruct Hu as [Hu|[r Hu]]; rewrite Hu in E.
  - exists "". split; [by rewrite str_app_nil_r | by left].
  - exists ("/" +:+ r). split; [done | right; apply has_prefix_app].
  - exists "/". split; [done | by right].
  - exists ("/" +:+ r +:+ "/"). split; [|right; apply has_prefix_app].
    by rewrite E, <- !str_app_assoc.
Qed.

Lemma joinProxyPath_strip base b rest :
  b ≠ "" →
  joinProxyPath base (b +:+ rest) b "" "" ""
  = trim_suffix base "/" +:+ (if decide (rest = "") then "/" else rest).
Proof.
  intros Hb. unfold joinProxyPath. rewrite (decide_True (P:=b ≠ "")) by done.
  rewrite trim_prefix_app. rewrite !(decide_False (P:="" ≠ "")) by auto.
  destruct (decide (base = "" ∨ base = "/")) as [[->| ->]|]; [done..|].
  destruct (has_suffix base "/") eqn:E; [done|]. by rewrite trim_suffix_none.
Qed.
