(* ===== verification/RoutePattern.v ===== *)
(** * Route patterns: compilation, matching and parameter extraction

    Models the pattern compiler and the two matchers of
    src/pkg/runtime/router.go.  Where the Go loops keep an offset into a
    string, the model recurses on the remaining suffix [s[off:]]; where the
    compiler's index jumps forward, the model counts the bytes to skip, so
    every function here is structurally recursive and total. *)

From S2P Require Import Prelude GoStrings Paths.

(** One piece of a mixed segment; the parameter name is empty for a literal. *)
Record segPart := SegPart { part_literal : string; part_param : string }.

(** One compiled path segment.  [seg_parts] is empty (Go: nil) unless the
    segment mixes literals and parameters. *)
Record routeSegment := RouteSegment {
  seg_literal : string;
  seg_param : string;
  seg_parts : list segPart;
}.

#[export] Instance segPart_eq_dec : EqDecision segPart.
Proof. solve_decision. Defined.
#[export] Instance routeSegment_eq_dec : EqDecision routeSegment.
Proof. solve_decision. Defined.

Definition lit_part (s : string) : segPart := SegPart s "".
Definition param_part (s : string) : segPart := SegPart "" s.

(** ** Names *)

Definition validParamByte (b : ascii) : bool :=
  byte_in 97 122 b || byte_in 65 90 b || byte_in 48 57 b || byte_in 95 95 b.

(** A byte above 127 decodes to a rune at or above [utf8.RuneSelf], which the
    code rejects; [validParamByte] rejects it too. *)
Fixpoint validParamName (name : string) : bool :=
  match name with
  | EmptyString => true
  | String r name => validParamByte r && validParamName name
  end.

Definition paramSegmentName (segment : string) : option string :=
  let checked name :=
    if decide (name = "") then None
    else if validParamName name then Some name else None in
  if has_prefix segment "{" && has_suffix segment "}" then
    checked (str_take (String.length segment - 2) (str_drop 1 segment))
  else if has_prefix segment ":" then checked (str_drop 1 segment)
  else None.

(** ** Compiling *)

(** The bytes of a ":name" inside a segment: up to '.', '-', '_', '{' or any
    byte that is not allowed in a name. *)
Fixpoint colon_name (s : string) : string :=
  match s with
  | EmptyString => EmptyString
  | String d s =>
      if byte_in 46 46 d || byte_in 45 45 d || byte_in 95 95 d || byte_in 123 123 d
      then EmptyString
      else if validParamByte d then String d (colon_name s) else EmptyString
  end.

Definition flush (lit : string) (parts : list segPart) : list segPart :=
  if decide (lit = "") then parts else parts ++ [lit_part lit].

(** The loop of [compileSegParts] at a position whose remaining input is
    [segment]; [skip] bytes of it were consumed by the last parameter. *)
Fixpoint compile_loop (segment : string) (skip : nat) (lit : string)
    (parts : list segPart) : list segPart :=
  match segment with
  | EmptyString => flush lit parts
  | String c rest =>
      match skip with
      | S skip => compile_loop rest skip lit parts
      | 0 =>
          let literal := compile_loop rest 0 (lit +:+ String c "") parts in
          if Ascii.eqb c "{" then
            match index_byte rest "}" with
            | None => literal
            | Some i =>
                let name := str_take i rest in
                if String.eqb name "" || negb (validParamName name) then literal
                else compile_loop rest (S i) "" (flush lit parts ++ [param_part name])
            end
          else if Ascii.eqb c ":" then
            let name := colon_name rest in
            if String.eqb name "" then literal
            else compile_loop rest (String.length name) ""
                   (flush lit parts ++ [param_part name])
          else literal
      end
  end.

Definition compileSegParts (segment : string) : option (list segPart) :=
  let parts := compile_loop segment 0 "" [] in
  if existsb (λ p, negb (String.eqb (part_param p) "")) parts
  then Some parts else None.

Fixpoint compile_segments (parts : list string) : list routeSegment * bool :=
  match parts with
  | [] => ([], false)
  | part :: rest =>
      let '(segments, hasParams) := compile_segments rest in
      match paramSegmentName part with
      | Some name => (RouteSegment "" name [] :: segments, true)
      | None =>
          match compileSegParts part with
          | Some segParts => (RouteSegment "" "" segParts :: segments, true)
          | None => (RouteSegment part "" [] :: segments, hasParams)
          end
      end
  end.

Definition compilePattern (pattern : string) : list routeSegment * bool :=
  let trimmed := trim_prefix pattern "/" in
  if decide (trimmed = "") then ([], false) else compile_segments (split trimmed "/").

(** ** Matching *)

(** Where a parameter part ends: before the next literal part, or at the end
    of the segment. *)
Definition part_end (rest : list segPart) (seg : string) : option nat :=
  match rest with
  | next :: _ =>
      if decide (part_param next = "") then index seg (part_literal next)
      else Some (String.length seg)
  | [] => Some (String.length seg)
  end.

Fixpoint matchSegParts (parts : list segPart) (seg : string) : bool :=
  match parts with
  | [] => String.eqb seg ""
  | part :: rest =>
      if decide (part_param part ≠ "") then
        match part_end rest seg with
        | None | Some 0 => false
        | Some n => matchSegParts rest (str_drop n seg)
        end
      else if has_prefix seg (part_literal part)
           then matchSegParts rest (str_drop (String.length (part_literal part)) seg)
           else false
  end.

Definition matchSegment (s : routeSegment) (seg : string) : bool :=
  if decide (seg_param s ≠ "") then negb (String.eqb seg "")
  else match seg_parts s with
       | [] => String.eqb (seg_literal s) seg
       | parts => matchSegParts parts seg
       end.

Fixpoint match_loop (segments : list routeSegment) (rest : string) : bool :=
  match segments with
  | [] => false
  | s :: segments =>
      match index_byte rest "/" with
      | None => matchSegment s rest && bool_decide (segments = [])
      | Some idx =>
          matchSegment s (str_take idx rest)
          && match_loop segments (str_drop (S idx) rest)
      end
  end.

Definition matchParams (segments : list routeSegment) (path : string) : bool :=
  if String.length path <=? 1 then false else match_loop segments (str_drop 1 path).

(** ** Extraction *)

Fixpoint segPartValue (parts : list segPart) (seg name : string) : option string :=
  match parts with
  | [] => None
  | part :: rest =>
      if decide (part_param part ≠ "") then
        match part_end rest seg with
        | None => None
        | Some n =>
            if decide (part_param part = name) then Some (str_take n seg)
            else segPartValue rest (str_drop n seg) name
        end
      else if has_prefix seg (part_literal part)
           then segPartValue rest (str_drop (String.length (part_literal part)) seg) name
           else None
  end.

Definition segment_value (s : routeSegment) (seg name : string) : option string :=
  if bool_decide (seg_param s ≠ "") && bool_decide (seg_param s = name) then Some seg
  else match seg_parts s with
       | [] => None
       | parts => segPartValue parts seg name
       end.

Fixpoint value_loop (segments : list routeSegment) (rest name : string) : string :=
  match segments with
  | [] => ""
  | s :: segments =>
      match index_byte rest "/" with
      | None => default "" (segment_value s rest name)
      | Some idx =>
          match segment_value s (str_take idx rest) name with
          | Some v => v
          | None => value_loop segments (str_drop (S idx) rest) name
          end
      end
  end.

Definition paramValue (segments : list routeSegment) (path name : string) : string :=
  if String.length path <=? 1 then "" else value_loop segments (str_drop 1 path) name.

Example compile_mixed :
  compilePattern "/u/{id}/post-{n}.json"
  = ([RouteSegment "u" "" []; RouteSegment "" "id" [];
      RouteSegment "" "" [lit_part "post-"; param_part "n"; lit_part ".json"]], true).
Proof. reflexivity. Qed.
Example value_mixed :
  paramValue (compilePattern "/u/{id}/post-{n}.json").1 "/u/7/post-42.json" "n" = "42".
Proof. reflexivity. Qed.

(** ** Specification: patterns as relations on path segments *)

(** The names a compiled segment or pattern declares. *)
Definition part_names (parts : list segPart) : list string :=
  filter (λ n, n ≠ "") (part_param <$> parts).
Definition segment_names (s : routeSegment) : list string :=
  if decide (seg_param s ≠ "") then [seg_param s] else part_names (seg_parts s).
Definition pattern_names (segments : list routeSegment) : list string :=
  segments ≫= segment_names.

(** Substituting values for the parameters of a pattern. *)
Section Render.
Context (ρ : string → string).

Definition render_part (p : segPart) : string :=
  if decide (part_param p ≠ "") then ρ (part_param p) else part_literal p.
Fixpoint render_parts (parts : list segPart) : string :=
  match parts with
  | [] => ""
  | p :: parts => render_part p +:+ render_parts parts
  end.
Definition render_segment (s : routeSegment) : string :=
  if decide (seg_param s ≠ "") then ρ (seg_param s)
  else match seg_parts s with
       | [] => seg_literal s
       | parts => render_parts parts
       end.
Definition render_path (segments : list routeSegment) : string :=
  "/" +:+ join (render_segment <$> segments) "/".

(** Every parameter is followed by a literal whose first byte its value does
    not contain, or by the end of the segment; values are not empty. *)
Fixpoint parts_fit (parts : list segPart) : Prop :=
  match parts with
  | [] => True
  | p :: rest =>
      (if decide (part_param p ≠ "") then
         ρ (part_param p) ≠ ""
         ∧ match rest with
           | [] => True
           | q :: _ =>
               part_param q = ""
               ∧ match part_literal q with
                 | EmptyString => False
                 | String c _ => mem_byte c (ρ (part_param p)) = false
                 end
           end
       else True)
      ∧ parts_fit rest
  end.
Definition segment_fits (s : routeSegment) : Prop :=
  (if decide (seg_param s ≠ "") then ρ (seg_param s) ≠ ""
   else parts_fit (seg_parts s))
  ∧ mem_byte "/" (render_segment s) = false.
End Render.

(** Two parameters with no literal between them. *)
Fixpoint adjacent_params (parts : list segPart) : bool :=
  match parts with
  | p :: (q :: _) as rest =>
      (bool_decide (part_param p ≠ "") && bool_decide (part_param q ≠ ""))
      || adjacent_params rest
  | _ => false
  end.

(** ** Matching is segment by segment *)

Lemma match_loop_split segments rest :
  match_loop segments rest = true
  ↔ Forall2 (λ s t, matchSegment s t = true) segments (split rest "/").
Proof.
  revert rest; induction segments as [|s segments IH]; intros rest; cbn.
  - split; [done|]. intros H%Forall2_nil_inv_l. by apply split_not_nil in H.
  - destruct (index_byte rest "/") as [i|] eqn:Hi.
    + apply index_byte_Some in Hi as [Hr Hm].
      rewrite Hr at 3. rewrite split_app_sep by done.
      rewrite Forall2_cons, andb_true_iff, IH. done.
    + apply index_byte_None in Hi. rewrite split_no_sep by done.
      rewrite Forall2_cons, andb_true_iff, bool_decide_eq_true.
      split; intros [H1 H2]; (split; [done|]); [by rewrite H2|].
      by apply Forall2_nil_inv_r in H2.
Qed.

Lemma matchParams_split segments path :
  matchParams segments path = true
  ↔ 2 ≤ String.length path
    ∧ Forall2 (λ s t, matchSegment s t = true) segments (split (str_drop 1 path) "/").
Proof.
  unfold matchParams. destruct (Nat.leb_spec (String.length path) 1) as [Hl|Hl].
  - split; [done | intros [? _]; lia].
  - rewrite match_loop_split. intuition lia.
Qed.

(** ** The end of a parameter part *)

Lemma has_prefix_mem c lit s : has_prefix s (String c lit) = true → mem_byte c s = true.
Proof. intros [r ->]%has_prefix_spec. cbn. by rewrite Ascii.eqb_refl. Qed.

Lemma index_app_fresh v c lit r :
  mem_byte c v = false →
  index (v +:+ String c lit +:+ r) (String c lit) = Some (String.length v).
Proof.
  induction v as [|d v IH]; intros Hv.
  - rewrite str_app_nil_l. destruct (String c lit +:+ r) eqn:E; cbn [index];
      rewrite <- E, has_prefix_app; done.
  - cbn in Hv. apply orb_false_iff in Hv as [Hd Hv].
    rewrite str_app_cons. cbn [index has_prefix].
    rewrite Ascii.eqb_sym, Hd. cbn [andb]. by rewrite IH.
Qed.

Lemma render_part_param ρ p :
  part_param p ≠ "" → render_part ρ p = ρ (part_param p).
Proof. unfold render_part. by intros; rewrite decide_True. Qed.
Lemma render_part_literal ρ p :
  ¬ part_param p ≠ "" → render_part ρ p = part_literal p.
Proof. unfold render_part. by intros; rewrite decide_False. Qed.

Lemma part_end_render ρ p rest :
  part_param p ≠ "" → parts_fit ρ (p :: rest) →
  part_end rest (render_parts ρ (p :: rest)) = Some (String.length (ρ (part_param p))).
Proof.
  intros Hp [Hfit _]. rewrite decide_True in Hfit by done. destruct Hfit as [_ Hfit].
  cbn [render_parts]. rewrite render_part_param by done.
  destruct rest as [|q rest]; cbn [part_end render_parts].
  - by rewrite str_app_nil_r.
  - destruct Hfit as [Hq Hfit]. rewrite decide_True by done.
    rewrite render_part_literal by (rewrite Hq; auto).
    destruct (part_literal q) as [|c lit]; [done|]. by apply index_app_fresh.
Qed.

Lemma render_parts_match ρ parts :
  parts_fit ρ parts → matchSegParts parts (render_parts ρ parts) = true.
Proof.
  induction parts as [|p parts IH]; intros Hfit; [done|].
  cbn [matchSegParts]. destruct (decide (part_param p ≠ "")) as [Hp|Hp].
  - rewrite (part_end_render ρ p parts Hp Hfit).
    destruct Hfit as [Hne Hfit]. rewrite decide_True in Hne by done.
    destruct (String.length (ρ (part_param p))) as [|n] eqn:Hn.
    { apply str_length_0 in Hn. naive_solver. }
    rewrite <- Hn. cbn [render_parts]. rewrite render_part_param by done.
    rewrite str_drop_app. auto.
  - cbn [render_parts]. rewrite render_part_literal by done.
    rewrite has_prefix_app, str_drop_app. apply IH, Hfit.
Qed.

Lemma part_names_cons p parts :
  part_names (p :: parts)
  = if decide (part_param p ≠ "") then part_param p :: part_names parts
    else part_names parts.
Proof. unfold part_names. rewrite fmap_cons, filter_cons. by repeat case_decide. Qed.

Lemma render_parts_value ρ parts name :
  parts_fit ρ parts → name ∈ part_names parts →
  segPartValue parts (render_parts ρ parts) name = Some (ρ name).
Proof.
  induction parts as [|p parts IH]; intros Hfit Hin; [by apply not_elem_of_nil in Hin|].
  rewrite part_names_cons in Hin. cbn [segPartValue].
  destruct (decide (part_param p ≠ "")) as [Hp|Hp].
  - rewrite (part_end_render ρ p parts Hp Hfit). cbn [render_parts].
    rewrite render_part_param by done.
    destruct (decide (part_param p = name)) as [Hn|Hn]; [by rewrite str_take_app, Hn|].
    rewrite str_drop_app. apply IH; [apply Hfit|].
    apply elem_of_cons in Hin as [?|?]; [congruence | done].
  - cbn [render_parts]. rewrite render_part_literal by done.
    rewrite has_prefix_app, str_drop_app. apply IH; [apply Hfit | done].
Qed.

Lemma render_segment_match ρ s :
  segment_fits ρ s → matchSegment s (render_segment ρ s) = true.
Proof.
  intros [Hfit _]. unfold matchSegment, render_segment.
  destruct (decide (seg_param s ≠ "")) as [Hp|Hp].
  - by apply negb_true_iff, String.eqb_neq.
  - destruct (seg_parts s) as [|p ps]; [by apply String.eqb_eq|].
    by apply render_parts_match.
Qed.

Lemma render_segment_value ρ s name :
  segment_fits ρ s → name ∈ segment_names s →
  segment_value s (render_segment ρ s) name = Some (ρ name).
Proof.
  intros [Hfit _] Hin. unfold segment_value, render_segment.
  unfold segment_names in Hin. destruct (decide (seg_param s ≠ "")) as [Hp|Hp].
  - apply list_elem_of_singleton in Hin as ->.
    by rewrite bool_decide_eq_refl, (bool_decide_eq_true_2 (seg_param s ≠ "")).
  - rewrite (bool_decide_eq_false_2 (seg_param s ≠ "")) by done. cbn [andb].
    destruct (seg_parts s) as [|p ps]; [by apply not_elem_of_nil in Hin|].
    by apply render_parts_value.
Qed.

(** Compiled segments are a parameter, a part list or a literal. *)
Definition segment_wf (s : routeSegment) : Prop :=
  seg_param s ≠ "" → seg_parts s = [].

Lemma segPartValue_undeclared parts seg name :
  name ∉ part_names parts → segPartValue parts seg name = None.
Proof.
  revert seg; induction parts as [|p parts IH]; intros seg; [done|].
  rewrite part_names_cons. cbn [segPartValue].
  destruct (decide (part_param p ≠ "")) as [Hp|Hp].
  - intros [Hne Hin]%not_elem_of_cons. destruct (part_end parts seg); [|done].
    rewrite decide_False by done. auto.
  - intros Hin. destruct (has_prefix _ _); auto.
Qed.
Lemma segment_value_undeclared s seg name :
  segment_wf s → name ∉ segment_names s → segment_value s seg name = None.
Proof.
  unfold segment_value, segment_names, segment_wf. intros Hwf.
  destruct (decide (seg_param s ≠ "")) as [Hp|Hp].
  - intros Hin%not_elem_of_cons. rewrite Hwf by done.
    by rewrite (bool_decide_eq_false_2 (seg_param s = name)), andb_false_r by naive_solver.
  - intros Hin. rewrite (bool_decide_eq_false_2 (seg_param s ≠ "")) by done. cbn [andb].
    destruct (seg_parts s) eqn:E; [done|]. by apply segPartValue_undeclared.
Qed.

Lemma value_loop_split segments rest name :
  value_loop segments rest name
  = default "" (head (omap (λ st, segment_value st.1 st.2 name)
                       (zip segments (split rest "/")))).
Proof.
  revert rest; induction segments as [|s segments IH]; intros rest; cbn; [done|].
  destruct (index_byte rest "/") as [i|] eqn:Hi.
  - apply index_byte_Some in Hi as [Hr Hm].
    replace (split rest "/") with (str_take i rest :: split (str_drop (S i) rest) "/")
      by (rewrite Hr at 3; by rewrite split_app_sep).
    cbn [zip zip_with omap list_omap fst snd].
    destruct (segment_value s (str_take i rest) name); [done|]. apply IH.
  - apply index_byte_None in Hi. rewrite split_no_sep by done. cbn.
    rewrite zip_with_nil_r. cbn. by destruct (segment_value s rest name).
Qed.

Lemma split_render ρ segments :
  segments ≠ [] → Forall (segment_fits ρ) segments →
  split (str_drop 1 (render_path ρ segments)) "/" = render_segment ρ <$> segments.
Proof.
  intros Hne Hfit. unfold render_path. cbn [String.append str_drop].
  apply split_join; [by destruct segments|].
  intros x (s & -> & Hs)%list_elem_of_fmap. rewrite Forall_forall in Hfit.
  by apply Hfit.
Qed.

(** ** Round trip and extraction at the level of whole paths *)

Lemma fmap_zip_render_value ρ segments name :
  Forall segment_wf segments → Forall (segment_fits ρ) segments →
  name ∈ pattern_names segments →
  head (omap (λ st, segment_value st.1 st.2 name)
          (zip segments (render_segment ρ <$> segments))) = Some (ρ name).
Proof.
  induction segments as [|s segments IH]; intros Hwf Hfit Hin;
    [by apply not_elem_of_nil in Hin|].
  apply Forall_cons in Hwf as [Hs Hwf]. apply Forall_cons in Hfit as [Hf Hfit].
  cbn. destruct (decide (name ∈ segment_names s)) as [Hn|Hn].
  - by rewrite render_segment_value.
  - rewrite segment_value_undeclared by done. apply IH; [done..|].
    unfold pattern_names in *. cbn in Hin. apply elem_of_app in Hin as [?|?]; done.
Qed.

Lemma render_declared_nonempty ρ s name :
  segment_fits ρ s → name ∈ segment_names s → render_segment ρ s ≠ "".
Proof.
  intros Hfit Hin E. pose proof (render_segment_match ρ s Hfit) as Hm.
  rewrite E in Hm. unfold matchSegment, segment_names in *.
  destruct (decide (seg_param s ≠ "")) as [Hp|Hp]; [done|].
  destruct (seg_parts s) as [|p ps]; [by apply not_elem_of_nil in Hin|].
  revert Hm Hin. generalize (p :: ps) as parts. clear. induction parts as [|p parts IH].
  { intros _ Hin. by apply not_elem_of_nil in Hin. }
  rewrite part_names_cons. cbn [matchSegParts].
  destruct (decide (part_param p ≠ "")) as [Hp|Hp].
  - destruct (part_end parts "") as [[|n]|] eqn:He; try done. intros _ _.
    destruct parts as [|q parts]; cbn [part_end String.length] in He; [done|]. case_decide; [|done].
    by apply index_Some in He as [He%Nat.le_0_r _].
  - destruct (part_literal p); cbn; done.
Qed.

Lemma join_length_elem l x : x ∈ l → String.length x ≤ String.length (join l "/").
Proof.
  induction l as [|y l IH]; [by intros ?%not_elem_of_nil|].
  intros Hx. destruct l as [|z l].
  - by apply list_elem_of_singleton in Hx as ->.
  - rewrite join_cons, !str_length_app by done.
    apply elem_of_cons in Hx as [->|Hx]; [lia|]. apply IH in Hx. lia.
Qed.

Lemma render_path_matches ρ segments name :
  Forall segment_wf segments → Forall (segment_fits ρ) segments →
  name ∈ pattern_names segments →
  matchParams segments (render_path ρ segments) = true
  ∧ paramValue segments (render_path ρ segments) name = ρ name.
Proof.
  intros Hwf Hfit Hin.
  assert (segments ≠ []) as Hne by (intros ->; by apply not_elem_of_nil in Hin).
  assert (2 ≤ String.length (render_path ρ segments)) as Hl.
  { pose proof Hin as (s & Hn & Hs)%list_elem_of_bind.
    rewrite Forall_forall in Hfit.
    pose proof (render_declared_nonempty ρ s name (Hfit s Hs) Hn) as Hr.
    unfold render_path. rewrite str_length_app.
    pose proof (join_length_elem (render_segment ρ <$> segments) (render_segment ρ s)
      (list_elem_of_fmap_2 _ _ _ Hs)).
    destruct (render_segment ρ s); [done|]. cbn in *. lia. }
  split.
  - apply matchParams_split. split; [done|]. rewrite split_render by done.
    apply Forall2_fmap_r, Forall_Forall2_diag.
    eapply Forall_impl; [exact Hfit | apply render_segment_match].
  - unfold paramValue. rewrite (proj2 (Nat.leb_gt _ _)) by lia.
    rewrite value_loop_split, split_render by done.
    by rewrite fmap_zip_render_value.
Qed.

(** A declared parameter of a segment that matched has a non-empty value. *)
Lemma segPartValue_matched parts seg name :
  matchSegParts parts seg = true → name ∈ part_names parts →
  ∃ v, segPartValue parts seg name = Some v ∧ v ≠ ""
       ∧ ∀ c, mem_byte c v = true → mem_byte c seg = true.
Proof.
  revert seg; induction parts as [|p parts IH]; intros seg Hm Hin;
    [by apply not_elem_of_nil in Hin|].
  assert (∀ n v, (∀ c, mem_byte c v = true → mem_byte c (str_drop n seg) = true) →
    ∀ c, mem_byte c v = true → mem_byte c seg = true) as Hdrop.
  { intros n v Hv c Hc%Hv. rewrite <- (str_take_drop n seg), mem_byte_app, Hc.
    apply orb_true_r. }
  rewrite part_names_cons in Hin. cbn [matchSegParts segPartValue] in *.
  destruct (decide (part_param p ≠ "")) as [Hp|Hp].
  - destruct (part_end parts seg) as [[|n]|] eqn:He; try done.
    destruct (decide (part_param p = name)) as [Hn|Hn].
    + eexists; split; [done|]. split.
      * destruct seg; [|done]. destruct parts as [|q parts]; cbn [part_end String.length] in He; [done|].
        case_decide; [|done]. by apply index_Some in He as [He%Nat.le_0_r _].
      * intros c Hc. rewrite <- (str_take_drop (S n) seg), mem_byte_app, Hc. done.
    + apply elem_of_cons in Hin as [?|Hin]; [congruence|].
      destruct (IH _ Hm Hin) as (v & -> & Hne & Hv). eauto.
  - destruct (has_prefix seg (part_literal p)); [|done].
    destruct (IH _ Hm Hin) as (v & -> & Hne & Hv). eauto.
Qed.

Lemma segment_value_matched s seg name :
  segment_wf s → matchSegment s seg = true → name ∈ segment_names s →
  ∃ v, segment_value s seg name = Some v ∧ v ≠ ""
       ∧ ∀ c, mem_byte c v = true → mem_byte c seg = true.
Proof.
  unfold matchSegment, segment_value, segment_names. intros Hwf Hm Hin.
  destruct (decide (seg_param s ≠ "")) as [Hp|Hp].
  - apply list_elem_of_singleton in Hin as ->. exists seg.
    rewrite bool_decide_eq_refl, (bool_decide_eq_true_2 (seg_param s ≠ "")) by done.
    split; [done|]. split; [|done]. by apply String.eqb_neq, negb_true_iff.
  - rewrite (bool_decide_eq_false_2 (seg_param s ≠ "")) by done. cbn [andb].
    destruct (seg_parts s) as [|p ps]; [by apply not_elem_of_nil in Hin|].
    by apply segPartValue_matched.
Qed.

Lemma paramValue_matched segments path name :
  Forall segment_wf segments → matchParams segments path = true →
  name ∈ pattern_names segments →
  paramValue segments path name ≠ "" ∧ mem_byte "/" (paramValue segments path name) = false.
Proof.
  intros Hwf [Hl Hm]%matchParams_split Hin. unfold paramValue.
  rewrite (proj2 (Nat.leb_gt _ _)) by lia. rewrite value_loop_split.
  assert (∀ t, t ∈ split (str_drop 1 path) "/" → mem_byte "/" t = false) as Hsep
    by apply split_elem_no_sep.
  revert Hsep. induction Hm as [|s t segments ts Hs Hm IH]; intros Hsep;
    [by apply not_elem_of_nil in Hin|].
  apply Forall_cons in Hwf as [Hw Hwf]. cbn.
  destruct (decide (name ∈ segment_names s)) as [Hn|Hn].
  - destruct (segment_value_matched s t name Hw Hs Hn) as (v & -> & Hne & Hv). cbn.
    split; [done|]. apply not_true_iff_false. intros Hc%Hv.
    rewrite Hsep in Hc by (by left). done.
  - rewrite segment_value_undeclared by done. apply IH; [done|..].
    + unfold pattern_names in *. cbn in Hin. apply elem_of_app in Hin as [?|?]; done.
    + intros u Hu. apply Hsep. by right.
Qed.

Lemma matchSegParts_cons part rest seg :
  matchSegParts (part :: rest) seg
  = if decide (part_param part ≠ "") then
      match part_end rest seg with
      | None | Some 0 => false
      | Some n => matchSegParts rest (str_drop n seg)
      end
    else if has_prefix seg (part_literal part)
         then matchSegParts rest (str_drop (String.length (part_literal part)) seg)
         else false.
Proof. done. Qed.

(** A parameter part never matches the empty segment. *)
Lemma param_part_nil q parts :
  part_param q ≠ "" → matchSegParts (q :: parts) "" = false.
Proof.
  intros Hq. rewrite matchSegParts_cons, decide_True by done.
  destruct parts as [|r parts]; cbn [part_end String.length]; [done|].
  destruct (decide (part_param r = "")); [|done].
  destruct (index "" (part_literal r)) as [[|i]|] eqn:Hi; try done.
  by apply index_Some in Hi as [Hi%Nat.nle_succ_0 _].
Qed.

(** Two adjacent parameters: the first takes the rest of the segment. *)
Lemma adjacent_params_no_match parts seg :
  adjacent_params parts = true → matchSegParts parts seg = false.
Proof.
  revert seg; induction parts as [|p [|q parts] IH]; intros seg Ha; try done.
  rewrite matchSegParts_cons. cbn [adjacent_params] in Ha.
  apply orb_true_iff in Ha as [Ha|Ha].
  - apply andb_true_iff in Ha as [Hp%bool_decide_eq_true Hq%bool_decide_eq_true].
    rewrite decide_True by done. unfold part_end. rewrite decide_False by done.
    destruct (String.length seg) eqn:E; [done|].
    rewrite str_drop_all by lia. by apply param_part_nil.
  - destruct (decide (part_param p ≠ "")) as [Hp|Hp].
    + destruct (part_end (q :: parts) seg) as [[|n]|]; auto.
    + destruct (has_prefix seg (part_literal p)); auto.
Qed.

(** ** What the compiler produces *)

Lemma compile_segments_wf parts : Forall segment_wf (compile_segments parts).1.
Proof.
  unfold segment_wf. induction parts as [|p parts IH]; cbn; [done|].
  destruct (compile_segments parts) as [segments has]. cbn in IH.
  destruct (paramSegmentName p); [by constructor|].
  destruct (compileSegParts p); by constructor.
Qed.
Lemma compilePattern_wf pattern : Forall segment_wf (compilePattern pattern).1.
Proof. unfold compilePattern. case_decide; [done | apply compile_segments_wf]. Qed.

Lemma paramSegmentName_nonempty s name : paramSegmentName s = Some name → name ≠ "".
Proof. unfold paramSegmentName. intros H. go_inv H. Qed.
Lemma compileSegParts_names s parts :
  compileSegParts s = Some parts → part_names parts ≠ [].
Proof.
  unfold compileSegParts. destruct (existsb _ _) eqn:E; [|done]. intros [= <-].
  apply existsb_true_iff in E as (p & Hp & Hne). intros Hnil.
  assert (part_param p ∈ part_names (compile_loop s 0 "" [])) as Hin.
  { unfold part_names. apply list_elem_of_filter. split.
    - by apply negb_true_iff, String.eqb_neq in Hne.
    - by apply list_elem_of_fmap_2. }
  rewrite Hnil in Hin. by apply not_elem_of_nil in Hin.
Qed.

(** [hasParams] tells exactly whether the pattern declares a parameter. *)
Lemma compilePattern_hasParams pattern :
  (compilePattern pattern).2 = true ↔ pattern_names (compilePattern pattern).1 ≠ [].
Proof.
  unfold compilePattern. case_decide; [done|].
  generalize (split (trim_prefix pattern "/") "/") as parts. clear.
  induction parts as [|p parts IH]; cbn; [done|].
  destruct (compile_segments parts) as [segments has]. cbn in IH.
  unfold pattern_names in *.
  destruct (paramSegmentName p) as [name|] eqn:En.
  { apply paramSegmentName_nonempty in En. cbn. unfold segment_names at 1. cbn.
    by rewrite decide_True. }
  destruct (compileSegParts p) as [sp|] eqn:Es; cbn.
  - apply compileSegParts_names in Es. unfold segment_names at 1.
    rewrite decide_False by auto. cbn.
    split; [|done]. by intros _ [? _]%app_eq_nil.
  - exact IH.
Qed.

(** A route pattern registered with parameters matches the paths built from it
    and gives the values back. *)
Definition render_pattern (pattern : string) (ρ : string → string) : string :=
  render_path ρ (compilePattern pattern).1.
Definition pattern_fits (pattern : string) (ρ : string → string) : Prop :=
  Forall (segment_fits ρ) (compilePattern pattern).1.

(** Two parameters with no literal between them compile, but a pattern
    that has such a segment matches no path at all. *)
Theorem adjacent_params_unreachable segs s path :
  s ∈ segs → seg_param s = "" → adjacent_params (seg_parts s) = true →
  matchParams segs path = false.
Proof.
  intros Hin Hp Ha. apply not_true_iff_false. intros [_ Hm]%matchParams_split.
  apply list_elem_of_lookup in Hin as [i Hi].
  destruct (Forall2_lookup_l _ _ _ _ _ Hm Hi) as (t & _ & Ht).
  unfold matchSegment in Ht. rewrite Hp in Ht. rewrite decide_False in Ht by auto.
  destruct (seg_parts s) as [|p ps] eqn:E; [done|].
  by rewrite adjacent_params_no_match in Ht.
Qed.

Lemma adjacent_params_unreachable_witness :
  matchParams (compilePattern "/x/{a}{b}").1 "/x/12" = false.
Proof.
  apply (adjacent_params_unreachable _ (RouteSegment "" "" [param_part "a"; param_part "b"])).
  - right. left.
  - reflexivity.
  - reflexivity.
Defined.
