(* ===== verification/Router.v ===== *)
(** * The HTTP router

    Models [Router] of src/pkg/runtime/router.go.  Handlers are an abstract
    type [H]: the router stores them, composes middleware around them and
    calls them, and does nothing else.  The registry of compiled patterns that
    [PathValue] reads ([paramPatterns], a package variable) is threaded through
    registration.  Go iterates maps in an unspecified order: [matchRoute] takes
    the order as an argument, and the theorems quantify over every order. *)

From S2P Require Import Prelude GoStrings Paths RoutePattern.

(** The package variable [paramPatterns]: pattern text to compiled segments. *)
Abbreviation paramPatternIndex := (gmap string (list routeSegment)) (only parsing).

Section Router.
Context {H : Type}.

Record routeEntry := RouteEntry {
  handler : H;
  segments : list routeSegment;
  hasParams : bool;
  literals : nat;
}.

Record Router := mkRouter {
  routes : gmap string (gmap string routeEntry);
  middleware : list (H → H);
}.

Definition NewRouter : Router := mkRouter ∅ [].

Definition Use (r : option Router) (mws : list (H → H)) : option Router :=
  on_recv r None (λ r, Some (mkRouter (routes r) (middleware r ++ mws))).

Definition indexParamPattern (pattern : string) (segs : list routeSegment)
    (current : paramPatternIndex) : paramPatternIndex :=
  match current !! pattern with
  | Some _ => current
  | None => <[pattern := segs]> current
  end.

(** The entry [Handle] builds for a normalised path. *)
Definition compile_entry (path : string) (h : H) : routeEntry :=
  if has_suffix path "/*" then RouteEntry h [] false 0
  else let '(segs, has) := compilePattern path in
       if has then
         RouteEntry h segs true
           (length (filter (λ s, seg_param s = "") segs))
       else RouteEntry h [] false 0.

Definition Handle (r : option Router) (idx : paramPatternIndex)
    (method path : string) (h : option H) : option Router * paramPatternIndex :=
  match r, h with
  | None, _ | _, None => (r, idx)
  | Some r, Some h =>
      let method := to_upper method in
      let path := normalizePath path in
      let entry := compile_entry path h in
      let idx := if hasParams entry then indexParamPattern path (segments entry) idx
                 else idx in
      let methodRoutes := default ∅ (routes r !! method) in
      (Some (mkRouter (<[method := <[path := entry]> methodRoutes]> (routes r))
               (middleware r)), idx)
  end.

Definition all_methods : list string :=
  ["GET"; "POST"; "PUT"; "PATCH"; "DELETE"; "HEAD"; "OPTIONS"].

Definition Any (r : option Router) (idx : paramPatternIndex) (path : string)
    (h : option H) : option Router * paramPatternIndex :=
  foldl (λ s method, Handle s.1 s.2 method path h) (r, idx) all_methods.

Definition Get r idx path h := Handle r idx "GET" path h.
Definition Post r idx path h := Handle r idx "POST" path h.
Definition Put r idx path h := Handle r idx "PUT" path h.
Definition Delete r idx path h := Handle r idx "DELETE" path h.
Definition Patch r idx path h := Handle r idx "PATCH" path h.

(** The candidates kept while the loop of [matchRoute] scans the routes. *)
Record candidates := Candidates {
  paramEntry : option (string * routeEntry);
  legacyEntry : option (string * routeEntry);
  rootEntry : option routeEntry;
}.

Definition scan_route (path : string) (c : candidates) (pe : string * routeEntry)
    : candidates :=
  let '(pattern, entry) := pe in
  if hasParams entry then
    if negb (matchParams (segments entry) path) then c
    else match paramEntry c with
         | None => Candidates (Some pe) (legacyEntry c) (rootEntry c)
         | Some (paramPattern, p) =>
             if (literals p <? literals entry)
                || ((literals entry =? literals p)
                    && (String.length paramPattern <? String.length pattern))
             then Candidates (Some pe) (legacyEntry c) (rootEntry c) else c
         end
  else if decide (pattern = "/") then
    match rootEntry c with
    | None => Candidates (paramEntry c) (legacyEntry c) (Some entry)
    | Some _ => c
    end
  else if routeMatches pattern path then
    match legacyEntry c with
    | None => Candidates (paramEntry c) (Some pe) (rootEntry c)
    | Some (legacyPattern, _) =>
        if String.length legacyPattern <? String.length pattern
        then Candidates (paramEntry c) (Some pe) (rootEntry c) else c
    end
  else c.

Definition choose (c : candidates) : option (routeEntry * string) :=
  match paramEntry c, legacyEntry c, rootEntry c with
  | Some (pattern, e), _, _ => Some (e, pattern)
  | None, Some (pattern, e), _ => Some (e, pattern)
  | None, None, Some e => Some (e, "/")
  | None, None, None => None
  end.

(** [order] lists the routes of the method in the order the range loop visits
    them. *)
Definition matchRoute (order : list (string * routeEntry)) (r : option Router)
    (method path : string) : option (routeEntry * string) :=
  on_recv r None (λ r,
    match routes r !! method with
    | None => None
    | Some methodRoutes =>
        match methodRoutes !! path with
        | Some entry => Some (entry, path)
        | None => choose (foldl (scan_route path) (Candidates None None None) order)
        end
    end).

(** What a dispatch does: answer 404, or call a handler with [req.Pattern]
    set. *)
Inductive dispatch :=
  | NotFound
  | Call (h : H) (pattern : string).

Definition ServeHTTP (order : list (string * routeEntry)) (r : option Router)
    (req_method req_path : string) : dispatch :=
  match r with
  | None => NotFound
  | Some rt =>
      let path := normalizePath req_path in
      let method := to_upper req_method in
      match matchRoute order r method path with
      | None => NotFound
      | Some (entry, pattern) =>
          Call (fold_right (λ mw h, mw h) (handler entry) (middleware rt)) pattern
      end
  end.

Definition routePattern (req : option (string * string)) : string :=
  on_recv req "" (λ '(pattern, path),
    if decide (pattern ≠ "") then pattern else normalizePath path).

(** [PathValue] on a request: its [Pattern], its URL path ([None] when
    [req.URL] is nil), and [std], the standard library's own [PathValue]. *)
Definition PathValue (idx : paramPatternIndex) (std : string → string)
    (pattern : string) (url_path : option string) (name : string) : string :=
  match idx !! pattern, url_path with
  | Some segs, Some p =>
      let path := normalizePath p in
      if negb (matchParams segs path) then "" else paramValue segs path name
  | _, _ => std name
  end.
End Router.

Arguments routeEntry H : clear implicits.
Arguments Router H : clear implicits.
Arguments dispatch H : clear implicits.
Arguments candidates H : clear implicits.

(** ** Specification of route selection *)

Section Spec.
Context {H : Type}.
Implicit Types (r : Router H) (m : gmap string (routeEntry H)) (pe : string * routeEntry H).

Definition param_match (path : string) pe : bool :=
  hasParams pe.2 && matchParams (segments pe.2) path.
Definition legacy_match (path : string) pe : bool :=
  negb (hasParams pe.2) && negb (String.eqb pe.1 "/") && routeMatches pe.1 path.
Definition root_match pe : bool := negb (hasParams pe.2) && String.eqb pe.1 "/".

(** More literal segments first, then a longer pattern. *)
Definition param_le (p q : string * routeEntry H) : Prop :=
  literals p.2 < literals q.2
  ∨ (literals p.2 = literals q.2 ∧ String.length p.1 ≤ String.length q.1).
Definition legacy_le (p q : string * routeEntry H) : Prop :=
  String.length p.1 ≤ String.length q.1.

(** [o] is a maximum of the routes of [seen] that pass [test]. *)
Definition best {A} (test : A → bool) (le : A → A → Prop) (seen : list A)
    (o : option A) : Prop :=
  match o with
  | None => ∀ q, q ∈ seen → test q = false
  | Some p => p ∈ seen ∧ test p = true ∧ ∀ q, q ∈ seen → test q = true → le q p
  end.

(** What a lookup that is not an exact match selects among [routes]. *)
Definition selected (path : string) (rs : list (string * routeEntry H))
    (res : option (routeEntry H * string)) : Prop :=
  ∃ op ol,
    best (param_match path) param_le rs op
    ∧ best (legacy_match path) legacy_le rs ol
    ∧ match op, ol with
      | Some p, _ => res = Some (p.2, p.1)
      | None, Some p => res = Some (p.2, p.1)
      | None, None =>
          match res with
          | Some (e, pat) => pat = "/" ∧ ("/", e) ∈ rs ∧ root_match ("/", e) = true
          | None => ∀ q, q ∈ rs → root_match q = false
          end
      end.

(** ** The scan computes the selection *)

Lemma best_snoc_skip {A} (test : A → bool) le seen o x :
  best test le seen o → test x = false → best test le (seen ++ [x]) o.
Proof.
  intros Hb Hx. destruct o as [p|]; cbn in *.
  - destruct Hb as (Hp & Ht & Hmax). split; [set_solver|]. split; [done|].
    intros q [?| ->%list_elem_of_singleton]%elem_of_app; [auto | congruence].
  - intros q [?| ->%list_elem_of_singleton]%elem_of_app; auto.
Qed.
Lemma best_snoc_first {A} (test : A → bool) le seen x :
  (∀ a, le a a) → best test le seen None → test x = true →
  best test le (seen ++ [x]) (Some x).
Proof.
  intros Hrefl Hb Hx. cbn in *. split; [set_solver|]. split; [done|].
  intros q [Hq| ->%list_elem_of_singleton]%elem_of_app; [|done].
  intros Ht. by rewrite Hb in Ht.
Qed.
Lemma best_snoc_better {A} (test : A → bool) le seen p x :
  (∀ a, le a a) → (∀ a b c, le a b → le b c → le a c) →
  best test le seen (Some p) → test x = true → le p x →
  best test le (seen ++ [x]) (Some x).
Proof.
  intros Hrefl Htrans (Hp & Ht & Hmax) Hx Hle. cbn. split; [set_solver|].
  split; [done|].
  intros q [Hq| ->%list_elem_of_singleton]%elem_of_app Htq; [eauto | done].
Qed.
Lemma best_snoc_keep {A} (test : A → bool) le seen p x :
  best test le seen (Some p) → le x p → best test le (seen ++ [x]) (Some p).
Proof.
  intros (Hp & Ht & Hmax) Hle. cbn. split; [set_solver|]. split; [done|].
  intros q [Hq| ->%list_elem_of_singleton]%elem_of_app Htq; [eauto | done].
Qed.

Lemma param_le_refl p : param_le p p.
Proof. unfold param_le. lia. Qed.
Lemma param_le_trans p q s : param_le p q → param_le q s → param_le p s.
Proof. unfold param_le. lia. Qed.
Lemma legacy_le_refl p : legacy_le p p.
Proof. unfold legacy_le. lia. Qed.
Lemma legacy_le_trans p q s : legacy_le p q → legacy_le q s → legacy_le p s.
Proof. unfold legacy_le. lia. Qed.

Definition scan_ok (path : string) (seen : list (string * routeEntry H))
    (c : candidates H) : Prop :=
  best (param_match path) param_le seen (paramEntry c)
  ∧ best (legacy_match path) legacy_le seen (legacyEntry c)
  ∧ match rootEntry c with
    | None => ∀ q, q ∈ seen → root_match q = false
    | Some e => ("/", e) ∈ seen ∧ root_match ("/", e) = true
    end.

Lemma root_snoc_skip (c : candidates H) seen x :
  match rootEntry c with
  | None => ∀ q, q ∈ seen → root_match q = false
  | Some e => ("/", e) ∈ seen ∧ root_match ("/", e) = true
  end → root_match x = false ∨ is_Some (rootEntry c) →
  match rootEntry c with
  | None => ∀ q, q ∈ seen ++ [x] → root_match q = false
  | Some e => ("/", e) ∈ seen ++ [x] ∧ root_match ("/", e) = true
  end.
Proof.
  destruct (rootEntry c).
  - intros [? ?] _. split; [set_solver | done].
  - intros Hr [Hx|[? ?]]; [|done].
    intros q [?| ->%list_elem_of_singleton]%elem_of_app; auto.
Qed.

Lemma scan_route_ok path seen c pe :
  scan_ok path seen c → scan_ok path (seen ++ [pe]) (scan_route path c pe).
Proof.
  intros (Hp & Hl & Hr). destruct pe as [pattern entry]. unfold scan_route.
  destruct (hasParams entry) eqn:Eh.
  - assert (legacy_match path (pattern, entry) = false) as Hnl
      by (unfold legacy_match; cbn; by rewrite Eh).
    assert (root_match (pattern, entry) = false) as Hnr
      by (unfold root_match; cbn; by rewrite Eh).
    assert (param_match path (pattern, entry) = matchParams (segments entry) path) as Epm
      by (unfold param_match; cbn; by rewrite Eh).
    destruct (matchParams (segments entry) path) eqn:Em; cbn [negb].
    2: { split; [by apply best_snoc_skip|]. split; [by apply best_snoc_skip|].
         apply root_snoc_skip; auto. }
    destruct (paramEntry c) as [[pp p]|] eqn:Ec.
    + destruct (_ || _) eqn:Eb; (split; [|split;
        [by apply best_snoc_skip | by apply root_snoc_skip; [|left]]]); cbn.
      * eapply best_snoc_better; eauto using param_le_refl, param_le_trans.
        apply orb_true_iff in Eb. rewrite andb_true_iff, !Nat.ltb_lt, Nat.eqb_eq in Eb.
        unfold param_le. cbn. lia.
      * rewrite Ec. apply best_snoc_keep; [done|].
        apply orb_false_iff in Eb. rewrite andb_false_iff, !Nat.ltb_ge, Nat.eqb_neq in Eb.
        unfold param_le. cbn. lia.
    + split; [|split; [by apply best_snoc_skip | by apply root_snoc_skip; [|left]]].
      apply best_snoc_first; auto using param_le_refl.
  - assert (param_match path (pattern, entry) = false) as Hnp
      by (unfold param_match; cbn; by rewrite Eh).
    destruct (decide (pattern = "/")) as [->|Hne].
    + assert (legacy_match path ("/", entry) = false) as Hnl
        by (unfold legacy_match; cbn; by rewrite Eh).
      destruct (rootEntry c) eqn:Er.
      * split; [by apply best_snoc_skip|]. split; [by apply best_snoc_skip|].
        apply root_snoc_skip; rewrite Er; [done | right; eauto].
      * split; [by apply best_snoc_skip|]. split; [by apply best_snoc_skip|]. cbn.
        split; [set_solver|]. unfold root_match. cbn. by rewrite Eh.
    + assert (root_match (pattern, entry) = false) as Hnr.
      { unfold root_match. cbn. rewrite Eh. cbn. by apply String.eqb_neq. }
      assert (legacy_match path (pattern, entry) = routeMatches pattern path) as Elm.
      { unfold legacy_match. cbn. rewrite Eh.
        by rewrite (proj2 (String.eqb_neq _ _) Hne). }
      destruct (routeMatches pattern path) eqn:Em.
      2: { split; [by apply best_snoc_skip|]. split; [by apply best_snoc_skip|].
           apply root_snoc_skip; auto. }
      destruct (legacyEntry c) as [[lp l]|] eqn:Ec.
      * destruct (_ <? _) eqn:Eb; (split; [by apply best_snoc_skip|];
          split; [|by apply root_snoc_skip; [|left]]); cbn.
        -- eapply best_snoc_better; eauto using legacy_le_refl, legacy_le_trans.
           apply Nat.ltb_lt in Eb. unfold legacy_le. cbn. lia.
        -- rewrite Ec. apply best_snoc_keep; [done|].
           apply Nat.ltb_ge in Eb. unfold legacy_le. cbn. lia.
      * split; [by apply best_snoc_skip|].
        split; [|by apply root_snoc_skip; [|left]].
        apply best_snoc_first; auto using legacy_le_refl.
Qed.

Lemma scan_all_ok path order :
  scan_ok path order (foldl (scan_route path) (Candidates None None None) order).
Proof.
  induction order as [|pe order IH] using rev_ind.
  - repeat split; cbn; intros q ?%not_elem_of_nil; done.
  - rewrite foldl_app. by apply scan_route_ok.
Qed.

Lemma choose_selected path order :
  selected path order
    (choose (foldl (scan_route path) (Candidates None None None) order)).
Proof.
  destruct (scan_all_ok path order) as (Hp & Hl & Hr).
  destruct (foldl _ _ _) as [op ol oroot]. cbn in *.
  exists op, ol. split; [done|]. split; [done|].
  destruct op as [[p e]|]; [done|]. destruct ol as [[p e]|]; [done|].
  destruct oroot as [e|]; naive_solver.
Qed.
End Spec.

(** ** Selection: order independence *)

Section Selection.
Context {H : Type}.
Implicit Types (r : Router H) (m : gmap string (routeEntry H)).

Lemma best_perm {A} (test : A → bool) le l l' o :
  l ≡ₚ l' → best test le l o → best test le l' o.
Proof. unfold best. intros Hp. destruct o; intros Hb; setoid_rewrite <- Hp; done. Qed.

Lemma selected_perm path (l l' : list (string * routeEntry H)) res :
  l ≡ₚ l' → selected path l res → selected path l' res.
Proof.
  intros Hp (op & ol & Ho & Hl & Hr). exists op, ol.
  split; [by eapply best_perm|]. split; [by eapply best_perm|].
  destruct op; [done|]. destruct ol; [done|]. destruct res as [[]|]; by setoid_rewrite <- Hp.
Qed.

(** No two routes of the table tie as the best match of [path]. *)
Definition unambiguous (path : string) m : Prop :=
  ∀ p q, p ∈ map_to_list m → q ∈ map_to_list m →
    (param_match path p = true → param_match path q = true →
       param_le p q → param_le q p → p = q)
    ∧ (legacy_match path p = true → legacy_match path q = true →
       legacy_le p q → legacy_le q p → p = q).

Lemma best_unique {A} (test : A → bool) le l o o' :
  (∀ p q, p ∈ l → q ∈ l → test p = true → test q = true → le p q → le q p → p = q) →
  best test le l o → best test le l o' → o = o'.
Proof.
  intros Hu Ho Ho'. destruct o as [p|], o' as [q|]; cbn in *; [| | |done].
  2: { destruct Ho as (Hp & Ht & _). by rewrite Ho' in Ht. }
  2: { destruct Ho' as (Hp & Ht & _). by rewrite Ho in Ht. }
  destruct Ho as (Hp & Htp & Hmp), Ho' as (Hq & Htq & Hmq). f_equal.
  apply Hu; auto.
Qed.

Lemma selected_unique path m res res' :
  unambiguous path m → selected path (map_to_list m) res →
  selected path (map_to_list m) res' → res = res'.
Proof.
  intros Hu (op & ol & Ho & Hl & Hr) (op' & ol' & Ho' & Hl' & Hr').
  assert (op = op') as <-.
  { eapply best_unique; [|exact Ho|exact Ho']. intros p q Hp Hq. by apply Hu. }
  assert (ol = ol') as <-.
  { eapply best_unique; [|exact Hl|exact Hl']. intros p q Hp Hq. by apply Hu. }
  destruct op; [congruence|]. destruct ol; [congruence|].
  destruct res as [[e pat]|], res' as [[e' pat']|].
  - destruct Hr as (-> & H1%elem_of_map_to_list & _), Hr' as (-> & H2%elem_of_map_to_list & _).
    congruence.
  - destruct Hr as (_ & Hin & Ht). by rewrite Hr' in Ht.
  - destruct Hr' as (_ & Hin & Ht). by rewrite Hr in Ht.
  - done.
Qed.

Lemma matchRoute_cases order r method path m :
  routes r !! method = Some m → order ≡ₚ map_to_list m →
  match m !! path with
  | Some e => matchRoute order (Some r) method path = Some (e, path)
  | None => selected path (map_to_list m) (matchRoute order (Some r) method path)
  end.
Proof.
  intros Hm Hp. unfold matchRoute. cbn [on_recv]. rewrite Hm.
  destruct (m !! path); [done|]. eapply selected_perm; [done|]. apply choose_selected.
Qed.

Lemma selected_elem path (l : list (string * routeEntry H)) e pattern :
  selected path l (Some (e, pattern)) →
  (pattern, e) ∈ l ∧
  (param_match path (pattern, e) = true ∨ legacy_match path (pattern, e) = true
   ∨ root_match (pattern, e) = true).
Proof.
  intros (op & ol & Ho & Hl & Hr). destruct op as [[]|].
  { simplify_eq/=. destruct Ho as (? & ? & _). auto. }
  destruct ol as [[]|]; [simplify_eq/=; destruct Hl as (? & ? & _); auto|].
  destruct Hr as (-> & ? & ?); auto.
Qed.
End Selection.

(** ** Registration: reachable routers *)

Section Registration.
Context {H : Type}.
Implicit Types (r : Router H) (idx : paramPatternIndex).
Implicit Types (s : option (Router H) * gmap string (list routeSegment)).

Inductive registration :=
  | RegUse (mws : list (H → H))
  | RegHandle (method path : string) (h : option H)
  | RegAny (path : string) (h : option H).

Definition register (s : option (Router H) * paramPatternIndex) (g : registration)
    : option (Router H) * paramPatternIndex :=
  match g with
  | RegUse mws => (Use s.1 mws, s.2)
  | RegHandle method path h => Handle s.1 s.2 method path h
  | RegAny path h => Any s.1 s.2 path h
  end.
Definition register_all s (gs : list registration) := foldl register s gs.

(** What registration keeps true: an entry is what its pattern compiles to, and
    the shared index holds exactly compiled parameter patterns, every parameter
    pattern of the router among them. *)
Record router_inv r idx : Prop := {
  inv_entry : ∀ method m pattern e,
    routes r !! method = Some m → m !! pattern = Some e →
    e = compile_entry pattern (handler e);
  inv_index : ∀ pattern segs,
    idx !! pattern = Some segs → compilePattern pattern = (segs, true);
  inv_indexed : ∀ method m pattern e,
    routes r !! method = Some m → m !! pattern = Some e → hasParams e = true →
    idx !! pattern = Some (segments e);
}.

Lemma compile_entry_handler path (h : H) : handler (compile_entry path h) = h.
Proof.
  unfold compile_entry. destruct (has_suffix path "/*"); [done|].
  by destruct (compilePattern path) as [? []].
Qed.
Lemma compile_entry_params path (h : H) :
  hasParams (compile_entry path h) = true →
  compilePattern path = (segments (compile_entry path h), true).
Proof.
  unfold compile_entry. destruct (has_suffix path "/*"); [done|].
  by destruct (compilePattern path) as [? []].
Qed.

Lemma indexParamPattern_lookup pattern segs idx q :
  indexParamPattern pattern segs idx !! q
  = match idx !! q with
    | Some s => Some s
    | None => if decide (pattern = q) then Some segs else None
    end.
Proof.
  unfold indexParamPattern. destruct (idx !! pattern) eqn:E.
  - destruct (idx !! q) eqn:Eq; [done|]. by rewrite decide_False by congruence.
  - rewrite lookup_insert. destruct (decide (pattern = q)) as [<-|]; [by rewrite E|].
    by destruct (idx !! q).
Qed.

Lemma Handle_some r idx method path (h : H) :
  Handle (Some r) idx method path (Some h)
  = let path := normalizePath path in
    let e := compile_entry path h in
    (Some (mkRouter
       (<[to_upper method := <[path := e]> (default ∅ (routes r !! to_upper method))]>
          (routes r)) (middleware r)),
     if hasParams e then indexParamPattern path (segments e) idx else idx).
Proof. done. Qed.

(** An entry of the table after a registration is the new one or an old one. *)
Lemma Handle_lookup r method path (e : routeEntry H) meth m pattern e' :
  <[to_upper method := <[path := e]> (default ∅ (routes r !! to_upper method))]>
    (routes r) !! meth = Some m → m !! pattern = Some e' →
  (meth = to_upper method ∧ pattern = path ∧ e' = e)
  ∨ ∃ m0, routes r !! meth = Some m0 ∧ m0 !! pattern = Some e'.
Proof.
  intros [[<- <-]|[Hne Hm]]%lookup_insert_Some; [|eauto].
  intros [[<- <-]|[Hne He]]%lookup_insert_Some; [auto|].
  right. destruct (routes r !! to_upper method) as [m0|]; [by eauto|].
  change ((∅ : gmap string (routeEntry H)) !! pattern = Some e') in He.
  by rewrite lookup_empty in He.
Qed.

Lemma Handle_inv r idx method path h r' idx' :
  router_inv r idx → Handle (Some r) idx method path h = (Some r', idx') →
  router_inv r' idx'.
Proof.
  intros Hinv. destruct h as [h|]; [|by intros [= <- <-]].
  rewrite Handle_some. cbn zeta.
  pose proof (compile_entry_params (normalizePath path) h) as Hc.
  set (e := compile_entry (normalizePath path) h) in *.
  intros [= <- <-]. split; cbn [routes].
  - intros meth m pattern e' Hm He.
    destruct (Handle_lookup _ _ _ _ _ _ _ _ Hm He) as [(-> & -> & ->)|(m0 & ? & ?)].
    + unfold e. by rewrite compile_entry_handler.
    + by eapply (inv_entry _ _ Hinv).
  - intros pattern segs. destruct (hasParams e); [|apply Hinv].
    rewrite indexParamPattern_lookup. destruct (idx !! pattern) eqn:E.
    + intros [= <-]. by apply (inv_index _ _ Hinv).
    + destruct (decide _) as [<-|]; [|done]. intros [= <-]. auto.
  - intros meth m pattern e' Hm He Hp.
    destruct (Handle_lookup _ _ _ _ _ _ _ _ Hm He) as [(-> & -> & ->)|(m0 & ? & ?)].
    + rewrite Hp, indexParamPattern_lookup, decide_True by done.
      destruct (idx !! normalizePath path) as [s|] eqn:E; [|done].
      apply (inv_index _ _ Hinv) in E. rewrite Hc in E by done. congruence.
    + pose proof (inv_indexed _ _ Hinv _ _ _ _ H0 H1 Hp) as Hi.
      destruct (hasParams e); [|done]. by rewrite indexParamPattern_lookup, Hi.
Qed.

Lemma register_inv r idx g :
  router_inv r idx →
  ∃ r' idx', register (Some r, idx) g = (Some r', idx') ∧ router_inv r' idx'.
Proof.
  assert (∀ r idx method path h, router_inv r idx →
    ∃ r' idx', Handle (Some r) idx method path h = (Some r', idx') ∧ router_inv r' idx')
    as Hh.
  { intros r1 idx1 method path h Hinv.
    destruct (Handle (Some r1) idx1 method path h) as [[r'|] idx'] eqn:E.
    - eauto using Handle_inv.
    - by destruct h. }
  intros Hinv. destruct g as [mws|method path h|path h]; cbn [register fst snd].
  - eexists _, _. split; [done|]. split; apply Hinv.
  - auto.
  - unfold Any. generalize all_methods as ms. intros ms. revert r idx Hinv.
      induction ms as [|method ms IH]; intros r1 idx1 Hinv; cbn [foldl fst snd]; [eauto|].
    destruct (Hh r1 idx1 method path h Hinv) as (r' & idx' & -> & ?). auto.
Qed.

Lemma register_all_inv r idx gs :
  router_inv r idx →
  ∃ r' idx', register_all (Some r, idx) gs = (Some r', idx') ∧ router_inv r' idx'.
Proof.
  revert r idx. induction gs as [|g gs IH]; intros r idx Hinv; [by eexists _, _|].
  destruct (register_inv r idx g Hinv) as (r1 & idx1 & E & Hinv1).
  unfold register_all. cbn [foldl]. rewrite E. by apply IH.
Qed.

Lemma NewRouter_inv : router_inv (NewRouter (H:=H)) ∅.
Proof. split; unfold NewRouter; cbn; intros *; by rewrite lookup_empty. Qed.

Lemma registration_inv_state (gs : list registration) :
  ∃ r idx, register_all (Some NewRouter, ∅) gs = (Some r, idx).
Proof.
  destruct (register_all_inv _ _ gs NewRouter_inv) as (r & idx & E & _). eauto.
Qed.

(** Registration of middleware and of routes commute. *)
Definition reg_uses (gs : list registration) : list (H → H) :=
  gs ≫= λ g, match g with RegUse mws => mws | _ => [] end.
Definition reg_routes (gs : list registration) : list registration :=
  List.filter (λ g, match g with RegUse _ => false | _ => true end) gs.

Definition with_middleware s (mws : list (H → H)) :=
  (r ← s.1; Some (mkRouter (routes r) mws), s.2).

Lemma with_middleware_Handle s mws method path h :
  Handle (with_middleware s mws).1 (with_middleware s mws).2 method path h
  = with_middleware (Handle s.1 s.2 method path h) mws.
Proof. by destruct s as [[r|] idx], h as [h|]. Qed.
Lemma with_middleware_Any s mws path h :
  Any (with_middleware s mws).1 (with_middleware s mws).2 path h
  = with_middleware (Any s.1 s.2 path h) mws.
Proof.
  unfold Any. rewrite <- !surjective_pairing. generalize all_methods as ms.
  intros ms. revert s. induction ms as [|m ms IH]; intros s; cbn [foldl]; [done|].
  by rewrite with_middleware_Handle, IH.
Qed.

Lemma Handle_middleware s method path h :
  middleware (H:=H) <$> (Handle s.1 s.2 method path h).1 = middleware (H:=H) <$> s.1.
Proof. by destruct s as [[r|] idx], h as [h|]. Qed.
Lemma Any_middleware s path h :
  middleware (H:=H) <$> (Any s.1 s.2 path h).1 = middleware (H:=H) <$> s.1.
Proof.
  unfold Any. rewrite <- surjective_pairing. generalize all_methods as ms.
  intros ms. revert s. induction ms as [|m ms IH]; intros s; cbn [foldl]; [done|].
  by rewrite IH, Handle_middleware.
Qed.

Lemma register_split r idx mws gs :
  register_all (Some (mkRouter (routes r) mws), idx) gs
  = with_middleware (register_all (Some (mkRouter (routes r) []), idx) (reg_routes gs))
      (mws ++ reg_uses gs).
Proof.
  assert (∀ gs s mws, is_Some s.1 → register_all (with_middleware s mws) gs
    = with_middleware (register_all s (reg_routes gs)) (mws ++ reg_uses gs)) as Hg.
  { clear. induction gs as [|g gs IH]; intros s mws Hs.
    { cbn. by rewrite app_nil_r. }
    destruct g as [us|method path h|path h];
      unfold reg_routes, reg_uses; cbn; fold (reg_routes gs) (reg_uses gs).
    - destruct s as [[r|] idx]; [|by destruct Hs]. cbn.
      change (Some (mkRouter (routes r) (mws ++ us)), idx)
        with (with_middleware (Some r, idx) (mws ++ us)).
      rewrite IH by done. by rewrite app_assoc.
    - change (register_all (Handle (with_middleware s mws).1 (with_middleware s mws).2
        method path h) gs = with_middleware (register_all (Handle s.1 s.2 method path h)
        (reg_routes gs)) (mws ++ reg_uses gs)).
      rewrite with_middleware_Handle. apply IH. destruct s as [[r|] idx], h as [h|]; destruct Hs; cbn; eauto.
    - change (register_all (Any (with_middleware s mws).1 (with_middleware s mws).2
        path h) gs = with_middleware (register_all (Any s.1 s.2 path h)
        (reg_routes gs)) (mws ++ reg_uses gs)).
      rewrite with_middleware_Any. apply IH. pose proof (Any_middleware s path h) as Hm.
      destruct (Any s.1 s.2 path h).1; [eauto|]. destruct s as [[r|] idx]; destruct Hs; done. }
  exact (Hg gs (Some (mkRouter (routes r) []), idx) mws (ltac:(eauto))).
Qed.
End Registration.
Arguments registration H : clear implicits.

(** ** Dispatch *)

Section Dispatch.
Context {H : Type}.
Implicit Types (r : Router H) (m : gmap string (routeEntry H)).

(** The middleware chain around a handler: the first registered outermost. *)
Definition chain (mws : list (H → H)) (h : H) : H := fold_right (λ mw h, mw h) h mws.

Definition fresh_router : option (Router H) * gmap string (list routeSegment) :=
  (Some NewRouter, ∅).

Lemma register_all_fresh (gs : list (registration H)) r idx :
  register_all fresh_router gs = (Some r, idx) → router_inv r idx.
Proof.
  intros E. destruct (register_all_inv _ _ gs (NewRouter_inv (H:=H))) as (r' & idx' & E' & ?).
  unfold fresh_router in E. congruence.
Qed.

Lemma ServeHTTP_Call order r method path h pattern :
  ServeHTTP order (Some r) method path = Call h pattern →
  ∃ e, matchRoute order (Some r) (to_upper method) (normalizePath path) = Some (e, pattern)
       ∧ h = chain (middleware r) (handler e).
Proof.
  cbn [ServeHTTP]. destruct (matchRoute _ _ _ _) as [[e pat]|]; [|done].
  intros [= <- <-]. eauto.
Qed.

(** Every match comes from the table, and matched by its own test. *)
Lemma matchRoute_elem order r method path m e pattern :
  routes r !! method = Some m → order ≡ₚ map_to_list m →
  matchRoute order (Some r) method path = Some (e, pattern) →
  m !! pattern = Some e
  ∧ (path = pattern ∨ param_match path (pattern, e) = true
     ∨ legacy_match path (pattern, e) = true ∨ root_match (pattern, e) = true).
Proof.
  intros Hm Hp E. pose proof (matchRoute_cases order r method path m Hm Hp) as Hc.
  rewrite E in Hc. destruct (m !! path) eqn:Ep; [naive_solver|].
  apply selected_elem in Hc as [Hin%elem_of_map_to_list Ht]. auto.
Qed.

(** An entry of a well-formed router whose pattern declares a parameter is a
    parameter route with the pattern's segments. *)
Lemma inv_declared r idx method m pattern e name :
  router_inv r idx → routes r !! method = Some m → m !! pattern = Some e →
  has_suffix pattern "/*" = false → name ∈ pattern_names (compilePattern pattern).1 →
  hasParams e = true ∧ segments e = (compilePattern pattern).1
  ∧ idx !! pattern = Some (compilePattern pattern).1.
Proof.
  intros Hinv Hm He Hs Hn.
  assert ((compilePattern pattern).2 = true) as Hp.
  { apply compilePattern_hasParams. intros E. rewrite E in Hn.
    by apply not_elem_of_nil in Hn. }
  assert (hasParams e = true ∧ segments e = (compilePattern pattern).1) as [H1 H2].
  { rewrite (inv_entry _ _ Hinv _ _ _ _ Hm He). unfold compile_entry. rewrite Hs.
    destruct (compilePattern pattern) as [segs has]. cbn in Hp. by subst. }
  split; [done|]. split; [done|]. rewrite <- H2. by eapply (inv_indexed _ _ Hinv).
Qed.

(** A matching parameter route in the table keeps the request from a 404. *)
Lemma param_match_found order r method path m e pattern :
  routes r !! method = Some m → order ≡ₚ map_to_list m → m !! pattern = Some e →
  param_match path (pattern, e) = true →
  matchRoute order (Some r) method path ≠ None.
Proof.
  intros Hm Hp He Ht Hnone. pose proof (matchRoute_cases order r method path m Hm Hp) as Hc.
  rewrite Hnone in Hc. destruct (m !! path); [done|].
  destruct Hc as (op & ol & Ho & _ & Hr). destruct op; [done|].
  cbn in Ho. rewrite Ho in Ht; [done|]. by apply elem_of_map_to_list.
Qed.

Lemma register_all_snoc (gs : list (registration H)) s g :
  register_all s (gs ++ [g]) = register (register_all s gs) g.
Proof. unfold register_all. by rewrite foldl_app. Qed.

(** C11 : dispatch refines the selection specification.  For every order in
    which Go may iterate the table, [ServeHTTP] answers 404 or calls the
    middleware chain around the handler of: the route equal to the path; else a
    parameter route with the most literal segments, then the longest pattern;
    else the longest matching prefix or wildcard route; else the root route. *)
Theorem ServeHTTP_refines order r method path m :
  routes r !! to_upper method = Some m → order ≡ₚ map_to_list m →
  ∃ res,
    ServeHTTP order (Some r) method path
    = match res with
      | None => NotFound
      | Some (e, pattern) => Call (chain (middleware r) (handler e)) pattern
      end
    ∧ match m !! normalizePath path with
      | Some e => res = Some (e, normalizePath path)
      | None => selected (normalizePath path) (map_to_list m) res
      end.
Proof.
  intros Hm Hp. exists (matchRoute order (Some r) (to_upper method) (normalizePath path)).
  split; [by cbn [ServeHTTP]; destruct (matchRoute _ _ _ _) as [[]|]|].
  pose proof (matchRoute_cases order r _ (normalizePath path) m Hm Hp).
  by destruct (m !! normalizePath path).
Qed.

(** When no two routes of the table tie as best match, what a request is
    dispatched to does not depend on Go's map iteration order. *)
Theorem ServeHTTP_order_independent order order' r method path m :
  routes r !! to_upper method = Some m →
  order ≡ₚ map_to_list m → order' ≡ₚ map_to_list m →
  unambiguous (normalizePath path) m →
  ServeHTTP order (Some r) method path = ServeHTTP order' (Some r) method path.
Proof.
  intros Hm Hp Hp' Hu. cbn [ServeHTTP].
  enough (matchRoute order (Some r) (to_upper method) (normalizePath path)
          = matchRoute order' (Some r) (to_upper method) (normalizePath path)) as -> by done.
  pose proof (matchRoute_cases order r _ (normalizePath path) m Hm Hp) as Hc.
  pose proof (matchRoute_cases order' r _ (normalizePath path) m Hm Hp') as Hc'.
  destruct (m !! normalizePath path); [congruence|]. by eapply selected_unique.
Qed.

(** Every sequence of registrations leaves the router well formed: each
    entry is exactly what its pattern compiles to, and the process-wide pattern
    index that [PathValue] reads is sound and holds every parameter route. *)
Theorem registration_invariant (gs : list (registration H)) :
  ∃ r idx, register_all fresh_router gs = (Some r, idx) ∧ router_inv r idx.
Proof. apply register_all_inv, NewRouter_inv. Qed.

(** Middleware and routes may be registered in any order: a sequence of
    registrations equals its routes followed by one [Use] of all middleware. *)
Theorem registration_commutes r idx (gs : list (registration H)) :
  register_all (Some r, idx) gs
  = register_all (Some r, idx) (reg_routes gs ++ [RegUse (reg_uses gs)]).
Proof.
  destruct r as [rts mws]. rewrite register_all_snoc.
  change (mkRouter rts mws) with (mkRouter (routes (mkRouter rts mws)) mws) at 1 2.
  rewrite (register_split _ idx mws gs), (register_split _ idx mws (reg_routes gs)).
  assert (∀ l : list (registration H), reg_uses (reg_routes l) = []
    ∧ reg_routes (reg_routes l) = reg_routes l) as Hr.
  { induction l as [|[] l [IH1 IH2]]; [done|..];
      (split; [exact IH1 | first [exact IH2 | exact (f_equal (cons _) IH2)]]). }
  destruct (Hr gs) as [-> ->]. rewrite app_nil_r.
  by destruct (register_all _ (reg_routes gs)) as [[?|] ?].
Qed.


(** A handler dispatched on a parameter route (other than by the literal
    pattern text) always reads non-empty, slash-free values for the parameters
    its pattern declares. *)
Theorem PathValue_dispatched (gs : list (registration H)) r idx order m method path h pattern name std :
  register_all fresh_router gs = (Some r, idx) →
  routes r !! to_upper method = Some m → order ≡ₚ map_to_list m →
  ServeHTTP order (Some r) method path = Call h pattern →
  normalizePath path ≠ pattern → has_suffix pattern "/*" = false →
  name ∈ pattern_names (compilePattern pattern).1 →
  PathValue idx std pattern (Some path) name ≠ ""
  ∧ mem_byte "/" (PathValue idx std pattern (Some path) name) = false.
Proof.
  intros E Hm Hord Hcall Hne Hs Hn. apply register_all_fresh in E as Hinv.
  apply ServeHTTP_Call in Hcall as (e & He & _).
  destruct (matchRoute_elem _ _ _ _ _ _ _ Hm Hord He) as [Hlk Ht].
  destruct (inv_declared _ _ _ _ _ _ _ Hinv Hm Hlk Hs Hn) as (Hp & Hsegs & Hidx).
  unfold param_match, legacy_match, root_match in Ht. cbn in Ht. rewrite Hp in Ht.
  destruct Ht as [?|[Ht|[?|?]]]; try done. cbn in Ht. rewrite Hsegs in Ht.
  unfold PathValue. rewrite Hidx. cbn zeta. rewrite Ht. cbn [negb].
  by apply paramValue_matched; [apply compilePattern_wf|..].
Qed.
End Dispatch.

(** ** Concrete routers *)

Definition demo_routes : list (registration string) :=
  [RegHandle "get" "/users/{id}" (Some "user"); RegUse [λ h, "log:" +:+ h];
   RegHandle "GET" "/users/" (Some "list"); RegHandle "GET" "/files/*" (Some "files")].
Definition demo_router : Router string := default NewRouter (register_all fresh_router demo_routes).1.
Definition demo_index : gmap string (list routeSegment) :=
  (register_all fresh_router demo_routes).2.
Definition demo_table : gmap string (routeEntry string) :=
  default ∅ (routes demo_router !! "GET").

Lemma demo_state : register_all fresh_router demo_routes = (Some demo_router, demo_index).
Proof. reflexivity. Qed.
Lemma demo_get : routes demo_router !! "GET" = Some demo_table.
Proof. reflexivity. Qed.

Lemma ServeHTTP_refines_witness :
  ∃ res : option (routeEntry string * string),
    ServeHTTP (map_to_list demo_table) (Some demo_router) "get" "/users/7/"
    = match res with
      | None => NotFound
      | Some (e, pattern) => Call (chain (middleware demo_router) (handler e)) pattern
      end.
Proof.
  destruct (ServeHTTP_refines (map_to_list demo_table) demo_router "get" "/users/7/"
    demo_table demo_get (reflexivity _)) as (res & E & _).
  exists res. exact E.
Defined.

Example demo_dispatch :
  ServeHTTP (map_to_list demo_table) (Some demo_router) "get" "/users/7/"
  = Call "log:user" "/users/{id}".
Proof. vm_compute. reflexivity. Qed.

Lemma demo_unambiguous : unambiguous "/files/a/b" demo_table.
Proof.
  intros p q Hp Hq.
  assert (map_to_list demo_table
    = [("/users/{id}", RouteEntry "user" (compilePattern "/users/{id}").1 true 1);
       ("/users", RouteEntry "list" [] false 0);
       ("/files/*", RouteEntry "files" [] false 0)]) as E
    by (vm_compute; reflexivity).
  rewrite E in Hp, Hq. clear E. rewrite !elem_of_cons, elem_of_nil in Hp, Hq.
  assert (∀ b c : bool, b && c = false → b = true → c = true → p = q) as Hb
    by (intros [] []; done).
  split; intros Hp1 Hq1 _ _; revert Hp1 Hq1;
    destruct Hp as [->|[->|[->|[]]]], Hq as [->|[->|[->|[]]]]; try done;
    apply Hb; vm_compute; reflexivity.
Qed.

Lemma ServeHTTP_order_independent_witness :
  ServeHTTP (map_to_list demo_table) (Some demo_router) "GET" "/files/a/b"
  = ServeHTTP (reverse (map_to_list demo_table)) (Some demo_router) "GET" "/files/a/b".
Proof.
  apply (ServeHTTP_order_independent _ _ demo_router "GET" "/files/a/b" demo_table).
  - exact demo_get.
  - reflexivity.
  - apply reverse_Permutation.
  - exact demo_unambiguous.
Defined.


Lemma PathValue_dispatched_witness :
  PathValue demo_index (λ _, "") "/users/{id}" (Some "/users/7") "id" ≠ "".
Proof.
  apply (PathValue_dispatched demo_routes demo_router demo_index (map_to_list demo_table)
    demo_table "get" "/users/7" "log:user" "/users/{id}" "id" (λ _, "")).
  - exact demo_state.
  - exact demo_get.
  - reflexivity.
  - vm_compute. reflexivity.
  - discriminate.
  - reflexivity.
  - left.
Defined.


(** With two parameter routes that tie on literals and length, the same
    request on the same router reaches different handlers depending on the map
    iteration order. *)
Theorem dispatch_depends_on_map_order :
  let r := default NewRouter (register_all fresh_router
    [RegHandle "GET" "/{x}/b" (Some "first"); RegHandle "GET" "/a/{y}" (Some "second")]).1 in
  ∃ m order order',
    routes r !! "GET" = Some m ∧ order ≡ₚ map_to_list m ∧ order' ≡ₚ map_to_list m
    ∧ ServeHTTP order (Some r) "GET" "/a/b" = Call "first" "/{x}/b"
    ∧ ServeHTTP order' (Some r) "GET" "/a/b" = Call "second" "/a/{y}".
Proof.
  cbn zeta.
  set (r := default _ _).
  exists (default ∅ (routes r !! "GET")),
    (map_to_list (default ∅ (routes r !! "GET"))),
    (reverse (map_to_list (default ∅ (routes r !! "GET")))).
  split; [reflexivity|]. split; [done|]. split; [apply reverse_Permutation|].
  split; vm_compute; reflexivity.
Qed.
