(* ===== verification/CircuitBreaker.v ===== *)
(** * The circuit breaker of the reverse proxy

    Models [proxyCircuitBreaker] of src/pkg/runtime/proxy.go.  Every method
    holds the breaker's mutex, so a run is a sequence of calls; the clock
    readings of a call are its arguments.  A nil breaker (threshold not
    positive) is [None] and always allows. *)

From S2P Require Import Prelude.

Record proxyCircuitBreaker := CircuitBreaker {
  threshold : Z;
  window : duration;
  openFor : duration;
  failures : Z;
  resetAt : time;
  openUntil : time;
  lastFailure : time;
}.

#[global] Instance eta_breaker_dec : EqDecision proxyCircuitBreaker.
Proof. solve_decision. Defined.

Definition newProxyCircuitBreaker (threshold : Z) (window openFor : duration)
    : option proxyCircuitBreaker :=
  if (threshold <=? 0)%Z then None else
  let window := if (window <=? 0)%Z then minute else window in
  let openFor := if (openFor <=? 0)%Z then (15 * second)%Z else openFor in
  Some (CircuitBreaker threshold window openFor 0 time_zero time_zero time_zero).

(** [allow] reads the clock up to three times: against [openUntil], against
    [resetAt], and for the new [resetAt]. *)
Definition allow (now1 now2 now3 : time) (cb : option proxyCircuitBreaker)
    : bool * option proxyCircuitBreaker :=
  match cb with
  | None => (true, None)
  | Some cb =>
      if negb (is_zero (openUntil cb)) && before now1 (openUntil cb) then (false, Some cb)
      else
        let cb := if negb (is_zero (openUntil cb))
                  then CircuitBreaker (threshold cb) (window cb) (openFor cb)
                         (failures cb) (resetAt cb) time_zero (lastFailure cb)
                  else cb in
        if is_zero (resetAt cb) || (window cb <? time_sub now2 (resetAt cb))%Z
        then (true, Some (CircuitBreaker (threshold cb) (window cb) (openFor cb)
                            0 now3 (openUntil cb) (lastFailure cb)))
        else (true, Some cb)
  end.

Definition recordSuccess (now : time) (cb : option proxyCircuitBreaker)
    : option proxyCircuitBreaker :=
  on_recv cb None (λ cb,
    Some (CircuitBreaker (threshold cb) (window cb) (openFor cb)
            0 now time_zero (lastFailure cb))).

Definition recordFailure (now : time) (cb : option proxyCircuitBreaker)
    : option proxyCircuitBreaker :=
  on_recv cb None (λ cb,
    let '(fs, reset) :=
      if is_zero (resetAt cb) || (window cb <? time_sub now (resetAt cb))%Z
      then (0%Z, now) else (failures cb, resetAt cb) in
    let fs := i64_add fs 1 in
    let until := if (threshold cb <=? fs)%Z then time_add now (openFor cb)
                 else openUntil cb in
    Some (CircuitBreaker (threshold cb) (window cb) (openFor cb) fs reset until now)).

(** ** Runs *)

Inductive breaker_event :=
  | EvAllow (now1 now2 now3 : time)
  | EvSuccess (now : time)
  | EvFailure (now : time).

Definition breaker_step (cb : option proxyCircuitBreaker) (e : breaker_event)
    : option proxyCircuitBreaker :=
  match e with
  | EvAllow n1 n2 n3 => (allow n1 n2 n3 cb).2
  | EvSuccess n => recordSuccess n cb
  | EvFailure n => recordFailure n cb
  end.
Definition breaker_run : option proxyCircuitBreaker → list breaker_event →
  option proxyCircuitBreaker := foldl breaker_step.

(** Clock readings of a run, in order. *)
Definition event_times (e : breaker_event) : list time :=
  match e with
  | EvAllow n1 n2 n3 => [n1; n2; n3]
  | EvSuccess n | EvFailure n => [n]
  end.
(** The clock is after the zero time, does not go back, and stays in a range
    in which [Sub] is exact. *)
Fixpoint clock_ok (lo : time) (ts : list time) : Prop :=
  match ts with
  | [] => True
  | t :: ts => (0 < t ≤ int64_max ∧ lo ≤ t)%Z ∧ clock_ok t ts
  end.
Fixpoint last_time (lo : time) (ts : list time) : time :=
  match ts with [] => lo | t :: ts => last_time t ts end.
Definition run_times (es : list breaker_event) : list time := es ≫= event_times.

(** The failures of a run since its last success. *)
Definition is_failure (e : breaker_event) : bool :=
  match e with EvFailure _ => true | _ => false end.
Fixpoint failures_since_success (acc : Z) (es : list breaker_event) : Z :=
  match es with
  | [] => acc
  | EvAllow _ _ _ :: es => failures_since_success acc es
  | EvSuccess _ :: es => failures_since_success 0 es
  | EvFailure _ :: es => failures_since_success (acc + 1) es
  end.
Definition no_success (es : list breaker_event) : Prop :=
  ∀ n, EvSuccess n ∉ es.

Definition failure_count (es : list breaker_event) : Z :=
  Z.of_nat (length (List.filter is_failure es)).

(** ** Lemmas *)

Lemma clock_ok_app lo ts ts' :
  clock_ok lo (ts ++ ts') ↔ clock_ok lo ts ∧ clock_ok (last_time lo ts) ts'.
Proof.
  revert lo; induction ts as [|t ts IH]; intros lo; cbn [app clock_ok last_time]; [tauto|].
  rewrite IH. tauto.
Qed.
Lemma clock_ok_weaken lo lo' ts : (lo' ≤ lo)%Z → clock_ok lo ts → clock_ok lo' ts.
Proof. destruct ts; cbn; [done | intros ? [? ?]; split; [lia | done]]. Qed.
Lemma clock_ok_bound lo ts t : clock_ok lo ts → t ∈ ts → (lo ≤ t ∧ 0 < t ≤ int64_max)%Z.
Proof.
  revert lo; induction ts as [|u ts IH]; intros lo; [by intros _ ?%not_elem_of_nil|].
  intros [? Hc] [->|Hin]%elem_of_cons; [lia|]. specialize (IH _ Hc Hin). lia.
Qed.
(** The readings before the last of an ordered run are at most it. *)
Lemma clock_ok_last lo ts t u : clock_ok lo (ts ++ [t]) → u ∈ ts → (u ≤ t)%Z.
Proof.
  revert lo; induction ts as [|v ts IH]; intros lo; [by intros _ ?%not_elem_of_nil|].
  cbn [app clock_ok]. intros [_ Hc] [->|Hin]%elem_of_cons; [|eauto].
  apply clock_ok_bound with (t:=t) in Hc; [lia | set_solver].
Qed.

Lemma run_times_app es es' : run_times (es ++ es') = run_times es ++ run_times es'.
Proof. unfold run_times. by rewrite bind_app. Qed.
Lemma run_times_cons e es : run_times (e :: es) = event_times e ++ run_times es.
Proof. done. Qed.
Lemma no_success_cons e es :
  no_success (e :: es) ↔ (∀ n, e ≠ EvSuccess n) ∧ no_success es.
Proof. unfold no_success. set_solver. Qed.
Lemma failure_count_cons e es :
  failure_count (e :: es) = ((if is_failure e then 1 else 0) + failure_count es)%Z.
Proof. unfold failure_count. cbn [List.filter]. destruct (is_failure e); cbn [length]; lia. Qed.
Lemma failure_count_nonneg es : (0 ≤ failure_count es)%Z.
Proof. unfold failure_count. lia. Qed.

Lemma breaker_run_app cb es es' :
  breaker_run cb (es ++ es') = breaker_run (breaker_run cb es) es'.
Proof. apply foldl_app. Qed.

(** An open breaker refuses and does not change. *)
Lemma allow_open n1 n2 n3 cb :
  openUntil cb ≠ 0%Z → (n1 < openUntil cb)%Z → allow n1 n2 n3 (Some cb) = (false, Some cb).
Proof.
  intros H0 Hlt. unfold allow, is_zero, before.
  by rewrite (proj2 (Z.eqb_neq _ _) H0), (proj2 (Z.ltb_lt _ _) Hlt).
Qed.
Lemma allow_closed n1 n2 n3 cb :
  (openUntil cb ≤ n1)%Z → (0 ≤ n1)%Z →
  ∃ cb', allow n1 n2 n3 (Some cb) = (true, Some cb')
    ∧ openUntil cb' = 0%Z ∧ threshold cb' = threshold cb ∧ window cb' = window cb
    ∧ openFor cb' = openFor cb
    ∧ (failures cb' = failures cb ∧ resetAt cb' = resetAt cb
       ∨ failures cb' = 0%Z ∧ resetAt cb' = n3
         ∧ (resetAt cb = 0 ∨ window cb < time_sub n2 (resetAt cb))%Z).
Proof.
  intros Hle H0. unfold allow, is_zero, before, time_zero.
  destruct (Z.eqb_spec (openUntil cb) 0) as [E|E]; cbn [negb andb].
  - destruct (_ || _) eqn:Er; eexists; (split; [reflexivity|]); cbn; (repeat split; try done).
    + right. apply orb_true_iff in Er. rewrite Z.eqb_eq, Z.ltb_lt in Er. auto.
    + auto.
  - rewrite (proj2 (Z.ltb_ge _ _) Hle). cbn.
    destruct (_ || _) eqn:Er; eexists; (split; [reflexivity|]); cbn; (repeat split; try done).
    + right. apply orb_true_iff in Er. rewrite Z.eqb_eq, Z.ltb_lt in Er. auto.
    + auto.
Qed.

(** The breaker stays open: the state between a trip and the end of its pause. *)
Lemma open_preserved es cb t hi :
  (0 < openFor cb)%Z → (0 < t)%Z → (hi ≤ openUntil cb)%Z → (hi ≤ t + openFor cb)%Z →
  (t < openUntil cb)%Z →
  no_success es → clock_ok t (run_times es) →
  (∀ u, u ∈ run_times es → (u < hi)%Z) →
  ∃ cb', breaker_run (Some cb) es = Some cb' ∧ (hi ≤ openUntil cb')%Z ∧ (0 < openUntil cb')%Z.
Proof.
  revert cb t. induction es as [|e es IH]; intros cb t Ho Ht Hhi Hto Hu Hs Hc Hlt.
  { exists cb. split; [done | lia]. }
  apply no_success_cons in Hs as [He Hs]. rewrite run_times_cons in Hc, Hlt.
  apply clock_ok_app in Hc as [Hc1 Hc2].
  change (breaker_run (Some cb) (e :: es)) with (breaker_run (breaker_step (Some cb) e) es).
  destruct e as [n1 n2 n3|n|n]; [|by destruct (He n)|]; cbn [event_times last_time] in Hc1, Hc2, Hlt.
  - cbn [breaker_step]. rewrite allow_open; [|lia|].
    2: { specialize (Hlt n1 (ltac:(set_solver))). lia. }
    assert (n3 < hi)%Z by (apply Hlt; set_solver). cbn in Hc1.
    apply (IH cb n3); try done; [lia..|]. intros u Hin. apply Hlt. set_solver.
  - cbn [breaker_step recordFailure on_recv].
    assert (n < hi)%Z by (apply Hlt; set_solver). cbn in Hc1.
    destruct (if is_zero _ || _ then _ else _) as [fs reset].
    eapply (IH _ n); cbn; unfold time_add; try done; [lia| |lia| |].
    + destruct (_ <=? _)%Z; lia.
    + destruct (_ <=? _)%Z; lia.
    + intros u Hin. apply Hlt. set_solver.
Qed.

(** Within the window the failures are counted one by one. *)
Lemma window_counts es cb t0 lo :
  (0 < t0)%Z → resetAt cb = t0 → in_int64 (failures cb + failure_count es) →
  (0 ≤ failures cb)%Z → no_success es → (t0 ≤ lo)%Z → clock_ok lo (run_times es) →
  (∀ u, u ∈ run_times es → u - t0 ≤ window cb)%Z →
  ∃ cb', breaker_run (Some cb) es = Some cb' ∧ resetAt cb' = t0
    ∧ failures cb' = (failures cb + failure_count es)%Z
    ∧ threshold cb' = threshold cb ∧ window cb' = window cb ∧ openFor cb' = openFor cb.
Proof.
  revert cb lo. induction es as [|e es IH]; intros cb lo H0 Hr Hf Hnn Hs Hlo Hc Hw.
  { exists cb. unfold failure_count. cbn. rewrite Z.add_0_r. done. }
  apply no_success_cons in Hs as [He Hs]. rewrite run_times_cons in Hc, Hw.
  rewrite failure_count_cons in Hf |- *.
  apply clock_ok_app in Hc as [Hc1 Hc2]. pose proof (failure_count_nonneg es).
  assert (∀ u, u ∈ event_times e → time_sub u t0 = u - t0 ∧ (u - t0 ≤ window cb))%Z as Hsub.
  { intros u Hin. apply clock_ok_bound with (t:=u) in Hc1; [|done]. split.
    - apply time_sub_exact. unfold in_int64, int64_min, int64_max in *. lia.
    - apply Hw. set_solver. }
  change (breaker_run (Some cb) (e :: es)) with (breaker_run (breaker_step (Some cb) e) es).
  destruct e as [n1 n2 n3|n|n]; [|by destruct (He n)|];
    cbn [event_times last_time is_failure] in *; cbn [clock_ok] in Hc1.
  - cbn [breaker_step]. destruct (Z.ltb_spec n1 (openUntil cb)).
    + rewrite allow_open; [|lia|lia]. cbn [snd].
      destruct (IH cb n3) as (cb' & ? & ? & ? & ? & ? & ?); try done; [lia| |].
      { intros u Hin. apply Hw. set_solver. }
      exists cb'. repeat split; try done; lia.
    + destruct (allow_closed n1 n2 n3 cb) as (cb1 & -> & _ & E1 & E2 & E3 & E4); [lia..|].
      destruct (Hsub n2) as [Hs2 ?]; [set_solver|].
      destruct E4 as [[Ef Er]|(_ & _ & [?|?])]; [|lia|rewrite Hr, Hs2 in *; lia].
      cbn [snd]. destruct (IH cb1 n3) as (cb' & -> & ? & ? & ? & ? & ?);
        rewrite ?Er, ?Ef, ?E2; try done; [lia| |].
      { intros u Hin. apply Hw. set_solver. }
      exists cb'. repeat split; try done; lia || congruence.
  - cbn [breaker_step recordFailure on_recv].
    destruct (Hsub n) as [Hsn ?]; [set_solver|]. rewrite Hr, Hsn.
    rewrite (proj2 (Z.ltb_ge _ _)) by lia. unfold is_zero.
    rewrite (proj2 (Z.eqb_neq t0 0)) by lia. cbn [orb].
    rewrite i64_add_id by (unfold in_int64, int64_min, int64_max in *; lia).
    match goal with |- context [breaker_run (Some ?c) es] => set (cb1 := c) end.
    destruct (IH cb1 n) as (cb' & -> & ? & ? & ? & ? & ?); subst cb1; cbn in *;
      try done; [unfold in_int64 in *; lia | lia | lia | |].
    { intros u Hin. apply Hw. set_solver. }
    eexists. repeat split; try done; lia.
Qed.

Lemma newProxyCircuitBreaker_live th w o cb :
  newProxyCircuitBreaker th w o = Some cb →
  threshold cb = th ∧ (0 < th)%Z ∧ (0 < window cb)%Z ∧ (0 < openFor cb)%Z
  ∧ failures cb = 0%Z ∧ openUntil cb = 0%Z.
Proof.
  unfold newProxyCircuitBreaker, minute, second. destruct (Z.leb_spec th 0); [done|].
  intros [= <-]. cbn. repeat split; try lia; destruct (Z.leb_spec w 0), (Z.leb_spec o 0); lia.
Qed.

(** Fewer failures than the threshold: the breaker is closed. *)
Lemma breaker_quiet es cb acc :
  in_int64 (threshold cb) → (0 ≤ acc)%Z →
  ((acc < threshold cb)%Z → openUntil cb = 0%Z ∧ (0 ≤ failures cb ≤ acc)%Z) →
  ∃ cb', breaker_run (Some cb) es = Some cb' ∧ threshold cb' = threshold cb
    ∧ ((failures_since_success acc es < threshold cb)%Z → openUntil cb' = 0%Z).
Proof.
  revert cb acc. induction es as [|e es IH]; intros cb acc Hth Hacc Hq.
  { exists cb. cbn. split; [done|]. split; [done|]. intros H. apply Hq, H. }
  change (breaker_run (Some cb) (e :: es)) with (breaker_run (breaker_step (Some cb) e) es).
  destruct e as [n1 n2 n3|n|n]; cbn [failures_since_success breaker_step].
  - unfold allow. destruct (_ && _) eqn:Eb; [eauto|]. destruct (_ || _) eqn:Er;
      match goal with |- context [(_, Some ?c).2] => cbn [snd]; set (cb1 := c) end;
      assert (threshold cb1 = threshold cb) as Et by (subst cb1; by destruct (negb _));
      rewrite <- Et; apply IH; rewrite ?Et; try done; intros Ha; destruct (Hq Ha) as [Hu Hf];
      subst cb1; destruct (negb _); cbn; unfold time_zero; lia.
  - cbn [recordSuccess on_recv].
    match goal with |- context [breaker_run (Some ?c) es] => set (cb1 := c) end.
    change (threshold cb) with (threshold cb1). apply IH; subst cb1; cbn; done.
  - cbn [recordFailure on_recv].
    destruct (if is_zero _ || _ then _ else _) as [fs reset] eqn:Ef.
    match goal with |- context [breaker_run (Some ?c) es] => set (cb1 := c) end.
    change (threshold cb) with (threshold cb1). apply IH; subst cb1; cbn; [done|lia|].
    intros Ha. destruct Hq as [Hu Hf]; [lia|].
    assert (0 ≤ fs ≤ acc)%Z by (destruct (is_zero _ || _); simplify_eq; lia).
    rewrite i64_add_id by (unfold in_int64, int64_min, int64_max in *; lia).
    rewrite (proj2 (Z.leb_gt _ _)) by lia. lia.
Qed.

(** No false alarms.  In any run of a fresh breaker, with any clock, if
    fewer failures than the threshold happened since the last success, the next
    request is let through. *)
Theorem breaker_no_false_alarm th w o cb es n1 n2 n3 :
  newProxyCircuitBreaker th w o = Some cb → in_int64 th →
  (failures_since_success 0 es < th)%Z →
  (allow n1 n2 n3 (breaker_run (Some cb) es)).1 = true.
Proof.
  intros Hnew Hth Hlt. destruct (newProxyCircuitBreaker_live _ _ _ _ Hnew) as (<- & ? & _ & _ & Hf & Hu).
  destruct (breaker_quiet es cb 0) as (cb' & -> & _ & Hq); [done|lia|lia|].
  specialize (Hq Hlt). unfold allow. rewrite Hq. cbn. by destruct (_ || _).
Qed.


Definition quiet_event (e : breaker_event) : Prop :=
  match e with EvFailure _ => False | _ => True end.


(** ** Concrete runs *)

Definition demo_breaker : proxyCircuitBreaker :=
  CircuitBreaker 3 minute (15 * second) 0 0 0 0.

Lemma breaker_no_false_alarm_witness :
  (allow 50 50 50 (breaker_run (Some demo_breaker)
     [EvFailure 10; EvFailure 20; EvSuccess 30; EvFailure 40; EvFailure 45])).1 = true.
Proof.
  apply (breaker_no_false_alarm 3 0 0 demo_breaker).
  - reflexivity.
  - split; discriminate.
  - reflexivity.
Defined.


