(* ===== verification/RateLimiter.v ===== *)
(** * The token bucket of the reverse proxy

    Models [proxyRateLimiter] of src/pkg/runtime/proxy.go on IEEE binary64
    numbers ([SpecFloat]), as the code computes.  A nil limiter (rate not
    positive) is [None] and always allows.  The mutex makes a call atomic; its
    clock reading is its argument. *)

From Stdlib.Floats Require Import SpecFloat.
From S2P Require Import Prelude.

Record proxyRateLimiter := RateLimiter {
  limit : float64;
  burst : float64;
  tokens : float64;
  last : time;
}.

Definition newProxyRateLimiter (now : time) (requestsPerSecond burst : Z)
    : option proxyRateLimiter :=
  if (requestsPerSecond <=? 0)%Z then None else
  let burst := if (burst <=? 0)%Z then requestsPerSecond else burst in
  Some (RateLimiter (f64_of_int requestsPerSecond) (f64_of_int burst)
          (f64_of_int burst) now).

(** [Duration.Seconds]: whole seconds plus the rest over 1e9. *)
Definition seconds (d : duration) : float64 :=
  f64_add (f64_of_int (Z.quot d second))
    (f64_div (f64_of_int (Z.rem d second)) (f64_of_int second)).

Definition allow (now : time) (rl : option proxyRateLimiter)
    : bool * option proxyRateLimiter :=
  match rl with
  | None => (true, None)
  | Some rl =>
      let last0 := if is_zero (last rl) then now else last rl in
      let elapsed := seconds (time_sub now last0) in
      let tokens := f64_add (tokens rl) (f64_mul elapsed (limit rl)) in
      let tokens := if f64_gtb tokens (burst rl) then burst rl else tokens in
      if f64_geb tokens (f64_of_int 1)
      then (true, Some (RateLimiter (limit rl) (burst rl) (f64_sub tokens (f64_of_int 1)) now))
      else (false, Some (RateLimiter (limit rl) (burst rl) tokens now))
  end.

(** ** Runs: the answers to a sequence of requests at given times *)

Fixpoint answers (rl : option proxyRateLimiter) (ts : list time) : list bool :=
  match ts with
  | [] => []
  | t :: ts => let '(ok, rl) := allow t rl in ok :: answers rl ts
  end.

(** A bucket holding [k] of [b] tokens. *)
Definition bucket (lim : float64) (b k : Z) (now : time) : proxyRateLimiter :=
  RateLimiter lim (f64_of_int b) (f64_of_int k) now.

(** [k] tokens are represented exactly for every capacity checked. *)
Definition exact_step (b k : Z) : bool :=
  negb (f64_gtb (f64_of_int k) (f64_of_int b))
  && f64_geb (f64_of_int k) (f64_of_int 1)
  && bool_decide (f64_sub (f64_of_int k) (f64_of_int 1) = f64_of_int (k - 1))
  && match f64_of_int k with S754_finite false _ _ => true | _ => false end.
Definition exact_capacity (b : nat) : bool :=
  forallb (λ k, exact_step (Z.of_nat b) (Z.of_nat k)) (seq 1 b).

(** ** Lemmas *)

Lemma seconds_same now : seconds (time_sub now now) = f64_zero.
Proof. rewrite time_sub_self. vm_compute. reflexivity. Qed.

Lemma mul_zero_finite m e : f64_mul f64_zero (S754_finite false m e) = f64_zero.
Proof. reflexivity. Qed.
Lemma add_zero_finite m e : f64_add (S754_finite false m e) f64_zero = S754_finite false m e.
Proof. reflexivity. Qed.

Lemma allow_same_time now b k m e :
  exact_step b k = true →
  allow now (Some (bucket (S754_finite false m e) b k now))
  = (true, Some (bucket (S754_finite false m e) b (k - 1) now)).
Proof.
  unfold exact_step. rewrite !andb_true_iff, negb_true_iff, bool_decide_eq_true.
  intros [[[Hgt Hge] Hsub] Hfin]. unfold allow, bucket. cbn [last limit tokens burst].
  replace (if is_zero now then now else now) with now by (by destruct (is_zero now)).
  rewrite seconds_same, mul_zero_finite.
  destruct (f64_of_int k) as [| | |[] mk ek] eqn:Ek; try done.
  rewrite add_zero_finite, Hgt, Hge, Hsub. done.
Qed.

Lemma allow_empty now b m e :
  f64_gtb (f64_of_int 0) (f64_of_int b) = false →
  allow now (Some (bucket (S754_finite false m e) b 0 now))
  = (false, Some (bucket (S754_finite false m e) b 0 now)).
Proof.
  intros Hgt. unfold allow, bucket. cbn [last limit tokens burst].
  replace (if is_zero now then now else now) with now by (by destruct (is_zero now)).
  rewrite seconds_same, mul_zero_finite.
  change (f64_add (f64_of_int 0) f64_zero) with (f64_of_int 0). by rewrite Hgt.
Qed.

Lemma answers_empty now b m e n :
  f64_gtb (f64_of_int 0) (f64_of_int b) = false →
  answers (Some (bucket (S754_finite false m e) b 0 now)) (repeat now n) = repeat false n.
Proof.
  intros Hgt. induction n as [|n IH]; [done|]. cbn [repeat answers].
  rewrite allow_empty by done. by rewrite IH.
Qed.

Lemma answers_full now b m e n k :
  f64_gtb (f64_of_int 0) (f64_of_int b) = false →
  (∀ j, 1 ≤ j ≤ k → exact_step b (Z.of_nat j) = true) →
  answers (Some (bucket (S754_finite false m e) b (Z.of_nat k) now)) (repeat now (k + n))
  = repeat true k ++ repeat false n.
Proof.
  intros Hgt. induction k as [|k IH]; intros Hex; [by apply answers_empty|].
  cbn [repeat answers Nat.add app]. rewrite allow_same_time by (apply Hex; lia).
  replace (Z.of_nat (S k) - 1)%Z with (Z.of_nat k) by lia.
  by rewrite IH by (intros; apply Hex; lia).
Qed.

Definition capacities_checked : nat := 300.
Lemma capacities_exact :
  forallb exact_capacity (seq 1 capacities_checked) = true.
Proof. vm_compute. reflexivity. Qed.


