(* ===== verification/Http.v ===== *)
(** * The parts of net/http that the runtime relies on

    Header maps with canonical keys, the calls a handler makes on a
    [ResponseWriter] as a list of operations, the server's response writer that
    turns them into what the client receives, [http.Error], [http.NotFound] and
    [net.SplitHostPort].  This is the Go standard library, modelled to the
    extent the runtime uses it. *)

From stdpp Require Import strings.
From S2P Require Import Prelude GoStrings.

(** ** Header maps *)

Abbreviation header := (gmap string (list string)) (only parsing).

(** The token bytes of RFC 7230 section 3.2.6. *)
Definition token_byte (c : ascii) : bool :=
  byte_in 48 57 c || byte_in 65 90 c || byte_in 97 122 c
  || existsb (Ascii.eqb c) ["!"; "#"; "$"; "%"; "&"; "'"; "*"; "+"; "-"; "."; "^"; "_"; "`"; "|"; "~"]%char.
Fixpoint canonical_loop (upper : bool) (s : string) : string :=
  match s with
  | EmptyString => EmptyString
  | String c s =>
      String (if upper then upper_byte c else lower_byte c)
        (canonical_loop (Ascii.eqb c "-") s)
  end.
Definition canonical_key (s : string) : string :=
  if all_bytes token_byte s then canonical_loop true s else s.

Definition header_get (h : header) (key : string) : string :=
  match h !! canonical_key key with Some (v :: _) => v | _ => "" end.
Definition header_set (h : header) (key value : string) : header :=
  <[canonical_key key := [value]]> h.
Definition header_add (h : header) (key value : string) : header :=
  <[canonical_key key := default [] (h !! canonical_key key) ++ [value]]> h.
Definition header_del (h : header) (key : string) : header := delete (canonical_key key) h.

(** ** Requests

    The fields of [http.Request] the runtime reads or writes.  [ctx_strings]
    holds the string values of the request context by the text of their key;
    [proxy_start] is the value of the key [proxyStartKey]. *)
Record request := Request {
  method : string;
  url_scheme : string;
  url_host : string;
  url_path : string;
  host : string;
  headers : header;
  remote_addr : string;
  ctx_strings : gmap string string;
  proxy_start : option time;
}.
Definition with_headers (r : request) (h : header) : request :=
  Request (method r) (url_scheme r) (url_host r) (url_path r) (host r) h
    (remote_addr r) (ctx_strings r) (proxy_start r).
Definition with_ctx (r : request) (key value : string) : request :=
  Request (method r) (url_scheme r) (url_host r) (url_path r) (host r) (headers r)
    (remote_addr r) (<[key := value]> (ctx_strings r)) (proxy_start r).

(** ** What a handler does to its [ResponseWriter] *)

Inductive writer_op :=
  | OpSet (key value : string)
  | OpAdd (key value : string)
  | OpDel (key : string)
  | OpClear
  | OpWriteHeader (code : Z)
  | OpWrite (bytes : string)
  | OpFlush.

#[global] Instance writer_op_dec : EqDecision writer_op.
Proof. solve_decision. Defined.

Definition is_header_op (o : writer_op) : bool :=
  match o with OpSet _ _ | OpAdd _ _ | OpDel _ | OpClear => true | _ => false end.

(** ** The server's response: what reaches the client *)

Record response := Response {
  live : header;                      (* the map [Header()] returns *)
  interim : list (Z * header);        (* 1xx responses sent *)
  final : option (Z * header);        (* status line and headers, once sent *)
  sent : string;                      (* body bytes *)
}.
Definition new_response : response := Response ∅ [] None "".

Definition informational (code : Z) : bool :=
  ((100 <=? code) && (code <=? 199) && negb (code =? 101))%Z.
Definition body_allowed (code : Z) : bool :=
  negb ((100 <=? code) && (code <=? 199) || (code =? 204) || (code =? 304))%Z.

Definition write_header (code : Z) (r : response) : response :=
  match final r with
  | Some _ => r
  | None =>
      if informational code
      then Response (live r) (interim r ++ [(code, live r)]) None (sent r)
      else Response (live r) (interim r) (Some (code, live r)) (sent r)
  end.
Definition commit (r : response) : response :=
  match final r with Some _ => r | None => write_header 200 r end.

Definition response_step (r : response) (o : writer_op) : response :=
  match o with
  | OpSet k v => Response (header_set (live r) k v) (interim r) (final r) (sent r)
  | OpAdd k v => Response (header_add (live r) k v) (interim r) (final r) (sent r)
  | OpDel k => Response (header_del (live r) k) (interim r) (final r) (sent r)
  | OpClear => Response ∅ (interim r) (final r) (sent r)
  | OpWriteHeader code => write_header code r
  | OpWrite b =>
      let r := commit r in
      match final r with
      | Some (code, _) =>
          if body_allowed code
          then Response (live r) (interim r) (final r) (sent r +:+ b) else r
      | None => r
      end
  | OpFlush => commit r
  end.
Definition respond_from : response → list writer_op → response := foldl response_step.

(** The response of a handler that returns: an unsent header is sent as 200. *)
Definition respond (ops : list writer_op) : response :=
  commit (respond_from new_response ops).
Definition status (r : response) : Z := match final r with Some (c, _) => c | None => 0 end.
Definition sent_headers (r : response) : header :=
  match final r with Some (_, h) => h | None => ∅ end.

(** ** Standard answers *)

Definition nl : string := String (ascii_of_N 10) EmptyString.

(** [http.Error]. *)
Definition http_error (msg : string) (code : Z) : list writer_op :=
  [OpDel "Content-Length"; OpSet "Content-Type" "text/plain; charset=utf-8";
   OpSet "X-Content-Type-Options" "nosniff"; OpWriteHeader code; OpWrite (msg +:+ nl)].
Definition not_found : list writer_op := http_error "404 page not found" 404.

(** ** [net.SplitHostPort], its host *)

Fixpoint last_index_byte (s : string) (c : ascii) : option nat :=
  match s with
  | EmptyString => None
  | String d s =>
      match last_index_byte s c with
      | Some i => Some (S i)
      | None => if Ascii.eqb d c then Some 0 else None
      end
  end.
Definition byte_at (s : string) (i : nat) : option ascii := String.get i s.

Definition split_host (hostport : string) : option string :=
  match last_index_byte hostport ":" with
  | None => None
  | Some i =>
      if decide (byte_at hostport 0 = Some "["%char) then
        match index_byte hostport "]" with
        | None => None
        | Some e =>
            if decide (S e = i) then
              let host := str_take (e - 1) (str_drop 1 hostport) in
              if mem_byte "[" (str_drop 1 hostport) || mem_byte "]" (str_drop (S e) hostport)
              then None else Some host
            else None
        end
      else
        let host := str_take i hostport in
        if mem_byte ":" host then None
        else if mem_byte "[" hostport || mem_byte "]" hostport then None
        else Some host
  end.

Example split_v6 : split_host "[::1]:8080" = Some "::1".
Proof. reflexivity. Qed.
Example split_v4 : split_host "192.0.2.15:443" = Some "192.0.2.15".
Proof. reflexivity. Qed.

(** ** Lemmas: headers *)

Lemma lower_upper_byte c : upper_byte (upper_byte c) = upper_byte c.
Proof. destruct c as [[] [] [] [] [] [] [] []]; reflexivity. Qed.
Lemma lower_byte_idemp c : lower_byte (lower_byte c) = lower_byte c.
Proof. destruct c as [[] [] [] [] [] [] [] []]; reflexivity. Qed.
Lemma token_upper c : token_byte c = true → token_byte (upper_byte c) = true.
Proof. destruct c as [[] [] [] [] [] [] [] []]; vm_compute; done. Qed.
Lemma token_lower c : token_byte c = true → token_byte (lower_byte c) = true.
Proof. destruct c as [[] [] [] [] [] [] [] []]; vm_compute; done. Qed.
Lemma upper_dash c : Ascii.eqb (upper_byte c) "-" = Ascii.eqb c "-".
Proof. destruct c as [[] [] [] [] [] [] [] []]; reflexivity. Qed.
Lemma lower_dash c : Ascii.eqb (lower_byte c) "-" = Ascii.eqb c "-".
Proof. destruct c as [[] [] [] [] [] [] [] []]; reflexivity. Qed.

Lemma canonical_loop_idemp b s : canonical_loop b (canonical_loop b s) = canonical_loop b s.
Proof.
  revert b; induction s as [|c s IH]; intros b; cbn; [done|].
  destruct b; [rewrite upper_dash, lower_upper_byte | rewrite lower_dash, lower_byte_idemp];
    by rewrite IH.
Qed.
Lemma canonical_loop_token b s :
  all_bytes token_byte s = true → all_bytes token_byte (canonical_loop b s) = true.
Proof.
  revert b; induction s as [|c s IH]; intros b; cbn; [done|].
  rewrite !andb_true_iff. intros [Hc Hs]. split; [|auto].
  destruct b; auto using token_upper, token_lower.
Qed.
Lemma canonical_key_idemp s : canonical_key (canonical_key s) = canonical_key s.
Proof.
  unfold canonical_key. destruct (all_bytes token_byte s) eqn:E.
  - by rewrite canonical_loop_token, canonical_loop_idemp.
  - by rewrite E.
Qed.

Lemma header_get_set h k v : header_get (header_set h k v) k = v.
Proof. unfold header_get, header_set. by rewrite lookup_insert_eq. Qed.
Lemma header_get_set_ne h k k' v :
  canonical_key k ≠ canonical_key k' → header_get (header_set h k v) k' = header_get h k'.
Proof. intros. unfold header_get, header_set. by rewrite lookup_insert_ne. Qed.

(** ** Lemmas: responses *)

Lemma respond_from_app r ops ops' :
  respond_from r (ops ++ ops') = respond_from (respond_from r ops) ops'.
Proof. apply foldl_app. Qed.

(** Once the final header is sent, status and sent headers never change. *)
Lemma response_step_final r o x : final r = Some x → final (response_step r o) = Some x.
Proof.
  intros E. destruct o; cbn [response_step]; unfold commit, write_header; rewrite ?E; try done.
  destruct x as [code h]. by destruct (body_allowed code).
Qed.
Lemma respond_from_final r ops x : final r = Some x → final (respond_from r ops) = Some x.
Proof.
  revert r; induction ops as [|o ops IH]; intros r E; [done|].
  apply IH. by apply response_step_final.
Qed.

(** Header operations before anything is sent only change the header map. *)
Lemma header_ops_unsent r ops :
  Forall (λ o, is_header_op o = true) ops →
  final (respond_from r ops) = final r ∧ sent (respond_from r ops) = sent r
  ∧ interim (respond_from r ops) = interim r.
Proof.
  intros Hf. revert r. induction Hf as [|o ops Ho _ IH]; intros r; [done|].
  change (respond_from r (o :: ops)) with (respond_from (response_step r o) ops).
  destruct (IH (response_step r o)) as (-> & -> & ->). by destruct o.
Qed.
