(* ===== verification/RequestID.v ===== *)
(** * Request correlation IDs

    Models src/pkg/runtime/requestid.go.  The eight random bytes are an
    argument; [None] is a failing [crypto/rand], after which the ID carries the
    formatted time, also an argument. *)

From S2P Require Import Prelude GoStrings Http.

Definition request_id_key : string := "fgoths.request.id".
Definition id_headers : list string := ["X-Request-ID"; "X-Correlation-ID"; "X-Trace-ID"].

Definition first_nonempty (l : list string) : string :=
  default "" (head (filter (λ s, s ≠ "") l)).

Definition RequestIDFromRequest (r : option request) : string :=
  on_recv r "" (λ r,
    match ctx_strings r !! request_id_key with
    | Some id => if decide (id ≠ "") then id
                 else first_nonempty ((λ h, trim_space (header_get (headers r) h)) <$> id_headers)
    | None => first_nonempty ((λ h, trim_space (header_get (headers r) h)) <$> id_headers)
    end).

Fixpoint hex_encode (b : string) : string :=
  match b with
  | EmptyString => EmptyString
  | String c b => String (hex_digit (byte_val c / 16))
                    (String (hex_digit (byte_val c mod 16)) (hex_encode b))
  end.
Definition newRequestID (random : option string) (timestamp : string) : string :=
  match random with
  | Some b => "fgoths-" +:+ hex_encode b
  | None => "fgoths-" +:+ timestamp
  end.

(** The loop that fills the empty ID headers. *)
Definition fill_headers (id : string) (h : header) : header :=
  foldl (λ h k, if decide (header_get h k = "") then header_set h k id else h) h id_headers.

Definition ensureRequestID (random : option string) (timestamp : string)
    (r : option request) : string * option request :=
  match r with
  | None => ("", None)
  | Some rq =>
      let id := RequestIDFromRequest r in
      if decide (id ≠ "") then (id, r)
      else let id := newRequestID random timestamp in
           (id, Some (with_headers rq (fill_headers id (headers rq))))
  end.

(** The middleware of [WithRequestID]: the operations on the response and the
    request handed to the next handler. *)
Definition WithRequestID (random : option string) (timestamp : string)
    (next : request → list writer_op) (r : request) : list writer_op :=
  let '(id, r') := ensureRequestID random timestamp (Some r) in
  [OpSet "X-Request-ID" id; OpSet "X-Correlation-ID" id; OpSet "X-Trace-ID" id]
  ++ next (with_ctx (default r r') request_id_key id).

(** ** Lemmas *)

Lemma byte_val_bound c : (byte_val c < 256)%N.
Proof. apply N_ascii_bounded. Qed.
Lemma hex_digit_val n :
  (n < 16)%N → N_of_ascii (hex_digit n) = (if n <? 10 then 48 + n else 87 + n)%N.
Proof. intros Hn. apply N_ascii_embedding. destruct (N.ltb_spec n 10); lia. Qed.
Lemma hex_digit_plain n : (n < 16)%N → byte_in 33 127 (hex_digit n) = true.
Proof.
  intros Hn. rewrite byte_in_true. unfold byte_val. rewrite hex_digit_val by done.
  destruct (N.ltb_spec n 10); lia.
Qed.
Lemma hex_encode_plain b : plain (hex_encode b) = true.
Proof.
  unfold plain. induction b as [|c b IH]; [done|]. cbn [hex_encode all_bytes].
  pose proof (byte_val_bound c).
  rewrite !hex_digit_plain; [done | by apply N.mod_lt | apply N.Div0.div_lt_upper_bound; lia].
Qed.
Lemma newRequestID_nonempty random ts : newRequestID random ts ≠ "".
Proof. by destruct random. Qed.

Lemma first_nonempty_cons s l :
  first_nonempty (s :: l) = if decide (s ≠ "") then s else first_nonempty l.
Proof. unfold first_nonempty. rewrite filter_cons. by case_decide. Qed.

Lemma ensureRequestID_nonempty random ts r : (ensureRequestID random ts (Some r)).1 ≠ "".
Proof.
  unfold ensureRequestID. destruct (decide _); [done|]. apply newRequestID_nonempty.
Qed.

(** The request the next handler sees. *)
Definition forwarded_request random ts (r : request) : request :=
  let '(id, r') := ensureRequestID random ts (Some r) in
  with_ctx (default r r') request_id_key id.

Lemma forwarded_request_id random ts r :
  RequestIDFromRequest (Some (forwarded_request random ts r))
  = (ensureRequestID random ts (Some r)).1.
Proof.
  unfold forwarded_request. pose proof (ensureRequestID_nonempty random ts r) as Hne.
  destruct (ensureRequestID random ts (Some r)) as [id r'] eqn:E. cbn [fst] in *.
  cbn [RequestIDFromRequest on_recv with_ctx ctx_strings].
  rewrite lookup_insert_eq. by rewrite decide_True.
Qed.

Lemma newRequestID_plain b ts : plain (newRequestID (Some b) ts) = true.
Proof. unfold newRequestID, plain. rewrite all_bytes_app. by rewrite hex_encode_plain. Qed.

(** What [RequestIDFromRequest] finds in the filled headers. *)
Lemma fill_headers_get id h k :
  k ∈ id_headers → header_get (fill_headers id h) k = if decide (header_get h k = "") then id else header_get h k.
Proof.
  intros Hk. unfold fill_headers, id_headers in *. cbn [foldl].
  assert (canonical_key "X-Request-ID" ≠ canonical_key "X-Correlation-ID") by done.
  assert (canonical_key "X-Request-ID" ≠ canonical_key "X-Trace-ID") by done.
  assert (canonical_key "X-Correlation-ID" ≠ canonical_key "X-Trace-ID") by done.
  repeat (apply elem_of_cons in Hk as [->|Hk]); [..|by apply elem_of_nil in Hk];
    repeat case_decide; repeat (rewrite ?header_get_set, ?header_get_set_ne in * by done); congruence.
Qed.

Lemma first_nonempty_all id l : id ≠ "" → id ∈ l → (∀ s, s ∈ l → s = id ∨ s = "") → first_nonempty l = id.
Proof.
  intros Hid. induction l as [|s l IH]; intros Hin Hall; [by apply elem_of_nil in Hin|].
  rewrite first_nonempty_cons. destruct (Hall s ltac:(by left)) as [-> | ->].
  - by rewrite decide_True.
  - rewrite decide_False by naive_solver. apply IH; [set_solver|]. intros t Ht. apply Hall. by right.
Qed.
Lemma first_nonempty_empty l : first_nonempty l = "" → ∀ s, s ∈ l → s = "".
Proof.
  induction l as [|s l IH]; intros He t Ht; [by apply elem_of_nil in Ht|].
  rewrite first_nonempty_cons in He. case_decide as Hd; [done|]. subst s.
  apply elem_of_cons in Ht as [->|Ht]; [done | by apply IH].
Qed.
