(* ===== verification/RetryTransport.v ===== *)
(** * Upstream responses and the retrying transport

    Models [proxyRetryTransport] of src/pkg/runtime/proxy.go.  The base
    transport is the network: a function from the number of the attempt to what
    [RoundTrip] returns.  A response body is [None] for [http.NoBody], else the
    chunks and flushes that reading it produces and whether reading ends in an
    error; reading a closed body fails at once. *)

From S2P Require Import Prelude GoStrings Http.

Inductive body_event :=
  | Chunk (bytes : string)
  | ChunkFlush.

#[global] Instance body_event_dec : EqDecision body_event.
Proof. solve_decision. Defined.

Record upstream_response := UpResp {
  up_interim : list (Z * list (string * string));   (* 1xx responses *)
  up_status : Z;
  up_headers : list (string * string);
  up_body : option (list body_event * bool);
  up_closed : bool;
}.

(** What [RoundTrip] returns: a response and an error, either possibly nil. *)
Abbreviation round := (option upstream_response * option error)%type (only parsing).

Definition close_body (r : upstream_response) : upstream_response :=
  UpResp (up_interim r) (up_status r) (up_headers r) (up_body r)
    (match up_body r with Some _ => true | None => up_closed r end).

(** What reading the body gives: the events, and whether it ends in an error. *)
Definition read_body (r : upstream_response) : list body_event * bool :=
  match up_body r with
  | None => ([], false)
  | Some (evs, err) => if up_closed r then ([], true) else (evs, err)
  end.

Definition failing_status (code : Z) : bool := ((500 <=? code) || (code =? 429))%Z.

(** [err == nil && resp != nil && resp.StatusCode < 500 && != 429]. *)
Definition round_ok (o : round) : bool :=
  match o with
  | (Some r, None) => (up_status r <? 500)%Z && negb (up_status r =? 429)%Z
  | _ => false
  end.

(** The request body: nil, or what reading it gives and, when the request has
    one, its [GetBody] by number of the call. *)
Inductive request_body :=
  | NilBody
  | ReadBody (read : result string) (get_body : option (nat → result string)).

(** Attempts from number [attempt] on, [more] of them after this one; the
    bodies handed to the base transport and the pauses, in order. *)
Fixpoint retry_loop (base : nat → round) (get : option (nat → result string))
    (delay : duration) (attempt more : nat)
    : round * list (option string) * list duration :=
  let send (body : option string) :=
    let '(resp, err) := base attempt in
    if round_ok (resp, err) then ((resp, None), [body], [])
    else
      let resp := close_body <$> resp in
      match more with
      | O => ((resp, err), [body], [])
      | S more =>
          let '(out, bodies, pauses) := retry_loop base get delay (S attempt) more in
          (out, body :: bodies, if (0 <? delay)%Z then delay :: pauses else pauses)
      end in
  match get with
  | None => send None
  | Some g =>
      match g attempt with
      | Err e => ((None, Some e), [], [])
      | Ok b => send (Some b)
      end
  end.

Definition RoundTrip (base : nat → round) (retries : nat) (delay : duration)
    (body : request_body) : round * list (option string) * list duration :=
  match body with
  | NilBody => retry_loop base None delay 0 retries
  | ReadBody _ (Some g) => retry_loop base (Some g) delay 0 retries
  | ReadBody (Err e) None => ((None, Some e), [], [])
  | ReadBody (Ok b) None => retry_loop base (Some (λ _, Ok b)) delay 0 retries
  end.

(** ** Specification *)

(** The first attempt of [0..retries] that is not a failure. *)
Definition first_ok (base : nat → round) (attempt more : nat) : option nat :=
  head (filter (λ i, round_ok (base i) = true) (seq attempt (S more))).

(** The body every attempt must send, when it can be had. *)
Definition body_text (body : request_body) : option (option string) :=
  match body with
  | NilBody => Some None
  | ReadBody (Ok b) None => Some (Some b)
  | _ => None
  end.

(** ** Lemmas *)

Lemma round_ok_spec o :
  round_ok o = true ↔ ∃ r, o = (Some r, None) ∧ failing_status (up_status r) = false.
Proof.
  unfold round_ok, failing_status. destruct o as [[r|] [e|]]; try naive_solver.
  rewrite andb_true_iff, negb_true_iff, Z.ltb_lt, Z.eqb_neq. split.
  - intros [? ?]. exists r. split; [done|]. apply orb_false_iff.
    rewrite Z.leb_gt, Z.eqb_neq. lia.
  - intros (r' & [= <-] & Hf). apply orb_false_iff in Hf.
    rewrite Z.leb_gt, Z.eqb_neq in Hf. lia.
Qed.

Definition same_body (get : option (nat → result string)) (b : option string) : Prop :=
  match get with
  | None => b = None
  | Some g => ∃ t, b = Some t ∧ ∀ i, g i = Ok t
  end.

Lemma first_ok_cons base attempt more :
  first_ok base attempt more
  = if round_ok (base attempt) then Some attempt
    else match more with O => None | S more => first_ok base (S attempt) more end.
Proof.
  unfold first_ok. cbn [seq]. rewrite filter_cons.
  destruct (round_ok (base attempt)) eqn:E.
  - by rewrite decide_True.
  - rewrite decide_False by done. by destruct more.
Qed.

Lemma retry_loop_spec base get delay attempt more b :
  same_body get b →
  retry_loop base get delay attempt more
  = match first_ok base attempt more with
    | Some k => (base k, replicate (S (k - attempt)) b,
                 if (0 <? delay)%Z then replicate (k - attempt) delay else [])
    | None => ((close_body <$> (base (attempt + more)).1, (base (attempt + more)).2),
               replicate (S more) b, if (0 <? delay)%Z then replicate more delay else [])
    end.
Proof.
  intros Hb. revert attempt. induction more as [|more IH]; intros attempt;
    rewrite first_ok_cons; cbn [retry_loop].
  - destruct (base attempt) as [resp err] eqn:E. rewrite Nat.add_0_r, E.
    destruct (round_ok (resp, err)) eqn:Eo.
    + apply round_ok_spec in Eo as (r & [= -> ->] & _). rewrite E, Nat.sub_diag. cbn.
      destruct get as [g|]; [destruct Hb as (t & -> & ->)|rewrite Hb];
        by destruct (0 <? delay)%Z.
    + cbn. destruct get as [g|]; [destruct Hb as (t & -> & ->)|rewrite Hb];
        by destruct (0 <? delay)%Z.
  - destruct (base attempt) as [resp err] eqn:E.
    destruct (round_ok (resp, err)) eqn:Eo.
    + apply round_ok_spec in Eo as (r & [= -> ->] & _). rewrite E, Nat.sub_diag. cbn.
      destruct get as [g|]; [destruct Hb as (t & -> & ->)|rewrite Hb];
        by destruct (0 <? delay)%Z.
    + rewrite (IH (S attempt)).
      assert (∀ k, first_ok base (S attempt) more = Some k → S attempt ≤ k) as Hk.
      { intros k. unfold first_ok. intros Hh. apply head_Some_elem_of in Hh.
        apply list_elem_of_filter in Hh as [_ Hin]. apply elem_of_seq in Hin. lia. }
      destruct (first_ok base (S attempt) more) as [k|].
      * specialize (Hk k eq_refl). replace (k - attempt) with (S (k - S attempt)) by lia.
        destruct get as [g|]; [destruct Hb as (t & -> & ->)|rewrite Hb];
          by destruct (0 <? delay)%Z.
      * replace (S attempt + more) with (attempt + S more) by lia.
        destruct get as [g|]; [destruct Hb as (t & -> & ->)|rewrite Hb];
          by destruct (0 <? delay)%Z.
Qed.

Lemma retry_spec base retries delay body b :
  body_text body = Some b →
  RoundTrip base retries delay body
  = match first_ok base 0 retries with
    | Some k => (base k, replicate (S k) b, if (0 <? delay)%Z then replicate k delay else [])
    | None => ((close_body <$> (base retries).1, (base retries).2),
               replicate (S retries) b,
               if (0 <? delay)%Z then replicate retries delay else [])
    end.
Proof.
  intros Hb. unfold RoundTrip.
  destruct body as [|[t|e] [g|]]; cbn in Hb; simplify_eq;
    erewrite retry_loop_spec; rewrite ?Nat.add_0_l; try done;
    try (destruct (first_ok base 0 retries); by rewrite ?Nat.sub_0_r).
  all: try by exists t.
Qed.

(** C12 : the retry loop.  Every attempt sends the same body.  If one of the
    [retries + 1] attempts is not a failure, the first such is returned as it
    came and no later attempt is made; otherwise all attempts are made and the
    last failure is returned.  A positive delay is slept between attempts. *)
Theorem RoundTrip_spec base retries delay body b :
  body_text body = Some b →
  RoundTrip base retries delay body
  = match first_ok base 0 retries with
    | Some k => (base k, replicate (S k) b, if (0 <? delay)%Z then replicate k delay else [])
    | None => ((close_body <$> (base retries).1, (base retries).2),
               replicate (S retries) b,
               if (0 <? delay)%Z then replicate retries delay else [])
    end.
Proof. apply retry_spec. Qed.

Lemma RoundTrip_spec_witness :
  let base (i : nat) : option upstream_response * option error :=
    (Some (UpResp [] (if decide (i = 2%nat) then 200 else 503)%Z [] None false), None) in
  (RoundTrip base 3 10 (ReadBody (Ok "x") None)).1.2 = [Some "x"; Some "x"; Some "x"].
Proof. cbn zeta. rewrite (RoundTrip_spec _ 3 10 (ReadBody (Ok "x") None) (Some "x") eq_refl). reflexivity. Defined.
