(* ===== verification/Failover.v ===== *)
(** * Forwarding a response, and the failover response writer

    [reverse_proxy] is what [httputil.ReverseProxy.ServeHTTP] does to its
    [ResponseWriter] for a given answer of the transport (the standard
    library's documented behaviour, with the [ErrorHandler] that [NewProxy]
    installs).  [failoverResponseWriter] is that of src/pkg/runtime/proxy.go:
    it turns the operations of the primary attempt into operations on the
    client's writer. *)

From S2P Require Import Prelude GoStrings Http RetryTransport.

(** ** The reverse proxy on one answer *)

Definition body_op (e : body_event) : writer_op :=
  match e with Chunk b => OpWrite b | ChunkFlush => OpFlush end.
Definition add_ops (hs : list (string * string)) : list writer_op :=
  (λ kv, OpAdd kv.1 kv.2) <$> hs.
Definition interim_ops (i : Z * list (string * string)) : list writer_op :=
  add_ops i.2 ++ [OpWriteHeader i.1; OpClear].

(** The operations, and whether the handler then panics with
    [http.ErrAbortHandler]: a body that cannot be read to its end aborts the
    request when it runs under an [http.Server]. *)
Definition reverse_proxy (under_server : bool) (o : round) : list writer_op * bool :=
  match o with
  | (Some r, None) =>
      let '(evs, err) := read_body r in
      ((up_interim r ≫= interim_ops) ++ add_ops (up_headers r)
       ++ [OpWriteHeader (up_status r)] ++ (body_op <$> evs), err && under_server)
  | (_, Some e) => (http_error ("proxy error: " +:+ e) 502, false)
  | (None, None) => ([], true)   (* the standard proxy dereferences nil *)
  end.

(** ** The writer *)

Record failoverResponseWriter := FailoverWriter {
  code : Z;
  failed : bool;
  committed : bool;
}.
Definition new_failover_writer : failoverResponseWriter := FailoverWriter 200 false false.

(** One call on the wrapper: the calls it makes on the embedded writer, and its
    new state.  [Header()] is the embedded writer's. *)
Definition failover_step (fw : failoverResponseWriter) (o : writer_op)
    : list writer_op * failoverResponseWriter :=
  match o with
  | OpWriteHeader c =>
      if committed fw then ([], fw)
      else if failing_status c then ([], FailoverWriter (code fw) true (committed fw))
      else ([OpWriteHeader c], FailoverWriter c (failed fw) true)
  | OpWrite b =>
      if failed fw && negb (committed fw) then ([], fw)
      else ([OpWrite b], FailoverWriter (code fw) (failed fw) true)
  | OpFlush => ([OpFlush], fw)
  | _ => ([o], fw)
  end.
Fixpoint failover_run (fw : failoverResponseWriter) (ops : list writer_op)
    : list writer_op * failoverResponseWriter :=
  match ops with
  | [] => ([], fw)
  | o :: ops =>
      let '(out, fw) := failover_step fw o in
      let '(outs, fw) := failover_run fw ops in (out ++ outs, fw)
  end.

(** The failover branch of [Proxy.ServeHTTP]: the operations on the client's
    writer and whether the handler panicked.  [second] is the fallback proxy's
    handler. *)
Definition serve_failover (under_server : bool) (primary : round)
    (second : list writer_op * bool) : list writer_op * bool :=
  let '(ops, aborted) := reverse_proxy under_server primary in
  let '(out, fw) := failover_run new_failover_writer ops in
  if aborted then (out, true)
  else if failed fw && negb (committed fw) then (out ++ second.1, second.2)
  else (out, false).

(** ** Classes of answers *)

Definition header_ops (ops : list writer_op) : Prop := Forall (λ o, is_header_op o = true) ops.

(** The answer is a response the wrapper lets through. *)
Definition primary_ok (o : round) : Prop :=
  ∃ r, o = (Some r, None) ∧ failing_status (up_status r) = false ∧ up_interim r = [].
(** The answer is an error, or a failing response that is not streamed and was
    not preceded by a 1xx response. *)
Definition primary_failed (o : round) : Prop :=
  (∃ e r, o = (r, Some e))
  ∨ ∃ r, o = (Some r, None) ∧ failing_status (up_status r) = true
      ∧ up_interim r = [] ∧ ChunkFlush ∉ (read_body r).1 ∧ (read_body r).2 = false.

(** ** Lemmas *)

Lemma failover_run_app fw ops ops' :
  failover_run fw (ops ++ ops')
  = let '(out, fw') := failover_run fw ops in
    let '(out', fw'') := failover_run fw' ops' in (out ++ out', fw'').
Proof.
  revert fw; induction ops as [|o ops IH]; intros fw; cbn [app failover_run].
  - by destruct (failover_run fw ops').
  - destruct (failover_step fw o) as [out fw1]. rewrite IH.
    destruct (failover_run fw1 ops) as [out2 fw2]. destruct (failover_run fw2 ops').
    by rewrite app_assoc.
Qed.

Lemma failover_run_header fw ops : header_ops ops → failover_run fw ops = (ops, fw).
Proof.
  induction 1 as [|o ops Ho _ IH]; [done|]. cbn [failover_run].
  replace (failover_step fw o) with ([o], fw) by (by destruct o). by rewrite IH.
Qed.

Lemma add_ops_header hs : header_ops (add_ops hs).
Proof. apply Forall_fmap, Forall_true. done. Qed.

(** Committed, the wrapper only drops further status lines. *)
Definition no_status (o : writer_op) : bool :=
  match o with OpWriteHeader _ => false | _ => true end.
Lemma failover_run_committed_gen c f ops :
  failover_run (FailoverWriter c f true) ops = (List.filter no_status ops, FailoverWriter c f true).
Proof.
  induction ops as [|o ops IH]; [done|]. cbn [failover_run List.filter].
  destruct o; cbn [failover_step code failed committed negb no_status];
    rewrite ?andb_false_r, IH; done.
Qed.
Lemma filter_no_status ops : forallb no_status ops = true → List.filter no_status ops = ops.
Proof.
  induction ops as [|o ops IH]; [done|]. cbn. rewrite andb_true_iff. intros [-> ?].
  by rewrite IH.
Qed.
Lemma filter_no_status_all ops : forallb no_status (List.filter no_status ops) = true.
Proof. induction ops as [|o ops IH]; [done|]. cbn. destruct (no_status o) eqn:E; cbn; rewrite ?E; done. Qed.
Lemma failover_run_committed c f ops :
  forallb no_status ops = true →
  (failover_run (FailoverWriter c f true) ops).1 = ops
  ∧ committed (failover_run (FailoverWriter c f true) ops).2 = true.
Proof. intros. by rewrite failover_run_committed_gen, filter_no_status. Qed.

Lemma body_ops_no_status evs : forallb no_status (body_op <$> evs) = true.
Proof. induction evs as [|[] evs IH]; done. Qed.

(** Failed, it forwards only header operations and flushes. *)
Lemma failover_run_failed c evs :
  failover_run (FailoverWriter c true false) (body_op <$> evs)
  = (filter (λ o, o = OpFlush) (body_op <$> evs), FailoverWriter c true false).
Proof.
  induction evs as [|e evs IH]; [done|]. rewrite fmap_cons. cbn [failover_run].
  rewrite filter_cons.
  destruct e; cbn [body_op failover_step failed committed negb andb]; rewrite IH;
    by case_decide.
Qed.

Lemma filter_no_flush evs :
  ChunkFlush ∉ evs → filter (λ o, o = OpFlush) (body_op <$> evs) = [].
Proof.
  intros Hn. induction evs as [|e evs IH]; [done|]. rewrite fmap_cons, filter_cons.
  apply not_elem_of_cons in Hn as [He Hn]. destruct e; [|done].
  rewrite decide_False by done. auto.
Qed.

(** The forwarded operations and final state on each class. *)
Lemma failover_run_ok srv o :
  primary_ok o →
  (failover_run new_failover_writer (reverse_proxy srv o).1).1 = (reverse_proxy srv o).1
  ∧ committed (failover_run new_failover_writer (reverse_proxy srv o).1).2 = true.
Proof.
  intros (r & -> & Hs & Hi). cbn [reverse_proxy]. destruct (read_body r) as [evs err].
  rewrite Hi. cbn [mbind list_bind app fst].
  rewrite failover_run_app, failover_run_header by apply add_ops_header.
  cbn [failover_run failover_step new_failover_writer committed]. rewrite Hs.
  destruct (failover_run_committed (up_status r) false _ (body_ops_no_status evs)) as [H1 H2].
  cbn [failed]. destruct (failover_run _ (body_op <$> evs)) as [outs fw]. cbn in *. by subst.
Qed.

Lemma failover_run_fail srv o :
  primary_failed o →
  (reverse_proxy srv o).2 = false
  ∧ header_ops (failover_run new_failover_writer (reverse_proxy srv o).1).1
  ∧ failed (failover_run new_failover_writer (reverse_proxy srv o).1).2 = true
  ∧ committed (failover_run new_failover_writer (reverse_proxy srv o).1).2 = false.
Proof.
  intros [(e & r & ->)|(r & -> & Hs & Hi & Hn & Hr)].
  - destruct r; cbn; (split; [done|]; split; [|done]); repeat constructor.
  - cbn [reverse_proxy]. destruct (read_body r) as [evs err]. cbn in Hn, Hr. subst err.
    rewrite Hi. cbn [mbind list_bind app fst snd andb]. split; [done|].
    rewrite failover_run_app, failover_run_header by apply add_ops_header.
    cbn [failover_run failover_step new_failover_writer committed app code failed]. rewrite Hs.
    rewrite failover_run_failed, filter_no_flush by done. cbn [fst snd failed committed].
    split; [|done]. rewrite !app_nil_r. apply add_ops_header.
Qed.

(** Two response writers that differ in their live headers only. *)
Definition same_wire (r r' : response) : Prop :=
  status r = status r' ∧ sent r = sent r' ∧ (final r = None ↔ final r' = None)
  ∧ fst <$> interim r = fst <$> interim r'.

Ltac wire_cases Hf E E' :=
  rewrite ?E, ?E' in Hf;
  try (discriminate (proj1 Hf eq_refl)); try (discriminate (proj2 Hf eq_refl)).

Lemma same_wire_write_header c r r' :
  same_wire r r' → same_wire (write_header c r) (write_header c r').
Proof.
  intros (Hs & Hb & Hf & Hi). unfold write_header.
  destruct (final r) as [x|] eqn:E, (final r') as [x'|] eqn:E';
    wire_cases Hf E E'.
  - unfold same_wire. by rewrite E, E'.
  - destruct (informational c); unfold same_wire, status in *; cbn; rewrite ?fmap_app, ?Hi; done.
Qed.
Lemma same_wire_commit r r' : same_wire r r' → same_wire (commit r) (commit r').
Proof.
  intros Hw. unfold commit. pose proof Hw as (_ & _ & Hf & _).
  destruct (final r) as [x|] eqn:E, (final r') as [x'|] eqn:E';
    wire_cases Hf E E'; try done.
  by apply same_wire_write_header.
Qed.
Lemma same_wire_step r r' o :
  same_wire r r' → same_wire (response_step r o) (response_step r' o).
Proof.
  intros Hw. destruct o; cbn [response_step]; try done.
  - by apply same_wire_write_header.
  - apply same_wire_commit in Hw. generalize (commit r), (commit r'), Hw. clear.
    intros r r' (Hs & Hb & Hf & Hi). unfold status in Hs.
    destruct (final r) as [[c h]|] eqn:E, (final r') as [[c' h']|] eqn:E';
      wire_cases Hf E E'.
    + subst c'. destruct (body_allowed c); unfold same_wire, status; cbn; rewrite ?E, ?E', ?Hb; done.
    + unfold same_wire, status. rewrite E, E'. done.
  - by apply same_wire_commit.
Qed.
Lemma same_wire_run r r' ops :
  same_wire r r' → same_wire (respond_from r ops) (respond_from r' ops).
Proof.
  revert r r'. induction ops as [|o ops IH]; intros r r' Hw; [done|].
  by apply IH, same_wire_step.
Qed.

Lemma respond_after_headers ops ops' :
  header_ops ops → same_wire (respond (ops ++ ops')) (respond ops').
Proof.
  intros Hh. unfold respond. rewrite respond_from_app. apply same_wire_commit, same_wire_run.
  destruct (header_ops_unsent new_response ops Hh) as (Hf & Hs & Hi).
  unfold same_wire, status. rewrite Hf, Hs, Hi. done.
Qed.


(** The failover takes over.  When the primary fails (a transport error,
    or an unstreamed 5xx or 429 without 1xx responses), the client receives
    status and body of the fallback's answer; all that is left of the primary's
    answer are operations on the header map, which the fallback's headers are
    then added to. *)
Theorem failover_takes_over srv primary second :
  primary_failed primary →
  (∃ leaked, header_ops leaked ∧ serve_failover srv primary second = (leaked ++ second.1, second.2))
  ∧ same_wire (respond (serve_failover srv primary second).1) (respond second.1).
Proof.
  intros Hp. pose proof (failover_run_fail srv primary Hp) as (Ha & Hh & Hf & Hc).
  assert (∃ leaked, header_ops leaked
    ∧ serve_failover srv primary second = (leaked ++ second.1, second.2)) as (l & Hl & E).
  { unfold serve_failover. destruct (reverse_proxy srv primary) as [ops aborted]. cbn [fst snd] in *.
    destruct (failover_run new_failover_writer ops) as [out fw]. cbn in *. subst aborted.
    exists out. by rewrite Hf, Hc. }
  split; [by exists l|]. rewrite E. by apply respond_after_headers.
Qed.

Lemma commit_unsent r : final r = None → final (commit r) = Some (200%Z, live r).
Proof. intros E. unfold commit. rewrite E. unfold write_header. by rewrite E. Qed.
Lemma status_commit r : final r = None → status (commit r) = 200%Z.
Proof. intros E. unfold status. by rewrite commit_unsent. Qed.
Lemma status_final r x ops : final r = Some x → status (respond_from r ops) = x.1.
Proof.
  intros E. unfold status. rewrite (respond_from_final _ _ _ E). by destruct x.
Qed.
Lemma status_commit_final r x : final r = Some x → status (commit r) = x.1.
Proof.
  intros E. destruct x as [c h]. unfold commit. rewrite E. unfold status. by rewrite E.
Qed.

(** The status of a handler whose first sending operation is a flush. *)
Lemma respond_flush_first ops ops' :
  header_ops ops → status (respond (ops ++ OpFlush :: ops')) = 200%Z.
Proof.
  intros Hh. unfold respond. rewrite respond_from_app.
  destruct (header_ops_unsent new_response ops Hh) as (Hf & _).
  set (r := respond_from new_response ops) in *.
  change (respond_from r (OpFlush :: ops')) with (respond_from (commit r) ops').
  pose proof (commit_unsent r Hf) as Hc.
  pose proof (respond_from_final _ ops' _ Hc) as Hc'.
  by rewrite (status_commit_final _ _ Hc').
Qed.

Lemma filter_flush_cons evs :
  ChunkFlush ∈ evs → ∃ rest, filter (λ o, o = OpFlush) (body_op <$> evs) = OpFlush :: rest.
Proof.
  induction evs as [|e evs IH]; [by intros ?%not_elem_of_nil|].
  intros Hin. rewrite fmap_cons, filter_cons. destruct e; cbn [body_op].
  - apply elem_of_cons in Hin as [?|Hin]; [done|]. rewrite decide_False by done. auto.
  - rewrite decide_True by done. eauto.
Qed.

(** A failing primary that is streamed defeats the failover: its
    suppressed body still flushes the client's writer, which commits status 200
    before the fallback answers, whatever the fallback's status is. *)
Theorem failover_flush_commits_200 srv r second :
  failing_status (up_status r) = true → up_interim r = [] →
  ChunkFlush ∈ (read_body r).1 →
  status (respond (serve_failover srv (Some r, None) second).1) = 200%Z.
Proof.
  intros Hs Hi Hin. unfold serve_failover. cbn [reverse_proxy].
  destruct (read_body r) as [evs err]. rewrite Hi. cbn [mbind list_bind app fst] in *.
  rewrite failover_run_app, failover_run_header by apply add_ops_header.
  cbn [failover_run failover_step new_failover_writer committed app code failed]. rewrite Hs.
  rewrite failover_run_failed. destruct (filter_flush_cons evs Hin) as (rest & ->).
  cbn [app failed committed andb negb].
  destruct (err && srv); cbn [fst]; rewrite <- ?app_assoc;
    apply respond_flush_first, add_ops_header.
Qed.

Lemma no_status_200 ops r :
  forallb no_status ops = true → final r = None → status (commit (respond_from r ops)) = 200%Z.
Proof.
  revert r. induction ops as [|o ops IH]; intros r Hn Hr; [by apply status_commit|].
  cbn [forallb] in Hn. apply andb_true_iff in Hn as [Ho Hn].
  change (respond_from r (o :: ops)) with (respond_from (response_step r o) ops).
  destruct o as [k v|k v|k| |c|b|]; try (apply IH; [done | exact Hr]); [discriminate Ho| |].
  - cbn [response_step]. rewrite (commit_unsent r Hr). cbn [body_allowed].
    erewrite status_commit_final; [|apply respond_from_final; reflexivity]. done.
  - cbn [response_step].
    erewrite status_commit_final; [|apply respond_from_final, commit_unsent; done]. done.
Qed.

Lemma failover_run_interim hs c tail :
  failing_status c = false →
  failover_run new_failover_writer (add_ops hs ++ OpWriteHeader c :: tail)
  = (add_ops hs ++ OpWriteHeader c :: List.filter no_status tail, FailoverWriter c false true).
Proof.
  intros Hs. rewrite failover_run_app, failover_run_header by apply add_ops_header.
  cbn [failover_run failover_step new_failover_writer committed failed]. rewrite Hs.
  by rewrite failover_run_committed_gen.
Qed.

Lemma respond_interim_200 hs c tail :
  informational c = true → forallb no_status tail = true →
  status (respond (add_ops hs ++ OpWriteHeader c :: tail)) = 200%Z.
Proof.
  intros Hc Ht. unfold respond. rewrite respond_from_app.
  destruct (header_ops_unsent new_response _ (add_ops_header hs)) as (Hf & _).
  set (r := respond_from new_response (add_ops hs)) in *.
  change (respond_from r (OpWriteHeader c :: tail))
    with (respond_from (write_header c r) tail).
  apply no_status_200; [done|]. unfold write_header. by rewrite Hf, Hc.
Qed.

Lemma informational_not_failing c : informational c = true → failing_status c = false.
Proof.
  unfold informational, failing_status.
  rewrite !andb_true_iff, !Z.leb_le, orb_false_iff, Z.leb_gt, Z.eqb_neq. lia.
Qed.

(** A 1xx response marks the wrapper as committed, so the status of the
    final response is dropped: behind a failover the client sees 200 for every
    final status, failures included, and the fallback is not asked. *)
Theorem failover_interim_loses_status srv r i rest second :
  up_interim r = i :: rest → informational i.1 = true →
  status (respond (serve_failover srv (Some r, None) second).1) = 200%Z
  ∧ serve_failover srv (Some r, None) second = serve_failover srv (Some r, None) ([], false).
Proof.
  intros Hi Hc. pose proof (informational_not_failing _ Hc) as Hns.
  unfold serve_failover. cbn [reverse_proxy]. destruct (read_body r) as [evs err].
  rewrite Hi.
  assert ((i :: rest) ≫= interim_ops
    = add_ops i.2 ++ OpWriteHeader i.1 :: OpClear :: (rest ≫= interim_ops)) as ->
    by (rewrite bind_cons; unfold interim_ops at 1; by rewrite <- app_assoc).
  rewrite <- app_assoc. cbn [app]. rewrite failover_run_interim by done. cbn [failed committed andb]. split; [|done].
  destruct (err && srv); cbn [fst]; apply respond_interim_200; auto using filter_no_status_all.
Qed.

(** Retries defeat the failover.  A failing answer with a body that the
    retrying transport returns has its body closed already; forwarding it under
    a server aborts the connection, and the fallback is never asked. *)
Theorem failover_after_retries_aborts base retries delay body b r second :
  body_text body = Some b → first_ok base 0 retries = None →
  base retries = (Some r, None) → is_Some (up_body r) →
  (serve_failover true (RoundTrip base retries delay body).1.1 second).2 = true
  ∧ serve_failover true (RoundTrip base retries delay body).1.1 second
    = serve_failover true (RoundTrip base retries delay body).1.1 ([], false).
Proof.
  intros Hb Hn Hr [[evs err] Hbody]. rewrite (retry_spec _ _ _ _ _ Hb), Hn, Hr.
  cbn [fst snd fmap option_fmap option_map]. unfold serve_failover. cbn [reverse_proxy].
  unfold read_body, close_body. cbn [up_body up_closed up_interim up_headers up_status].
  rewrite Hbody. cbn [andb].
  by destruct (failover_run _ _).
Qed.

(** ** Concrete answers *)

Definition answer_ok : round :=
  (Some (UpResp [] 200 [("Content-Type", "text/html")] (Some ([Chunk "hi"], false)) false), None).
Definition answer_503 : upstream_response :=
  UpResp [] 503 [("Retry-After", "9")] (Some ([Chunk "down"], false)) false.
Definition streamed_503 : upstream_response :=
  UpResp [] 503 [] (Some ([Chunk "down"; ChunkFlush], false)) false.
Definition early_hints : upstream_response :=
  UpResp [(103%Z, [("Link", "</a.css>")])] 404 [] (Some ([Chunk "no"], false)) false.


Lemma failover_takes_over_witness :
  status (respond (serve_failover true (Some answer_503, None) (reverse_proxy true answer_ok)).1)
  = 200%Z.
Proof.
  destruct (failover_takes_over true (Some answer_503, None) (reverse_proxy true answer_ok))
    as [_ (Hs & _)].
  - right. exists answer_503. split; [reflexivity|]. split; [reflexivity|].
    split; [reflexivity|]. split; [|reflexivity]. cbn.
    intros [Hc|Hc]%elem_of_cons; [discriminate Hc | by apply not_elem_of_nil in Hc].
  - rewrite Hs. reflexivity.
Defined.

Lemma failover_flush_commits_200_witness :
  status (respond (serve_failover true (Some streamed_503, None) (not_found, false)).1) = 200%Z.
Proof.
  apply failover_flush_commits_200; [reflexivity|reflexivity|]. right. left.
Defined.

Lemma failover_interim_loses_status_witness :
  status (respond (serve_failover true (Some early_hints, None) (not_found, false)).1) = 200%Z.
Proof.
  exact (proj1 (failover_interim_loses_status true early_hints _ _ (not_found, false)
    eq_refl eq_refl)).
Defined.

Lemma failover_after_retries_aborts_witness :
  (serve_failover true (RoundTrip (λ _, (Some answer_503, None)) 2 0 NilBody).1.1
     (reverse_proxy true answer_ok)).2 = true.
Proof.
  apply (failover_after_retries_aborts (λ _, (Some answer_503, None)) 2 0 NilBody None answer_503);
    try reflexivity. eexists. reflexivity.
Defined.
