(* ===== verification/Proxy.v ===== *)
(** * The reverse proxy

    Models [Proxy] of src/pkg/runtime/proxy.go: its configuration methods, the
    request rewriting of its director, the cached health check, and [ServeHTTP]
    with its gates (rate limiter, circuit breaker, health) and its failover.
    What the network answers and what the clock reads are arguments; parsing a
    target URL ([url.Parse]) is the parameter [parse_url]. *)

From S2P Require Import Prelude GoStrings Paths Http RequestID.
From S2P Require CircuitBreaker RateLimiter.
From S2P Require Import RetryTransport Failover.

Record url := Url { scheme : string; url_authority : string; url_base : string }.

Inductive base_transport :=
  | Pooled
  | WithTimeouts (timeout : duration)
  | Upstream (certificate roots : option string)  (* as [WithUpstreamTLS] makes it *)
  | DefaultTransport.
Record transport := Transport {
  base : option base_transport;
  retry : option (nat * duration);
}.

(** The observers called on every response, in order. *)
Inductive observer_kind :=
  | UserObserver (name : string)
  | LogObserver
  | MetricsObserver.

Record Proxy := mkProxy {
  rp_transport : transport;
  targetURL : url;
  director : bool;
  stripPrefix : string;
  targetPathPrefix : string;
  rewriteFrom : string;
  rewriteTo : string;
  extra_headers : gmap string (list string);
  timeout : duration;
  observer : list observer_kind;
  circuitBreaker : option CircuitBreaker.proxyCircuitBreaker;
  rateLimiter : option RateLimiter.proxyRateLimiter;
  retryAttempts : Z;
  retryDelay : duration;
  healthCheckPath : string;
  healthCheckInterval : duration;
  healthCheckTimeout : duration;
  failoverProxy : option url;
  healthy : bool;
  lastHealthCheck : time;
}.

Section Build.
Context (parse_url : string → result url).

Definition NewProxy (target : string) : result Proxy :=
  if decide (target = "") then Err "target url is required" else
  try u := parse_url target in
  if decide (scheme u = "" ∨ url_authority u = "")
  then Err "target must be a full URL such as http://localhost:8081"
  else Ok (mkProxy (Transport (Some Pooled) None) u false "" "" "" "" ∅ 0 [] None None
             0 0 "" 0 0 None false time_zero).

Definition WithFailover (p : option Proxy) (target : string) : option Proxy :=
  on_recv p None (λ q,
    if decide (target = "") then p else
    match NewProxy target with
    | Err _ => p
    | Ok fallback =>
        Some (mkProxy (rp_transport q) (targetURL q) (director q) (stripPrefix q)
          (targetPathPrefix q) (rewriteFrom q) (rewriteTo q) (extra_headers q) (timeout q)
          (observer q) (circuitBreaker q) (rateLimiter q) (retryAttempts q) (retryDelay q)
          (healthCheckPath q) (healthCheckInterval q) (healthCheckTimeout q)
          (Some (targetURL fallback)) (healthy q) (lastHealthCheck q))
    end).
End Build.

(** The path prefix as the configuration stores it: the root is no prefix. *)
Definition stored_prefix (prefix : string) : string :=
  let q := normalizePath prefix in if decide (q = "/") then "" else q.

(** Replace the rewriting rules; [applyDirector] installs the director. *)
Definition with_paths (q : Proxy) (strip tpp from to : string)
    (hs : gmap string (list string)) : Proxy :=
  mkProxy (rp_transport q) (targetURL q) true strip tpp from to hs (timeout q)
    (observer q) (circuitBreaker q) (rateLimiter q) (retryAttempts q) (retryDelay q)
    (healthCheckPath q) (healthCheckInterval q) (healthCheckTimeout q)
    (failoverProxy q) (healthy q) (lastHealthCheck q).
Definition WithPathPrefix (p : option Proxy) (prefix : string) : option Proxy :=
  on_recv p None (λ q, Some (with_paths q (stripPrefix q) (stored_prefix prefix)
                               (rewriteFrom q) (rewriteTo q) (extra_headers q))).
Definition WithStripPrefix (p : option Proxy) (prefix : string) : option Proxy :=
  on_recv p None (λ q, Some (with_paths q (stored_prefix prefix) (targetPathPrefix q)
                               (rewriteFrom q) (rewriteTo q) (extra_headers q))).
Definition WithRewrite (p : option Proxy) (from to : string) : option Proxy :=
  on_recv p None (λ q, Some (with_paths q (stripPrefix q) (targetPathPrefix q)
                               (stored_prefix from) (stored_prefix to) (extra_headers q))).
Definition WithHeader (p : option Proxy) (key value : string) : option Proxy :=
  on_recv p None (λ q, Some (with_paths q (stripPrefix q) (targetPathPrefix q)
                               (rewriteFrom q) (rewriteTo q)
                               (header_set (extra_headers q) key value))).

(** Replace transport, timeout and retry settings. *)
Definition with_transport (q : Proxy) (t : transport) (tmo : duration) (n : Z)
    (d : duration) : Proxy :=
  mkProxy t (targetURL q) (director q) (stripPrefix q) (targetPathPrefix q)
    (rewriteFrom q) (rewriteTo q) (extra_headers q) tmo (observer q) (circuitBreaker q)
    (rateLimiter q) n d (healthCheckPath q) (healthCheckInterval q) (healthCheckTimeout q)
    (failoverProxy q) (healthy q) (lastHealthCheck q).
Definition WithRetry (p : option Proxy) (attempts : Z) (delay : duration) : option Proxy :=
  on_recv p None (λ q,
    let b := match base (rp_transport q) with None => DefaultTransport | Some b => b end in
    let t := if (attempts <=? 0)%Z then Transport (Some b) None
             else Transport (Some b) (Some (Z.to_nat attempts, delay)) in
    Some (with_transport q t (timeout q) attempts delay)).
Definition WithTimeout (p : option Proxy) (tmo : duration) : option Proxy :=
  on_recv p None (λ q,
    let t :=
      if (0 <? tmo)%Z then
        if (0 <? retryAttempts q)%Z
        then Transport (Some (WithTimeouts tmo)) (Some (Z.to_nat (retryAttempts q), retryDelay q))
        else Transport (Some (WithTimeouts tmo)) None
      else rp_transport q in
    Some (with_transport q t tmo (retryAttempts q) (retryDelay q))).

(** Replace the observers and the two limiting devices. *)
Definition with_devices (q : Proxy) (obs : list observer_kind)
    (cb : option CircuitBreaker.proxyCircuitBreaker) (rl : option RateLimiter.proxyRateLimiter)
    : Proxy :=
  mkProxy (rp_transport q) (targetURL q) (director q) (stripPrefix q)
    (targetPathPrefix q) (rewriteFrom q) (rewriteTo q) (extra_headers q) (timeout q)
    obs cb rl (retryAttempts q) (retryDelay q)
    (healthCheckPath q) (healthCheckInterval q) (healthCheckTimeout q)
    (failoverProxy q) (healthy q) (lastHealthCheck q).
Definition WithObserver (p : option Proxy) (o : option string) : option Proxy :=
  on_recv p None (λ q, Some (with_devices q (match o with Some n => [UserObserver n] | None => [] end)
                               (circuitBreaker q) (rateLimiter q))).
Definition WithLogger (p : option Proxy) : option Proxy :=
  on_recv p None (λ q, Some (with_devices q (observer q ++ [LogObserver])
                               (circuitBreaker q) (rateLimiter q))).
Definition WithMetrics (p : option Proxy) : option Proxy :=
  on_recv p None (λ q, Some (with_devices q (observer q ++ [MetricsObserver])
                               (circuitBreaker q) (rateLimiter q))).
Definition WithRateLimit (now : time) (p : option Proxy) (rps burst : Z) : option Proxy :=
  on_recv p None (λ q, Some (with_devices q (observer q) (circuitBreaker q)
                               (RateLimiter.newProxyRateLimiter now rps burst))).
Definition WithCircuitBreaker (p : option Proxy) (threshold : Z) (window openFor : duration)
    : option Proxy :=
  on_recv p None (λ q, Some (with_devices q (observer q)
                               (CircuitBreaker.newProxyCircuitBreaker threshold window openFor)
                               (rateLimiter q))).

(** ** Health *)

Definition with_health (q : Proxy) (path : string) (interval tmo : duration)
    (ok : bool) (checked : time) : Proxy :=
  mkProxy (rp_transport q) (targetURL q) (director q) (stripPrefix q)
    (targetPathPrefix q) (rewriteFrom q) (rewriteTo q) (extra_headers q) (timeout q)
    (observer q) (circuitBreaker q) (rateLimiter q) (retryAttempts q) (retryDelay q)
    path interval tmo (failoverProxy q) ok checked.

Definition probe_path (q : Proxy) : string :=
  joinProxyPath (url_base (targetURL q)) (healthCheckPath q) (stripPrefix q)
    (targetPathPrefix q) (rewriteFrom q) (rewriteTo q).

(** [probe] is the status the probe gets, [None] when it cannot be built or
    sent; [now] is read against the last check, [done] after the probe. *)
Definition refreshHealthStatus (now done : time) (probe : option Z) (p : option Proxy)
    : bool * option Proxy :=
  match p with
  | None => (true, None)
  | Some q =>
      if decide (healthCheckPath q = "") then (true, p) else
      if (0 <? healthCheckInterval q)%Z && negb (is_zero (lastHealthCheck q))
         && (time_sub now (lastHealthCheck q) <? healthCheckInterval q)%Z
      then (healthy q, p)
      else
        let tmo := if (healthCheckTimeout q <=? 0)%Z then (2 * second)%Z
                   else healthCheckTimeout q in
        let ok := match probe with
                  | None => false
                  | Some code => (200 <=? code)%Z && (code <? 500)%Z
                  end in
        (ok, Some (with_health q (healthCheckPath q) (healthCheckInterval q) tmo ok done))
  end.

Definition WithHealthCheck (now done : time) (probe : option Z) (p : option Proxy)
    (path : string) (interval : duration) : option Proxy :=
  on_recv p None (λ q,
    let path := if decide (path = "") then "/health" else path in
    let interval := if (interval <=? 0)%Z then second else interval in
    let tmo := if (healthCheckTimeout q <=? 0)%Z then (2 * second)%Z
               else healthCheckTimeout q in
    (refreshHealthStatus now done probe
       (Some (with_health q (normalizePath path) interval tmo (healthy q)
                (lastHealthCheck q)))).2).

(** ** The director *)

(** The static headers replace those of the request; every key is canonical. *)
Definition set_all (h : gmap string (list string)) (key : string) (values : list string) :=
  foldl (λ h v, header_set h key v) h values.
Definition apply_extra (extra h : gmap string (list string)) : gmap string (list string) :=
  map_fold (λ k vs h, set_all h k vs) h extra.

Definition forwarded_for (h : gmap string (list string)) (remote : string) :=
  let clientIP := default remote (split_host remote) in
  let prior := trim_space (header_get h "X-Forwarded-For") in
  if decide (prior ≠ "") then header_set h "X-Forwarded-For" (prior +:+ ", " +:+ clientIP)
  else header_set h "X-Forwarded-For" clientIP.

Definition set_ids (id : string) (h : gmap string (list string)) :=
  foldl (λ h k, header_set h k id) h id_headers.

Definition direct (q : Proxy) (now : time) (r : request) : request :=
  let t := targetURL q in
  let h := headers r in
  let id := RequestIDFromRequest (Some r) in
  let h := if decide (id ≠ "") then set_ids id h else h in
  let h := if decide (scheme t = "http" ∨ scheme t = "https")
           then header_set h "X-Forwarded-Proto" (scheme t) else h in
  let h := if decide (remote_addr r ≠ "") then forwarded_for h (remote_addr r) else h in
  let h := apply_extra (extra_headers q) h in
  Request (method r) (scheme t) (url_authority t)
    (joinProxyPath (url_base t) (url_path r) (stripPrefix q) (targetPathPrefix q)
       (rewriteFrom q) (rewriteTo q))
    (url_authority t) h (remote_addr r) (ctx_strings r) (Some now).

(** What [httputil.ReverseProxy] does to the forwarding chain after its
    director: it appends the client address itself. *)
Definition reverse_proxy_forwarded (r : request) : request :=
  match split_host (remote_addr r) with
  | None => r
  | Some ip =>
      match headers r !! "X-Forwarded-For" with
      | Some [] => r
      | Some prior =>
          with_headers r (header_set (headers r) "X-Forwarded-For"
                            (join prior ", " +:+ ", " +:+ ip))
      | None => with_headers r (header_set (headers r) "X-Forwarded-For" ip)
      end
  end.

(** ** Serving *)

(** The clock readings of one request. *)
Record readings := Readings {
  at_limiter : time;
  at_breaker1 : time; at_breaker2 : time; at_breaker3 : time;
  at_health : time; at_probe_done : time;
  at_start : time;
  at_answer : time;
  at_observe : time;
}.

Record observation := Observation {
  seen_by : observer_kind;
  seen_status : Z;
  seen_took : duration;
}.

(** What serving a request did: the operations on the client's writer, whether
    the handler panicked, the observations, whether the primary was asked, and
    the proxy afterwards. *)
Record served := Served {
  ops : list writer_op;
  aborted : bool;
  observations : list observation;
  asked : bool;
  proxy : option Proxy;
}.

Definition transport_round (t : transport) (base : nat → round) (body : request_body) : round :=
  match retry t with
  | None => base 0
  | Some (n, d) => (RoundTrip base n d body).1.1
  end.

(** [ModifyResponse] and [ErrorHandler]: what the breaker records. *)
Definition record_outcome (now : time) (o : round)
    (cb : option CircuitBreaker.proxyCircuitBreaker) :=
  match o with
  | (Some r, None) =>
      if failing_status (up_status r) then CircuitBreaker.recordFailure now cb
      else CircuitBreaker.recordSuccess now cb
  | (_, Some _) => CircuitBreaker.recordFailure now cb
  | (None, None) => cb
  end.
Definition observe (rd : readings) (start : option time) (o : round) (obs : list observer_kind)
    : list observation :=
  match o with
  | (Some r, None) =>
      let start := default (at_observe rd) start in
      let took := time_sub (at_observe rd) start in
      let took := if (took <=? 0)%Z then nanosecond else took in
      (λ k, Observation k (up_status r) took) <$> obs
  | _ => []
  end.

(** [fallback retained] is what the fallback proxy's transport returns, where
    [retained] tells whether the request body is still unread. *)
Definition ServeHTTP (p : option Proxy) (rd : readings) (under_server : bool)
    (probe : option Z) (primary : nat → round) (fallback : bool → round)
    (body : request_body) : served :=
  match p with
  | None => Served not_found false [] false None
  | Some q =>
      let '(admitted, rl) :=
        match rateLimiter q with
        | None => (true, None)
        | Some _ => RateLimiter.allow (at_limiter rd) (rateLimiter q)
        end in
      let q := with_devices q (observer q) (circuitBreaker q) rl in
      if negb admitted
      then Served (http_error "rate limit exceeded" 429) false [] false (Some q) else
      let '(closed, cb) :=
        match circuitBreaker q with
        | None => (true, None)
        | Some _ => CircuitBreaker.allow (at_breaker1 rd) (at_breaker2 rd) (at_breaker3 rd)
                      (circuitBreaker q)
        end in
      let q := with_devices q (observer q) cb rl in
      if negb closed
      then Served (http_error "upstream temporarily unavailable" 503) false [] false (Some q) else
      let '(up, p) :=
        if decide (healthCheckPath q ≠ "")
        then refreshHealthStatus (at_health rd) (at_probe_done rd) probe (Some q)
        else (true, Some q) in
      let q := default q p in
      if negb up then
        match failoverProxy q with
        | Some _ =>
            let '(ops, ab) := reverse_proxy under_server (fallback true) in
            Served ops ab [] false (Some q)
        | None => Served (http_error "upstream unavailable" 503) false [] false (Some q)
        end
      else
        let o := transport_round (rp_transport q) primary body in
        let start := if director q then Some (at_start rd) else None in
        let obs := observe rd start o (observer q) in
        let q' := with_devices q (observer q) (record_outcome (at_answer rd) o (circuitBreaker q))
                    (rateLimiter q) in
        let '(ops, ab) :=
          match failoverProxy q with
          | Some _ => serve_failover under_server o (reverse_proxy under_server (fallback false))
          | None => reverse_proxy under_server o
          end in
        Served ops ab obs true (Some q')
  end.

(** ** Configuration: what every sequence of builder calls keeps true *)

Inductive builder :=
  | BPathPrefix (s : string)
  | BStripPrefix (s : string)
  | BRewrite (from to : string)
  | BHeader (key value : string)
  | BRetry (attempts : Z) (delay : duration)
  | BTimeout (d : duration)
  | BObserver (o : option string)
  | BLogger
  | BMetrics
  | BRateLimit (now : time) (rps burst : Z)
  | BCircuitBreaker (threshold : Z) (window openFor : duration)
  | BHealthCheck (now done : time) (probe : option Z) (path : string) (interval : duration)
  | BFailover (target : string).

Definition build (parse_url : string → result url) (p : option Proxy) (b : builder) : option Proxy :=
  match b with
  | BPathPrefix s => WithPathPrefix p s
  | BStripPrefix s => WithStripPrefix p s
  | BRewrite f t => WithRewrite p f t
  | BHeader k v => WithHeader p k v
  | BRetry n d => WithRetry p n d
  | BTimeout d => WithTimeout p d
  | BObserver o => WithObserver p o
  | BLogger => WithLogger p
  | BMetrics => WithMetrics p
  | BRateLimit now r b => WithRateLimit now p r b
  | BCircuitBreaker t w o => WithCircuitBreaker p t w o
  | BHealthCheck now d pr path i => WithHealthCheck now d pr p path i
  | BFailover t => WithFailover parse_url p t
  end.

(** A stored prefix is empty, or a path below the root. *)
Definition prefix_ok (s : string) : Prop := s = "" ∨ has_prefix s "/" = true ∧ s ≠ "/".

Record proxy_inv (q : Proxy) : Prop := {
  inv_transport : ∃ b, rp_transport q = Transport (Some b)
    (if (retryAttempts q <=? 0)%Z then None
     else Some (Z.to_nat (retryAttempts q), retryDelay q));
  inv_prefixes : prefix_ok (stripPrefix q) ∧ prefix_ok (targetPathPrefix q)
    ∧ prefix_ok (rewriteFrom q) ∧ prefix_ok (rewriteTo q);
  inv_header_keys : ∀ k, is_Some (extra_headers q !! k) → canonical_key k = k;
  inv_health : healthCheckPath q ≠ "" →
    has_prefix (healthCheckPath q) "/" = true
    ∧ (0 < healthCheckInterval q ∧ 0 < healthCheckTimeout q)%Z;
}.

Lemma stored_prefix_ok s : prefix_ok (stored_prefix s).
Proof.
  unfold stored_prefix, prefix_ok. case_decide; [by left|]. right.
  split; [apply normalizePath_slash | done].
Qed.

Lemma header_set_keys h k v :
  (∀ j, is_Some (h !! j) → canonical_key j = j) →
  ∀ j, is_Some (header_set h k v !! j) → canonical_key j = j.
Proof.
  intros Hh j. unfold header_set. rewrite lookup_insert_is_Some.
  intros [<-|[_ Hj]]; [apply canonical_key_idemp | auto].
Qed.

Lemma NewProxy_inv parse_url target q : NewProxy parse_url target = Ok q → proxy_inv q.
Proof.
  unfold NewProxy. case_decide; [done|]. intros (u & _ & E)%res_bind_Ok. case_decide; [done|].
  injection E as <-. split; cbn.
  - by exists Pooled.
  - unfold prefix_ok. auto.
  - intros k [v Hk]. by rewrite lookup_empty in Hk.
  - done.
Qed.

Lemma refresh_inv now fin probe q :
  proxy_inv q →
  ∃ q', (refreshHealthStatus now fin probe (Some q)).2 = Some q' ∧ proxy_inv q'.
Proof.
  intros Hinv. cbn [refreshHealthStatus]. case_decide; [by exists q|].
  destruct (_ && _); [by exists q|]. eexists. split; [done|]. destruct Hinv as [? ? ? Hh].
  split; try done. intros Hp. destruct (Hh Hp) as (? & ? & ?).
  split; [assumption|]. cbn [with_health healthCheckInterval healthCheckTimeout].
  unfold second. destruct (Z.leb_spec (healthCheckTimeout q) 0); lia.
Qed.

Lemma with_paths_inv q a b c d hs :
  proxy_inv q → prefix_ok a → prefix_ok b → prefix_ok c → prefix_ok d →
  (∀ k, is_Some (hs !! k) → canonical_key k = k) → proxy_inv (with_paths q a b c d hs).
Proof. intros [? ? ? ?] ? ? ? ? ?. by split. Qed.
Lemma with_devices_inv q obs cb rl : proxy_inv q → proxy_inv (with_devices q obs cb rl).
Proof. intros [? ? ? ?]. by split. Qed.

Lemma build_inv parse_url q b :
  proxy_inv q → ∃ q', build parse_url (Some q) b = Some q' ∧ proxy_inv q'.
Proof.
  intros Hinv. pose proof Hinv as [[bt Ht] (? & ? & ? & ?) Hk Hh].
  destruct b; cbn [build];
    try (eexists; split; [reflexivity|];
         first [apply with_devices_inv | apply with_paths_inv];
         eauto using stored_prefix_ok, header_set_keys; fail).
  - (* WithRetry *)
    cbn [WithRetry on_recv]. eexists. split; [reflexivity|]. split; try done.
    rewrite Ht. cbn. exists bt. by destruct (attempts <=? 0)%Z.
  - (* WithTimeout *)
    cbn [WithTimeout on_recv]. eexists. split; [reflexivity|]. split; try done. cbn.
    destruct (0 <? d)%Z; [|by exists bt]. exists (WithTimeouts d).
    destruct (Z.ltb_spec 0 (retryAttempts q)), (Z.leb_spec (retryAttempts q) 0); done || lia.
  - (* WithHealthCheck *)
    cbn [WithHealthCheck on_recv]. apply refresh_inv. split; try done; [by exists bt|].
    intros _. split; [apply normalizePath_slash|].
    cbn [with_health healthCheckInterval healthCheckTimeout]. unfold second.
    destruct (Z.leb_spec interval 0), (Z.leb_spec (healthCheckTimeout q) 0); lia.
  - (* WithFailover *)
    cbn [WithFailover on_recv]. case_decide; [by exists q|].
    destruct (NewProxy parse_url target); [|by exists q].
    eexists. split; [reflexivity|]. split; try done. by exists bt.
Qed.

(** Configuration.  Whatever sequence of builder methods is called on a
    proxy that [NewProxy] made, the transport is one base transport wrapped at
    most once, with exactly the retries last configured; stored prefixes are
    empty or below the root; static header keys are canonical; an enabled
    health check has a positive interval and timeout. *)
Theorem proxy_configuration parse_url target q bs :
  NewProxy parse_url target = Ok q →
  ∃ q', foldl (build parse_url) (Some q) bs = Some q' ∧ proxy_inv q'.
Proof.
  intros Hn%NewProxy_inv. revert q Hn. induction bs as [|b bs IH]; intros q Hq; [by exists q|].
  cbn [foldl]. destruct (build_inv parse_url q b Hq) as (q' & -> & Hq'). auto.
Qed.

(** ** Serving: the gates *)

(** An incoming request, with everything it meets. *)
Record incoming := Incoming {
  rd : readings;
  probe : option Z;
  primary : nat → round;
  fallback : bool → round;
  body : request_body;
}.
Definition serve (srv : bool) (p : option Proxy) (x : incoming) : served :=
  ServeHTTP p (rd x) srv (probe x) (primary x) (fallback x) (body x).
Fixpoint serve_all (srv : bool) (p : option Proxy) (xs : list incoming)
    : list served * option Proxy :=
  match xs with
  | [] => ([], p)
  | x :: xs =>
      let s := serve srv p x in
      let '(ss, p) := serve_all srv (proxy s) xs in (s :: ss, p)
  end.

(** A proxy gated by its breaker only. *)
Definition breaker_only (q : Proxy) (cb : CircuitBreaker.proxyCircuitBreaker) : Prop :=
  rateLimiter q = None ∧ healthCheckPath q = "" ∧ circuitBreaker q = Some cb.

Definition round_failed (o : round) : Prop :=
  (∃ r e, o = (r, Some e)) ∨ ∃ r, o = (Some r, None) ∧ failing_status (up_status r) = true.
Definition breaker_times (x : incoming) : list time :=
  [at_breaker1 (rd x); at_breaker2 (rd x); at_breaker3 (rd x); at_answer (rd x)].

Lemma record_failed n o cb :
  round_failed o → record_outcome n o cb = CircuitBreaker.recordFailure n cb.
Proof. intros [(r & e & ->)|(r & -> & Hs)]; cbn; [by destruct r | by rewrite Hs]. Qed.

Lemma serve_open srv q cb x :
  breaker_only q cb → CircuitBreaker.openUntil cb ≠ 0%Z →
  (at_breaker1 (rd x) < CircuitBreaker.openUntil cb)%Z →
  serve srv (Some q) x
  = Served (http_error "upstream temporarily unavailable" 503) false [] false (Some q).
Proof.
  intros (Hr & Hh & Hc) H0 Hlt. unfold serve. cbn [ServeHTTP]. rewrite Hr.
  cbn [negb circuitBreaker with_devices]. rewrite Hc, CircuitBreaker.allow_open by done. cbn [negb].
  destruct q. cbn in *. by subst.
Qed.

Lemma serve_closed srv q cb x :
  breaker_only q cb →
  (CircuitBreaker.allow (at_breaker1 (rd x)) (at_breaker2 (rd x)) (at_breaker3 (rd x)) (Some cb)).1 = true →
  let o := transport_round (rp_transport q) (primary x) (body x) in
  asked (serve srv (Some q) x) = true
  ∧ proxy (serve srv (Some q) x)
    = Some (with_devices q (observer q)
        (record_outcome (at_answer (rd x)) o
          (CircuitBreaker.allow (at_breaker1 (rd x)) (at_breaker2 (rd x)) (at_breaker3 (rd x)) (Some cb)).2)
        None).
Proof.
  intros (Hr & Hh & Hc) Ha o. unfold serve. cbn [ServeHTTP]. rewrite Hr.
  cbn [negb circuitBreaker with_devices]. rewrite Hc.
  destruct (CircuitBreaker.allow _ _ _ _) as [ok cb'] eqn:E. cbn in Ha. subst ok. cbn [negb].
  cbn [healthCheckPath with_devices]. rewrite Hh. rewrite decide_False by auto.
  cbn [negb from_option id rp_transport with_devices failoverProxy observer circuitBreaker
    rateLimiter director fst snd].
  fold o. destruct (failoverProxy q).
  - by destruct (serve_failover srv o _).
  - by destruct (reverse_proxy srv o).
Qed.

(** One failing request counts one failure. *)
Lemma serve_failing srv q th w o k t0 lf x :
  breaker_only q (CircuitBreaker.CircuitBreaker th w o k t0 0 lf) →
  (0 < t0)%Z → CircuitBreaker.clock_ok t0 (breaker_times x) →
  (at_answer (rd x) - t0 ≤ w)%Z → in_int64 (k + 1) →
  round_failed (transport_round (rp_transport q) (primary x) (body x)) →
  asked (serve srv (Some q) x) = true
  ∧ ∃ q', proxy (serve srv (Some q) x) = Some q'
    ∧ breaker_only q' (CircuitBreaker.CircuitBreaker th w o (k + 1) t0
        (if (th <=? k + 1)%Z then at_answer (rd x) + o else 0)%Z (at_answer (rd x)))
    ∧ rp_transport q' = rp_transport q.
Proof.
  intros Hq Ht0 Hclock Hw Hk Hf.
  assert (∀ u, u ∈ breaker_times x → time_sub u t0 = u - t0 ∧ t0 ≤ u ∧ 0 < u)%Z as Hsub.
  { intros u Hin. pose proof (CircuitBreaker.clock_ok_bound _ _ _ Hclock Hin).
    rewrite time_sub_exact; [lia|]. unfold in_int64, int64_min, int64_max in *. lia. }
  destruct (Hsub (at_breaker1 (rd x))) as (Hs1 & ? & ?); [set_solver|].
  destruct (Hsub (at_breaker2 (rd x))) as (Hs2 & ? & ?); [set_solver|].
  destruct (Hsub (at_answer (rd x))) as (Hs4 & ? & ?); [set_solver|].
  assert (at_breaker2 (rd x) ≤ at_answer (rd x))%Z.
  { eapply (CircuitBreaker.clock_ok_last t0 [_; _; _]); [exact Hclock | set_solver]. }
  set (cb := CircuitBreaker.CircuitBreaker th w o k t0 0 lf) in *.
  assert (CircuitBreaker.allow (at_breaker1 (rd x)) (at_breaker2 (rd x)) (at_breaker3 (rd x))
    (Some cb) = (true, Some cb)) as Ha.
  { unfold CircuitBreaker.allow, cb, is_zero. cbn. rewrite Hs2.
    rewrite (proj2 (Z.eqb_neq t0 0)), (proj2 (Z.ltb_ge _ _)) by lia. done. }
  pose proof (serve_closed srv q cb x Hq) as Hc. rewrite Ha in Hc.
  destruct (Hc eq_refl) as [-> ->]. split; [done|]. eexists. split; [done|].
  split; [|done]. destruct Hq as (Hr & Hh & _). split; [done|]. split; [done|].
  cbn [circuitBreaker with_devices snd]. rewrite record_failed by done.
  unfold cb, CircuitBreaker.recordFailure, is_zero. cbn. rewrite Hs4.
  rewrite (proj2 (Z.eqb_neq t0 0)), (proj2 (Z.ltb_ge _ _)) by lia. cbn.
  by rewrite i64_add_id.
Qed.

Lemma serve_all_app srv p xs ys :
  serve_all srv p (xs ++ ys)
  = let '(ss, p') := serve_all srv p xs in
    let '(ss', p'') := serve_all srv p' ys in (ss ++ ss', p'').
Proof.
  revert p; induction xs as [|x xs IH]; intros p; cbn [app serve_all].
  - by destruct (serve_all srv p ys).
  - rewrite IH. destruct (serve_all srv _ xs) as [ss p']. by destruct (serve_all srv p' ys).
Qed.

Lemma serve_all_open srv q cb ys :
  breaker_only q cb → CircuitBreaker.openUntil cb ≠ 0%Z →
  Forall (λ x, at_breaker1 (rd x) < CircuitBreaker.openUntil cb)%Z ys →
  serve_all srv (Some q) ys
  = ((λ _, Served (http_error "upstream temporarily unavailable" 503) false [] false (Some q)) <$> ys,
     Some q).
Proof.
  intros Hq H0 Hy. induction Hy as [|y ys Hlt _ IH]; [done|]. cbn [serve_all].
  rewrite (serve_open srv q cb y) by done. cbn [proxy]. by rewrite IH.
Qed.

(** Failing requests up to the threshold: all are asked, the last one trips. *)
Lemma serve_all_failing srv th w o t0 xs : ∀ q k lf lo,
  breaker_only q (CircuitBreaker.CircuitBreaker th w o k t0 0 lf) →
  (0 < t0 ≤ lo)%Z → (0 ≤ k)%Z → in_int64 th → xs ≠ [] → (k + Z.of_nat (length xs) = th)%Z →
  CircuitBreaker.clock_ok lo (xs ≫= breaker_times) →
  Forall (λ x, at_answer (rd x) - t0 ≤ w
    ∧ round_failed (transport_round (rp_transport q) (primary x) (body x)))%Z xs →
  ∃ q' lx, (serve_all srv (Some q) xs).2 = Some q' ∧ lx ∈ xs
    ∧ Forall (λ s, asked s = true) (serve_all srv (Some q) xs).1
    ∧ breaker_only q' (CircuitBreaker.CircuitBreaker th w o th t0 (at_answer (rd lx) + o) (at_answer (rd lx)))
    ∧ last xs = Some lx.
Proof.
  induction xs as [|x xs IH]; intros q k lf lo Hq Ht0 Hk Hth Hne Hlen Hc Hx; [done|].
  rewrite bind_cons in Hc. apply CircuitBreaker.clock_ok_app in Hc as [Hc1 Hc2].
  apply Forall_cons in Hx as [[Hw Hf] Hx]. cbn [length] in Hlen.
  pose proof (CircuitBreaker.clock_ok_bound _ _ (at_answer (rd x)) Hc1 ltac:(set_solver)).
  destruct (serve_failing srv q th w o k t0 lf x) as (Ha & q1 & Ep & Hq1 & Et); try done; [lia| | |].
  { eapply CircuitBreaker.clock_ok_weaken; [|exact Hc1]. lia. }
  { unfold in_int64, int64_min, int64_max in *. lia. }
  cbn [serve_all]. rewrite Ep. destruct xs as [|x2 xs].
  - cbn [length] in Hlen. replace (k + 1)%Z with th in Hq1 by lia.
    rewrite Z.leb_refl in Hq1. exists q1, x. cbn [serve_all fst snd].
    split; [done|]. split; [left|]. split; [|done]. by repeat constructor.
  - rewrite (proj2 (Z.leb_gt th (k + 1))) in Hq1 by (cbn [length] in Hlen; lia).
    destruct (IH q1 (k + 1)%Z (at_answer (rd x)) (at_answer (rd x)))
      as (q' & lx & E & Hin & Hs & Hb & Hlast); try done; try lia.
    { rewrite Et. done. }
    destruct (serve_all srv (Some q1) (x2 :: xs)) as [ss p'] eqn:Es. cbn [fst snd] in *.
    exists q', lx. split; [done|]. split; [by right|]. split; [by constructor|]. done.
Qed.


(** The health verdict is cached.  A probe's verdict is the answer, for
    every request within the interval after it, without another probe; and no
    request is forwarded to an upstream found unhealthy. *)
Theorem health_verdict_cached p now fin probe ok p' now' fin' probe' :
  refreshHealthStatus now fin probe p = (ok, Some p') →
  fin ≠ 0%Z → healthCheckPath p' ≠ "" → lastHealthCheck p' = fin →
  (time_sub now' fin < healthCheckInterval p')%Z → (0 < healthCheckInterval p')%Z →
  refreshHealthStatus now' fin' probe' (Some p') = (ok, Some p')
  ∧ ∀ rd srv primary fallback body,
      ok = false → rateLimiter p' = None → circuitBreaker p' = None →
      at_health rd = now' →
      asked (ServeHTTP (Some p') rd srv probe' primary fallback body) = false.
Proof.
  intros Hr Hfin Hpath Hlast Hlt Hpos.
  assert (healthy p' = ok) as Hok.
  { revert Hr. unfold refreshHealthStatus. destruct p as [q|]; [|done].
    destruct (decide (healthCheckPath q = "")); [by intros; simplify_eq|].
    destruct (_ && _); by intros [= <- <-]. }
  assert (∀ fin', refreshHealthStatus now' fin' probe' (Some p') = (ok, Some p')) as Hc.
  { intros f. cbn [refreshHealthStatus]. rewrite decide_False by done. unfold is_zero.
    rewrite Hlast, (proj2 (Z.ltb_lt _ _) Hpos), (proj2 (Z.eqb_neq _ _) Hfin),
      (proj2 (Z.ltb_lt _ _) Hlt). cbn. by rewrite Hok. }
  split; [done|]. intros rd srv primary fallback body -> Hrl Hcb <-.
  cbn [ServeHTTP]. rewrite Hrl. cbn [negb circuitBreaker with_devices]. rewrite Hcb.
  cbn [negb healthCheckPath with_devices].
  rewrite (decide_True (P:=healthCheckPath p' ≠ "")) by done.
  replace (with_devices (with_devices p' _ _ _) _ _ _) with p' by (destruct p'; cbn in *; by subst).
  rewrite Hc. cbn [negb from_option id]. destruct (failoverProxy p'); [|done].
  by destruct (reverse_proxy srv (fallback true)).
Qed.

(** ** The request the upstream gets *)

Lemma set_all_lookup h key vs k :
  canonical_key key ≠ k → set_all h key vs !! k = h !! k.
Proof.
  intros Hne. unfold set_all. revert h. induction vs as [|v vs IH]; intros h; [done|].
  cbn [foldl]. rewrite IH. unfold header_set. by rewrite lookup_insert_ne.
Qed.

Lemma apply_extra_lookup extra h k :
  (∀ j, is_Some (extra !! j) → canonical_key j ≠ k) → apply_extra extra h !! k = h !! k.
Proof.
  unfold apply_extra. revert extra.
  apply (map_fold_weak_ind (λ r extra, (∀ j, is_Some (extra !! j) → canonical_key j ≠ k) → r !! k = h !! k)).
  { done. }
  intros j vs extra r Hj IH Hd. rewrite set_all_lookup.
  - apply IH. intros i Hi. apply Hd. rewrite lookup_insert_is_Some.
    destruct (decide (j = i)); [by left | by right].
  - apply Hd. rewrite lookup_insert_eq. eauto.
Qed.

Lemma set_ids_get id h k : k ∈ id_headers → header_get (set_ids id h) k = id.
Proof.
  unfold id_headers. rewrite !elem_of_cons, elem_of_nil. unfold set_ids, id_headers. cbn [foldl].
  intros [->|[->|[->|[]]]].
  - rewrite 2!header_get_set_ne by done. apply header_get_set.
  - rewrite header_get_set_ne by done. apply header_get_set.
  - apply header_get_set.
Qed.

Definition no_override (q : Proxy) (key : string) : Prop :=
  ∀ j, is_Some (extra_headers q !! j) → canonical_key j ≠ canonical_key key.

Lemma header_get_lookup h h' k :
  h !! canonical_key k = h' !! canonical_key k → header_get h k = header_get h' k.
Proof. unfold header_get. by intros ->. Qed.

Lemma forwarded_for_get h remote k :
  canonical_key "X-Forwarded-For" ≠ canonical_key k →
  header_get (forwarded_for h remote) k = header_get h k.
Proof. intros Hk. unfold forwarded_for. case_decide; by apply header_get_set_ne. Qed.

Lemma direct_id q now r k :
  k ∈ id_headers → no_override q k → RequestIDFromRequest (Some r) ≠ "" →
  header_get (headers (direct q now r)) k = RequestIDFromRequest (Some r).
Proof.
  intros Hk Hno Hid. unfold direct. cbn [headers].
  rewrite (header_get_lookup _ _ _ (apply_extra_lookup _ _ _ Hno)).
  set (id := RequestIDFromRequest (Some r)) in *. rewrite (decide_True (P:=id ≠ "")) by done.
  assert (canonical_key "X-Forwarded-For" ≠ canonical_key k
    ∧ canonical_key "X-Forwarded-Proto" ≠ canonical_key k) as [H1 H2].
  { unfold id_headers in Hk. rewrite !elem_of_cons, elem_of_nil in Hk.
    destruct Hk as [->|[->|[->|[]]]]; split; vm_compute; discriminate. }
  destruct (decide (remote_addr r ≠ "")); [rewrite forwarded_for_get by done|];
    destruct (decide _); rewrite ?header_get_set_ne by done; by apply set_ids_get.
Qed.

(** End-to-end correlation.  Behind the request-ID middleware a proxied
    request carries one ID: the one sent to the client in the three ID headers
    is the one the upstream gets in them, provided the proxy's static headers do
    not set them. *)
Theorem correlation_end_to_end random ts r q now k next :
  k ∈ id_headers → no_override q k →
  let r' := forwarded_request random ts r in
  let up := direct q now r' in
  ∃ id, id ≠ ""
    ∧ header_get (headers up) k = id
    ∧ WithRequestID random ts next r
      = [OpSet "X-Request-ID" id; OpSet "X-Correlation-ID" id; OpSet "X-Trace-ID" id] ++ next r'.
Proof.
  intros Hk Hno r' up. exists (ensureRequestID random ts (Some r)).1.
  split; [apply ensureRequestID_nonempty|]. split.
  - unfold up. rewrite direct_id; [apply forwarded_request_id | done..|].
    unfold r'. rewrite forwarded_request_id. apply ensureRequestID_nonempty.
  - unfold WithRequestID, r', forwarded_request.
    by destruct (ensureRequestID random ts (Some r)) as [id r1].
Qed.

(** The client's address is put on the forwarding chain twice: once by
    the director, and once more by the standard reverse proxy after it. *)
Theorem forwarded_for_twice q now r ip :
  split_host (remote_addr r) = Some ip → no_override q "X-Forwarded-For" →
  let prior := trim_space (header_get (headers r) "X-Forwarded-For") in
  header_get (headers (reverse_proxy_forwarded (direct q now r))) "X-Forwarded-For"
  = (if decide (prior ≠ "") then prior +:+ ", " +:+ ip else ip) +:+ ", " +:+ ip.
Proof.
  intros Hip Hno prior.
  assert (remote_addr r ≠ "") as Hr by (intros E; by rewrite E in Hip).
  unfold reverse_proxy_forwarded.
  change (remote_addr (direct q now r)) with (remote_addr r). rewrite Hip.
  assert (headers (direct q now r) !! "X-Forwarded-For"
    = Some [if decide (prior ≠ "") then prior +:+ ", " +:+ ip else ip]) as ->.
  { unfold direct. cbn [headers].
    change "X-Forwarded-For" with (canonical_key "X-Forwarded-For") at 1.
    rewrite (apply_extra_lookup _ _ _ Hno). rewrite (decide_True (P:=remote_addr r ≠ "")) by done.
    set (h1 := if decide (RequestIDFromRequest _ ≠ "") then _ else _).
    assert (header_get (if decide (scheme (targetURL q) = "http" ∨ scheme (targetURL q) = "https")
      then header_set h1 "X-Forwarded-Proto" (scheme (targetURL q)) else h1) "X-Forwarded-For"
      = header_get (headers r) "X-Forwarded-For") as E.
    { assert (header_get h1 "X-Forwarded-For" = header_get (headers r) "X-Forwarded-For") as E1.
      { unfold h1. case_decide; [|done]. unfold set_ids, id_headers. cbn [foldl].
        by rewrite !header_get_set_ne. }
      case_decide; [by rewrite header_get_set_ne|done]. }
    unfold forwarded_for. rewrite E, Hip. cbn [from_option id]. fold prior.
    destruct (decide (prior ≠ "")); unfold header_set; by rewrite lookup_insert_eq. }
  cbn [join]. apply header_get_set.
Qed.

(** A mounted proxy asks its upstream for the tail of the path below the
    mount point: any path the mount's routes match is the mount prefix followed
    by a tail that is empty or begins with a slash, and the upstream path is the
    target's base followed by that tail (the root for an empty tail). *)
Theorem mounted_upstream_path q now r prefix :
  normal_path (normalizePath prefix) = true → normalizePath prefix ≠ "/" →
  stripPrefix q = stored_prefix prefix → targetPathPrefix q = "" → rewriteFrom q = "" →
  has_prefix (url_path r) "/" = true → normal_path (normalizePath (url_path r)) = true →
  normalizePath (url_path r) ≠ normalizePath prefix +:+ "/*" →
  normalizePath (url_path r) = normalizePath prefix
  ∨ routeMatches (withWildcardRoute prefix) (normalizePath (url_path r)) = true →
  ∃ tail, url_path r = normalizePath prefix +:+ tail
    ∧ (tail = "" ∨ has_prefix tail "/" = true)
    ∧ url_path (direct q now r)
      = trim_suffix (url_base (targetURL q)) "/" +:+ (if decide (tail = "") then "/" else tail).
Proof.
  intros Hn Hne Hs Ht Hf Hp Hnp Hstar Hm.
  assert (under (normalizePath prefix) (normalizePath (url_path r)) = true) as Hu.
  { destruct Hm as [->|Hm]; [unfold under; by rewrite bool_decide_eq_true_2|].
    assert (withWildcardRoute prefix = withWildcardRoute (normalizePath prefix)) as E.
    { unfold withWildcardRoute. by rewrite (normal_path_fixed _ Hn). }
    rewrite E, routeMatches_wildcard in Hm by done.
    apply orb_true_iff in Hm as [?|Hm]; [done|]. by apply bool_decide_eq_true in Hm. }
  destruct (under_rest _ _ Hp Hu Hne) as (tail & E & Htail).
  exists tail. split; [done|]. split; [done|].
  unfold direct. cbn [url_path]. rewrite Hs, Ht, Hf, E.
  assert (stored_prefix prefix = normalizePath prefix) as ->.
  { unfold stored_prefix. by rewrite decide_False. }
  replace (rewriteTo q) with (rewriteTo q) by done.
  rewrite <- (joinProxyPath_strip _ _ _ (normalizePath_not_nil prefix)).
  unfold joinProxyPath. rewrite !(decide_False (P:="" ≠ "")) by auto. done.
Qed.

(** ** A concrete proxy *)

Definition demo_parse (s : string) : result url := Ok (Url "http" "backend:8081" "/v1").
Definition demo_proxy : Proxy :=
  match NewProxy demo_parse "http://backend:8081/v1" with
  | Ok q => q
  | Err _ => mkProxy (Transport None None) (Url "" "" "") false "" "" "" "" ∅ 0 [] None None
               0 0 "" 0 0 None false 0
  end.
Definition demo_request : request :=
  Request "GET" "" "" "/api/users" "front" ∅ "192.0.2.15:4711" ∅ None.

Lemma proxy_configuration_witness :
  ∃ q', foldl (build demo_parse) (Some demo_proxy)
          [BRetry 3 second; BTimeout minute; BStripPrefix "/"; BRetry 0 0] = Some q'
        ∧ proxy_inv q'.
Proof.
  exact (proxy_configuration demo_parse "http://backend:8081/v1" demo_proxy
    [BRetry 3 second; BTimeout minute; BStripPrefix "/"; BRetry 0 0] eq_refl).
Defined.

Definition demo_incoming (n : Z) : incoming :=
  Incoming (Readings n n n n n n n n n) None (λ _, (None, Some "refused")) (λ _, (None, Some "x")) NilBody.


Lemma health_verdict_cached_witness :
  refreshHealthStatus 500 501 (Some 200%Z)
    (Some (with_health demo_proxy "/health" second second false 100))
  = (false, Some (with_health demo_proxy "/health" second second false 100)).
Proof.
  apply (health_verdict_cached (Some (with_health demo_proxy "/health" second second true 0)) 90 100
    (Some 503%Z) false); try reflexivity; discriminate.
Defined.

Lemma correlation_end_to_end_witness :
  ∃ id, header_get (headers (direct demo_proxy 7 (forwarded_request (Some "abcdefgh") "" demo_request)))
          "X-Trace-ID" = id ∧ id ≠ "".
Proof.
  destruct (correlation_end_to_end (Some "abcdefgh") "" demo_request demo_proxy 7 "X-Trace-ID"
    (λ _, [])) as (id & Hne & Hid & _).
  - right. right. left.
  - intros j [v Hj]. exfalso. change ((∅ : gmap string (list string)) !! j = Some v) in Hj.
    rewrite lookup_empty in Hj. discriminate Hj.
  - exists id. split; [exact Hid | exact Hne].
Defined.

Lemma forwarded_for_twice_witness :
  header_get (headers (reverse_proxy_forwarded (direct demo_proxy 7 demo_request))) "X-Forwarded-For"
  = "192.0.2.15, 192.0.2.15".
Proof.
  apply (forwarded_for_twice demo_proxy 7 demo_request "192.0.2.15").
  - reflexivity.
  - intros j [v Hj]. exfalso. change ((∅ : gmap string (list string)) !! j = Some v) in Hj.
    rewrite lookup_empty in Hj. discriminate Hj.
Defined.

Lemma mounted_upstream_path_witness :
  ∃ tail, url_path demo_request = normalizePath "/api" +:+ tail
    ∧ url_path (direct (default demo_proxy (WithStripPrefix (Some demo_proxy) "/api")) 7 demo_request)
      = "/v1" +:+ (if decide (tail = "") then "/" else tail).
Proof.
  destruct (mounted_upstream_path (default demo_proxy (WithStripPrefix (Some demo_proxy) "/api")) 7
    demo_request "/api") as (tail & E & _ & Eu); try reflexivity; try discriminate.
  - right. reflexivity.
  - exists tail. split; [exact E | exact Eu].
Defined.
