(* ===== verification/Metrics.v ===== *)
(** * Request metrics, latency percentiles and the alert threshold

    Models src/pkg/runtime/metrics.go and the alert middleware of
    src/pkg/runtime/health.go.  The atomics and locks make each method of a
    histogram and each section of [Record] atomic; a run is a sequence of calls.
    Counters are [int64]s that wrap. *)

From S2P Require Import Prelude GoStrings Paths Http.

(** ** Histograms *)

Record DurationPercentiles := Percentiles { P50 : duration; P95 : duration; P99 : duration }.

Record RouteHistogram := Histogram {
  samples : list duration;
  maxSize : nat;
  percentilesDirty : bool;
  cached : DurationPercentiles;
}.
Definition no_percentiles : DurationPercentiles := Percentiles 0 0 0.

Definition newRouteHistogram (capacity : nat) : RouteHistogram :=
  Histogram [] capacity false no_percentiles.

Definition hist_record (h : RouteHistogram) (d : duration) : RouteHistogram :=
  let d := if (d <? 0)%Z then 0%Z else d in
  let s := samples h ++ [d] in
  let s := if maxSize h <? length s then
             let cut := maxSize h / 10 in
             let cut := if cut <? 1 then 1 else cut in
             drop cut s
           else s in
  Histogram s (maxSize h) true (cached h).

(** [n*p/100] of the sorted samples. *)
Definition rank (s : list duration) (p : nat) : duration :=
  default 0%Z (merge_sort Z.le s !! (length s * p / 100)).
Definition recompute (s : list duration) : DurationPercentiles :=
  match s with
  | [] => no_percentiles
  | _ => Percentiles (rank s 50) (rank s 95) (rank s 99)
  end.

Definition hist_snapshot (h : option RouteHistogram)
    : DurationPercentiles * option RouteHistogram :=
  match h with
  | None => (no_percentiles, None)
  | Some h =>
      if percentilesDirty h
      then let p := recompute (samples h) in
           (p, Some (Histogram (samples h) (maxSize h) false p))
      else (cached h, Some h)
  end.

(** ** The collector *)

Record Metrics := mkMetrics {
  totalRequests : Z;
  totalErrors : Z;
  totalLatency : Z;
  byMethod : gmap string Z;
  byRoute : gmap string Z;
  byStatus : gmap Z Z;
  byRouteLatency : gmap string Z;
  byRouteHistogram : gmap string RouteHistogram;
  latencyHistogram : option RouteHistogram;
  errorWindow : option (list bool);
  errorWinHead : nat;
  errorWinCount : Z;
  errorWinErrs : Z;
}.

Definition errorWindowCap : nat := Z.to_nat 1000.

Definition NewMetrics : Metrics :=
  mkMetrics 0 0 0 ∅ ∅ ∅ ∅ ∅ (Some (newRouteHistogram (Z.to_nat 10000))) None 0 0 0.

(** [m[key] += by] on a map of integers. *)
Definition bump {K} `{Countable K} (key : K) (by_ : Z) (m : gmap K Z) : gmap K Z :=
  <[key := i64_add (default 0%Z (m !! key)) by_]> m.

Definition is_error (status : Z) : bool := (400 <=? status)%Z.

(** The ring of the last outcomes: buffer, head, count, errors. *)
Definition ring_push (ring : option (list bool) * nat * Z * Z) (e : bool)
    : option (list bool) * nat * Z * Z :=
  let '(window, head, count, errs) := ring in
  let w := default (replicate errorWindowCap false) window in
  let next := S head `mod` errorWindowCap in
  let add := if e then 1%Z else 0%Z in
  if (count <? Z.of_nat errorWindowCap)%Z then
    (Some (<[head := e]> w), next, i64_add count 1, i64_add errs add)
  else
    let evicted := default false (w !! head) in
    let errs := if evicted then i64_sub errs 1 else errs in
    (Some (<[head := e]> w), next, count, i64_add errs add).

Definition record_method (m : string) : string :=
  let m := to_upper (trim_space m) in if decide (m = "") then "GET" else m.
Definition record_duration (elapsed : option duration) : duration :=
  match elapsed with
  | Some d => if (d <? 0)%Z then 0%Z else d
  | None => 0%Z
  end.

Definition Record_ (m : option Metrics) (method route : string) (status : Z)
    (elapsed : option duration) : option Metrics :=
  on_recv m None (λ m,
    let method := record_method method in
    let route := normalizePath route in
    let d := record_duration elapsed in
    let '(window, head, count, errs) :=
      ring_push (errorWindow m, errorWinHead m, errorWinCount m, errorWinErrs m)
        (is_error status) in
    let hist := default (newRouteHistogram (Z.to_nat 1000)) (byRouteHistogram m !! route) in
    Some (mkMetrics
      (i64_add (totalRequests m) 1)
      (if is_error status then i64_add (totalErrors m) 1 else totalErrors m)
      (i64_add (totalLatency m) d)
      (bump method 1 (byMethod m)) (bump route 1 (byRoute m)) (bump status 1 (byStatus m))
      (bump route d (byRouteLatency m))
      (<[route := hist_record hist d]> (byRouteHistogram m))
      ((λ h, hist_record h d) <$> latencyHistogram m)
      window head count errs)).

(** [ErrorWindow(size)]: the requests considered and the rate. *)
Definition ErrorWindow (m : option Metrics) (size : Z) : Z * float64 :=
  match m with
  | None => (0%Z, f64_zero)
  | Some m =>
      if (size <=? 0)%Z then (0%Z, f64_zero) else
      let reqs := if (size <? errorWinCount m)%Z then size else errorWinCount m in
      if (reqs =? 0)%Z then (0%Z, f64_zero)
      else (reqs, f64_div (f64_of_int (errorWinErrs m)) (f64_of_int reqs))
  end.

Record MetricsSnapshot := Snapshot_ {
  TotalRequests : Z; TotalErrors : Z; TotalLatency : Z; AvgLatency : Z;
  ByMethod : gmap string Z; ByRoute : gmap string Z; ByStatus : gmap Z Z;
  ByRouteLatency : gmap string Z;
  ByRoutePercentiles : gmap string DurationPercentiles;
}.

(** [Snapshot] also refreshes the cached percentiles of every histogram. *)
Definition Snapshot (m : option Metrics) : MetricsSnapshot * option Metrics :=
  match m with
  | None => (Snapshot_ 0 0 0 0 ∅ ∅ ∅ ∅ ∅, None)
  | Some m =>
      let avg := if (0 <? totalRequests m)%Z
                 then Z.quot (totalLatency m) (totalRequests m) else 0%Z in
      (Snapshot_ (totalRequests m) (totalErrors m) (totalLatency m) avg
         (byMethod m) (byRoute m) (byStatus m) (byRouteLatency m)
         ((λ h, (hist_snapshot (Some h)).1) <$> byRouteHistogram m),
       Some (mkMetrics (totalRequests m) (totalErrors m) (totalLatency m) (byMethod m)
         (byRoute m) (byStatus m) (byRouteLatency m)
         ((λ h, default h (hist_snapshot (Some h)).2) <$> byRouteHistogram m)
         (latencyHistogram m) (errorWindow m) (errorWinHead m) (errorWinCount m)
         (errorWinErrs m)))
  end.

Definition GlobalPercentiles (m : option Metrics) : DurationPercentiles :=
  on_recv m no_percentiles (λ m, (hist_snapshot (latencyHistogram m)).1).
Definition RoutePercentiles (m : option Metrics) (route : string) : DurationPercentiles :=
  on_recv m no_percentiles (λ m,
    match byRouteHistogram m !! normalizePath route with
    | Some h => (hist_snapshot (Some h)).1
    | None => no_percentiles
    end).

(** ** The status recorder *)

Record statusRecorder := StatusRecorder { sr_status : Z; wroteCode : bool }.
Definition newStatusRecorder : statusRecorder := StatusRecorder 200 false.
Definition recorder_step (sr : statusRecorder) (o : writer_op) : statusRecorder :=
  match o with
  | OpWriteHeader code =>
      if wroteCode sr then sr else StatusRecorder code true
  | OpWrite _ => if wroteCode sr then sr else StatusRecorder 200 true
  | _ => sr
  end.
Definition StatusCode (sr : option statusRecorder) : Z :=
  on_recv sr 200%Z (λ sr, if (sr_status sr =? 0)%Z then 200%Z else sr_status sr).
Definition recorded_status (ops : list writer_op) : Z :=
  StatusCode (Some (foldl recorder_step newStatusRecorder ops)).

(** ** The alert *)

Record alertThreshold := AlertThreshold { threshold : float64; triggered : bool }.

(** After a request: whether the callback is called. *)
Definition alert_step (a : alertThreshold) (rate : float64) : bool * alertThreshold :=
  if f64_geb rate (threshold a) && negb (triggered a)
  then (true, AlertThreshold (threshold a) true)
  else if f64_ltb rate (threshold a)
       then (false, AlertThreshold (threshold a) false)
       else (false, a).
Fixpoint alert_run (a : alertThreshold) (rates : list float64) : list bool :=
  match rates with
  | [] => []
  | r :: rates => let '(fired, a) := alert_step a r in fired :: alert_run a rates
  end.

(** ** Histograms: the window and its percentiles *)

Definition clamp (d : duration) : duration := if (d <? 0)%Z then 0%Z else d.

Inductive hist_call := CallRecord (d : duration) | CallSnapshot.
Definition hist_step (h : RouteHistogram) (c : hist_call) : RouteHistogram :=
  match c with
  | CallRecord d => hist_record h d
  | CallSnapshot => default h (hist_snapshot (Some h)).2
  end.
Definition recorded (cs : list hist_call) : list duration :=
  omap (λ c, match c with CallRecord d => Some (clamp d) | CallSnapshot => None end) cs.

Definition evicted_at_once (cap : nat) : nat := if cap / 10 <? 1 then 1 else cap / 10.

Record hist_inv (cap : nat) (all : list duration) (h : RouteHistogram) : Prop := {
  inv_cap : maxSize h = cap;
  inv_suffix : samples h `suffix_of` all;
  inv_bound : length (samples h) ≤ cap;
  inv_keep : samples h = all ∨ cap + 1 ≤ length (samples h) + evicted_at_once cap;
  inv_clean : percentilesDirty h = false → cached h = recompute (samples h);
}.

Lemma evicted_at_once_spec cap : 1 ≤ cap → 1 ≤ evicted_at_once cap ≤ cap.
Proof.
  intros Hc. unfold evicted_at_once. destruct (Nat.ltb_spec (cap / 10) 1); [lia|].
  pose proof (Nat.div_le_upper_bound cap 10 cap). lia.
Qed.

Lemma hist_record_inv cap all h d :
  1 ≤ cap → hist_inv cap all h → hist_inv cap (all ++ [clamp d]) (hist_record h d).
Proof.
  intros Hcap [Hc Hs Hb Hk _]. pose proof (evicted_at_once_spec cap Hcap) as He.
  unfold hist_record. fold (clamp d). rewrite Hc. fold (evicted_at_once cap).
  assert (samples h ++ [clamp d] `suffix_of` all ++ [clamp d]) as Hs'
    by (destruct Hs as [p ->]; exists p; by rewrite app_assoc).
  rewrite length_app. cbn [length].
  destruct (Nat.ltb_spec cap (length (samples h) + 1)); (split; cbn; [done| | | |done]).
  - destruct Hs' as [p E]. exists (p ++ take (evicted_at_once cap) (samples h ++ [clamp d])).
    by rewrite <- app_assoc, take_drop.
  - rewrite length_drop, length_app. cbn. lia.
  - right. rewrite length_drop, length_app. cbn. lia.
  - done.
  - rewrite length_app. cbn. lia.
  - rewrite length_app. cbn. destruct Hk as [->|]; [by left | right; lia].
Qed.

Lemma hist_snapshot_inv cap all h :
  hist_inv cap all h →
  hist_inv cap all (default h (hist_snapshot (Some h)).2)
  ∧ (hist_snapshot (Some h)).1 = recompute (samples h).
Proof.
  intros Hi. pose proof Hi as [Hc Hs Hb Hk Hd]. unfold hist_snapshot.
  destruct (percentilesDirty h); cbn; [|auto]. split; [|done]. by split.
Qed.

Lemma hist_run_inv cap cs :
  1 ≤ cap → hist_inv cap (recorded cs) (foldl hist_step (newRouteHistogram cap) cs).
Proof.
  intros Hcap. induction cs as [|c cs IH] using rev_ind.
  - split; cbn; [done|done|lia|by left|done].
  - rewrite foldl_app. unfold recorded. rewrite omap_app. cbn [foldl].
    destruct c as [d|]; cbn [omap list_omap hist_step].
    + by apply hist_record_inv.
    + rewrite app_nil_r. by apply hist_snapshot_inv.
Qed.

(** The sample window.  Whatever is recorded and snapshotted, a histogram
    holds at most its capacity of samples, they are the most recent ones in
    order, negative durations counting as zero, and once full at least nine
    tenths of the capacity are kept. *)
Theorem histogram_window cap cs :
  1 ≤ cap →
  let h := foldl hist_step (newRouteHistogram cap) cs in
  samples h `suffix_of` recorded cs
  ∧ length (samples h) ≤ cap
  ∧ (length (recorded cs) ≤ cap - evicted_at_once cap → samples h = recorded cs)
  ∧ (cap ≤ length (recorded cs) → cap - cap / 10 ≤ length (samples h)).
Proof.
  intros Hcap h. destruct (hist_run_inv cap cs Hcap) as [_ Hs Hb Hk _]. fold h in Hs, Hb, Hk.
  split; [done|]. split; [done|]. pose proof (evicted_at_once_spec cap Hcap).
  split; intros Hl.
  - destruct Hk as [?|Hk]; [done|]. apply suffix_length in Hs. lia.
  - destruct Hk as [->|Hk]; [lia|]. unfold evicted_at_once in Hk.
    destruct (Nat.ltb_spec (cap / 10) 1); lia.
Qed.

(** How many samples are at most, and below, a value. *)
Definition at_most (x : duration) (s : list duration) : nat := length (filter (λ y, y ≤ x)%Z s).
Definition below (x : duration) (s : list duration) : nat := length (filter (λ y, y < x)%Z s).

Lemma filter_all {A} (P : A → Prop) `{∀ x, Decision (P x)} l : Forall P l → filter P l = l.
Proof. induction 1; [done|]. rewrite filter_cons_True by done. by f_equal. Qed.

Lemma sorted_lookup_le (l : list Z) i j x y :
  StronglySorted Z.le l → l !! i = Some x → l !! j = Some y → i ≤ j → (x ≤ y)%Z.
Proof.
  intros Hs. revert i j. induction Hs as [|a l Hs IH Ha]; intros i j Hi Hj Hij; [done|].
  rewrite Forall_forall in Ha. destruct i as [|i], j as [|j]; cbn in *; simplify_eq; [lia| |lia|].
  - apply Ha. by eapply list_elem_of_lookup_2.
  - apply (IH i j); [done..|lia].
Qed.

Lemma sorted_counts (l : list Z) i x :
  StronglySorted Z.le l → l !! i = Some x → i < at_most x l ∧ below x l ≤ i.
Proof.
  intros Hs Hi. split; unfold at_most, below.
  - rewrite <- (take_drop (S i) l), filter_app, length_app.
    rewrite (filter_all _ (take (S i) l)).
    + rewrite length_take. apply lookup_lt_Some in Hi. lia.
    + apply Forall_forall. intros y [j [Hj Hlt]]%elem_of_take.
      by apply (sorted_lookup_le l j i); [..|lia].
  - rewrite <- (take_drop i l), filter_app, length_app.
    rewrite (filter_none _ (drop i l)).
    + pose proof (length_filter (λ y, y < x)%Z (take i l)). rewrite length_take in *. cbn. lia.
    + intros y [j Hj]%list_elem_of_lookup. rewrite lookup_drop in Hj.
      pose proof (sorted_lookup_le l i (i + j) x y Hs Hi Hj). lia.
Qed.

Lemma rank_lookup s p : s ≠ [] → p < 100 → merge_sort Z.le s !! (length s * p / 100) = Some (rank s p).
Proof.
  intros Hne Hp. unfold rank.
  assert (length s * p / 100 < length (merge_sort Z.le s)) as Hlt.
  { rewrite (Permutation_length (merge_sort_Permutation Z.le s)).
    destruct s; [done|]. apply Nat.Div0.div_lt_upper_bound. cbn [length]. nia. }
  by destruct (lookup_lt_is_Some_2 _ _ Hlt) as [x ->].
Qed.

Lemma rank_spec s p :
  s ≠ [] → p < 100 →
  rank s p ∈ s ∧ length s * p / 100 < at_most (rank s p) s ∧ below (rank s p) s ≤ length s * p / 100.
Proof.
  intros Hne Hp. pose proof (rank_lookup s p Hne Hp) as Hl.
  pose proof (merge_sort_Permutation Z.le s) as Hperm.
  destruct (sorted_counts _ _ _ (StronglySorted_merge_sort Z.le s) Hl) as [H1 H2].
  unfold at_most, below in *. rewrite Hperm in H1, H2.
  split; [|done]. apply (elem_of_Permutation_proper _ _ _ Hperm).
  apply list_elem_of_lookup_2 with (1:=Hl).
Qed.

Lemma rank_mono s p q : s ≠ [] → p ≤ q → q < 100 → (rank s p ≤ rank s q)%Z.
Proof.
  intros Hne Hpq Hq.
  eapply (sorted_lookup_le (merge_sort Z.le s)); [apply (StronglySorted_merge_sort Z.le)|..].
  - apply rank_lookup; [done | lia].
  - by apply rank_lookup.
  - apply Nat.Div0.div_le_mono. nia.
Qed.

(** Percentiles.  The percentiles of a snapshot, computed lazily and
    cached, are always those of the current samples: each is one of them, more
    than n*p/100 of the samples are at most it and at most n*p/100 are below
    it, and they are in order. *)
Theorem histogram_percentiles cap cs p :
  1 ≤ cap →
  let h := foldl hist_step (newRouteHistogram cap) cs in
  let s := samples h in
  (hist_snapshot (Some h)).1 = recompute s
  ∧ (s ≠ [] → p ∈ [50; 95; 99] →
      rank s p ∈ s ∧ length s * p / 100 < at_most (rank s p) s
      ∧ below (rank s p) s ≤ length s * p / 100)
  ∧ (P50 (recompute s) ≤ P95 (recompute s) ≤ P99 (recompute s))%Z.
Proof.
  intros Hcap h s. pose proof (hist_run_inv cap cs Hcap) as Hi. fold h in Hi.
  split; [by eapply hist_snapshot_inv|]. split.
  - intros Hne Hp. apply rank_spec; [done|]. rewrite !elem_of_cons, elem_of_nil in Hp. lia.
  - destruct s as [|x s'] eqn:E; [done|]. cbn [recompute P50 P95 P99].
    split; apply rank_mono; done || lia.
Qed.

(** ** The collector: accounting *)

Record metric_call := MetricCall {
  c_method : string; c_route : string; c_status : Z; c_elapsed : option duration;
}.
Definition record_call (m : option Metrics) (c : metric_call) : option Metrics :=
  Record_ m (c_method c) (c_route c) (c_status c) (c_elapsed c).
Definition run_metrics (cs : list metric_call) : option Metrics :=
  foldl record_call (Some NewMetrics) cs.

(** The sum of [w] over the calls that [f] maps to [key]. *)
Fixpoint total {K} `{EqDecision K} (f : metric_call → K) (w : metric_call → Z) (key : K)
    (cs : list metric_call) : Z :=
  match cs with
  | [] => 0
  | c :: cs => (if decide (f c = key) then w c else 0) + total f w key cs
  end.
Definition call_method (c : metric_call) : string := record_method (c_method c).
Definition call_route (c : metric_call) : string := normalizePath (c_route c).
Definition call_duration (c : metric_call) : Z := record_duration (c_elapsed c).

Lemma total_snoc {K} `{EqDecision K} (f : metric_call → K) w key cs c :
  total f w key (cs ++ [c])
  = (total f w key cs + if decide (f c = key) then w c else 0)%Z.
Proof. induction cs as [|x cs IH]; cbn [app total]; [lia|]. rewrite IH. lia. Qed.

Lemma bump_lookup {K} `{Countable K} (key j : K) v (m : gmap K Z) x :
  default 0%Z (m !! j) = wrap64 x →
  default 0%Z (bump key v m !! j) = wrap64 (x + if decide (key = j) then v else 0).
Proof.
  intros Hm. unfold bump. rewrite lookup_insert. destruct (decide (key = j)) as [<-|Hne]; cbn.
  - rewrite Hm. apply i64_add_wrap.
  - by rewrite Hm, Z.add_0_r.
Qed.

Lemma run_metrics_snoc cs c : run_metrics (cs ++ [c]) = record_call (run_metrics cs) c.
Proof. unfold run_metrics. by rewrite foldl_app. Qed.

Definition always (_ : metric_call) : unit := tt.
Definition status_failed (c : metric_call) : bool := is_error (c_status c).

Record accounted (cs : list metric_call) (m : Metrics) : Prop := {
  acc_requests : totalRequests m = wrap64 (Z.of_nat (length cs));
  acc_errors : totalErrors m = wrap64 (total status_failed (λ _, 1%Z) true cs);
  acc_latency : totalLatency m = wrap64 (total always call_duration tt cs);
  acc_method : ∀ k, default 0%Z (byMethod m !! k) = wrap64 (total call_method (λ _, 1%Z) k cs);
  acc_route : ∀ k, default 0%Z (byRoute m !! k) = wrap64 (total call_route (λ _, 1%Z) k cs);
  acc_status : ∀ k, default 0%Z (byStatus m !! k) = wrap64 (total c_status (λ _, 1%Z) k cs);
  acc_route_latency : ∀ k,
    default 0%Z (byRouteLatency m !! k) = wrap64 (total call_route call_duration k cs);
}.

Lemma Record_unfold m method route status elapsed :
  ∃ window head count errs,
    ring_push (errorWindow m, errorWinHead m, errorWinCount m, errorWinErrs m) (is_error status)
    = (window, head, count, errs)
    ∧ Record_ (Some m) method route status elapsed
    = Some (mkMetrics
      (i64_add (totalRequests m) 1)
      (if is_error status then i64_add (totalErrors m) 1 else totalErrors m)
      (i64_add (totalLatency m) (record_duration elapsed))
      (bump (record_method method) 1 (byMethod m)) (bump (normalizePath route) 1 (byRoute m))
      (bump status 1 (byStatus m))
      (bump (normalizePath route) (record_duration elapsed) (byRouteLatency m))
      (<[normalizePath route := hist_record (default (newRouteHistogram (Z.to_nat 1000))
           (byRouteHistogram m !! normalizePath route)) (record_duration elapsed)]> (byRouteHistogram m))
      ((λ h, hist_record h (record_duration elapsed)) <$> latencyHistogram m)
      window head count errs).
Proof.
  unfold Record_. cbn [on_recv].
  destruct (ring_push _ _) as [[[window head] count] errs]. by eexists _, _, _, _.
Qed.

Lemma record_accounted cs m c :
  accounted cs m → ∃ m', record_call (Some m) c = Some m' ∧ accounted (cs ++ [c]) m'.
Proof.
  intros Ha. unfold record_call.
  destruct (Record_unfold m (c_method c) (c_route c) (c_status c) (c_elapsed c))
    as (w & hd & ct & er & _ & ->).
  eexists. split; [reflexivity|].
  split; cbn [totalRequests totalErrors totalLatency byMethod byRoute byStatus byRouteLatency];
    try (intros k; rewrite total_snoc; apply bump_lookup, Ha).
  - rewrite (acc_requests _ _ Ha), i64_add_wrap, length_app. cbn. f_equal. lia.
  - rewrite total_snoc, (acc_errors _ _ Ha). destruct (is_error (c_status c)) eqn:E.
    + rewrite (decide_True (P:=status_failed c = true)) by exact E. apply i64_add_wrap.
    + rewrite (decide_False (P:=status_failed c = true)) by (unfold status_failed; congruence).
      by rewrite Z.add_0_r.
  - rewrite total_snoc, (acc_latency _ _ Ha). apply i64_add_wrap.
Qed.

Lemma run_accounted cs : ∃ m, run_metrics cs = Some m ∧ accounted cs m.
Proof.
  induction cs as [|c cs (m & E & Ha)] using rev_ind.
  - exists NewMetrics. split; [done|]. split; cbn; try done; intros k; by rewrite lookup_empty.
  - rewrite run_metrics_snoc, E. by apply record_accounted.
Qed.

(** Accounting.  After any calls of [Record], every counter of the
    collector is, modulo 2^64, the number of calls it stands for: all calls,
    errors, the calls of each normalised method, route and status; and the
    latency sums are the sums of the clamped durations. *)
Theorem metrics_accounting cs : ∃ m, run_metrics cs = Some m ∧ accounted cs m.
Proof.
  destruct (run_accounted cs) as (m & E & Ha). by exists m.
Qed.

(** ** The collector: the error window *)

Definition count_true (l : list bool) : Z := Z.of_nat (length (List.filter id l)).
Definition last_n {A} (n : nat) (l : list A) : list A := drop (length l - n) l.

Lemma count_true_cons b l : count_true (b :: l) = ((if b then 1 else 0) + count_true l)%Z.
Proof. unfold count_true. destruct b; cbn; lia. Qed.
Lemma count_true_app l l' : count_true (l ++ l') = (count_true l + count_true l')%Z.
Proof. induction l as [|b l IH]; [done|]. cbn [app]. rewrite !count_true_cons, IH. lia. Qed.
Lemma count_true_bound l : (0 ≤ count_true l ≤ Z.of_nat (length l))%Z.
Proof. induction l as [|b l IH]; [done|]. rewrite count_true_cons. cbn [length]. destruct b; lia. Qed.

Lemma cap_pos : errorWindowCap ≠ 0.
Proof. discriminate. Qed.
Lemma cap_bound : (Z.of_nat errorWindowCap = 1000)%Z.
Proof. reflexivity. Qed.
Opaque errorWindowCap.

Record ring_inv (es : list bool) (ring : option (list bool) * nat * Z * Z) : Prop := {
  ring_len : length (default (replicate errorWindowCap false) ring.1.1.1) = errorWindowCap;
  ring_head : ring.1.1.2 = length es `mod` errorWindowCap;
  ring_count : ring.1.2 = Z.of_nat (length es `min` errorWindowCap);
  ring_errs : ring.2 = count_true (last_n errorWindowCap es);
  ring_slots : ∀ k, k < length es → length es ≤ k + errorWindowCap →
    default (replicate errorWindowCap false) ring.1.1.1 !! (k `mod` errorWindowCap) = es !! k;
}.

Lemma mod_distinct k n c : c ≠ 0 → k < n → n < k + c → k `mod` c ≠ n `mod` c.
Proof.
  intros Hc Hk Hn E. pose proof (Nat.div_mod k c Hc). pose proof (Nat.div_mod n c Hc).
  rewrite E in *. assert (n - k = c * (n / c - k / c)) as Hd by nia.
  destruct (n / c - k / c) as [|q] eqn:Eq; nia.
Qed.

Lemma last_n_snoc_short {A} n (l : list A) x : length l < n → last_n n (l ++ [x]) = last_n n l ++ [x].
Proof.
  intros Hl. unfold last_n. rewrite length_app. cbn.
  replace (length l + 1 - n) with 0 by lia. by replace (length l - n) with 0 by lia.
Qed.
Lemma last_n_snoc_long {A} n (l : list A) x : n ≠ 0 → n ≤ length l →
  ∃ y, l !! (length l - n) = Some y
    ∧ last_n n l = y :: drop (S (length l - n)) l
    ∧ last_n n (l ++ [x]) = drop (S (length l - n)) l ++ [x].
Proof.
  intros Hn Hl. destruct (lookup_lt_is_Some_2 l (length l - n)) as [y Hy]; [lia|].
  exists y. split; [done|]. unfold last_n. split; [by apply drop_S|].
  rewrite length_app. cbn. replace (length l + 1 - n) with (S (length l - n)) by lia.
  by rewrite drop_app_le by lia.
Qed.

Lemma ring_push_inv es ring e : ring_inv es ring → ring_inv (es ++ [e]) (ring_push ring e).
Proof.
  intros [Hl Hh Hc He Hs]. destruct ring as [[[window head] count] errs]. cbn [fst snd] in *.
  set (w := default (replicate errorWindowCap false) window) in *. subst head count errs.
  pose proof cap_pos as Hcap. pose proof cap_bound as Hcb.
  assert (length es `mod` errorWindowCap < errorWindowCap) as Hlt by by apply Nat.mod_upper_bound.
  assert (∀ k, k < length (es ++ [e]) → length (es ++ [e]) ≤ k + errorWindowCap →
    <[length es `mod` errorWindowCap := e]> w !! (k `mod` errorWindowCap) = (es ++ [e]) !! k) as Hslots.
  { intros k Hk Hk'. rewrite length_app in Hk, Hk'. cbn in Hk, Hk'.
    destruct (decide (k = length es)) as [->|Hne].
    - rewrite list_lookup_insert_eq by lia. by rewrite list_lookup_middle.
    - rewrite list_lookup_insert_ne.
      + rewrite lookup_app_l by lia. apply Hs; lia.
      + apply not_eq_sym, mod_distinct; lia. }
  unfold ring_push. fold w.
  assert (S (length es `mod` errorWindowCap) `mod` errorWindowCap
    = length (es ++ [e]) `mod` errorWindowCap) as Hnext.
  { rewrite length_app. cbn. rewrite Nat.add_1_r, <- (Nat.add_1_r (length es)), <- Nat.add_1_r.
    by rewrite Nat.Div0.add_mod_idemp_l. }
  pose proof (count_true_bound (last_n errorWindowCap es)) as Hb.
  assert (length (last_n errorWindowCap es) ≤ errorWindowCap) as Hln
    by (unfold last_n; rewrite length_drop; lia).
  destruct (Z.ltb_spec (Z.of_nat (length es `min` errorWindowCap)) (Z.of_nat errorWindowCap)).
  - assert (length es < errorWindowCap) as Hshort by lia.
    split; cbn [fst snd default from_option id]; try done.
    + by rewrite length_insert.
    + rewrite length_app, i64_add_id; cbn; unfold in_int64, int64_min, int64_max; lia.
    + rewrite last_n_snoc_short, count_true_app, count_true_cons by done.
      rewrite i64_add_id; [unfold count_true; cbn; destruct e; lia|].
      unfold in_int64, int64_min, int64_max. destruct e; lia.
  - assert (errorWindowCap ≤ length es) as Hlong by lia.
    destruct (last_n_snoc_long errorWindowCap es e Hcap Hlong) as (y & Hy & E1 & E2).
    assert (w !! (length es `mod` errorWindowCap) = Some y) as Hev.
    { rewrite <- Hy, <- (Hs (length es - errorWindowCap)) by lia. f_equal.
      replace (length es) with (length es - errorWindowCap + 1 * errorWindowCap) at 1 by lia.
      apply Nat.Div0.mod_add. }
    rewrite Hev. cbn [default from_option id].
    split; cbn [fst snd default from_option id]; try done.
    + by rewrite length_insert.
    + rewrite length_app. cbn. lia.
    + rewrite E2, count_true_app, count_true_cons, E1, count_true_cons.
      rewrite E1, count_true_cons in Hb. rewrite E1 in Hln. cbn [length] in Hln.
      pose proof (count_true_bound (drop (S (length es - errorWindowCap)) es)).
      change (count_true []) with 0%Z. unfold i64_sub.
      destruct y; rewrite ?wrap64_id, i64_add_id;
        unfold in_int64, int64_min, int64_max; destruct e; cbn [length] in *; lia.
Qed.

Definition outcomes (cs : list metric_call) : list bool := (λ c, is_error (c_status c)) <$> cs.

Lemma run_ring cs :
  ∃ m, run_metrics cs = Some m
    ∧ ring_inv (outcomes cs) (errorWindow m, errorWinHead m, errorWinCount m, errorWinErrs m).
Proof.
  induction cs as [|c cs (m & E & Hr)] using rev_ind.
  - exists NewMetrics. split; [done|]. split.
    + apply length_replicate.
    + symmetry. apply Nat.Div0.mod_0_l.
    + done.
    + change (0%Z = count_true (drop (0 - errorWindowCap) [])). by rewrite drop_nil.
    + intros k Hk. cbn in Hk. lia.
  - rewrite run_metrics_snoc, E. unfold record_call.
    destruct (Record_unfold m (c_method c) (c_route c) (c_status c) (c_elapsed c))
      as (w & hd & ct & er & Hp & ->).
    eexists. split; [reflexivity|].
    cbn [errorWindow errorWinHead errorWinCount errorWinErrs]. rewrite <- Hp.
    unfold outcomes. rewrite fmap_app. by apply ring_push_inv.
Qed.

(** The error window.  Asked for at least the window's 1000 requests, as
    the alert does, [ErrorWindow] gives the number of requests and the rate of
    errors among exactly the last 1000 (or all, when fewer were recorded). *)
Theorem error_window_exact cs size :
  (Z.of_nat errorWindowCap ≤ size)%Z →
  let recent := last_n errorWindowCap (outcomes cs) in
  ErrorWindow (run_metrics cs) size
  = if decide (cs = []) then (0%Z, f64_zero)
    else (Z.of_nat (length recent),
          f64_div (f64_of_int (count_true recent)) (f64_of_int (Z.of_nat (length recent)))).
Proof.
  intros Hsize recent. destruct (run_ring cs) as (m & -> & [_ _ Hc He _]).
  cbn [fst snd] in Hc, He. pose proof cap_bound. pose proof cap_pos.
  assert (length recent = length cs `min` errorWindowCap) as Hlen.
  { unfold recent, last_n, outcomes. rewrite length_drop, length_fmap. lia. }
  unfold outcomes in Hc. rewrite length_fmap in Hc.
  unfold ErrorWindow. rewrite (proj2 (Z.leb_gt size 0)) by lia.
  rewrite Hc, He, (proj2 (Z.ltb_ge size _)) by lia. fold recent. rewrite <- Hlen.
  destruct (decide (cs = [])) as [->|Hne].
  - by rewrite Hlen.
  - rewrite (proj2 (Z.eqb_neq _ 0)); [done|]. destruct cs; [done|]. rewrite Hlen. cbn [length]. lia.
Qed.

(** Asked for fewer requests than were recorded, [ErrorWindow] divides the
    errors of the whole window by the number asked for: two failures followed by
    a success give, for the last request, a rate of 2. *)
Theorem error_window_overcounts :
  let c status := MetricCall "GET" "/" status None in
  ErrorWindow (run_metrics [c 500%Z; c 500%Z; c 200%Z]) 1 = (1%Z, f64_of_int 2).
Proof. vm_compute. reflexivity. Qed.

(** ** The alert fires on rising edges *)

Fixpoint rising (was : bool) (above : list bool) : list bool :=
  match above with
  | [] => []
  | b :: above => (b && negb was) :: rising b above
  end.
Definition comparable (t r : float64) : Prop := f64_ltb r t = negb (f64_geb r t).

Lemma alert_run_rising t was rates :
  Forall (comparable t) rates →
  alert_run (AlertThreshold t was) rates = rising was ((λ r, f64_geb r t) <$> rates).
Proof.
  intros Hr. revert was. induction Hr as [|r rates Hc _ IH]; intros was; [done|].
  cbn [alert_run fmap list_fmap rising]. unfold alert_step. cbn [threshold triggered].
  rewrite Hc. destruct (f64_geb r t), was; cbn; by rewrite IH.
Qed.

(** The alert callback is called exactly on the rising edges of the
    condition that the error rate is at least the threshold: never twice
    without a request in between at which the rate was below it. *)
Theorem alert_fires_on_edges t rates :
  Forall (comparable t) rates →
  alert_run (AlertThreshold t false) rates = rising false ((λ r, f64_geb r t) <$> rates).
Proof. apply alert_run_rising. Qed.

(** ** The recorded status *)

(** The handler sends its header, by [WriteHeader] or [Write], before flushing. *)
Fixpoint sends_before_flush (ops : list writer_op) : bool :=
  match ops with
  | [] => true
  | OpWriteHeader _ :: _ | OpWrite _ :: _ => true
  | OpFlush :: _ => false
  | _ :: ops => sends_before_flush ops
  end.
Definition final_status_op (o : writer_op) : bool :=
  match o with OpWriteHeader c => negb (informational c) && negb (c =? 0)%Z | _ => true end.

Lemma recorder_wrote sr ops :
  wroteCode sr = true → foldl recorder_step sr ops = sr.
Proof.
  revert sr. induction ops as [|o ops IH]; intros sr Hw; [done|]. cbn [foldl].
  replace (recorder_step sr o) with sr; [by apply IH|]. destruct o; cbn; by rewrite ?Hw.
Qed.

Lemma commit_status r x : final r = Some x → status (commit r) = x.1.
Proof. intros E. unfold commit. rewrite E. unfold status. rewrite E. by destruct x. Qed.

(** The recorder sees what the client gets.  For a handler that sends its
    header before flushing and sends no 1xx response, the status that metrics,
    logs and alerts record is the status line the client receives. *)
Theorem recorded_status_is_sent ops :
  forallb final_status_op ops = true → sends_before_flush ops = true →
  recorded_status ops = status (respond ops).
Proof.
  unfold recorded_status, respond. generalize new_response as r, (eq_refl : final new_response = None).
  intros r Hr. revert r Hr. induction ops as [|o ops IH]; intros r Hr Hf Hs.
  { cbn. unfold commit. rewrite Hr. unfold write_header. by rewrite Hr. }
  cbn [forallb] in Hf. apply andb_true_iff in Hf as [Ho Hf].
  change (respond_from r (o :: ops)) with (respond_from (response_step r o) ops). cbn [foldl].
  destruct o as [k v|k v|k| |c|b|]; try (by apply IH); [|].
  - cbn [recorder_step newStatusRecorder wroteCode]. rewrite recorder_wrote by done.
    cbn in Ho. apply andb_true_iff in Ho as [Hi%negb_true_iff H0%negb_true_iff].
    cbn. rewrite H0. cbn [response_step]. unfold write_header. rewrite Hr, Hi.
    erewrite commit_status; [|by apply respond_from_final]. done.
  - cbn [recorder_step newStatusRecorder wroteCode]. rewrite recorder_wrote by done.
    cbn [StatusCode on_recv sr_status]. cbn [response_step].
    erewrite commit_status; [|apply respond_from_final].
    2: { unfold commit. rewrite Hr. unfold write_header. rewrite Hr. cbn. reflexivity. }
    done.
Qed.

(** A 1xx response is recorded as the status of the request: metrics and
    logs show 103 where the client got the status that followed. *)
Theorem recorded_status_interim hs c code rest :
  Forall (λ o, is_header_op o = true) hs → informational code = true →
  informational c = false →
  recorded_status (hs ++ OpWriteHeader code :: OpWriteHeader c :: rest) = code
  ∧ status (respond (hs ++ OpWriteHeader code :: OpWriteHeader c :: rest)) = c.
Proof.
  intros Hh Hc Hi. split.
  - unfold recorded_status. rewrite foldl_app.
    replace (foldl recorder_step newStatusRecorder hs) with newStatusRecorder.
    2: { induction Hh as [|o hs Ho _ IH]; [done|]. cbn [foldl]. rewrite IH at 1. by destruct o. }
    cbn [foldl recorder_step newStatusRecorder wroteCode]. rewrite recorder_wrote by done.
    cbn. destruct (Z.eqb_spec code 0) as [->|]; done.
  - unfold respond. rewrite respond_from_app.
    destruct (header_ops_unsent new_response _ Hh) as (Hf & _).
    set (r := respond_from new_response hs) in *.
    change (respond_from r (OpWriteHeader code :: OpWriteHeader c :: rest))
      with (respond_from (write_header c (write_header code r)) rest).
    erewrite commit_status; [|apply respond_from_final].
    2: { unfold write_header at 2. rewrite Hf, Hc. unfold write_header. cbn. rewrite Hi. reflexivity. }
    done.
Qed.

(** ** Concrete runs *)

Lemma histogram_window_witness :
  samples (foldl hist_step (newRouteHistogram 2)
    [CallRecord 5; CallRecord (-1); CallSnapshot; CallRecord 7]) `suffix_of` [5; 0; 7]%Z.
Proof. exact (proj1 (histogram_window 2 [CallRecord 5; CallRecord (-1); CallSnapshot; CallRecord 7] ltac:(lia))). Defined.

Lemma histogram_percentiles_witness :
  (hist_snapshot (Some (foldl hist_step (newRouteHistogram 10) [CallRecord 9; CallRecord 3]))).1
  = Percentiles 9 9 9.
Proof.
  rewrite (proj1 (histogram_percentiles 10 [CallRecord 9; CallRecord 3] 50 ltac:(lia))).
  reflexivity.
Defined.

Lemma error_window_exact_witness :
  ErrorWindow (run_metrics [MetricCall "GET" "/" 500 None; MetricCall "GET" "/" 200 None]) 1000
  = (2%Z, f64_lit 1 2).
Proof.
  rewrite (error_window_exact _ 1000 ltac:(reflexivity || (intros H; discriminate H))).
  vm_compute. reflexivity.
Defined.

Lemma alert_fires_on_edges_witness :
  alert_run (AlertThreshold (f64_lit 1 2) false) [f64_lit 3 4; f64_lit 3 4; f64_zero; f64_lit 1 2]
  = [true; false; false; true].
Proof.
  rewrite alert_fires_on_edges; [reflexivity|]. repeat constructor; vm_compute; reflexivity.
Defined.

Lemma recorded_status_is_sent_witness :
  recorded_status (http_error "gone" 410) = 410%Z.
Proof. rewrite recorded_status_is_sent; reflexivity. Defined.

Lemma recorded_status_interim_witness :
  recorded_status [OpWriteHeader 103; OpWriteHeader 404] = 103%Z.
Proof. exact (proj1 (recorded_status_interim [] 404 103 [] (Forall_nil_2 _) eq_refl eq_refl)). Defined.
