(* ===== verification/MetricsJson.v ===== *)
(** * The snapshot as JSON

    Models [MetricsSnapshot.MarshalJSON] of src/pkg/runtime/metrics.go, the document that the
    metrics endpoint of Server.v answers with.  encoding/json writes the fields of a struct in
    their order and the members of a map in the order of the texts of their keys; how it
    quotes a text is a parameter. *)

From stdpp Require Import strings gmap pretty.
From S2P Require Import Prelude GoStrings Metrics.

Section Json.
Context (json_string : string → string).
Definition member (kv : string * string) : string := json_string kv.1 +:+ ":" +:+ kv.2.
Definition json_object (members : list (string * string)) : string := "{" +:+ join (member <$> members) "," +:+ "}".
Definition key_le (a b : string * string) : Prop := String.le a.1 b.1.
#[local] Instance key_le_dec : RelDecision key_le.
Proof using. intros a b. unfold key_le. apply _. Defined.
(** The members of a map, by the text of the key. *)
Definition json_members {K} `{Countable K} (text : K → string) (m : gmap K Z) : list (string * string) :=
  merge_sort key_le ((λ kv, (text kv.1, itoa kv.2)) <$> map_to_list m).
Definition MarshalJSON (s : MetricsSnapshot) : string :=
  json_object
    [("total_requests", itoa (TotalRequests s)); ("total_errors", itoa (TotalErrors s));
     ("total_latency", itoa (TotalLatency s)); ("avg_latency", itoa (AvgLatency s));
     ("by_method", json_object (json_members id (ByMethod s))); ("by_route", json_object (json_members id (ByRoute s)));
     ("by_status", json_object (json_members itoa (ByStatus s)));
     ("by_route_latency", json_object (json_members id (ByRouteLatency s)))].

Lemma json_members_elem {K} `{Countable K} (text : K → string) (m : gmap K Z) t v :
  (t, v) ∈ json_members text m ↔ ∃ k n, m !! k = Some n ∧ t = text k ∧ v = itoa n.
Proof using.
  unfold json_members. rewrite merge_sort_Permutation, list_elem_of_fmap. split.
  - intros ([k n] & [= -> ->] & Hk%elem_of_map_to_list). eauto.
  - intros (k & n & Hk & -> & ->). exists (k, n). split; [done|]. by apply elem_of_map_to_list.
Qed.
Lemma json_members_sorted {K} `{Countable K} (text : K → string) (m : gmap K Z) : StronglySorted key_le (json_members text m).
Proof using.
  apply StronglySorted_merge_sort.
  - intros a b c. unfold key_le. apply transitivity.
  - intros a b. unfold key_le. apply String.le_total.
Qed.
Lemma json_members_keys {K} `{Countable K} (text : K → string) (m : gmap K Z) : Inj eq eq text → NoDup (json_members text m).*1.
Proof using.
  intros Hi. unfold json_members. rewrite merge_sort_Permutation.
  rewrite <- list_fmap_compose. change (NoDup ((text ∘ fst) <$> map_to_list m)). rewrite list_fmap_compose.
  apply NoDup_fmap_2; [done|]. apply NoDup_fst_map_to_list.
Qed.

(** The document has one member for every counter of the snapshot and no other, each key once, in the order of the
    texts: two snapshots with the same counters are the same bytes, statuses are ordered as texts (1000 before 200),
    and a collector that has recorded nothing gives four empty objects, not null. *)
Theorem snapshot_json_exact (s : MetricsSnapshot) :
  (∀ t v, (t, v) ∈ json_members itoa (ByStatus s) ↔ ∃ code n, ByStatus s !! code = Some n ∧ t = itoa code ∧ v = itoa n)
  ∧ (∀ t v, (t, v) ∈ json_members id (ByRoute s) ↔ ∃ route n, ByRoute s !! route = Some n ∧ t = route ∧ v = itoa n)
  ∧ StronglySorted key_le (json_members itoa (ByStatus s)) ∧ NoDup (json_members itoa (ByStatus s)).*1
  ∧ StronglySorted key_le (json_members id (ByRoute s)) ∧ NoDup (json_members id (ByRoute s)).*1
  ∧ MarshalJSON (Snapshot (Some NewMetrics)).1
    = json_object [("total_requests", "0"); ("total_errors", "0"); ("total_latency", "0"); ("avg_latency", "0");
        ("by_method", "{}"); ("by_route", "{}"); ("by_status", "{}"); ("by_route_latency", "{}")].
Proof using.
  split_and!; [intros; apply json_members_elem..|apply json_members_sorted|apply json_members_keys|apply json_members_sorted| |done].
  - intros a b. unfold itoa. apply (inj pretty).
  - apply json_members_keys. by intros a b.
Qed.
End Json.

Example json_status_order : MarshalJSON quote (Snapshot_ 2 0 5 2 ∅ ∅ {[ 200%Z := 1%Z; 1000%Z := 1%Z ]} ∅ ∅)
  = "{" +:+ quote "total_requests" +:+ ":2," +:+ quote "total_errors" +:+ ":0," +:+ quote "total_latency" +:+ ":5," +:+ quote "avg_latency" +:+ ":2,"
    +:+ quote "by_method" +:+ ":{}," +:+ quote "by_route" +:+ ":{}," +:+ quote "by_status" +:+ ":{" +:+ quote "1000" +:+ ":1," +:+ quote "200" +:+ ":1}," 
    +:+ quote "by_route_latency" +:+ ":{}}".
Proof. vm_compute. reflexivity. Qed.
