(* ===== verification/Rollout.v ===== *)
(** * Progressive rollouts

    Models src/pkg/runtime/rollout.go but for the methods of [RouteRegistry]
    (see Registry).  Error rates and thresholds are binary64 numbers; [fmt_2f]
    is fmt's [%.2f]. *)

From S2P Require Import Prelude GoStrings.

Record RolloutConfig := mkRollout {
  ro_Name : string;
  ro_Route : string;
  ro_Strategy : string;
  ro_Target : string;
  CanaryWeight : Z;
  MaxWeight : Z;
  Step : Z;
  ro_Enabled : bool;
  Progressive : bool;
  ro_Rollback : bool;
  ErrorThreshold : float64;
}.

#[export] Instance RolloutConfig_dec : EqDecision RolloutConfig.
Proof. solve_decision. Defined.

Record RolloutMetrics := mkRolloutMetrics {
  Requests : Z; ErrorRate : float64; Failed : Z; Succeeded : Z;
}.
Record RolloutDecision := mkDecision {
  Allow : bool; Weight : Z; Target : string; Reason : string;
}.

Definition f64_one : float64 := f64_of_int 1.
Definition f64_hundred : float64 := f64_of_int 100.

(** [Validate] has a pointer receiver: on success it returns the configuration
    with its defaults applied. *)
Definition Validate (c : RolloutConfig) : result RolloutConfig :=
  fail_if String.eqb (trim_space (ro_Name c)) "" with "rollout name is required";
  fail_if String.eqb (trim_space (ro_Route c)) "" with "rollout route is required";
  fail_if String.eqb (trim_space (ro_Target c)) "" with "rollout target is required";
  fail_if ro_Rollback c with "rollback rollout is explicitly rejected for progressive delivery";
  fail_if negb (ro_Enabled c) with "rollout is disabled";
  let strategy := if String.eqb (ro_Strategy c) "" then "canary" else ro_Strategy c in
  fail_if (CanaryWeight c <? 0)%Z with "canary weight cannot be negative";
  let max := if (MaxWeight c <=? 0)%Z then 100%Z else MaxWeight c in
  let step := if (Step c <=? 0)%Z then 10%Z else Step c in
  fail_if (max <? CanaryWeight c)%Z with "canary weight cannot exceed max weight";
  fail_if Progressive c && (CanaryWeight c =? 0)%Z
    with "progressive rollout requires a non-zero canary weight";
  fail_if f64_ltb (ErrorThreshold c) f64_zero with "error threshold cannot be negative";
  let thr := if f64_gtb (ErrorThreshold c) f64_one
             then f64_div (ErrorThreshold c) f64_hundred else ErrorThreshold c in
  Ok (mkRollout (ro_Name c) (ro_Route c) strategy (ro_Target c) (CanaryWeight c) max step
        (ro_Enabled c) (Progressive c) (ro_Rollback c) thr).

Definition Decide (c : RolloutConfig) (current : Z) : result RolloutDecision :=
  try c := Validate c in
  if String.eqb (ro_Strategy c) "rollback"
  then Ok (mkDecision false 0 (ro_Target c) "rollback is not allowed in progressive delivery")
  else
    let current := if (current <? 0)%Z then 0%Z else current in
    if (CanaryWeight c <=? 0)%Z
    then Ok (mkDecision false 0 (ro_Target c) "rollout is inactive")
    else
      let weight := if Progressive c && (current <? CanaryWeight c)%Z then current
                    else CanaryWeight c in
      Ok (mkDecision true weight (ro_Target c) "canary step approved").

Section Evaluate.
Context (fmt_2f : float64 → string).

(** [Validate] runs again in [Decide], on the configuration it normalised. *)
Definition Evaluate (c : RolloutConfig) (m : RolloutMetrics) : result RolloutDecision :=
  try c := Validate c in
  if String.eqb (ro_Strategy c) "rollback"
  then Ok (mkDecision false 0 (ro_Target c) "rollback is not allowed in progressive delivery")
  else if f64_gtb (ErrorThreshold c) f64_zero && f64_gtb (ErrorRate m) (ErrorThreshold c)
  then Ok (mkDecision false 0 (ro_Target c)
         ("canary blocked: error rate " +:+ fmt_2f (ErrorRate m)
          +:+ " exceeds threshold " +:+ fmt_2f (ErrorThreshold c)))
  else Decide c (Requests m).
End Evaluate.

(** ** The rollout registry *)

Record RolloutRegistry := mkRolloutRegistry { rr_rollouts : gmap string RolloutConfig }.
Definition NewRolloutRegistry : RolloutRegistry := mkRolloutRegistry ∅.

Definition trimmed_rollout (c : RolloutConfig) : RolloutConfig :=
  mkRollout (trim_space (ro_Name c)) (trim_space (ro_Route c)) (ro_Strategy c)
    (trim_space (ro_Target c)) (CanaryWeight c) (MaxWeight c) (Step c) (ro_Enabled c)
    (Progressive c) (ro_Rollback c) (ErrorThreshold c).

Definition RegisterRollout (r : option RolloutRegistry) (c : RolloutConfig)
    : result (option RolloutRegistry) :=
  match r with
  | None => Err "rollout registry is nil"
  | Some r =>
      try c := Validate (trimmed_rollout c) in
      match rr_rollouts r !! ro_Name c with
      | Some _ => Err ("rollout " +:+ quote (ro_Name c) +:+ " already exists")
      | None => Ok (Some (mkRolloutRegistry (<[ro_Name c := c]> (rr_rollouts r))))
      end
  end.
Definition GetRollout (r : option RolloutRegistry) (name : string) : option RolloutConfig :=
  on_recv r None (λ r, rr_rollouts r !! trim_space name).

(** ** What validation guarantees *)

Record rollout_ok (c : RolloutConfig) : Prop := {
  ok_names : trim_space (ro_Name c) ≠ "" ∧ trim_space (ro_Route c) ≠ "" ∧ trim_space (ro_Target c) ≠ "";
  ok_strategy : ro_Strategy c ≠ "";
  ok_weights : (0 ≤ CanaryWeight c ≤ MaxWeight c ∧ 0 < MaxWeight c ∧ 0 < Step c)%Z;
  ok_enabled : ro_Enabled c = true ∧ ro_Rollback c = false;
  ok_progressive : Progressive c = true → (0 < CanaryWeight c)%Z;
}.

Lemma Validate_Ok c c' :
  Validate c = Ok c' →
  rollout_ok c' ∧ f64_ltb (ErrorThreshold c) f64_zero = false
  ∧ c' = mkRollout (ro_Name c) (ro_Route c) (ro_Strategy c') (ro_Target c) (CanaryWeight c)
           (MaxWeight c') (Step c') true (Progressive c) false (ErrorThreshold c')
  ∧ ErrorThreshold c' = (if f64_gtb (ErrorThreshold c) f64_one
                         then f64_div (ErrorThreshold c) f64_hundred else ErrorThreshold c).
Proof.
  unfold Validate. rewrite !fail_if_Ok.
  intros (Hn & Hr & Ht & Hrb & He & Hc & Hm & Hp & Hth & [= <-]).
  apply String.eqb_neq in Hn, Hr, Ht. apply negb_false_iff in He. apply Z.ltb_ge in Hc, Hm.
  rewrite Hrb, He. split; [|done].
  split; cbn; [done| | |done|].
  - destruct (String.eqb_spec (ro_Strategy c) ""); done.
  - destruct (Z.leb_spec (MaxWeight c) 0), (Z.leb_spec (Step c) 0); lia.
  - intros Hpr. rewrite Hpr in Hp. cbn in Hp. apply Z.eqb_neq in Hp. lia.
Qed.

Lemma Validate_ok_again c :
  rollout_ok c → f64_ltb (ErrorThreshold c) f64_zero = false →
  f64_gtb (ErrorThreshold c) f64_one = false → Validate c = Ok c.
Proof.
  intros [(Hn & Hr & Ht) Hs (Hc & Hm & Hst) [He Hrb] Hp] Hth Hg. unfold Validate.
  rewrite (proj2 (String.eqb_neq _ _) Hn), (proj2 (String.eqb_neq _ _) Hr),
    (proj2 (String.eqb_neq _ _) Ht), (proj2 (String.eqb_neq _ _) Hs), Hrb, He, Hth, Hg.
  rewrite (proj2 (Z.ltb_ge _ _)), (proj2 (Z.leb_gt (MaxWeight c) 0)),
    (proj2 (Z.leb_gt (Step c) 0)), (proj2 (Z.ltb_ge (MaxWeight c) _)) by lia. cbn [negb].
  destruct (Progressive c) eqn:Ep; cbn [andb].
  - rewrite (proj2 (Z.eqb_neq _ _)) by (specialize (Hp eq_refl); lia). destruct c; cbn in *; congruence.
  - destruct c; cbn in *; congruence.
Qed.

(** The canary verdict is safe.  An evaluation that allows traffic was made
    on a coherent configuration that is enabled and not a rollback; its weight
    is between zero and the canary weight, which is at most the maximum; a
    progressive step never exceeds the traffic observed; and the observed error
    rate does not exceed the configured threshold.  A denial has weight zero. *)
Theorem evaluation_safe fmt_2f c m d :
  Evaluate fmt_2f c m = Ok d →
  Target d = ro_Target c
  ∧ (Allow d = false → Weight d = 0%Z)
  ∧ (Allow d = true →
     ∃ c', Validate c = Ok c' ∧ rollout_ok c' ∧ ro_Strategy c' ≠ "rollback"
       ∧ (0 ≤ Weight d ≤ CanaryWeight c)%Z ∧ (CanaryWeight c ≤ MaxWeight c')%Z
       ∧ (Progressive c = true → Weight d ≤ Z.max 0 (Requests m))%Z
       ∧ (f64_gtb (ErrorThreshold c') f64_zero = true →
          f64_gtb (ErrorRate m) (ErrorThreshold c') = false)).
Proof.
  unfold Evaluate. intros (c1 & Hv & E)%res_bind_Ok.
  destruct (Validate_Ok _ _ Hv) as (Hok & _ & Hc1 & _).
  assert (ro_Target c1 = ro_Target c ∧ CanaryWeight c1 = CanaryWeight c
    ∧ Progressive c1 = Progressive c) as (Et & Ec & Ep) by by rewrite Hc1.
  destruct (String.eqb_spec (ro_Strategy c1) "rollback") as [|Hs]; [by simplify_eq/=|].
  destruct (f64_gtb (ErrorThreshold c1) f64_zero && _) eqn:Eg; [by simplify_eq/=|].
  unfold Decide in E. apply res_bind_Ok in E as (c2 & Hv2 & E).
  destruct (Validate_Ok _ _ Hv2) as (_ & _ & Hc2 & _).
  assert (ro_Target c2 = ro_Target c1 ∧ CanaryWeight c2 = CanaryWeight c1
    ∧ Progressive c2 = Progressive c1) as (Et2 & Ec2 & Ep2) by by rewrite Hc2.
  destruct (String.eqb _ _); [simplify_eq/=; split; [congruence|done]|].
  rewrite Ec2, Ec in E. destruct (Z.leb_spec (CanaryWeight c) 0);
    [simplify_eq/=; split; [congruence|done]|].
  injection E as <-. cbn. split; [congruence|]. split; [done|]. intros _. exists c1.
  pose proof (ok_weights _ Hok) as Hw. rewrite Ec in Hw.
  set (cur := if (Requests m <? 0)%Z then 0%Z else Requests m).
  assert (0 ≤ cur ≤ Z.max 0 (Requests m))%Z as Hcur
    by (subst cur; destruct (Z.ltb_spec (Requests m) 0); lia).
  assert (Progressive c2 = Progressive c) as -> by congruence.
  split; [done|]. split; [done|]. split; [done|]. split; [|split; [lia|split]].
  - destruct (Progressive c); cbn; destruct (Z.ltb_spec cur (CanaryWeight c)); lia.
  - intros ->. cbn. destruct (Z.ltb_spec cur (CanaryWeight c)); lia.
  - intros Hg. rewrite Hg in Eg. done.
Qed.

(** Validation is stable: what it returns validates to itself, so a stored
    rollout is evaluated with the configuration it was registered with,
    provided the normalised threshold is at most one. *)
Theorem validation_stable c c' :
  Validate c = Ok c' → f64_gtb (ErrorThreshold c') f64_one = false →
  f64_ltb (ErrorThreshold c') f64_zero = false → Validate c' = Ok c'.
Proof. intros (Hok & _)%Validate_Ok Hg Hl. by apply Validate_ok_again. Qed.

Definition demo_rollout (thr : float64) : RolloutConfig :=
  mkRollout "r" "users" "" "http://v2" 10 0 0 true true false thr.

(** A threshold of 250 percent is stored as 2.5 and read as 2.5 percent. *)
Theorem threshold_normalised_twice :
  ∃ c1 c2, Validate (demo_rollout (f64_of_int 250)) = Ok c1 ∧ Validate c1 = Ok c2
    ∧ ErrorThreshold c1 = f64_lit 5 2 ∧ ErrorThreshold c2 = f64_lit 1 40.
Proof. eexists _, _. repeat split; vm_compute; reflexivity. Qed.

Definition demo_verdict : RolloutDecision := mkDecision true 7 "http://v2" "canary step approved".

Lemma evaluation_safe_witness :
  Evaluate (λ _, "") (demo_rollout (f64_of_int 5)) (mkRolloutMetrics 7 (f64_lit 1 100) 0 7)
  = Ok demo_verdict ∧ Target demo_verdict = "http://v2".
Proof.
  split; [vm_compute; reflexivity|].
  apply (evaluation_safe (λ _, "") (demo_rollout (f64_of_int 5))
    (mkRolloutMetrics 7 (f64_lit 1 100) 0 7) demo_verdict). vm_compute. reflexivity.
Defined.

Lemma validation_stable_witness :
  Validate (mkRollout "r" "users" "canary" "http://v2" 10 100 10 true true false (f64_lit 1 20))
  = Ok (mkRollout "r" "users" "canary" "http://v2" 10 100 10 true true false (f64_lit 1 20)).
Proof.
  apply (validation_stable (demo_rollout (f64_of_int 5))); vm_compute; reflexivity.
Defined.
