(* ===== verification/Tenant.v ===== *)
(** * Tenants: request scoping and quotas

    Models src/pkg/runtime/tenant.go.  The tenant of a request is a value of its
    context.  A middleware is a function from the next handler to a handler;
    the quota middleware also carries its store, and the clock reading of a
    request is an argument.  The rolling-window quota refines a log of the
    admitted requests. *)

From S2P Require Import Prelude GoStrings Http.

(** The context key: a type of its own, so no string key collides with it. *)
Definition tenantContextKey : string := "runtime.tenantCtxKey{}".

Definition ContextTenant (r : option request) : string :=
  match r with
  | None => ""
  | Some r => default "" (ctx_strings r !! tenantContextKey)
  end.

Definition handler : Type := request → list writer_op.

Definition RequireTenant (headerName : string) (next : handler) : handler := λ r,
  let headerName := if String.eqb headerName "" then "X-Tenant-ID" else headerName in
  let tenant := trim_space (header_get (headers r) headerName) in
  if String.eqb tenant "" then http_error "tenant required" 400
  else next (with_ctx r tenantContextKey tenant).

(** The tenant a request names: its context's, or its header's. *)
Definition request_tenant (r : request) : string :=
  let tenant := trim_space (ContextTenant (Some r)) in
  if String.eqb tenant "" then trim_space (header_get (headers r) "X-Tenant-ID") else tenant.

Definition RequireTenantMatch (expected : string) (next : handler) : handler := λ r,
  let tenant := request_tenant r in
  if String.eqb tenant "" then http_error "tenant required" 400
  else if negb (String.eqb expected "") && negb (String.eqb tenant expected)
  then http_error "tenant access denied" 403
  else next r.

(** ** Quotas *)

Record tenantQuotaStore := mkQuota { byUser : gmap string (list time); requests : Z }.
Definition new_quota : tenantQuotaStore := mkQuota ∅ 0.

(** [store.requests++], a [uint64]. *)
Definition u64_succ (z : Z) : Z := (z + 1) `mod` 18446744073709551616.

(** The sweep drops the tenants whose last request is out of the window. *)
Definition stale (cutoff : time) (l : list time) : bool :=
  match last l with None => true | Some t => negb (after t cutoff) end.
Definition sweep (cutoff : time) (m : gmap string (list time)) : gmap string (list time) :=
  filter (λ kv, stale cutoff kv.2 = false) m.
Definition recent (cutoff : time) (l : list time) : list time := List.filter (λ t, after t cutoff) l.

(** The critical section of one request: whether it is admitted, and the store. *)
Definition quota_step (limit : Z) (window : duration) (st : tenantQuotaStore) (now : time)
    (tenant : string) : bool * tenantQuotaStore :=
  let cutoff := time_add now (- window) in
  let n := u64_succ (requests st) in
  let m := if (n `mod` 256 =? 0)%Z then sweep cutoff (byUser st) else byUser st in
  let filtered := recent cutoff (default [] (m !! tenant)) in
  if (limit <=? Z.of_nat (length filtered))%Z
  then (false, mkQuota (<[tenant := filtered]> m) n)
  else (true, mkQuota (<[tenant := filtered ++ [now]]> m) n).

(** The middleware: its store is shared by all requests. *)
Definition TenantQuotaMiddleware (limit : Z) (window : duration) (next : handler)
    (st : tenantQuotaStore) (now : time) (r : request) : list writer_op * tenantQuotaStore :=
  if (limit <=? 0)%Z || (window <=? 0)%Z then (next r, st)
  else
    let tenant := request_tenant r in
    if String.eqb tenant "" then (http_error "tenant required" 400, st)
    else match quota_step limit window st now tenant with
         | (false, st) => (http_error "tenant quota exceeded" 429, st)
         | (true, st) => (next (with_ctx r tenantContextKey tenant), st)
         end.

(** ** The specification: the log of admitted requests *)

Definition admitted := list (string * time).
Definition of_tenant (tenant : string) (log : admitted) : list time :=
  snd <$> List.filter (λ e, String.eqb e.1 tenant) log.
(** How many requests of a tenant were admitted within the window. *)
Definition used (log : admitted) (tenant : string) (cutoff : time) : Z :=
  Z.of_nat (length (recent cutoff (of_tenant tenant log))).
Definition spec_step (limit : Z) (window : duration) (log : admitted) (now : time) (tenant : string)
    : bool * admitted :=
  if (used log tenant (time_add now (- window)) <? limit)%Z then (true, log ++ [(tenant, now)])
  else (false, log).

(** What the middleware answers, decided by the log. *)
Definition spec_serve (limit : Z) (window : duration) (next : handler) (log : admitted) (now : time)
    (r : request) : list writer_op * admitted :=
  let tenant := request_tenant r in
  if String.eqb tenant "" then (http_error "tenant required" 400, log)
  else match spec_step limit window log now tenant with
       | (false, log) => (http_error "tenant quota exceeded" 429, log)
       | (true, log) => (next (with_ctx r tenantContextKey tenant), log)
       end.

(** The requests in the order in which they take the store's lock. *)
Fixpoint quota_run (limit : Z) (window : duration) (next : handler) (st : tenantQuotaStore)
    (rs : list (time * request)) : list (list writer_op) :=
  match rs with
  | [] => []
  | (now, r) :: rs =>
      let '(ops, st) := TenantQuotaMiddleware limit window next st now r in
      ops :: quota_run limit window next st rs
  end.
Fixpoint spec_run (limit : Z) (window : duration) (next : handler) (log : admitted)
    (rs : list (time * request)) : list (list writer_op) * admitted :=
  match rs with
  | [] => ([], log)
  | (now, r) :: rs =>
      let '(ops, log) := spec_serve limit window next log now r in
      let '(opss, log) := spec_run limit window next log rs in (ops :: opss, log)
  end.

(** At most [limit] admissions of each tenant in each window [(end_ - window, end_]]. *)
Definition within (limit : Z) (window : duration) (log : admitted) : Prop :=
  ∀ k end_, (used (List.filter (λ e, e.2 <=? end_)%Z log) k (end_ - window) ≤ limit)%Z.

(** Readings of the clock that never go back. *)
Fixpoint ascending (now : time) (rs : list (time * request)) : Prop :=
  match rs with
  | [] => True
  | (t, _) :: rs => (now ≤ t)%Z ∧ ascending t rs
  end.

(** ** Lemmas *)

Lemma recent_app c l l' : recent c (l ++ l') = recent c l ++ recent c l'.
Proof. apply List.filter_app. Qed.
(** Filtering by an earlier cutoff first makes no difference. *)
Lemma recent_recent c c' l : (c' ≤ c)%Z → recent c (recent c' l) = recent c l.
Proof.
  intros Hc. unfold recent. induction l as [|t l IH]; [done|]. cbn [List.filter]. unfold after in *.
  destruct (Z.ltb_spec c' t); cbn [List.filter]; rewrite IH; [done|].
  by rewrite (proj2 (Z.ltb_ge _ _)) by lia.
Qed.
Lemma recent_none c l : Forall (λ t, t ≤ c)%Z l → recent c l = [].
Proof.
  unfold recent, after. induction 1 as [|t l Ht _ IH]; [done|]. cbn [List.filter].
  by rewrite (proj2 (Z.ltb_ge _ _)) by lia.
Qed.
Lemma recent_sublist c l : recent c l `sublist_of` l.
Proof.
  unfold recent. induction l as [|t l IH]; [done|]. cbn [List.filter].
  destruct (after t c); by constructor.
Qed.
Lemma recent_elem c l t : t ∈ recent c l → t ∈ l.
Proof. unfold recent. rewrite !list_elem_of_In, filter_In. by intros [? _]. Qed.
Lemma of_tenant_snoc k log t n :
  of_tenant k (log ++ [(t, n)]) = of_tenant k log ++ if String.eqb t k then [n] else [].
Proof.
  unfold of_tenant. rewrite List.filter_app, fmap_app. cbn [List.filter fst].
  by destruct (String.eqb t k).
Qed.

(** The store holds, for every tenant, the log's times from some cutoff on, in
    ascending order and none after the last reading of the clock. *)
Record quota_inv (cutoff now : time) (log : admitted) (st : tenantQuotaStore) : Prop := {
  qi_times : ∀ k c, (cutoff ≤ c)%Z →
    recent c (default [] (byUser st !! k)) = recent c (of_tenant k log);
  qi_sorted : ∀ k l, byUser st !! k = Some l → StronglySorted Z.le l ∧ Forall (λ t, t ≤ now)%Z l;
}.

Lemma stale_recent c l : StronglySorted Z.le l → stale c l = true → recent c l = [].
Proof.
  intros Hs Hst. apply recent_none. unfold stale in Hst. destruct (last l) as [t|] eqn:El.
  - apply last_Some in El as [l' ->]. unfold after in Hst. apply negb_true_iff, Z.ltb_ge in Hst.
    apply StronglySorted_app in Hs as (Hle & _ & _). apply Forall_app. split; [|by repeat constructor].
    apply Forall_forall. intros x Hx. specialize (Hle x t Hx). set_solver by lia.
  - apply last_None in El as ->. constructor.
Qed.

Lemma recent_sorted c l : StronglySorted Z.le l → StronglySorted Z.le (recent c l).
Proof.
  unfold recent. induction 1 as [|t l Hs IH Ht]; [constructor|]. cbn [List.filter].
  destruct (after t c); [|done]. constructor; [done|]. rewrite Forall_forall in *.
  intros x Hx. apply Ht. by eapply recent_elem.
Qed.
Lemma snoc_sorted l t :
  StronglySorted Z.le l → Forall (λ x, x ≤ t)%Z l → StronglySorted Z.le (l ++ [t]).
Proof.
  induction 1 as [|x l Hs IH Hx]; intros Hl; [by repeat constructor|].
  apply Forall_cons in Hl as [Hxt Hl]. cbn. constructor; [by apply IH|].
  apply Forall_app. split; [done | by repeat constructor].
Qed.

(** The sweep forgets nothing that still counts. *)
Lemma sweep_inv cutoff c0 now log st n :
  quota_inv c0 now log st → (c0 ≤ cutoff)%Z →
  quota_inv cutoff now log (mkQuota (sweep cutoff (byUser st)) n).
Proof.
  intros [Ht Hs] Hc. split; cbn [byUser].
  - intros k c Hcc. rewrite <- Ht by lia. unfold sweep.
    destruct (byUser st !! k) as [l|] eqn:El.
    + destruct (stale cutoff l) eqn:Est.
      * rewrite (map_lookup_filter_None_2); [|right; intros x Hx; cbn; congruence].
        destruct (Hs _ _ El) as [Hsl _]. change ([] = recent c l). rewrite <- (recent_recent c cutoff l) by done.
        by rewrite (stale_recent cutoff l).
      * by rewrite (map_lookup_filter_Some_2 _ _ _ l).
    + by rewrite map_lookup_filter_None_2 by by left.
  - intros k l [Hl _]%map_lookup_filter_Some. by eapply Hs.
Qed.
Lemma quota_inv_weaken c0 cutoff now now' log st n :
  quota_inv c0 now log st → (c0 ≤ cutoff)%Z → (now ≤ now')%Z →
  quota_inv cutoff now' log (mkQuota (byUser st) n).
Proof.
  intros [Ht Hs] Hc Hn. split; cbn [byUser]; [intros; apply Ht; lia|].
  intros k l Hl. destruct (Hs k l Hl) as [? Hf]. split; [done|].
  eapply Forall_impl; [exact Hf|]. cbn. intros; lia.
Qed.

Lemma quota_step_refines limit window c0 now0 log st now tenant :
  quota_inv c0 now0 log st → (now0 ≤ now)%Z → (c0 ≤ now - window)%Z →
  (quota_step limit window st now tenant).1 = (spec_step limit window log now tenant).1
  ∧ quota_inv (now - window) now (spec_step limit window log now tenant).2
      (quota_step limit window st now tenant).2.
Proof.
  intros Hi Hn Hc. unfold quota_step, spec_step, used. set (cutoff := time_add now (- window)).
  assert (cutoff = now - window)%Z as Hcut by done. rewrite <- Hcut in *.
  set (m := if (u64_succ (requests st) `mod` 256 =? 0)%Z then sweep cutoff (byUser st) else byUser st).
  assert (∀ n, quota_inv cutoff now log (mkQuota m n)) as Hm.
  { intros n. unfold m. destruct (_ =? 0)%Z.
    - eapply (quota_inv_weaken cutoff cutoff now0 now log (mkQuota (sweep cutoff (byUser st)) n));
        [by eapply sweep_inv | lia | done].
    - by eapply quota_inv_weaken. }
  destruct (Hm 0%Z) as [Ht Hs]. cbn [byUser] in *.
  rewrite <- (Ht tenant cutoff) by lia. set (fl := recent cutoff (default [] (m !! tenant))).
  assert (StronglySorted Z.le fl ∧ Forall (λ t, t ≤ now)%Z fl) as [Hfs Hfn].
  { unfold fl. destruct (m !! tenant) as [l|] eqn:El; [|by repeat constructor].
    destruct (Hs _ _ El) as [H1 H2]. split; [by apply recent_sorted|]. cbn. rewrite Forall_forall in *.
    intros x Hx. apply H2. by eapply recent_elem. }
  assert (∀ c, (cutoff ≤ c)%Z → recent c fl = recent c (of_tenant tenant log)) as Hfl.
  { intros c Hcc. unfold fl. rewrite recent_recent by done. by apply Ht. }
  rewrite Z.ltb_antisym. destruct (limit <=? Z.of_nat (length fl))%Z; cbn [negb fst snd]; (split; [done|]);
    split; cbn [byUser].
  - intros k c Hcc. destruct (decide (tenant = k)) as [<-|Hne].
    + rewrite lookup_insert_eq. by apply Hfl.
    + rewrite lookup_insert_ne by done. by apply Ht.
  - intros k l. destruct (decide (tenant = k)) as [<-|Hne].
    + rewrite lookup_insert_eq. by intros [= <-].
    + rewrite lookup_insert_ne by done. apply Hs.
  - intros k c Hcc. rewrite of_tenant_snoc, recent_app. destruct (decide (tenant = k)) as [<-|Hne].
    + rewrite lookup_insert_eq, String.eqb_refl. cbn [default from_option id].
      by rewrite recent_app, Hfl.
    + rewrite lookup_insert_ne, (proj2 (String.eqb_neq _ _) Hne), app_nil_r by done. by apply Ht.
  - intros k l. destruct (decide (tenant = k)) as [<-|Hne].
    + rewrite lookup_insert_eq. intros [= <-]. split; [by apply snoc_sorted|].
      apply Forall_app. split; [done | by repeat constructor].
    + rewrite lookup_insert_ne by done. apply Hs.
Qed.

Lemma serve_refines limit window next c0 now0 log st now r :
  (0 < limit)%Z → (0 < window)%Z →
  quota_inv c0 now0 log st → (now0 ≤ now)%Z → (c0 ≤ now - window)%Z →
  (TenantQuotaMiddleware limit window next st now r).1 = (spec_serve limit window next log now r).1
  ∧ quota_inv (now - window) now (spec_serve limit window next log now r).2
      (TenantQuotaMiddleware limit window next st now r).2.
Proof.
  intros Hl Hw Hi Hn Hc. unfold TenantQuotaMiddleware, spec_serve.
  rewrite (proj2 (Z.leb_gt _ _) Hl), (proj2 (Z.leb_gt _ _) Hw). cbn [orb].
  destruct (String.eqb (request_tenant r) "").
  { split; [done|]. destruct st as [m n]. by eapply quota_inv_weaken in Hi. }
  destruct (quota_step_refines limit window c0 now0 log st now (request_tenant r) Hi Hn Hc) as [Hok Hi'].
  destruct (quota_step _ _ st now _) as [ok st'], (spec_step _ _ log now _) as [ok' log'].
  cbn [fst snd] in *. subst ok'. by destruct ok.
Qed.

Lemma quota_run_refines limit window next now0 log st rs :
  (0 < limit)%Z → (0 < window)%Z →
  quota_inv (now0 - window) now0 log st → ascending now0 rs →
  quota_run limit window next st rs = (spec_run limit window next log rs).1.
Proof.
  intros Hl Hw. revert now0 log st. induction rs as [|[now r] rs IH]; intros now0 log st Hi Ha; [done|].
  destruct Ha as [Hn Ha]. cbn [quota_run spec_run].
  destruct (serve_refines limit window next (now0 - window) now0 log st now r Hl Hw Hi Hn ltac:(lia))
    as [Hok Hi'].
  destruct (TenantQuotaMiddleware _ _ next st now r) as [ok st'], (spec_serve _ _ next log now r) as [ok' log'].
  cbn [fst snd] in *. subst ok'. rewrite (IH now log' st') by done.
  by destruct (spec_run limit window next log' rs).
Qed.

Lemma new_quota_inv c now : quota_inv c now [] new_quota.
Proof. split; cbn; [done|]. intros k l. by rewrite lookup_empty. Qed.

(** Admission never exceeds the limit. *)
Lemma used_snoc log t n k c :
  used (log ++ [(t, n)]) k c = (used log k c + if String.eqb t k && after n c then 1 else 0)%Z.
Proof.
  unfold used. rewrite of_tenant_snoc, recent_app, length_app.
  destruct (String.eqb t k); cbn [recent List.filter length andb]; [|lia].
  destruct (after n c); cbn [length]; lia.
Qed.
Lemma used_mono log k c c' : (c ≤ c')%Z → (used log k c' ≤ used log k c)%Z.
Proof.
  intros Hc. unfold used. rewrite <- (recent_recent c' c) by done.
  apply inj_le, sublist_length, recent_sublist.
Qed.

Lemma within_step limit window log now tenant :
  within limit window log → (0 < window)%Z → Forall (λ e, e.2 ≤ now)%Z log →
  within limit window (spec_step limit window log now tenant).2
  ∧ Forall (λ e, e.2 ≤ now)%Z (spec_step limit window log now tenant).2.
Proof.
  intros Hw Hp Hl. unfold spec_step. case_match eqn:Hu; cbn [snd]; [|done].
  apply Z.ltb_lt in Hu. split; [|apply Forall_app; split; [done | by repeat constructor]].
  intros k end_. rewrite List.filter_app. cbn [List.filter snd].
  destruct (Z.leb_spec now end_) as [He|He]; [|rewrite app_nil_r; apply Hw].
  rewrite used_snoc. specialize (Hw k end_).
  destruct (String.eqb_spec tenant k) as [<-|]; cbn [andb]; [|lia].
  assert (List.filter (λ e : string * time, e.2 <=? end_)%Z log = log) as Hlog.
  { apply forallb_filter_id, forallb_forall. intros e He'. apply list_elem_of_In in He'.
    rewrite Forall_forall in Hl. specialize (Hl _ He'). cbn in Hl. apply Z.leb_le. lia. }
  rewrite Hlog in *.
  pose proof (used_mono log tenant (time_add now (- window)) (end_ - window)) as Hm.
  unfold time_add in *. destruct (after now (end_ - window)); lia.
Qed.
Lemma within_run limit window next log now rs :
  within limit window log → (0 < window)%Z → Forall (λ e, e.2 ≤ now)%Z log → ascending now rs →
  within limit window (spec_run limit window next log rs).2.
Proof.
  revert now log. induction rs as [|[t r] rs IH]; intros now log Hw Hp Hl Ha; [done|].
  destruct Ha as [Hn Ha]. cbn [spec_run]. unfold spec_serve.
  assert (Forall (λ e : string * time, e.2 ≤ t)%Z log) as Hlt.
  { eapply Forall_impl; [exact Hl|]. cbn. intros; lia. }
  destruct (within_step limit window log t (request_tenant r) Hw Hp Hlt) as [Hw' Hl'].
  destruct (String.eqb (request_tenant r) "").
  { specialize (IH t log Hw Hp Hlt Ha). by destruct (spec_run limit window next log rs). }
  destruct (spec_step limit window log t (request_tenant r)) as [ok log']. cbn [snd] in *.
  specialize (IH t log' Hw' Hp Hl' Ha). by destruct ok, (spec_run limit window next log' rs).
Qed.

(** ** Properties *)

(** C17 : for requests that take the lock in the order of their clock readings,
    the quota middleware, with its in-place filtering and its sweep of idle
    tenants on every 256th request, answers every request exactly as a full log
    of the admitted requests decides, and in that log no tenant has more than
    [limit] requests in any window. *)
Theorem quota_refines_log limit window next now rs :
  (0 < limit)%Z → (0 < window)%Z → ascending now rs →
  quota_run limit window next new_quota rs = (spec_run limit window next [] rs).1
  ∧ within limit window (spec_run limit window next [] rs).2.
Proof.
  intros Hl Hw Ha. split.
  - eapply quota_run_refines; [done | done | apply new_quota_inv | done].
  - eapply within_run; [|done|constructor|done]. intros k e.
    change (0 ≤ limit)%Z. lia.
Qed.
Definition tenant_request (name : string) : request :=
  Request "GET" "http" "api" "/" "api" {["X-Tenant-Id" := [name]]} "" ∅ None.
Definition ok_handler : handler := λ _, [].
Lemma quota_refines_log_witness :
  let rs := [(0, tenant_request "a"); (5, tenant_request " a "); (5, tenant_request "b");
             (10, tenant_request "a"); (11, tenant_request "")]%Z in
  quota_run 1 10 ok_handler new_quota rs
    = [[]; http_error "tenant quota exceeded" 429; []; []; http_error "tenant required" 400]
  ∧ within 1 10 [("a", 0); ("b", 5); ("a", 10)]%Z.
Proof.
  intros rs. destruct (quota_refines_log 1 10 ok_handler 0 rs) as [Hr Hw];
    [lia | lia | by cbn; lia |].
  split; [by vm_compute|].
  replace [("a", 0); ("b", 5); ("a", 10)]%Z with (spec_run 1 10 ok_handler [] rs).2 by by vm_compute.
  exact Hw.
Defined.

(** Behind the tenant middleware a handler only ever sees a request whose
    tenant is non-blank and is the one the header names; the match middleware
    lets a request through only when that tenant is the expected one. *)
Theorem tenant_isolation name expected next r ops :
  expected ≠ "" → RequireTenant name (RequireTenantMatch expected next) r = ops →
  let header := trim_space (header_get (headers r) (if String.eqb name "" then "X-Tenant-ID" else name)) in
  if decide (header = "") then ops = http_error "tenant required" 400
  else if decide (header = expected)
  then ops = next (with_ctx r tenantContextKey expected)
       ∧ ContextTenant (Some (with_ctx r tenantContextKey expected)) = expected
  else ops = http_error "tenant access denied" 403.
Proof.
  intros He <- header. unfold RequireTenant. fold header.
  assert (∀ t, ContextTenant (Some (with_ctx r tenantContextKey t)) = t) as Hctx.
  { intros t. unfold ContextTenant, with_ctx. cbn [ctx_strings]. by rewrite lookup_insert_eq. }
  assert (header ≠ "" → request_tenant (with_ctx r tenantContextKey header) = header) as Hrt.
  { intros Hh. unfold request_tenant. rewrite Hctx.
    replace (trim_space header) with header by (symmetry; apply trim_space_idemp).
    by rewrite (proj2 (String.eqb_neq _ _) Hh). }
  destruct (decide (header = "")) as [Hh|Hh]; [by rewrite Hh|].
  rewrite (proj2 (String.eqb_neq _ _) Hh). unfold RequireTenantMatch.
  rewrite Hrt, (proj2 (String.eqb_neq _ _) Hh), (proj2 (String.eqb_neq _ _) He) by done.
  cbn [negb andb]. destruct (decide (header = expected)) as [<-|Hne].
  - rewrite String.eqb_refl. cbn [negb]. by rewrite Hctx.
  - by rewrite (proj2 (String.eqb_neq _ _) Hne).
Qed.
Lemma tenant_isolation_witness :
  RequireTenant "" (RequireTenantMatch "acme" ok_handler) (tenant_request "evil")
  = http_error "tenant access denied" 403.
Proof.
  pose proof (tenant_isolation "" "acme" ok_handler (tenant_request "evil") _ ltac:(done) eq_refl) as H.
  by vm_compute in H |- *.
Defined.
