(* ===== verification/Unicode.v ===== *)
(** * Runes

    UTF-8 decoding as [unicode/utf8] does it, [strings.EqualFold] and
    [strings.Fields].  The case-folding orbits of the runes above U+007F are
    the Unicode tables of the standard library, a parameter; ASCII folding is
    computed. *)

From S2P Require Import Prelude GoStrings.

Definition RuneError : Z := 65533.
Definition bval (c : ascii) : Z := Z.of_N (byte_val c).
Definition cont (c : ascii) : bool := byte_in 128 191 c.
Definition low6 (c : ascii) : Z := Z.land (bval c) 63.

(** The range of the second byte of a three- or four-byte encoding. *)
Definition second3 (c d : ascii) : bool :=
  match byte_val c with
  | 224%N => byte_in 160 191 d
  | 237%N => byte_in 128 159 d
  | _ => byte_in 225 239 c && cont d
  end.
Definition second4 (c d : ascii) : bool :=
  match byte_val c with
  | 240%N => byte_in 144 191 d
  | 244%N => byte_in 128 143 d
  | _ => byte_in 241 243 c && cont d
  end.

(** [for _, r := range s]: an invalid byte is one [RuneError]. *)
Fixpoint runes (s : string) : list Z :=
  match s with
  | EmptyString => []
  | String c r =>
      if byte_in 0 127 c then bval c :: runes r
      else match r with
           | EmptyString => [RuneError]
           | String d r2 =>
               if byte_in 194 223 c && cont d
               then Z.lor (Z.shiftl (Z.land (bval c) 31) 6) (low6 d) :: runes r2
               else match r2 with
                    | EmptyString => RuneError :: runes r
                    | String e r3 =>
                        if second3 c d && cont e
                        then Z.lor (Z.shiftl (Z.land (bval c) 15) 12)
                               (Z.lor (Z.shiftl (low6 d) 6) (low6 e)) :: runes r3
                        else match r3 with
                             | EmptyString => RuneError :: runes r
                             | String f r4 =>
                                 if second4 c d && cont e && cont f
                                 then Z.lor (Z.shiftl (Z.land (bval c) 7) 18)
                                        (Z.lor (Z.shiftl (low6 d) 12)
                                          (Z.lor (Z.shiftl (low6 e) 6) (low6 f))) :: runes r4
                                 else RuneError :: runes r
                             end
                    end
           end
  end.

Section Fold.
(** The least rune of the [unicode.SimpleFold] orbit of a rune above U+007F,
    as a lower-case letter when the orbit holds ASCII letters. *)
Context (fold_table : Z → Z).

Definition fold_rune (r : Z) : Z :=
  if (r <? 128)%Z then if ((65 <=? r) && (r <=? 90))%Z then (r + 32)%Z else r else fold_table r.

(** [strings.EqualFold]. *)
Definition EqualFold (s t : string) : bool :=
  bool_decide (fold_rune <$> runes s = fold_rune <$> runes t).

Lemma EqualFold_iff s t : EqualFold s t = true ↔ fold_rune <$> runes s = fold_rune <$> runes t.
Proof. apply bool_decide_eq_true. Qed.
Lemma EqualFold_refl s : EqualFold s s = true.
Proof. by apply EqualFold_iff. Qed.
End Fold.

(** [strings.Fields]: the word in progress, and the words after it. *)
Definition push_word (w : string * list string) : list string :=
  if String.eqb w.1 "" then w.2 else w.1 :: w.2.
Definition add_byte (c : ascii) (w : string * list string) : string * list string := (String c w.1, w.2).
Fixpoint words (s : string) : string * list string :=
  match s with
  | EmptyString => ("", [])
  | String c r =>
      if space1 c then ("", push_word (words r))
      else match r with
           | EmptyString => add_byte c (words r)
           | String d r2 =>
               if space2 c d then ("", push_word (words r2))
               else match r2 with
                    | EmptyString => add_byte c (words r)
                    | String e r3 => if space3 c d e then ("", push_word (words r3)) else add_byte c (words r)
                    end
           end
  end.
Definition fields (s : string) : list string := push_word (words s).

Example runes_mixed : runes "aé€𐍈" = [97; 233; 8364; 66376]%Z.
Proof. reflexivity. Qed.
Example runes_invalid : runes (String (ascii_of_N 237) (String (ascii_of_N 160) (String (ascii_of_N 128) "z")))
  = [RuneError; RuneError; RuneError; 122]%Z.
Proof. reflexivity. Qed.
Example fold_kelvin : EqualFold (λ r, if (r =? 8490)%Z then 107%Z else r) "K8S" "k8s" = true.
Proof. reflexivity. Qed.
Example fields_scope : fields "  read:users write:users " = ["read:users"; "write:users"].
Proof. reflexivity. Qed.

(** [utf8.AppendRune] on the runes that decoding and case mapping yield. *)
Definition byte_of (z : Z) : ascii := ascii_of_N (Z.to_N z).
Definition tail_byte (r : Z) (shift : Z) : ascii := byte_of (Z.lor 128 (Z.land (Z.shiftr r shift) 63)).
Definition encode_rune (r : Z) : string :=
  if (r <? 128)%Z then String (byte_of r) ""
  else if (r <? 2048)%Z then String (byte_of (Z.lor 192 (Z.shiftr r 6))) (String (tail_byte r 0) "")
  else if (r <? 65536)%Z
  then String (byte_of (Z.lor 224 (Z.shiftr r 12))) (String (tail_byte r 6) (String (tail_byte r 0) ""))
  else String (byte_of (Z.lor 240 (Z.shiftr r 18)))
         (String (tail_byte r 12) (String (tail_byte r 6) (String (tail_byte r 0) ""))).
Definition encode_runes (rs : list Z) : string := foldr (λ r s, encode_rune r +:+ s) "" rs.

(** [strings.ToLower]; [lower_table] is [unicode.ToLower] above U+007F. *)
Definition lower_rune (lower_table : Z → Z) (r : Z) : Z :=
  if (r <? 128)%Z then if ((65 <=? r) && (r <=? 90))%Z then (r + 32)%Z else r else lower_table r.
Definition ToLower (lower_table : Z → Z) (s : string) : string :=
  encode_runes (lower_rune lower_table <$> runes s).

Example encode_decode : encode_runes (runes "aé€𐍈") = "aé€𐍈".
Proof. reflexivity. Qed.

(** [strings.LastIndex]; [None] is -1. *)
Fixpoint last_index (s sub : string) : option nat :=
  match s with
  | EmptyString => if has_prefix s sub then Some 0 else None
  | String _ r =>
      match last_index r sub with
      | Some i => Some (S i)
      | None => if has_prefix s sub then Some 0 else None
      end
  end.

Lemma last_index_Some s sub i :
  last_index s sub = Some i →
  i ≤ String.length s ∧ has_prefix (str_drop i s) sub = true
  ∧ ∀ j, i < j ≤ String.length s → has_prefix (str_drop j s) sub = false.
Proof.
  revert i. induction s as [|c s IH]; intros i; cbn [last_index].
  - destruct (has_prefix "" sub) eqn:E; [|done]. intros [= <-]. split_and!; [done|done|cbn; lia].
  - assert (last_index s sub = None → ∀ j, j ≤ String.length s → has_prefix (str_drop j s) sub = false) as Hnone.
    { clear IH. induction s as [|d s IH]; cbn [last_index].
      - destruct (has_prefix "" sub) eqn:E; [done|]. intros _ [|j] ?; [done | cbn in *; lia].
      - destruct (last_index s sub); [done|]. destruct (has_prefix (String d s) sub) eqn:E; [done|].
        intros _ [|j] Hj; [done|]. cbn. apply IH; [done | cbn in Hj; lia]. }
    destruct (last_index s sub) as [k|].
    + intros [= <-]. destruct (IH k eq_refl) as (H1 & H2 & H3). cbn [String.length str_drop].
      split_and!; [lia|done|]. intros [|j] Hj; [lia|]. cbn. apply H3. lia.
    + destruct (has_prefix (String c s) sub) eqn:E; [|done]. intros [= <-]. split_and!; [cbn; lia|done|].
      intros [|j] Hj; [lia|]. cbn in *. apply Hnone; [done|lia].
Qed.
Lemma last_index_None s sub j :
  last_index s sub = None → j ≤ String.length s → has_prefix (str_drop j s) sub = false.
Proof.
  revert j. induction s as [|d s IH]; intros j; cbn [last_index].
  - destruct (has_prefix "" sub) eqn:E; [done|]. intros _ ?. destruct j; [done | cbn in *; lia].
  - destruct (last_index s sub); [done|]. destruct (has_prefix (String d s) sub) eqn:E; [done|].
    intros _ Hj. destruct j as [|j]; [done|]. cbn. apply IH; [done | cbn in Hj; lia].
Qed.

(** ASCII text: runes are bytes, and lower-casing is byte by byte. *)
Definition ascii_only : string → bool := all_bytes (byte_in 0 127).
Lemma runes_ascii s : ascii_only s = true → runes s = bval <$> String.list_ascii_of_string s.
Proof.
  induction s as [|c s IH]; [done|]. cbn [ascii_only all_bytes]. intros [Hc Hs]%andb_true_iff.
  cbn [runes String.list_ascii_of_string]. rewrite Hc. cbn. f_equal. by apply IH.
Qed.
Lemma lower_byte_ascii c :
  byte_in 0 127 c = true → encode_rune (lower_rune id (bval c)) = String (lower_byte c) "".
Proof. destruct c as [[] [] [] [] [] [] [] []]; by vm_compute. Qed.
Lemma lower_rune_table t c : byte_in 0 127 c = true → lower_rune t (bval c) = lower_rune id (bval c).
Proof.
  intros Hc. unfold lower_rune. replace (bval c <? 128)%Z with true; [done|].
  symmetry. apply Z.ltb_lt. revert Hc. destruct c as [[] [] [] [] [] [] [] []]; by vm_compute.
Qed.
Lemma ToLower_ascii t s : ascii_only s = true → ToLower t s = to_lower s.
Proof.
  intros Hs. unfold ToLower. rewrite runes_ascii by done. revert Hs.
  induction s as [|c s IH]; [done|]. cbn [ascii_only all_bytes]. intros [Hc Hs]%andb_true_iff.
  cbn [String.list_ascii_of_string fmap list_fmap encode_runes foldr]. rewrite lower_rune_table, lower_byte_ascii by done.
  rewrite str_app_cons, str_app_nil_l. cbn [to_lower str_map]. f_equal. by apply IH.
Qed.
