(* ===== verification/Auth.v ===== *)
(** * Authentication, authorization and audit

    Models src/pkg/runtime/auth.go, identity.go and audit.go: bearer tokens,
    the claim policies, the middlewares that enforce them, client certificates
    and the audit log.  [jwt.Parse] is a parameter; that it verifies signatures
    with the key its callback returns is a named hypothesis.  A handler is a
    function from the request to its operations on the response, the audit
    events emitted meanwhile and what it leaves in the header map of the
    request, which copies made by [WithContext] share. *)

From S2P Require Import Prelude GoStrings Paths Http RequestID Metrics Tenant Unicode.

(** ** Dynamic values: the values of a claim *)

Inductive int_kind := KInt | KInt8 | KInt16 | KInt32 | KInt64 | KUint | KUint8 | KUint16 | KUint32 | KUint64.
Inductive float_kind := KFloat32 | KFloat64.
#[global] Instance int_kind_dec : EqDecision int_kind.
Proof. solve_decision. Defined.
#[global] Instance float_kind_dec : EqDecision float_kind.
Proof. solve_decision. Defined.

(** A [float32] is given by its exact [float64].  A nil slice or map is [None];
    a map is its list of entries. *)
Inductive any :=
  | ANil
  | AString (s : string)
  | ABool (b : bool)
  | AInt (k : int_kind) (z : Z)
  | AFloat (k : float_kind) (f : float64)
  | AStrings (l : option (list string))
  | AList (l : option (list any))
  | AMap (m : option (list (string * any))).

Abbreviation claims := (gmap string any) (only parsing).

Fixpoint assoc {A} (k : string) (m : list (string * A)) : option A :=
  match m with
  | [] => None
  | (k', v) :: m => if String.eqb k k' then Some v else assoc k m
  end.

(** [reflect.DeepEqual] of two values that share no backing store. *)
Fixpoint deep_equal (a b : any) {struct a} : bool :=
  match a, b with
  | ANil, ANil => true
  | AString s, AString t => String.eqb s t
  | ABool x, ABool y => Bool.eqb x y
  | AInt k z, AInt k' z' => bool_decide (k = k') && (z =? z')%Z
  | AFloat k f, AFloat k' f' => bool_decide (k = k') && f64_eqb f f'
  | AStrings l, AStrings l' => bool_decide (l = l')
  | AList None, AList None => true
  | AList (Some l), AList (Some l') =>
      (fix go l l' := match l, l' with
                      | [], [] => true
                      | x :: l, y :: l' => deep_equal x y && go l l'
                      | _, _ => false
                      end) l l'
  | AMap None, AMap None => true
  | AMap (Some m), AMap (Some m') =>
      (length m =? length m')
      && (fix go m := match m with
                      | [] => true
                      | (k, x) :: m => match assoc k m' with
                                       | Some y => deep_equal x y && go m
                                       | None => false
                                       end
                      end) m
  | _, _ => false
  end.

Definition asFloat64 (v : any) : option float64 :=
  match v with
  | AInt _ z => Some (f64_of_int z)
  | AFloat _ f => Some f
  | _ => None
  end.

Definition claimMatches (got want : any) : bool :=
  match got, want with
  | ANil, ANil => true
  | ANil, _ | _, ANil => false
  | _, _ =>
      deep_equal got want
      || match asFloat64 got, asFloat64 want with
         | Some f, Some f' => f64_eqb f f'
         | _, _ => false
         end
  end.

Definition normalizeStringSlice (value : any) : list string :=
  match value with
  | AString v => if String.eqb v "" then [] else fields v
  | AStrings v => default [] v
  | AList v => omap (λ item, match item with AString s => Some s | _ => None end) (default [] v)
  | _ => []
  end.

Definition hasAnyValue (value : any) (expected : list string) : bool :=
  match expected with
  | [] => true
  | _ => existsb (λ want, existsb (λ got, String.eqb got want) (normalizeStringSlice value)) expected
  end.
Definition hasAnyScope (value : any) (expected : list string) : bool :=
  match expected with
  | [] => true
  | _ => existsb (λ want, existsb (λ got, String.eqb got want) (normalizeStringSlice value)) expected
  end.

(** ** Policies *)

Record Policy := mkPolicy {
  Roles : list string;
  Scopes : list string;
  Claims : gmap string any;
  RolesClaim : string;
  ScopesClaim : string;
}.
Definition rolesClaimName (p : Policy) : string :=
  if String.eqb (RolesClaim p) "" then "roles" else RolesClaim p.
Definition scopesClaimName (p : Policy) : string :=
  if String.eqb (ScopesClaim p) "" then "scope" else ScopesClaim p.

(** The loop over the required claims, in the order the map yields them. *)
Fixpoint check_claims (order : list (string * any)) (cs : claims) : result unit :=
  match order with
  | [] => Ok tt
  | (key, want) :: order =>
      match cs !! key with
      | Some got =>
          if negb (claimMatches got want) then Err ("claim " +:+ quote key +:+ " requirement failed")
          else check_claims order cs
      | None => Err ("claim " +:+ quote key +:+ " requirement failed")
      end
  end.

Definition check_roles (p : Policy) (cs : claims) : result unit :=
  match Roles p with
  | [] => Ok tt
  | _ => match cs !! rolesClaimName p with
         | None => Err "missing required role claim"
         | Some roles => if negb (hasAnyValue roles (Roles p)) then Err "role requirement failed" else Ok tt
         end
  end.
Definition check_scopes (p : Policy) (cs : claims) : result unit :=
  match Scopes p with
  | [] => Ok tt
  | _ => match cs !! scopesClaimName p with
         | None => Err "missing required scope claim"
         | Some scopes => if negb (hasAnyScope scopes (Scopes p)) then Err "scope requirement failed" else Ok tt
         end
  end.
Definition Policy_Check (order : list (string * any)) (p : Policy) (cs : claims) : result unit :=
  check check_roles p cs in check check_scopes p cs in check_claims order cs.

Record AccessPolicy := mkAccess { access_Claims : gmap string any }.
Definition access_check (order : list (string * any)) (p : AccessPolicy) (cs : claims) : result unit :=
  check_claims order cs.

(** ** Requests and handlers *)

Record certificate := Certificate {
  Subject_CommonName : string;
  cert_DNSNames : list string;
  cert_URIs : list string;     (* each [u.String()] *)
}.
Record ClientIdentity := mkIdentity {
  CommonName : string;
  DNSNames : list string;
  URIs : list string;
  Cert : certificate;
}.

(** A request with the values of the typed context keys; [peer_certs] is [None]
    when [r.TLS] is nil. *)
Record auth_request := AuthRequest {
  base : request;
  claims_value : option claims;
  identity_value : option ClientIdentity;
  peer_certs : option (list certificate);
}.
Definition with_claims (r : auth_request) (cs : claims) : auth_request :=
  AuthRequest (base r) (Some cs) (identity_value r) (peer_certs r).
Definition with_identity (r : auth_request) (i : ClientIdentity) : auth_request :=
  AuthRequest (base r) (claims_value r) (Some i) (peer_certs r).

Record AuditEvent := mkAudit {
  Timestamp : time;
  Duration : duration;
  audit_Method : string;
  audit_Path : string;
  audit_StatusCode : Z;
  audit_Tenant : string;
  Subject : string;
  audit_RequestID : string;
  RemoteAddr : string;
  UserAgent : string;
}.

(** What a handler does: its response, the audit events it emits, and the
    header map of the request after it. *)
Record effect := Effect { ops : list writer_op; events : list AuditEvent; after : header }.
Definition auth_handler : Type := auth_request → effect.
Definition refuse (r : auth_request) (msg : string) (code : Z) : effect :=
  Effect (http_error msg code) [] (headers (base r)).

Definition ContextClaims (r : option auth_request) : option claims :=
  match r with None => None | Some r => claims_value r end.

(** [claims[k]] of a [map[string]any]. *)
Definition claim (cs : claims) (k : string) : any := default ANil (cs !! k).

Definition RequireRole (role : string) (next : auth_handler) : auth_handler := λ r,
  match ContextClaims (Some r) with
  | None => refuse r "authorization required" 403
  | Some cs =>
      if negb (hasAnyValue (claim cs "roles") [role]) && negb (hasAnyValue (claim cs "role") [role])
      then refuse r "role required" 403
      else next r
  end.

Definition RequirePermission (permission : string) (next : auth_handler) : auth_handler := λ r,
  match ContextClaims (Some r) with
  | None => refuse r "authorization required" 403
  | Some cs =>
      if negb (hasAnyValue (claim cs "permissions") [permission])
         && negb (hasAnyValue (claim cs "scope") [permission])
         && negb (hasAnyValue (claim cs "scopes") [permission])
      then refuse r "permission required" 403
      else next r
  end.

Definition RequireAccess (order : list (string * any)) (policy : AccessPolicy)
    (next : auth_handler) : auth_handler := λ r,
  match ContextClaims (Some r) with
  | None => refuse r "authorization required" 403
  | Some cs =>
      match access_check order policy cs with
      | Err e => refuse r e 403
      | Ok _ => next r
      end
  end.

(** ** Tokens *)

Inductive signing_method := SigningMethodHMAC (alg : string) | OtherMethod (alg : string).
Inductive token_claims := MapClaims (m : claims) | OtherClaims.
Record token := mkToken {
  Method : signing_method;
  header_alg : string;
  token_Claims : token_claims;
  Valid : bool;
}.
Definition keyfunc : Type := token → result string.

(** The callback of [requireJWT]: only HMAC tokens are given the secret. *)
Definition hmac_key (secret : string) : keyfunc := λ t,
  match Method t with
  | SigningMethodHMAC _ => Ok secret
  | OtherMethod _ => Err ("unexpected signing method: " +:+ header_alg t)
  end.

Definition jwtClaimsMap (c : token_claims) : option claims :=
  match c with MapClaims m => Some m | OtherClaims => None end.

Section Tokens.
Context (fold_table : Z → Z).

Definition bearerToken (r : option request) : result string :=
  match r with
  | None => Err "request is nil"
  | Some r =>
      let authorization := header_get (headers r) "Authorization" in
      if String.eqb authorization "" then Err "missing authorization header"
      else match split2 authorization " " with
           | [scheme; rest] =>
               if negb (EqualFold fold_table scheme "Bearer")
               then Err "authorization header must be Bearer <token>"
               else if String.eqb (trim_space rest) "" then Err "bearer token is empty"
               else Ok (trim_space rest)
           | _ => Err "authorization header must be Bearer <token>"
           end
  end.

(** [parseToken] with a nil error returns a token. *)
Definition requireJWT (order : list (string * any)) (secret : string) (policy : Policy)
    (parseToken : string → keyfunc → result token) (next : auth_handler) : auth_handler :=
  if String.eqb secret "" then λ r, refuse r "server misconfiguration: JWT secret not configured" 500
  else λ r,
    match bearerToken (Some (base r)) with
    | Err _ => refuse r "unauthorized" 401
    | Ok tokenString =>
        match parseToken tokenString (hmac_key secret) with
        | Err _ => refuse r "invalid token" 401
        | Ok t =>
            if negb (Valid t) then refuse r "invalid token" 401
            else match jwtClaimsMap (token_Claims t) with
                 | None => refuse r "invalid claims" 401
                 | Some claimMap =>
                     match Policy_Check order policy claimMap with
                     | Err e => refuse r e 403
                     | Ok _ => next (with_claims r claimMap)
                     end
                 end
        end
    end.

(** ** Client certificates *)

Definition ContextClientIdentity (r : option auth_request) : option ClientIdentity :=
  match r with None => None | Some r => identity_value r end.

Definition clientIdentityFromRequest (r : option auth_request) : option ClientIdentity :=
  match r with
  | None => None
  | Some r =>
      match peer_certs r with
      | None | Some [] => None
      | Some (cert :: _) =>
          Some (mkIdentity (Subject_CommonName cert) (cert_DNSNames cert) (cert_URIs cert) cert)
      end
  end.

Record IdentityPolicy := mkIdentityPolicy {
  AllowedCommonNames : list string;
  AllowedDNSNames : list string;
  AllowedURIs : list string;
}.
Definition isEmpty (p : IdentityPolicy) : bool :=
  (length (AllowedCommonNames p) =? 0) && (length (AllowedDNSNames p) =? 0)
  && (length (AllowedURIs p) =? 0).

Definition containsFold (values : list string) (want : string) : bool :=
  if String.eqb want "" then false else existsb (λ v, EqualFold fold_table v want) values.

Definition allows (p : IdentityPolicy) (identity : option ClientIdentity) : bool :=
  if isEmpty p then true
  else match identity with
       | None => false
       | Some i =>
           if (0 <? length (AllowedCommonNames p)) && containsFold (AllowedCommonNames p) (CommonName i)
           then true
           else if (0 <? length (AllowedDNSNames p)) && existsb (containsFold (AllowedDNSNames p)) (DNSNames i)
           then true
           else if (0 <? length (AllowedURIs p)) && existsb (containsFold (AllowedURIs p)) (URIs i)
           then true
           else false
       end.

Definition RequireClientIdentity (policy : IdentityPolicy) (next : auth_handler) : auth_handler := λ r,
  match clientIdentityFromRequest (Some r) with
  | None => refuse r "client certificate required" 401
  | Some identity =>
      if negb (allows policy (Some identity))
      then refuse r ("identity " +:+ quote (CommonName identity) +:+ " is not authorized for this route") 403
      else next (with_identity r identity)
  end.
End Tokens.

(** ** The audit log *)

Definition claim_subject (cs : option claims) : string :=
  match cs with
  | None => ""
  | Some cs =>
      let subject := match claim cs "sub" with AString v => v | _ => "" end in
      if String.eqb subject "" then match claim cs "user_id" with AString v => v | _ => "" end
      else subject
  end.

(** [enabled] says that the callback is not nil; [start], [since] and [stamp] are
    the readings of the clock before the handler, for the duration and for the
    timestamp. *)
Definition AuditLogger (enabled : bool) (start since stamp : time) (next : auth_handler) : auth_handler :=
  if negb enabled then next
  else λ r,
    let e := next r in
    let r' := with_headers (base r) (after e) in
    let tenant := ContextTenant (Some r') in
    let tenant := if String.eqb tenant "" then trim_space (header_get (headers r') "X-Tenant-ID")
                  else tenant in
    Effect (ops e)
      (events e ++ [mkAudit stamp (since - start) (method r') (normalizePath (url_path r'))
                      (recorded_status (ops e)) tenant (claim_subject (ContextClaims (Some r)))
                      (RequestIDFromRequest (Some r')) (remote_addr r')
                      (header_get (headers r') "User-Agent")])
      (after e).

(** The middleware of [Server.WithRequestID] over these handlers. *)
Definition with_base (r : auth_request) (b : request) : auth_request :=
  AuthRequest b (claims_value r) (identity_value r) (peer_certs r).
Definition id_middleware (random : option string) (timestamp : string) (next : auth_handler) : auth_handler :=
  λ r,
    let '(id, r') := ensureRequestID random timestamp (Some (base r)) in
    let e := next (with_base r (with_ctx (default (base r) r') request_id_key id)) in
    Effect ([OpSet "X-Request-ID" id; OpSet "X-Correlation-ID" id; OpSet "X-Trace-ID" id] ++ ops e)
      (events e) (after e).

(** ** Specification *)

(** Some required value is among the values of the claim. *)
Definition offers (cs : claims) (name : string) (required : list string) : Prop :=
  ∃ v want, cs !! name = Some v ∧ want ∈ required ∧ want ∈ normalizeStringSlice v.
Definition required_claims_hold (required cs : claims) : Prop :=
  ∀ key want, required !! key = Some want →
    ∃ got, cs !! key = Some got ∧ claimMatches got want = true.
Definition satisfies (p : Policy) (cs : claims) : Prop :=
  (Roles p = [] ∨ offers cs (rolesClaimName p) (Roles p))
  ∧ (Scopes p = [] ∨ offers cs (scopesClaimName p) (Scopes p))
  ∧ required_claims_hold (Claims p) cs.
(** [order] is an order in which the map of required claims may be ranged over. *)
Definition ranges (order : list (string * any)) (m : claims) : Prop := order ≡ₚ map_to_list m.

(** ** Lemmas *)

Lemma ranges_empty : ranges [] ∅.
Proof. unfold ranges. by rewrite map_to_list_empty. Qed.

Lemma hasAnyValue_iff v expected :
  hasAnyValue v expected = true ↔
  expected = [] ∨ ∃ want, want ∈ expected ∧ want ∈ normalizeStringSlice v.
Proof.
  destruct expected as [|x l]; [by split; [left|]|].
  unfold hasAnyValue. rewrite existsb_exists. setoid_rewrite existsb_exists.
  setoid_rewrite String.eqb_eq. setoid_rewrite <- list_elem_of_In. split.
  - intros (w & Hw & g & Hg & ->). right. by exists w.
  - intros [|(w & Hw & Hv)]; [done|]. exists w. split; [done|]. by exists w.
Qed.
Lemma hasAnyScope_value v expected : hasAnyScope v expected = hasAnyValue v expected.
Proof. done. Qed.

Lemma check_claims_ok order m cs :
  ranges order m → check_claims order cs = Ok tt ↔ required_claims_hold m cs.
Proof.
  intros Hr. transitivity (∀ key want, (key, want) ∈ order →
    ∃ got, cs !! key = Some got ∧ claimMatches got want = true).
  - clear Hr. induction order as [|[k w] order IH]; cbn [check_claims].
    { split; [by intros _ ? ? ?%elem_of_nil | done]. }
    destruct (cs !! k) as [g|] eqn:Eg.
    + destruct (claimMatches g w) eqn:Em; cbn [negb].
      * rewrite IH. split; intros H k' w'; [|intros; apply H; by right].
        intros [[= -> ->]|]%elem_of_cons; [by exists g | by apply H].
      * split; [done|]. intros H. destruct (H k w) as (g' & Hg & Hm); [by left|]. congruence.
    + split; [done|]. intros H. destruct (H k w) as (g' & Hg & Hm); [by left|]. congruence.
  - unfold required_claims_hold. setoid_rewrite Hr. by setoid_rewrite elem_of_map_to_list.
Qed.
Lemma check_claims_error order m cs e :
  ranges order m → check_claims order cs = Err e →
  ∃ key want, m !! key = Some want ∧ e = "claim " +:+ quote key +:+ " requirement failed"
    ∧ ¬ ∃ got, cs !! key = Some got ∧ claimMatches got want = true.
Proof.
  intros Hr Hc. enough (∃ key want, (key, want) ∈ order
    ∧ e = "claim " +:+ quote key +:+ " requirement failed"
    ∧ ¬ ∃ got, cs !! key = Some got ∧ claimMatches got want = true) as (k & w & Hin & H).
  { exists k, w. split; [|done]. apply elem_of_map_to_list. by rewrite <- Hr. }
  clear Hr. induction order as [|[k w] order IH]; [done|]. cbn [check_claims] in Hc.
  assert ((∃ k' w', (k', w') ∈ order ∧ e = "claim " +:+ quote k' +:+ " requirement failed"
    ∧ ¬ ∃ got, cs !! k' = Some got ∧ claimMatches got w' = true)
    ∨ (e = "claim " +:+ quote k +:+ " requirement failed"
       ∧ ¬ ∃ got, cs !! k = Some got ∧ claimMatches got w = true)) as [(k' & w' & Hin & H)|H].
  - destruct (cs !! k) as [g|] eqn:Eg; [destruct (claimMatches g w) eqn:Em|]; cbn [negb] in Hc.
    + left. by apply IH.
    + right. injection Hc as <-. split; [done|]. intros (g' & ? & ?). congruence.
    + right. injection Hc as <-. split; [done|]. by intros (g' & ? & ?).
  - exists k', w'. split; [by right | done].
  - exists k, w. split; [by left | done].
Qed.

Lemma offers_iff cs name required :
  required ≠ [] →
  offers cs name required ↔ ∃ v, cs !! name = Some v ∧ hasAnyValue v required = true.
Proof. intros Hne. unfold offers. setoid_rewrite hasAnyValue_iff. naive_solver. Qed.
Lemma check_roles_ok p cs :
  check_roles p cs = Ok tt ↔ Roles p = [] ∨ offers cs (rolesClaimName p) (Roles p).
Proof.
  unfold check_roles. destruct (Roles p) as [|r rs]; [by split; [left|]|].
  rewrite offers_iff by done. destruct (cs !! _) as [v|]; [|naive_solver].
  destruct (hasAnyValue v (r :: rs)) eqn:E; naive_solver congruence.
Qed.
Lemma check_scopes_ok p cs :
  check_scopes p cs = Ok tt ↔ Scopes p = [] ∨ offers cs (scopesClaimName p) (Scopes p).
Proof.
  unfold check_scopes. destruct (Scopes p) as [|r rs]; [by split; [left|]|].
  rewrite offers_iff by done. destruct (cs !! _) as [v|]; [|naive_solver].
  rewrite hasAnyScope_value. destruct (hasAnyValue v (r :: rs)) eqn:E; naive_solver congruence.
Qed.
Lemma Policy_Check_ok order p cs :
  ranges order (Claims p) → Policy_Check order p cs = Ok tt ↔ satisfies p cs.
Proof.
  intros Hr. unfold Policy_Check, satisfies. rewrite <- check_roles_ok, <- check_scopes_ok.
  rewrite <- (check_claims_ok order) by done.
  destruct (check_roles p cs) as [[]|]; cbn [res_bind]; [|naive_solver].
  destruct (check_scopes p cs) as [[]|]; cbn [res_bind]; naive_solver.
Qed.

(** What a token that is let through went through. *)
Definition admitted_by (fold_table : Z → Z) (parseToken : string → keyfunc → result token)
    (secret : string) (policy : Policy) (r : auth_request) (tokenString : string) (t : token)
    (cs : claims) : Prop :=
  secret ≠ "" ∧ bearerToken fold_table (Some (base r)) = Ok tokenString
  ∧ parseToken tokenString (hmac_key secret) = Ok t ∧ Valid t = true
  ∧ token_Claims t = MapClaims cs ∧ satisfies policy cs.

Section TokenLemmas.
Context (fold_table : Z → Z) (order : list (string * any)) (secret : string) (policy : Policy)
  (parseToken : string → keyfunc → result token) (Hranges : ranges order (Claims policy)).
Local Abbreviation jwt := (requireJWT fold_table order secret policy parseToken).

Lemma requireJWT_admits next r s t cs :
  admitted_by fold_table parseToken secret policy r s t cs → jwt next r = next (with_claims r cs).
Proof using Hranges.
  intros (Hs & Hb & Hp & Hv & Hc & Hsat). unfold requireJWT.
  rewrite (proj2 (String.eqb_neq _ _) Hs), Hb, Hp, Hv, Hc. cbn [negb jwtClaimsMap].
  by rewrite (proj2 (Policy_Check_ok _ _ _ Hranges) Hsat).
Qed.

Lemma requireJWT_cases r :
  (∃ s t cs, admitted_by fold_table parseToken secret policy r s t cs)
  ∨ (∃ msg code, code ∈ [401; 403; 500]%Z ∧ (∀ next, jwt next r = refuse r msg code)
       ∧ ¬ ∃ s t cs, admitted_by fold_table parseToken secret policy r s t cs).
Proof using Hranges.
  unfold admitted_by, requireJWT. destruct (String.eqb_spec secret "") as [|Hs].
  { right. do 2 eexists. split_and!; [|done|naive_solver]. set_solver. }
  destruct (bearerToken _ _) as [s|e].
  2: { right. do 2 eexists. split_and!; [|done|naive_solver]. set_solver. }
  destruct (parseToken s _) as [t|e] eqn:Ep.
  2: { right. do 2 eexists. split_and!; [|done|naive_solver congruence]. set_solver. }
  destruct (Valid t) eqn:Ev; cbn [negb].
  2: { right. do 2 eexists. split_and!; [|done|naive_solver congruence]. set_solver. }
  destruct (token_Claims t) as [cs|] eqn:Ec; cbn [jwtClaimsMap].
  2: { right. do 2 eexists. split_and!; [|done|naive_solver congruence]. set_solver. }
  destruct (Policy_Check order policy cs) as [[]|e] eqn:Ek.
  - left. exists s, t, cs. split_and!; try done. by apply (Policy_Check_ok order).
  - right. do 2 eexists. split_and!; [|done|]; [set_solver|].
    intros (s' & t' & cs' & _ & [= <-] & Hp & _ & Hc & Hsat).
    rewrite Ep in Hp. injection Hp as <-. rewrite Ec in Hc. injection Hc as <-.
    apply (Policy_Check_ok order) in Hsat; [congruence | done].
Qed.
End TokenLemmas.

(** ** Properties: tokens *)

(** C3 : a request passes the JWT middleware exactly when a secret is set and
    its bearer token parses as a valid token whose claim map satisfies the
    policy; the handler then sees that claim map, and, since the parser verifies
    with the key it is given, the token was signed with the secret by an HMAC
    method (no other algorithm can be substituted).  Every other request is
    refused with 401, 403 or 500 whatever the handler does. *)
Theorem jwt_gate fold_table order secret policy parseToken
    (signed : string → signing_method → string → Prop) r :
  ranges order (Claims policy) →
  (∀ s kf t, parseToken s kf = Ok t → Valid t = true →
    ∃ key, kf (mkToken (Method t) (header_alg t) (token_Claims t) false) = Ok key ∧ signed s (Method t) key) →
  (∃ s t cs alg, admitted_by fold_table parseToken secret policy r s t cs
     ∧ Method t = SigningMethodHMAC alg ∧ signed s (Method t) secret
     ∧ ContextClaims (Some (with_claims r cs)) = Some cs
     ∧ ∀ next, requireJWT fold_table order secret policy parseToken next r = next (with_claims r cs))
  ∨ (∃ msg code, code ∈ [401; 403; 500]%Z
       ∧ (∀ next, requireJWT fold_table order secret policy parseToken next r = refuse r msg code)
       ∧ ¬ ∃ s t cs, admitted_by fold_table parseToken secret policy r s t cs).
Proof.
  intros Hr Hparse.
  destruct (requireJWT_cases fold_table order secret policy parseToken Hr r)
    as [(s & t & cs & Ha)|?]; [left | by right].
  assert (∃ alg, Method t = SigningMethodHMAC alg ∧ signed s (Method t) secret) as (alg & Hm & Hs).
  { destruct Ha as (_ & _ & Hp & Hv & _). destruct (Hparse _ _ _ Hp Hv) as (key & Hk & Hs).
    unfold hmac_key in Hk. cbn [Method] in Hk. destruct (Method t); naive_solver. }
  exists s, t, cs, alg. split_and!; try done. intros next. by eapply requireJWT_admits.
Qed.

(** A policy accepts a claim map exactly when some required role is
    offered, some required scope is offered and every required claim matches,
    in whatever order the map of required claims is ranged over; a refusal
    names what is missing. *)
Theorem policy_check_exact order p cs :
  ranges order (Claims p) →
  (Policy_Check order p cs = Ok tt ↔ satisfies p cs)
  ∧ ∀ e, Policy_Check order p cs = Err e →
      (e = "missing required role claim" ∧ cs !! rolesClaimName p = None)
      ∨ (e = "role requirement failed" ∧ ¬ offers cs (rolesClaimName p) (Roles p))
      ∨ (e = "missing required scope claim" ∧ cs !! scopesClaimName p = None)
      ∨ (e = "scope requirement failed" ∧ ¬ offers cs (scopesClaimName p) (Scopes p))
      ∨ ∃ key want, Claims p !! key = Some want
          ∧ e = "claim " +:+ quote key +:+ " requirement failed"
          ∧ ¬ ∃ got, cs !! key = Some got ∧ claimMatches got want = true.
Proof.
  intros Hr. split; [by apply Policy_Check_ok|]. intros e. unfold Policy_Check.
  destruct (check_roles p cs) as [[]|e'] eqn:E1; cbn [res_bind]; [destruct (check_scopes p cs) as [[]|e'] eqn:E2|].
  - intros Hc. do 4 right. by eapply check_claims_error.
  - cbn [res_bind]. intros [= ->]. unfold check_scopes in E2. destruct (Scopes p) as [|s l]; [done|].
    destruct (cs !! scopesClaimName p) as [v|] eqn:Ev; [|naive_solver].
    rewrite hasAnyScope_value in E2. destruct (hasAnyValue v (s :: l)) eqn:Eh; cbn [negb] in E2; [done|].
    injection E2 as <-. do 3 right. left. split; [done|]. rewrite offers_iff by done. naive_solver congruence.
  - intros [= ->]. unfold check_roles in E1. destruct (Roles p) as [|s l]; [done|].
    destruct (cs !! rolesClaimName p) as [v|] eqn:Ev; [|naive_solver].
    destruct (hasAnyValue v (s :: l)) eqn:Eh; cbn [negb] in E1; [done|].
    injection E1 as <-. right. left. split; [done|]. rewrite offers_iff by done. naive_solver congruence.
Qed.

(** A parser for the witnesses: the token text is its claims, signed with its
    last word by HS256. *)
Definition demo_parse (s : string) (kf : keyfunc) : result token :=
  match fields s with
  | [sub; role; sig] =>
      let t := mkToken (SigningMethodHMAC "HS256") "HS256"
                 (MapClaims (<["sub" := AString sub]> {["roles" := AList (Some [AString role])]})) false in
      match kf t with
      | Ok key => if String.eqb key sig then Ok (mkToken (Method t) (header_alg t) (token_Claims t) true)
                  else Err "signature is invalid"
      | Err e => Err e
      end
  | _ => Err "token is malformed"
  end.
Definition demo_signed (s : string) (m : signing_method) (key : string) : Prop :=
  ∃ sub role, fields s = [sub; role; key].
Definition demo_policy : Policy := mkPolicy ["admin"; "ops"] [] ∅ "" "".
Definition demo_auth (token : string) : auth_request :=
  AuthRequest (Request "GET" "http" "api" "/" "api" {["Authorization" := ["bearer  " +:+ token]]} "" ∅ None)
    None None None.
Definition echo_subject : auth_handler := λ r,
  Effect [OpWrite (claim_subject (claims_value r))] [] (headers (base r)).

Lemma demo_parse_verifies s kf t :
  demo_parse s kf = Ok t → Valid t = true →
  ∃ key, kf (mkToken (Method t) (header_alg t) (token_Claims t) false) = Ok key ∧ demo_signed s (Method t) key.
Proof.
  unfold demo_parse, demo_signed.
  destruct (fields s) as [|sub [|role [|sig [|]]]]; try done.
  set (t0 := mkToken _ _ _ _). destruct (kf t0) as [key|] eqn:Ek; [|done].
  destruct (String.eqb_spec key sig) as [->|]; [|done].
  intros [= <-] _. exists sig. split; [exact Ek | by exists sub, role].
Qed.

Lemma jwt_gate_witness :
  (requireJWT id [] "s3cret" demo_policy demo_parse echo_subject (demo_auth "ann ops s3cret"))
    = Effect [OpWrite "ann"] [] (headers (base (demo_auth "ann ops s3cret")))
  ∧ ops (requireJWT id [] "s3cret" demo_policy demo_parse echo_subject (demo_auth "eve ops guess"))
    = http_error "invalid token" 401.
Proof.
  pose proof (jwt_gate id [] "s3cret" demo_policy demo_parse demo_signed (demo_auth "ann ops s3cret")
    ranges_empty demo_parse_verifies) as [(s & t & cs & alg & _ & _ & _ & _ & Hn)|(msg & code & _ & Hn & _)].
  - split; by vm_compute.
  - specialize (Hn (λ _, Effect [] [] ∅)). by vm_compute in Hn.
Defined.

Lemma policy_check_exact_witness :
  Policy_Check [] demo_policy {["roles" := AString "viewer ops"]} = Ok tt
  ∧ ¬ satisfies demo_policy {["role" := AString "ops"]}.
Proof.
  destruct (policy_check_exact [] demo_policy {["role" := AString "ops"]} ranges_empty) as [Hc _].
  split; [by vm_compute|]. intros Hs. apply Hc in Hs. by vm_compute in Hs.
Defined.

(** ** Properties: authorization *)

(** One of the claims [names] lists the value. *)
Definition holds (cs : claims) (names : list string) (value : string) : Prop :=
  ∃ name, name ∈ names ∧ value ∈ normalizeStringSlice (claim cs name).

Lemma hasAnyValue_one v x : hasAnyValue v [x] = true ↔ x ∈ normalizeStringSlice v.
Proof.
  rewrite hasAnyValue_iff. split; [|right; exists x; split; [by left | done]].
  intros [|(w & ->%list_elem_of_singleton & Hw)]; done.
Qed.
Lemma holds_cons cs name names v :
  holds cs (name :: names) v ↔ v ∈ normalizeStringSlice (claim cs name) ∨ holds cs names v.
Proof. unfold holds. setoid_rewrite elem_of_cons. naive_solver. Qed.
Lemma holds_nil cs v : ¬ holds cs [] v.
Proof. intros (? & ?%elem_of_nil & _). done. Qed.

(** The role, permission and attribute middlewares run the handler exactly
    on requests whose validated claims hold the role, hold the permission or
    match every required claim; all others, and every request without claims,
    are refused with 403. *)
Theorem authorization_exact role permission order access next r :
  ranges order (access_Claims access) →
  match claims_value r with
  | None =>
      let no := refuse r "authorization required" 403 in
      RequireRole role next r = no ∧ RequirePermission permission next r = no
      ∧ RequireAccess order access next r = no
  | Some cs =>
      (holds cs ["roles"; "role"] role ∧ RequireRole role next r = next r
       ∨ ¬ holds cs ["roles"; "role"] role ∧ RequireRole role next r = refuse r "role required" 403)
      ∧ (holds cs ["permissions"; "scope"; "scopes"] permission
           ∧ RequirePermission permission next r = next r
         ∨ ¬ holds cs ["permissions"; "scope"; "scopes"] permission
           ∧ RequirePermission permission next r = refuse r "permission required" 403)
      ∧ (required_claims_hold (access_Claims access) cs ∧ RequireAccess order access next r = next r
         ∨ ¬ required_claims_hold (access_Claims access) cs
           ∧ ∃ msg, RequireAccess order access next r = refuse r msg 403)
  end.
Proof.
  intros Hr. unfold RequireRole, RequirePermission, RequireAccess, access_check, ContextClaims.
  destruct (claims_value r) as [cs|]; [|done].
  rewrite !holds_cons, <- !hasAnyValue_one. split_and!.
  - do 2 destruct (hasAnyValue _ _); cbn [negb andb]; pose proof (holds_nil cs role); naive_solver.
  - do 3 destruct (hasAnyValue _ _); cbn [negb andb]; pose proof (holds_nil cs permission); naive_solver.
  - rewrite <- (check_claims_ok order) by done. destruct (check_claims order cs) as [[]|e]; [by left|].
    right. split; [done | by exists e].
Qed.
Lemma authorization_exact_witness :
  ops (RequireRole "ops" echo_subject (with_claims (demo_auth "") {["role" := AString "dev ops"]}))
  = [OpWrite ""].
Proof.
  pose proof (authorization_exact "ops" "" [] (mkAccess ∅) echo_subject
    (with_claims (demo_auth "") {["role" := AString "dev ops"]}) ranges_empty) as [[[_ ->]|[Hn _]] _].
  - done.
  - exfalso. apply Hn. exists "role". split; [set_solver|]. vm_compute. set_solver.
Defined.

(** ** Properties: client certificates *)

(** A name of the certificate that the policy lists, in the list of its kind. *)
Definition listed (fold_table : Z → Z) (allowed presented : list string) : Prop :=
  ∃ a p, a ∈ allowed ∧ p ∈ presented ∧ p ≠ "" ∧ EqualFold fold_table a p = true.
Definition permitted (fold_table : Z → Z) (p : IdentityPolicy) (i : ClientIdentity) : Prop :=
  (AllowedCommonNames p = [] ∧ AllowedDNSNames p = [] ∧ AllowedURIs p = [])
  ∨ listed fold_table (AllowedCommonNames p) [CommonName i]
  ∨ listed fold_table (AllowedDNSNames p) (DNSNames i)
  ∨ listed fold_table (AllowedURIs p) (URIs i).

Lemma containsFold_iff fold_table values want :
  containsFold fold_table values want = true
  ↔ want ≠ "" ∧ ∃ v, v ∈ values ∧ EqualFold fold_table v want = true.
Proof.
  unfold containsFold. destruct (String.eqb_spec want "") as [|Hne]; [naive_solver|].
  rewrite existsb_exists. setoid_rewrite <- list_elem_of_In. naive_solver.
Qed.
Lemma listed_iff fold_table allowed presented :
  (0 <? length allowed) && existsb (containsFold fold_table allowed) presented = true
  ↔ listed fold_table allowed presented.
Proof.
  rewrite andb_true_iff, existsb_exists. setoid_rewrite containsFold_iff.
  setoid_rewrite <- list_elem_of_In. unfold listed. split; [naive_solver|].
  intros (a & p & Ha & Hp & Hne & He). split; [|by exists p; eauto].
  destruct allowed; [by apply elem_of_nil in Ha | done].
Qed.
Lemma allows_iff fold_table p i : allows fold_table p (Some i) = true ↔ permitted fold_table p i.
Proof.
  unfold allows, permitted. rewrite <- !listed_iff. cbn [existsb]. rewrite orb_false_r.
  assert (isEmpty p = true ↔ AllowedCommonNames p = [] ∧ AllowedDNSNames p = [] ∧ AllowedURIs p = []) as He.
  { unfold isEmpty. rewrite !andb_true_iff, !Nat.eqb_eq, !length_zero_iff_nil. tauto. }
  rewrite <- He. destruct (isEmpty p); [tauto|].
  repeat case_match; naive_solver.
Qed.

(** Behind the client-certificate middleware the handler runs exactly
    when a certificate was presented and the policy is empty or lists one of its
    non-empty names under the list of that kind, and then it sees the identity of
    the first certificate; otherwise the answer is 401 or 403. *)
Theorem identity_gate fold_table policy next r :
  match default [] (peer_certs r) with
  | [] => RequireClientIdentity fold_table policy next r = refuse r "client certificate required" 401
  | cert :: _ =>
      let i := mkIdentity (Subject_CommonName cert) (cert_DNSNames cert) (cert_URIs cert) cert in
      (permitted fold_table policy i
        ∧ ContextClientIdentity (Some (with_identity r i)) = Some i
        ∧ RequireClientIdentity fold_table policy next r = next (with_identity r i))
      ∨ (¬ permitted fold_table policy i
        ∧ ∃ msg, RequireClientIdentity fold_table policy next r = refuse r msg 403)
  end.
Proof.
  unfold RequireClientIdentity, clientIdentityFromRequest.
  destruct (peer_certs r) as [[|cert certs]|]; cbn [default from_option id]; [done| |done].
  set (i := mkIdentity _ _ _ _). rewrite <- allows_iff.
  destruct (allows fold_table policy (Some i)); cbn [negb]; [by left|].
  right. split; [done|]. by eexists.
Qed.

(** ** Properties: the audit log *)

Definition last_event (e : effect) : option AuditEvent := last (events e).

Lemma AuditLogger_event start since stamp next r :
  let e := AuditLogger true start since stamp next r in
  ops e = ops (next r)
  ∧ ∃ ev, events e = events (next r) ++ [ev]
      ∧ Subject ev = claim_subject (claims_value r)
      ∧ audit_StatusCode ev = recorded_status (ops (next r))
      ∧ Duration ev = (since - start)%Z
      ∧ audit_RequestID ev = RequestIDFromRequest (Some (with_headers (base r) (after (next r)))).
Proof. split; [done|]. by eexists. Qed.

(** The ID the middleware sends is the one found in the shared header map. *)
Lemma audited_id random ts r b h :
  random = Some b →
  (∀ k, k ∈ id_headers → header_get h k =
     header_get (headers (default r (ensureRequestID random ts (Some r)).2)) k) →
  (RequestIDFromRequest (Some r) ≠ "" ∨ ∃ k, k ∈ id_headers ∧ header_get (headers r) k = "") →
  RequestIDFromRequest (Some (with_headers r h)) = (ensureRequestID random ts (Some r)).1.
Proof.
  intros Hb Hh Hsome. unfold ensureRequestID in *.
  destruct (decide (RequestIDFromRequest (Some r) ≠ "")) as [Hne|He]; cbn [fst snd default from_option id headers with_headers] in *.
  - unfold RequestIDFromRequest. cbn [on_recv ctx_strings headers with_headers].
    assert ((λ k, trim_space (header_get h k)) <$> id_headers
            = (λ k, trim_space (header_get (headers r) k)) <$> id_headers) as ->; [|done].
    apply list_fmap_ext. intros i k Hk. f_equal. apply Hh. by eapply list_elem_of_lookup_2.
  - apply dec_stable in He. destruct Hsome as [|(k0 & Hk0 & Hempty)]; [done|].
    set (nid := newRequestID random ts) in *.
    assert (trim_space nid = nid) as Htrim by (unfold nid; rewrite Hb; apply plain_trim, newRequestID_plain).
    assert (first_nonempty ((λ k, trim_space (header_get (headers r) k)) <$> id_headers) = "") as Hfirst.
    { unfold RequestIDFromRequest in He. cbn [on_recv] in He. repeat case_match; congruence. }
    assert (first_nonempty ((λ k, trim_space (header_get h k)) <$> id_headers) = nid) as Hnew.
    { apply first_nonempty_all; [apply newRequestID_nonempty| |].
      - apply list_elem_of_fmap. exists k0. split; [|done].
        rewrite Hh, fill_headers_get, decide_True by done. by rewrite Htrim.
      - intros s (k & -> & Hk)%list_elem_of_fmap. rewrite Hh, fill_headers_get by done.
        case_decide; [by left|]. right. eapply first_nonempty_empty; [exact Hfirst|].
        apply list_elem_of_fmap. by exists k. }
    unfold RequestIDFromRequest. cbn [on_recv ctx_strings headers with_headers]. rewrite Hnew.
    unfold RequestIDFromRequest in He. cbn [on_recv] in He. by repeat case_match.
Qed.

(** An audit log outside the request-ID middleware records the very ID the
    client receives, although it only reads the request it passed on: the
    middleware stores the new ID in the header map that both requests share.
    Required: the random source works, the handler leaves the three ID headers
    alone, and the request does not come with all three blank but not empty. *)
Theorem audit_correlated b ts start since stamp next r :
  let chain := AuditLogger true start since stamp (id_middleware (Some b) ts next) in
  (∀ r' k, k ∈ id_headers → header_get (after (next r')) k = header_get (headers (base r')) k) →
  (RequestIDFromRequest (Some (base r)) ≠ "" ∨ ∃ k, k ∈ id_headers ∧ header_get (headers (base r)) k = "") →
  ∃ ev rest, last_event (chain r) = Some ev ∧ audit_RequestID ev ≠ ""
    ∧ ops (chain r) = OpSet "X-Request-ID" (audit_RequestID ev) :: rest
    ∧ audit_StatusCode ev = recorded_status (ops (chain r)).
Proof.
  intros chain Hnext Hsome.
  destruct (AuditLogger_event start since stamp (id_middleware (Some b) ts next) r)
    as (Hops & ev & Hev & _ & Hst & _ & Hid).
  pose proof (ensureRequestID_nonempty (Some b) ts (base r)) as Hne.
  assert (audit_RequestID ev = (ensureRequestID (Some b) ts (Some (base r))).1) as Hid'.
  { rewrite Hid. eapply audited_id; [done| |done]. intros k Hk. unfold id_middleware.
    destruct (ensureRequestID (Some b) ts (Some (base r))) as [i r']. cbn [after]. by rewrite Hnext. }
  exists ev, (tail (ops (chain r))). unfold chain, last_event. rewrite Hev, last_snoc, Hops, Hst, Hid'. split_and!; try done.
  unfold id_middleware. by destruct (ensureRequestID (Some b) ts (Some (base r))) as [i r'].
Qed.
Lemma audit_correlated_witness :
  let r := demo_auth "" in
  let chain := AuditLogger true 0 1 1 (id_middleware (Some "k") "" echo_subject) in
  (audit_RequestID <$> last_event (chain r)) = Some "fgoths-6b"
  ∧ ∃ ev rest, last_event (chain r) = Some ev ∧ audit_RequestID ev ≠ ""
      ∧ ops (chain r) = OpSet "X-Request-ID" (audit_RequestID ev) :: rest
      ∧ audit_StatusCode ev = recorded_status (ops (chain r)).
Proof.
  split; [by vm_compute|]. apply (audit_correlated "k" "" 0 1 1 echo_subject (demo_auth "")); [done|].
  right. exists "X-Trace-ID". split; [set_solver | by vm_compute].
Defined.

(** The subject of an audit event is that of the claims in the context of
    the request the log was given.  Placed around the JWT middleware it is
    empty for every request, authenticated or not, since the claims go into a
    copy of the request; placed inside it is the subject of the token. *)
Theorem audit_subject_position fold_table order secret policy parseToken start since stamp next r :
  ranges order (Claims policy) → claims_value r = None →
  let jwt := requireJWT fold_table order secret policy parseToken in
  let audit := AuditLogger true start since stamp in
  (∃ ev, last_event (audit (jwt next) r) = Some ev ∧ Subject ev = "")
  ∧ ∀ s t cs, admitted_by fold_table parseToken secret policy r s t cs →
      ∃ ev, last_event (jwt (audit next) r) = Some ev ∧ Subject ev = claim_subject (Some cs).
Proof.
  intros Hr Hnone jwt audit. unfold last_event. split.
  - destruct (AuditLogger_event start since stamp (jwt next) r) as (_ & ev & Hev & Hs & _).
    exists ev. unfold audit. rewrite Hev, last_snoc, Hs, Hnone. done.
  - intros s t cs Ha. unfold jwt. rewrite (requireJWT_admits fold_table order secret policy parseToken Hr _ _ _ _ _ Ha).
    destruct (AuditLogger_event start since stamp next (with_claims r cs)) as (_ & ev & Hev & Hs & _).
    exists ev. unfold audit. by rewrite Hev, last_snoc, Hs.
Qed.
Lemma audit_subject_position_witness :
  let jwt := requireJWT id [] "k" demo_policy demo_parse in
  let audit := AuditLogger true 0 1 1 in
  (Subject <$> last_event (audit (jwt echo_subject) (demo_auth "ann ops k"))) = Some ""
  ∧ (Subject <$> last_event (jwt (audit echo_subject) (demo_auth "ann ops k"))) = Some "ann".
Proof.
  destruct (audit_subject_position id [] "k" demo_policy demo_parse 0 1 1 echo_subject
    (demo_auth "ann ops k") ranges_empty eq_refl) as [(ev & Hl & Hs) _].
  split; [|by vm_compute]. rewrite Hl. cbn. by rewrite Hs.
Defined.

(** Claims are compared as [float64]: above 2^53 distinct integers match. *)
Lemma large_claims_conflated :
  claimMatches (AInt KInt64 9007199254740993) (AInt KInt64 9007199254740992) = true
  ∧ 9007199254740993%Z ≠ 9007199254740992%Z.
Proof. split; [by vm_compute | done]. Qed.
