(* ===== verification/Registry.v ===== *)
(** * The route registry

    Models [RouteRegistry] of src/pkg/runtime: config_registry.go, upstream.go,
    region.go, tenant_registry.go, its rollout methods in rollout.go, and
    [SLOPolicy] of governance.go.  The registry's maps are [gmap]s; where the
    code iterates a map, the order of its values is an argument.  [url.Parse]'s
    verdict is the parameter [url_ok], [rand.Intn] the parameter [intn]. *)

From S2P Require Import Prelude GoStrings Paths Rollout.
From S2P Require Proxy.

Record SLOPolicy := mkSLO {
  ErrorRateThreshold : float64; LatencyThresholdMS : Z; BurnRateLimit : float64;
}.
#[export] Instance SLOPolicy_dec : EqDecision SLOPolicy.
Proof. solve_decision. Defined.

Definition NewSLOPolicy (rate : float64) (latency : Z) (burn : float64) : SLOPolicy :=
  mkSLO (if f64_leb rate f64_zero then f64_lit 5 100 else rate)
    (if (latency <=? 0)%Z then 250%Z else latency)
    (if f64_leb burn f64_zero then f64_lit 2 100 else burn).
Definition default_slo : SLOPolicy := NewSLOPolicy (f64_lit 5 100) 250 (f64_lit 2 100).

Record RouteConfig := mkRoute {
  rt_Name : string; rt_Method : string; rt_Path : string; rt_Target : string;
  rt_Upstream : string; rt_Weight : Z; rt_Tenant : string; rt_Enabled : bool;
  rt_Header : list (string * string);
}.
Record UpstreamConfig := mkUpstream {
  up_Name : string; up_Target : string; Fallback : string; Services : list string;
  up_Weight : Z; up_Enabled : bool; up_Healthy : bool;
}.
Record RegionConfig := mkRegion {
  rg_Name : string; rg_Region : string; rg_Target : string; rg_Weight : Z;
  rg_Enabled : bool; Primary : bool; rg_Healthy : bool;
}.
Record TenantConfig := mkTenant {
  tn_Name : string; AllowedRoutes : list string; tn_AllowedRegions : list string;
  tn_Enabled : bool;
}.
Record RoutePolicy := mkPolicy {
  pl_Name : string; pl_Environment : string; pl_Service : string;
  AllowedTenants : list string; AllowedRegions : list string;
  RequireSignedArtifacts : bool; RequireAudit : bool; SLO : option SLOPolicy;
}.
#[export] Instance RoutePolicy_dec : EqDecision RoutePolicy.
Proof. solve_decision. Defined.

Record RouteRegistry := mkRegistry {
  routes : gmap string RouteConfig;
  rollouts : gmap string RolloutConfig;
  regions : gmap string RegionConfig;
  tenants : gmap string TenantConfig;
  policies : gmap string RoutePolicy;
  upstreams : gmap string UpstreamConfig;
}.
Definition NewRouteRegistry : RouteRegistry := mkRegistry ∅ ∅ ∅ ∅ ∅ ∅.

Definition with_routes r m := mkRegistry m (rollouts r) (regions r) (tenants r) (policies r) (upstreams r).
Definition with_rollouts r m := mkRegistry (routes r) m (regions r) (tenants r) (policies r) (upstreams r).
Definition with_regions r m := mkRegistry (routes r) (rollouts r) m (tenants r) (policies r) (upstreams r).
Definition with_tenants r m := mkRegistry (routes r) (rollouts r) (regions r) m (policies r) (upstreams r).
Definition with_policies r m := mkRegistry (routes r) (rollouts r) (regions r) (tenants r) m (upstreams r).
Definition with_upstreams r m := mkRegistry (routes r) (rollouts r) (regions r) (tenants r) (policies r) m.

Definition nil_registry {A} : result A := Err "route registry is nil".
Definition blank (s : string) : bool := String.eqb s "".

(** ** Registration *)

(** The route as stored: trimmed, with its defaults. *)
Definition stored_route (c : RouteConfig) : RouteConfig :=
  let method := to_upper (trim_space (rt_Method c)) in
  let weight := if (rt_Weight c <? 0)%Z then 0%Z else rt_Weight c in
  mkRoute (trim_space (rt_Name c)) (if blank method then "ANY" else method)
    (normalizePath (rt_Path c)) (trim_space (rt_Target c))
    (if blank (rt_Upstream c) then "" else trim_space (rt_Upstream c))
    (if (weight =? 0)%Z then 100%Z else weight)
    (rt_Tenant c) (rt_Enabled c) (rt_Header c).

Definition Register (r : option RouteRegistry) (c : RouteConfig) : result RouteRegistry :=
  match r with
  | None => nil_registry
  | Some r =>
      let name := trim_space (rt_Name c) in
      let method := to_upper (trim_space (rt_Method c)) in
      let path := normalizePath (rt_Path c) in
      let target := trim_space (rt_Target c) in
      fail_if blank name with "route name is required";
      fail_if blank path || (String.eqb path "/" && blank method) with "route path is required";
      fail_if blank target && blank (rt_Upstream c)
        with "route target is required (inline Target or Upstream reference)";
      let upstream := if blank (rt_Upstream c) then "" else trim_space (rt_Upstream c) in
      fail_if negb (blank (rt_Upstream c)) && negb (bool_decide (is_Some (upstreams r !! upstream)))
        with "route references unknown upstream " +:+ quote upstream;
      let weight := if (rt_Weight c <? 0)%Z then 0%Z else rt_Weight c in
      fail_if negb (rt_Enabled c) with
        (if (weight =? 0)%Z then "disabled route must define a non-zero traffic weight"
         else "disabled route is not allowed in the active registry");
      match routes r !! name with
      | Some _ => Err ("route " +:+ quote name +:+ " already exists")
      | None => Ok (with_routes r (<[name := stored_route c]> (routes r)))
      end
  end.

Definition stored_policy (p : RoutePolicy) : RoutePolicy :=
  let env := trim_space (pl_Environment p) in
  mkPolicy (trim_space (pl_Name p)) (if blank env then "prod" else env)
    (trim_space (pl_Service p)) (AllowedTenants p) (AllowedRegions p)
    (RequireSignedArtifacts p) (RequireAudit p)
    (Some (match SLO p with None => default_slo | Some s => s end)).

Definition RegisterPolicy (r : option RouteRegistry) (p : RoutePolicy) : result RouteRegistry :=
  match r with
  | None => nil_registry
  | Some r =>
      let name := trim_space (pl_Name p) in
      let service := trim_space (pl_Service p) in
      fail_if blank name with "policy name is required";
      fail_if blank service with "policy service is required";
      match policies r !! name with
      | Some _ => Err ("policy " +:+ quote name +:+ " already exists")
      | None => Ok (with_policies r (<[name := stored_policy p]> (policies r)))
      end
  end.

Definition stored_upstream (c : UpstreamConfig) : UpstreamConfig :=
  let weight := if (up_Weight c <? 0)%Z then 0%Z else up_Weight c in
  mkUpstream (trim_space (up_Name c)) (trim_space (up_Target c)) (trim_space (Fallback c))
    (Services c) (if (weight =? 0)%Z then 1%Z else weight) (up_Enabled c) (up_Healthy c).

Definition RegisterUpstream (url_ok : string → bool) (r : option RouteRegistry)
    (c : UpstreamConfig) : result RouteRegistry :=
  match r with
  | None => nil_registry
  | Some r =>
      let name := trim_space (up_Name c) in
      let target := trim_space (up_Target c) in
      let fallback := trim_space (Fallback c) in
      fail_if blank name with "upstream name is required";
      fail_if blank target with "upstream target is required";
      fail_if negb (url_ok target) with
        "upstream target " +:+ quote target +:+ " is not a valid URL";
      fail_if String.eqb fallback name with
        "upstream " +:+ quote name +:+ " cannot be its own fallback";
      match upstreams r !! name with
      | Some _ => Err ("upstream " +:+ quote name +:+ " already exists")
      | None => Ok (with_upstreams r (<[name := stored_upstream c]> (upstreams r)))
      end
  end.

Definition stored_region (c : RegionConfig) : RegionConfig :=
  let weight := if (rg_Weight c <? 0)%Z then 0%Z else rg_Weight c in
  mkRegion (trim_space (rg_Name c)) (trim_space (rg_Region c)) (trim_space (rg_Target c))
    (if (weight =? 0)%Z && rg_Enabled c then 100%Z else weight)
    (rg_Enabled c) (Primary c) (rg_Healthy c).

Definition RegisterRegion (r : option RouteRegistry) (c : RegionConfig) : result RouteRegistry :=
  match r with
  | None => nil_registry
  | Some r =>
      let name := trim_space (rg_Name c) in
      let region := trim_space (rg_Region c) in
      let target := trim_space (rg_Target c) in
      fail_if blank name with "region name is required";
      fail_if blank region with "region identifier is required";
      fail_if blank target with "region target is required";
      fail_if negb (rg_Enabled c) with "region is disabled";
      match regions r !! name with
      | Some _ => Err ("region " +:+ quote name +:+ " already exists")
      | None => Ok (with_regions r (<[name := stored_region c]> (regions r)))
      end
  end.

Definition RegisterTenant (r : option RouteRegistry) (c : TenantConfig) : result RouteRegistry :=
  match r with
  | None => nil_registry
  | Some r =>
      let name := trim_space (tn_Name c) in
      fail_if blank name with "tenant name is required";
      fail_if negb (tn_Enabled c) with "tenant is disabled";
      match tenants r !! name with
      | Some _ => Err ("tenant " +:+ quote name +:+ " already exists")
      | None =>
          Ok (with_tenants r (<[name := mkTenant name (AllowedRoutes c) (tn_AllowedRegions c)
                (tn_Enabled c)]> (tenants r)))
      end
  end.

(** The registry's own [RegisterRollout] does not trim the name it stores under. *)
Definition RegisterRollout (r : option RouteRegistry) (c : RolloutConfig) : result RouteRegistry :=
  match r with
  | None => nil_registry
  | Some r =>
      try c := Validate c in
      match rollouts r !! ro_Name c with
      | Some _ => Err ("rollout " +:+ quote (ro_Name c) +:+ " already exists")
      | None => Ok (with_rollouts r (<[ro_Name c := c]> (rollouts r)))
      end
  end.

(** ** Lookups *)

Definition Get (r : option RouteRegistry) (name : string) := r ← r; routes r !! trim_space name.
Definition GetPolicy (r : option RouteRegistry) (name : string) := r ← r; policies r !! trim_space name.
Definition GetUpstream (r : option RouteRegistry) (name : string) := r ← r; upstreams r !! trim_space name.
Definition GetRegion (r : option RouteRegistry) (name : string) := r ← r; regions r !! trim_space name.
Definition GetTenant (r : option RouteRegistry) (name : string) := r ← r; tenants r !! trim_space name.
Definition GetRollout (r : option RouteRegistry) (name : string) := r ← r; rollouts r !! trim_space name.

(** The listing methods, up to Go's iteration order. *)
Definition values {A} (m : gmap string A) : list A := (map_to_list m).*2.
Definition List_ (r : option RouteRegistry) := on_recv r [] (λ r, values (routes r)).
Definition ListPolicies (r : option RouteRegistry) := on_recv r [] (λ r, values (policies r)).
Definition ListUpstreams (r : option RouteRegistry) := on_recv r [] (λ r, values (upstreams r)).
Definition ListRegions (r : option RouteRegistry) := on_recv r [] (λ r, values (regions r)).
Definition ListTenants (r : option RouteRegistry) := on_recv r [] (λ r, values (tenants r)).
Definition ListRollouts (r : option RouteRegistry) := on_recv r [] (λ r, values (rollouts r)).

(** A loop that stops at the first element equal up to surrounding space. *)
Definition listed (l : list string) (name : string) : bool :=
  existsb (λ s, String.eqb (trim_space s) (trim_space name)) l.

Definition ValidatePolicy (r : option RouteRegistry) (name tenant region : string) : result unit :=
  match r with
  | None => nil_registry
  | Some _ =>
      match GetPolicy r name with
      | None => Err ("policy " +:+ quote name +:+ " not found")
      | Some p =>
          fail_if blank (trim_space tenant) with "tenant name is required";
          fail_if blank (trim_space region) with "region name is required";
          fail_if negb (bool_decide (AllowedTenants p = [])) && negb (listed (AllowedTenants p) tenant)
            with "tenant " +:+ quote tenant +:+ " is not allowed under policy " +:+ quote name;
          fail_if negb (bool_decide (AllowedRegions p = [])) && negb (listed (AllowedRegions p) region)
            with "region " +:+ quote region +:+ " is not allowed under policy " +:+ quote name;
          fail_if RequireSignedArtifacts p && bool_decide (SLO p = None)
            with "policy " +:+ quote name +:+ " requires signed artifacts and an SLO policy";
          fail_if RequireAudit p && bool_decide (SLO p = None)
            with "policy " +:+ quote name +:+ " requires audit logging and an SLO policy";
          Ok tt
      end
  end.

Definition CanAccessRoute (r : option RouteRegistry) (tenant route : string) : bool :=
  match r with
  | None => false
  | Some r =>
      match tenants r !! trim_space tenant with
      | Some c => tn_Enabled c && listed (AllowedRoutes c) route
      | None => false
      end
  end.
Definition CanAccessRegion (r : option RouteRegistry) (tenant region : string) : bool :=
  match r with
  | None => false
  | Some r =>
      match tenants r !! trim_space tenant with
      | Some c => tn_Enabled c && listed (tn_AllowedRegions c) region
      | None => false
      end
  end.

(** ** Choosing an upstream *)

Definition SelectUpstream (r : option RouteRegistry) (name : string) : option UpstreamConfig :=
  r ← r;
  match upstreams r !! trim_space name with
  | None => None
  | Some up =>
      if negb (up_Enabled up) then None
      else if up_Healthy up then Some up
      else if blank (Fallback up) then None
      else match upstreams r !! Fallback up with
           | Some fb => if up_Enabled fb && up_Healthy fb then Some fb else None
           | None => None
           end
  end.

Definition servesService (up : UpstreamConfig) (service : string) : bool :=
  match Services up with
  | [] => true
  | l => existsb (λ s, String.eqb (trim_space s) service) l
  end.

(** The pool, in the order Go's iteration visits the upstreams. *)
Definition in_pool (service : string) (up : UpstreamConfig) : bool :=
  up_Enabled up && up_Healthy up && (blank service || servesService up service).
Definition pool (order : list UpstreamConfig) (service : string) : list UpstreamConfig :=
  List.filter (in_pool service) order.
Definition pool_total (l : list UpstreamConfig) : Z :=
  foldl (λ t up, i64_add t (up_Weight up)) 0%Z l.

Fixpoint pickWeightedUpstream (l : list UpstreamConfig) (pick : Z) : option UpstreamConfig :=
  match l with
  | [] => None
  | [up] => Some up
  | up :: l =>
      let pick := i64_sub pick (up_Weight up) in
      if (pick <? 0)%Z then Some up else pickWeightedUpstream l pick
  end.

(** [rand.Intn] panics on an argument that is not positive. *)
Inductive picked :=
  | NoUpstream
  | Picked (up : UpstreamConfig)
  | Panicked.

Section Pick.
Context (intn : Z → Z).

Definition PickUpstream (order : list UpstreamConfig) (r : option RouteRegistry)
    (service : string) : picked :=
  match r with
  | None => NoUpstream
  | Some _ =>
      let l := pool order (trim_space service) in
      match l with
      | [] => NoUpstream
      | _ =>
          if (pool_total l <=? 0)%Z then Panicked
          else match pickWeightedUpstream l (intn (pool_total l)) with
               | Some up => Picked up
               | None => NoUpstream
               end
      end
  end.

Definition selected (o : option UpstreamConfig) : picked :=
  match o with Some up => Picked up | None => NoUpstream end.

Definition pickForRoute (order : list UpstreamConfig) (r : option RouteRegistry)
    (upstreamName : string) : picked :=
  match GetUpstream r upstreamName with
  | None => NoUpstream
  | Some named =>
      match Services named with
      | [] => selected (SelectUpstream r upstreamName)
      | service :: _ =>
          match PickUpstream order r service with
          | NoUpstream => selected (SelectUpstream r upstreamName)
          | p => p
          end
      end
  end.

(** The target of a route: [None] when there is none. *)
Inductive target :=
  | NoTarget
  | TargetUrl (url : string)
  | TargetPanic.

Definition ResolveRouteTarget (order : list UpstreamConfig) (r : option RouteRegistry)
    (routeName : string) : target :=
  match Get r routeName with
  | None => NoTarget
  | Some route =>
      if negb (blank (rt_Upstream route)) then
        match pickForRoute order r (rt_Upstream route) with
        | Picked up => TargetUrl (up_Target up)
        | NoUpstream => NoTarget
        | Panicked => TargetPanic
        end
      else if negb (blank (rt_Target route)) then TargetUrl (rt_Target route)
      else NoTarget
  end.

Definition RouteHeaders (r : option RouteRegistry) (routeName : string) : list (string * string) :=
  match Get r routeName with
  | None => []
  | Some route => rt_Header route
  end.

(** The proxy of a route: its target, and its headers set one by one. *)
Definition NewProxy (parse_url : string → result Proxy.url) (order : list UpstreamConfig)
    (r : option RouteRegistry) (routeName : string) : result (option Proxy.Proxy) :=
  match ResolveRouteTarget order r routeName with
  | TargetUrl t =>
      try p := Proxy.NewProxy parse_url t in
      Ok (foldl (λ p kv, Proxy.WithHeader p kv.1 kv.2) (Some p) (RouteHeaders r routeName))
  | _ => Err ("route " +:+ quote (trim_space routeName) +:+ " not found or has no healthy upstream")
  end.
End Pick.

(** ** Regions *)

Definition SelectRegion (order : list RegionConfig) (r : option RouteRegistry)
    (primaryName : string) : option RegionConfig :=
  r ← r;
  let primary := regions r !! trim_space primaryName in
  match primary with
  | Some p => if rg_Enabled p && rg_Healthy p then Some p else
      match find (λ g, rg_Enabled g && rg_Healthy g && negb (String.eqb (rg_Name g) primaryName)) order with
      | Some g => Some g
      | None => Some p
      end
  | None => find (λ g, rg_Enabled g && rg_Healthy g && negb (String.eqb (rg_Name g) primaryName)) order
  end.

Record RegionMetrics := mkRegionMetrics { LatencyMS : Z; rm_ErrorRate : float64 }.
Record RegionDecision := mkRegionDecision {
  rd_Allow : bool; rd_Name : string; rd_Target : string; rd_Reason : string;
}.

Definition five_percent : float64 := f64_lit 5 100.

Definition EvaluateRegion (order : list RegionConfig) (r : option RouteRegistry)
    (primaryName : string) (m : RegionMetrics) : option RegionDecision :=
  r ← r;
  match regions r !! trim_space primaryName with
  | None => None
  | Some p =>
      if negb (rg_Enabled p) then None else
      if rg_Healthy p && (LatencyMS m <? 250)%Z && f64_leb (rm_ErrorRate m) five_percent
      then Some (mkRegionDecision true (rg_Name p) (rg_Target p) "primary region is healthy")
      else
        match find (λ g, rg_Enabled g && rg_Healthy g && negb (String.eqb (rg_Name g) primaryName)
                         && ((250 <=? LatencyMS m)%Z || f64_gtb (rm_ErrorRate m) five_percent)) order with
        | Some g => Some (mkRegionDecision true (rg_Name g) (rg_Target g)
                            "failover to healthy fallback region")
        | None =>
            if rg_Healthy p
            then Some (mkRegionDecision true (rg_Name p) (rg_Target p) "primary region remains acceptable")
            else Some (mkRegionDecision false (rg_Name p) (rg_Target p)
                         "primary region is degraded and no healthy fallback exists")
        end
  end.

(** ** The registry's invariant *)

Definition trimmed (s : string) : Prop := trim_space s = s ∧ s ≠ "".

Record route_ok (ups : gmap string UpstreamConfig) (k : string) (c : RouteConfig) : Prop := {
  rt_key : rt_Name c = k ∧ trimmed k;
  rt_method_ok : rt_Method c ≠ "";
  rt_path_ok : has_prefix (rt_Path c) "/" = true;
  rt_enabled_ok : rt_Enabled c = true ∧ (0 < rt_Weight c)%Z;
  rt_target_ok : rt_Target c ≠ "" ∨ rt_Upstream c ≠ "";
  rt_upstream_ok : rt_Upstream c ≠ "" → trimmed (rt_Upstream c) ∧ is_Some (ups !! rt_Upstream c);
}.
Record upstream_ok (k : string) (c : UpstreamConfig) : Prop := {
  us_key : up_Name c = k ∧ trimmed k;
  us_target_ok : up_Target c ≠ "";
  us_weight_ok : (0 < up_Weight c)%Z;
  us_fallback_ok : Fallback c ≠ k;
}.
Definition region_ok (k : string) (c : RegionConfig) : Prop :=
  rg_Name c = k ∧ trimmed k ∧ rg_Region c ≠ "" ∧ rg_Target c ≠ "" ∧ rg_Enabled c = true ∧ (0 < rg_Weight c)%Z.
Definition tenant_ok (k : string) (c : TenantConfig) : Prop :=
  tn_Name c = k ∧ trimmed k ∧ tn_Enabled c = true.
Definition policy_ok (k : string) (c : RoutePolicy) : Prop :=
  pl_Name c = k ∧ trimmed k ∧ trimmed (pl_Environment c) ∧ trimmed (pl_Service c) ∧ is_Some (SLO c).

Record registry_inv (r : RouteRegistry) : Prop := {
  inv_routes : map_Forall (route_ok (upstreams r)) (routes r);
  inv_upstreams : map_Forall upstream_ok (upstreams r);
  inv_regions : map_Forall region_ok (regions r);
  inv_tenants : map_Forall tenant_ok (tenants r);
  inv_policies : map_Forall policy_ok (policies r);
  inv_rollouts : map_Forall (λ k c, ro_Name c = k ∧ rollout_ok c) (rollouts r);
}.

(** Every entry of [r] is still there, unchanged. *)
Definition extends (r r' : RouteRegistry) : Prop :=
  routes r ⊆ routes r' ∧ upstreams r ⊆ upstreams r' ∧ regions r ⊆ regions r'
  ∧ tenants r ⊆ tenants r' ∧ policies r ⊆ policies r' ∧ rollouts r ⊆ rollouts r'.

Inductive reg_call :=
  | RegRoute (c : RouteConfig) | RegUpstream (c : UpstreamConfig) | RegRegion (c : RegionConfig)
  | RegTenant (c : TenantConfig) | RegPolicy (p : RoutePolicy) | RegRollout (c : RolloutConfig).
Definition reg_apply (url_ok : string → bool) (r : RouteRegistry) (c : reg_call) : result RouteRegistry :=
  match c with
  | RegRoute c => Register (Some r) c
  | RegUpstream c => RegisterUpstream url_ok (Some r) c
  | RegRegion c => RegisterRegion (Some r) c
  | RegTenant c => RegisterTenant (Some r) c
  | RegPolicy p => RegisterPolicy (Some r) p
  | RegRollout c => RegisterRollout (Some r) c
  end.
(** A failing registration leaves the registry as it was. *)
Definition reg_step (url_ok : string → bool) (r : RouteRegistry) (c : reg_call) : RouteRegistry :=
  match reg_apply url_ok r c with Ok r' => r' | Err _ => r end.

Lemma blank_false s : blank s = false ↔ s ≠ "".
Proof. apply String.eqb_neq. Qed.
Lemma blank_true s : blank s = true ↔ s = "".
Proof. apply String.eqb_eq. Qed.
Lemma trimmed_trim s : blank (trim_space s) = false → trimmed (trim_space s).
Proof. intros Hb%blank_false. split; [apply trim_space_idemp | done]. Qed.

Lemma weight_default w d : (0 < d)%Z → (0 < if (if w <? 0 then 0 else w) =? 0 then d else if w <? 0 then 0 else w)%Z.
Proof. intros Hd. destruct (Z.ltb_spec w 0); [done|]. destruct (Z.eqb_spec w 0); lia. Qed.

Lemma Register_Ok r c r' :
  map_Forall upstream_ok (upstreams r) → Register (Some r) c = Ok r' →
  r' = with_routes r (<[rt_Name (stored_route c) := stored_route c]> (routes r))
  ∧ routes r !! rt_Name (stored_route c) = None
  ∧ route_ok (upstreams r) (rt_Name (stored_route c)) (stored_route c).
Proof.
  intros Hups. unfold Register. rewrite !fail_if_Ok. intros (Hn & Hp & Ht & Hu & He & E).
  destruct (routes r !! trim_space (rt_Name c)) eqn:Ek; [done|]. injection E as <-.
  split; [done|]. split; [done|].
  assert (blank (rt_Upstream c) = false →
    trimmed (trim_space (rt_Upstream c)) ∧ is_Some (upstreams r !! trim_space (rt_Upstream c))) as Hup.
  { intros Hb. rewrite Hb in Hu. cbn in Hu. apply negb_false_iff, bool_decide_eq_true in Hu.
    split; [|done]. destruct Hu as [u Hu]. apply Hups in Hu. apply Hu. }
  split; cbn.
  - split; [done|]. by apply trimmed_trim.
  - destruct (blank (to_upper _)) eqn:Eb; [done|]. by apply blank_false.
  - apply normalizePath_slash.
  - apply negb_false_iff in He. split; [done|]. by apply weight_default.
  - apply andb_false_iff in Ht as [Ht|Ht]; [left; by apply blank_false|]. right.
    rewrite Ht. apply Hup in Ht as [[_ ?] _]. done.
  - destruct (blank (rt_Upstream c)) eqn:Eb; [done|]. intros _. by apply Hup.
Qed.

Lemma RegisterUpstream_Ok url_ok r c r' :
  RegisterUpstream url_ok (Some r) c = Ok r' →
  r' = with_upstreams r (<[up_Name (stored_upstream c) := stored_upstream c]> (upstreams r))
  ∧ upstreams r !! up_Name (stored_upstream c) = None
  ∧ upstream_ok (up_Name (stored_upstream c)) (stored_upstream c).
Proof.
  unfold RegisterUpstream. rewrite !fail_if_Ok. intros (Hn & Ht & _ & Hf & E).
  destruct (upstreams r !! trim_space (up_Name c)) eqn:Ek; [done|]. injection E as <-.
  split; [done|]. split; [done|]. split; cbn.
  - split; [done|]. by apply trimmed_trim.
  - by apply blank_false.
  - by apply weight_default.
  - by apply String.eqb_neq.
Qed.

Lemma RegisterRegion_Ok r c r' :
  RegisterRegion (Some r) c = Ok r' →
  r' = with_regions r (<[rg_Name (stored_region c) := stored_region c]> (regions r))
  ∧ regions r !! rg_Name (stored_region c) = None
  ∧ region_ok (rg_Name (stored_region c)) (stored_region c).
Proof.
  unfold RegisterRegion. rewrite !fail_if_Ok. intros (Hn & Hr & Ht & He & E).
  destruct (regions r !! trim_space (rg_Name c)) eqn:Ek; [done|]. injection E as <-.
  split; [done|]. split; [done|]. apply negb_false_iff in He. unfold region_ok. cbn.
  rewrite He, andb_true_r. split; [done|]. split; [by apply trimmed_trim|].
  split; [by apply blank_false|]. split; [by apply blank_false|].
  split; [done|]. by apply weight_default.
Qed.

Lemma RegisterTenant_Ok r c r' :
  RegisterTenant (Some r) c = Ok r' →
  ∃ d, r' = with_tenants r (<[tn_Name d := d]> (tenants r)) ∧ tenants r !! tn_Name d = None
       ∧ tenant_ok (tn_Name d) d.
Proof.
  unfold RegisterTenant. rewrite !fail_if_Ok. intros (Hn & He & E).
  destruct (tenants r !! trim_space (tn_Name c)) eqn:Ek; [done|]. injection E as <-.
  exists (mkTenant (trim_space (tn_Name c)) (AllowedRoutes c) (tn_AllowedRegions c) (tn_Enabled c)).
  split; [done|]. split; [done|]. split; [done|]. split; [by apply trimmed_trim|].
  by apply negb_false_iff in He.
Qed.

Lemma stored_policy_ok p :
  blank (trim_space (pl_Name p)) = false → blank (trim_space (pl_Service p)) = false →
  policy_ok (pl_Name (stored_policy p)) (stored_policy p).
Proof.
  intros Hn Hs. unfold policy_ok, stored_policy. cbn. split; [done|].
  split; [by apply trimmed_trim|]. split; [|split; [by apply trimmed_trim | eauto]].
  destruct (blank (trim_space (pl_Environment p))) eqn:Eb; [|by apply trimmed_trim].
  split; [reflexivity | done].
Qed.

Lemma RegisterPolicy_Ok r p r' :
  RegisterPolicy (Some r) p = Ok r' →
  r' = with_policies r (<[pl_Name (stored_policy p) := stored_policy p]> (policies r))
  ∧ policies r !! pl_Name (stored_policy p) = None
  ∧ policy_ok (pl_Name (stored_policy p)) (stored_policy p).
Proof.
  unfold RegisterPolicy. rewrite !fail_if_Ok. intros (Hn & Hs & E).
  destruct (policies r !! trim_space (pl_Name p)) eqn:Ek; [done|]. injection E as <-.
  split; [done|]. split; [done|]. by apply stored_policy_ok.
Qed.

Lemma RegisterRollout_Ok r c r' :
  RegisterRollout (Some r) c = Ok r' →
  ∃ d, r' = with_rollouts r (<[ro_Name d := d]> (rollouts r)) ∧ rollouts r !! ro_Name d = None
       ∧ rollout_ok d.
Proof.
  unfold RegisterRollout. intros (d & Hv & E)%res_bind_Ok.
  destruct (rollouts r !! ro_Name d) eqn:Ek; [done|]. injection E as <-.
  exists d. split; [done|]. split; [done|]. by destruct (Validate_Ok _ _ Hv).
Qed.

Lemma route_ok_extend ups k u j c : ups !! k = None → route_ok ups j c → route_ok (<[k:=u]> ups) j c.
Proof.
  intros Hk [? ? ? ? ? Hu]. split; try done. intros Hne. destruct (Hu Hne) as [? ?].
  split; [done|]. by apply lookup_insert_is_Some'; right.
Qed.

(** Project a map out of an updated registry. *)
Ltac reg_fields :=
  cbn [routes rollouts regions tenants policies upstreams with_routes with_rollouts
       with_regions with_tenants with_policies with_upstreams].

Lemma reg_apply_inv url_ok r c r' :
  registry_inv r → reg_apply url_ok r c = Ok r' → registry_inv r' ∧ extends r r'.
Proof.
  intros [H1 H2 H3 H4 H5 H6]. unfold extends.
  destruct c as [c|c|c|c|p|c]; cbn [reg_apply]; intros E.
  - apply Register_Ok in E as (-> & Hk & Hok); [|done].
    split; [split; reg_fields; try done; by apply map_Forall_insert_2|].
    repeat split; reg_fields; try done. by apply insert_subseteq.
  - apply RegisterUpstream_Ok in E as (-> & Hk & Hok).
    split; [split; reg_fields; try done; [|by apply map_Forall_insert_2]|].
    + intros j d Hj. apply route_ok_extend; [done|]. by apply H1.
    + repeat split; reg_fields; try done. by apply insert_subseteq.
  - apply RegisterRegion_Ok in E as (-> & Hk & Hok).
    split; [split; reg_fields; try done; by apply map_Forall_insert_2|].
    repeat split; reg_fields; try done. by apply insert_subseteq.
  - apply RegisterTenant_Ok in E as (d & -> & Hk & Hok).
    split; [split; reg_fields; try done; by apply map_Forall_insert_2|].
    repeat split; reg_fields; try done. by apply insert_subseteq.
  - apply RegisterPolicy_Ok in E as (-> & Hk & Hok).
    split; [split; reg_fields; try done; by apply map_Forall_insert_2|].
    repeat split; reg_fields; try done. by apply insert_subseteq.
  - apply RegisterRollout_Ok in E as (d & -> & Hk & Hok).
    split; [split; reg_fields; try done; by apply map_Forall_insert_2|].
    repeat split; reg_fields; try done. by apply insert_subseteq.
Qed.

Lemma reg_step_inv url_ok r c : registry_inv r → registry_inv (reg_step url_ok r c) ∧ extends r (reg_step url_ok r c).
Proof.
  intros Hi. unfold reg_step. destruct (reg_apply url_ok r c) eqn:E; [by eapply reg_apply_inv|].
  split; [done|]. by repeat split.
Qed.

Lemma NewRouteRegistry_inv : registry_inv NewRouteRegistry.
Proof. split; apply map_Forall_empty. Qed.

Lemma extends_trans r1 r2 r3 : extends r1 r2 → extends r2 r3 → extends r1 r3.
Proof. unfold extends. intros (?&?&?&?&?&?) (?&?&?&?&?&?). repeat split; by etrans. Qed.

Lemma reg_run_inv url_ok cs r :
  registry_inv r → registry_inv (foldl (reg_step url_ok) r cs) ∧ extends r (foldl (reg_step url_ok) r cs).
Proof.
  revert r. induction cs as [|c cs IH]; intros r Hr; [by split; [|repeat split]|]. cbn [foldl].
  destruct (reg_step_inv url_ok r c Hr) as [Hr1 He1]. destruct (IH _ Hr1) as [Hr2 He2].
  split; [done|]. by eapply extends_trans.
Qed.

(** C21 : the registry is append-only and referentially sound.  Over every
    sequence of registrations, failed ones included, no entry changes or
    disappears; names are trimmed and non-empty keys of their entries; routes
    are enabled with positive weight and every upstream they name is
    registered; upstreams have a positive weight and are not their own
    fallback; policies have an environment, a service and an SLO; and every
    stored rollout is a valid configuration. *)
Theorem registry_invariant url_ok cs cs' :
  let r := foldl (reg_step url_ok) NewRouteRegistry cs in
  registry_inv r ∧ extends r (foldl (reg_step url_ok) r cs').
Proof.
  intros r. destruct (reg_run_inv url_ok cs NewRouteRegistry NewRouteRegistry_inv) as [Hr _].
  split; [done|]. by apply reg_run_inv.
Qed.

(** ** Resolution *)

Definition weights (l : list UpstreamConfig) : Z := foldr (λ up t, up_Weight up + t)%Z 0%Z l.

Lemma weights_app l l' : weights (l ++ l') = (weights l + weights l')%Z.
Proof. unfold weights. induction l as [|u l IH]; [done|]. cbn [app foldr]. rewrite IH. lia. Qed.
Lemma weights_pos l : Forall (λ up, 0 < up_Weight up)%Z l → (0 ≤ weights l)%Z.
Proof. unfold weights. induction 1; cbn [foldr]; lia. Qed.

Lemma pool_total_acc l acc :
  Forall (λ up, 0 < up_Weight up)%Z l → (0 ≤ acc)%Z → in_int64 (acc + weights l) →
  foldl (λ t up, i64_add t (up_Weight up)) acc l = (acc + weights l)%Z.
Proof.
  intros Hl. revert acc. induction Hl as [|u l Hu Hl IH]; intros acc Ha Hi; cbn [foldl weights foldr] in *.
  { lia. }
  pose proof (weights_pos l Hl). fold (weights l) in *. unfold in_int64, int64_min, int64_max in Hi.
  rewrite i64_add_id by (unfold in_int64, int64_min, int64_max; lia).
  rewrite IH; [lia|lia|]. unfold in_int64, int64_min, int64_max. lia.
Qed.

Lemma pick_interval l i up pick :
  Forall (λ up, 0 < up_Weight up)%Z l → in_int64 (weights l) → l !! i = Some up →
  (weights (take i l) ≤ pick < weights (take i l) + up_Weight up)%Z →
  pickWeightedUpstream l pick = Some up.
Proof.
  intros Hl. revert i pick. induction Hl as [|u l Hu Hl IH]; intros i pick Hi Hlk Hp; [done|].
  pose proof (weights_pos l Hl) as Hpos. cbn [weights foldr] in Hi. fold (weights l) in Hi.
  unfold in_int64, int64_min, int64_max in Hi.
  destruct l as [|u2 l].
  - destruct i; [|done]. cbn in *. congruence.
  - change (pickWeightedUpstream (u :: u2 :: l) pick)
      with (if (i64_sub pick (up_Weight u) <? 0)%Z then Some u
            else pickWeightedUpstream (u2 :: l) (i64_sub pick (up_Weight u))).
    assert (0 ≤ weights (take i (u :: u2 :: l)))%Z as Ht.
    { apply weights_pos, Forall_take. by constructor. }
    assert (pick < weights (u :: u2 :: l))%Z as Hlt.
    { rewrite <- (take_drop_middle _ _ _ Hlk), weights_app. cbn [weights foldr].
      pose proof (weights_pos (drop (S i) (u :: u2 :: l))) as Hd.
      unfold weights in Hd at 1. unfold weights in Hp |- * at 1.
      specialize (Hd ltac:(apply Forall_drop; by constructor)). lia. }
    cbn [weights foldr] in Hlt. fold (weights l) in *. change (up_Weight u2 + weights l)%Z with (weights (u2 :: l)) in *.
    unfold i64_sub. rewrite wrap64_id by (unfold in_int64, int64_min, int64_max; lia).
    destruct i as [|i].
    + cbn in Hlk, Hp. injection Hlk as <-. by rewrite (proj2 (Z.ltb_lt _ _)) by lia.
    + cbn [lookup list_lookup] in Hlk. rewrite firstn_cons in Hp. cbn [weights foldr] in Hp.
      fold (weights (take i (u2 :: l))) in Hp.
      assert (0 ≤ weights (take i (u2 :: l)))%Z by (apply weights_pos, Forall_take; done).
      rewrite (proj2 (Z.ltb_ge _ _)) by lia. apply (IH i); [|done|lia].
      unfold in_int64, int64_min, int64_max. lia.
Qed.

Lemma pool_weights r order service :
  registry_inv r → order ≡ₚ values (upstreams r) →
  Forall (λ up, 0 < up_Weight up)%Z (pool order service).
Proof.
  intros Hi Ho. apply Forall_forall. intros up Hin. unfold pool in Hin.
  apply list_elem_of_In, filter_In in Hin as [Hin%list_elem_of_In _].
  rewrite Ho in Hin. unfold values in Hin. apply list_elem_of_fmap in Hin as ([k u] & -> & Hin).
  apply elem_of_map_to_list, (inv_upstreams _ Hi) in Hin. apply Hin.
Qed.

(** C22 : weighted selection is proportional.  Over the enabled and healthy
    upstreams that serve a service, the random number picks the i-th upstream
    exactly when it falls in the i-th of consecutive intervals whose lengths
    are the upstreams' weights; together they cover the numbers drawn. *)
Theorem pick_proportional intn order r service i up :
  registry_inv r → order ≡ₚ values (upstreams r) →
  let l := pool order (trim_space service) in
  in_int64 (weights l) → l !! i = Some up →
  (weights (take i l) ≤ intn (weights l) < weights (take i l) + up_Weight up)%Z →
  PickUpstream intn order (Some r) service = Picked up.
Proof.
  intros Hi Ho l Hw Hlk Hp. pose proof (pool_weights r order (trim_space service) Hi Ho) as Hpos.
  fold l in Hpos. unfold PickUpstream. fold l.
  assert (pool_total l = weights l) as ->.
  { unfold pool_total. rewrite pool_total_acc; [lia|done|lia|]. by rewrite Z.add_0_l. }
  destruct l as [|u l'] eqn:E; [done|].
  assert (0 < weights (u :: l'))%Z.
  { apply Forall_cons in Hpos as [Hu Hl']. cbn. pose proof (weights_pos l' Hl'). unfold weights in *. lia. }
  rewrite (proj2 (Z.leb_gt _ _)) by lia. by rewrite (pick_interval (u :: l') i up).
Qed.

Lemma SelectUpstream_healthy r name up :
  SelectUpstream (Some r) name = Some up →
  up_Enabled up = true ∧ up_Healthy up = true ∧ ∃ k, upstreams r !! k = Some up.
Proof.
  cbn. destruct (upstreams r !! trim_space name) as [u|] eqn:E; [|done].
  destruct (up_Enabled u) eqn:Ee; [|done]. cbn. destruct (up_Healthy u) eqn:Eh.
  - intros [= <-]. eauto.
  - destruct (blank _); [done|]. destruct (upstreams r !! Fallback u) as [fb|] eqn:Ef; [|done].
    destruct (up_Enabled fb && up_Healthy fb) eqn:Eb; [|done]. intros [= <-].
    apply andb_true_iff in Eb as [? ?]. eauto.
Qed.

Lemma pickWeighted_elem l pick up : pickWeightedUpstream l pick = Some up → up ∈ l.
Proof.
  revert pick. induction l as [|u l IH]; intros pick; [done|]. destruct l as [|u2 l].
  - cbn. intros [= <-]. by left.
  - change (pickWeightedUpstream (u :: u2 :: l) pick)
      with (if (i64_sub pick (up_Weight u) <? 0)%Z then Some u
            else pickWeightedUpstream (u2 :: l) (i64_sub pick (up_Weight u))).
    destruct (_ <? 0)%Z; [intros [= <-]; by left|]. intros H%IH. by right.
Qed.

Lemma PickUpstream_healthy intn order r service up :
  order ≡ₚ values (upstreams r) → PickUpstream intn order (Some r) service = Picked up →
  up_Enabled up = true ∧ up_Healthy up = true ∧ (∃ k, upstreams r !! k = Some up)
  ∧ (trim_space service = "" ∨ servesService up (trim_space service) = true).
Proof.
  intros Ho. unfold PickUpstream. destruct (pool order (trim_space service)) as [|u l] eqn:E; [done|].
  rewrite <- E. destruct (_ <=? 0)%Z; [done|].
  destruct (pickWeightedUpstream _ _) as [u'|] eqn:Ep; [|done]. intros [= <-].
  apply pickWeighted_elem in Ep. unfold pool in Ep.
  apply list_elem_of_In, filter_In in Ep as [Hin%list_elem_of_In Hp].
  rewrite Ho in Hin. unfold values in Hin. apply list_elem_of_fmap in Hin as ([k u0] & -> & Hin).
  apply elem_of_map_to_list in Hin. unfold in_pool in Hp.
  rewrite !andb_true_iff, orb_true_iff, blank_true in Hp. cbn. naive_solver.
Qed.

(** Routes resolve to live upstreams only.  Whatever is drawn and in
    whatever order the maps are visited, the target of a registered route is
    its inline target when it names no upstream, and else the target of a
    registered upstream that is enabled and healthy. *)
Theorem resolution_is_healthy intn order r name url :
  order ≡ₚ values (upstreams r) →
  ResolveRouteTarget intn order (Some r) name = TargetUrl url →
  ∃ route, routes r !! trim_space name = Some route
    ∧ (rt_Upstream route = "" ∧ url = rt_Target route
       ∨ rt_Upstream route ≠ ""
         ∧ ∃ k up, upstreams r !! k = Some up ∧ up_Enabled up = true ∧ up_Healthy up = true
             ∧ url = up_Target up).
Proof.
  intros Ho. unfold ResolveRouteTarget. cbn [Get mbind option_bind].
  destruct (routes r !! trim_space name) as [route|]; [|done]. intros E. exists route.
  split; [done|]. destruct (blank (rt_Upstream route)) eqn:Eb; cbn [negb] in E.
  - left. apply blank_true in Eb. destruct (negb _); [|done]. by injection E as <-.
  - right. apply blank_false in Eb. split; [done|].
    destruct (pickForRoute intn order (Some r) (rt_Upstream route)) as [|up|] eqn:Ep; try done.
    injection E as <-. unfold pickForRoute in Ep.
    assert (∀ u, selected (SelectUpstream (Some r) (rt_Upstream route)) = Picked u →
      ∃ k up, upstreams r !! k = Some up ∧ up_Enabled up = true ∧ up_Healthy up = true
        ∧ up_Target u = up_Target up) as Hsel.
    { intros u Hu. destruct (SelectUpstream _ _) as [u'|] eqn:Es; [|done]. injection Hu as ->.
      apply SelectUpstream_healthy in Es as (? & ? & k & ?). exists k, u. done. }
    destruct (GetUpstream _ _) as [named|]; [|done]. destruct (Services named) as [|service ?]; [auto|].
    destruct (PickUpstream intn order (Some r) service) as [|u|] eqn:Epk; [auto| |done].
    injection Ep as <-. apply PickUpstream_healthy in Epk as (? & ? & (k & ?) & _); [|done].
    exists k, u. done.
Qed.

(** An upstream that declares no service joins the pool of every service:
    it can be picked for any service name while it is enabled and healthy. *)
Theorem undeclared_upstream_serves_all order up service :
  up ∈ order → Services up = [] → up_Enabled up = true → up_Healthy up = true →
  up ∈ pool order (trim_space service).
Proof.
  intros Hin Hs He Hh. unfold pool. apply list_elem_of_In, filter_In. split; [by apply list_elem_of_In|].
  unfold in_pool, servesService. by rewrite He, Hh, Hs, orb_true_r.
Qed.

(** ** Regions *)

Lemma find_elem {A} (f : A → bool) l x : find f l = Some x → x ∈ l ∧ f x = true.
Proof. intros [? ?]%find_some. by rewrite list_elem_of_In. Qed.

(** A region verdict that allows traffic names a registered region that is
    enabled and healthy; one is given exactly for registered, enabled regions. *)
Theorem region_verdict_sound order r name m :
  order ≡ₚ values (regions r) →
  (is_Some (EvaluateRegion order (Some r) name m)
   ↔ ∃ p, regions r !! trim_space name = Some p ∧ rg_Enabled p = true)
  ∧ ∀ d, EvaluateRegion order (Some r) name m = Some d → rd_Allow d = true →
      ∃ k g, regions r !! k = Some g ∧ rg_Enabled g = true ∧ rg_Healthy g = true
        ∧ rd_Name d = rg_Name g ∧ rd_Target d = rg_Target g.
Proof.
  intros Ho. cbn [EvaluateRegion mbind option_bind].
  destruct (regions r !! trim_space name) as [p|] eqn:Ep.
  2: { split; [|done]. split; [by intros [? ?] | by intros (? & ? & ?)]. }
  destruct (rg_Enabled p) eqn:Ee; cbn [negb].
  2: { split; [|done]. split; [by intros [? ?] | intros (? & [= <-] & ?); congruence]. }
  destruct (rg_Healthy p && (LatencyMS m <? 250)%Z && f64_leb (rm_ErrorRate m) five_percent) eqn:Eh.
  - split; [split; [eauto | intros _; eauto]|]. intros d [= <-] _.
    rewrite !andb_true_iff in Eh. exists (trim_space name), p. naive_solver.
  - destruct (find _ order) as [g|] eqn:Ef.
    + split; [split; [eauto | intros _; eauto]|]. intros d [= <-] _.
      apply find_elem in Ef as [Hin Hg]. rewrite Ho in Hin. unfold values in Hin.
      apply list_elem_of_fmap in Hin as ([k g'] & -> & Hin%elem_of_map_to_list). cbn in *.
      rewrite !andb_true_iff in Hg. exists k, g'. naive_solver.
    + destruct (rg_Healthy p) eqn:Ehp; (split; [split; [eauto | intros _; eauto]|]); intros d [= <-]; [|done].
      intros _. exists (trim_space name), p. done.
Qed.

(** A region marked unhealthy is denied, although healthy fallback regions
    exist, as long as its latency and error rate look good; the verdict then
    says that no healthy fallback exists. *)
Theorem unhealthy_region_without_failover order r name p m :
  regions r !! trim_space name = Some p → rg_Enabled p = true → rg_Healthy p = false →
  (LatencyMS m < 250)%Z → f64_gtb (rm_ErrorRate m) five_percent = false →
  EvaluateRegion order (Some r) name m
  = Some (mkRegionDecision false (rg_Name p) (rg_Target p)
            "primary region is degraded and no healthy fallback exists").
Proof.
  intros Hp He Hh Hl Hr. cbn [EvaluateRegion mbind option_bind]. rewrite Hp, He, Hh. cbn [negb andb].
  rewrite (proj2 (Z.leb_gt _ _) Hl), Hr. cbn [orb].
  replace (find _ order) with (@None RegionConfig); [done|].
  symmetry. induction order as [|g order IH]; [done|]. cbn [find]. by rewrite andb_false_r.
Qed.

(** ** Policies *)

Lemma listed_spec l name : listed l name = true ↔ ∃ s, s ∈ l ∧ trim_space s = trim_space name.
Proof.
  unfold listed. rewrite existsb_true_iff. by setoid_rewrite String.eqb_eq.
Qed.

(** Policy validation accepts exactly the tenants and regions a registered
    policy allows: both named, and each on the policy's list when that list is
    not empty. *)
Theorem policy_validation_exact r name tenant region :
  registry_inv r →
  ValidatePolicy (Some r) name tenant region = Ok tt
  ↔ ∃ p, policies r !! trim_space name = Some p
      ∧ trim_space tenant ≠ "" ∧ trim_space region ≠ ""
      ∧ (AllowedTenants p = [] ∨ ∃ s, s ∈ AllowedTenants p ∧ trim_space s = trim_space tenant)
      ∧ (AllowedRegions p = [] ∨ ∃ s, s ∈ AllowedRegions p ∧ trim_space s = trim_space region).
Proof.
  intros Hi. unfold ValidatePolicy. cbn [GetPolicy mbind option_bind].
  destruct (policies r !! trim_space name) as [p|] eqn:Ep; [|naive_solver].
  pose proof (inv_policies _ Hi _ _ Ep) as (_ & _ & _ & _ & [s Hs]).
  assert (bool_decide (SLO p = None) = false) as Hslo by (apply bool_decide_eq_false; congruence).
  rewrite !fail_if_Ok, Hslo, !andb_false_r, !blank_false, !andb_false_iff, !negb_false_iff,
    !bool_decide_eq_true, !listed_spec.
  naive_solver.
Qed.

(** The registry's [RegisterRollout] stores a rollout under its untrimmed name,
    which no lookup can reach. *)
Theorem untrimmed_rollout_unreachable :
  match RegisterRollout (Some NewRouteRegistry)
          (mkRollout " canary" "/pay" "" "http://v2" 10 100 10 true false false f64_zero) with
  | Ok r => GetRollout (Some r) " canary" = None ∧ length (ListRollouts (Some r)) = 1
  | Err _ => False
  end.
Proof. vm_compute. split; reflexivity. Qed.

(** ** Witnesses *)

(** A registry with two pooled upstreams, a route to them, two regions, a
    tenant and a policy. *)
Definition demo_up (n t : string) (w : Z) := mkUpstream n t "" ["billing"] w true true.
Definition demo_registry : RouteRegistry :=
  foldl (reg_step (λ _, true)) NewRouteRegistry
    [RegUpstream (demo_up "a" "http://a" 1); RegUpstream (demo_up " b" "http://b" 3);
     RegRoute (mkRoute "bills" "get" "bills" "" "a" 0 "" true []);
     RegRegion (mkRegion "eu" "eu-1" "http://eu" 0 true true true);
     RegRegion (mkRegion "us" "us-1" "http://us" 0 true false false);
     RegPolicy (mkPolicy "p" "" "billing" ["t1"] [] true true None)].
Lemma demo_registry_inv : registry_inv demo_registry.
Proof. apply (reg_run_inv _ _ _ NewRouteRegistry_inv). Qed.
Definition demo_order : list UpstreamConfig := Eval vm_compute in values (upstreams demo_registry).
Lemma demo_order_ok : demo_order ≡ₚ values (upstreams demo_registry).
Proof.
  replace (values (upstreams demo_registry)) with demo_order by (vm_compute; reflexivity). reflexivity.
Qed.

Lemma pick_proportional_witness :
  (∃ up, demo_order !! 1 = Some up
    ∧ PickUpstream (λ t, t - 1)%Z demo_order (Some demo_registry) "billing" = Picked up)
  ∧ length demo_order = 2.
Proof.
  split; [|reflexivity]. eexists. split; [reflexivity|].
  eapply (pick_proportional _ _ _ _ 1);
    [apply demo_registry_inv | apply demo_order_ok | vm_compute; split; congruence
    | vm_compute; reflexivity | vm_compute; split; congruence].
Defined.

Lemma resolution_is_healthy_witness :
  ∃ url, ResolveRouteTarget (λ _, 0%Z) demo_order (Some demo_registry) "bills" = TargetUrl url
    ∧ ∃ route, routes demo_registry !! "bills" = Some route
      ∧ (rt_Upstream route = "" ∧ url = rt_Target route
         ∨ rt_Upstream route ≠ ""
           ∧ ∃ k up, upstreams demo_registry !! k = Some up ∧ up_Enabled up = true
               ∧ up_Healthy up = true ∧ url = up_Target up).
Proof.
  eexists. split; [vm_compute; reflexivity|].
  apply (resolution_is_healthy (λ _, 0%Z) demo_order demo_registry "bills");
    [apply demo_order_ok | vm_compute; reflexivity].
Defined.

Lemma undeclared_upstream_serves_all_witness :
  let up := mkUpstream "u" "http://u" "" [] 1 true true in up ∈ pool [up] (trim_space "other").
Proof.
  apply (undeclared_upstream_serves_all _ _ "other"); [by left | reflexivity..].
Defined.

Lemma region_verdict_sound_witness :
  let m := mkRegionMetrics 10 f64_zero in
  (is_Some (EvaluateRegion (values (regions demo_registry)) (Some demo_registry) "eu" m)
   ↔ ∃ p, regions demo_registry !! trim_space "eu" = Some p ∧ rg_Enabled p = true).
Proof.
  intros m. apply (region_verdict_sound (values (regions demo_registry)) demo_registry "eu" m).
  reflexivity.
Defined.

Lemma unhealthy_region_without_failover_witness :
  EvaluateRegion (values (regions demo_registry)) (Some demo_registry) "us"
    (mkRegionMetrics 10 f64_zero)
  = Some (mkRegionDecision false "us" "http://us"
            "primary region is degraded and no healthy fallback exists").
Proof.
  eapply (unhealthy_region_without_failover _ _ _
            (mkRegion "us" "us-1" "http://us" 100 true false false));
    [vm_compute; reflexivity | reflexivity | reflexivity | reflexivity | vm_compute; reflexivity].
Defined.

Lemma policy_validation_exact_witness :
  ValidatePolicy (Some demo_registry) "p" "t1 " "eu" = Ok tt.
Proof.
  apply (policy_validation_exact demo_registry "p" "t1 " "eu" demo_registry_inv).
  exists (stored_policy (mkPolicy "p" "" "billing" ["t1"] [] true true None)).
  split; [vm_compute; reflexivity|]. split; [by vm_compute|]. split; [by vm_compute|].
  split; [|by left]. right. exists "t1". split; [by left | by vm_compute].
Defined.
