(* ===== verification/Os.v ===== *)
(** * Files, as the stores use them

    [os.ReadFile], [os.WriteFile], [os.Rename] and [os.MkdirAll] over a file
    system that holds the content of each path and the outcomes of the calls to
    come.  A write may be refused, or fail after part of the data reached the
    truncated file; the other calls succeed or change nothing. *)

From S2P Require Import Prelude GoStrings.

Inductive io :=
  | IoOk
  | IoRefused (e : error)
  | IoTorn (e : error) (written : nat).

Record filesystem := mkFs { files : gmap string string; plan : list io }.

Definition next_io (fs : filesystem) : io * filesystem :=
  match plan fs with
  | [] => (IoOk, fs)
  | o :: more => (o, mkFs (files fs) more)
  end.

Definition put_file (fs : filesystem) (path data : string) : filesystem :=
  mkFs (<[path := data]> (files fs)) (plan fs).

Definition write_file (fs : filesystem) (path data : string) : filesystem * option error :=
  let '(o, fs) := next_io fs in
  match o with
  | IoOk => (put_file fs path data, None)
  | IoRefused e => (fs, Some e)
  | IoTorn e n => (put_file fs path (str_take n data), Some e)
  end.

(** A call that either takes effect or leaves the files alone. *)
Definition io_error (o : io) : option error :=
  match o with IoOk => None | IoRefused e | IoTorn e _ => Some e end.

Definition mkdir_all (fs : filesystem) (dir : string) : filesystem * option error :=
  let '(o, fs) := next_io fs in (fs, io_error o).

Definition rename (fs : filesystem) (from to : string) : filesystem * option error :=
  let '(o, fs) := next_io fs in
  match io_error o, files fs !! from with
  | Some e, _ => (fs, Some e)
  | None, None => (fs, Some "no such file or directory")
  | None, Some data => (mkFs (<[to := data]> (delete from (files fs))) (plan fs), None)
  end.

(** [None] is [os.ErrNotExist]. *)
Definition read_file (fs : filesystem) (path : string) : filesystem * result (option string) :=
  let '(o, fs) := next_io fs in
  match io_error o with
  | Some e => (fs, Err e)
  | None => (fs, Ok (files fs !! path))
  end.

(** No failure is to come. *)
Definition quiet (fs : filesystem) : Prop := Forall (λ o, o = IoOk) (plan fs).

Lemma quiet_next fs : quiet fs → ∃ fs', next_io fs = (IoOk, fs') ∧ quiet fs' ∧ files fs' = files fs.
Proof.
  unfold quiet, next_io. destruct (plan fs) as [|o more] eqn:E.
  - exists fs. rewrite E. done.
  - intros [-> Hm]%Forall_cons. by eexists.
Qed.

Lemma write_file_quiet fs path data :
  quiet fs → ∃ fs', write_file fs path data = (fs', None) ∧ quiet fs'
    ∧ files fs' = <[path := data]> (files fs).
Proof.
  intros (fs' & E & Hq & Hf)%quiet_next. unfold write_file. rewrite E. eexists.
  split; [done|]. split; [done|]. cbn. by rewrite Hf.
Qed.
Lemma write_file_ok fs path data fs' :
  write_file fs path data = (fs', None) → files fs' = <[path := data]> (files fs).
Proof.
  unfold write_file, next_io. destruct (plan fs) as [|[] more]; intros [= <-]; done.
Qed.
Lemma write_file_other fs path data path' fs' r :
  write_file fs path data = (fs', r) → path' ≠ path → files fs' !! path' = files fs !! path'.
Proof.
  unfold write_file, next_io. intros E Hne.
  destruct (plan fs) as [|[] more]; injection E as <- <-; cbn; by rewrite ?lookup_insert_ne.
Qed.
Lemma mkdir_all_quiet fs dir :
  quiet fs → ∃ fs', mkdir_all fs dir = (fs', None) ∧ quiet fs' ∧ files fs' = files fs.
Proof. intros (fs' & E & Hq & Hf)%quiet_next. unfold mkdir_all. rewrite E. by eexists. Qed.
Lemma mkdir_all_files fs dir fs' r : mkdir_all fs dir = (fs', r) → files fs' = files fs.
Proof. unfold mkdir_all, next_io. destruct (plan fs); by intros [= <- _]. Qed.
Lemma rename_quiet fs from to data :
  quiet fs → files fs !! from = Some data →
  ∃ fs', rename fs from to = (fs', None) ∧ quiet fs'
    ∧ files fs' = <[to := data]> (delete from (files fs)).
Proof.
  intros (fs' & E & Hq & Hf)%quiet_next Hd. unfold rename. rewrite E. cbn [io_error].
  rewrite Hf, Hd. eexists. split; [done|]. split; [done|]. done.
Qed.
(** Whatever happens, a rename moves the whole file or nothing. *)
Lemma rename_atomic fs from to fs' r :
  rename fs from to = (fs', r) →
  (r = None ∧ ∃ data, files fs !! from = Some data ∧ files fs' = <[to := data]> (delete from (files fs)))
  ∨ (is_Some r ∧ files fs' = files fs).
Proof.
  unfold rename. assert (∃ o fs1, next_io fs = (o, fs1) ∧ files fs1 = files fs) as (o & fs1 & E & Hf).
  { unfold next_io. destruct (plan fs); by do 2 eexists. }
  rewrite E. destruct (io_error o); [intros [= <- <-]; right; by eauto|]. rewrite <- Hf.
  destruct (files fs1 !! from) as [data|] eqn:Ed; intros [= <- <-]; [left|right]; by eauto.
Qed.
Lemma read_file_quiet fs path :
  quiet fs → ∃ fs', read_file fs path = (fs', Ok (files fs !! path)) ∧ quiet fs'
    ∧ files fs' = files fs.
Proof.
  intros (fs' & E & Hq & Hf)%quiet_next. unfold read_file. rewrite E. cbn. rewrite Hf. by eexists.
Qed.
