(* ===== verification/ProjectFs.v ===== *)
(** * A project directory on disk

    [path/filepath] on Unix and the calls of package [os] that the upgrade
    command makes below a project root, as a state monad.  The state holds the
    nodes below the root by their path components, the outcomes of the calls to
    come, the random names of temporary files and the umask.  The root itself
    has been resolved with [filepath.EvalSymlinks]. *)

From S2P Require Import Prelude GoStrings Os.

(** ** [filepath.Clean], [Join], [IsAbs] *)

(** Components processed from the left, the result reversed. *)
Definition clean_step (rooted : bool) (acc : list string) (c : string) : list string :=
  if String.eqb c "" || String.eqb c "." then acc
  else if String.eqb c ".." then
    match acc with
    | [] => if rooted then [] else [".."]
    | d :: acc' => if String.eqb d ".." then ".." :: acc else acc'
    end
  else c :: acc.
Definition IsAbs (path : string) : bool := has_prefix path "/".
Definition clean_parts (path : string) : list string :=
  rev (foldl (clean_step (IsAbs path)) [] (split path "/")).
Definition Clean (path : string) : string :=
  if IsAbs path then "/" +:+ join (clean_parts path) "/"
  else match clean_parts path with
       | [] => "."
       | parts => join parts "/"
       end.
Definition filepath_Join (elems : list string) : string :=
  match List.filter (λ e, negb (String.eqb e "")) elems with
  | [] => ""
  | elems => Clean (join elems "/")
  end.

Example clean_dots : Clean "a/./b//../c/" = "a/c".
Proof. reflexivity. Qed.
Example clean_up : Clean "a/../../b" = "../b".
Proof. reflexivity. Qed.
Example clean_abs : Clean "/../x" = "/x".
Proof. reflexivity. Qed.

(** A component that is a name. *)
Definition name_component (c : string) : Prop :=
  c ≠ "" ∧ c ≠ "." ∧ c ≠ ".." ∧ mem_byte "/" c = false.

Lemma clean_step_name rooted acc c : name_component c → clean_step rooted acc c = c :: acc.
Proof.
  intros (H1 & H2 & H3 & _). unfold clean_step.
  by rewrite (proj2 (String.eqb_neq _ _) H1), (proj2 (String.eqb_neq _ _) H2), (proj2 (String.eqb_neq _ _) H3).
Qed.
Lemma clean_fold_names rooted l acc :
  Forall name_component l → foldl (clean_step rooted) acc l = rev l ++ acc.
Proof.
  intros Hl. revert acc. induction Hl as [|c l Hc _ IH]; intros acc; [done|].
  cbn [foldl rev]. by rewrite clean_step_name, IH, <- app_assoc by done.
Qed.
(** In a cleaned relative path ".." only stands at the front. *)
Lemma clean_fold_shape l acc n l' :
  acc = l' ++ replicate n ".." → Forall name_component l' → Forall (λ c, mem_byte "/" c = false) l →
  ∃ n l', foldl (clean_step false) acc l = l' ++ replicate n ".." ∧ Forall name_component l'.
Proof.
  intros Ha Hl' Hl. revert acc n l' Ha Hl'. induction Hl as [|c l Hc _ IH]; intros acc n l' -> Hl'; [by eauto|].
  cbn [foldl]. unfold clean_step at 2. destruct (String.eqb_spec c ""), (String.eqb_spec c "."); cbn [orb];
    try by eapply IH. destruct (String.eqb_spec c "..") as [->|].
  - destruct l' as [|d l']; cbn [app].
    + destruct n as [|n]; cbn [replicate]; [by apply (IH _ 1 []) | by apply (IH _ (S (S n)) [])].
    + apply Forall_cons in Hl' as [(_ & _ & Hd & _) Hl']. rewrite (proj2 (String.eqb_neq _ _) Hd). by eapply IH.
  - apply (IH _ n (c :: l')); [done|]. by constructor.
Qed.
Lemma clean_parts_shape s :
  IsAbs s = false → ∃ n l, clean_parts s = replicate n ".." ++ l ∧ Forall name_component l.
Proof.
  intros Ha. unfold clean_parts. rewrite Ha.
  destruct (clean_fold_shape (split s "/") [] 0 []) as (n & l & -> & Hl); [done|constructor| |].
  - apply Forall_forall. intros x. apply split_elem_no_sep.
  - exists n, (rev l). rewrite rev_app_distr. split; [|by apply Forall_rev].
    f_equal. clear. induction n as [|n IH]; [done|]. cbn [replicate rev]. rewrite IH.
    clear. induction n as [|n IH]; [done|]. cbn [replicate app]. by rewrite IH.
Qed.

(** A path of names is clean, and its components are what it was joined from. *)
Lemma join_not_abs l : Forall name_component l → IsAbs (join l "/") = false.
Proof.
  intros [|c l' (Hne & _ & _ & Hm) _]; [done|]. destruct c as [|a c]; [done|].
  unfold IsAbs. cbn [mem_byte] in Hm. apply orb_false_iff in Hm as [Ha _].
  destruct l'; cbn [join]; rewrite ?str_app_cons; cbn [has_prefix]; by rewrite Ascii.eqb_sym, Ha.
Qed.
Lemma clean_parts_join l : Forall name_component l → l ≠ [] → clean_parts (join l "/") = l.
Proof.
  intros Hl Hne. unfold clean_parts. rewrite join_not_abs by done.
  rewrite split_join; [|done|]; [|intros x Hx; rewrite Forall_forall in Hl; by apply Hl].
  rewrite clean_fold_names, app_nil_r by done. apply rev_involutive.
Qed.
Lemma Clean_join l : Forall name_component l → l ≠ [] → Clean (join l "/") = join l "/".
Proof.
  intros Hl Hne. unfold Clean. rewrite join_not_abs, clean_parts_join by done. by destruct l.
Qed.

(** ** The nodes *)

Abbreviation path := (list string) (only parsing).

(** [Special] is anything else (a device, a pipe), with what a read of it gives. *)
Inductive node :=
  | File (content : string) (mode : Z)
  | Dir
  | Symlink
  | Special (content : result string).

Definition is_dir (n : node) : bool := match n with Dir => true | _ => false end.
Definition is_symlink (n : node) : bool := match n with Symlink => true | _ => false end.
Definition is_regular (n : node) : bool := match n with File _ _ => true | _ => false end.
(** [info.Mode().Perm()]; read only of regular files. *)
Definition perm (n : node) : Z := match n with File _ m => Z.land m 511 | _ => 0%Z end.

Record project := mkProject {
  tree : gmap path node;
  faults : list io;
  names : list string;
  umask : Z;
}.
Definition set_tree (fs : project) (t : gmap path node) : project :=
  mkProject t (faults fs) (names fs) (umask fs).
Definition put (fs : project) (p : path) (n : node) : project := set_tree fs (<[p := n]> (tree fs)).

(** ** The monad *)

Definition M (A : Type) : Type := project → project * result A.
Definition ret {A} (a : A) : M A := λ fs, (fs, Ok a).
Definition fail {A} (e : error) : M A := λ fs, (fs, Err e).
Definition bind {A B} (m : M A) (k : A → M B) : M B := λ fs,
  match m fs with
  | (fs, Ok a) => k a fs
  | (fs, Err e) => (fs, Err e)
  end.
(** [if err != nil { return fmt.Errorf(...) }] around a call. *)
Definition wrap {A} (f : error → error) (m : M A) : M A := λ fs,
  match m fs with
  | (fs, Err e) => (fs, Err (f e))
  | r => r
  end.
Definition of_result {A} (r : result A) : M A := λ fs, (fs, r).
(** The error as a value. *)
Definition attempt {A} (m : M A) : M (result A) := λ fs, let '(fs, r) := m fs in (fs, Ok r).

Declare Scope project_scope.
Delimit Scope project_scope with project.
Notation "'let*' x ':=' m 'in' k" := (bind m (λ x, k))
  (at level 200, x name, m at level 100, k at level 200) : project_scope.
Notation "'do*' m 'in' k" := (bind m (λ _, k))
  (at level 200, m at level 100, k at level 200) : project_scope.
Open Scope project_scope.

Definition next_fault : M io := λ fs,
  match faults fs with
  | [] => (fs, Ok IoOk)
  | o :: more => (mkProject (tree fs) more (names fs) (umask fs), Ok o)
  end.
Definition get_tree : M (gmap path node) := λ fs, (fs, Ok (tree fs)).
Definition write_node (p : path) (n : node) : M unit := λ fs, (put fs p n, Ok tt).
Definition remove_node (p : path) : M unit := λ fs, (set_tree fs (delete p (tree fs)), Ok tt).

(** ** Calls *)

(** [None] is an error that [os.IsNotExist] accepts. *)
Definition lstat (p : path) : M (option node) :=
  let* o := next_fault in
  match io_error o with
  | Some e => fail e
  | None => let* t := get_tree in ret (t !! p)
  end.

Definition read_node (n : option node) : result string :=
  match n with
  | None => Err "no such file or directory"
  | Some (File c _) => Ok c
  | Some Dir => Err "is a directory"
  | Some Symlink => Err "too many levels of symbolic links"
  | Some (Special r) => r
  end.
Definition readFile (p : path) : M string :=
  let* o := next_fault in
  match io_error o with
  | Some e => fail e
  | None => let* t := get_tree in of_result (read_node (t !! p))
  end.

(** The proper and improper non-empty prefixes of a path, shortest first. *)
Fixpoint prefixes_from (done_ rest : path) : list path :=
  match rest with
  | [] => []
  | c :: rest => (done_ ++ [c]) :: prefixes_from (done_ ++ [c]) rest
  end.
Definition prefixes (p : path) : list path := prefixes_from [] p.

(** [os.MkdirAll] along directories: create what is missing, stop at what is
    not a directory.  A torn call creates the first of the missing ones. *)
Fixpoint make_dirs (t : gmap path node) (ps : list path) (limit : nat) : gmap path node * option error :=
  match ps with
  | [] => (t, None)
  | p :: ps =>
      match t !! p with
      | Some Dir => make_dirs t ps limit
      | Some _ => (t, Some "not a directory")
      | None =>
          match limit with
          | 0 => (t, Some "interrupted")
          | S limit => make_dirs (<[p := Dir]> t) ps limit
          end
      end
  end.
Definition mkdirAll (dir : path) : M unit := λ fs,
  match next_fault fs with
  | (fs, Ok o) =>
      let limit := match o with IoOk => length dir | IoRefused _ => 0 | IoTorn _ n => n end in
      let '(t, r) := make_dirs (tree fs) (prefixes dir) limit in
      (set_tree fs t, match r, io_error o with
                      | Some _, Some e => Err e
                      | Some e, None => Err e
                      | None, _ => Ok tt
                      end)
  | (fs, Err e) => (fs, Err e)
  end.

(** [os.OpenFile] with [O_WRONLY|O_CREATE|O_EXCL]: an empty file. *)
Definition parent_dir (t : gmap path node) (dir : path) : bool :=
  match dir with [] => true | _ => match t !! dir with Some Dir => true | _ => false end end.
Definition dirname (p : path) : path := removelast p.
Definition openNew (p : path) (mode : Z) : M unit :=
  let* o := next_fault in
  match io_error o with
  | Some e => fail e
  | None => λ fs,
      match tree fs !! p with
      | Some _ => (fs, Err "file exists")
      | None =>
          if negb (parent_dir (tree fs) (dirname p)) then (fs, Err "no such file or directory")
          else write_node p (File "" (Z.ldiff mode (umask fs))) fs
      end
  end.

(** [os.CreateTemp]: the first of the random names that is not taken. *)
Fixpoint first_free (t : gmap path node) (dir : path) (prefix : string) (ns : list string)
    : option (path * list string) :=
  match ns with
  | [] => None
  | n :: ns => let p := dir ++ [prefix +:+ n] in
               match t !! p with
               | None => Some (p, ns)
               | Some _ => first_free t dir prefix ns
               end
  end.
Definition createTemp (dir : path) (prefix : string) : M path :=
  let* o := next_fault in
  match io_error o with
  | Some e => fail e
  | None => λ fs,
      if negb (parent_dir (tree fs) dir) then (fs, Err "no such file or directory")
      else match first_free (tree fs) dir prefix (names fs) with
           | None => (fs, Err "file exists")
           | Some (p, ns) =>
               (mkProject (<[p := File "" (Z.ldiff 384 (umask fs))]> (tree fs)) (faults fs) ns (umask fs), Ok p)
           end
  end.

(** Calls on an open file: what the error is, if any. *)
Definition file_mode (n : option node) : Z := match n with Some (File _ m) => m | _ => 0%Z end.
Definition file_content (n : option node) : string := match n with Some (File c _) => c | _ => "" end.
Definition fileWrite (p : path) (content : string) : M (option error) :=
  let* o := next_fault in
  let* t := get_tree in
  match o with
  | IoOk => do* write_node p (File content (file_mode (t !! p))) in ret None
  | IoRefused e => ret (Some e)
  | IoTorn e n => do* write_node p (File (str_take n content) (file_mode (t !! p))) in ret (Some e)
  end.
Definition fileChmod (p : path) (mode : Z) : M (option error) :=
  let* o := next_fault in
  let* t := get_tree in
  match io_error o with
  | Some e => ret (Some e)
  | None => do* write_node p (File (file_content (t !! p)) mode) in ret None
  end.
Definition fileClose : M (option error) :=
  let* o := next_fault in ret (io_error o).

(** [os.Rename] of a file over a file or nothing; it takes effect or it fails. *)
Definition renameFile (from to : path) : M unit :=
  let* o := next_fault in
  match io_error o with
  | Some e => fail e
  | None => λ fs,
      match tree fs !! from, tree fs !! to with
      | None, _ => (fs, Err "no such file or directory")
      | Some _, Some Dir => (fs, Err "file exists")
      | Some n, _ => (set_tree fs (<[to := n]> (delete from (tree fs))), Ok tt)
      end
  end.

(** [os.Remove] whose error is ignored. *)
Definition removeFile (p : path) : M unit :=
  let* o := next_fault in
  match io_error o with
  | Some _ => ret tt
  | None => remove_node p
  end.

(** [errors.Join]. *)
Definition join_errors (es : list (option string)) : option error :=
  match omap id es with
  | [] => None
  | es => Some (join es (String (ascii_of_N 10) ""))
  end.

(** ** What a computation does to the tree

    [relates R m]: every run of [m], failing or not, takes the tree [t] to a
    tree [t'] with [R t t'].  The relations below are preorders, so that the
    property of a sequence follows from that of its parts. *)

Definition relates {A : Type} (R : gmap path node → gmap path node → Prop) (m : M A) : Prop :=
  ∀ fs, R (tree fs) (tree (m fs).1).

Section Relates.
Context (R : gmap path node → gmap path node → Prop) {HR : PreOrder R}.

Lemma relates_ret {A} (a : A) : relates R (ret a).
Proof using Type*. intros fs. cbn. reflexivity. Qed.
Lemma relates_fail {A} e : relates R (@fail A e).
Proof using Type*. intros fs. cbn. reflexivity. Qed.
Lemma relates_of_result {A} (r : result A) : relates R (of_result r).
Proof using Type*. intros fs. cbn. reflexivity. Qed.
Lemma relates_bind {A B} (m : M A) (k : A → M B) :
  relates R m → (∀ a, relates R (k a)) → relates R (bind m k).
Proof using Type*.
  intros Hm Hk fs. unfold bind. specialize (Hm fs). destruct (m fs) as [fs1 [a|e]]; [|done].
  etransitivity; [exact Hm | apply Hk].
Qed.
Lemma relates_wrap {A} f (m : M A) : relates R m → relates R (wrap f m).
Proof using Type. intros Hm fs. unfold wrap. specialize (Hm fs). by destruct (m fs) as [fs1 []]. Qed.
Lemma relates_attempt {A} (m : M A) : relates R m → relates R (attempt m).
Proof using Type. intros Hm fs. unfold attempt. specialize (Hm fs). by destruct (m fs) as [fs1 ?]. Qed.
Lemma relates_next_fault : relates R next_fault.
Proof using Type*. intros fs. unfold next_fault. destruct (faults fs); cbn; reflexivity. Qed.
Lemma relates_get_tree : relates R get_tree.
Proof using Type*. intros fs. cbn. reflexivity. Qed.
Lemma relates_lstat p : relates R (lstat p).
Proof using Type*.
  apply relates_bind; [apply relates_next_fault|]. intros o. destruct (io_error o); [apply relates_fail|].
  apply relates_bind; [apply relates_get_tree|]. intros. apply relates_ret.
Qed.
Lemma relates_readFile p : relates R (readFile p).
Proof using Type*.
  apply relates_bind; [apply relates_next_fault|]. intros o. destruct (io_error o); [apply relates_fail|].
  apply relates_bind; [apply relates_get_tree|]. intros. apply relates_of_result.
Qed.
Lemma relates_fileClose : relates R fileClose.
Proof using Type*. apply relates_bind; [apply relates_next_fault|]. intros. apply relates_ret. Qed.
End Relates.

#[export] Hint Resolve relates_ret relates_fail relates_of_result relates_wrap relates_attempt
  relates_next_fault relates_get_tree relates_lstat relates_readFile relates_fileClose : relates.

(** Walk through a computation, one bind or branch at a time. *)
Ltac relates_steps :=
  repeat first
    [ solve [eauto with relates typeclass_instances]
    | apply relates_bind; [ exact _ | | intros ? ]
    | apply relates_wrap | apply relates_attempt
    | progress cbn beta iota
    | match goal with |- relates _ (match ?x with _ => _ end) => destruct x end ].

(** Nothing changes; every node outside [ps] stays as it is; every node does. *)
Definition unchanged : relation (gmap path node) := (=).
Definition replaces (ps : list path) : relation (gmap path node) :=
  λ t t', ∀ q n, q ∉ ps → t !! q = Some n → t' !! q = Some n.
Abbreviation extends := (replaces []).
#[export] Instance unchanged_preorder : PreOrder unchanged.
Proof. unfold unchanged. apply _. Qed.
#[export] Instance replaces_preorder ps : PreOrder (replaces ps).
Proof.
  split; [by intros t q n|]. intros t t1 t2 H1 H2 q n Hq Hn. apply H2; [done|]. by apply H1.
Qed.

Lemma relates_weaken {A : Type} (R R' : relation (gmap path node)) (m : M A) :
  (∀ t t', R t t' → R' t t') → relates R m → relates R' m.
Proof. intros HR Hm fs. apply HR, Hm. Qed.
Lemma replaces_mono ps ps' t t' : (∀ q, q ∈ ps → q ∈ ps') → replaces ps t t' → replaces ps' t t'.
Proof. intros Hs Hr q n Hq. apply Hr. naive_solver. Qed.
Lemma relates_replaces_mono {A : Type} ps ps' (m : M A) :
  (∀ q, q ∈ ps → q ∈ ps') → relates (replaces ps) m → relates (replaces ps') m.
Proof. intros Hs. apply relates_weaken. intros t t'. by apply replaces_mono. Qed.
Lemma relates_unchanged_replaces {A : Type} ps (m : M A) : relates unchanged m → relates (replaces ps) m.
Proof. apply relates_weaken. by intros t t' -> q n. Qed.
(** What was not there is not replaced. *)
Lemma replaces_absent q ps t t' : t !! q = None → replaces (q :: ps) t t' → replaces ps t t'.
Proof.
  intros Hq Hr q' n Hq' Hn. apply Hr; [|done]. intros [->|]%elem_of_cons; [congruence | done].
Qed.

Lemma insert_replaces q n ps t : q ∈ ps ∨ t !! q = None → replaces ps t (<[q := n]> t).
Proof.
  intros Hq q' n' Hq' Hn. rewrite lookup_insert_ne; [done|]. intros ->. destruct Hq; [done | congruence].
Qed.
Lemma make_dirs_extends t ps limit : extends t (make_dirs t ps limit).1.
Proof.
  revert t limit. induction ps as [|p ps IH]; intros t limit; [reflexivity|]. cbn [make_dirs].
  destruct (t !! p) as [[]|] eqn:E; try reflexivity; [apply IH|].
  destruct limit; [reflexivity|]. etransitivity; [|apply IH]. apply insert_replaces. by right.
Qed.
Lemma mkdirAll_extends dir : relates extends (mkdirAll dir).
Proof.
  intros fs. unfold mkdirAll. pose proof (relates_next_fault extends fs) as Hn.
  destruct (next_fault fs) as [fs1 [o|e]]; [|done]. cbn [fst] in Hn.
  pose proof (make_dirs_extends (tree fs1) (prefixes dir)
    (match o with IoOk => length dir | IoRefused _ => 0 | IoTorn _ n => n end)) as Hm.
  destruct (make_dirs _ _ _) as [t r]. cbn. by etransitivity.
Qed.
Lemma relates_write_node ps p n : p ∈ ps → relates (replaces ps) (write_node p n).
Proof. intros Hp fs. apply insert_replaces. by left. Qed.
Lemma relates_remove_node ps p : p ∈ ps → relates (replaces ps) (remove_node p).
Proof.
  intros Hp fs q n Hq Hn. cbn. rewrite lookup_delete_ne; [done|]. by intros ->.
Qed.
#[export] Hint Resolve relates_write_node relates_remove_node : relates.

Lemma relates_fileWrite ps p c : p ∈ ps → relates (replaces ps) (fileWrite p c).
Proof. intros Hp. unfold fileWrite. relates_steps. Qed.
Lemma relates_fileChmod ps p m : p ∈ ps → relates (replaces ps) (fileChmod p m).
Proof. intros Hp. unfold fileChmod. relates_steps. Qed.
Lemma relates_removeFile ps p : p ∈ ps → relates (replaces ps) (removeFile p).
Proof. intros Hp. unfold removeFile. relates_steps. Qed.
Lemma relates_renameFile ps from to :
  from ∈ ps → to ∈ ps → relates (replaces ps) (renameFile from to).
Proof.
  intros Hf Ht. unfold renameFile. apply relates_bind; [exact _ | eauto with relates typeclass_instances|].
  intros o. destruct (io_error o); [eauto with relates typeclass_instances|]. intros fs.
  destruct (tree fs !! from); [|reflexivity]. destruct (tree fs !! to) as [[]|]; cbn; try reflexivity;
    intros q m Hq Hm; rewrite lookup_insert_ne, lookup_delete_ne by naive_solver; done.
Qed.
#[export] Hint Resolve relates_fileWrite relates_fileChmod relates_removeFile relates_renameFile : relates.

Lemma next_fault_eq fs :
  ∃ o fs1, next_fault fs = (fs1, Ok o) ∧ tree fs1 = tree fs ∧ umask fs1 = umask fs ∧ names fs1 = names fs.
Proof. unfold next_fault. destruct (faults fs); by do 2 eexists. Qed.

(** A call that creates a path tells that it was free. *)
Lemma openNew_Ok p mode fs fs' a :
  openNew p mode fs = (fs', Ok a) →
  tree fs !! p = None ∧ tree fs' = <[p := File "" (Z.ldiff mode (umask fs))]> (tree fs).
Proof.
  unfold openNew, bind. destruct (next_fault_eq fs) as (o & fs1 & -> & Ht & Hu & _).
  destruct (io_error o); [done|]. rewrite <- Ht, <- Hu.
  destruct (tree fs1 !! p); [done|]. destruct (negb _); [done|]. by intros [= <- <-].
Qed.
Lemma openNew_extends p mode : relates extends (openNew p mode).
Proof.
  intros fs. unfold openNew, bind. destruct (next_fault_eq fs) as (o & fs1 & -> & <- & _).
  destruct (io_error o); [reflexivity|].
  destruct (tree fs1 !! p) eqn:Ep; [reflexivity|]. destruct (negb _); [reflexivity|].
  apply insert_replaces. by right.
Qed.
Lemma first_free_None t dir prefix ns p ns' :
  first_free t dir prefix ns = Some (p, ns') → t !! p = None ∧ ∃ n, p = dir ++ [prefix +:+ n].
Proof.
  induction ns as [|n ns IH]; [done|]. cbn. destruct (t !! (dir ++ [prefix +:+ n])) eqn:E; [exact IH|].
  intros [= <- <-]. split; [done | by exists n].
Qed.
Lemma createTemp_spec dir prefix fs fs' r :
  createTemp dir prefix fs = (fs', r) →
  extends (tree fs) (tree fs')
  ∧ match r with
    | Ok p => tree fs !! p = None ∧ ∃ n, p = dir ++ [prefix +:+ n]
    | Err _ => True
    end.
Proof.
  unfold createTemp, bind. destruct (next_fault_eq fs) as (o & fs1 & -> & <- & _).
  destruct (io_error o); [by intros [= <- <-]|]. destruct (negb _); [by intros [= <- <-]|].
  destruct (first_free _ _ _ _) as [[p ns]|] eqn:E; intros [= <- <-]; [|done]. cbn.
  apply first_free_None in E as [Hp Hn]. split; [|done].
  apply insert_replaces. by right.
Qed.
#[export] Hint Resolve openNew_extends mkdirAll_extends : relates.

(** ** Results of successful calls *)

Lemma bind_Ok {A B : Type} (m : M A) (k : A → M B) fs fs' b :
  bind m k fs = (fs', Ok b) → ∃ fs1 a, m fs = (fs1, Ok a) ∧ k a fs1 = (fs', Ok b).
Proof. unfold bind. destruct (m fs) as [fs1 [a|e]]; [|done]. by eauto. Qed.
Lemma wrap_Ok {A : Type} f (m : M A) fs fs' a : wrap f m fs = (fs', Ok a) → m fs = (fs', Ok a).
Proof. unfold wrap. by destruct (m fs) as [fs1 [a'|e]]. Qed.

Lemma lstat_Ok p fs fs' i : lstat p fs = (fs', Ok i) → tree fs' = tree fs ∧ i = tree fs !! p.
Proof.
  unfold lstat, bind. destruct (next_fault_eq fs) as (o & fs1 & -> & <- & _).
  destruct (io_error o); [done|]. by intros [= <- <-].
Qed.
Lemma readFile_Ok p fs fs' c :
  readFile p fs = (fs', Ok c) → tree fs' = tree fs ∧ read_node (tree fs !! p) = Ok c.
Proof.
  unfold readFile, bind. destruct (next_fault_eq fs) as (o & fs1 & -> & <- & _).
  destruct (io_error o); [done|]. cbn. by intros [= <- ->].
Qed.
Lemma fileWrite_Ok p c fs fs' :
  fileWrite p c fs = (fs', Ok None) → ∃ m, tree fs' = <[p := File c m]> (tree fs).
Proof.
  unfold fileWrite, bind. destruct (next_fault_eq fs) as (o & fs1 & -> & <- & _). cbn.
  destruct o; cbn; try done. intros [= <-]. by eexists.
Qed.
Lemma fileChmod_Ok p m fs fs' :
  fileChmod p m fs = (fs', Ok None) →
  tree fs' = <[p := File (file_content (tree fs !! p)) m]> (tree fs).
Proof.
  unfold fileChmod, bind. destruct (next_fault_eq fs) as (o & fs1 & -> & <- & _). cbn.
  destruct (io_error o); cbn; [done|]. by intros [= <-].
Qed.
Lemma renameFile_Ok from to fs fs' a :
  renameFile from to fs = (fs', Ok a) →
  ∃ n, tree fs !! from = Some n ∧ tree fs' = <[to := n]> (delete from (tree fs)).
Proof.
  unfold renameFile, bind. destruct (next_fault_eq fs) as (o & fs1 & -> & <- & _).
  destruct (io_error o); [done|]. destruct (tree fs1 !! from) as [n|]; [|done].
  intros E. exists n. split; [done|]. destruct (tree fs1 !! to) as [[]|]; try done; by injection E as <- _.
Qed.
Lemma fileClose_tree fs fs' r : fileClose fs = (fs', r) → tree fs' = tree fs.
Proof.
  unfold fileClose, bind. destruct (next_fault_eq fs) as (o & fs1 & -> & <- & _). by intros [= <- _].
Qed.
Lemma removeFile_tree p fs fs' r :
  removeFile p fs = (fs', r) → tree fs' = tree fs ∨ tree fs' = delete p (tree fs).
Proof.
  unfold removeFile, bind. destruct (next_fault_eq fs) as (o & fs1 & -> & <- & _).
  destruct (io_error o); intros [= <- _]; [by left | by right].
Qed.
Lemma join_errors_None es : join_errors es = None → Forall (λ e, e = None) es.
Proof.
  unfold join_errors, error. destruct (omap id es) eqn:Ho; [intros _|done].
  induction es as [|[e|] es IH]; [constructor | done |]. constructor; [done|]. apply IH, Ho.
Qed.
Lemma bind_Err {A B : Type} (m : M A) (k : A → M B) fs fs' e :
  bind m k fs = (fs', Err e) →
  m fs = (fs', Err e) ∨ ∃ fs1 a, m fs = (fs1, Ok a) ∧ k a fs1 = (fs', Err e).
Proof. unfold bind. destruct (m fs) as [fs1 [a|e']]; [right; by eauto | left; congruence]. Qed.
Lemma renameFile_Err from to fs fs' e : renameFile from to fs = (fs', Err e) → tree fs' = tree fs.
Proof.
  unfold renameFile, bind. destruct (next_fault_eq fs) as (o & fs1 & -> & <- & _).
  destruct (io_error o); [by intros [= <- _]|]. destruct (tree fs1 !! from) as [n|]; [|by intros [= <- _]].
  destruct (tree fs1 !! to) as [[]|]; by intros [= <- _].
Qed.
Lemma relates_run {A : Type} (R : gmap path node → gmap path node → Prop) (m : M A) fs fs' r :
  relates R m → m fs = (fs', r) → R (tree fs) (tree fs').
Proof. intros Hm E. specialize (Hm fs). by rewrite E in Hm. Qed.

(** ** Calls that follow a path

    The components below the root that a path denotes.  A call on a path walks
    its parents, which have to be directories (below a missing one everything is
    missing); a symbolic link here is one that leads nowhere. *)

Definition parts (relPath : string) : path := split (Clean relPath) "/".

Fixpoint walk_parents (t : gmap path node) (ps : list path) (found : option node) : result (option node) :=
  match ps with
  | [] => Ok found
  | q :: ps =>
      match t !! q with
      | None | Some Dir => walk_parents t ps found
      | Some Symlink => Err "too many levels of symbolic links"
      | Some _ => Err "not a directory"
      end
  end.
Definition find_node (t : gmap path node) (p : path) : result (option node) :=
  walk_parents t (prefixes (dirname p)) (t !! p).

(** [os.Stat]; [None] is an error that [os.IsNotExist] accepts. *)
Definition stat (p : path) : M (option node) :=
  let* o := next_fault in
  match io_error o with
  | Some e => fail e
  | None => let* t := get_tree in
            match find_node t p with
            | Ok (Some Symlink) => fail "too many levels of symbolic links"
            | r => of_result r
            end
  end.

(** [os.WriteFile]: an existing file keeps its mode and loses its content. *)
Definition write_bytes (p : path) (content : string) (mode : Z) (o : io) : M unit :=
  match o with
  | IoOk => write_node p (File content mode)
  | IoRefused e => fail e
  | IoTorn e n => do* write_node p (File (str_take n content) mode) in fail e
  end.
Definition writeFile (p : path) (content : string) (mode : Z) : M unit :=
  let* o := next_fault in
  let* t := get_tree in
  match find_node t p with
  | Err e => fail e
  | Ok (Some (File _ m)) => write_bytes p content m o
  | Ok (Some Dir) => fail "is a directory"
  | Ok (Some Symlink) => fail "too many levels of symbolic links"
  | Ok (Some (Special _)) => match io_error o with Some e => fail e | None => ret tt end
  | Ok None => λ fs,
      if parent_dir t (dirname p) then write_bytes p content (Z.ldiff mode (umask fs)) o fs
      else (fs, Err "no such file or directory")
  end.

(** [os.ReadDir]: the names in order, and whether each is a directory. *)
Definition child_name (dir : path) (p : path) : option string :=
  match last p with
  | Some c => if decide (removelast p = dir) then Some c else None
  | None => None
  end.
Definition children (t : gmap path node) (dir : path) : list string :=
  sort_strings (omap (child_name dir) (map_to_list t).*1).
Definition dir_entry (t : gmap path node) (dir : path) (name : string) : string * bool :=
  (name, match t !! (dir ++ [name]) with Some n => is_dir n | None => false end).
Definition readDir (dir : path) : M (list (string * bool)) :=
  let* o := next_fault in
  match io_error o with
  | Some e => fail e
  | None =>
      let* t := get_tree in
      match find_node t dir with
      | Err e => fail e
      | Ok None => fail "no such file or directory"
      | Ok (Some Dir) => ret (dir_entry t dir <$> children t dir)
      | Ok (Some _) => fail "not a directory"
      end
  end.

Lemma removelast_last {A} (p : list A) c : last p = Some c → p = removelast p ++ [c].
Proof.
  destruct p as [|x p _] using rev_ind; [done|]. rewrite last_snoc. intros [= ->]. by rewrite removelast_last.
Qed.
Lemma child_name_Some dir p c : child_name dir p = Some c ↔ p = dir ++ [c].
Proof.
  unfold child_name. split.
  - destruct (last p) as [c'|] eqn:E; [|done]. destruct (decide _) as [<-|]; [|done].
    intros [= ->]. by apply removelast_last.
  - intros ->. rewrite last_snoc, List.removelast_last. by rewrite decide_True.
Qed.
Lemma elem_of_children t dir c : c ∈ children t dir ↔ is_Some (t !! (dir ++ [c])).
Proof.
  unfold children. rewrite sort_strings_Permutation, list_elem_of_omap. split.
  - intros (p & Hp & ->%child_name_Some). apply list_elem_of_fmap in Hp as ([p n] & -> & Hin).
    apply elem_of_map_to_list in Hin. by exists n.
  - intros [n Hn]. exists (dir ++ [c]). split; [|by apply child_name_Some].
    apply list_elem_of_fmap. exists (dir ++ [c], n). split; [done|]. by apply elem_of_map_to_list.
Qed.
Lemma children_NoDup t dir : NoDup (children t dir).
Proof.
  unfold children. rewrite sort_strings_Permutation. pose proof (NoDup_fst_map_to_list t) as Hn.
  induction Hn as [|p l Hp _ IH]; [constructor|]. cbn [omap list_omap].
  destruct (child_name dir p) as [c|] eqn:E; [|done]. constructor; [|done].
  intros (q & Hq & Hc)%list_elem_of_omap. apply child_name_Some in E, Hc. congruence.
Qed.

Section Follow.
Context (R : gmap path node → gmap path node → Prop) {HR : PreOrder R}.
Lemma relates_stat p : relates R (stat p).
Proof using Type*. unfold stat. relates_steps. Qed.
Lemma relates_readDir p : relates R (readDir p).
Proof using Type*. unfold readDir. relates_steps. Qed.
End Follow.
#[export] Hint Resolve relates_stat relates_readDir : relates.

Lemma relates_write_bytes ps p c m o : p ∈ ps → relates (replaces ps) (write_bytes p c m o).
Proof. intros Hp. unfold write_bytes. relates_steps. Qed.
#[export] Hint Resolve relates_write_bytes : relates.
Lemma relates_writeFile ps p c m : p ∈ ps → relates (replaces ps) (writeFile p c m).
Proof.
  intros Hp. unfold writeFile. relates_steps. intros fs.
  destruct (parent_dir _ _); [|reflexivity]. by apply relates_write_bytes.
Qed.
#[export] Hint Resolve relates_writeFile : relates.

Lemma walk_parents_Ok t ps found i : walk_parents t ps found = Ok i → i = found.
Proof. induction ps as [|q ps IH]; cbn; [by intros [= <-]|]. by destruct (t !! q) as [[]|]. Qed.
Lemma find_node_Ok t p i : find_node t p = Ok i → t !! p = i.
Proof. by intros ->%walk_parents_Ok. Qed.
Lemma find_node_dirs t p :
  (∀ q, q ∈ prefixes (dirname p) → t !! q = None ∨ t !! q = Some Dir) → find_node t p = Ok (t !! p).
Proof.
  unfold find_node. generalize (t !! p). induction (prefixes (dirname p)) as [|q ps IH]; intros found Hq; [done|].
  cbn [walk_parents]. destruct (Hq q) as [-> | ->]; [by left| |]; apply IH; intros; apply Hq; by right.
Qed.
Lemma stat_Ok p fs fs' i : stat p fs = (fs', Ok i) → tree fs' = tree fs ∧ find_node (tree fs) p = Ok i.
Proof.
  unfold stat, bind. destruct (next_fault_eq fs) as (o & fs1 & -> & <- & _).
  destruct (io_error o); [done|]. cbn. by destruct (find_node _ _) as [[[]|]|]; cbn; intros [= <- <-].
Qed.

Definition mode_kept (n : option node) (mode : Z) : Z := match n with Some (File _ m) => m | _ => mode end.
Lemma writeFile_Ok p c mode fs fs' a :
  writeFile p c mode fs = (fs', Ok a) →
  tree fs' = <[p := File c (mode_kept (tree fs !! p) (Z.ldiff mode (umask fs)))]> (tree fs)
  ∨ ∃ s, tree fs !! p = Some (Special s) ∧ tree fs' = tree fs.
Proof.
  unfold writeFile, bind. destruct (next_fault_eq fs) as (o & fs1 & -> & Ht & Hu & _). unfold get_tree. rewrite Ht.
  destruct (find_node (tree fs) p) as [i|] eqn:E; [|done]. apply find_node_Ok in E. rewrite E.
  destruct i as [[]|]; try done.
  - destruct o; cbn [write_bytes]; try done. intros [= <- _]. left. cbn. by rewrite Ht.
  - destruct (io_error o); [done|]. intros [= <- _]. right. by exists content.
  - destruct (parent_dir _ _); [|done]. destruct o; cbn [write_bytes]; try done. intros [= <- _]. left. cbn. by rewrite Ht, Hu.
Qed.
(** Runs in which every call succeeds. *)
Lemma next_fault_quiet fs : faults fs = [] → next_fault fs = (fs, Ok IoOk).
Proof. intros Hf. unfold next_fault. by rewrite Hf. Qed.
Lemma stat_run p fs :
  faults fs = [] → stat p fs =
    (fs, match find_node (tree fs) p with
         | Ok (Some Symlink) => Err "too many levels of symbolic links"
         | r => r
         end).
Proof.
  intros Hf. unfold stat, bind. rewrite next_fault_quiet by done. cbn [io_error]. unfold get_tree.
  by destruct (find_node (tree fs) p) as [[[]|]|].
Qed.
Lemma readFile_quiet p fs c :
  faults fs = [] → read_node (tree fs !! p) = Ok c → readFile p fs = (fs, Ok c).
Proof. intros Hf Hr. unfold readFile, bind. rewrite next_fault_quiet by done. cbn. by rewrite Hr. Qed.
Lemma writeFile_quiet p c m fs :
  faults fs = [] → find_node (tree fs) p = Ok None → parent_dir (tree fs) (dirname p) = true →
  writeFile p c m fs = (put fs p (File c (Z.ldiff m (umask fs))), Ok tt).
Proof.
  intros Hf Hn Hp. unfold writeFile, bind. rewrite next_fault_quiet by done. cbn. rewrite Hn. cbn. by rewrite Hp.
Qed.
Lemma writeFile_over p c m fs c0 m0 :
  faults fs = [] → find_node (tree fs) p = Ok (Some (File c0 m0)) →
  writeFile p c m fs = (put fs p (File c m0), Ok tt).
Proof. intros Hf Hn. unfold writeFile, bind. rewrite next_fault_quiet by done. cbn. by rewrite Hn. Qed.
Lemma readDir_quiet p fs :
  faults fs = [] → find_node (tree fs) p = Ok (Some Dir) →
  readDir p fs = (fs, Ok (dir_entry (tree fs) p <$> children (tree fs) p)).
Proof. intros Hf Hn. unfold readDir, bind. rewrite next_fault_quiet by done. cbn. by rewrite Hn. Qed.

Definition free_or_dir (t : gmap path node) (q : path) : Prop := t !! q = None ∨ t !! q = Some Dir.
(** [t'] is [t] with the directories [ps] made. *)
Definition with_dirs (ps : list path) (t t' : gmap path node) : Prop :=
  ∀ q, t' !! q = if decide (q ∈ ps) then Some Dir else t !! q.
Lemma make_dirs_quiet t ps limit :
  length ps ≤ limit → (∀ q, q ∈ ps → free_or_dir t q) → ∃ t', make_dirs t ps limit = (t', None) ∧ with_dirs ps t t'.
Proof.
  revert t limit. induction ps as [|p ps IH]; intros t limit Hl Hps; [by exists t|]. cbn [make_dirs].
  assert (∀ t2, with_dirs ps (<[p := Dir]> t) t2 → with_dirs (p :: ps) t t2) as Hins.
  { intros t2 H2 q. rewrite H2. destruct (decide (q = p)) as [->|Hne].
    - rewrite lookup_insert_eq, (decide_True (P := p ∈ p :: ps)) by by left. by case_decide.
    - rewrite lookup_insert_ne by done. repeat case_decide; set_solver. }
  destruct (Hps p) as [E|E]; [by left| |]; rewrite E.
  - cbn [length] in Hl. destruct limit as [|limit]; [lia|].
    destruct (IH (<[p := Dir]> t) limit) as (t' & -> & Ht'); [lia| |by eauto].
    intros q Hq. unfold free_or_dir. destruct (decide (q = p)) as [->|]; [right; apply lookup_insert_eq|].
    rewrite lookup_insert_ne by done. apply Hps. by right.
  - destruct (IH t limit) as (t' & -> & Ht'); [cbn in Hl; lia|intros; apply Hps; by right|]. exists t'. split; [done|].
    apply Hins. by rewrite insert_id.
Qed.
Lemma length_prefixes_from d r : length (prefixes_from d r) = length r.
Proof. revert d. induction r as [|c r IH]; intros d; cbn; [done|]. by rewrite IH. Qed.
Lemma mkdirAll_quiet dir fs :
  faults fs = [] → (∀ q, q ∈ prefixes dir → free_or_dir (tree fs) q) →
  ∃ t', mkdirAll dir fs = (set_tree fs t', Ok tt) ∧ with_dirs (prefixes dir) (tree fs) t'.
Proof.
  intros Hf Hq. unfold mkdirAll. rewrite next_fault_quiet by done.
  destruct (make_dirs_quiet (tree fs) (prefixes dir) (length dir)) as (t' & -> & Ht'); [|done|by exists t'].
  unfold prefixes. by rewrite length_prefixes_from.
Qed.

(** ** Paths and their parents *)

Lemma elem_of_prefixes_from d r q :
  q ∈ prefixes_from d r ↔ ∃ x, x ≠ [] ∧ q = d ++ x ∧ x `prefix_of` r.
Proof.
  revert d. induction r as [|c r IH]; intros d; cbn [prefixes_from].
  - split; [by intros ?%elem_of_nil|]. intros (x & Hx & _ & [y Hy]). by destruct x.
  - rewrite elem_of_cons, IH. split.
    + intros [->|(x & Hx & -> & [y ->])]; [exists [c]; split_and!; [done..|by exists r]|].
      exists (c :: x). split_and!; [done|by rewrite <- (assoc_L (++))|]. by exists y.
    + intros (x & Hx & -> & [y Hy]). destruct x as [|c' x]; [done|]. injection Hy as <- ->. destruct x as [|c2 x]; [by left|].
      right. exists (c2 :: x). split_and!; [done|by rewrite <- (assoc_L (++))|]. by exists y.
Qed.
Lemma elem_of_prefixes p q : q ∈ prefixes p ↔ q ≠ [] ∧ q `prefix_of` p.
Proof. unfold prefixes. rewrite elem_of_prefixes_from. naive_solver. Qed.
Lemma dirname_snoc (p : path) c : dirname (p ++ [c]) = p.
Proof. apply List.removelast_last. Qed.
Lemma snoc_ne {A} (l : list A) x : l ++ [x] ≠ [].
Proof. by destruct l. Qed.
Definition dirs (t : gmap path node) (p : path) : Prop := ∀ q, q ∈ prefixes p → t !! q = Some Dir.

(** A node has its parents. *)
Definition tree_closed (t : gmap path node) : Prop := ∀ p c, p ≠ [] → is_Some (t !! (p ++ [c])) → t !! p = Some Dir.
Lemma closed_absent t p q : tree_closed t → p ≠ [] → t !! p = None → p `prefix_of` q → t !! q = None.
Proof.
  intros Ht Hp Hn [r ->]. induction r as [|c r IH] using rev_ind; [by rewrite app_nil_r|].
  destruct (t !! (p ++ r ++ [c])) eqn:E; [|done]. rewrite (assoc_L (++)) in E.
  assert (t !! (p ++ r) = Some Dir) by (apply (Ht _ c); [by destruct p|by eexists]). congruence.
Qed.
(** No file is in the way of a directory. *)
Definition no_conflict (ps : list path) : Prop := ∀ a b, a ∈ ps → b ∈ ps → a `prefix_of` b → a = b.

(** The next step after one that succeeded. *)
Lemma bind_run {A B : Type} (m : M A) (k : A → M B) fs fs1 a : m fs = (fs1, Ok a) → bind m k fs = k a fs1.
Proof. unfold bind. by intros ->. Qed.
Lemma wrap_run {A : Type} f (m : M A) fs fs1 a : m fs = (fs1, Ok a) → wrap f m fs = (fs1, Ok a).
Proof. unfold wrap. by intros ->. Qed.
