(* ===== verification/Upgrade.v ===== *)
(** * Upgrading the embedded runtime of a project

    Models src/internal/cli/upgrade.go and upgrade_baseline.go: the plan (a
    three-way comparison of every managed file with its baseline and its
    target), its application with backups, and the paths it may touch.
    encoding/json, git, the embedded sources, SHA-256 and the clock are
    parameters.  The lines printed for the user are left out. *)

From S2P Require Import Prelude GoStrings Os ProjectFs.

(** ** Data *)

Record upgradeManifest := mkManifest {
  um_Version : string;
  um_UpdatedAt : string;
  um_ProjectType : string;
  um_Architecture : string;
  um_Database : string;
  um_Features : list string;
  um_RuntimeFiles : gmap string string;
}.
Definition empty_manifest : upgradeManifest := mkManifest "" "" "" "" "" [] ∅.

Inductive action_status := StUpdate | StMerge | StConflict | StCurrent | StIgnore.
#[global] Instance action_status_dec : EqDecision action_status.
Proof. solve_decision. Defined.

Record upgradeFileAction := mkAction {
  ac_path : string;
  status : action_status;
  original : string;
  content : string;
  mode : Z;
  conflict : string;
  conflictTo : string;
}.
Record upgradeReport := mkReport {
  from : string;
  to : string;
  actions : list upgradeFileAction;
  artifactIgnore : option upgradeFileAction;
}.

Definition latestRuntimeUpgradeVersion : string := "1.4.1".
Definition supportedRuntimeUpgradeSources : list string := ["1.1.0"; "1.2.0"; "1.3.0"; "1.4.0"].
Definition runtimeUpgradePaths : list string :=
  ["pkg/runtime/server.go"; "pkg/runtime/router.go"; "pkg/runtime/proxy.go";
   "pkg/runtime/metrics.go"; "pkg/runtime/hmr/hmr.go"; "pkg/runtime/auth.go"].

(** ** Paths below the root *)

Fixpoint safe_walk (current rest : path) : M (option node) :=
  match rest with
  | [] => ret None
  | part :: rest =>
      let current := current ++ [part] in
      let* info := wrap (λ e, "inspect project path " +:+ filepath_Join current +:+ ": " +:+ e)
                     (lstat current) in
      match info with
      | None => ret None
      | Some n =>
          if is_symlink n
          then fail ("refusing to follow symlink in project path " +:+ filepath_Join current)
          else match rest with
               | [] => ret (Some n)
               | _ => if negb (is_dir n)
                      then fail ("project path component " +:+ filepath_Join current
                                 +:+ " is not a directory")
                      else safe_walk current rest
               end
      end
  end.

Definition unsafe (clean : string) : bool :=
  IsAbs clean || String.eqb clean "." || String.eqb clean ".." || has_prefix clean "../".
Definition safeProjectPath (relPath : string) : M (path * option node) :=
  let clean := Clean relPath in
  if unsafe clean then fail ("unsafe project path " +:+ quote relPath)
  else let parts := split clean "/" in
       let* info := safe_walk [] parts in ret (parts, info).

Definition writeProjectFile (relPath content : string) (mode : Z) : M unit :=
  let* pi := safeProjectPath relPath in
  do* mkdirAll (dirname pi.1) in
  do* safeProjectPath relPath in
  let* temp := createTemp (dirname pi.1) ".fgoths-upgrade-" in
  let* werr := fileWrite temp content in
  let* cherr := fileChmod temp (Z.land mode 511) in
  let* clerr := fileClose in
  let* r := attempt (match join_errors [werr; cherr; clerr] with
                     | Some e => fail e
                     | None => renameFile temp pi.1
                     end) in
  do* removeFile temp in
  of_result r.

Definition writeNewProjectFile (relPath content : string) (mode : Z) : M unit :=
  let* pi := safeProjectPath relPath in
  match pi.2 with
  | Some _ => fail (relPath +:+ " already exists; refusing to overwrite it")
  | None =>
      do* mkdirAll (dirname pi.1) in
      do* safeProjectPath relPath in
      do* openNew pi.1 (Z.land mode 511) in
      let* werr := fileWrite pi.1 content in
      let* clerr := fileClose in
      match join_errors [werr; clerr] with
      | Some e => fail e
      | None => ret tt
      end
  end.

(** ** The .gitignore of the upgrade artifacts *)

Definition upgradeArtifactIgnoreRules : list string := ["/upgrade-backups/"; "/upgrade-conflicts/"].
Definition lf : string := String (ascii_of_N 10) "".
Definition crlf : string := String (ascii_of_N 13) lf.

Definition hasIgnoreRule (content rule : string) : bool :=
  existsb (λ line, String.eqb (trim_space line) rule) (split content (ascii_of_N 10)).
Definition add_rule (content rule : string) : string :=
  if hasIgnoreRule content rule then content
  else
    let newline := if contains content crlf then crlf else lf in
    let content := if (0 <? String.length content) && negb (has_suffix content lf)
                   then content +:+ newline else content in
    content +:+ rule +:+ newline.
Definition ignore_path : string := ".fgoths/.gitignore".

Definition ignore_action (original : string) (mode : Z) : option upgradeFileAction :=
  let content := foldl add_rule original upgradeArtifactIgnoreRules in
  if String.eqb content original then None
  else Some (mkAction ignore_path StIgnore original content mode "" "").
Definition planUpgradeArtifactIgnore : M (option upgradeFileAction) :=
  let* pi := safeProjectPath ignore_path in
  match pi.2 with
  | None => ret (ignore_action "" 420)
  | Some n =>
      if negb (is_regular n)
      then fail (ignore_path +:+ " is not a regular file; refusing to update it")
      else let* original := wrap (λ e, "read " +:+ ignore_path +:+ ": " +:+ e) (readFile pi.1) in
           ret (ignore_action original (perm n))
  end.

Definition changed (path : string) : error :=
  path +:+ " changed after the upgrade plan was created; no content was written".

Definition applyUpgradeArtifactIgnore (backupRoot : string) (a : upgradeFileAction) : M unit :=
  let* pi := safeProjectPath (ac_path a) in
  match pi.2 with
  | None =>
      if negb (String.eqb (original a) "") then fail (changed (ac_path a))
      else wrap (λ e, "write " +:+ ac_path a +:+ ": " +:+ e)
             (writeNewProjectFile (ac_path a) (content a) (mode a))
  | Some n =>
      if negb (is_regular n) then fail (changed (ac_path a))
      else
        let* orig := wrap (λ e, "read " +:+ ac_path a +:+ " before update: " +:+ e) (readFile pi.1) in
        if negb (String.eqb orig (original a)) then fail (changed (ac_path a))
        else
          let backupPath := filepath_Join [backupRoot; ac_path a] in
          do* wrap (λ e, "back up " +:+ ac_path a +:+ ": " +:+ e)
                (writeNewProjectFile backupPath orig (perm n)) in
          wrap (λ e, "write " +:+ ac_path a +:+ " (backup at " +:+ backupPath +:+ "): " +:+ e)
            (writeProjectFile (ac_path a) (content a) (mode a))
  end.

(** ** The merge *)

Inductive merge_result :=
  | Merged (content : string)
  | MergeConflict (content : string)
  | MergeError (e : error).

(** [mergeWithGit]: [git] is the lookup of the program, [workspace] the creation
    of the temporary directory, [inputs] the outcomes of the three writes, and
    [run] the output of git with how it exited. *)
Inductive git_exit := ExitOk | ExitCode (code : Z) (e : error) | ExitOther (e : error).
Fixpoint first_error (rs : list (option error)) : option error :=
  match rs with
  | [] => None
  | Some e :: _ => Some e
  | None :: rs => first_error rs
  end.
Definition mergeWithGit (git : result string) (workspace : result string) (inputs : list (option error))
    (run : string → string → string → string * git_exit) (current base target : string) : merge_result :=
  match git with
  | Err _ => MergeError "git is required to merge locally edited runtime files"
  | Ok _ =>
      match workspace with
      | Err e => MergeError ("create merge workspace: " +:+ e)
      | Ok _ =>
          match first_error inputs with
          | Some e => MergeError ("write merge input: " +:+ e)
          | None =>
              let '(output, r) := run current base target in
              match r with
              | ExitOk => Merged output
              | ExitCode code e =>
                  if (code =? 1)%Z then MergeConflict output
                  else MergeError ("git merge-file failed: " +:+ trim_space output +:+ ": " +:+ e)
              | ExitOther e => MergeError ("git merge-file failed: " +:+ trim_space output +:+ ": " +:+ e)
              end
          end
      end
  end.

(** What is to be done with one file, from its three contents. *)
Definition plan_action (merge : string → string → string → merge_result) (to relPath : string)
    (mode : Z) (current base target : string) : result upgradeFileAction :=
  let action st content conflict conflictTo :=
    Ok (mkAction relPath st current content mode conflict conflictTo) in
  if String.eqb current target then action StCurrent "" "" ""
  else if String.eqb current base then action StUpdate target "" ""
  else match merge current base target with
       | MergeConflict merged =>
           action StConflict target merged
             (filepath_Join [".fgoths"; "upgrade-conflicts"; "v" +:+ to; relPath +:+ ".merge"])
       | MergeError e => Err ("merge local changes in " +:+ relPath +:+ ": " +:+ e)
       | Merged merged =>
           if String.eqb current merged then action StCurrent "" "" ""
           else action StMerge merged "" ""
       end.

Section Upgrade.
Context (embedded : gmap string string)                  (* the //go:embed baselines *)
  (managedRuntimeSources : result (gmap string string))
  (json_unmarshal : string → result upgradeManifest)
  (json_marshal : upgradeManifest → result string)
  (mergeRuntimeFile : string → string → string → merge_result)
  (sha256Hex : string → string)
  (stamp updatedAt : string).

(** [runtimeUpgradeBaseline]: the loop over the managed paths. *)
Fixpoint read_baseline (version : string) (paths : list string) (baseline : gmap string string)
    : result (gmap string string) :=
  match paths with
  | [] => Ok baseline
  | p :: paths =>
      match embedded !! ("upgrade/baselines/v" +:+ version +:+ "/" +:+ p +:+ ".txt") with
      | None => Err ("read embedded v" +:+ version +:+ " baseline for " +:+ p +:+ ": file does not exist")
      | Some content => read_baseline version paths (<[p := content]> baseline)
      end
  end.
Definition runtimeUpgradeBaseline (version : string) : result (gmap string string) :=
  fail_if negb (existsb (String.eqb version) supportedRuntimeUpgradeSources)
    with ("no runtime upgrade baseline is available for v" +:+ version
          +:+ " (supported sources: v1.1.0, v1.2.0, v1.3.0, v1.4.0)");
  read_baseline version runtimeUpgradePaths ∅.

Fixpoint plan_files (to : string) (baseline targets : gmap string string) (paths : list string)
    (acts : list upgradeFileAction) : M (list upgradeFileAction) :=
  match paths with
  | [] => ret acts
  | relPath :: paths =>
      match baseline !! relPath, targets !! relPath with
      | Some base, Some target =>
          let* pi := safeProjectPath relPath in
          match pi.2 with
          | None => plan_files to baseline targets paths acts
          | Some n =>
              if negb (is_regular n) then fail (relPath +:+ " is not a regular file; refusing to update it")
              else
                let* current := wrap (λ e, "read " +:+ relPath +:+ ": " +:+ e) (readFile pi.1) in
                let* a := of_result (plan_action mergeRuntimeFile to relPath (perm n) current base target) in
                plan_files to baseline targets paths (acts ++ [a])
          end
      | _, _ => fail ("runtime upgrade metadata is incomplete for " +:+ relPath)
      end
  end.

(** The version the project is at: the metadata decides, the flag must agree. *)
Definition plan_from (fromArg : string) (manifest : upgradeManifest) : result string :=
  let from := trim_prefix (trim_space fromArg) "v" in
  if negb (String.eqb (um_Version manifest) "") then
    if negb (String.eqb from "") && negb (String.eqb from (um_Version manifest))
    then Err ("--from=v" +:+ from +:+ " does not match project upgrade metadata v" +:+ um_Version manifest)
    else Ok (um_Version manifest)
  else if String.eqb from ""
       then Err "project has no FGOTHS upgrade metadata; specify its current version, e.g. --from=1.1.0"
       else Ok from.

Definition metadata_path : string := ".fgoths/upgrade.json".
Definition regular_info (i : option node) : bool :=
  match i with Some n => is_regular n | None => false end.

Definition read_manifest : M upgradeManifest :=
  let* pi := safeProjectPath metadata_path in
  match pi.2 with
  | None => ret empty_manifest
  | Some _ =>
      let* data := wrap (λ e, "read upgrade metadata: " +:+ e) (readFile pi.1) in
      wrap (λ e, "parse .fgoths/upgrade.json: " +:+ e) (of_result (json_unmarshal data))
  end.

Definition planRuntimeUpgrade (root fromArg to : string) : M upgradeReport :=
  let* info := wrap (λ e, "project directory is unavailable: " +:+ e) (lstat []) in
  match info with
  | None => fail "project directory is unavailable: no such file or directory"
  | Some n =>
      if negb (is_dir n) then fail (quote root +:+ " is not a directory")
      else
        let* gomod := safeProjectPath "go.mod" in
        if negb (regular_info gomod.2)
        then fail (quote root +:+ " is not a generated Go project (go.mod not found)")
        else
          let* server := safeProjectPath "pkg/runtime/server.go" in
          if negb (regular_info server.2)
          then fail (quote root +:+ " has no pkg/runtime/server.go; this command only upgrades embedded FGOTHS runtimes")
          else
            let* manifest := read_manifest in
            let* from := of_result (plan_from fromArg manifest) in
            if String.eqb from to then ret (mkReport from to [] None)
            else if negb (String.eqb to latestRuntimeUpgradeVersion)
            then fail ("unsupported runtime upgrade v" +:+ from +:+ " -> v" +:+ to
                       +:+ " (supported target: v" +:+ latestRuntimeUpgradeVersion +:+ ")")
            else
              let* baseline := wrap (λ e, "unsupported runtime upgrade v" +:+ from +:+ " -> v" +:+ to +:+ ": " +:+ e)
                                 (of_result (runtimeUpgradeBaseline from)) in
              let* ignore := planUpgradeArtifactIgnore in
              let* targets := wrap (λ e, "load target runtime sources: " +:+ e)
                                (of_result managedRuntimeSources) in
              let* acts := plan_files to baseline targets runtimeUpgradePaths [] in
              ret (mkReport from to acts ignore)
  end.

(** ** Application *)

Definition backup_root (to : string) : string :=
  filepath_Join [".fgoths"; "upgrade-backups"; "v" +:+ to +:+ "-" +:+ stamp].

Definition apply_update (backupRoot : string) (a : upgradeFileAction) : M unit :=
  let* pi := safeProjectPath (ac_path a) in
  match pi.2 with
  | Some n =>
      if negb (is_regular n)
      then fail (ac_path a +:+ " changed while upgrade was being applied; no content was written")
      else
        let* orig := wrap (λ e, "read " +:+ ac_path a +:+ " before update: " +:+ e) (readFile pi.1) in
        if negb (String.eqb orig (original a)) then fail (changed (ac_path a))
        else
          let backupPath := filepath_Join [backupRoot; ac_path a] in
          do* wrap (λ e, "back up " +:+ ac_path a +:+ ": " +:+ e)
                (writeNewProjectFile backupPath orig (perm n)) in
          wrap (λ e, "write updated " +:+ ac_path a +:+ " (backup at " +:+ backupPath +:+ "): " +:+ e)
            (writeProjectFile (ac_path a) (content a) (mode a))
  | None => fail (ac_path a +:+ " changed while upgrade was being applied; no content was written")
  end.

Definition apply_conflict (a : upgradeFileAction) : M unit :=
  let* pi := safeProjectPath (ac_path a) in
  let* orig := wrap (λ e, "read " +:+ ac_path a +:+ " before saving merge candidate: " +:+ e) (readFile pi.1) in
  if negb (String.eqb orig (original a)) then fail (changed (ac_path a))
  else
    let* saved := attempt (writeNewProjectFile (conflictTo a) (conflict a) 384) in
    match saved with
    | Ok _ => ret tt
    | Err e =>
        let failed := fail ("save merge candidate for " +:+ ac_path a +:+ ": " +:+ e) in
        let* candidate := attempt (safeProjectPath (conflictTo a)) in
        match candidate with
        | Ok (candidatePath, Some _) =>
            let* existing := attempt (readFile candidatePath) in
            match existing with
            | Ok existing => if String.eqb existing (conflict a) then ret tt else failed
            | Err _ => failed
            end
        | _ => failed
        end
    end.

(** One turn of the loop over the actions: how many conflicts it adds. *)
Definition apply_action (backupRoot : string) (a : upgradeFileAction) : M Z :=
  match status a with
  | StUpdate | StMerge => do* apply_update backupRoot a in ret 0%Z
  | StConflict => do* apply_conflict a in ret 1%Z
  | StCurrent | StIgnore => ret 0%Z
  end.
Fixpoint apply_actions (backupRoot : string) (acts : list upgradeFileAction) (conflicts : Z) : M Z :=
  match acts with
  | [] => ret conflicts
  | a :: acts =>
      let* n := apply_action backupRoot a in
      apply_actions backupRoot acts (conflicts + n)
  end.

Fixpoint runtime_hashes (sources : gmap string string) (paths : list string) (hashes : gmap string string)
    : M (gmap string string) :=
  match paths with
  | [] => ret hashes
  | relPath :: paths =>
      let* pi := safeProjectPath relPath in
      match pi.2 with
      | None => runtime_hashes sources paths (delete relPath hashes)
      | Some _ => runtime_hashes sources paths
                    (<[relPath := sha256Hex (default "" (sources !! relPath))]> hashes)
      end
  end.

Definition write_metadata (backupRoot to : string) : M unit :=
  let* pi := safeProjectPath metadata_path in
  let* metadata :=
    match pi.2 with
    | None => ret (empty_manifest, "")
    | Some _ =>
        let* data := wrap (λ e, "read existing upgrade metadata: " +:+ e) (readFile pi.1) in
        let* m := wrap (λ e, "parse existing upgrade metadata: " +:+ e) (of_result (json_unmarshal data)) in
        ret (m, data)
    end in
  let* sources := wrap (λ e, "load runtime sources for upgrade metadata: " +:+ e)
                    (of_result managedRuntimeSources) in
  let* hashes := runtime_hashes sources runtimeUpgradePaths (um_RuntimeFiles metadata.1) in
  let m := mkManifest to updatedAt (um_ProjectType metadata.1) (um_Architecture metadata.1)
             (um_Database metadata.1) (um_Features metadata.1) hashes in
  let* encoded := wrap (λ e, "encode upgrade metadata: " +:+ e) (of_result (json_marshal m)) in
  do* match pi.2 with
      | Some n => wrap (λ e, "back up existing upgrade metadata: " +:+ e)
                    (writeNewProjectFile (filepath_Join [backupRoot; ".fgoths"; "upgrade.json"]) metadata.2 (perm n))
      | None => ret tt
      end in
  wrap (λ e, "write upgrade metadata: " +:+ e) (writeProjectFile metadata_path (encoded +:+ lf) 420).

(** An error carries no conflict count: the caller drops it. *)
Definition applyRuntimeUpgrade (report : upgradeReport) : M Z :=
  let backupRoot := backup_root (to report) in
  do* match artifactIgnore report with
      | Some a => applyUpgradeArtifactIgnore backupRoot a
      | None => ret tt
      end in
  let* conflicts := apply_actions backupRoot (actions report) 0 in
  if (0 <? conflicts)%Z then ret conflicts
  else do* write_metadata backupRoot (to report) in ret conflicts.

(** [RunUpgrade] after the flags are parsed and the root resolved. *)
Definition RunUpgrade (cliVersion root fromVersion : string) (apply : bool) : M unit :=
  if negb (String.eqb cliVersion "0.0.0-dev") && negb (String.eqb cliVersion latestRuntimeUpgradeVersion)
  then fail ("this CLI contains the v" +:+ latestRuntimeUpgradeVersion
             +:+ " runtime upgrade path, but reports v" +:+ cliVersion)
  else
    let* report := planRuntimeUpgrade root fromVersion latestRuntimeUpgradeVersion in
    if String.eqb (from report) (to report) then ret tt
    else if negb apply then ret tt
    else
      let* conflicts := applyRuntimeUpgrade report in
      if (0 <? conflicts)%Z
      then fail (itoa conflicts
                 +:+ " local conflict(s) were preserved; resolve the reported merge files and rerun upgrade")
      else ret tt.
End Upgrade.

(** ** Paths: the specification of [safeProjectPath] *)


Lemma safe_walk_unchanged current rest : relates unchanged (safe_walk current rest).
Proof.
  revert current. induction rest as [|part rest IH]; intros current; cbn [safe_walk];
    [eauto with relates typeclass_instances|].
  apply relates_bind; [exact _ | eauto with relates typeclass_instances|]. intros [n|]; [|relates_steps].
  destruct (is_symlink n); [relates_steps|]. destruct rest; [relates_steps|].
  destruct (negb (is_dir n)); [relates_steps | apply IH].
Qed.
Lemma safeProjectPath_unchanged relPath : relates unchanged (safeProjectPath relPath).
Proof.
  unfold safeProjectPath. destruct (unsafe _); [relates_steps|].
  apply relates_bind; [exact _ | apply safe_walk_unchanged|]. intros. relates_steps.
Qed.
Lemma safeProjectPath_replaces ps relPath : relates (replaces ps) (safeProjectPath relPath).
Proof. apply relates_unchanged_replaces, safeProjectPath_unchanged. Qed.
#[export] Hint Resolve safe_walk_unchanged safeProjectPath_unchanged safeProjectPath_replaces : relates.

(** What a successful walk has seen: every step before the last that exists is
    a directory, and the last one is what it reports. *)
Lemma safe_walk_Ok rest current fs fs' info :
  safe_walk current rest fs = (fs', Ok info) →
  (∀ n, info = Some n → rest ≠ [] ∧ tree fs !! (current ++ rest) = Some n ∧ is_symlink n = false
     ∧ ∀ k, k < length rest → 0 < k → tree fs !! (current ++ take k rest) = Some Dir)
  ∧ (info = None → rest ≠ [] → ∃ k, 0 < k ≤ length rest ∧ tree fs !! (current ++ take k rest) = None
     ∧ ∀ j, j < k → 0 < j → tree fs !! (current ++ take j rest) = Some Dir).
Proof.
  revert current fs. induction rest as [|part rest IH]; intros current fs; cbn [safe_walk].
  { intros [= _ <-]. by split. }
  intros (fs1 & i & Hl%wrap_Ok & Hk)%bind_Ok. apply lstat_Ok in Hl as [Ht Hi].
  destruct i as [n|].
  2: { injection Hk as _ <-. split; [done|]. intros _ _. exists 1. cbn. split_and!; [lia|lia|done|lia]. }
  destruct (is_symlink n) eqn:Es; [done|]. destruct rest as [|c rest].
  { injection Hk as _ <-. split; [|done]. intros n' [= <-]. split_and!; [done..|]. cbn. lia. }
  destruct (negb (is_dir n)) eqn:Ed; [done|]. apply negb_false_iff in Ed.
  assert (n = Dir) as -> by by destruct n. apply IH in Hk as [H1 H2]. rewrite Ht in *.
  assert (∀ l, (current ++ [part]) ++ l = current ++ part :: l) as Happ by (intros; by rewrite <- app_assoc).
  split.
  - intros n' ->. destruct (H1 n' eq_refl) as (_ & Hn & Hs & Hd). rewrite Happ in Hn. split_and!; [done..|].
    intros [|[|k]] Hk H0; [lia|done|]. specialize (Hd (S k)). rewrite Happ in Hd. apply Hd; cbn in *; lia.
  - intros -> _. destruct (H2 eq_refl ltac:(done)) as (k & Hk & Hn & Hd). exists (S k).
    cbn [take]. rewrite <- Happ. split_and!; [lia|cbn in *; lia|done|].
    intros [|[|j]] Hj H0; [lia|done|]. specialize (Hd (S j)). rewrite Happ in Hd. apply Hd; lia.
Qed.
Lemma split_nonempty s c : split s c ≠ [].
Proof. apply split_not_nil. Qed.
Lemma safeProjectPath_Ok relPath fs fs' p info :
  safeProjectPath relPath fs = (fs', Ok (p, info)) →
  tree fs' = tree fs ∧ p = parts relPath ∧ unsafe (Clean relPath) = false
  ∧ (∀ n, info = Some n → tree fs !! p = Some n ∧ is_symlink n = false).
Proof.
  intros E. pose proof (safeProjectPath_unchanged relPath fs) as Hu. rewrite E in Hu.
  unfold safeProjectPath in E. destruct (unsafe (Clean relPath)) eqn:Eu; [done|].
  apply bind_Ok in E as (fs1 & i & Hw & [= _ <- <-]). split_and!; [done..|].
  intros n ->. apply safe_walk_Ok in Hw as [Hw _]. by destruct (Hw n eq_refl) as (_ & ? & ? & _).
Qed.

Lemma parts_names relPath : unsafe (Clean relPath) = false → Forall name_component (parts relPath).
Proof.
  intros Hu. unfold unsafe in Hu. apply orb_false_iff in Hu as [Hu Hdd].
  apply orb_false_iff in Hu as [Hu H2]. apply orb_false_iff in Hu as [Ha H1].
  unfold parts, Clean in *. destruct (IsAbs relPath) eqn:Er; [done|].
  destruct (clean_parts_shape relPath Er) as ([|n] & l & Hc & Hl); rewrite Hc in *; cbn [replicate app] in *.
  - destruct l as [|c l]; [done|]. rewrite split_join; [done|done|].
    intros x Hx. rewrite Forall_forall in Hl. by apply Hl.
  - exfalso. destruct (replicate n ".." ++ l) as [|x l'] eqn:Ex; [done|].
    rewrite join_cons in Hdd by done. done.
Qed.

(** A path that the upgrade accepts stays below the project root and goes
    through no symbolic link: it is a non-empty sequence of names, none of them
    "." or "..", every component that exists before the last is a directory, and
    an existing target is not a link. *)
Theorem safe_path_contained relPath fs fs' p info :
  safeProjectPath relPath fs = (fs', Ok (p, info)) →
  p ≠ [] ∧ Forall name_component p ∧ tree fs' = tree fs
  ∧ match info with
    | Some n => tree fs !! p = Some n ∧ is_symlink n = false
        ∧ ∀ k, 0 < k < length p → tree fs !! take k p = Some Dir
    | None => ∃ k, 0 < k ≤ length p ∧ tree fs !! take k p = None
        ∧ ∀ j, 0 < j < k → tree fs !! take j p = Some Dir
    end.
Proof.
  intros E. pose proof (safeProjectPath_Ok _ _ _ _ _ E) as (Ht & -> & Hu & _).
  pose proof (split_nonempty (Clean relPath) "/") as Hne.
  split_and!; [done | by apply parts_names | done|]. unfold parts in *.
  unfold safeProjectPath in E. rewrite Hu in E.
  apply bind_Ok in E as (fs1 & i & Hw & [= _ <-]). apply safe_walk_Ok in Hw as [Hs Hn].
  destruct i as [n|].
  - destruct (Hs n eq_refl) as (_ & ? & ? & Hd). split_and!; [done..|]. intros k [? ?]. by apply Hd.
  - destruct (Hn eq_refl Hne) as (k & ? & ? & Hd). exists k. split_and!; [lia|lia|done|].
    intros j [? ?]. by apply Hd.
Qed.

(** ** Writing *)

(** The part of [writeNewProjectFile] after the path is known to be free. *)
Lemma create_and_write_extends p c m (k : list (option error) → M unit) :
  (∀ es, relates unchanged (k es)) →
  relates extends (do* openNew p m in let* w := fileWrite p c in let* cl := fileClose in k [w; cl]).
Proof.
  intros Hk fs.
  assert (relates (replaces [p]) (do* openNew p m in let* w := fileWrite p c in let* cl := fileClose in k [w; cl])) as Hr.
  { apply relates_bind; [exact _ | |intros _].
    - eapply relates_replaces_mono; [|apply openNew_extends]. by intros q ?%elem_of_nil.
    - apply relates_bind; [exact _ | apply relates_fileWrite; set_solver|]. intros w.
      apply relates_bind; [exact _ | eauto with relates typeclass_instances|]. intros cl.
      apply relates_unchanged_replaces, Hk. }
  specialize (Hr fs). unfold bind at 1 in Hr. unfold bind at 1.
  pose proof (openNew_extends p m fs) as He.
  destruct (openNew p m fs) as [fs1 [a|e]] eqn:E; [|done].
  apply openNew_Ok in E as [Hnone _]. by eapply replaces_absent.
Qed.
Lemma writeNewProjectFile_extends r c m : relates extends (writeNewProjectFile r c m).
Proof.
  unfold writeNewProjectFile. apply relates_bind; [exact _ | eauto with relates|]. intros [p [n|]]; cbn [snd fst];
    [relates_steps|].
  apply relates_bind; [exact _ | eauto with relates|]. intros _.
  apply relates_bind; [exact _ | eauto with relates|]. intros _.
  apply (create_and_write_extends p c (Z.land m 511)
    (λ es, match join_errors es with Some e => fail e | None => ret tt end)). intros es. destruct (join_errors es); relates_steps.
Qed.
#[export] Hint Resolve writeNewProjectFile_extends : relates.

Lemma writeNewProjectFile_Ok r c m fs fs' a :
  writeNewProjectFile r c m fs = (fs', Ok a) → ∃ m', tree fs' !! parts r = Some (File c m').
Proof.
  unfold writeNewProjectFile. intros (fs1 & [p i] & Hs & Hk)%bind_Ok.
  apply safeProjectPath_Ok in Hs as (_ & -> & _). cbn [fst snd] in Hk. destruct i; [done|].
  apply bind_Ok in Hk as (fs2 & ? & _ & Hk). apply bind_Ok in Hk as (fs3 & ? & _ & Hk).
  apply bind_Ok in Hk as (fs4 & ? & _ & Hk). apply bind_Ok in Hk as (fs5 & w & Hw & Hk).
  apply bind_Ok in Hk as (fs6 & cl & Hc & Hk).
  destruct (join_errors [w; cl]) eqn:Ej; [done|]. injection Hk as <- _.
  apply join_errors_None, Forall_cons in Ej as [-> _]. cbn in Hw.
  apply fileWrite_Ok in Hw as [m' Hw]. apply fileClose_tree in Hc. exists m'.
  by rewrite Hc, Hw, lookup_insert_eq.
Qed.

Definition no_temp (r : string) : Prop :=
  ∀ n, parts r ≠ dirname (parts r) ++ [".fgoths-upgrade-" +:+ n].

(** The temporary file was not there before and is gone or moved at the end. *)
Lemma temp_write_replaces p temp c m :
  relates (replaces [temp; p])
    (let* werr := fileWrite temp c in let* cherr := fileChmod temp m in let* clerr := fileClose in
     let* r := attempt (match join_errors [werr; cherr; clerr] with
                        | Some e => fail e
                        | None => renameFile temp p
                        end) in
     do* removeFile temp in of_result r).
Proof.
  apply relates_bind; [exact _ | apply relates_fileWrite; set_solver|]. intros w.
  apply relates_bind; [exact _ | apply relates_fileChmod; set_solver|]. intros ch.
  apply relates_bind; [exact _ | eauto with relates typeclass_instances|]. intros cl.
  apply relates_bind; [exact _ | |].
  { apply relates_attempt. destruct (join_errors _); [relates_steps|].
    apply relates_renameFile; set_solver. }
  intros r. apply relates_bind; [exact _ | apply relates_removeFile; set_solver|]. intros _. relates_steps.
Qed.
Lemma writeProjectFile_replaces r c m : relates (replaces [parts r]) (writeProjectFile r c m).
Proof.
  intros fs. unfold writeProjectFile, bind at 1.
  pose proof (safeProjectPath_replaces [parts r] r fs) as H1.
  destruct (safeProjectPath r fs) as [fs1 [[p i]|e]] eqn:E1; [|done]. cbn [fst] in *.
  apply safeProjectPath_Ok in E1 as (_ & -> & _). etransitivity; [exact H1|]. clear H1.
  unfold bind at 1. pose proof (mkdirAll_extends (dirname (parts r)) fs1) as H2.
  apply (replaces_mono [] [parts r]) in H2; [|by intros q ?%elem_of_nil].
  destruct (mkdirAll _ fs1) as [fs2 [?|e]]; [|done]. cbn [fst] in *. etransitivity; [exact H2|]. clear H2.
  unfold bind at 1. pose proof (safeProjectPath_replaces [parts r] r fs2) as H3.
  destruct (safeProjectPath r fs2) as [fs3 [?|e]]; [|done]. cbn [fst] in *. etransitivity; [exact H3|]. clear H3.
  unfold bind at 1. destruct (createTemp _ _ fs3) as [fs4 r4] eqn:E4.
  apply createTemp_spec in E4 as [H4 E4].
  apply (replaces_mono [] [parts r]) in H4; [|by intros q ?%elem_of_nil].
  destruct r4 as [temp|e]; [|done]. destruct E4 as [Hnone _].
  pose proof (temp_write_replaces (parts r) temp c (Z.land m 511) fs4) as H5.
  apply (replaces_absent temp); [done|]. etransitivity; [|exact H5].
  eapply replaces_mono; [|exact H4]. set_solver.
Qed.
Lemma writeProjectFile_Ok r c m fs fs' a :
  no_temp r → writeProjectFile r c m fs = (fs', Ok a) →
  ∃ m', tree fs' !! parts r = Some (File c m').
Proof.
  intros Hnt. unfold writeProjectFile. intros (fs1 & [p i] & Hs & Hk)%bind_Ok.
  apply safeProjectPath_Ok in Hs as (_ & -> & _). cbn [fst snd] in Hk.
  apply bind_Ok in Hk as (fs2 & ? & _ & Hk). apply bind_Ok in Hk as (fs3 & ? & _ & Hk).
  apply bind_Ok in Hk as (fs4 & temp & Ht & Hk). apply createTemp_spec in Ht as (_ & _ & n & ->).
  set (temp := dirname (parts r) ++ _) in *.
  apply bind_Ok in Hk as (fs5 & w & Hw & Hk). apply bind_Ok in Hk as (fs6 & ch & Hch & Hk).
  apply bind_Ok in Hk as (fs7 & cl & Hcl & Hk). apply bind_Ok in Hk as (fs8 & rr & Hr & Hk).
  apply bind_Ok in Hk as (fs9 & ? & Hrm & [= <- ->]).
  unfold attempt in Hr. destruct (join_errors [w; ch; cl]) eqn:Ej; [by cbn in Hr|].
  apply join_errors_None in Ej. apply Forall_cons in Ej as [-> Ej]. apply Forall_cons in Ej as [-> _].
  destruct (renameFile temp (parts r) fs7) as [fs8' r8] eqn:E8. injection Hr as -> ->.
  apply fileWrite_Ok in Hw as [m' Hw]. apply fileChmod_Ok in Hch. apply fileClose_tree in Hcl.
  apply renameFile_Ok in E8 as (nd & Hn & Ht8).
  rewrite Hcl, Hch, Hw, !lookup_insert_eq in Hn. injection Hn as <-. cbn [file_content] in Ht8.
  assert (tree fs8 !! parts r = Some (File c (Z.land m 511))) as Hp by by rewrite Ht8, lookup_insert_eq.
  exists (Z.land m 511). apply removeFile_tree in Hrm as [->| ->]; [done|].
  rewrite lookup_delete_ne; [done|]. intros He. by apply (Hnt n).
Qed.

(** ** Nothing is lost *)

(** The files an upgrade may replace, and where it backs them up. *)
Definition managed : list string := runtimeUpgradePaths ++ [ignore_path; metadata_path].
Definition backup_dir (stamp : string) : path :=
  [".fgoths"; "upgrade-backups"; "v" +:+ latestRuntimeUpgradeVersion +:+ "-" +:+ stamp].

(** From [t] to [t']: what is no longer in place is a managed file, and its
    content is in the backup directory. *)
Definition kept (stamp : string) : relation (gmap path node) := λ t t',
  ∀ p n, t !! p = Some n →
    t' !! p = Some n
    ∨ ∃ s c m', s ∈ managed ∧ p = parts s ∧ read_node (Some n) = Ok c
        ∧ t' !! (backup_dir stamp ++ p) = Some (File c m').

Lemma managed_parts s :
  s ∈ managed → Forall name_component (parts s) ∧ s = join (parts s) "/" ∧ 2 ≤ length (parts s) ≤ 4.
Proof.
  intros Hs. split_and!.
  - unfold managed in Hs. repeat (apply elem_of_cons in Hs as [->|Hs]);
      [..|by apply elem_of_nil in Hs]; vm_compute; repeat constructor; done.
  - unfold managed in Hs. repeat (apply elem_of_cons in Hs as [->|Hs]);
      [..|by apply elem_of_nil in Hs]; reflexivity.
  - unfold managed in Hs. repeat (apply elem_of_cons in Hs as [->|Hs]);
      [..|by apply elem_of_nil in Hs]; vm_compute; lia.
  - unfold managed in Hs. repeat (apply elem_of_cons in Hs as [->|Hs]);
      [..|by apply elem_of_nil in Hs]; vm_compute; lia.
Qed.
Lemma metadata_managed : metadata_path ∈ managed.
Proof. unfold managed. set_solver. Qed.
Lemma ignore_managed : ignore_path ∈ managed.
Proof. unfold managed. set_solver. Qed.
Lemma managed_no_temp s : s ∈ managed → no_temp s.
Proof.
  intros Hs n. unfold managed in Hs. repeat (apply elem_of_cons in Hs as [->|Hs]);
    [..|by apply elem_of_nil in Hs]; vm_compute; intros [=].
Qed.

Lemma parts_join l : Forall name_component l → l ≠ [] → parts (join l "/") = l.
Proof.
  intros Hl Hne. unfold parts. rewrite Clean_join by done. apply split_join; [done|].
  intros x Hx. rewrite Forall_forall in Hl. by apply Hl.
Qed.

Section Kept.
Context (stamp : string) (Hstamp : mem_byte "/" stamp = false).

Lemma backup_dir_names : Forall name_component (backup_dir stamp).
Proof using Hstamp.
  unfold backup_dir, name_component, latestRuntimeUpgradeVersion.
  repeat constructor; done.
Qed.
Lemma backup_parts s :
  s ∈ managed →
  parts (filepath_Join [backup_root stamp latestRuntimeUpgradeVersion; s]) = backup_dir stamp ++ parts s.
Proof using Hstamp.
  intros Hs. destruct (managed_parts s Hs) as (Hn & Hj & Hlen).
  pose proof backup_dir_names as Hb.
  assert (backup_root stamp latestRuntimeUpgradeVersion = join (backup_dir stamp) "/") as ->.
  { unfold backup_root, filepath_Join. cbn [List.filter negb].
    transitivity (Clean (join (backup_dir stamp) "/")); [done|]. by apply Clean_join. }
  rewrite Hj at 1. unfold filepath_Join.
  assert (parts s ≠ []) as Hne by (intros E; rewrite E in Hlen; cbn in Hlen; lia).
  assert (join (parts s) "/" ≠ "") as Hs0.
  { rewrite <- Hj. intros ->. unfold managed in Hs. set_solver. }
  cbn [List.filter]. rewrite (proj2 (String.eqb_neq _ _) Hs0). cbn [negb].
  transitivity (parts (Clean (join (backup_dir stamp ++ parts s) "/"))).
  { rewrite join_app by done. done. }
  rewrite Clean_join; [apply parts_join| |]; [apply Forall_app; by split|done|apply Forall_app; by split|done].
Qed.
Lemma backup_not_managed s s' : s ∈ managed → s' ∈ managed → backup_dir stamp ++ parts s ≠ parts s'.
Proof using Type.
  intros Hs Hs' He. apply managed_parts in Hs as (_ & _ & H1). apply managed_parts in Hs' as (_ & _ & H2).
  apply (f_equal length) in He. rewrite length_app in He. cbn in He. lia.
Qed.

#[export] Instance kept_preorder : PreOrder (kept stamp).
Proof using Type.
  split; [by left|]. intros t t1 t2 H1 H2 p n Hn. destruct (H1 p n Hn) as [Hp|(s & c & m' & Hs & -> & Hc & Hb)].
  - by apply H2.
  - destruct (H2 _ _ Hb) as [Hb'|(s' & _ & _ & Hs' & He & _)].
    + right. by exists s, c, m'.
    + by apply backup_not_managed in He.
Qed.
Lemma extends_kept t t' : extends t t' → kept stamp t t'.
Proof using Type. intros He p n Hn. left. by apply (He p n (not_elem_of_nil p)). Qed.
Lemma relates_extends_kept {A : Type} (m : M A) : relates extends m → relates (kept stamp) m.
Proof using Type. apply relates_weaken, extends_kept. Qed.
Lemma relates_unchanged_kept {A : Type} (m : M A) : relates unchanged m → relates (kept stamp) m.
Proof using Type. intros Hm. apply relates_extends_kept, relates_unchanged_replaces, Hm. Qed.

(** The backup of the present content, then the replacement. *)
Lemma backed_up_write s c c' pm m f g :
  s ∈ managed →
  ∀ fs n0, tree fs !! parts s = Some n0 → read_node (Some n0) = Ok c →
  kept stamp (tree fs) (tree ((do* wrap f (writeNewProjectFile
      (filepath_Join [backup_root stamp latestRuntimeUpgradeVersion; s]) c pm) in
    wrap g (writeProjectFile s c' m)) fs).1).
Proof using Hstamp.
  intros Hs fs n0 Hc Hrd. unfold bind, wrap at 1.
  set (r := filepath_Join _). pose proof (writeNewProjectFile_extends r c pm fs) as He.
  destruct (writeNewProjectFile r c pm fs) as [fs1 [a|e]] eqn:E1; [|by apply extends_kept]. cbn [fst] in He.
  apply writeNewProjectFile_Ok in E1 as [m' Hb]. unfold r in Hb. rewrite backup_parts in Hb by done.
  pose proof (relates_wrap _ g _ (writeProjectFile_replaces s c' m) fs1) as Hr.
  intros p n Hn. destruct (decide (p = parts s)) as [->|Hne].
  - right. rewrite Hc in Hn. injection Hn as <-. exists s, c, m'. split_and!; [done..|].
    apply Hr; [|done]. intros Hin%list_elem_of_singleton. by apply backup_not_managed in Hin.
  - left. apply Hr; [by intros ?%list_elem_of_singleton|]. by apply He; [apply not_elem_of_nil|].
Qed.

(** Reading a regular file through its checked path. *)
Lemma checked_read s fs fs1 fs2 p n c :
  safeProjectPath s fs = (fs1, Ok (p, Some n)) → is_regular n = true →
  readFile p fs1 = (fs2, Ok c) →
  tree fs2 = tree fs ∧ p = parts s ∧ ∃ m, tree fs !! parts s = Some (File c m) ∧ n = File c m.
Proof using Type.
  intros Hs Hreg Hr. apply safeProjectPath_Ok in Hs as (Ht & -> & _ & Hn).
  destruct (Hn n eq_refl) as [Hl _]. apply readFile_Ok in Hr as [Ht2 Hr].
  rewrite Ht in *. rewrite Hl in Hr. destruct n as [c' m| | |]; try done. cbn in Hr. injection Hr as ->.
  split_and!; [congruence|done|]. by exists m.
Qed.

Lemma apply_update_kept a :
  ac_path a ∈ managed →
  relates (kept stamp) (apply_update (backup_root stamp latestRuntimeUpgradeVersion) a).
Proof using Hstamp.
  intros Hs fs. unfold apply_update, bind at 1.
  pose proof (safeProjectPath_unchanged (ac_path a) fs) as H1.
  destruct (safeProjectPath (ac_path a) fs) as [fs1 [[p [n|]]|e]] eqn:E1; cbn [fst snd] in *;
    try (rewrite H1; reflexivity).
  destruct (is_regular n) eqn:Er; cbn [negb]; [|rewrite H1; reflexivity].
  unfold bind at 1, wrap at 1. pose proof (relates_readFile unchanged p fs1) as H2.
  destruct (readFile p fs1) as [fs2 [c|e]] eqn:E2; cbn [fst] in *; [|rewrite H1, H2; reflexivity].
  destruct (checked_read _ _ _ _ _ _ _ E1 Er E2) as (Ht & -> & m & Hc & _).
  destruct (String.eqb c (original a)); cbn [negb]; [|rewrite <- Ht; reflexivity].
  rewrite <- Ht in Hc |- *. by eapply backed_up_write.
Qed.
Lemma apply_conflict_extends a : relates extends (apply_conflict a).
Proof using Type.
  unfold apply_conflict. relates_steps.
Qed.
Lemma apply_ignore_kept a :
  ac_path a ∈ managed →
  relates (kept stamp) (applyUpgradeArtifactIgnore (backup_root stamp latestRuntimeUpgradeVersion) a).
Proof using Hstamp.
  intros Hs fs. unfold applyUpgradeArtifactIgnore, bind at 1.
  pose proof (safeProjectPath_unchanged (ac_path a) fs) as H1.
  destruct (safeProjectPath (ac_path a) fs) as [fs1 [[p [n|]]|e]] eqn:E1; cbn [fst snd] in *;
    [| |rewrite H1; reflexivity].
  - destruct (is_regular n) eqn:Er; cbn [negb]; [|rewrite H1; reflexivity].
    unfold bind at 1, wrap at 1. pose proof (relates_readFile unchanged p fs1) as H2.
    destruct (readFile p fs1) as [fs2 [c|e]] eqn:E2; cbn [fst] in *; [|rewrite H1, H2; reflexivity].
    destruct (checked_read _ _ _ _ _ _ _ E1 Er E2) as (Ht & -> & m & Hc & _).
    destruct (String.eqb c (original a)); cbn [negb]; [|rewrite <- Ht; reflexivity].
    rewrite <- Ht in Hc |- *. by eapply backed_up_write.
  - rewrite H1. destruct (negb _); [reflexivity|].
    apply relates_extends_kept, relates_wrap, writeNewProjectFile_extends.
Qed.
Lemma apply_action_kept a :
  ac_path a ∈ managed →
  relates (kept stamp) (apply_action (backup_root stamp latestRuntimeUpgradeVersion) a).
Proof using Hstamp.
  intros Ha. unfold apply_action. destruct (status a); try apply relates_ret, _;
    (apply relates_bind; [exact _ | | intros _; apply relates_ret, _]);
    [by apply apply_update_kept..|apply relates_extends_kept, apply_conflict_extends].
Qed.
Lemma apply_actions_kept acts conflicts :
  Forall (λ a, ac_path a ∈ managed) acts →
  relates (kept stamp) (apply_actions (backup_root stamp latestRuntimeUpgradeVersion) acts conflicts).
Proof using Hstamp.
  intros Ha. revert conflicts. induction Ha as [|a acts Ha _ IH]; intros conflicts; cbn [apply_actions].
  { apply relates_ret, _. }
  apply relates_bind; [exact _ | by apply apply_action_kept | intros n; apply IH].
Qed.
End Kept.

(** ** The plan *)

Definition written (a : upgradeFileAction) : bool :=
  match status a with StUpdate | StMerge => true | _ => false end.
Definition conflicting (a : upgradeFileAction) : bool :=
  match status a with StConflict => true | _ => false end.

(** What the three contents of a file call for. *)
Definition three_way (merge : string → string → string → merge_result) (base target : string)
    (a : upgradeFileAction) : Prop :=
  let current := original a in
  match status a with
  | StCurrent => current = target ∨ (current ≠ base ∧ merge current base target = Merged current)
  | StUpdate => current = base ∧ current ≠ target ∧ content a = target
  | StMerge => current ≠ base ∧ current ≠ target ∧ current ≠ content a
               ∧ merge current base target = Merged (content a)
  | StConflict => current ≠ base ∧ current ≠ target ∧ merge current base target = MergeConflict (conflict a)
  | StIgnore => False
  end.
Definition conflict_file (to relPath : string) : string :=
  filepath_Join [".fgoths"; "upgrade-conflicts"; "v" +:+ to; relPath +:+ ".merge"].
Lemma plan_action_Ok merge to relPath mode current base target a :
  plan_action merge to relPath mode current base target = Ok a →
  ac_path a = relPath ∧ original a = current ∧ Upgrade.mode a = mode ∧ three_way merge base target a
  ∧ conflictTo a = (if conflicting a then conflict_file to relPath else "").
Proof.
  unfold plan_action, three_way, conflicting. destruct (String.eqb_spec current target) as [->|Hct].
  { intros [= <-]. split_and!; try done. by left. }
  destruct (String.eqb_spec current base) as [->|Hcb]; [by intros [= <-]|].
  destruct (merge current base target) as [merged|merged|e] eqn:Em; [|by intros [= <-]|done].
  destruct (String.eqb_spec current merged) as [->|Hcm]; intros [= <-]; cbn; split_and!; try done.
  by right.
Qed.

Section Plan.
Context (embedded : gmap string string) (managedRuntimeSources : result (gmap string string))
  (json_unmarshal : string → result upgradeManifest) (json_marshal : upgradeManifest → result string)
  (mergeRuntimeFile : string → string → string → merge_result) (sha256Hex : string → string)
  (stamp updatedAt : string).

(** An action is for a managed file that is there, with the content it has. *)
Definition planned (to : string) (baseline targets : gmap string string) (t : gmap path node)
    (a : upgradeFileAction) : Prop :=
  ac_path a ∈ runtimeUpgradePaths
  ∧ conflictTo a = (if conflicting a then conflict_file to (ac_path a) else "")
  ∧ ∃ m base target, t !! parts (ac_path a) = Some (File (original a) m) ∧ mode a = Z.land m 511
      ∧ baseline !! ac_path a = Some base ∧ targets !! ac_path a = Some target
      ∧ three_way mergeRuntimeFile base target a.
(** A file that is not there: some component of its path is missing. *)
Definition missing (t : gmap path node) (p : path) : Prop := ∃ k, 0 < k ≤ length p ∧ t !! take k p = None.

Lemma plan_files_unchanged to baseline targets paths acts :
  relates unchanged (plan_files mergeRuntimeFile to baseline targets paths acts).
Proof using Type.
  revert acts. induction paths as [|r paths IH]; intros acts; cbn [plan_files]; [relates_steps|].
  destruct (baseline !! r), (targets !! r); relates_steps.
Qed.
Lemma plan_files_Ok to baseline targets paths acts fs fs' acts' :
  plan_files mergeRuntimeFile to baseline targets paths acts fs = (fs', Ok acts') →
  (∀ r, r ∈ paths → r ∈ runtimeUpgradePaths) →
  Forall (planned to baseline targets (tree fs)) acts →
  Forall (planned to baseline targets (tree fs)) acts'
  ∧ (∀ a, a ∈ acts → a ∈ acts')
  ∧ ∀ r, r ∈ paths → (∃ a, a ∈ acts' ∧ ac_path a = r) ∨ missing (tree fs) (parts r).
Proof using Type.
  intros E Hin. revert acts fs E Hin. induction paths as [|r paths IH]; intros acts fs E Hin Ha; cbn [plan_files] in E.
  { injection E as _ <-. split_and!; [done|done|]. by intros r ?%elem_of_nil. }
  destruct (baseline !! r) as [base|] eqn:Eb; [|done]. destruct (targets !! r) as [target|] eqn:Et; [|done].
  apply bind_Ok in E as (fs1 & [p i] & Hs & E). cbn [fst snd] in E.
  assert (∀ r', r' ∈ paths → r' ∈ runtimeUpgradePaths) as Hin' by (intros; apply Hin; by right).
  destruct i as [n|].
  - destruct (is_regular n) eqn:Er; cbn [negb] in E; [|done].
    apply bind_Ok in E as (fs2 & c & Hr%wrap_Ok & E). apply bind_Ok in E as (fs3 & a & Hp & E).
    destruct (checked_read _ _ _ _ _ _ _ Hs Er Hr) as (Ht & -> & m & Hc & ->).
    injection Hp as <- Hp. apply plan_action_Ok in Hp as (Hpath & Horig & Hmode & H3 & Hto).
    rewrite <- Ht in *. apply IH in E as (H1 & H2 & Hcov); [|done|].
    + split_and!; [done | intros a' Ha'; apply H2, elem_of_app; by left|].
      intros r' [->|Hr']%elem_of_cons; [|by apply Hcov].
      left. exists a. split; [apply H2, elem_of_app; right; by apply list_elem_of_singleton | done].
    + apply Forall_app. split; [done|]. constructor; [|constructor]. split.
      { rewrite Hpath. apply Hin. by left. }
      split; [by rewrite Hpath|]. exists m, base, target. rewrite Hpath, Horig. split_and!; try done.
  - pose proof (safeProjectPath_Ok _ _ _ _ _ Hs) as (Ht & Hp & Hu & _).
    assert (missing (tree fs) (parts r)) as Hmiss.
    { unfold safeProjectPath in Hs. rewrite Hu in Hs. apply bind_Ok in Hs as (fs2 & i & Hw & [= _ _ ->]).
      apply safe_walk_Ok in Hw as [_ Hn]. destruct (Hn eq_refl (split_nonempty _ _)) as (k & ? & ? & _).
      by exists k. }
    rewrite <- Ht in *. apply IH in E as (H1 & H2 & Hcov); [|done|done].
    split_and!; [done|done|]. intros r' [->|Hr']%elem_of_cons; [by right | by apply Hcov].
Qed.

Lemma plan_files_paths to baseline targets paths acts fs fs' acts' :
  plan_files mergeRuntimeFile to baseline targets paths acts fs = (fs', Ok acts') →
  ∃ l, ac_path <$> acts' = (ac_path <$> acts) ++ l ∧ l `sublist_of` paths.
Proof using Type.
  revert acts fs. induction paths as [|r paths IH]; intros acts fs; cbn [plan_files].
  { intros [= _ <-]. exists []. by rewrite app_nil_r. }
  destruct (baseline !! r), (targets !! r); try done.
  intros (fs1 & [p [n|]] & _ & E)%bind_Ok; cbn [fst snd] in E.
  - destruct (negb _); [done|]. apply bind_Ok in E as (fs2 & c & _ & E).
    apply bind_Ok in E as (fs3 & a & Ha & E). injection Ha as <- Ha. apply plan_action_Ok in Ha as [Ha _].
    apply IH in E as (l & -> & Hl). exists (r :: l). rewrite fmap_app, <- app_assoc. cbn. rewrite Ha.
    split; [done | by constructor].
  - apply IH in E as (l & -> & Hl). exists l. split; [done | by constructor].
Qed.

Lemma read_manifest_unchanged : relates unchanged (read_manifest json_unmarshal).
Proof using Type. unfold read_manifest. relates_steps. Qed.
Lemma planIgnore_unchanged : relates unchanged planUpgradeArtifactIgnore.
Proof using Type. unfold planUpgradeArtifactIgnore. relates_steps. Qed.
#[local] Hint Resolve read_manifest_unchanged planIgnore_unchanged plan_files_unchanged : relates.
Lemma planRuntimeUpgrade_unchanged root fromArg to_ :
  relates unchanged (planRuntimeUpgrade embedded managedRuntimeSources json_unmarshal mergeRuntimeFile
                       root fromArg to_).
Proof using Type. unfold planRuntimeUpgrade. relates_steps. Qed.

Lemma planIgnore_Ok fs fs' ig :
  planUpgradeArtifactIgnore fs = (fs', Ok ig) →
  ∀ a, ig = Some a → ac_path a = ignore_path ∧ status a = StIgnore.
Proof using Type.
  unfold planUpgradeArtifactIgnore. intros (fs1 & [p i] & _ & E)%bind_Ok a ->. cbn [fst snd] in E.
  assert (∀ o m, ignore_action o m = Some a → ac_path a = ignore_path ∧ status a = StIgnore) as Ha.
  { intros o m. unfold ignore_action. destruct (String.eqb _ _); [done | by intros [= <-]]. }
  destruct i as [n|]; [|unfold ret in E; eapply (Ha "" 420%Z); congruence].
  destruct (is_regular n); cbn [negb] in E; [|done].
  apply bind_Ok in E as (fs2 & c & _ & E). unfold ret in E. eapply (Ha c (perm n)). congruence.
Qed.

(** What a plan consists of. *)
Lemma planRuntimeUpgrade_Ok root fromArg to_ fs fs' rep :
  planRuntimeUpgrade embedded managedRuntimeSources json_unmarshal mergeRuntimeFile root fromArg to_ fs
    = (fs', Ok rep) →
  to rep = to_
  ∧ (from rep = to_ ∧ actions rep = [] ∧ artifactIgnore rep = None
     ∨ from rep ≠ to_ ∧ to_ = latestRuntimeUpgradeVersion
       ∧ (∃ baseline targets, runtimeUpgradeBaseline embedded (from rep) = Ok baseline
            ∧ managedRuntimeSources = Ok targets ∧ NoDup (ac_path <$> actions rep)
            ∧ Forall (planned to_ baseline targets (tree fs)) (actions rep))
       ∧ (∀ r, r ∈ runtimeUpgradePaths →
            (∃ a, a ∈ actions rep ∧ ac_path a = r) ∨ missing (tree fs) (parts r))
       ∧ (∀ a, artifactIgnore rep = Some a → ac_path a = ignore_path ∧ status a = StIgnore)).
Proof using Type.
  unfold planRuntimeUpgrade. intros E. apply bind_Ok in E as (fs1 & i & H1 & E).
  pose proof (relates_wrap unchanged (λ e, "project directory is unavailable: " +:+ e) _ (relates_lstat unchanged []) fs) as T1.
  rewrite H1 in T1. cbn [fst] in T1.
  destruct i as [n|]; [|done]. destruct (is_dir n); cbn [negb] in E; [|done].
  apply bind_Ok in E as (fs2 & gm & H2 & E). pose proof (safeProjectPath_unchanged "go.mod" fs1) as T2.
  rewrite H2 in T2. cbn [fst] in T2. destruct (regular_info _); cbn [negb] in E; [|done].
  apply bind_Ok in E as (fs3 & sv & H3 & E). pose proof (safeProjectPath_unchanged "pkg/runtime/server.go" fs2) as T3.
  rewrite H3 in T3. cbn [fst] in T3. destruct (regular_info _); cbn [negb] in E; [|done].
  apply bind_Ok in E as (fs4 & m & H4 & E). pose proof (read_manifest_unchanged fs3) as T4.
  rewrite H4 in T4. cbn [fst] in T4.
  apply bind_Ok in E as (fs5 & fr & [= <- H5] & E).
  destruct (String.eqb_spec fr to_) as [->|Hne]; [injection E as _ <-; split; [done | by left]|].
  destruct (String.eqb_spec to_ latestRuntimeUpgradeVersion) as [Hto|]; cbn [negb] in E; [|done].
  apply bind_Ok in E as (fs6 & baseline & H6%wrap_Ok & E). injection H6 as <- H6.
  apply bind_Ok in E as (fs7 & ig & H7 & E). pose proof (planIgnore_unchanged fs4) as T7.
  rewrite H7 in T7. cbn [fst] in T7.
  apply bind_Ok in E as (fs8 & targets & H8%wrap_Ok & E). injection H8 as <- H8.
  apply bind_Ok in E as (fs9 & acts & H9 & E). injection E as _ <-. cbn.
  assert (NoDup (ac_path <$> acts)) as Hnd.
  { apply plan_files_paths in H9 as (l & -> & Hl). cbn. eapply sublist_NoDup; [|exact Hl].
    unfold runtimeUpgradePaths. apply (bool_decide_unpack _). by vm_compute. }
  apply plan_files_Ok in H9 as (Hp & _ & Hcov); [|done|constructor].
  assert (tree fs7 = tree fs) as Ht by (unfold unchanged in *; congruence). rewrite Ht in *.
  split; [done|]. right. split_and!; [done|done| |done|by eapply planIgnore_Ok].
  by exists baseline, targets.
Qed.

Lemma planned_managed to_ baseline targets t a : planned to_ baseline targets t a → ac_path a ∈ managed.
Proof using Type. intros [Ha _]. unfold managed. apply elem_of_app. by left. Qed.

(** The directory of the metadata is there when the metadata is. *)
Definition metadata_parent (t : gmap path node) : Prop :=
  ∀ n, t !! parts metadata_path = Some n → t !! [".fgoths"] = Some Dir.

Context (Hstamp : mem_byte "/" stamp = false).

Lemma runtime_hashes_unchanged sources paths hashes :
  relates unchanged (runtime_hashes sha256Hex sources paths hashes).
Proof using Type.
  revert hashes. induction paths as [|r paths IH]; intros hashes; cbn [runtime_hashes]; relates_steps.
Qed.
#[local] Hint Resolve runtime_hashes_unchanged : relates.

(** A successful check that finds nothing has found something missing. *)
Lemma safeProjectPath_None r fs fs' p :
  safeProjectPath r fs = (fs', Ok (p, None)) → missing (tree fs) (parts r).
Proof using Type.
  intros E. pose proof (safeProjectPath_Ok _ _ _ _ _ E) as (_ & _ & Hu & _).
  unfold safeProjectPath in E. rewrite Hu in E. apply bind_Ok in E as (fs2 & i & Hw & [= _ _ ->]).
  apply safe_walk_Ok in Hw as [_ Hn]. destruct (Hn eq_refl (split_nonempty _ _)) as (k & ? & ? & _).
  by exists k.
Qed.

Lemma metadata_backup_path br :
  filepath_Join [br; ".fgoths"; "upgrade.json"] = filepath_Join [br; metadata_path].
Proof using Type. unfold filepath_Join. cbn [List.filter]. by destruct (String.eqb br ""). Qed.

Lemma write_metadata_kept fs t0 :
  metadata_parent t0 → kept stamp t0 (tree fs) →
  kept stamp t0 (tree (write_metadata managedRuntimeSources json_unmarshal json_marshal sha256Hex updatedAt
                         (backup_root stamp latestRuntimeUpgradeVersion) latestRuntimeUpgradeVersion fs).1).
Proof using Hstamp.
  intros Hpar Hk. unfold write_metadata, bind at 1.
  pose proof (safeProjectPath_unchanged metadata_path fs) as T1.
  destruct (safeProjectPath metadata_path fs) as [fs1 [[p i]|e]] eqn:E1; cbn [fst snd] in *; [|by rewrite <- T1].
  destruct (safeProjectPath_Ok _ _ _ _ _ E1) as (_ & -> & Hun & Hinfo).
  unfold bind at 1. set (rd := match i with Some _ => _ | None => _ end).
  assert (relates unchanged rd) as Hrd by (unfold rd; relates_steps).
  specialize (Hrd fs1). destruct (rd fs1) as [fs2 [md|e]] eqn:E2; cbn [fst] in *; [|by rewrite <- Hrd, <- T1].
  unfold bind at 1. pose proof (relates_wrap unchanged (λ e, "load runtime sources for upgrade metadata: " +:+ e) _
    (relates_of_result unchanged managedRuntimeSources) fs2) as T3.
  destruct (wrap _ (of_result managedRuntimeSources) fs2) as [fs3 [sources|e]]; cbn [fst] in *;
    [|by rewrite <- T3, <- Hrd, <- T1].
  unfold bind at 1. pose proof (runtime_hashes_unchanged sources runtimeUpgradePaths (um_RuntimeFiles md.1) fs3) as T4.
  destruct (runtime_hashes _ _ _ _ fs3) as [fs4 [hashes|e]]; cbn [fst] in *; [|by rewrite <- T4, <- T3, <- Hrd, <- T1].
  unfold bind at 1. set (m := mkManifest _ _ _ _ _ _ _).
  pose proof (relates_wrap unchanged (λ e, "encode upgrade metadata: " +:+ e) _
    (relates_of_result unchanged (json_marshal m)) fs4) as T5.
  destruct (wrap _ (of_result (json_marshal m)) fs4) as [fs5 [enc|e]]; cbn [fst] in *;
    [|by rewrite <- T5, <- T4, <- T3, <- Hrd, <- T1].
  assert (tree fs5 = tree fs) as Ht5 by (unfold unchanged in *; congruence).
  destruct i as [n|].
  - etransitivity; [exact Hk|]. rewrite <- Ht5.
    unfold rd in E2. apply bind_Ok in E2 as (fs2' & data & Hr%wrap_Ok & E2).
    apply bind_Ok in E2 as (fs2'' & mm & _ & [= _ <-]). cbn [snd].
    apply readFile_Ok in Hr as [_ Hr]. rewrite <- T1 in Hr.
    destruct (Hinfo n eq_refl) as [Hl Hsym]. rewrite Hl in Hr.
    rewrite metadata_backup_path.
    eapply (backed_up_write stamp Hstamp metadata_path); [apply metadata_managed | | exact Hr].
    by rewrite Ht5.
  - apply safeProjectPath_None in E1 as (k & Hlen & Hmiss).
    pose proof (relates_wrap _ (λ e, "write upgrade metadata: " +:+ e) _
      (writeProjectFile_replaces metadata_path (enc +:+ lf) 420) fs5) as R.
    change (kept stamp t0 (tree (wrap (λ e, "write upgrade metadata: " +:+ e)
      (writeProjectFile metadata_path (enc +:+ lf) 420) fs5).1)).
    rewrite Ht5 in R. intros q n Hq. destruct (Hk q n Hq) as [Hn|(s & c & m' & Hs & -> & Hc & Hb)].
    + left. apply R; [|done]. intros ->%list_elem_of_singleton.
      assert (tree fs !! [".fgoths"] = Some Dir) as Hd.
      { destruct (Hk [".fgoths"] Dir (Hpar n Hq)) as [|(? & ? & ? & _ & _ & ? & _)]; done. }
      destruct k as [|[|[|k]]]; [lia| | |cbn in Hlen; lia].
      * change (tree fs !! [".fgoths"] = None) in Hmiss. congruence.
      * change (tree fs !! parts metadata_path = None) in Hmiss. congruence.
    + right. exists s, c, m'. split_and!; [done..|]. apply R; [|done].
      intros He%list_elem_of_singleton. exact (backup_not_managed stamp _ _ Hs metadata_managed He).
Qed.

Lemma applyRuntimeUpgrade_kept rep fs :
  to rep = latestRuntimeUpgradeVersion →
  Forall (λ a, ac_path a ∈ managed) (actions rep) →
  (∀ a, artifactIgnore rep = Some a → ac_path a ∈ managed) →
  metadata_parent (tree fs) →
  kept stamp (tree fs) (tree (applyRuntimeUpgrade managedRuntimeSources json_unmarshal json_marshal
    sha256Hex stamp updatedAt rep fs).1).
Proof using Hstamp.
  intros Hto Ha Hi Hpar. unfold applyRuntimeUpgrade. rewrite Hto. unfold bind at 1.
  set (ig := match artifactIgnore rep with Some a => _ | None => _ end).
  assert (relates (kept stamp) ig) as Hig.
  { unfold ig. destruct (artifactIgnore rep) as [a|]; [|apply relates_ret, _].
    apply apply_ignore_kept; [done | by apply Hi]. }
  specialize (Hig fs). destruct (ig fs) as [fs1 [?|e]]; [|done]. cbn [fst] in Hig. unfold bind at 1.
  pose proof (apply_actions_kept stamp Hstamp (actions rep) 0 Ha fs1) as Hacts.
  destruct (apply_actions _ (actions rep) 0 fs1) as [fs2 [conflicts|e]]; cbn [fst] in *; [|by etransitivity].
  assert (kept stamp (tree fs) (tree fs2)) as Hk by by etransitivity.
  destruct (0 <? conflicts)%Z; [done|]. unfold bind.
  pose proof (write_metadata_kept fs2 (tree fs) Hpar Hk) as Hw.
  destruct (write_metadata _ _ _ _ _ _ _ fs2) as [fs3 [?|e]]; done.
Qed.
End Plan.

(** ** What a run has done when it ends *)

Lemma writeNewProjectFile_replaces ps r c m : relates (replaces ps) (writeNewProjectFile r c m).
Proof. eapply relates_replaces_mono; [|apply writeNewProjectFile_extends]. by intros q ?%elem_of_nil. Qed.
Lemma writeProjectFile_replaces_in ps r c m : parts r ∈ ps → relates (replaces ps) (writeProjectFile r c m).
Proof.
  intros Hr. eapply relates_replaces_mono; [|apply writeProjectFile_replaces].
  by intros q ->%list_elem_of_singleton.
Qed.
#[export] Hint Resolve writeNewProjectFile_replaces writeProjectFile_replaces_in : relates.

Lemma apply_update_replaces br ps a : parts (ac_path a) ∈ ps → relates (replaces ps) (apply_update br a).
Proof. intros Ha. unfold apply_update. relates_steps. Qed.
Lemma apply_conflict_replaces ps a : relates (replaces ps) (apply_conflict a).
Proof. unfold apply_conflict. relates_steps. Qed.
Lemma apply_ignore_replaces br ps a :
  parts (ac_path a) ∈ ps → relates (replaces ps) (applyUpgradeArtifactIgnore br a).
Proof. intros Ha. unfold applyUpgradeArtifactIgnore. relates_steps. Qed.

Definition written_path (a : upgradeFileAction) : list path :=
  if written a then [parts (ac_path a)] else [].
Definition written_paths (acts : list upgradeFileAction) : list path := concat (written_path <$> acts).

Lemma elem_of_written_paths q acts :
  q ∈ written_paths acts → ∃ a, a ∈ acts ∧ written a = true ∧ q = parts (ac_path a).
Proof.
  unfold written_paths. induction acts as [|a acts IH]; [by intros ?%elem_of_nil|]. cbn.
  rewrite elem_of_app. intros [Hq|Hq].
  - unfold written_path in Hq. destruct (written a) eqn:Ea; [|by apply elem_of_nil in Hq].
    apply list_elem_of_singleton in Hq as ->. exists a. split; [by left | done].
  - destruct (IH Hq) as (b & ? & ?). exists b. split; [by right | done].
Qed.
Lemma apply_action_replaces br a : relates (replaces (written_path a)) (apply_action br a).
Proof.
  unfold apply_action, written_path, written. destruct (status a); try apply relates_ret, _;
    (apply relates_bind; [exact _ | | intros _; apply relates_ret, _]);
    [apply apply_update_replaces; by left..|apply apply_conflict_replaces].
Qed.
Lemma apply_actions_replaces br acts conflicts :
  relates (replaces (written_paths acts)) (apply_actions br acts conflicts).
Proof.
  revert conflicts. induction acts as [|a acts IH]; intros conflicts; cbn [apply_actions]; [apply relates_ret, _|].
  change (written_paths (a :: acts)) with (written_path a ++ written_paths acts).
  apply relates_bind; [exact _ | |intros n]; (eapply relates_replaces_mono; [|apply apply_action_replaces || apply IH]);
    intros q Hq; apply elem_of_app; auto.
Qed.

Lemma apply_update_Ok br a fs fs' u :
  ac_path a ∈ managed → apply_update br a fs = (fs', Ok u) →
  ∃ m, tree fs' !! parts (ac_path a) = Some (File (content a) m).
Proof.
  intros Hm. unfold apply_update. intros (fs1 & [p i] & _ & E)%bind_Ok. cbn [fst snd] in E.
  destruct i as [n|]; [|done]. destruct (negb (is_regular n)); [done|].
  apply bind_Ok in E as (fs2 & c & _ & E). destruct (negb _); [done|].
  apply bind_Ok in E as (fs3 & ? & _ & E%wrap_Ok).
  apply writeProjectFile_Ok in E; [done | by apply managed_no_temp].
Qed.
Lemma attempt_eq {A : Type} (m : M A) fs fs' r : attempt m fs = (fs', Ok r) → m fs = (fs', r).
Proof. unfold attempt. destruct (m fs). by intros [= -> ->]. Qed.
Lemma attempt_Err {A : Type} (m : M A) fs fs' e : attempt m fs ≠ (fs', Err e).
Proof. unfold attempt. by destruct (m fs). Qed.
Lemma apply_conflict_Ok a fs fs' u :
  apply_conflict a fs = (fs', Ok u) →
  ∃ n, tree fs' !! parts (conflictTo a) = Some n ∧ read_node (Some n) = Ok (conflict a).
Proof.
  unfold apply_conflict. intros (fs1 & [p i] & _ & E)%bind_Ok. cbn [fst snd] in E.
  apply bind_Ok in E as (fs2 & c & _ & E). destruct (negb _); [done|].
  apply bind_Ok in E as (fs3 & sv & Ew%attempt_eq & E). destruct sv as [?|e].
  { injection E as <- _. apply writeNewProjectFile_Ok in Ew as [m' Ew]. by eexists. }
  apply bind_Ok in E as (fs4 & cand & Es%attempt_eq & E).
  destruct cand as [[cp [n|]]|]; try done.
  apply safeProjectPath_Ok in Es as (Ht & -> & _ & Hn). destruct (Hn n eq_refl) as [Hl _].
  apply bind_Ok in E as (fs5 & ex & Er%attempt_eq & E).
  destruct ex as [existing|]; [|done]. destruct (String.eqb_spec existing (conflict a)) as [->|]; [|done].
  injection E as <- _. apply readFile_Ok in Er as [Ht5 Er]. rewrite Ht5, Ht in *. rewrite Hl in Er. by exists n.
Qed.

(** What has become of one action. *)
Definition settled (t : gmap path node) (a : upgradeFileAction) : Prop :=
  match status a with
  | StUpdate | StMerge => ∃ m, t !! parts (ac_path a) = Some (File (content a) m)
  | StConflict => ∃ n, t !! parts (conflictTo a) = Some n ∧ read_node (Some n) = Ok (conflict a)
  | StCurrent | StIgnore => True
  end.
Lemma apply_action_Ok br a fs fs' n :
  ac_path a ∈ managed → apply_action br a fs = (fs', Ok n) →
  n = (if conflicting a then 1 else 0)%Z ∧ settled (tree fs') a.
Proof.
  intros Hm. unfold apply_action, settled, conflicting. destruct (status a).
  1,2: intros (fs1 & u & Hu & [= <- <-])%bind_Ok; split; [done | by eapply apply_update_Ok].
  - intros (fs1 & u & Hu & [= <- <-])%bind_Ok. split; [done | by eapply apply_conflict_Ok].
  - by intros [= _ <-].
  - by intros [= _ <-].
Qed.
Lemma settled_replaces ps t t' a :
  replaces ps t t' → parts (ac_path a) ∉ ps → parts (conflictTo a) ∉ ps → settled t a → settled t' a.
Proof.
  intros R H1 H2. unfold settled. destruct (status a); [| | |done|done];
    intros (x & Hx); exists x; [by apply R..|]. destruct Hx as [Hx ?]. split; [by apply R | done].
Qed.

Lemma apply_actions_Ok br acts c fs fs' c' :
  Forall (λ a, ac_path a ∈ managed) acts →
  NoDup ((λ a, parts (ac_path a)) <$> acts) →
  (∀ a b, a ∈ acts → b ∈ acts → parts (conflictTo a) ≠ parts (ac_path b)) →
  apply_actions br acts c fs = (fs', Ok c') →
  c' = (c + Z.of_nat (length (List.filter conflicting acts)))%Z ∧ Forall (settled (tree fs')) acts.
Proof.
  revert c fs. induction acts as [|a acts IH]; intros c fs Hm Hnd Hcf E; cbn [apply_actions] in E.
  { injection E as _ <-. split; [cbn; lia | constructor]. }
  apply Forall_cons in Hm as [Hma Hm]. apply NoDup_cons in Hnd as [Hna Hnd].
  apply bind_Ok in E as (fs1 & n & Ha & E). apply apply_action_Ok in Ha as [-> Ha]; [|done].
  pose proof (apply_actions_replaces br acts (c + (if conflicting a then 1 else 0)) fs1) as R. rewrite E in R.
  apply IH in E as [-> Hs]; [|done|done|intros x y Hx Hy; apply Hcf; by right]. split.
  - cbn [List.filter]. destruct (conflicting a); cbn [length]; lia.
  - constructor; [|done]. eapply settled_replaces; [exact R | | |exact Ha];
      intros (b & Hb & _ & He)%elem_of_written_paths.
    + apply Hna, list_elem_of_fmap. by exists b.
    + by apply (Hcf a b); [left | right|].
Qed.

(** A write that fails leaves its target alone: the rename comes last. *)
Lemma temp_write_Err p temp c m fs fs' e :
  (let* werr := fileWrite temp c in let* cherr := fileChmod temp m in let* clerr := fileClose in
   let* r := attempt (match join_errors [werr; cherr; clerr] with
                      | Some e => fail e
                      | None => renameFile temp p
                      end) in
   do* removeFile temp in of_result r) fs = (fs', Err e) →
  replaces [temp] (tree fs) (tree fs').
Proof.
  assert (temp ∈ [temp]) as Hin by by left. intros E.
  apply bind_Err in E as [E|(fs1 & w & H1 & E)];
    [by eapply relates_run in E; [|by apply relates_fileWrite]|].
  eapply relates_run in H1; [|by apply (relates_fileWrite [temp])]. etransitivity; [exact H1|]. clear H1.
  apply bind_Err in E as [E|(fs2 & ch & H2 & E)];
    [by eapply relates_run in E; [|by apply relates_fileChmod]|].
  eapply relates_run in H2; [|by apply (relates_fileChmod [temp])]. etransitivity; [exact H2|]. clear H2.
  apply bind_Err in E as [E|(fs3 & cl & H3 & E)];
    [by eapply relates_run in E; [|apply (relates_fileClose (replaces [temp]))]|].
  eapply relates_run in H3; [|apply (relates_fileClose (replaces [temp]))]. etransitivity; [exact H3|]. clear H3.
  apply bind_Err in E as [E|(fs4 & r & H4%attempt_eq & E)].
  { by apply attempt_Err in E. }
  assert (r = Err e) as ->.
  { apply bind_Err in E as [E|(fs5 & u & _ & [= _ ->])]; [|done]. unfold removeFile, bind in E.
    destruct (next_fault_eq fs4) as (o & fs5 & Ef & _). rewrite Ef in E. by destruct (io_error o). }
  assert (tree fs4 = tree fs3) as Ht.
  { destruct (join_errors _); [by injection H4 as <- _ | by eapply renameFile_Err]. }
  rewrite <- Ht. eapply relates_run in E; [exact E|].
  apply relates_bind; [exact _ | by apply relates_removeFile | intros _; apply relates_of_result, _].
Qed.
Lemma writeProjectFile_Err r c m fs fs' e :
  writeProjectFile r c m fs = (fs', Err e) → extends (tree fs) (tree fs').
Proof.
  unfold writeProjectFile. intros E.
  apply bind_Err in E as [E|(fs1 & [p i] & H1 & E)]; [by eapply relates_run in E; [|apply safeProjectPath_replaces]|].
  eapply relates_run in H1; [|apply (safeProjectPath_replaces [])]. etransitivity; [exact H1|]. clear H1. cbn [fst] in E.
  apply bind_Err in E as [E|(fs2 & ? & H2 & E)]; [by eapply relates_run in E; [|apply mkdirAll_extends]|].
  eapply relates_run in H2; [|apply mkdirAll_extends]. etransitivity; [exact H2|]. clear H2.
  apply bind_Err in E as [E|(fs3 & ? & H3 & E)]; [by eapply relates_run in E; [|apply safeProjectPath_replaces]|].
  eapply relates_run in H3; [|apply (safeProjectPath_replaces [])]. etransitivity; [exact H3|]. clear H3.
  apply bind_Err in E as [E|(fs4 & temp & H4 & E)]; [by apply createTemp_spec in E as [E _]|].
  apply createTemp_spec in H4 as (H4 & Hnone & _). apply temp_write_Err in E.
  apply (replaces_absent temp); [done|]. etransitivity; [|exact E].
  eapply replaces_mono; [|exact H4]. by intros q ?%elem_of_nil.
Qed.

Lemma parts_inj s s' : s ∈ managed → s' ∈ managed → parts s = parts s' → s = s'.
Proof.
  intros Hs Hs' He. destruct (managed_parts s Hs) as (_ & -> & _).
  destruct (managed_parts s' Hs') as (_ & -> & _). by rewrite He.
Qed.
Lemma runtime_managed r : r ∈ runtimeUpgradePaths → r ∈ managed.
Proof. intros Hr. unfold managed. apply elem_of_app. by left. Qed.
Lemma conflict_file_apart r s :
  r ∈ runtimeUpgradePaths → s ∈ managed →
  parts (conflict_file latestRuntimeUpgradeVersion r) ≠ parts s ∧ parts "" ≠ parts s.
Proof.
  intros Hr Hs. unfold runtimeUpgradePaths in Hr. unfold managed in Hs.
  repeat (apply elem_of_cons in Hr as [->|Hr]); [..|by apply elem_of_nil in Hr];
    repeat (apply elem_of_cons in Hs as [->|Hs]);
    solve [by apply elem_of_nil in Hs | by vm_compute].
Qed.

Section Commit.
Context (embedded : gmap string string) (managedRuntimeSources : result (gmap string string))
  (json_unmarshal : string → result upgradeManifest) (json_marshal : upgradeManifest → result string)
  (mergeRuntimeFile : string → string → string → merge_result) (sha256Hex : string → string)
  (stamp updatedAt : string).

(** The metadata records the new version. *)
Definition records_version (t : gmap path node) (version : string) : Prop :=
  ∃ m data mode, um_Version m = version ∧ json_marshal m = Ok data
    ∧ t !! parts metadata_path = Some (File (data +:+ lf) mode).
Definition metadata_kept (t t' : gmap path node) : Prop :=
  ∀ n, t !! parts metadata_path = Some n → t' !! parts metadata_path = Some n.

Local Abbreviation write_md := (write_metadata managedRuntimeSources json_unmarshal json_marshal sha256Hex updatedAt).

Lemma write_metadata_replaces br to_ : relates (replaces [parts metadata_path]) (write_md br to_).
Proof using Type.
  unfold write_metadata. assert (parts metadata_path ∈ [parts metadata_path]) by by left.
  assert (∀ sources hashes, relates (replaces [parts metadata_path])
    (runtime_hashes sha256Hex sources runtimeUpgradePaths hashes)) as Hh
    by (intros; apply relates_unchanged_replaces, runtime_hashes_unchanged).
  relates_steps.
Qed.
Lemma write_metadata_Ok br to_ fs fs' u :
  write_md br to_ fs = (fs', Ok u) → records_version (tree fs') to_.
Proof using Type.
  unfold write_metadata. intros (fs1 & pi & _ & E)%bind_Ok. apply bind_Ok in E as (fs2 & md & _ & E).
  apply bind_Ok in E as (fs3 & src & _ & E). apply bind_Ok in E as (fs4 & hashes & _ & E).
  apply bind_Ok in E as (fs5 & enc & Henc%wrap_Ok & E). injection Henc as <- Henc.
  apply bind_Ok in E as (fs6 & ? & _ & E%wrap_Ok).
  apply writeProjectFile_Ok in E as [mode E]; [|apply managed_no_temp, metadata_managed].
  eexists _, enc, mode. split_and!; [|exact Henc | exact E]. done.
Qed.
Lemma write_metadata_Err br to_ fs fs' e :
  write_md br to_ fs = (fs', Err e) → metadata_kept (tree fs) (tree fs').
Proof using Type.
  unfold write_metadata. intros E.
  enough (extends (tree fs) (tree fs')) as H by (intros n; apply H, not_elem_of_nil).
  apply bind_Err in E as [E|(fs1 & pi & H1 & E)]; [by eapply relates_run in E; [|apply safeProjectPath_replaces]|].
  eapply relates_run in H1; [|apply (safeProjectPath_replaces [])]. etransitivity; [exact H1|]. clear H1.
  match type of E with bind ?m _ _ = _ => assert (relates extends m) as Hm by relates_steps end.
  apply bind_Err in E as [E|(fs2 & md & H2 & E)]; [by eapply relates_run in E|].
  eapply relates_run in H2; [|exact Hm]. etransitivity; [exact H2|]. clear H2 Hm.
  apply bind_Err in E as [E|(fs3 & src & H3 & E)]; [eapply relates_run in E; [exact E|relates_steps]|].
  eapply relates_run in H3; [|apply (relates_wrap extends), (relates_of_result extends)].
  etransitivity; [exact H3|]. clear H3.
  apply bind_Err in E as [E|(fs4 & hs & H4 & E)];
    [eapply relates_run in E; [exact E|apply relates_unchanged_replaces, runtime_hashes_unchanged]|].
  eapply relates_run in H4; [|apply (relates_unchanged_replaces []), runtime_hashes_unchanged].
  etransitivity; [exact H4|]. clear H4.
  apply bind_Err in E as [E|(fs5 & enc & H5 & E)]; [eapply relates_run in E; [exact E|relates_steps]|].
  eapply relates_run in H5; [|apply (relates_wrap extends), (relates_of_result extends)].
  etransitivity; [exact H5|]. clear H5.
  match type of E with bind ?m _ _ = _ => assert (relates extends m) as Hm by relates_steps end.
  apply bind_Err in E as [E|(fs6 & u & H6 & E)]; [by eapply relates_run in E|].
  eapply relates_run in H6; [|exact Hm]. etransitivity; [exact H6|].
  unfold wrap in E. destruct (writeProjectFile _ _ _ fs6) as [fs7 [?|e7]] eqn:Ew; [done|].
  injection E as <- _. by eapply writeProjectFile_Err.
Qed.
End Commit.

Lemma NoDup_fmap_eq {A B : Type} (f : A → B) l a b :
  NoDup (f <$> l) → a ∈ l → b ∈ l → f a = f b → a = b.
Proof.
  intros Hnd Ha Hb Hf. apply list_elem_of_lookup in Ha as [i Hi], Hb as [j Hj].
  assert (i = j) as ->; [|congruence].
  eapply (NoDup_lookup (f <$> l) i j (f a)); [done|..]; rewrite list_lookup_fmap, ?Hi, ?Hj; cbn; congruence.
Qed.
Lemma runtime_not_ignore r : r ∈ runtimeUpgradePaths → parts r ≠ parts ignore_path.
Proof.
  intros Hr He. pose proof (parts_inj r ignore_path (runtime_managed r Hr) ignore_managed He) as ->.
  unfold runtimeUpgradePaths in Hr. set_solver.
Qed.

(** Everything before the metadata leaves it alone. *)
Lemma before_metadata_kept rep br :
  (∀ a, a ∈ actions rep → ac_path a ∈ runtimeUpgradePaths) →
  (∀ a, artifactIgnore rep = Some a → ac_path a = ignore_path) →
  ∀ ps, ps = parts ignore_path :: written_paths (actions rep) →
  relates (replaces ps) (match artifactIgnore rep with
                         | Some a => applyUpgradeArtifactIgnore br a
                         | None => ret tt
                         end)
  ∧ relates (replaces ps) (apply_actions br (actions rep) 0)
  ∧ ∀ t t', replaces ps t t' → metadata_kept t t'.
Proof.
  intros Ha Hi ps ->. split_and!.
  - destruct (artifactIgnore rep) as [a|]; [|apply relates_ret, _].
    apply apply_ignore_replaces. rewrite (Hi a) by done. by left.
  - eapply relates_replaces_mono; [|apply apply_actions_replaces]. intros q Hq. by right.
  - intros t t' R n. apply R. intros [He|(a & Hin & _ & He)%elem_of_written_paths]%elem_of_cons; [by vm_compute in He|].
    apply parts_inj in He; [|apply metadata_managed | by apply runtime_managed, Ha].
    specialize (Ha a Hin). rewrite <- He in Ha. unfold runtimeUpgradePaths in Ha. set_solver.
Qed.
Lemma settled_after_metadata t t' rep :
  (∀ a s, a ∈ actions rep → s ∈ managed → parts (conflictTo a) ≠ parts s) →
  (∀ a, a ∈ actions rep → ac_path a ∈ runtimeUpgradePaths) →
  replaces [parts metadata_path] t t' → Forall (settled t) (actions rep) → Forall (settled t') (actions rep).
Proof.
  intros Hcf Ha R Hs. rewrite Forall_forall in *. intros a Hin.
  eapply settled_replaces; [exact R | | |by apply Hs]; intros He%list_elem_of_singleton.
  - apply parts_inj in He; [|by apply runtime_managed, Ha|apply metadata_managed].
    specialize (Ha a Hin). rewrite He in Ha. unfold runtimeUpgradePaths in Ha. set_solver.
  - by apply (Hcf a metadata_path Hin metadata_managed).
Qed.

Section Finished.
Context (embedded : gmap string string) (managedRuntimeSources : result (gmap string string))
  (json_unmarshal : string → result upgradeManifest) (json_marshal : upgradeManifest → result string)
  (mergeRuntimeFile : string → string → string → merge_result) (sha256Hex : string → string)
  (stamp updatedAt : string).
Local Abbreviation plan := (planRuntimeUpgrade embedded managedRuntimeSources json_unmarshal mergeRuntimeFile).
Local Abbreviation apply := (applyRuntimeUpgrade managedRuntimeSources json_unmarshal json_marshal sha256Hex stamp updatedAt).

(** The actions of a plan, ready for [apply_actions_Ok]. *)
Lemma plan_shape root fromArg fs fs1 rep :
  plan root fromArg latestRuntimeUpgradeVersion fs = (fs1, Ok rep) →
  Forall (λ a, ac_path a ∈ managed) (actions rep)
  ∧ NoDup ((λ a, parts (ac_path a)) <$> actions rep)
  ∧ (∀ a s, a ∈ actions rep → s ∈ managed → parts (conflictTo a) ≠ parts s)
  ∧ (∀ a, a ∈ actions rep → ac_path a ∈ runtimeUpgradePaths)
  ∧ (∀ a, artifactIgnore rep = Some a → ac_path a = ignore_path)
  ∧ to rep = latestRuntimeUpgradeVersion.
Proof using Type.
  intros (Hto & [(_ & -> & ->)|(_ & _ & (b & t & _ & _ & Hnd & Hp) & _ & Hi)])%planRuntimeUpgrade_Ok.
  { split_and!; [constructor|constructor|by intros ? ? ?%elem_of_nil|by intros ? ?%elem_of_nil|done|done]. }
  rewrite Forall_forall in Hp.
  assert (∀ a, a ∈ actions rep → ac_path a ∈ runtimeUpgradePaths) as Hrt by (intros a Ha; apply (Hp a Ha)).
  split_and!; try done.
  - apply Forall_forall. intros a Ha. by apply runtime_managed, Hrt.
  - assert (((λ a, parts (ac_path a)) <$> actions rep) = parts <$> (ac_path <$> actions rep)) as ->
      by by rewrite <- list_fmap_compose.
    assert (Forall (λ s, s ∈ managed) (ac_path <$> actions rep)) as Hm.
    { apply Forall_fmap, Forall_forall. intros a Ha. by apply runtime_managed, Hrt. }
    revert Hnd Hm. clear. induction (ac_path <$> actions rep) as [|s l IH]; [constructor|].
    intros [Hs Hnd]%NoDup_cons [Hsm Hm]%Forall_cons. cbn. apply NoDup_cons. split; [|by apply IH].
    intros (s' & He & Hs')%list_elem_of_fmap. rewrite Forall_forall in Hm.
    apply parts_inj in He as ->; [done|done | by apply Hm].
  - intros a s Ha Hs. destruct (Hp a Ha) as (Hr & Hc & _). rewrite Hc.
    destruct (conflict_file_apart _ _ Hr Hs). by destruct (conflicting a).
  - intros a Ha. by apply Hi.
Qed.

End Finished.

(** C19 : a plan writes nothing and is exact: it has one action for each managed
    file that is there and none for the others, and the action is what the
    three-way comparison of the file with its baseline and its target calls for
    (keep, replace an unedited file, write the merge of an edited one, or report
    a conflict). *)
Theorem plan_is_three_way embedded sources json_unmarshal merge root fromArg fs fs1 rep :
  planRuntimeUpgrade embedded sources json_unmarshal merge root fromArg latestRuntimeUpgradeVersion fs
    = (fs1, Ok rep) →
  tree fs1 = tree fs ∧ to rep = latestRuntimeUpgradeVersion
  ∧ (from rep ≠ to rep →
     ∃ baseline targets, runtimeUpgradeBaseline embedded (from rep) = Ok baseline ∧ sources = Ok targets
     ∧ NoDup (ac_path <$> actions rep)
     ∧ ∀ r, r ∈ runtimeUpgradePaths →
         (∃ a m base target, a ∈ actions rep ∧ ac_path a = r
            ∧ tree fs !! parts r = Some (File (original a) m)
            ∧ baseline !! r = Some base ∧ targets !! r = Some target ∧ three_way merge base target a)
         ∨ missing (tree fs) (parts r)).
Proof.
  intros E. pose proof (planRuntimeUpgrade_unchanged embedded sources json_unmarshal merge
    root fromArg latestRuntimeUpgradeVersion fs) as Ht. rewrite E in Ht.
  apply planRuntimeUpgrade_Ok in E as (Hto & Hp). split_and!; [done|done|]. rewrite Hto.
  destruct Hp as [(? & _)|(_ & _ & (b & t & Hb & Hs & Hnd & Hp) & Hcov & _)]; [done|]. intros _.
  exists b, t. split_and!; [done..|]. intros r Hr. destruct (Hcov r Hr) as [(a & Ha & <-)|Hm]; [left|by right].
  rewrite Forall_forall in Hp. destruct (Hp a Ha) as (_ & _ & m & base & target & Hl & _ & Hb' & Ht' & H3).
  by exists a, m, base, target.
Qed.

(** C4 : an upgrade loses nothing.  However it ends, with calls of the file
    system failing or writing partially at any point, every node that was below
    the root is in place, or it was a managed file and its content is in the
    backup directory of the run; without --apply nothing changes at all. *)
Theorem upgrade_loses_nothing embedded sources json_unmarshal json_marshal merge sha256Hex stamp updatedAt
    cliVersion root fromVersion apply fs :
  mem_byte "/" stamp = false → metadata_parent (tree fs) →
  let t' := tree (RunUpgrade embedded sources json_unmarshal json_marshal merge sha256Hex stamp updatedAt
                    cliVersion root fromVersion apply fs).1 in
  (apply = false → t' = tree fs)
  ∧ ∀ p n, tree fs !! p = Some n →
      t' !! p = Some n
      ∨ ∃ s c m, s ∈ managed ∧ p = parts s ∧ read_node (Some n) = Ok c
          ∧ t' !! (backup_dir stamp ++ p) = Some (File c m).
Proof.
  intros Hstamp Hpar t'. remember t' as u eqn:Hu. unfold t', RunUpgrade in Hu. clear t'.
  change ((apply = false → u = tree fs) ∧ kept stamp (tree fs) u).
  assert (u = tree fs → (apply = false → u = tree fs) ∧ kept stamp (tree fs) u) as Hsame
    by (intros ->; split; [done | reflexivity]).
  destruct (_ && _); [by apply Hsame|].
  pose proof (planRuntimeUpgrade_unchanged embedded sources json_unmarshal merge root fromVersion
    latestRuntimeUpgradeVersion fs) as Ht. unfold bind at 1 in Hu.
  destruct (planRuntimeUpgrade _ _ _ _ _ _ _ fs) as [fs1 [rep|e]] eqn:E; cbn [fst] in *;
    [|by apply Hsame; rewrite Hu, Ht].
  destruct (String.eqb (from rep) (to rep)); [by apply Hsame; rewrite Hu, Ht|].
  destruct apply; cbn [negb] in Hu; [|by apply Hsame; rewrite Hu, Ht]. split; [done|].
  pose proof (plan_shape embedded sources json_unmarshal merge _ _ _ _ _ E) as (Hm & _ & _ & _ & Hi & Hto).
  rewrite Ht in *. clear Hsame Ht E.
  pose proof (applyRuntimeUpgrade_kept sources json_unmarshal json_marshal sha256Hex stamp updatedAt Hstamp
    rep fs1 Hto Hm ltac:(intros a Ha; rewrite (Hi a Ha); apply ignore_managed) Hpar) as Hk.
  unfold bind in Hu. destruct (applyRuntimeUpgrade _ _ _ _ _ _ rep fs1) as [fs2 [c|e]]; subst u; [|exact Hk].
  by destruct (0 <? c)%Z.
Qed.

(** ** The ignore file *)

Definition cr : string := String (ascii_of_N 13) "".

Lemma trim_left_cr s : trim_left (s +:+ cr) = match trim_left s with "" => "" | t => t +:+ cr end.
Proof.
  unfold trim_left. remember (String.length s) as n eqn:Hn. revert s Hn.
  induction (lt_wf n) as [n _ IH]. intros [|c s] ->; [done|]. rewrite str_app_cons. cbn [trim_front].
  destruct (space1 c); [by apply (IH (String.length s)); cbn; lia|].
  destruct s as [|d s]; [by rewrite str_app_nil_l; cbn; unfold space2; rewrite !andb_false_r|].
  rewrite str_app_cons. cbn [trim_front].
  destruct (space2 c d); [by apply (IH (String.length s)); cbn; lia|].
  destruct s as [|e s].
  - rewrite str_app_nil_l. unfold cr. assert (space3 c d (ascii_of_N 13) = false) as ->; [|done].
    unfold space3. change (byte_in 128 128 (ascii_of_N 13)) with false.
    change (byte_in 128 138 (ascii_of_N 13)) with false. change (byte_in 168 169 (ascii_of_N 13)) with false.
    change (byte_in 175 175 (ascii_of_N 13)) with false. change (byte_in 159 159 (ascii_of_N 13)) with false.
    cbn [orb]. by rewrite !andb_false_r.
  - rewrite str_app_cons. cbn [trim_front].
    destruct (space3 c d e); [by apply (IH (String.length s)); cbn; lia | done].
Qed.
Lemma trim_space_cr s : trim_space (s +:+ cr) = trim_space s.
Proof.
  unfold trim_space. rewrite trim_left_cr. destruct (trim_left s) as [|c t]; [done|].
  unfold trim_right. by rewrite str_rev_app.
Qed.

(** A line survives what is appended after it, whatever the line ends. *)
Lemma hasIgnoreRule_iff content rule :
  hasIgnoreRule content rule = true ↔ ∃ line, line ∈ split content (ascii_of_N 10) ∧ trim_space line = rule.
Proof.
  unfold hasIgnoreRule. rewrite existsb_true_iff. by setoid_rewrite String.eqb_eq.
Qed.
Lemma split_lf s t : split (s +:+ lf +:+ t) (ascii_of_N 10) = split s (ascii_of_N 10) ++ split t (ascii_of_N 10).
Proof. apply split_app. Qed.
Lemma ends_lf s : has_suffix s lf = true → ∃ r, s = r +:+ lf.
Proof. by intros [r ->]%has_suffix_spec; exists r. Qed.
Lemma has_rule_app_lf s t rule : hasIgnoreRule s rule = true → hasIgnoreRule (s +:+ lf +:+ t) rule = true.
Proof.
  rewrite !hasIgnoreRule_iff, split_lf. intros (l & Hl & Ht). exists l. split; [|done].
  apply elem_of_app. by left.
Qed.
Lemma split_cr s : ∃ init last_, split s (ascii_of_N 10) = init ++ [last_]
  ∧ split (s +:+ cr) (ascii_of_N 10) = init ++ [last_ +:+ cr].
Proof.
  induction s as [|c s (init & l & H1 & H2)]; [by exists [], ""|].
  rewrite str_app_cons. cbn [split]. rewrite H1, H2. destruct (Ascii.eqb c (ascii_of_N 10)).
  - by exists ("" :: init), l.
  - destruct init as [|p init]; cbn; [by exists [], (String c l) | by exists (String c p :: init), l].
Qed.
Lemma has_rule_cr s rule : hasIgnoreRule s rule = true → hasIgnoreRule (s +:+ cr) rule = true.
Proof.
  rewrite !hasIgnoreRule_iff. destruct (split_cr s) as (init & l & -> & ->).
  intros (x & [Hx|Hx]%elem_of_app & Ht).
  - exists x. split; [apply elem_of_app; by left | done].
  - apply list_elem_of_singleton in Hx as ->. exists (l +:+ cr). rewrite trim_space_cr.
    split; [apply elem_of_app; right; by left | done].
Qed.

Lemma app_crlf c : c +:+ crlf = (c +:+ cr) +:+ lf.
Proof. apply (str_app_assoc c cr lf). Qed.
Definition rule_name (rule : string) : Prop :=
  rule ≠ "" ∧ trim_space rule = rule ∧ mem_byte (ascii_of_N 10) rule = false.
Lemma rules_are_names rule : rule ∈ upgradeArtifactIgnoreRules → rule_name rule.
Proof.
  intros Hr. unfold upgradeArtifactIgnoreRules in Hr.
  repeat (apply elem_of_cons in Hr as [->|Hr]); [..|by apply elem_of_nil in Hr]; by vm_compute.
Qed.

(** What is appended: perhaps the end of the last line, then the rule as a line. *)
Lemma add_rule_shape c rule :
  hasIgnoreRule c rule = false →
  ∃ nl pre, (nl = lf ∨ nl = crlf) ∧ add_rule c rule = (c +:+ pre) +:+ rule +:+ nl
    ∧ ((c = "" ∧ pre = "") ∨ (pre = "" ∧ ∃ s, c = s +:+ lf) ∨ pre = nl).
Proof.
  intros Hr. unfold add_rule. rewrite Hr. set (nl := if contains c crlf then crlf else lf).
  assert (nl = lf ∨ nl = crlf) as Hnl by (unfold nl; destruct (contains c crlf); auto).
  destruct (Nat.ltb_spec 0 (String.length c)) as [Hpos|Hz]; cbn [andb].
  - destruct (has_suffix c lf) eqn:Hs; cbn [negb].
    + exists nl, "". rewrite str_app_nil_r. split_and!; [done|done|]. right. left. split; [done | by apply ends_lf].
    + exists nl, nl. split_and!; [done|done|]. by right; right.
  - exists nl, "". rewrite str_app_nil_r. split_and!; [done|done|]. left. split; [|done].
    apply str_length_0. lia.
Qed.
Lemma add_rule_adds c rule : rule_name rule → hasIgnoreRule (add_rule c rule) rule = true.
Proof.
  intros (Hne & Htrim & Hmem). destruct (hasIgnoreRule c rule) eqn:Hr.
  { unfold add_rule. by rewrite Hr. }
  destruct (add_rule_shape c rule Hr) as (nl & pre & Hnl & -> & Hpre).
  assert (∃ line, line ∈ split (rule +:+ nl) (ascii_of_N 10) ∧ trim_space line = rule) as (line & Hl & Ht).
  { destruct Hnl as [->| ->].
    - exists rule. split; [|done]. rewrite <- (str_app_nil_r lf), split_lf, split_no_sep by done. by left.
    - exists (rule +:+ cr). rewrite trim_space_cr. split; [|done].
      rewrite app_crlf, <- (str_app_nil_r lf), split_lf, split_no_sep; [by left|].
      rewrite mem_byte_app, Hmem. done. }
  apply hasIgnoreRule_iff. exists line. split; [|done].
  destruct Hpre as [[-> ->]|[[-> (s & ->)]| ->]]; [done|..].
  - rewrite str_app_nil_r, <- str_app_assoc, split_lf. apply elem_of_app. by right.
  - destruct Hnl as [->| ->]; [|rewrite (app_crlf c)];
      rewrite <- str_app_assoc, split_lf; apply elem_of_app; by right.
Qed.
Lemma add_rule_keeps c rule rule' : rule_name rule → hasIgnoreRule c rule = true → hasIgnoreRule (add_rule c rule') rule = true.
Proof.
  intros (Hne & _ & _) Hc. destruct (hasIgnoreRule c rule') eqn:Hr.
  { unfold add_rule. by rewrite Hr. }
  destruct (add_rule_shape c rule' Hr) as (nl & pre & Hnl & -> & Hpre).
  destruct Hpre as [[-> ->]|[[-> (s & ->)]| ->]].
  - apply hasIgnoreRule_iff in Hc as (l & Hl & Ht). apply list_elem_of_singleton in Hl as ->. by rewrite <- Ht in Hne.
  - rewrite str_app_nil_r, <- str_app_assoc. apply has_rule_app_lf.
    apply hasIgnoreRule_iff in Hc as (l & Hl & Ht). rewrite <- (str_app_nil_r lf), split_lf in Hl.
    apply elem_of_app in Hl as [Hl|Hl]; [|apply list_elem_of_singleton in Hl as ->; by rewrite <- Ht in Hne].
    apply hasIgnoreRule_iff. by exists l.
  - destruct Hnl as [->| ->]; [|rewrite (app_crlf c)];
      rewrite <- str_app_assoc; apply has_rule_app_lf; [done | by apply has_rule_cr].
Qed.
Lemma add_rule_prefix c rule : ∃ t, add_rule c rule = c +:+ t.
Proof.
  destruct (hasIgnoreRule c rule) eqn:Hr.
  - exists "". unfold add_rule. by rewrite Hr, str_app_nil_r.
  - destruct (add_rule_shape c rule Hr) as (nl & pre & _ & -> & _). exists (pre +:+ rule +:+ nl).
    by rewrite !str_app_assoc.
Qed.

(** Planning the ignore file keeps what the file says, adds what is
    missing and is idempotent: the planned content extends the original and has
    both rules as lines, whatever line ends the file uses, and nothing is planned
    for a file that has them. *)
Theorem ignore_plan_idempotent original mode :
  let planned := foldl add_rule original upgradeArtifactIgnoreRules in
  (∃ t, planned = original +:+ t)
  ∧ (∀ rule, rule ∈ upgradeArtifactIgnoreRules → hasIgnoreRule planned rule = true)
  ∧ ignore_action planned mode = None
  ∧ (∀ a, ignore_action original mode = Some a → content a = planned ∧ Upgrade.original a = original).
Proof.
  intros planned. cbn [foldl upgradeArtifactIgnoreRules] in planned.
  assert (∀ rule, rule ∈ upgradeArtifactIgnoreRules → hasIgnoreRule planned rule = true) as Hrules.
  { intros rule Hr. pose proof (rules_are_names rule Hr) as Hn. unfold upgradeArtifactIgnoreRules in Hr.
    repeat (apply elem_of_cons in Hr as [->|Hr]); [| |by apply elem_of_nil in Hr].
    - apply add_rule_keeps, add_rule_adds; done.
    - by apply add_rule_adds. }
  split_and!; [|done| |].
  - destruct (add_rule_prefix original "/upgrade-backups/") as [t Ht].
    destruct (add_rule_prefix (add_rule original "/upgrade-backups/") "/upgrade-conflicts/") as [t' Ht'].
    exists (t +:+ t'). unfold planned. by rewrite Ht', Ht, str_app_assoc.
  - unfold ignore_action. cbn [foldl upgradeArtifactIgnoreRules]. unfold add_rule at 1 2.
    rewrite !Hrules by (unfold upgradeArtifactIgnoreRules; set_solver). by rewrite String.eqb_refl.
  - intros a. unfold ignore_action. destruct (String.eqb _ _); [done|]. by intros [= <-].
Qed.

(** ** A project with one untouched and one edited file *)

Definition demo_embedded : gmap string string :=
  list_to_map ((λ p, ("upgrade/baselines/v1.4.0/" +:+ p +:+ ".txt", "base")) <$> runtimeUpgradePaths).
Definition demo_sources : result (gmap string string) :=
  Ok (list_to_map ((λ p, (p, "new")) <$> runtimeUpgradePaths)).
Definition demo_merge (current base target : string) : merge_result :=
  if has_prefix current "edit" then Merged (current +:+ "+new") else MergeConflict "<<<<<<<".
Definition demo_project (auth : string) : project :=
  mkProject {[ [] := Dir; ["go.mod"] := File "module m" 420; ["pkg"] := Dir; ["pkg"; "runtime"] := Dir;
               ["pkg"; "runtime"; "server.go"] := File "base" 420;
               ["pkg"; "runtime"; "auth.go"] := File auth 420 ]} [] ["1"; "2"; "3"; "4"; "5"] 18.
Definition demo_unmarshal (s : string) : result upgradeManifest :=
  Ok (mkManifest (trim_space s) "" "" "" "" [] ∅).
Definition demo_marshal (m : upgradeManifest) : result string := Ok (um_Version m).
Definition demo_upgrade (fs : project) : project * result unit :=
  RunUpgrade demo_embedded demo_sources demo_unmarshal demo_marshal demo_merge id "now" "now"
    "1.4.1" "/p" "v1.4.0" true fs.

Example demo_upgraded :
  let '(fs, r) := demo_upgrade (demo_project "edited") in
  r = Ok tt ∧ tree fs !! ["pkg"; "runtime"; "auth.go"] = Some (File "edited+new" 420)
  ∧ tree fs !! [".fgoths"; "upgrade.json"] = Some (File ("1.4.1" +:+ lf) 420)
  ∧ tree fs !! (backup_dir "now" ++ ["pkg"; "runtime"; "auth.go"]) = Some (File "edited" 420).
Proof. by vm_compute. Qed.

Lemma upgrade_loses_nothing_witness :
  let t' := tree (demo_upgrade (demo_project "edited")).1 in
  t' !! ["pkg"; "runtime"; "server.go"] = Some (File "base" 420)
  ∨ ∃ s c m, s ∈ managed ∧ ["pkg"; "runtime"; "server.go"] = parts s ∧ Ok "base" = Ok c
      ∧ t' !! (backup_dir "now" ++ ["pkg"; "runtime"; "server.go"]) = Some (File c m).
Proof.
  apply (upgrade_loses_nothing demo_embedded demo_sources demo_unmarshal demo_marshal demo_merge id
    "now" "now" "1.4.1" "/p" "v1.4.0" true (demo_project "edited")).
  - reflexivity.
  - intros n Hn. by vm_compute in Hn.
  - by vm_compute.
Defined.

Definition demo_plan (fs : project) : project * result upgradeReport :=
  planRuntimeUpgrade demo_embedded demo_sources demo_unmarshal demo_merge "/p" "v1.4.0" "1.4.1" fs.
Definition demo_planned : project := (demo_plan (demo_project "mine")).1.
Definition demo_report : upgradeReport :=
  match (demo_plan (demo_project "mine")).2 with Ok rep => rep | Err _ => mkReport "" "" [] None end.
Lemma demo_plan_Ok : demo_plan (demo_project "mine") = (demo_planned, Ok demo_report).
Proof.
  unfold demo_planned, demo_report. assert (is_ok (demo_plan (demo_project "mine")).2 = true) as H by by vm_compute.
  by destruct (demo_plan (demo_project "mine")) as [fs1 [rep|e]].
Qed.
Lemma plan_is_three_way_witness :
  tree demo_planned = tree (demo_project "mine") ∧ (status <$> actions demo_report) = [StUpdate; StConflict].
Proof.
  destruct (plan_is_three_way _ _ _ _ _ _ _ _ _ demo_plan_Ok) as [Ht _].
  split; [exact Ht | by vm_compute].
Defined.
Lemma safe_path_contained_witness :
  let r := safeProjectPath "pkg/./runtime/server.go" (demo_project "x") in
  is_ok r.2 = true ∧ Forall name_component (parts "pkg/./runtime/server.go").
Proof.
  cbv zeta. assert (is_ok (safeProjectPath "pkg/./runtime/server.go" (demo_project "x")).2 = true) as H by by vm_compute.
  destruct (safeProjectPath "pkg/./runtime/server.go" (demo_project "x")) as [fs' [[p i]|e]] eqn:E; [|done].
  destruct (safe_path_contained _ _ _ _ _ E) as (_ & Hn & _).
  apply safeProjectPath_Ok in E as (_ & -> & _). by split.
Defined.
