(* ===== verification/UpgradeLive.v ===== *)
(** * An upgrade that nothing stands in the way of

    Where no call of the file system fails, the upgrade command completes: the
    three writes it is made of, one after the other, and the tree that a whole
    run makes.  The definitions are those of Upgrade.v. *)

From S2P Require Import Prelude GoStrings Os ProjectFs Upgrade.

(** ** Where the upgrade writes

    A set of files, none of which is in the way of another, with names that no
    temporary file of the upgrade has. *)

Definition temp_prefix : string := ".fgoths-upgrade-".
Definition targets_ok (P : list path) : Prop :=
  no_conflict P ∧ ∀ p, p ∈ P → p ≠ [] ∧ Forall (λ c, has_prefix c temp_prefix = false) p.

(** The tree after a file has been put in its place. *)
Definition placed (p : path) (n : node) (t t' : gmap path node) : Prop :=
  ∀ q, t' !! q = if decide (q = p) then Some n else if decide (q ∈ prefixes (dirname p)) then Some Dir else t !! q.
(** Outside of [P] nothing changes, but for the directories that are made. *)
Definition made (P : list path) (t t' : gmap path node) : Prop :=
  ∀ q, q ∉ P → t' !! q = t !! q ∨ t !! q = None ∧ t' !! q = Some Dir.
Record ready (P : list path) (ns : list string) (t : gmap path node) : Prop := mkReady {
  ready_closed : tree_closed t;
  ready_way : ∀ p q, p ∈ P → q ∈ prefixes (dirname p) → free_or_dir t q;
  ready_file : ∀ p, p ∈ P → t !! p = None ∨ ∃ c m, t !! p = Some (File c m);
  ready_temp : ∀ p n, p ∈ P → n ∈ ns → t !! (dirname p ++ [temp_prefix +:+ n]) = None;
}.

#[export] Instance made_preorder P : PreOrder (made P).
Proof.
  split; [by left|]. intros t1 t2 t3 H12 H23 q Hq.
  destruct (H12 q Hq) as [E|[E1 E2]], (H23 q Hq) as [E'|[E1' E2']]; rewrite ?E, ?E' in *; auto.
Qed.

Lemma prefix_of_dirname (p q : path) : q ∈ prefixes (dirname p) → q `prefix_of` p ∧ q ≠ p ∧ q ≠ [].
Proof.
  destruct p as [|c p _] using rev_ind; [by intros ?%elem_of_nil|]. rewrite dirname_snoc.
  intros [Hq Hp]%elem_of_prefixes. split_and!; [by apply prefix_app_r| |done].
  intros ->. destruct Hp as [z Hz]. apply (f_equal length) in Hz. rewrite !length_app in Hz. cbn in Hz. lia.
Qed.
Lemma dirname_prefix_of (p q : path) : q `prefix_of` p → q ≠ p → q ≠ [] → q ∈ prefixes (dirname p).
Proof.
  destruct p as [|c p _] using rev_ind; [intros [z Hz] _ []; by destruct q|]. rewrite dirname_snoc.
  intros [z Hz] Hne Hq. apply elem_of_prefixes. split; [done|].
  destruct z as [|y z _] using rev_ind; [by rewrite app_nil_r in Hz|].
  rewrite (assoc_L (++)) in Hz. apply app_inj_tail in Hz as [-> _]. by eexists.
Qed.
Lemma dirname_last (p : path) : p ≠ [] → ∃ c, p = dirname p ++ [c].
Proof. destruct p as [|c p _] using rev_ind; [done|]. intros _. exists c. by rewrite dirname_snoc. Qed.
Section Targets.
Context (P : list path) (HP : targets_ok P).

Lemma not_on_the_way p p' : p ∈ P → p' ∈ P → p ∉ prefixes (dirname p').
Proof using HP.
  intros Hp Hp' (Hpre & Hne & _)%prefix_of_dirname. apply Hne. by apply HP.
Qed.
Lemma not_temp p p' n q : p ∈ P → p' ∈ P → q `prefix_of` p → q ≠ dirname p' ++ [temp_prefix +:+ n].
Proof using HP.
  intros Hp Hp' [z ->] ->. destruct HP as [_ H]. destruct (H _ Hp) as [_ Hf]. apply Forall_app in Hf as [Hf _].
  apply Forall_app in Hf as [_ Hf]. apply Forall_cons in Hf as [Hf _]. by rewrite has_prefix_app in Hf.
Qed.
Lemma placed_other p n t t' q : placed p n t t' → p ∈ P → q ∈ P → q ≠ p → t' !! q = t !! q.
Proof using HP.
  intros Ht Hp Hq Hne. rewrite Ht, decide_False by done. rewrite decide_False; [done|]. by apply not_on_the_way.
Qed.
Lemma placed_made p n t t' ns : placed p n t t' → p ∈ P → ready P ns t → made P t t'.
Proof using HP.
  intros Ht Hp Hr q Hq. rewrite Ht, decide_False by (by intros ->). case_decide as Hw; [|by left].
  destruct (ready_way _ _ _ Hr p q Hp Hw) as [E|E]; rewrite E; auto.
Qed.
Lemma placed_closed p n t t' : placed p n t t' → p ≠ [] → tree_closed t → (∀ c, t !! (p ++ [c]) = None) → tree_closed t'.
Proof using.
  intros Ht Hp Hc Hleaf q c Hq. rewrite !Ht. destruct (decide (q ++ [c] = p)) as [E|Hne].
  - intros _. rewrite decide_False; [|intros ->; by apply (f_equal length) in E; rewrite length_app in E; cbn in E; lia].
    rewrite decide_True; [done|]. rewrite <- E. rewrite dirname_snoc. by apply elem_of_prefixes.
  - destruct (decide (q ++ [c] ∈ prefixes (dirname p))) as [Hin|Hin].
    + intros _. apply prefix_of_dirname in Hin as (Hin & Hne' & _).
      assert (q `prefix_of` p) as Hqp by (etransitivity; [|exact Hin]; by eexists).
      assert (q ≠ p) as Hqn.
      { intros ->. destruct Hin as [z Hz]. apply (f_equal length) in Hz. rewrite !length_app in Hz. cbn in Hz. lia. }
      rewrite decide_False by done. rewrite decide_True; [done|]. by apply dirname_prefix_of.
    + intros Hs. destruct (decide (q = p)) as [->|Hqp]; [rewrite Hleaf in Hs; by destruct Hs|].
      case_decide; [done|]. by eapply Hc.
Qed.
Lemma file_leaf ns t p c : ready P ns t → p ∈ P → t !! (p ++ [c]) = None.
Proof using HP.
  intros Hr Hp. destruct (t !! (p ++ [c])) eqn:E; [|done]. destruct HP as [_ H].
  assert (t !! p = Some Dir) as Hd by (apply (ready_closed _ _ _ Hr p c); [by apply H|by eexists]).
  destruct (ready_file _ _ _ Hr p Hp) as [E'|(? & ? & E')]; congruence.
Qed.
Lemma placed_ready p c m t t' ns : placed p (File c m) t t' → p ∈ P → ready P ns t → ready P ns t'.
Proof using HP.
  intros Ht Hp Hr. destruct HP as [_ Hne]. split.
  - eapply placed_closed; [done|by apply Hne|by eapply ready_closed|intros; by eapply file_leaf].
  - intros p' q Hp' Hq. unfold free_or_dir. rewrite Ht. rewrite decide_False.
    2: { intros ->. by apply (not_on_the_way p p'). }
    case_decide; [by right|]. by eapply ready_way.
  - intros p' Hp'. destruct (decide (p' = p)) as [->|Hd]; [right; rewrite Ht, decide_True by done; eauto|].
    rewrite (placed_other p _ _ _ _ Ht) by done. by eapply ready_file.
  - intros p' n Hp' Hn. rewrite Ht. rewrite decide_False by (intros E; by apply (not_temp p p' n p)).
    rewrite decide_False; [by eapply ready_temp|]. intros (Hq & _)%prefix_of_dirname.
    by apply (not_temp p p' n (dirname p' ++ [temp_prefix +:+ n])).
Qed.
Lemma ready_names ns ns' t : (∀ n, n ∈ ns' → n ∈ ns) → ready P ns t → ready P ns' t.
Proof using. intros Hn [H1 H2 H3 H4]. split; auto. Qed.
End Targets.

(** ** The calls *)

Definition passable (t : gmap path node) (p : path) : Prop :=
  (∀ q, q ∈ prefixes (dirname p) → free_or_dir t q) ∧ t !! p ≠ Some Symlink.

Lemma set_tree_id fs : set_tree fs (tree fs) = fs.
Proof. by destruct fs. Qed.
Lemma lstat_quiet p fs : faults fs = [] → lstat p fs = (fs, Ok (tree fs !! p)).
Proof. intros Hf. unfold lstat, bind. rewrite next_fault_quiet by done. done. Qed.
Lemma safe_walk_quiet rest : ∀ current fs,
  faults fs = [] → tree_closed (tree fs) → rest ≠ [] → tree fs !! (current ++ rest) ≠ Some Symlink →
  (∀ k, 0 < k < length rest → free_or_dir (tree fs) (current ++ take k rest)) →
  safe_walk current rest fs = (fs, Ok (tree fs !! (current ++ rest))).
Proof.
  induction rest as [|part rest IH]; intros current fs Hf Hc Hne Hsym Hway; [done|]. cbn [safe_walk].
  rewrite (bind_run _ _ fs fs (tree fs !! (current ++ [part]))) by by apply wrap_run, lstat_quiet.
  destruct rest as [|c rest].
  { destruct (tree fs !! (current ++ [part])) as [n|] eqn:E; [|done]. by destruct n. }
  assert (free_or_dir (tree fs) (current ++ [part])) as Hp by (apply (Hway 1); cbn; lia).
  assert ((current ++ [part]) ++ c :: rest = current ++ part :: c :: rest) as Happ by by rewrite <- (assoc_L (++)).
  destruct Hp as [E|E]; rewrite E.
  - rewrite <- Happ. by rewrite (closed_absent _ (current ++ [part])); [|done|apply snoc_ne|done|eexists].
  - cbn [is_symlink is_dir negb]. rewrite IH; [by rewrite Happ|done|done|done|by rewrite Happ|].
    intros k Hk. rewrite <- (assoc_L (++)). apply (Hway (S k)). cbn in *. lia.
Qed.
Lemma safeProjectPath_quiet r fs :
  faults fs = [] → tree_closed (tree fs) → unsafe (Clean r) = false → passable (tree fs) (parts r) →
  safeProjectPath r fs = (fs, Ok (parts r, tree fs !! parts r)).
Proof.
  intros Hf Hc Hu [Hw Hs]. unfold safeProjectPath. rewrite Hu.
  pose proof (split_nonempty (Clean r) "/") as Hne. fold (parts r) in *.
  rewrite (bind_run _ _ fs fs (tree fs !! parts r)); [done|].
  rewrite (safe_walk_quiet (parts r) [] fs); try done. intros k Hk. apply Hw, dirname_prefix_of; cbn [app].
  - apply prefix_take.
  - intros E. apply (f_equal length) in E. rewrite length_take in E. lia.
  - intros E. apply (f_equal length) in E. rewrite length_take in E. cbn in E. lia.
Qed.

Lemma fileWrite_quiet p c fs :
  faults fs = [] → fileWrite p c fs = (put fs p (File c (file_mode (tree fs !! p))), Ok None).
Proof. intros Hf. unfold fileWrite, bind. by rewrite next_fault_quiet. Qed.
Lemma fileChmod_quiet p m fs :
  faults fs = [] → fileChmod p m fs = (put fs p (File (file_content (tree fs !! p)) m), Ok None).
Proof. intros Hf. unfold fileChmod, bind. by rewrite next_fault_quiet. Qed.
Lemma fileClose_quiet fs : faults fs = [] → fileClose fs = (fs, Ok None).
Proof. intros Hf. unfold fileClose, bind. by rewrite next_fault_quiet. Qed.
Lemma renameFile_quiet p q n fs :
  faults fs = [] → tree fs !! p = Some n → tree fs !! q ≠ Some Dir →
  renameFile p q fs = (set_tree fs (<[q := n]> (delete p (tree fs))), Ok tt).
Proof.
  intros Hf Hn Hd. unfold renameFile, bind. rewrite next_fault_quiet by done. cbn [io_error]. rewrite Hn.
  by destruct (tree fs !! q) as [[]|].
Qed.
Lemma removeFile_quiet p fs : faults fs = [] → removeFile p fs = (set_tree fs (delete p (tree fs)), Ok tt).
Proof. intros Hf. unfold removeFile, bind. by rewrite next_fault_quiet. Qed.
Lemma attempt_run {A : Type} (m : M A) fs fs1 r : m fs = (fs1, r) → attempt m fs = (fs1, Ok r).
Proof. unfold attempt. by intros ->. Qed.

(** What holds of the path of a name the upgrade writes to. *)
Definition target (P : list path) (r : string) : Prop := parts r ∈ P ∧ unsafe (Clean r) = false.
Lemma ready_passable P ns t p : ready P ns t → p ∈ P → passable t p.
Proof.
  intros Hr Hp. split; [intros q; by apply (ready_way _ _ _ Hr)|].
  destruct (ready_file _ _ _ Hr p Hp) as [E|(? & ? & E)]; by rewrite E.
Qed.

Section Calls.
Context (P : list path) (HP : targets_ok P).

Lemma safe_quiet r ns fs :
  faults fs = [] → ready P ns (tree fs) → target P r → safeProjectPath r fs = (fs, Ok (parts r, tree fs !! parts r)).
Proof using.
  intros Hf Hr [Hp Hu]. apply safeProjectPath_quiet; [done|by eapply ready_closed|done|by eapply ready_passable].
Qed.
Lemma ready_after_dirs ns t t' p : ready P ns t → p ∈ P → with_dirs (prefixes (dirname p)) t t' → ready P ns t'.
Proof using HP.
  intros Hr Hp Hw. pose proof (not_on_the_way P HP) as Hno. split.
  - intros q c Hq. rewrite !Hw. destruct (decide (q ++ [c] ∈ prefixes (dirname p))) as [Hin|Hin].
    + intros _. rewrite decide_True; [done|]. apply elem_of_prefixes in Hin as [_ Hin]. apply elem_of_prefixes. split; [done|].
      etransitivity; [|exact Hin]. by eexists.
    + intros Hs. case_decide; [done|]. by eapply (ready_closed _ _ _ Hr).
  - intros p' q Hp' Hq. unfold free_or_dir. rewrite Hw. case_decide; [by right|]. by eapply ready_way.
  - intros p' Hp'. rewrite Hw, decide_False by by apply Hno. by eapply ready_file.
  - intros p' n Hp' Hn. rewrite Hw, decide_False; [by eapply ready_temp|].
    intros (Hq & _)%prefix_of_dirname. by apply (not_temp P HP p p' n (dirname p' ++ [temp_prefix +:+ n])).
Qed.
Lemma parent_made t t' p : with_dirs (prefixes (dirname p)) t t' → parent_dir t' (dirname p) = true.
Proof using.
  intros Hw. unfold parent_dir. destruct (dirname p) as [|c d] eqn:E; [done|]. rewrite Hw, decide_True; [done|].
  by apply elem_of_prefixes.
Qed.
Lemma placed_dirs t t' p n : with_dirs (prefixes (dirname p)) t t' → placed p n t (<[p := n]> t').
Proof using. intros Hw q. case_decide as E; [subst; apply lookup_insert_eq|]. rewrite lookup_insert_ne by done. apply Hw. Qed.

Lemma writeNewProjectFile_quiet r c m ns fs :
  faults fs = [] → ready P ns (tree fs) → target P r → tree fs !! parts r = None →
  ∃ t', writeNewProjectFile r c m fs = (set_tree fs t', Ok tt)
    ∧ placed (parts r) (File c (Z.ldiff (Z.land m 511) (umask fs))) (tree fs) t'.
Proof using HP.
  intros Hf Hr Ht Hn. unfold writeNewProjectFile. rewrite (bind_run _ _ _ _ _ (safe_quiet r ns fs Hf Hr Ht)). cbn [fst snd]. rewrite Hn.
  destruct (mkdirAll_quiet (dirname (parts r)) fs Hf) as (t1 & E1 & H1).
  { intros q. apply (ready_way _ _ _ Hr). by destruct Ht. }
  rewrite (bind_run _ _ _ _ _ E1). pose proof (ready_after_dirs ns _ _ _ Hr (proj1 Ht) H1) as Hr1.
  rewrite (bind_run _ _ _ _ _ (safe_quiet r ns (set_tree fs t1) Hf Hr1 Ht)).
  assert (t1 !! parts r = None) as Hn1 by by rewrite H1, decide_False by (by apply (not_on_the_way P HP); destruct Ht).
  exists (<[parts r := File c (Z.ldiff (Z.land m 511) (umask fs))]> t1). split; [|by apply placed_dirs].
  set (m' := Z.ldiff (Z.land m 511) (umask fs)).
  rewrite (bind_run _ _ _ (put (set_tree fs t1) (parts r) (File "" m')) tt).
  2: { unfold openNew, bind. rewrite next_fault_quiet by done. cbn [io_error set_tree tree]. by rewrite Hn1, (parent_made _ _ _ H1). }
  rewrite (bind_run _ _ _ _ _ (fileWrite_quiet _ _ (put (set_tree fs t1) (parts r) (File "" m')) Hf)).
  erewrite bind_run by (apply fileClose_quiet; exact Hf). unfold put, set_tree. cbn. by rewrite lookup_insert_eq, insert_insert_eq.
Qed.
Lemma writeProjectFile_quiet r c m n ns fs :
  faults fs = [] → names fs = n :: ns → ready P (n :: ns) (tree fs) → target P r →
  ∃ t', writeProjectFile r c m fs = (mkProject t' [] ns (umask fs), Ok tt)
    ∧ placed (parts r) (File c (Z.land m 511)) (tree fs) t'.
Proof using HP.
  intros Hf Hns Hr Ht. unfold writeProjectFile. rewrite (bind_run _ _ _ _ _ (safe_quiet r _ fs Hf Hr Ht)). cbn [fst snd].
  destruct (mkdirAll_quiet (dirname (parts r)) fs Hf) as (t1 & E1 & H1).
  { intros q. apply (ready_way _ _ _ Hr). by destruct Ht. }
  rewrite (bind_run _ _ _ _ _ E1). pose proof (ready_after_dirs _ _ _ _ Hr (proj1 Ht) H1) as Hr1.
  rewrite (bind_run _ _ _ _ _ (safe_quiet r _ (set_tree fs t1) Hf Hr1 Ht)).
  set (temp := dirname (parts r) ++ [temp_prefix +:+ n]).
  assert (t1 !! temp = None) as Htemp by (eapply ready_temp; [exact Hr1|by destruct Ht|by left]).
  assert (parts r ≠ temp) as Hne by (apply (not_temp P HP (parts r) (parts r)); [by destruct Ht..|done]).
  assert (∃ nd, t1 !! parts r = nd ∧ nd ≠ Some Dir) as (nd & Hnd & Hdir).
  { eexists. split; [done|]. destruct (ready_file _ _ _ Hr1 (parts r)) as [E|(? & ? & E)]; [by destruct Ht|by rewrite E..]. }
  exists (<[parts r := File c (Z.land m 511)]> t1). split; [|by apply placed_dirs].
  set (at_ t := mkProject t [] ns (umask fs)).
  rewrite (bind_run _ _ _ (at_ (<[temp := File "" (Z.ldiff 384 (umask fs))]> t1)) temp).
  2: { unfold createTemp, bind. rewrite next_fault_quiet by done. cbn [io_error set_tree tree names faults umask].
       rewrite (parent_made _ _ _ H1). cbn [negb]. rewrite Hns. cbn [first_free]. fold temp_prefix temp. by rewrite Htemp, Hf. }
  erewrite bind_run by by apply fileWrite_quiet. erewrite bind_run by by apply fileChmod_quiet.
  erewrite bind_run by by apply fileClose_quiet. unfold put, set_tree, at_. cbn [join_errors omap list_omap id tree faults names umask].
  rewrite !lookup_insert_eq, !insert_insert_eq. cbn [file_content].
  erewrite bind_run; [|apply attempt_run, (renameFile_quiet _ _ (File c (Z.land m 511))); cbn;
    [done|apply lookup_insert_eq|by rewrite lookup_insert_ne, Hnd]].
  erewrite bind_run by by apply removeFile_quiet. unfold set_tree. cbn.
  rewrite delete_insert_id by done. rewrite delete_id; [done|]. by rewrite lookup_insert_ne.
Qed.
End Calls.

(** ** The files of an upgrade *)

Definition backup_of (stamp s : string) : path := backup_dir stamp ++ parts s.
Definition touched (stamp : string) : list path := (parts <$> managed) ++ (backup_of stamp <$> managed).
(** A file is replaced after its content has been saved. *)
Definition replaced (stamp s c : string) (m : Z) (c' : string) (m' : Z) (t t' : gmap path node) : Prop :=
  ∀ q, q ∈ touched stamp →
    t' !! q = if decide (q = parts s) then Some (File c' m') else if decide (q = backup_of stamp s) then Some (File c m) else t !! q.
(** No call is going to fail, and [k] names of temporary files are left. *)
Record calm (stamp : string) (k : nat) (fs : project) : Prop := mkCalm {
  calm_faults : faults fs = [];
  calm_names : k ≤ length (names fs);
  calm_ready : ready (touched stamp) (names fs) (tree fs);
}.

Lemma unsafe_names l : Forall name_component l → l ≠ [] → unsafe (join l "/") = false.
Proof.
  intros Hl Hne. assert (split (join l "/") "/" = l) as Hs.
  { apply split_join; [done|]. intros x Hx. rewrite Forall_forall in Hl. by apply Hl. }
  unfold unsafe. rewrite join_not_abs by done. cbn [orb].
  assert (∀ s, split s "/" = l → String.eqb s "." = false ∧ String.eqb s ".." = false ∧ has_prefix s "../" = false) as H.
  { intros s Es. split_and!.
    - apply String.eqb_neq. intros ->. rewrite <- Es in Hl. by apply Forall_cons in Hl as [(_ & [] & _) _].
    - apply String.eqb_neq. intros ->. rewrite <- Es in Hl. by apply Forall_cons in Hl as [(_ & _ & [] & _) _].
    - apply not_true_is_false. intros [r ->]%has_prefix_spec. rewrite <- Es in Hl.
      change ("../" +:+ r) with (".." +:+ String "/" r) in Hl. rewrite split_app in Hl.
      by apply Forall_cons in Hl as [(_ & _ & [] & _) _]. }
  by destruct (H _ Hs) as (-> & -> & ->).
Qed.
Lemma managed_ne s : s ∈ managed → parts s ≠ [].
Proof. intros Hs E. destruct (managed_parts s Hs) as (_ & _ & H). rewrite E in H. cbn in H. lia. Qed.
Definition managed_paths_ok : bool :=
  forallb (λ s, forallb (λ c, negb (has_prefix c temp_prefix)) (parts s)
    && forallb (λ s', negb (bool_decide (parts s `prefix_of` parts s')) || bool_decide (parts s = parts s')) managed
    && negb (bool_decide ([".fgoths"; "upgrade-backups"] `prefix_of` parts s))) managed.
Lemma managed_apart s s' : s ∈ managed → s' ∈ managed →
  Forall (λ c, has_prefix c temp_prefix = false) (parts s)
  ∧ (parts s `prefix_of` parts s' → parts s = parts s') ∧ ¬ [".fgoths"; "upgrade-backups"] `prefix_of` parts s.
Proof.
  assert (managed_paths_ok = true) as H by (vm_compute; reflexivity). unfold managed_paths_ok in H.
  rewrite forallb_forall in H. intros Hs%list_elem_of_In Hs'%list_elem_of_In. specialize (H _ Hs).
  rewrite !andb_true_iff, !forallb_forall in H. destruct H as [[H1 H2] H3]. split_and!.
  - apply Forall_forall. intros c Hc%list_elem_of_In%H1. by apply negb_true_iff in Hc.
  - intros Hp. apply H2, orb_true_iff in Hs' as [Hs'|Hs']; [|by apply bool_decide_eq_true in Hs'].
    by apply negb_true_iff, bool_decide_eq_false in Hs'.
  - by apply negb_true_iff, bool_decide_eq_false in H3.
Qed.

Section Run.
Context (stamp : string) (Hstamp : mem_byte "/" stamp = false).
Local Abbreviation P := (touched stamp).
Local Abbreviation br := (backup_root stamp latestRuntimeUpgradeVersion).

Lemma elem_of_touched q : q ∈ P ↔ ∃ s, s ∈ managed ∧ (q = parts s ∨ q = backup_of stamp s).
Proof using. unfold touched. rewrite elem_of_app, !list_elem_of_fmap. naive_solver. Qed.
Lemma touched_parts s : s ∈ managed → parts s ∈ P.
Proof using. rewrite elem_of_touched. eauto. Qed.
Lemma touched_backup s : s ∈ managed → backup_of stamp s ∈ P.
Proof using. rewrite elem_of_touched. eauto. Qed.
Lemma backup_not_parts s s' : s ∈ managed → s' ∈ managed → ¬ parts s `prefix_of` backup_of stamp s' ∧ ¬ backup_of stamp s `prefix_of` parts s'.
Proof using.
  intros Hs Hs'. split.
  - intros Hp. destruct (managed_apart s s' Hs Hs') as (_ & _ & Hn). apply managed_parts in Hs as (_ & _ & Hl).
    unfold backup_of, backup_dir in Hp. destruct (parts s) as [|a [|b l]]; cbn in Hl; [lia|lia|]. apply Hn.
    destruct Hp as [z Hz]. injection Hz as <- <- _. by exists l.
  - intros [z Hz]. apply managed_parts in Hs' as (_ & _ & Hl). apply managed_parts in Hs as (_ & _ & Hl').
    apply (f_equal length) in Hz. unfold backup_of in Hz. rewrite !length_app in Hz. cbn in Hz. lia.
Qed.
Lemma touched_ok : targets_ok P.
Proof using Hstamp.
  split.
  - intros a b (s & Hs & Ha)%elem_of_touched (s' & Hs' & Hb)%elem_of_touched Hp.
    destruct Ha as [-> | ->], Hb as [-> | ->]; [by apply managed_apart|by apply backup_not_parts in Hp..|].
    unfold backup_of in *. apply prefix_app_inv in Hp. f_equal. by apply managed_apart.
  - intros p (s & Hs & Hp)%elem_of_touched. destruct (managed_apart s s Hs Hs) as [Hf _].
    destruct Hp as [-> | ->]; [split; [by apply managed_ne|done]|]. split; [done|]. unfold backup_of. apply Forall_app. split; [|done].
    unfold backup_dir. repeat constructor.
Qed.
#[local] Hint Resolve touched_ok touched_parts touched_backup : core.
Lemma target_managed s : s ∈ managed → target P s.
Proof using.
  intros Hs. split; [auto|]. destruct (managed_parts s Hs) as (Hn & Hj & _). rewrite Hj, Clean_join by by try apply managed_ne.
  apply unsafe_names; [done|by apply managed_ne].
Qed.
Lemma target_backup s : s ∈ managed → target P (filepath_Join [br; s]) ∧ parts (filepath_Join [br; s]) = backup_of stamp s.
Proof using Hstamp.
  intros Hs. assert (parts (filepath_Join [br; s]) = backup_of stamp s) as Hp by by apply backup_parts. split; [|done].
  split; [rewrite Hp; auto|]. assert (Clean (filepath_Join [br; s]) = join (backup_of stamp s) "/") as ->.
  { rewrite <- Hp. unfold parts. symmetry. apply join_split. }
  apply unsafe_names; [|done]. apply Forall_app. split; [by apply backup_dir_names|by apply managed_parts].
Qed.

Lemma backed_up_quiet s c pm c' m' k fs f g :
  calm stamp (S k) fs → s ∈ managed → tree fs !! backup_of stamp s = None → Z.land m' 511 = m' →
  ∃ fs', (do* wrap f (writeNewProjectFile (filepath_Join [br; s]) c pm) in wrap g (writeProjectFile s c' m')) fs = (fs', Ok tt)
    ∧ calm stamp k fs' ∧ umask fs' = umask fs ∧ made P (tree fs) (tree fs')
    ∧ ∃ m, replaced stamp s c m c' m' (tree fs) (tree fs').
Proof using Hstamp.
  intros [Hf Hk Hr] Hs Hb Hm. destruct (target_backup s Hs) as [Ht Hp].
  destruct (writeNewProjectFile_quiet P touched_ok _ c pm _ fs Hf Hr Ht) as (t1 & E1 & H1); [by rewrite Hp|].
  rewrite Hp in H1. set (bm := Z.ldiff _ _) in H1.
  rewrite (bind_run _ _ fs (set_tree fs t1) tt) by by apply wrap_run.
  pose proof (placed_ready P touched_ok _ _ _ _ _ _ H1 (touched_backup s Hs) Hr) as Hr1.
  destruct (names fs) as [|n ns] eqn:En; [cbn in Hk; lia|].
  destruct (writeProjectFile_quiet P touched_ok s c' m' n ns (set_tree fs t1)) as (t2 & E2 & H2);
    [done|done|done|by apply target_managed|].
  rewrite Hm in H2. eexists. split; [by apply wrap_run|]. cbn [tree names faults umask set_tree] in *.
  pose proof (placed_ready P touched_ok _ _ _ _ _ _ H2 (touched_parts s Hs) Hr1) as Hr2. split_and!.
  - split; cbn; [done|cbn in Hk; lia|]. eapply ready_names; [|exact Hr2]. intros x Hx. by right.
  - done.
  - etransitivity; [exact (placed_made P touched_ok _ _ _ _ _ H1 (touched_backup s Hs) Hr)|
      exact (placed_made P touched_ok _ _ _ _ _ H2 (touched_parts s Hs) Hr1)].
  - exists bm. intros q Hq. destruct (decide (q = parts s)) as [->|Hne]; [by rewrite H2, decide_True|].
    rewrite (placed_other P touched_ok _ _ _ _ q H2) by auto.
    destruct (decide (q = backup_of stamp s)) as [->|Hne']; [by rewrite H1, decide_True|].
    by rewrite (placed_other P touched_ok _ _ _ _ q H1) by auto.
Qed.

(** What is there of a managed file. *)
Lemma managed_file k fs s : calm stamp k fs → s ∈ managed → tree fs !! parts s = None ∨ ∃ c m, tree fs !! parts s = Some (File c m).
Proof using. intros Hc Hs. apply (ready_file _ _ _ (calm_ready _ _ _ Hc)). auto. Qed.
Lemma check_quiet k fs s : calm stamp k fs → s ∈ managed → safeProjectPath s fs = (fs, Ok (parts s, tree fs !! parts s)).
Proof using. intros Hc Hs. by apply (safe_quiet P s (names fs)); [apply Hc|apply Hc|apply target_managed]. Qed.
Lemma calm_weaken k k' fs : k' ≤ k → calm stamp k fs → calm stamp k' fs.
Proof using. intros Hk [H1 H2 H3]. split; [done|lia|done]. Qed.
Lemma perm_land m : Z.land (Z.land m 511) 511 = Z.land m 511.
Proof using. by rewrite <- Z.land_assoc. Qed.

Lemma apply_update_quiet a m k fs :
  calm stamp (S k) fs → ac_path a ∈ managed → tree fs !! parts (ac_path a) = Some (File (original a) m) →
  tree fs !! backup_of stamp (ac_path a) = None → Z.land (mode a) 511 = mode a →
  ∃ fs', apply_update br a fs = (fs', Ok tt) ∧ calm stamp k fs' ∧ umask fs' = umask fs ∧ made P (tree fs) (tree fs')
    ∧ ∃ m, replaced stamp (ac_path a) (original a) m (content a) (mode a) (tree fs) (tree fs').
Proof using Hstamp.
  intros Hc Hs Hn Hb Hm. unfold apply_update. rewrite (bind_run _ _ _ _ _ (check_quiet _ _ _ Hc Hs)). cbn [fst snd]. rewrite Hn.
  cbn [is_regular negb]. rewrite (bind_run _ _ fs fs (original a)).
  2: { apply wrap_run, readFile_quiet; [apply Hc|by rewrite Hn]. }
  rewrite String.eqb_refl. cbn [negb]. by apply backed_up_quiet.
Qed.
Lemma replaced_other s c m c' m' t t' s' :
  replaced stamp s c m c' m' t t' → s ∈ managed → s' ∈ managed → s' ≠ s →
  t' !! parts s' = t !! parts s' ∧ t' !! backup_of stamp s' = t !! backup_of stamp s'.
Proof using.
  intros Hr Hs Hs' Hne. assert (parts s' ≠ parts s) as Hp by (intros E; by apply parts_inj in E).
  destruct (backup_not_parts s' s Hs' Hs) as [N1 N2]. split; rewrite Hr by auto.
  - rewrite decide_False by done. rewrite decide_False; [done|]. intros E. apply N1. by rewrite E.
  - rewrite decide_False; [|intros E; apply (proj1 (backup_not_parts s s' Hs Hs')); by rewrite E].
    rewrite decide_False; [done|]. intros E. by apply app_inv_head in E.
Qed.

(** An action that can be carried out. *)
Definition fit (t : gmap path node) (a : upgradeFileAction) : Prop :=
  ac_path a ∈ managed ∧ conflicting a = false ∧ Z.land (mode a) 511 = mode a ∧ t !! backup_of stamp (ac_path a) = None
  ∧ ∃ m, t !! parts (ac_path a) = Some (File (original a) m).
Definition outcome (t : gmap path node) (a : upgradeFileAction) : option node :=
  if written a then Some (File (content a) (mode a)) else t !! parts (ac_path a).
Definition same_at (t t' : gmap path node) (s : string) : Prop :=
  t' !! parts s = t !! parts s ∧ t' !! backup_of stamp s = t !! backup_of stamp s.
Lemma placed_same s n t t' s' :
  placed (parts s) n t t' → s ∈ managed → s' ∈ managed → s' ≠ s → same_at t t' s'.
Proof using Hstamp.
  intros Ht Hs Hs' Hne. split; apply (placed_other P touched_ok _ _ _ _ _ Ht (touched_parts s Hs)).
  - by apply touched_parts.
  - intros E. by apply parts_inj in E.
  - by apply touched_backup.
  - intros E. apply (proj1 (backup_not_parts s s' Hs Hs')). by rewrite E.
Qed.

Lemma apply_action_quiet a k fs : calm stamp (S k) fs → fit (tree fs) a →
  ∃ fs', apply_action br a fs = (fs', Ok 0%Z) ∧ calm stamp k fs' ∧ umask fs' = umask fs ∧ made P (tree fs) (tree fs')
    ∧ tree fs' !! parts (ac_path a) = outcome (tree fs) a
    ∧ ∀ s, s ∈ managed → s ≠ ac_path a → same_at (tree fs) (tree fs') s.
Proof using Hstamp.
  intros Hc (Hs & Hcf & Hm & Hb & m & Hn). unfold apply_action, outcome, written.
  assert (∃ fs', (do* apply_update br a in ret 0%Z) fs = (fs', Ok 0%Z) ∧ calm stamp k fs' ∧ umask fs' = umask fs
    ∧ made P (tree fs) (tree fs') ∧ tree fs' !! parts (ac_path a) = Some (File (content a) (mode a))
    ∧ ∀ s, s ∈ managed → s ≠ ac_path a → same_at (tree fs) (tree fs') s) as Hw.
  { destruct (apply_update_quiet a m k fs) as (fs' & E & Hc' & Hu & Hmade & m' & Hr); try done.
    exists fs'. split; [by rewrite (bind_run _ _ _ _ _ E)|]. split_and!; try done.
    - by rewrite Hr, decide_True by auto.
    - intros s Hs' Hne. by eapply replaced_other. }
  assert (calm stamp k fs) as Hc' by (eapply calm_weaken; [|exact Hc]; lia).
  unfold conflicting in Hcf. destruct (status a) eqn:Est; try done; try exact Hw; exists fs; by split_and!.
Qed.
Lemma apply_actions_quiet acts : ∀ c k fs,
  calm stamp (length acts + k) fs → Forall (fit (tree fs)) acts → NoDup (ac_path <$> acts) →
  ∃ fs', apply_actions br acts c fs = (fs', Ok c) ∧ calm stamp k fs' ∧ umask fs' = umask fs ∧ made P (tree fs) (tree fs')
    ∧ (∀ a, a ∈ acts → tree fs' !! parts (ac_path a) = outcome (tree fs) a)
    ∧ ∀ s, s ∈ managed → s ∉ ac_path <$> acts → same_at (tree fs) (tree fs') s.
Proof using Hstamp.
  induction acts as [|a acts IH]; intros c k fs Hc Hfit Hnd.
  { exists fs. split_and!; [done..| |done]. by intros a ?%elem_of_nil. }
  apply Forall_cons in Hfit as [Ha Hfit]. apply NoDup_cons in Hnd as [Hna Hnd]. cbn [apply_actions].
  destruct (apply_action_quiet a (length acts + k) fs Hc Ha) as (fs1 & E1 & Hc1 & Hu1 & Hm1 & Ho1 & Hs1).
  assert (∀ a', a' ∈ acts → ac_path a' ∈ managed ∧ ac_path a' ≠ ac_path a) as Hother.
  { intros a' Ha'. rewrite Forall_forall in Hfit. split; [by apply Hfit|]. intros E. apply Hna. rewrite <- E. by apply list_elem_of_fmap_2. }
  rewrite (bind_run _ _ _ _ _ E1), Z.add_0_r. destruct (IH c k fs1 Hc1) as (fs2 & E2 & Hc2 & Hu2 & Hm2 & Ho2 & Hs2); [|done|].
  { rewrite Forall_forall in Hfit |- *. intros a' Ha'. destruct (Hfit a' Ha') as (H1 & H2 & H3 & H4 & H5).
    destruct (Hother a' Ha') as [_ Hne]. destruct (Hs1 _ H1 Hne) as [Hp Hb]. unfold fit. rewrite Hp, Hb. by split_and!. }
  exists fs2. split_and!; [done|done|congruence|by etransitivity| |].
  - intros a' [->|Ha']%elem_of_cons.
    + rewrite (proj1 (Hs2 (ac_path a) (proj1 Ha) Hna)). exact Ho1.
    + rewrite Ho2 by done. unfold outcome. destruct (Hother a' Ha') as [Hm Hne]. by rewrite (proj1 (Hs1 _ Hm Hne)).
  - intros s Hs Hns. cbn in Hns. rewrite elem_of_cons in Hns. destruct (Hs1 s Hs ltac:(tauto)) as [H1 H2].
    destruct (Hs2 s Hs ltac:(tauto)) as [H3 H4]. split; congruence.
Qed.

(** The ignore file. *)
Definition ignore_state (t : gmap path node) : string * Z :=
  match t !! parts ignore_path with Some (File c m) => (c, Z.land m 511) | _ => ("", 420%Z) end.
Lemma plan_ignore_quiet k fs : calm stamp k fs →
  planUpgradeArtifactIgnore fs = (fs, Ok (ignore_action (ignore_state (tree fs)).1 (ignore_state (tree fs)).2)).
Proof using.
  intros Hc. unfold planUpgradeArtifactIgnore, ignore_state.
  rewrite (bind_run _ _ _ _ _ (check_quiet _ _ _ Hc ignore_managed)). cbn [fst snd].
  destruct (managed_file k fs ignore_path Hc ignore_managed) as [E|(c & m & E)]; rewrite E; [done|]. cbn [is_regular negb].
  rewrite (bind_run _ _ fs fs c); [done|]. apply wrap_run, readFile_quiet; [apply Hc|by rewrite E].
Qed.
Lemma apply_ignore_quiet a k fs :
  calm stamp (S k) fs → tree fs !! backup_of stamp ignore_path = None →
  ignore_action (ignore_state (tree fs)).1 (ignore_state (tree fs)).2 = Some a →
  ∃ fs', applyUpgradeArtifactIgnore br a fs = (fs', Ok tt) ∧ calm stamp k fs' ∧ umask fs' = umask fs ∧ made P (tree fs) (tree fs')
    ∧ ∀ s, s ∈ managed → s ≠ ignore_path → same_at (tree fs) (tree fs') s.
Proof using Hstamp.
  intros Hc Hb Ha. assert (ac_path a = ignore_path ∧ original a = (ignore_state (tree fs)).1 ∧ mode a = (ignore_state (tree fs)).2)
    as (Hp & Ho & Hm).
  { unfold ignore_action in Ha. destruct (String.eqb _ _); [done|]. by injection Ha as <-. }
  unfold applyUpgradeArtifactIgnore. rewrite Hp, Ho, (bind_run _ _ _ _ _ (check_quiet _ _ _ Hc ignore_managed)). cbn [fst snd].
  unfold ignore_state in *. destruct (managed_file _ fs ignore_path Hc ignore_managed) as [E|(c & m & E)]; rewrite E in *; cbn [fst snd is_regular negb] in *.
  - cbn [String.eqb negb].
    destruct (writeNewProjectFile_quiet P touched_ok ignore_path (content a) (mode a) (names fs) fs) as (t' & E' & Ht);
      [apply Hc|apply Hc|apply target_managed, ignore_managed|done|].
    pose proof (touched_parts _ ignore_managed) as HP. exists (set_tree fs t'). split; [by apply wrap_run|]. split_and!.
    + destruct Hc as [H1 H2 H3]. split; [done|cbn; lia|]. exact (placed_ready P touched_ok _ _ _ _ _ _ Ht HP H3).
    + done.
    + exact (placed_made P touched_ok _ _ _ _ _ Ht HP (calm_ready _ _ _ Hc)).
    + intros s Hs Hne. by eapply placed_same; [exact Ht|apply ignore_managed|..].
  - rewrite (bind_run _ _ fs fs c).
    2: { apply wrap_run, readFile_quiet; [apply Hc|by rewrite E]. }
    rewrite String.eqb_refl. cbn [negb].
    destruct (backed_up_quiet ignore_path c (Z.land m 511) (content a) (mode a) k fs
      (λ e, "back up " +:+ ignore_path +:+ ": " +:+ e)
      (λ e, "write " +:+ ignore_path +:+ " (backup at " +:+ filepath_Join [br; ignore_path] +:+ "): " +:+ e))
      as (fs' & E' & Hc' & Hu & Hmd & m' & Hr); [done|apply ignore_managed|done|rewrite Hm; apply perm_land|].
    exists fs'. split_and!; [exact E'|done..|]. intros s Hs Hne. by eapply replaced_other; [|apply ignore_managed|..].
Qed.

Lemma runtime_hashes_quiet sha sources k fs paths : ∀ hashes,
  calm stamp k fs → (∀ r, r ∈ paths → r ∈ managed) → ∃ h, runtime_hashes sha sources paths hashes fs = (fs, Ok h).
Proof using.
  induction paths as [|r paths IH]; intros hashes Hc Hin; cbn [runtime_hashes]; [by eexists|].
  rewrite (bind_run _ _ _ _ _ (check_quiet _ _ _ Hc (Hin r ltac:(left)))). cbn [fst snd].
  assert (∀ r', r' ∈ paths → r' ∈ managed) as Hin' by (intros; apply Hin; by right).
  destruct (tree fs !! parts r); by apply IH.
Qed.

(** The metadata of the project, before the upgrade. *)
Definition manifest_at (json_unmarshal : string → result upgradeManifest) (t : gmap path node) : result upgradeManifest :=
  match t !! parts metadata_path with Some (File data _) => json_unmarshal data | _ => Ok empty_manifest end.
Lemma read_manifest_quiet json_unmarshal k fs m : calm stamp k fs → manifest_at json_unmarshal (tree fs) = Ok m →
  read_manifest json_unmarshal fs = (fs, Ok m).
Proof using.
  intros Hc Hm. unfold read_manifest, manifest_at in *. rewrite (bind_run _ _ _ _ _ (check_quiet _ _ _ Hc metadata_managed)). cbn [fst snd].
  destruct (managed_file k fs metadata_path Hc metadata_managed) as [E|(c & mo & E)]; rewrite E in *; [by injection Hm as <-|].
  rewrite (bind_run _ _ fs fs c); [by apply wrap_run; unfold of_result; rewrite Hm|].
  apply wrap_run, readFile_quiet; [apply Hc|by rewrite E].
Qed.
Lemma write_metadata_quiet sources targets json_unmarshal json_marshal sha updatedAt to_ m k fs :
  calm stamp (S k) fs → manifest_at json_unmarshal (tree fs) = Ok m → sources = Ok targets → (∀ m, is_ok (json_marshal m) = true) →
  tree fs !! backup_of stamp metadata_path = None →
  ∃ fs', write_metadata sources json_unmarshal json_marshal sha updatedAt br to_ fs = (fs', Ok tt)
    ∧ calm stamp k fs' ∧ made P (tree fs) (tree fs') ∧ ∀ s, s ∈ managed → s ≠ metadata_path → same_at (tree fs) (tree fs') s.
Proof using Hstamp.
  intros Hc Hm -> Hmarshal Hb. unfold write_metadata. rewrite (bind_run _ _ _ _ _ (check_quiet _ _ _ Hc metadata_managed)). cbn [fst snd].
  set (data := match tree fs !! parts metadata_path with Some (File d _) => d | _ => "" end).
  rewrite (bind_run _ _ fs fs (m, data)).
  2: { unfold manifest_at in Hm. unfold data. destruct (managed_file _ fs metadata_path Hc metadata_managed) as [E|(c & mo & E)]; rewrite E in *.
       - by injection Hm as <-.
       - rewrite (bind_run _ _ fs fs c) by (apply wrap_run, readFile_quiet; [apply Hc|by rewrite E]).
         rewrite (bind_run _ _ fs fs m); [done|]. apply wrap_run. unfold of_result. by rewrite Hm. }
  rewrite (bind_run _ _ fs fs targets) by by apply wrap_run. cbn [fst snd].
  destruct (runtime_hashes_quiet sha targets _ fs runtimeUpgradePaths (um_RuntimeFiles m) Hc) as [h Eh]; [apply runtime_managed|].
  rewrite (bind_run _ _ _ _ _ Eh). set (m' := mkManifest _ _ _ _ _ _ h). pose proof (Hmarshal m') as Hok.
  destruct (json_marshal m') as [enc|] eqn:Ee; [|done].
  rewrite (bind_run _ _ fs fs enc) by (apply wrap_run; by rewrite <- Ee).
  destruct (managed_file _ fs metadata_path Hc metadata_managed) as [E|(c & mo & E)]; rewrite E.
  - destruct Hc as [Hf Hk Hr]. destruct (names fs) as [|n ns] eqn:En; [cbn in Hk; lia|].
    rewrite (bind_run _ _ fs fs tt) by done.
    destruct (writeProjectFile_quiet P touched_ok metadata_path (enc +:+ lf) 420 n ns fs Hf En Hr) as (t' & E' & Ht);
      [apply target_managed, metadata_managed|].
    pose proof (touched_parts _ metadata_managed) as HP. eexists. split; [by apply wrap_run|]. cbn [tree]. split_and!.
    + split; cbn; [done|cbn in Hk; lia|]. eapply ready_names; [|exact (placed_ready P touched_ok _ _ _ _ _ _ Ht HP Hr)].
      intros x Hx. by right.
    + exact (placed_made P touched_ok _ _ _ _ _ Ht HP Hr).
    + intros s Hs Hne. by eapply placed_same; [exact Ht|apply metadata_managed|..].
  - rewrite (metadata_backup_path br).
    destruct (backed_up_quiet metadata_path data (perm (File c mo)) (enc +:+ lf) 420 k fs
      (λ e, "back up existing upgrade metadata: " +:+ e) (λ e, "write upgrade metadata: " +:+ e))
      as (fs' & E' & Hc' & Hu & Hmd & m2 & Hr); [done|apply metadata_managed|done|done|].
    exists fs'. split_and!; [exact E'|done..|]. intros s Hs Hne. by eapply replaced_other; [|apply metadata_managed|..].
Qed.

(** ** The plan *)

Context (merge : string → string → string → merge_result).

(** Nothing to ask the user about a file: it is up to date, unedited, or git can merge it. *)
Definition mergeable (base target_ current : string) : Prop :=
  current = target_ ∨ current = base ∨ ∃ merged, merge current base target_ = Merged merged.
Definition upgraded (base target_ current : string) : string :=
  if String.eqb current target_ then current
  else if String.eqb current base then target_
  else match merge current base target_ with Merged merged => merged | _ => current end.
Definition all_mergeable (baseline targets : gmap string string) (t : gmap path node) : Prop :=
  ∀ r, r ∈ runtimeUpgradePaths → ∃ base target_, baseline !! r = Some base ∧ targets !! r = Some target_
    ∧ ∀ c m, t !! parts r = Some (File c m) → mergeable base target_ c.

Lemma plan_action_mergeable to_ r m c base target_ : mergeable base target_ c →
  ∃ a, plan_action merge to_ r m c base target_ = Ok a ∧ conflicting a = false
    ∧ (if written a then content a else c) = upgraded base target_ c.
Proof using.
  unfold mergeable, plan_action, upgraded. intros H.
  destruct (String.eqb_spec c target_) as [->|Hct]; [by eexists|]. destruct (String.eqb_spec c base) as [->|Hcb]; [by eexists|].
  destruct H as [?|[?|[x Hx]]]; [done..|]. rewrite Hx. destruct (String.eqb_spec c x) as [->|]; by eexists.
Qed.
Lemma plan_files_total to_ baseline targets k fs paths : ∀ acts,
  calm stamp k fs → (∀ r, r ∈ paths → r ∈ runtimeUpgradePaths) → all_mergeable baseline targets (tree fs) →
  ∃ acts', plan_files merge to_ baseline targets paths acts fs = (fs, Ok acts').
Proof using.
  induction paths as [|r paths IH]; intros acts Hc Hin Hm; cbn [plan_files]; [by eexists|].
  assert (r ∈ runtimeUpgradePaths) as Hr by (apply Hin; left). destruct (Hm r Hr) as (base & target_ & -> & -> & Hmr).
  assert (∀ r', r' ∈ paths → r' ∈ runtimeUpgradePaths) as Hin' by (intros; apply Hin; by right).
  rewrite (bind_run _ _ _ _ _ (check_quiet _ _ _ Hc (runtime_managed r Hr))). cbn [fst snd].
  destruct (managed_file _ fs r Hc (runtime_managed r Hr)) as [E|(c & m & E)]; rewrite E; [by apply IH|]. cbn [is_regular negb].
  rewrite (bind_run _ _ fs fs c) by (apply wrap_run, readFile_quiet; [apply Hc|by rewrite E]).
  destruct (plan_action_mergeable to_ r (perm (File c m)) c base target_ (Hmr c m E)) as (a & Ea & _).
  rewrite (bind_run _ _ fs fs a) by by rewrite <- Ea. by apply IH.
Qed.
Lemma planned_upgraded to_ baseline targets t a : planned merge to_ baseline targets t a → all_mergeable baseline targets t →
  conflicting a = false ∧ ∃ m base target_, t !! parts (ac_path a) = Some (File (original a) m) ∧ mode a = Z.land m 511
    ∧ baseline !! ac_path a = Some base ∧ targets !! ac_path a = Some target_ 
    ∧ (if written a then content a else original a) = upgraded base target_ (original a).
Proof using.
  intros (Hr & _ & m & base & target_ & Hn & Hmo & Hb & Ht & H3) Hm.
  destruct (Hm _ Hr) as (base' & target' & Hb' & Ht' & Hme). specialize (Hme _ _ Hn).
  assert (base' = base ∧ target' = target_) as [-> ->] by (split; congruence).
  enough (conflicting a = false ∧ (if written a then content a else original a) = upgraded base target_ (original a)) as [H1 H2]
    by (split; [done|by exists m, base, target_]).
  unfold three_way, conflicting, written, upgraded, mergeable in *.
  destruct (String.eqb_spec (original a) target_) as [Eq|Ne].
  { destruct (status a); try done; naive_solver. }
  destruct (String.eqb_spec (original a) base) as [Eb|Nb]; [destruct (status a); naive_solver|].
  destruct Hme as [?|[?|[x Hx]]]; [done..|]. rewrite Hx in *. destruct (status a); naive_solver.
Qed.

Context (embedded : gmap string string) (sources : result (gmap string string))
  (json_unmarshal : string → result upgradeManifest) (json_marshal : upgradeManifest → result string)
  (sha256Hex : string → string) (updatedAt : string).

(** What the command needs of a project: its marks, and files, if anything, where it
    writes.  To upgrade, moreover, the backup directory of the run is new. *)
Record current_project (k : nat) (fs : project) : Prop := mkCurrent {
  current_calm : calm stamp k fs;
  current_root : tree fs !! [] = Some Dir;
  current_gomod : ∃ c m, tree fs !! ["go.mod"] = Some (File c m);
  current_server : ∃ c m, tree fs !! parts "pkg/runtime/server.go" = Some (File c m);
}.
Record healthy (fs : project) : Prop := mkHealthy {
  healthy_project : current_project 8 fs;
  healthy_new : ∀ s, s ∈ managed → tree fs !! backup_of stamp s = None;
}.
(** The checks that come before the comparison. *)
Lemma plan_checked root fromArg k fs manifest v :
  current_project k fs → manifest_at json_unmarshal (tree fs) = Ok manifest → plan_from fromArg manifest = Ok v →
  planRuntimeUpgrade embedded sources json_unmarshal merge root fromArg latestRuntimeUpgradeVersion fs =
    (if String.eqb v latestRuntimeUpgradeVersion then ret (mkReport v latestRuntimeUpgradeVersion [] None)
     else
       let* baseline := wrap (λ e, "unsupported runtime upgrade v" +:+ v +:+ " -> v" +:+ latestRuntimeUpgradeVersion +:+ ": " +:+ e)
                          (of_result (runtimeUpgradeBaseline embedded v)) in
       let* ignore := planUpgradeArtifactIgnore in
       let* targets := wrap (λ e, "load target runtime sources: " +:+ e) (of_result sources) in
       let* acts := plan_files merge latestRuntimeUpgradeVersion baseline targets runtimeUpgradePaths [] in
       ret (mkReport v latestRuntimeUpgradeVersion acts ignore)) fs.
Proof using.
  intros [Hc Hroot (gc & gm & Hg) (sc & sm & Hs)] Hm Hv.
  pose proof (calm_faults _ _ _ Hc) as Hf. pose proof (ready_closed _ _ _ (calm_ready _ _ _ Hc)) as Hcl. unfold planRuntimeUpgrade.
  rewrite (bind_run _ _ fs fs (Some Dir)) by (apply wrap_run; by rewrite lstat_quiet, Hroot). cbn [is_dir negb].
  assert (passable (tree fs) (parts "go.mod")) as Hpass.
  { split; [by intros q ?%elem_of_nil|]. change (parts "go.mod") with ["go.mod"]. by rewrite Hg. }
  rewrite (bind_run _ _ _ _ _ (safeProjectPath_quiet "go.mod" fs Hf Hcl eq_refl Hpass)).
  cbn [snd]. change (parts "go.mod") with ["go.mod"]. rewrite Hg. cbn [regular_info is_regular negb].
  rewrite (bind_run _ _ _ _ _ (check_quiet _ _ "pkg/runtime/server.go" Hc (runtime_managed _ ltac:(by left)))). cbn [snd]. rewrite Hs.
  cbn [regular_info is_regular negb]. rewrite (bind_run _ _ _ _ _ (read_manifest_quiet _ _ _ _ Hc Hm)).
  rewrite (bind_run _ _ fs fs v) by by rewrite <- Hv. by rewrite String.eqb_refl.
Qed.
Lemma plan_quiet root fromArg fs manifest v baseline targets :
  healthy fs → manifest_at json_unmarshal (tree fs) = Ok manifest → plan_from fromArg manifest = Ok v →
  v ≠ latestRuntimeUpgradeVersion → runtimeUpgradeBaseline embedded v = Ok baseline → sources = Ok targets →
  all_mergeable baseline targets (tree fs) →
  ∃ acts, planRuntimeUpgrade embedded sources json_unmarshal merge root fromArg latestRuntimeUpgradeVersion fs
      = (fs, Ok (mkReport v latestRuntimeUpgradeVersion acts (ignore_action (ignore_state (tree fs)).1 (ignore_state (tree fs)).2)))
    ∧ plan_files merge latestRuntimeUpgradeVersion baseline targets runtimeUpgradePaths [] fs = (fs, Ok acts).
Proof using.
  intros [Hp _] Hm Hv Hne Hb Hsrc Hall. pose proof (current_calm _ _ Hp) as Hc.
  destruct (plan_files_total latestRuntimeUpgradeVersion baseline targets 8 fs runtimeUpgradePaths [] Hc) as [acts Ha]; [done|done|].
  exists acts. split; [|done]. rewrite (plan_checked _ _ _ _ _ _ Hp Hm Hv), (proj2 (String.eqb_neq _ _) Hne).
  rewrite (bind_run _ _ fs fs baseline) by (apply wrap_run; by rewrite <- Hb).
  rewrite (bind_run _ _ _ _ _ (plan_ignore_quiet _ _ Hc)).
  rewrite (bind_run _ _ fs fs targets) by (apply wrap_run; by rewrite <- Hsrc). by rewrite (bind_run _ _ _ _ _ Ha).
Qed.

(** ** The whole command *)

Lemma few_actions (l : list string) : NoDup l → (∀ r, r ∈ l → r ∈ runtimeUpgradePaths) → length l ≤ 6.
Proof using. intros Hn Hin. by apply (submseteq_length l runtimeUpgradePaths), NoDup_submseteq. Qed.
Lemma manifest_same t t' : same_at t t' metadata_path → manifest_at json_unmarshal t' = manifest_at json_unmarshal t.
Proof using. intros [H _]. unfold manifest_at. by rewrite H. Qed.

(** The end of a run of the command. *)
Definition upgrade_done (baseline targets : gmap string string) (t t' : gmap path node) : Prop :=
  made P t t' ∧ records_version json_marshal t' latestRuntimeUpgradeVersion
  ∧ ∀ r, r ∈ runtimeUpgradePaths →
      (t !! parts r = None ∧ t' !! parts r = None)
      ∨ ∃ c m m' base target_, t !! parts r = Some (File c m) ∧ baseline !! r = Some base ∧ targets !! r = Some target_
          ∧ t' !! parts r = Some (File (upgraded base target_ c) m') ∧ Z.land m' 511 = Z.land m 511.

Lemma RunUpgrade_quiet cliVersion root fromArg fs manifest v baseline targets :
  healthy fs → cliVersion = "0.0.0-dev" ∨ cliVersion = latestRuntimeUpgradeVersion →
  manifest_at json_unmarshal (tree fs) = Ok manifest → plan_from fromArg manifest = Ok v → v ≠ latestRuntimeUpgradeVersion →
  runtimeUpgradeBaseline embedded v = Ok baseline → sources = Ok targets → all_mergeable baseline targets (tree fs) →
  (∀ m, is_ok (json_marshal m) = true) →
  ∃ fs', RunUpgrade embedded sources json_unmarshal json_marshal merge sha256Hex stamp updatedAt cliVersion root fromArg true fs = (fs', Ok tt)
    ∧ calm stamp 0 fs' ∧ upgrade_done baseline targets (tree fs) (tree fs').
Proof using Hstamp.
  intros Hh Hcli Hm Hv Hne Hb Hsrc Hall Hmarshal.
  destruct (plan_quiet root fromArg fs manifest v baseline targets) as (acts & Ep & Ea); [done..|].
  destruct Hh as [[Hc _ _ _] Hnew].
  pose proof (plan_files_paths _ _ _ _ _ _ _ _ _ Ea) as (l & Hl & Hsub). cbn in Hl. subst l.
  assert (NoDup (ac_path <$> acts)) as Hnd.
  { eapply sublist_NoDup; [|exact Hsub]. apply (bool_decide_unpack _). by vm_compute. }
  destruct (plan_files_Ok _ _ _ _ _ _ _ _ _ Ea) as (Hp & _ & Hcov); [done|constructor|]. rewrite Forall_forall in Hp.
  assert (∀ a, a ∈ acts → ac_path a ∈ runtimeUpgradePaths) as Hrt by (intros a Ha; apply (Hp a Ha)).
  assert (length acts ≤ 6) as Hlen.
  { rewrite <- (length_fmap ac_path). apply few_actions; [done|]. intros r (a & -> & Ha)%list_elem_of_fmap. by apply Hrt. }
  unfold RunUpgrade. replace (_ && _) with false by (destruct Hcli as [-> | ->]; done).
  rewrite (bind_run _ _ _ _ _ Ep). cbn [from to]. rewrite (proj2 (String.eqb_neq _ _) Hne). cbn [negb].
  unfold applyRuntimeUpgrade. cbn [to artifactIgnore actions].
  set (ig := ignore_action _ _).
  assert (∃ fs1, match ig with Some a => applyUpgradeArtifactIgnore br a | None => ret tt end fs = (fs1, Ok tt)
    ∧ calm stamp 7 fs1 ∧ made P (tree fs) (tree fs1) ∧ ∀ s, s ∈ managed → s ≠ ignore_path → same_at (tree fs) (tree fs1) s)
    as (fs1 & E1 & Hc1 & Hm1 & Hs1).
  { destruct ig as [a|] eqn:Eig.
    - destruct (apply_ignore_quiet a 7 fs Hc) as (fs1 & E1 & Hc1 & _ & Hm1 & Hs1); [by apply Hnew, ignore_managed|done|]. by exists fs1.
    - exists fs. split_and!; try done. eapply calm_weaken; [|done]. lia. }
  assert (∀ r, r ∈ runtimeUpgradePaths → same_at (tree fs) (tree fs1) r) as Hrs.
  { intros r Hr. apply Hs1; [by apply runtime_managed|]. intros ->. by apply (runtime_not_ignore _ Hr). }
  destruct (apply_actions_quiet acts 0%Z 1 fs1) as (fs2 & E2 & Hc2 & _ & Hm2 & Ho2 & Hs2); [|..|done|].
  { eapply calm_weaken; [|done]. lia. }
  { apply Forall_forall. intros a Ha. destruct (planned_upgraded _ _ _ _ _ (Hp a Ha) Hall) as (Hcf & m & base & tg & Hn & Hmo & _).
    destruct (Hrs _ (Hrt a Ha)) as [H1 H2]. unfold fit. rewrite H1, H2, Hmo. split_and!; [by apply runtime_managed, Hrt|done|apply perm_land| |by eexists].
    by apply Hnew, runtime_managed, Hrt. }
  assert (metadata_path ∉ ac_path <$> acts) as Hmd.
  { intros (a & E & Ha)%list_elem_of_fmap. specialize (Hrt a Ha). rewrite <- E in Hrt. by apply (bool_decide_pack _) in Hrt. }
  pose proof (Hs1 metadata_path metadata_managed ltac:(done)) as [H1m H1b].
  pose proof (Hs2 metadata_path metadata_managed Hmd) as [H2m H2b].
  destruct (write_metadata_quiet sources targets json_unmarshal json_marshal sha256Hex updatedAt latestRuntimeUpgradeVersion manifest 0 fs2)
    as (fs3 & E3 & Hc3 & Hm3 & Hs3); [done| |done|done| |].
  { rewrite <- Hm. unfold manifest_at. by rewrite H2m, H1m. }
  { rewrite H2b, H1b. by apply Hnew, metadata_managed. }
  exists fs3. split.
  { erewrite bind_run; [|erewrite bind_run by exact E1; erewrite bind_run by exact E2; cbn [Z.ltb Z.compare]; by erewrite bind_run by exact E3]. done. }
  split; [done|]. split; [etransitivity; [done|]; by etransitivity|]. split; [by eapply write_metadata_Ok|].
  intros r Hr. pose proof (runtime_managed r Hr) as Hrm.
  assert (tree fs3 !! parts r = tree fs2 !! parts r) as H3.
  { apply (Hs3 r Hrm). intros ->. by apply (bool_decide_pack _) in Hr. }
  rewrite H3. destruct (decide (r ∈ ac_path <$> acts)) as [Hin|Hout].
  - right. apply list_elem_of_fmap in Hin as (a & -> & Ha).
    destruct (planned_upgraded _ _ _ _ _ (Hp a Ha) Hall) as (_ & m & base & tg & Hn & Hmo & Hb' & Ht' & Hup).
    rewrite (Ho2 a Ha). unfold outcome. rewrite (proj1 (Hrs _ Hr)).
    exists (original a), m, (if written a then mode a else m), base, tg. rewrite <- Hup, Hn, Hmo.
    destruct (written a); split_and!; try done. apply perm_land.
  - left. destruct (Hs2 r Hrm Hout) as [Hs2' _]. rewrite Hs2', (proj1 (Hrs r Hr)).
    enough (tree fs !! parts r = None) by done. destruct (Hcov r Hr) as [(a & Ha & <-)|(k & Hk & Hnone)].
    + destruct Hout. by apply list_elem_of_fmap_2.
    + eapply closed_absent; [apply Hc| |exact Hnone|apply prefix_take]. intros E. destruct (parts r), k; cbn in *; done || lia.
Qed.

(** A project at the version of the command is left alone. *)
Lemma RunUpgrade_current cliVersion root fromArg apply k fs m :
  current_project k fs → cliVersion = "0.0.0-dev" ∨ cliVersion = latestRuntimeUpgradeVersion →
  manifest_at json_unmarshal (tree fs) = Ok m → plan_from fromArg m = Ok latestRuntimeUpgradeVersion →
  RunUpgrade embedded sources json_unmarshal json_marshal merge sha256Hex stamp updatedAt cliVersion root fromArg apply fs = (fs, Ok tt).
Proof using.
  intros Hp Hcli Hm Hv. unfold RunUpgrade. replace (_ && _) with false by (destruct Hcli as [-> | ->]; done).
  erewrite bind_run by by rewrite (plan_checked _ _ _ _ _ _ Hp Hm Hv). done.
Qed.

(** The version of a record that was written is read back. *)
Definition records_read_back : Prop := ∀ m d, json_marshal m = Ok d →
  ∃ m', json_unmarshal (d +:+ lf) = Ok m' ∧ um_Version m' = um_Version m.
(** After an upgrade the project is one that the command leaves alone. *)
Lemma done_current baseline targets fs fs' :
  healthy fs → calm stamp 0 fs' → upgrade_done baseline targets (tree fs) (tree fs') →
  records_read_back →
  current_project 0 fs' ∧ ∃ m, manifest_at json_unmarshal (tree fs') = Ok m ∧ um_Version m = latestRuntimeUpgradeVersion.
Proof using Hstamp.
  intros [[Hc Hroot (gc & gm & Hg) (sc & sm & Hs)] _] Hc' (Hmade & (m & d & mo & Hv & Hd & Hn) & Hrt) Hjson. split.
  - assert (∀ q n, q ∉ P → tree fs !! q = Some n → tree fs' !! q = Some n) as Hkeep.
    { intros q n Hq E. destruct (Hmade q Hq) as [->|[E' _]]; [done|congruence]. }
    split; [done| | |].
    + apply Hkeep; [|done]. by intros [H _]%(proj2 touched_ok).
    + exists gc, gm. apply Hkeep; [|done]. intros (s & Hm & [E|E])%elem_of_touched; [|done].
      apply managed_parts in Hm as (_ & _ & Hl). rewrite <- E in Hl. cbn in Hl. lia.
    + destruct (Hrt "pkg/runtime/server.go" ltac:(left)) as [[E _]|(c & m1 & m2 & b & tg & _ & _ & _ & E & _)]; [congruence|eauto].
  - destruct (Hjson m d Hd) as (m' & Em & Ev). exists m'. split; [|congruence]. unfold manifest_at. by rewrite Hn.
Qed.
End Run.

(** * Properties *)


(** ** A project with one unedited and one edited file *)

Definition ready_b (P : list path) (ns : list string) (t : gmap path node) : bool :=
  forallb (λ p, bool_decide (dirname p = []) || match t !! dirname p with Some n => is_dir n | None => false end) (map_to_list t).*1
  && forallb (λ p, forallb (λ q, match t !! q with None | Some Dir => true | _ => false end) (prefixes (dirname p))
       && match t !! p with None => true | Some n => is_regular n end
       && forallb (λ n, match t !! (dirname p ++ [temp_prefix +:+ n]) with None => true | _ => false end) ns) P.
Lemma ready_b_spec P ns t : ready_b P ns t = true → ready P ns t.
Proof.
  unfold ready_b. rewrite andb_true_iff, !forallb_forall. intros [H1 H2]. split.
  - intros p c Hp [n Hn]. specialize (H1 (p ++ [c])). rewrite dirname_snoc, orb_true_iff, bool_decide_eq_true in H1.
    destruct H1 as [H1|H1]; [|done|by destruct (t !! p) as [[]|]]. apply list_elem_of_In, list_elem_of_fmap. exists (p ++ [c], n). split; [done|]. by apply elem_of_map_to_list.
  - intros p q Hp%list_elem_of_In%H2 Hq%list_elem_of_In. rewrite !andb_true_iff, !forallb_forall in Hp.
    destruct Hp as [[H _] _]. specialize (H q Hq). unfold free_or_dir. by destruct (t !! q) as [[]|]; auto.
  - intros p Hp%list_elem_of_In%H2. rewrite !andb_true_iff in Hp. destruct Hp as [[_ H] _].
    destruct (t !! p) as [[]|]; [right; eauto|done..|by left].
  - intros p n Hp%list_elem_of_In%H2 Hn%list_elem_of_In. rewrite !andb_true_iff, !forallb_forall in Hp.
    destruct Hp as [_ H]. specialize (H n Hn). by destruct (t !! _).
Qed.

Definition live_project : project :=
  mkProject (tree (demo_project "edited")) [] ["1"; "2"; "3"; "4"; "5"; "6"; "7"; "8"] 18.
Definition live_unmarshal (s : string) : result upgradeManifest :=
  Ok (mkManifest (trim_suffix s lf) "" "" "" "" [] ∅).
Definition live_baseline : gmap string string := list_to_map ((λ p, (p, "base")) <$> runtimeUpgradePaths).
