(* ===== verification/Template.v ===== *)
(** * Templates

    [text/template] of the standard library for the actions the generator's
    templates use: a field or the dot, printed, and [range] over one of them up
    to its [end].  Any other action is an error here; values that are printed
    are strings. *)

From S2P Require Import Prelude GoStrings.

(** ** Values and nodes *)

Inductive value :=
  | VString (s : string)
  | VStruct (members : list (string * value))
  | VSlice (elems : list value).

(** [None] is the dot itself. *)
Abbreviation pipeline := (option string).
Inductive tnode :=
  | NText (s : string)
  | NPrint (p : pipeline)
  | NRange (p : pipeline) (body : list tnode).

(** ** Parsing *)

Inductive token := TText (s : string) | TAction (s : string).

(** At the delimiter that ends a segment. *)
Definition at_delim (inside : bool) (s : string) : bool :=
  match s with
  | String c (String d _) =>
      if inside then Ascii.eqb c "}" && Ascii.eqb d "}" else Ascii.eqb c "{" && Ascii.eqb d "{"
  | _ => false
  end.
(** The segment at the front of the input, and the tokens after it. *)
Fixpoint segments (inside : bool) (s : string) : option (string * list token) :=
  match s with
  | EmptyString => if inside then None else Some ("", [])
  | String c r =>
      if at_delim inside s then
        match r with
        | String _ r2 =>
            match segments (negb inside) r2 with
            | Some (t, ts) => Some ("", (if inside then TText t else TAction t) :: ts)
            | None => None
            end
        | EmptyString => None
        end
      else match segments inside r with Some (t, ts) => Some (String c t, ts) | None => None end
  end.
Definition lex (s : string) : result (list token) :=
  match segments false s with
  | Some (t, ts) => Ok (TText t :: ts)
  | None => Err "unclosed action"
  end.

Inductive action := APrint (p : pipeline) | ARange (p : pipeline) | AEnd.
Definition name_byte (c : ascii) : bool :=
  byte_in 65 90 c || byte_in 97 122 c || byte_in 48 57 c || byte_in 95 95 c.
Definition parse_pipeline (s : string) : option pipeline :=
  match s with
  | String c r =>
      if negb (Ascii.eqb c ".") then None
      else if String.eqb r "" then Some None
      else if all_bytes name_byte r then Some (Some r) else None
  | EmptyString => None
  end.
Definition parse_action (s : string) : option action :=
  if String.eqb s "end" then Some AEnd
  else if has_prefix s "range " then ARange <$> parse_pipeline (trim_prefix s "range ")
  else APrint <$> parse_pipeline s.

(** From the right: the bodies whose [range] has not been met yet, innermost
    first, and the nodes at the top level last. *)
Definition parse_token (t : token) (stack : option (list (list tnode))) : option (list (list tnode)) :=
  match stack, t with
  | Some (body :: outer), TText s => Some ((NText s :: body) :: outer)
  | Some (body :: outer), TAction s =>
      match parse_action s, outer with
      | Some AEnd, _ => Some ([] :: body :: outer)
      | Some (APrint p), _ => Some ((NPrint p :: body) :: outer)
      | Some (ARange p), next :: outer => Some ((NRange p body :: next) :: outer)
      | _, _ => None
      end
  | _, _ => None
  end.
Definition parse (s : string) : result (list tnode) :=
  try ts := lex s in
  match foldr parse_token (Some [[]]) ts with
  | Some [nodes] => Ok nodes
  | _ => Err "unexpected action"
  end.

(** ** Execution *)

Fixpoint member (members : list (string * value)) (name : string) : option value :=
  match members with
  | [] => None
  | (n, v) :: members => if String.eqb n name then Some v else member members name
  end.
Definition eval_pipeline (p : pipeline) (dot : value) : result value :=
  match p, dot with
  | None, _ => Ok dot
  | Some name, VStruct members =>
      match member members name with
      | Some v => Ok v
      | None => Err ("can't evaluate field " +:+ name)
      end
  | Some name, _ => Err ("can't evaluate field " +:+ name)
  end.

Definition cat (a b : result string) : result string :=
  try x := a in try y := b in Ok (x +:+ y).
Fixpoint exec_node (n : tnode) (dot : value) : result string :=
  match n with
  | NText s => Ok s
  | NPrint p =>
      try v := eval_pipeline p dot in
      match v with
      | VString s => Ok s
      | _ => Err "not a string"
      end
  | NRange p body =>
      try v := eval_pipeline p dot in
      match v with
      | VSlice vs =>
          foldr (λ v out, cat (foldr (λ n out, cat (exec_node n v) out) (Ok "") body) out) (Ok "") vs
      | _ => Err "range can't iterate"
      end
  end.
Definition exec (ns : list tnode) (dot : value) : result string :=
  foldr (λ n out, cat (exec_node n dot) out) (Ok "") ns.

(** [template.New(...).Parse(source)] and [Execute] into a buffer. *)
Definition render (source : string) (dot : value) : result string :=
  try ns := parse source in exec ns dot.

Example render_range :
  render "a {{.T}} ({{range .L}}<{{.}}>{{end}}) }}" (VStruct [("T", VString "t"); ("L", VSlice [VString "x"; VString "y"])])
  = Ok "a t (<x><y>) }}".
Proof. reflexivity. Qed.
Example render_missing : is_ok (render "{{.U}}" (VStruct [("T", VString "t")])) = false.
Proof. reflexivity. Qed.
Example parse_unclosed : is_ok (parse "{{range .L}}x") = false.
Proof. reflexivity. Qed.

(** ** Execution, node by node *)

Lemma exec_nil dot : exec [] dot = Ok "".
Proof. done. Qed.
Lemma exec_cons n ns dot : exec (n :: ns) dot = cat (exec_node n dot) (exec ns dot).
Proof. done. Qed.
Lemma cat_Ok a b : cat (Ok a) (Ok b) = Ok (a +:+ b).
Proof. done. Qed.
Lemma exec_app ns ns' dot : exec (ns ++ ns') dot = cat (exec ns dot) (exec ns' dot).
Proof.
  induction ns as [|n ns IH]; cbn [app]; [by rewrite exec_nil; unfold cat; cbn; destruct (exec ns' dot)|].
  rewrite !exec_cons, IH. unfold cat. destruct (exec_node n dot), (exec ns dot), (exec ns' dot); cbn;
    by rewrite ?str_app_assoc.
Qed.
Lemma exec_text s dot : exec_node (NText s) dot = Ok s.
Proof. done. Qed.

(** The text of a [range] is the text of the body at each element in turn. *)
Definition concat_strings (l : list string) : string := foldr String.app "" l.
Lemma exec_range p body dot vs (f : value → string) :
  eval_pipeline p dot = Ok (VSlice vs) → (∀ v, v ∈ vs → exec body v = Ok (f v)) →
  exec_node (NRange p body) dot = Ok (concat_strings (f <$> vs)).
Proof.
  intros Hp Hf. cbn [exec_node]. rewrite Hp. cbn [res_bind]. clear Hp.
  induction vs as [|v vs IH]; [done|]. cbn [foldr fmap list_fmap concat_strings].
  change (foldr (λ n out, cat (exec_node n v) out) (Ok "") body) with (exec body v).
  rewrite Hf by set_solver. rewrite IH by (intros; apply Hf; set_solver). done.
Qed.
Arguments exec : simpl never.

(** ** Types

    A value whose shape is known makes execution total: no action of a
    well-typed template fails on it. *)

Inductive type :=
  | TyString
  | TyStruct (members : list (string * type))
  | TySlice (elem : type).

Fixpoint has_type (t : type) (v : value) : Prop :=
  match t with
  | TyString => ∃ s, v = VString s
  | TySlice t => ∃ vs, v = VSlice vs ∧ Forall (has_type t) vs
  | TyStruct ms => ∃ l, v = VStruct l
      ∧ (fix go ms := match ms with
                      | [] => True
                      | (name, t) :: ms => (∃ w, member l name = Some w ∧ has_type t w) ∧ go ms
                      end) ms
  end.
Fixpoint member_type (ms : list (string * type)) (name : string) : option type :=
  match ms with
  | [] => None
  | (n, t) :: ms => if String.eqb n name then Some t else member_type ms name
  end.
Definition pipeline_type (p : pipeline) (t : type) : option type :=
  match p, t with
  | None, _ => Some t
  | Some name, TyStruct ms => member_type ms name
  | Some _, _ => None
  end.
Fixpoint typed_node (t : type) (n : tnode) : bool :=
  match n with
  | NText _ => true
  | NPrint p => match pipeline_type p t with Some TyString => true | _ => false end
  | NRange p body => match pipeline_type p t with
                     | Some (TySlice u) => forallb (typed_node u) body
                     | _ => false
                     end
  end.
Definition typed (t : type) (source : string) : bool :=
  match parse source with
  | Ok ns => forallb (typed_node t) ns
  | Err _ => false
  end.

Lemma member_type_sound ms l name t :
  has_type (TyStruct ms) (VStruct l) → member_type ms name = Some t →
  ∃ w, member l name = Some w ∧ has_type t w.
Proof.
  intros (l' & [= <-] & Hgo). induction ms as [|[n u] ms IH]; [done|]. cbn [member_type].
  destruct Hgo as [Hw Hgo]. destruct (String.eqb_spec n name) as [->|]; [|by apply IH].
  by intros [= ->].
Qed.
Lemma pipeline_type_sound p t u v :
  has_type t v → pipeline_type p t = Some u → ∃ w, eval_pipeline p v = Ok w ∧ has_type u w.
Proof.
  intros Hv Hp. destruct p as [name|]; cbn in Hp; [|by simplify_eq; eexists].
  destruct t as [|ms|]; [done| |done]. pose proof Hv as (l & -> & _).
  destruct (member_type_sound _ _ _ _ Hv Hp) as (w & Hw & Hty). exists w. cbn. by rewrite Hw.
Qed.

(** All of [ns] run on any value of type [t]. *)
Definition runs (t : type) (ns : list tnode) : Prop := ∀ v, has_type t v → ∃ s, exec ns v = Ok s.
Lemma runs_list ns t :
  Forall (λ n, ∀ t, typed_node t n = true → runs t [n]) ns → forallb (typed_node t) ns = true → runs t ns.
Proof.
  induction 1 as [|n ns Hn _ IH]; [by exists ""|]. cbn [forallb]. intros [Hty Hl]%andb_true_iff v Hv.
  destruct (Hn t Hty v Hv) as [s Hs], (IH Hl v Hv) as [s' Hs']. exists (s +:+ s').
  change (n :: ns) with ([n] ++ ns). by rewrite exec_app, Hs, Hs'.
Qed.
Fixpoint typed_node_runs (n : tnode) : ∀ t, typed_node t n = true → runs t [n].
Proof.
  destruct n as [s|p|p body]; intros t Hty v Hv.
  - by eexists.
  - cbn [typed_node] in Hty. destruct (pipeline_type p t) as [[]|] eqn:Ep; try done.
    destruct (pipeline_type_sound _ _ _ _ Hv Ep) as (w & Hw & s & ->).
    exists (s +:+ ""). rewrite exec_cons. cbn [exec_node]. by rewrite Hw.
  - cbn [typed_node] in Hty. destruct (pipeline_type p t) as [[| |u]|] eqn:Ep; try done.
    destruct (pipeline_type_sound _ _ _ _ Hv Ep) as (w & Hw & vs & -> & Hvs).
    assert (runs u body) as Hbody.
    { apply runs_list; [|done]. clear -typed_node_runs. induction body; constructor; [apply typed_node_runs|done]. }
    assert (∃ s, exec_node (NRange p body) v = Ok s) as [s Hs].
    { cbn [exec_node]. rewrite Hw. cbn [res_bind]. clear -Hbody Hvs.
      induction Hvs as [|w vs Hw _ [s' Hs']]; [by eexists|]. cbn [foldr].
      destruct (Hbody w Hw) as [s Hs]. exists (s +:+ s'). rewrite Hs'.
      change (foldr (λ n out, cat (exec_node n w) out) (Ok "") body) with (exec body w). by rewrite Hs. }
    exists (s +:+ ""). by rewrite exec_cons, Hs.
Qed.

Lemma typed_render t source v : typed t source = true → has_type t v → ∃ s, render source v = Ok s.
Proof.
  unfold typed, render. destruct (parse source) as [ns|]; [|done]. intros Hty Hv. cbn [res_bind].
  apply (runs_list ns t); [|done..]. clear. induction ns; constructor; [apply typed_node_runs|done].
Qed.
