(* ===== verification/Crud.v ===== *)
(** * CRUD generation

    Models src/internal/cli/crud.go: the arguments of [fgoths generate crud],
    the naming of what is generated, the files it writes below the project root
    and the registry of routes it rebuilds.  The iteration orders of the two
    maps of files are arguments. *)

From S2P Require Import Prelude GoStrings Unicode Os ProjectFs Template CrudTemplates.

(** ** Names *)

Definition upper_letter : ascii → bool := byte_in 65 90.
Definition lower_letter : ascii → bool := byte_in 97 122.
Definition digit : ascii → bool := byte_in 48 57.
Definition alnum (c : ascii) : bool := upper_letter c || lower_letter c || digit c.
Definition snake_byte (c : ascii) : bool := lower_letter c || digit c || Ascii.eqb c "_".

(** [^[A-Z][A-Za-z0-9]*$] and [identifierPattern]. *)
Definition pascal (s : string) : bool :=
  match s with String c r => upper_letter c && all_bytes alnum r | EmptyString => false end.
Definition identifierPattern (s : string) : bool :=
  match s with String c r => lower_letter c && all_bytes snake_byte r | EmptyString => false end.

(** The test [i > 0] fails on the first rune only. *)
Fixpoint snake_runes (first : bool) (rs : list Z) : list Z :=
  match rs with
  | [] => []
  | r :: rs =>
      if ((65 <=? r) && (r <=? 90))%Z
      then (if first then [] else [95%Z]) ++ (r + 32)%Z :: snake_runes false rs
      else r :: snake_runes false rs
  end.
Definition toSnake (value : string) : string := encode_runes (snake_runes true (runes value)).

Definition pluralize (value : string) : string := value +:+ "s".

(** [strings.ToUpper] and [strings.ToLower] of a slice of one byte: a byte that
    is not a rune by itself becomes [utf8.RuneError]. *)
Definition case_byte (f : ascii → ascii) (c : ascii) : string :=
  if byte_in 0 127 c then String (f c) "" else encode_rune RuneError.
(** [None] is the panic of slicing an empty string. *)
Definition lowerFirst (value : string) : option string :=
  match value with
  | String c r => Some (case_byte lower_byte c +:+ r)
  | EmptyString => None
  end.
Definition export_part (part : string) : string :=
  match part with
  | EmptyString => ""
  | String c r => case_byte upper_byte c +:+ r
  end.
Definition exportName (value : string) : string :=
  concat_strings (export_part <$> split value "_").

Example snake_key : toSnake "APIKey" = "a_p_i_key".
Proof. reflexivity. Qed.
Example export_key : exportName "a_p_i_key" = "APIKey".
Proof. reflexivity. Qed.

(** ** Arguments *)

Record crudField := mkField {
  Name : string;
  Exported : string;
  GoType : string;
  SQLType : string;
  TestValue : string;
}.
Record crudData := mkData {
  ProjectName : string;
  Entity : string;
  EntityLower : string;
  Table : string;
  Fields : list crudField;
  Columns : string;
  Placeholders : string;
  ArgumentList : string;
  ScanArguments : string;
  Assignments : string;
  IDPlaceholder : string;
}.

Definition supportedCRUDType (value : string) : option (string * string) :=
  if String.eqb value "string" then Some ("string", "TEXT")
  else if String.eqb value "bool" then Some ("bool", "INTEGER")
  else if String.eqb value "int" then Some ("int", "INTEGER")
  else if String.eqb value "int64" then Some ("int64", "INTEGER")
  else if String.eqb value "float64" then Some ("float64", "REAL")
  else None.
Definition testValueFor (goType : string) : string :=
  if String.eqb goType "string" then quote "test"
  else if String.eqb goType "bool" then "true"
  else if String.eqb goType "int" || String.eqb goType "int64" then "1"
  else if String.eqb goType "float64" then "1.5"
  else "".

(** The loop over the field arguments. *)
Fixpoint parse_fields (arguments : list string) (seen : list string) (acc : list crudField)
    : result (list crudField) :=
  match arguments with
  | [] => Ok acc
  | argument :: arguments =>
      match split2 argument ":" with
      | [name; kind] =>
          fail_if negb (identifierPattern name) with ("invalid field " +:+ quote argument +:+ "; use lower_snake:type");
          fail_if existsb (String.eqb name) seen with ("field " +:+ quote name +:+ " is repeated");
          match supportedCRUDType kind with
          | None => Err ("unsupported type " +:+ quote kind +:+ "; use string, bool, int, int64 or float64")
          | Some (goType, sqlType) =>
              parse_fields arguments (name :: seen)
                (acc ++ [mkField name (exportName name) goType sqlType (testValueFor goType)])
          end
      | _ => Err ("invalid field " +:+ quote argument +:+ "; use lower_snake:type")
      end
  end.

Definition placeholder (index : nat) : string := "?" +:+ itoa (Z.of_nat (S index)).
Definition assignment (index : nat) (f : crudField) : string := Name f +:+ " = " +:+ placeholder index.
Definition parseCRUDArgs (args : list string) : result crudData :=
  match args with
  | entity :: ((_ :: _) as arguments) =>
      fail_if negb (pascal entity) with "entity must be a PascalCase identifier";
      match lowerFirst entity with
      | None => Err "runtime error: slice bounds out of range"
      | Some entityLower =>
          try fields := parse_fields arguments [] [] in
          Ok (mkData "" entity entityLower (pluralize (toSnake entity)) fields
                (join (Name <$> fields) ", ")
                (join (imap (λ i _, placeholder i) fields) ", ")
                (join ((λ f, "in." +:+ Exported f) <$> fields) ", ")
                (join ("&item.ID" :: ((λ f, "&item." +:+ Exported f) <$> fields)) ", ")
                (join (imap assignment fields) ", ")
                (placeholder (length fields)))
      end
  | _ => Err "usage: fgoths generate crud Entity field:type [field:type...]"
  end.
Definition with_project (d : crudData) (name : string) : crudData :=
  mkData name (Entity d) (EntityLower d) (Table d) (Fields d) (Columns d) (Placeholders d)
    (ArgumentList d) (ScanArguments d) (Assignments d) (IDPlaceholder d).

(** ** The project *)

Definition lf : ascii := ascii_of_N 10.
Definition requireMVCProject : M unit :=
  let* r := attempt (readFile ["go.mod"]) in
  match r with
  | Err _ => fail "go.mod not found; run this inside a project generated by `fgoths init`"
  | Ok goMod =>
      if negb (contains goMod "modernc.org/sqlite")
      then fail "CRUD generation requires SQLite; regenerate with `fgoths init --db=sqlite` or `--preset=webapp`"
      else
        let* s := attempt (stat ["models"]) in
        match s with
        | Ok (Some _) => ret tt
        | _ => fail "CRUD generation requires an MVC webapp; regenerate with `fgoths init --preset=webapp`"
        end
  end.
Definition module_line (line : string) : option string :=
  match fields line with
  | [w; name] => if String.eqb w "module" then Some name else None
  | _ => None
  end.
Definition currentModuleName : M string :=
  let* content := readFile ["go.mod"] in
  match omap module_line (split content lf) with
  | name :: _ => ret name
  | [] => fail "could not determine module name from go.mod"
  end.

(** ** Rendering *)

Definition field_value (f : crudField) : value :=
  VStruct [("Name", VString (Name f)); ("Exported", VString (Exported f)); ("GoType", VString (GoType f));
           ("SQLType", VString (SQLType f)); ("TestValue", VString (TestValue f))].
Definition crud_value (d : crudData) : value :=
  VStruct [("ProjectName", VString (ProjectName d)); ("Entity", VString (Entity d));
           ("EntityLower", VString (EntityLower d)); ("Table", VString (Table d));
           ("Fields", VSlice (field_value <$> Fields d)); ("Columns", VString (Columns d));
           ("Placeholders", VString (Placeholders d)); ("ArgumentList", VString (ArgumentList d));
           ("ScanArguments", VString (ScanArguments d)); ("Assignments", VString (Assignments d));
           ("IDPlaceholder", VString (IDPlaceholder d))].
Definition renderCRUDTemplate (source : string) (d : crudData) : result string := render source (crud_value d).

(** [strings.ReplaceAll] of a marker that is not empty. *)
Fixpoint replace_from (fuel : nat) (s old new : string) : string :=
  match fuel, index s old with
  | S fuel, Some i => str_take i s +:+ new +:+ replace_from fuel (str_drop (i + String.length old) s) old new
  | _, _ => s
  end.
Definition ReplaceAll (s old new : string) : string := replace_from (String.length s) s old new.
Definition renderCRUDRouteRegistry (source projectName : string) (entities : list string) : result string :=
  render (ReplaceAll source "__RUNTIME_IMPORT__" (quote (projectName +:+ "/pkg/runtime")))
    (VSlice (VString <$> entities)).

(** ** Writing *)

Definition handler_path (d : crudData) : string := filepath_Join ["handlers"; toSnake (Entity d) +:+ "_handler.go"].
Definition handler_test_path (d : crudData) : string :=
  str_take (String.length (handler_path d) - String.length ".go") (handler_path d) +:+ "_test.go".
Definition crud_files (d : crudData) : list (string * string) :=
  [(filepath_Join ["models"; toSnake (Entity d) +:+ ".go"], crudModelTemplate);
   (filepath_Join ["internal"; "database"; toSnake (Entity d) +:+ "_repository.go"], crudRepositoryTemplate);
   (filepath_Join ["internal"; "database"; toSnake (Entity d) +:+ "_repository_test.go"], crudRepositoryTestTemplate);
   (filepath_Join ["migrations"; "002_create_" +:+ Table d +:+ ".sql"], crudMigrationTemplate)].
Definition handler_files (d : crudData) : list (string * string) :=
  [(handler_path d, crudHandlerTemplate); (handler_test_path d, crudHandlerTestTemplate)].
Definition crud_dirs : list string := ["handlers"; "models"; "migrations"; filepath_Join ["internal"; "database"]].

Fixpoint refuse_existing (paths : list string) : M unit :=
  match paths with
  | [] => ret tt
  | path :: paths =>
      let* i := stat (parts path) in
      match i with
      | Some _ => fail ("refusing to overwrite existing file " +:+ path)
      | None => refuse_existing paths
      end
  end.
(** The error of this one is not looked at. *)
Definition refuse_handler (path : string) : M unit :=
  let* r := attempt (stat (parts path)) in
  match r with
  | Ok (Some _) => fail ("refusing to overwrite existing file " +:+ path)
  | _ => ret tt
  end.
Fixpoint make_all (dirs : list string) : M unit :=
  match dirs with
  | [] => ret tt
  | dir :: dirs => do* mkdirAll (parts dir) in make_all dirs
  end.
Fixpoint render_all (d : crudData) (files : list (string * string)) : M unit :=
  match files with
  | [] => ret tt
  | (path, source) :: files =>
      let* content := wrap (λ e, "render " +:+ path +:+ ": " +:+ e) (of_result (renderCRUDTemplate source d)) in
      do* wrap (λ e, "write " +:+ path +:+ ": " +:+ e) (writeFile (parts path) content 420) in
      render_all d files
  end.

Definition handler_entity (entry : string * bool) : option string :=
  if entry.2 || negb (has_suffix entry.1 "_handler.go") then None
  else Some (exportName (trim_suffix entry.1 "_handler.go")).
Definition registry_path : string := filepath_Join ["handlers"; "routes_gen.go"].
Definition writeCRUDRouteRegistry (projectName : string) : M unit :=
  let* entries := wrap (λ e, "scan handlers: " +:+ e) (readDir (parts "handlers")) in
  let entities := sort_strings (omap handler_entity entries) in
  let* output := of_result (renderCRUDRouteRegistry tmplSrc projectName entities) in
  writeFile (parts registry_path) output 420.

Section Orders.
(** The orders in which Go iterates over the maps of files. *)
Context (stat_order write_order handler_order : list (string * string) → list (string * string)).

Definition writeCRUDFiles (d : crudData) : M unit :=
  do* refuse_existing (stat_order (crud_files d)).*1 in
  do* refuse_handler (handler_path d) in
  do* make_all crud_dirs in
  do* render_all d (handler_order (handler_files d)) in
  do* render_all d (write_order (crud_files d)) in
  writeCRUDRouteRegistry (ProjectName d).

(** The lines printed. *)
Definition line (s : string) : string := s +:+ String lf "".
Definition RunGenerateCRUD (args : list string) : M string :=
  let failed e := ret (line ("❌ " +:+ e)) in
  match parseCRUDArgs args with
  | Err e => failed e
  | Ok data =>
      let* r := attempt requireMVCProject in
      match r with
      | Err e => failed e
      | Ok _ =>
          let* r := attempt currentModuleName in
          match r with
          | Err e => failed e
          | Ok projectName =>
              let data := with_project data projectName in
              let* r := attempt (writeCRUDFiles data) in
              match r with
              | Err e => failed ("Could not generate CRUD: " +:+ e)
              | Ok _ =>
                  ret (line ("✅ CRUD " +:+ Entity data +:+ " generated (model, handler, repository, migration + tests)")
                       +:+ line ("   GET, POST /api/" +:+ Table data)
                       +:+ line ("   GET, PUT, DELETE /api/" +:+ Table data +:+ "/{id}")
                       +:+ line "   Run `go test ./...` to validate the generated project.")
              end
          end
      end
  end.
End Orders.

(** ** What names are *)

Lemma all_bytes_impl f g s : (∀ c, f c = true → g c = true) → all_bytes f s = true → all_bytes g s = true.
Proof.
  intros Hfg. induction s as [|c s IH]; [done|]. cbn [all_bytes]. rewrite !andb_true_iff. naive_solver.
Qed.
Lemma all_bytes_split f s c : all_bytes f s = true → Forall (λ p, all_bytes f p = true) (split s c).
Proof.
  induction s as [|d s IH]; [by repeat constructor|]. cbn [all_bytes split]. intros [Hd Hs]%andb_true_iff.
  specialize (IH Hs). destruct (Ascii.eqb d c); [by constructor|]. destruct (split s c) as [|p ps].
  - constructor; [cbn; by rewrite Hd | constructor].
  - apply Forall_cons in IH as [Hp Hps]. constructor; [|done]. cbn. by rewrite Hd.
Qed.
Lemma all_bytes_no f c s : all_bytes f s = true → f c = false → mem_byte c s = false.
Proof.
  intros Hs Hc. induction s as [|d s IH]; [done|]. cbn in *. apply andb_true_iff in Hs as [Hd Hs].
  rewrite IH by done. destruct (Ascii.eqb_spec d c) as [->|]; [congruence|done].
Qed.
Lemma alnum_ascii c : alnum c = true → byte_in 0 127 c = true.
Proof. destruct c as [[] [] [] [] [] [] [] []]; by vm_compute. Qed.
Lemma alnum_snake c : snake_byte c = true → Ascii.eqb c "_" = false → alnum c = true.
Proof. unfold snake_byte, alnum. destruct (upper_letter c); [done|]. intros H Hu. by rewrite Hu, orb_false_r in H. Qed.

Fixpoint snake_string (first : bool) (s : string) : string :=
  match s with
  | EmptyString => ""
  | String c s =>
      if upper_letter c then (if first then "" else "_") +:+ String (lower_byte c) (snake_string false s)
      else String c (snake_string false s)
  end.
Lemma snake_upper c : upper_letter c = ((65 <=? bval c) && (bval c <=? 90))%Z.
Proof. destruct c as [[] [] [] [] [] [] [] []]; by vm_compute. Qed.
Lemma encode_upper c : upper_letter c = true → encode_rune (bval c + 32) = String (lower_byte c) "".
Proof. destruct c as [[] [] [] [] [] [] [] []]; by vm_compute. Qed.
Lemma encode_ascii c : byte_in 0 127 c = true → encode_rune (bval c) = String c "".
Proof. destruct c as [[] [] [] [] [] [] [] []]; by vm_compute. Qed.
Lemma toSnake_ascii s : ascii_only s = true → toSnake s = snake_string true s.
Proof.
  intros Hs. unfold toSnake. rewrite runes_ascii by done. generalize true at 1 2. revert Hs.
  induction s as [|c s IH]; [done|]. cbn [ascii_only all_bytes]. intros [Hc Hs]%andb_true_iff first.
  cbn [String.list_ascii_of_string fmap list_fmap snake_runes snake_string]. rewrite <- snake_upper.
  specialize (IH Hs false). destruct (upper_letter c) eqn:Eu.
  - destruct first; cbn [app encode_runes foldr]; rewrite encode_upper by done;
      rewrite ?str_app_cons, str_app_nil_l; unfold encode_runes in IH; by rewrite IH.
  - cbn [encode_runes foldr]. rewrite encode_ascii by done. rewrite str_app_cons, str_app_nil_l.
    unfold encode_runes in IH. by rewrite IH.
Qed.
Lemma pascal_ascii s : pascal s = true → ascii_only s = true.
Proof.
  destruct s as [|c s]; [done|]. cbn [pascal ascii_only all_bytes]. intros [Hc Hs]%andb_true_iff.
  rewrite alnum_ascii by (unfold alnum; by rewrite Hc). eapply all_bytes_impl; [|done]. apply alnum_ascii.
Qed.

Lemma lower_upper c : upper_letter c = true → case_byte upper_byte (lower_byte c) = String c "".
Proof. destruct c as [[] [] [] [] [] [] [] []]; by vm_compute. Qed.
Lemma lower_snake c : upper_letter c = true → lower_letter (lower_byte c) = true.
Proof. destruct c as [[] [] [] [] [] [] [] []]; by vm_compute. Qed.
Lemma lower_alnum_snake c : alnum c = true → upper_letter c = false → snake_byte c = true.
Proof. unfold alnum, snake_byte. intros H Hu. rewrite Hu in H. cbn [orb] in H. by rewrite H. Qed.
Lemma export_part_app p r : p ≠ "" → export_part (p +:+ r) = export_part p +:+ r.
Proof. destruct p; [done|]. intros _. rewrite str_app_cons. cbn. by rewrite str_app_assoc. Qed.
Lemma export_cons p ps : concat_strings (export_part <$> p :: ps) = export_part p +:+ concat_strings (export_part <$> ps).
Proof. done. Qed.

(** Splitting at the underscores finds the capitals again. *)
Lemma export_snake p r :
  p ≠ "" → mem_byte "_" p = false → all_bytes alnum r = true →
  exportName (p +:+ snake_string false r) = export_part p +:+ r.
Proof.
  unfold exportName. revert p. induction r as [|c r IH]; intros p Hp Hn; cbn [all_bytes snake_string].
  - intros _. rewrite !str_app_nil_r, split_no_sep by done. cbn. by rewrite str_app_nil_r.
  - intros [Hc Hr]%andb_true_iff. destruct (upper_letter c) eqn:Eu.
    + rewrite str_app_cons, str_app_nil_l, split_app_sep by done. rewrite export_cons.
      change (String (lower_byte c) (snake_string false r)) with (String (lower_byte c) "" +:+ snake_string false r).
      rewrite IH; [|done| |done].
      * cbn [export_part]. by rewrite str_app_nil_r, lower_upper.
      * cbn. rewrite orb_false_r. pose proof (lower_snake _ Eu) as Hl. by destruct (lower_byte c) as [[] [] [] [] [] [] [] []].
    + change (String c (snake_string false r)) with (String c "" +:+ snake_string false r).
      rewrite str_app_assoc, IH; [| |rewrite mem_byte_app, Hn; cbn|done].
      * by rewrite export_part_app, <- str_app_assoc.
      * by destruct p.
      * rewrite orb_false_r. by destruct c as [[] [] [] [] [] [] [] []].
Qed.

Lemma snake_string_bytes first s : all_bytes alnum s = true → all_bytes snake_byte (snake_string first s) = true.
Proof.
  revert first. induction s as [|c s IH]; intros first; [done|]. cbn [all_bytes snake_string].
  intros [Hc Hs]%andb_true_iff. destruct (upper_letter c) eqn:Eu.
  - rewrite all_bytes_app. cbn [all_bytes]. rewrite IH by done. unfold snake_byte at 2. rewrite lower_snake by done.
    by destruct first.
  - cbn [all_bytes]. by rewrite IH, lower_alnum_snake.
Qed.
Lemma pascal_snake e :
  pascal e = true → ∃ c r, e = String c r ∧ upper_letter c = true ∧ all_bytes alnum r = true
    ∧ toSnake e = String (lower_byte c) (snake_string false r).
Proof.
  intros He. rewrite toSnake_ascii by by apply pascal_ascii. destruct e as [|c r]; [done|].
  cbn [pascal] in He. apply andb_true_iff in He as [Hc Hr]. exists c, r. split_and!; try done.
  cbn [snake_string]. by rewrite Hc.
Qed.
Lemma export_toSnake e : pascal e = true → exportName (toSnake e) = e.
Proof.
  intros (c & r & -> & Hc & Hr & ->)%pascal_snake.
  change (String (lower_byte c) (snake_string false r)) with (String (lower_byte c) "" +:+ snake_string false r).
  rewrite export_snake; [|done| |done].
  - cbn [export_part]. by rewrite str_app_nil_r, lower_upper.
  - cbn. rewrite orb_false_r. pose proof (lower_snake _ Hc). by destruct (lower_byte c) as [[] [] [] [] [] [] [] []].
Qed.
Lemma identifier_toSnake e : pascal e = true → identifierPattern (toSnake e) = true.
Proof.
  intros (c & r & -> & Hc & Hr & ->)%pascal_snake. cbn [identifierPattern].
  by rewrite lower_snake, snake_string_bytes.
Qed.

(** Exported names of field names are Go identifiers with a capital. *)
Lemma upper_alnum c : alnum c = true → case_byte upper_byte c = String (upper_byte c) "" ∧ alnum (upper_byte c) = true.
Proof. destruct c as [[] [] [] [] [] [] [] []]; by vm_compute. Qed.
Lemma lower_to_upper c : lower_letter c = true → upper_letter (upper_byte c) = true.
Proof. destruct c as [[] [] [] [] [] [] [] []]; by vm_compute. Qed.
Lemma export_part_alnum p : all_bytes alnum p = true → all_bytes alnum (export_part p) = true.
Proof.
  destruct p as [|c p]; [done|]. cbn [all_bytes export_part]. intros [Hc Hp]%andb_true_iff.
  destruct (upper_alnum _ Hc) as [-> Hu]. rewrite str_app_cons, str_app_nil_l. cbn [all_bytes]. by rewrite Hu.
Qed.
Lemma concat_alnum ps : Forall (λ p, all_bytes alnum p = true) ps → all_bytes alnum (concat_strings (export_part <$> ps)) = true.
Proof.
  induction 1 as [|p ps Hp _ IH]; [done|]. rewrite export_cons, all_bytes_app. by rewrite export_part_alnum, IH.
Qed.
Lemma split_alnum s : all_bytes snake_byte s = true → Forall (λ p, all_bytes alnum p = true) (split s "_").
Proof.
  intros Hs%(all_bytes_split _ _ "_"). rewrite Forall_forall in Hs |- *. intros p Hp. specialize (Hs p Hp). cbn beta in Hs.
  pose proof (split_elem_no_sep _ _ _ Hp) as Hn. clear Hp. induction p as [|c p IH]; [done|].
  cbn in *. apply andb_true_iff in Hs as [Hc Hs]. apply orb_false_iff in Hn as [Hu Hn].
  by rewrite alnum_snake, IH.
Qed.
Lemma pascal_exportName n : identifierPattern n = true → pascal (exportName n) = true.
Proof.
  destruct n as [|c r]; [done|]. cbn [identifierPattern]. intros [Hc Hr]%andb_true_iff.
  assert (all_bytes snake_byte (String c r) = true) as Hall.
  { cbn [all_bytes]. unfold snake_byte at 1. by rewrite Hc. }
  assert (Ascii.eqb c "_" = false) as Hu by by destruct c as [[] [] [] [] [] [] [] []].
  pose proof (split_alnum _ Hall) as Hps. unfold exportName. cbn [split] in *. rewrite Hu in *.
  destruct (split r "_") as [|p ps].
  - apply Forall_cons in Hps as [Hp _]. rewrite export_cons. cbn [export_part].
    cbn [all_bytes] in Hp. apply andb_true_iff in Hp as [Hca _]. destruct (upper_alnum _ Hca) as [-> _].
    rewrite !str_app_cons, !str_app_nil_l. cbn [pascal]. by rewrite lower_to_upper.
  - pose proof Hps as [Hp Hps']%Forall_cons. pose proof (concat_alnum _ Hps) as Hc'. rewrite export_cons in Hc' |- *. cbn [export_part] in *.
    cbn [all_bytes] in Hp. apply andb_true_iff in Hp as [Hca _]. destruct (upper_alnum _ Hca) as [Hcb _]. rewrite Hcb in *.
    rewrite !str_app_cons, !str_app_nil_l in *. cbn [pascal all_bytes] in *. apply andb_true_iff in Hc' as [_ ->].
    by rewrite lower_to_upper.
Qed.

(** The entity's name survives the trip through its file name: the
    snake-case name of a PascalCase entity is a field identifier from which the
    registry rebuilds exactly that entity, so two entities never share a file. *)
Theorem snake_roundtrip e e' :
  pascal e = true → pascal e' = true →
  exportName (toSnake e) = e ∧ identifierPattern (toSnake e) = true ∧ (toSnake e = toSnake e' → e = e').
Proof.
  intros He He'. split_and!; [by apply export_toSnake | by apply identifier_toSnake|].
  intros E. by rewrite <- (export_toSnake e), E, export_toSnake.
Qed.

(** ** The arguments *)

(** A field argument that is accepted, and the row its type stands for. *)
Definition field_argument (f : crudField) : string := Name f +:+ ":" +:+ GoType f.
Definition type_row (f : crudField) : Prop :=
  (GoType f, SQLType f, TestValue f) ∈
    [("string", "TEXT", quote "test"); ("bool", "INTEGER", "true"); ("int", "INTEGER", "1");
     ("int64", "INTEGER", "1"); ("float64", "REAL", "1.5")].
Record field_ok (f : crudField) : Prop := {
  fo_name : identifierPattern (Name f) = true;
  fo_exported : Exported f = exportName (Name f) ∧ pascal (Exported f) = true;
  fo_type : type_row f;
}.
Record fields_ok (fs : list crudField) : Prop := {
  fs_each : Forall field_ok fs;
  fs_distinct : NoDup (Name <$> fs);
}.

Lemma supported_row kind goType sqlType :
  supportedCRUDType kind = Some (goType, sqlType) →
  goType = kind ∧ ∀ n, type_row (mkField n (exportName n) goType sqlType (testValueFor goType)).
Proof.
  unfold supportedCRUDType. repeat (case (String.eqb_spec kind _); [intros ->|intros _]); intros [= <- <-];
    (split; [done|]; intros n; unfold type_row; cbn [GoType SQLType TestValue]; cbn [testValueFor]; set_solver).
Qed.
Lemma row_supported f : type_row f → is_Some (supportedCRUDType (GoType f)).
Proof.
  unfold type_row. rewrite !elem_of_cons. intros [H|[H|[H|[H|[H|[]%elem_of_nil]]]]]; injection H as -> _ _; by eexists.
Qed.
Lemma split2_pair argument n k :
  split2 argument ":" = [n; k] ↔ argument = n +:+ ":" +:+ k ∧ mem_byte ":" n = false.
Proof.
  unfold split2. split.
  - destruct (index_byte argument ":") as [i|] eqn:E; [|done]. intros [= <- <-].
    apply index_byte_Some in E. naive_solver.
  - intros [-> Hn]. rewrite str_app_cons, str_app_nil_l, index_byte_app by done.
    rewrite str_take_app. f_equal. f_equal. change (String ":" k) with (String ":" "" +:+ k). rewrite str_app_assoc.
    replace (S (String.length n)) with (String.length (n +:+ String ":" "")) by (rewrite str_length_app; cbn; lia).
    by rewrite str_drop_app.
Qed.
Lemma identifier_colon n : identifierPattern n = true → mem_byte ":" n = false.
Proof.
  destruct n as [|c r]; [done|]. cbn [identifierPattern]. intros [Hc Hr]%andb_true_iff. cbn [mem_byte].
  rewrite (all_bytes_no snake_byte ":" r) by done. by destruct c as [[] [] [] [] [] [] [] []].
Qed.
Lemma field_ok_unique f g : field_ok f → field_ok g → field_argument f = field_argument g → f = g.
Proof.
  intros [Hn [He _] Ht] [Hn' [He' _] Ht'] E. pose proof (identifier_colon _ Hn) as Hc. pose proof (identifier_colon _ Hn') as Hc'.
  assert ([Name f; GoType f] = [Name g; GoType g]) as [= EN EG].
  { rewrite <- (proj2 (split2_pair (field_argument f) _ _) (conj eq_refl Hc)), E. by apply split2_pair. }
  destruct f, g. cbn in *. subst. f_equal; unfold type_row in *; cbn in *; set_unfold; naive_solver.
Qed.

Lemma existsb_name n seen : existsb (String.eqb n) seen = true ↔ n ∈ seen.
Proof.
  rewrite existsb_exists. split.
  - intros (x & Hx & ->%String.eqb_eq). by apply list_elem_of_In.
  - intros Hn. exists n. split; [by apply list_elem_of_In | apply String.eqb_refl].
Qed.
Lemma parse_fields_spec args seen acc :
  match parse_fields args seen acc with
  | Ok fs => ∃ new, fs = acc ++ new ∧ args = field_argument <$> new ∧ fields_ok new ∧ ∀ f, f ∈ new → Name f ∉ seen
  | Err _ => ∀ new, args = field_argument <$> new → fields_ok new → ∃ f, f ∈ new ∧ Name f ∈ seen
  end.
Proof.
  revert seen acc. induction args as [|a args IH]; intros seen acc; cbn [parse_fields].
  { exists []. split_and!; [by rewrite app_nil_r | done | by repeat constructor | set_solver]. }
  assert (∀ f new, a :: args = field_argument <$> f :: new → fields_ok (f :: new) →
    split2 a ":" = [Name f; GoType f] ∧ identifierPattern (Name f) = true ∧ is_Some (supportedCRUDType (GoType f))) as Hhead.
  { intros f new [= -> _] [[[Hn _ Ht] _]%Forall_cons _]. split_and!; [|done|by apply row_supported].
    apply split2_pair. split; [done|]. by apply identifier_colon. }
  assert ((∀ f new, split2 a ":" = [Name f; GoType f] → identifierPattern (Name f) = true →
      is_Some (supportedCRUDType (GoType f)) → a :: args = field_argument <$> f :: new → fields_ok (f :: new) →
      ∃ g, g ∈ f :: new ∧ Name g ∈ seen) →
    ∀ new, a :: args = field_argument <$> new → fields_ok new → ∃ f, f ∈ new ∧ Name f ∈ seen) as Hbad.
  { intros Hf [|f new] Ha Hok; [done|]. destruct (Hhead f new Ha Hok) as (? & ? & ?). by apply Hf. }
  destruct (split2 a ":") as [|n [|kind [|? ?]]] eqn:Es; try (apply Hbad; intros; congruence).
  destruct (identifierPattern n) eqn:Ei; cbn [negb]; [|apply Hbad; intros f new [= -> ->]; congruence].
  destruct (existsb (String.eqb n) seen) eqn:Ex.
  { apply existsb_name in Ex. apply Hbad. intros f new [= -> ->] _ _ _ _. exists f. split; [by left|done]. }
  destruct (supportedCRUDType kind) as [[goType sqlType]|] eqn:Ek.
  2: { apply Hbad. intros f new [= -> ->] _ [? ?]. congruence. }
  destruct (supported_row _ _ _ Ek) as [-> Hrow]. set (g := mkField n (exportName n) kind sqlType (testValueFor kind)).
  assert (n ∉ seen) as Hns by (rewrite <- existsb_name; congruence).
  assert (field_ok g) as Hg by (split; [done | by split; [|apply pascal_exportName] | apply Hrow]).
  apply split2_pair in Es as [Ea _]. specialize (IH (n :: seen) (acc ++ [g])).
  destruct (parse_fields args (n :: seen) (acc ++ [g])) as [fs|e].
  - destruct IH as (new & -> & -> & [Hnew Hd] & Hseen). exists (g :: new).
    split_and!; [by rewrite <- app_assoc | by rewrite Ea | |].
    + split; [by constructor|]. cbn. constructor; [|done]. intros (f & E & Hf)%list_elem_of_fmap.
      apply (Hseen f Hf). rewrite <- E. set_solver.
    + intros f [->|Hf]%elem_of_cons; [done|]. specialize (Hseen f Hf). set_solver.
  - apply Hbad. intros f new _ _ _ [= E ->] [[Hf Hnew]%Forall_cons [Hnf Hd]%NoDup_cons].
    assert (f = g) as -> by (apply field_ok_unique; [done..|]; by rewrite <- E, Ea).
    destruct (IH new eq_refl) as (h & Hh & [Eh|Hin]%elem_of_cons); [by split| |].
    + exfalso. apply Hnf. cbn [Name g]. rewrite <- Eh. by apply list_elem_of_fmap_2.
    + exists h. set_solver.
Qed.

(** What is generated agrees column by column: the names, the parameters that
    stand for them, and the Go expressions bound to them. *)
Record crud_ok (d : crudData) : Prop := {
  co_entity : pascal (Entity d) = true;
  co_lower : ∀ c r, Entity d = String c r → EntityLower d = String (lower_byte c) r;
  co_table : Table d = toSnake (Entity d) +:+ "s";
  co_fields : fields_ok (Fields d) ∧ Fields d ≠ [];
  co_columns : Columns d = join (Name <$> Fields d) ", ";
  co_arguments : ArgumentList d = join ((λ f, "in." +:+ Exported f) <$> Fields d) ", ";
  co_placeholders : ∃ ps, Placeholders d = join ps ", " ∧ length ps = length (Fields d)
    ∧ ∀ i p, ps !! i = Some p → p = "?" +:+ itoa (Z.of_nat i + 1);
  co_assignments : ∃ l, Assignments d = join l ", " ∧ length l = length (Fields d)
    ∧ ∀ i f, Fields d !! i = Some f → l !! i = Some (Name f +:+ " = ?" +:+ itoa (Z.of_nat i + 1));
  co_scan : ScanArguments d = join ("&item.ID" :: ((λ f, "&item." +:+ Exported f) <$> Fields d)) ", ";
  co_id : IDPlaceholder d = "?" +:+ itoa (Z.of_nat (length (Fields d)) + 1);
}.
Lemma placeholder_eq i : placeholder i = "?" +:+ itoa (Z.of_nat i + 1).
Proof. unfold placeholder. do 2 f_equal. lia. Qed.

Lemma parse_crud_spec args :
  match parseCRUDArgs args with
  | Ok d => crud_ok d ∧ args = Entity d :: (field_argument <$> Fields d)
  | Err _ => ¬ ∃ e fs, args = e :: (field_argument <$> fs) ∧ pascal e = true ∧ fields_ok fs ∧ fs ≠ []
  end.
Proof.
  unfold parseCRUDArgs. destruct args as [|e [|a rest]]; [naive_solver|intros (? & [|] & ? & ? & ? & ?); naive_solver|].
  destruct (pascal e) eqn:Ep; cbn [negb]; [|intros (? & ? & [= -> _] & ? & ?); congruence].
  destruct e as [|c r]; [done|]. cbn [lowerFirst]. pose proof (parse_fields_spec (a :: rest) [] []) as Hs.
  destruct (parse_fields (a :: rest) [] []) as [fs|err]; cbn [res_bind].
  - destruct Hs as (new & -> & Ha & Hok & _). cbn [app]. split; [|cbn [Entity Fields]; by rewrite Ha].
    assert (new ≠ []) as Hne by by intros ->.
    split; cbn [Entity EntityLower Table Fields Columns ArgumentList Placeholders Assignments ScanArguments IDPlaceholder];
      try done.
    + intros ? ? [= <- <-]. unfold case_byte. cbn [pascal] in Ep. apply andb_true_iff in Ep as [Hc _].
      rewrite alnum_ascii by (unfold alnum; by rewrite Hc). by rewrite str_app_cons, str_app_nil_l.
    + eexists. split; [done|]. split; [by rewrite length_imap|]. intros i p.
      rewrite list_lookup_imap. destruct (new !! i); [|done]. intros [= <-]. apply placeholder_eq.
    + eexists. split; [done|]. split; [by rewrite length_imap|]. intros i f Hf.
      rewrite list_lookup_imap, Hf. cbn. unfold assignment. by rewrite placeholder_eq.
    + apply placeholder_eq.
  - intros (e' & fs & [= <- Ha] & _ & Hok & _). destruct (Hs fs Ha Hok) as (f & _ & []%elem_of_nil).
Qed.

(** C30 : the arguments are accepted exactly when they are a PascalCase entity
    followed by one or more distinct lower-snake names with a supported type, and
    nothing of them is lost; every name of the result is a valid identifier,
    every type row is one of the five, and the generated column, parameter,
    assignment, argument and scan lists line up index by index. *)
Theorem parse_crud_exact args :
  match parseCRUDArgs args with
  | Ok d => crud_ok d ∧ args = Entity d :: (field_argument <$> Fields d)
  | Err _ => ¬ ∃ e fs, args = e :: (field_argument <$> fs) ∧ pascal e = true ∧ fields_ok fs ∧ fs ≠ []
  end.
Proof. apply parse_crud_spec. Qed.

(** ** The generated text *)

Definition crud_type : type :=
  TyStruct [("ProjectName", TyString); ("Entity", TyString); ("EntityLower", TyString); ("Table", TyString);
    ("Fields", TySlice (TyStruct [("Name", TyString); ("Exported", TyString); ("GoType", TyString);
                                  ("SQLType", TyString); ("TestValue", TyString)]));
    ("Columns", TyString); ("Placeholders", TyString); ("ArgumentList", TyString); ("ScanArguments", TyString);
    ("Assignments", TyString); ("IDPlaceholder", TyString)].
Lemma crud_value_type d : has_type crud_type (crud_value d).
Proof.
  eexists. split; [reflexivity|]. split_and!; try done; try (eexists; split; [reflexivity|]; by eexists).
  eexists. split; [reflexivity|]. eexists. split; [done|]. apply Forall_fmap, Forall_true. intros f.
  eexists. split; [reflexivity|]. split_and!; try done; (eexists; split; [reflexivity|]; by eexists).
Qed.
Definition crud_templates : list string :=
  [crudModelTemplate; crudRepositoryTemplate; crudRepositoryTestTemplate; crudMigrationTemplate;
   crudHandlerTemplate; crudHandlerTestTemplate].
Lemma crud_templates_typed : forallb (typed crud_type) crud_templates = true.
Proof. by vm_compute. Qed.
Lemma crud_renders d source : source ∈ crud_templates → ∃ s, renderCRUDTemplate source d = Ok s.
Proof.
  intros Hin%list_elem_of_In. apply (typed_render crud_type); [|apply crud_value_type].
  pose proof crud_templates_typed as Ht. rewrite forallb_forall in Ht. by apply Ht.
Qed.

Definition nl : string := String lf "".
Definition create_table (table : string) (columns : list (string * string)) : string :=
  "CREATE TABLE IF NOT EXISTS " +:+ table +:+ " (" +:+ nl +:+
  "    id INTEGER PRIMARY KEY AUTOINCREMENT," +:+ nl +:+
  concat_strings ((λ c, "    " +:+ c.1 +:+ " " +:+ c.2 +:+ " NOT NULL," +:+ nl) <$> columns) +:+
  "    created_at TEXT NOT NULL DEFAULT CURRENT_TIMESTAMP" +:+ nl +:+ ");" +:+ nl.
(** Go source text around the lists of [crudData]. *)
Definition insert_call (entity table columns params arguments : string) : string :=
  text "QueryRowContext(ctx, ~INSERT INTO " +:+ table +:+ " (" +:+ columns +:+ ") VALUES ("
  +:+ params +:+ text ") RETURNING ~+" +:+ entity +:+ "Columns, " +:+ arguments +:+ ")".
Definition update_call (entity table assignments id_param arguments : string) : string :=
  text "QueryRowContext(ctx, ~UPDATE " +:+ table +:+ " SET " +:+ assignments +:+ " WHERE id = "
  +:+ id_param +:+ text " RETURNING ~+" +:+ entity +:+ "Columns, " +:+ arguments +:+ ", id)".
Definition columns_const (entity columns : string) : string :=
  "const " +:+ entity +:+ text "Columns = ~id, " +:+ columns +:+ text ", created_at~".
Definition scan_call (targets : string) : string := "row.Scan(" +:+ targets +:+ ", &createdAt)".

Definition nodes_of (source : string) : list tnode := match parse source with Ok ns => ns | Err _ => [] end.
Lemma exec_infix i k ns v m out :
  exec (take k (drop i ns)) v = Ok m → exec ns v = Ok out → ∃ a b, out = a +:+ m +:+ b.
Proof.
  intros Hm. rewrite <- (take_drop i ns) at 1. rewrite <- (take_drop k (drop i ns)).
  rewrite !exec_app, Hm. unfold cat. destruct (exec (take i ns) v) as [a|], (exec (drop k (drop i ns)) v) as [b|]; cbn; try done.
  intros [= <-]. by eexists _, _.
Qed.
Lemma contains_infix out a m b x y s : out = a +:+ m +:+ b → m = x +:+ s +:+ y → contains out s = true.
Proof.
  intros -> ->. rewrite <- !str_app_assoc, (str_app_assoc a x). apply contains_app.
Qed.

Lemma migration_text d :
  renderCRUDTemplate crudMigrationTemplate d = Ok (create_table (Table d) ((λ f, (Name f, SQLType f)) <$> Fields d)).
Proof.
  unfold renderCRUDTemplate, render. replace (parse crudMigrationTemplate) with (Ok (nodes_of crudMigrationTemplate)) by by vm_compute.
  cbn [res_bind]. let ns := eval vm_compute in (nodes_of crudMigrationTemplate) in change (nodes_of crudMigrationTemplate) with ns.
  rewrite !exec_cons, exec_nil.
  erewrite exec_range with (f := λ v, match v with
    | VStruct [(_, VString n); _; _; (_, VString t); _] => "    " +:+ n +:+ " " +:+ t +:+ " NOT NULL," +:+ nl
    | _ => "" end); [|reflexivity|].
  2: { intros v (f & -> & _)%list_elem_of_fmap. reflexivity. }
  cbn [exec_node eval_pipeline crud_value member res_bind String.eqb Ascii.eqb Bool.eqb].
  unfold cat, res_bind. f_equal. unfold create_table. rewrite <- !list_fmap_compose. reflexivity.
Qed.

(** A slice [i, i+k) of the nodes of a template, with [a] bytes more at its front
    and [b] more at its back than the text looked for. *)
Definition clip (a b : nat) (s : string) : string := str_take (String.length s - a - b) (str_drop a s).
Lemma render_contains source d out i k x s y :
  renderCRUDTemplate source d = Ok out →
  exec (take k (drop i (nodes_of source))) (crud_value d) = Ok (x +:+ s +:+ y) → contains out s = true.
Proof.
  unfold renderCRUDTemplate, render, nodes_of. destruct (parse source) as [ns|]; [|done]. cbn [res_bind].
  intros Ho Hm. destruct (exec_infix _ _ _ _ _ _ Hm Ho) as (a & b & ->). by eapply contains_infix.
Qed.
(** The text a slice begins with up to [mark], and the text after [len] bytes of
    its last node. *)
Definition text_of (n : tnode) : string := match n with NText s => s | _ => "" end.
Definition before_mark (n : tnode) (mark : string) : string :=
  str_take (String.length (text_of n) - String.length mark) (text_of n).
Definition repo_node (i : nat) : tnode := default (NText "") (nodes_of crudRepositoryTemplate !! i).

Ltac right_text :=
  unfold columns_const, insert_call, update_call, scan_call; rewrite <- !str_app_assoc; vm_compute; reflexivity.
Lemma repository_text d out :
  renderCRUDTemplate crudRepositoryTemplate d = Ok out →
  contains out (columns_const (EntityLower d) (Columns d)) = true
  ∧ contains out (insert_call (EntityLower d) (Table d) (Columns d) (Placeholders d) (ArgumentList d)) = true
  ∧ contains out (update_call (EntityLower d) (Table d) (Assignments d) (IDPlaceholder d) (ArgumentList d)) = true
  ∧ contains out (scan_call (ScanArguments d)) = true.
Proof.
  intros Ho. destruct d. split_and!.
  - eapply (render_contains _ _ _ 2 5 (before_mark (repo_node 2) "const ") _ (str_drop 13 (text_of (repo_node 6))) Ho).
    right_text.
  - eapply (render_contains _ _ _ 24 11 (before_mark (repo_node 24) (text "QueryRowContext(ctx, ~INSERT INTO ")) _
      (str_drop 1 (text_of (repo_node 34))) Ho). right_text.
  - eapply (render_contains _ _ _ 76 11 (before_mark (repo_node 76) (text "QueryRowContext(ctx, ~UPDATE ")) _
      (str_drop 5 (text_of (repo_node 86))) Ho). right_text.
  - eapply (render_contains _ _ _ 108 3 (before_mark (repo_node 108) "row.Scan(") _
      (str_drop 13 (text_of (repo_node 110))) Ho). right_text.
Qed.

(** For accepted arguments every template renders.  The migration creates
    the table with the fields' columns in order between the identity and the
    creation time; the repository selects exactly those columns, inserts and
    updates them by numbered parameters bound in the same order, the last one to
    the identity, and scans a row into the fields in that order. *)
Theorem crud_text_aligned args d project :
  parseCRUDArgs args = Ok d →
  let d := with_project d project in
  let names := Name <$> Fields d in
  let n := Z.of_nat (length names) in
  let values := join ((λ f, "in." +:+ Exported f) <$> Fields d) ", " in
  (∀ source, source ∈ crud_templates → ∃ out, renderCRUDTemplate source d = Ok out)
  ∧ renderCRUDTemplate crudMigrationTemplate d = Ok (create_table (Table d) (zip names (SQLType <$> Fields d)))
  ∧ ∀ out, renderCRUDTemplate crudRepositoryTemplate d = Ok out →
    contains out (columns_const (EntityLower d) (join names ", ")) = true
    ∧ contains out (insert_call (EntityLower d) (Table d) (join names ", ")
                      (join ((λ i, "?" +:+ itoa i) <$> seqZ 1 n) ", ") values) = true
    ∧ contains out (update_call (EntityLower d) (Table d)
                      (join (zip_with (λ c i, c +:+ " = ?" +:+ itoa i) names (seqZ 1 n)) ", ")
                      ("?" +:+ itoa (n + 1)) values) = true
    ∧ contains out (scan_call (join ("&item.ID" :: ((λ f, "&item." +:+ Exported f) <$> Fields d)) ", ")) = true.
Proof.
  intros E. pose proof (parse_crud_spec args) as Hs. rewrite E in Hs.
  destruct Hs as [[He Hlow Ht [Hf Hne] Hc Ha (ps & Hp & Hpl & Hpi) (l & Hl & Hll & Hli) Hsc Hid] _]. clear E.
  cbv zeta. split_and!; [intros; by apply crud_renders| |].
  - rewrite migration_text. do 2 f_equal. cbn [with_project Fields]. clear. induction (Fields d); cbn; congruence.
  - intros out (H1 & H2 & H3 & H4)%repository_text. cbn [with_project Fields Table EntityLower Columns Placeholders ArgumentList Assignments IDPlaceholder ScanArguments] in *.
    rewrite Hc in H1, H2. rewrite Ha in H2, H3. rewrite Hsc in H4. rewrite Hid in H3. rewrite length_fmap.
    replace ((λ i, "?" +:+ itoa i) <$> seqZ 1 (Z.of_nat (length (Fields d)))) with ps.
    2: { apply list_eq_same_length with (length ps); rewrite ?length_fmap, ?length_seqZ; [lia..|].
         intros i x y Hi Hx. rewrite list_lookup_fmap, lookup_seqZ_lt by lia. cbn. intros [= <-].
         rewrite (Hpi i x Hx). do 2 f_equal. lia. }
    replace (zip_with _ _ _) with l; [by rewrite <- Hp, <- Hl|].
    apply list_eq_same_length with (length l); rewrite ?length_zip_with, ?length_fmap, ?length_seqZ; [lia..|].
    intros i x y Hi Hx. rewrite lookup_zip_with, list_lookup_fmap, lookup_seqZ_lt by lia.
    destruct (Fields d !! i) as [f|] eqn:Ef; [|apply lookup_ge_None in Ef; lia]. cbn. intros [= <-].
    rewrite (Hli i f Ef) in Hx. injection Hx as <-. by replace (Z.of_nat i + 1)%Z with (1 + Z.of_nat i)%Z by lia.
Qed.

Definition demo_args : list string := ["ApiKey"; "name:string"; "uses_left:int64"].
Definition crud_of (args : list string) : crudData :=
  match parseCRUDArgs args with Ok d => d | Err _ => mkData "" "" "" "" [] "" "" "" "" "" "" end.
Definition demo_crud : crudData := crud_of demo_args.

(** ** The files *)

(** A link is not written through. *)
Definition keeps_link (p : path) : relation (gmap path node) :=
  λ t t', t !! p = Some Symlink → t' !! p = Some Symlink.
#[local] Instance keeps_link_preorder p : PreOrder (keeps_link p).
Proof. split; [intros t Hp; exact Hp | intros t1 t2 t3 H1 H2 Hp; by apply H2, H1]. Qed.
Lemma extends_keeps_link p t t' : extends t t' → keeps_link p t t'.
Proof. intros He Hp. apply (He p Symlink); [set_solver | exact Hp]. Qed.
Lemma writeFile_keeps_link q p c m : relates (keeps_link q) (writeFile p c m).
Proof.
  intros fs Hq. destruct (decide (p = q)) as [->|Hne].
  - unfold writeFile, bind. destruct (next_fault_eq fs) as (o & fs1 & -> & Ht & _). cbn.
    rewrite Ht. destruct (find_node (tree fs) q) as [i|e] eqn:E; cbn; [|congruence].
    apply find_node_Ok in E. rewrite Hq in E. subst i. cbn. congruence.
  - apply (relates_writeFile [p] p c m); [set_solver..|exact Hq].
Qed.
#[local] Hint Resolve writeFile_keeps_link : relates.

Lemma refuse_existing_unchanged paths : relates unchanged (refuse_existing paths).
Proof. induction paths; cbn [refuse_existing]; relates_steps. Qed.
Lemma refuse_handler_unchanged path : relates unchanged (refuse_handler path).
Proof. unfold refuse_handler. relates_steps. Qed.
Lemma make_all_extends dirs : relates extends (make_all dirs).
Proof. induction dirs; cbn [make_all]; relates_steps. Qed.
Lemma render_all_relates (R : relation (gmap path node)) `{!PreOrder R} d files :
  (∀ f c, f ∈ files → relates R (writeFile (parts f.1) c 420)) → relates R (render_all d files).
Proof.
  intros Hf. induction files as [|[p source] files IH]; cbn [render_all]; [relates_steps|].
  apply relates_bind; [exact _ | relates_steps|]. intros c.
  apply relates_bind; [exact _ | apply relates_wrap, (Hf (p, source)), list_elem_of_here|]. intros _. apply IH.
  intros f c' Hin. by apply Hf, list_elem_of_further.
Qed.
Lemma registry_relates (R : relation (gmap path node)) `{!PreOrder R} project :
  (∀ c, relates R (writeFile (parts registry_path) c 420)) → relates R (writeCRUDRouteRegistry project).
Proof. intros Hf. unfold writeCRUDRouteRegistry. relates_steps. Qed.

Lemma refuse_existing_Ok paths fs fs' a :
  refuse_existing paths fs = (fs', Ok a) → ∀ p, p ∈ paths → tree fs !! parts p = None.
Proof.
  revert fs. induction paths as [|q paths IH]; intros fs; cbn [refuse_existing]; [set_solver|].
  intros (fs1 & i & Hs & Hk)%bind_Ok p Hp. apply stat_Ok in Hs as [Ht Hi%find_node_Ok].
  destruct i; [done|]. apply elem_of_cons in Hp as [->|Hp]; [done|]. rewrite <- Ht. by eapply IH.
Qed.

(** Where the files are. *)
Lemma parts_Join l : Forall name_component l → l ≠ [] → parts (filepath_Join l) = l.
Proof.
  intros Hl Hne. unfold filepath_Join. rewrite (List.forallb_filter_id _ l).
  2: { apply forallb_forall. intros x Hx%list_elem_of_In. rewrite Forall_forall in Hl.
       destruct (Hl x Hx) as (Hx' & _). by apply negb_true_iff, String.eqb_neq. }
  destruct l as [|c l]; [done|]. unfold parts. rewrite (Clean_join (c :: l)), Clean_join by done.
  apply split_join; [done|]. intros x Hx. rewrite Forall_forall in Hl. by apply Hl.
Qed.
Lemma filepath_Join_names l : Forall name_component l → l ≠ [] → filepath_Join l = join l "/".
Proof.
  intros Hl Hne. unfold filepath_Join. rewrite (List.forallb_filter_id _ l).
  2: { apply forallb_forall. intros x Hx%list_elem_of_In. rewrite Forall_forall in Hl.
       destruct (Hl x Hx) as (Hx' & _). by apply negb_true_iff, String.eqb_neq. }
  destruct l as [|c l]; [done|]. by apply Clean_join.
Qed.
Definition plain_byte (c : ascii) : bool := snake_byte c || Ascii.eqb c ".".
Lemma plain_name s : all_bytes plain_byte s = true → s ≠ "" → has_prefix s "." = false → name_component s.
Proof.
  intros Hs Hne Hd. split_and!; [done | by intros -> | by intros -> |]. by eapply all_bytes_no.
Qed.
Lemma snake_file e prefix suffix :
  pascal e = true → all_bytes plain_byte prefix = true → all_bytes plain_byte suffix = true →
  has_prefix prefix "." = false → name_component (prefix +:+ toSnake e +:+ suffix).
Proof.
  intros He Hp Hs Hd. pose proof (identifier_toSnake e He) as Hi. destruct (toSnake e) as [|c r]; [done|].
  cbn [identifierPattern] in Hi. apply andb_true_iff in Hi as [Hc Hr]. apply plain_name.
  - rewrite !all_bytes_app, Hp, Hs. cbn [all_bytes andb]. unfold plain_byte at 1, snake_byte at 1. rewrite Hc. cbn [orb andb].
    rewrite andb_true_r. eapply all_bytes_impl; [|done]. intros ? H. unfold plain_byte. by rewrite H.
  - by destruct prefix.
  - destruct prefix as [|d prefix]; [|done]. rewrite str_app_nil_l, str_app_cons. cbn.
    by destruct c as [[] [] [] [] [] [] [] []].
Qed.

Definition slice_paths (e : string) : list path :=
  [["models"; toSnake e +:+ ".go"]; ["internal"; "database"; toSnake e +:+ "_repository.go"];
   ["internal"; "database"; toSnake e +:+ "_repository_test.go"];
   ["migrations"; "002_create_" +:+ toSnake e +:+ "s.sql"]].
Definition handler_node (e : string) : path := ["handlers"; toSnake e +:+ "_handler.go"].
Definition handler_test_node (e : string) : path := ["handlers"; toSnake e +:+ "_handler_test.go"].
Definition registry_node : path := ["handlers"; "routes_gen.go"].

Lemma registry_parts : parts registry_path = registry_node.
Proof. by vm_compute. Qed.
Lemma fixed_name s : all_bytes plain_byte s && negb (String.eqb s "") && negb (has_prefix s ".") = true → name_component s.
Proof.
  intros [[H1 H2]%andb_true_iff H3]%andb_true_iff. apply plain_name; [done| |by apply negb_true_iff].
  by apply String.eqb_neq, negb_true_iff.
Qed.
Lemma suffix_name e suffix : pascal e = true → all_bytes plain_byte suffix = true → name_component (toSnake e +:+ suffix).
Proof. intros. apply (snake_file e ""); done. Qed.
Ltac name_components :=
  repeat first [ apply Forall_cons; split | apply Forall_nil; exact I
               | apply suffix_name; [done | reflexivity] | apply fixed_name; reflexivity ].
Lemma slice_parts d :
  pascal (Entity d) = true → Table d = toSnake (Entity d) +:+ "s" →
  parts <$> (crud_files d).*1 = slice_paths (Entity d) ∧ parts (handler_path d) = handler_node (Entity d)
  ∧ parts (handler_test_path d) = handler_test_node (Entity d).
Proof.
  intros He Ht. assert (name_component ("002_create_" +:+ toSnake (Entity d) +:+ "s.sql")) as Hm by by apply snake_file.
  split_and!.
  - unfold crud_files, slice_paths. rewrite Ht, <- str_app_assoc. cbn [fmap list_fmap fst].
    rewrite !parts_Join; [done|..]; try done; by name_components.
  - apply parts_Join; [by name_components | done].
  - unfold handler_test_path, handler_path. rewrite filepath_Join_names; [|by name_components|done]. cbn [join].
    replace ("handlers" +:+ "/" +:+ toSnake (Entity d) +:+ "_handler.go")
      with (("handlers" +:+ "/" +:+ toSnake (Entity d) +:+ "_handler") +:+ ".go") by by rewrite <- !str_app_assoc.
    rewrite str_length_app, Nat.add_sub, str_take_app.
    replace (("handlers" +:+ "/" +:+ toSnake (Entity d) +:+ "_handler") +:+ "_test.go")
      with (filepath_Join ["handlers"; toSnake (Entity d) +:+ "_handler_test.go"]).
    + apply parts_Join; [by name_components | done].
    + rewrite filepath_Join_names; [|by name_components|done]. cbn [join]. by rewrite <- !str_app_assoc.
Qed.

Section Files.
Context (stat_order write_order handler_order : list (string * string) → list (string * string)).
Context (Hstat : ∀ l, stat_order l ≡ₚ l) (Hwrite : ∀ l, write_order l ≡ₚ l) (Hhandler : ∀ l, handler_order l ≡ₚ l).
Abbreviation write_slice := (writeCRUDFiles stat_order write_order handler_order).

(** The steps after the two refusals. *)
Definition emit (d : crudData) : M unit :=
  do* make_all crud_dirs in
  do* render_all d (handler_order (handler_files d)) in
  do* render_all d (write_order (crud_files d)) in
  writeCRUDRouteRegistry (ProjectName d).
Definition emitted (d : crudData) : list path :=
  [registry_node; parts (handler_path d); parts (handler_test_path d)] ++ (parts <$> (crud_files d).*1).

Lemma emit_relates (R : relation (gmap path node)) `{!PreOrder R} d :
  (∀ t t', extends t t' → R t t') → (∀ p c, p ∈ emitted d → relates R (writeFile p c 420)) → relates R (emit d).
Proof using Hstat Hwrite Hhandler.
  intros He Hf. unfold emit. apply relates_bind; [exact _ | |intros _].
  { eapply relates_weaken; [exact He | apply make_all_extends]. }
  apply relates_bind; [exact _ | |intros _].
  { apply render_all_relates; [done|]. intros f c Hin. apply Hf. rewrite Hhandler in Hin.
    unfold handler_files in Hin. unfold emitted. set_unfold. naive_solver. }
  apply relates_bind; [exact _ | |intros _].
  { apply render_all_relates; [done|]. intros f c Hin. apply Hf. rewrite Hwrite in Hin. unfold emitted.
    apply elem_of_app. right. by apply list_elem_of_fmap_2, list_elem_of_fmap_2. }
  apply registry_relates; [done|]. intros c. rewrite registry_parts. apply Hf. unfold emitted. set_solver.
Qed.
Lemma emit_replaces d : relates (replaces (emitted d)) (emit d).
Proof using Hstat Hwrite Hhandler.
  apply emit_relates; [exact _ | |].
  - intros t t'. apply replaces_mono. set_solver.
  - intros p c Hp. by apply relates_writeFile.
Qed.
Lemma emit_keeps_link p d : relates (keeps_link p) (emit d).
Proof using Hstat Hwrite Hhandler.
  apply emit_relates; [exact _ | |].
  - intros t t'. apply extends_keeps_link.
  - intros q c _. apply writeFile_keeps_link.
Qed.

Lemma replaces_drop ps ps' t t' :
  (∀ p, p ∈ ps → t !! p = None) → replaces (ps' ++ ps) t t' → replaces ps' t t'.
Proof.
  intros Hn Hr q n Hq Hqn. apply Hr; [|done]. intros [?|Hin]%elem_of_app; [done|].
  rewrite (Hn q Hin) in Hqn. done.
Qed.
Lemma write_slice_replaces d :
  relates (replaces [registry_node; parts (handler_path d); parts (handler_test_path d)]) (write_slice d).
Proof using Hstat Hwrite Hhandler.
  intros fs. unfold writeCRUDFiles. unfold bind at 1.
  pose proof (refuse_existing_unchanged (stat_order (crud_files d)).*1 fs) as Hu.
  destruct (refuse_existing _ fs) as [fs1 [[]|e]] eqn:E; cbn [fst] in Hu; [|by rewrite Hu].
  assert (∀ p, p ∈ parts <$> (crud_files d).*1 → tree fs1 !! p = None) as Hnone.
  { intros p (q & -> & Hq)%list_elem_of_fmap. rewrite <- Hu. eapply (refuse_existing_Ok _ _ _ _ E).
    by rewrite Hstat. }
  rewrite Hu. unfold bind at 1. pose proof (refuse_handler_unchanged (handler_path d) fs1) as Hu2.
  destruct (refuse_handler _ fs1) as [fs2 [[]|e]]; cbn [fst] in Hu2; [|by rewrite Hu2].
  rewrite Hu2 in Hnone |- *. apply (replaces_drop _ _ _ _ Hnone). apply (emit_replaces d fs2).
Qed.

(** A run in which no call fails stays one. *)
Definition quietly {A} (m : M A) : Prop := ∀ fs, faults fs = [] → faults (m fs).1 = [].
Lemma quietly_bind {A B} (m : M A) (k : A → M B) : quietly m → (∀ a, quietly (k a)) → quietly (bind m k).
Proof using Type.
  intros Hm Hk fs Hf. unfold bind. specialize (Hm fs Hf). destruct (m fs) as [fs1 [a|e]]; [by apply Hk | done].
Qed.
Lemma quietly_next : quietly next_fault.
Proof using Type. intros fs Hf. unfold next_fault. by rewrite Hf. Qed.
Ltac quiet_end := hnf; intros; cbn; assumption.
Lemma quietly_stat p : quietly (stat p).
Proof using Type.
  apply quietly_bind; [apply quietly_next|]. intros o. destruct (io_error o); [quiet_end|].
  apply quietly_bind; [quiet_end|intros t]. destruct (find_node t p) as [[[]|]|]; quiet_end.
Qed.
Lemma quietly_readFile p : quietly (readFile p).
Proof using Type.
  apply quietly_bind; [apply quietly_next|]. intros o. destruct (io_error o); [quiet_end|]. apply quietly_bind; [quiet_end|intros; quiet_end].
Qed.
Lemma quietly_attempt {A} (m : M A) : quietly m → quietly (attempt m).
Proof using Type. intros Hm fs Hf. unfold attempt. specialize (Hm fs Hf). by destruct (m fs). Qed.
Lemma quietly_refuse paths : quietly (refuse_existing paths).
Proof using Type.
  induction paths as [|p paths IH]; [quiet_end|]. cbn [refuse_existing]. apply quietly_bind; [apply quietly_stat|].
  intros []; [quiet_end|exact IH].
Qed.
Lemma quietly_require : quietly requireMVCProject.
Proof using Type.
  apply quietly_bind; [apply quietly_attempt, quietly_readFile|]. intros [c|]; [|quiet_end]. destruct (negb _); [quiet_end|].
  apply quietly_bind; [apply quietly_attempt, quietly_stat|]. intros [[]|]; quiet_end.
Qed.
Lemma quietly_module : quietly currentModuleName.
Proof using Type. apply quietly_bind; [apply quietly_readFile|]. intros c. destruct (omap _ _); quiet_end. Qed.

(** When the handler is there and no call fails, it is refused, or it is out of
    reach, or it is a link. *)
Lemma mkdirAll_not_dir fs c n :
  tree fs !! [c] = Some n → n ≠ Dir → ∃ fs' e, mkdirAll [c] fs = (fs', Err e) ∧ tree fs' = tree fs.
Proof using Type.
  intros Hn Hd. unfold mkdirAll. destruct (next_fault_eq fs) as (o & fs1 & -> & Ht & _). rewrite Ht.
  change (prefixes [c]) with [[c]]. cbn [make_dirs]. rewrite Hn.
  destruct n; try done; destruct (io_error o); by do 2 eexists.
Qed.
Lemma handlers_not_dir fs n :
  tree fs !! ["handlers"] = Some n → n ≠ Dir → ∃ fs' e, make_all crud_dirs fs = (fs', Err e) ∧ tree fs' = tree fs.
Proof using Type.
  intros Hn Hd. cbn [make_all crud_dirs]. unfold bind at 1. change (parts "handlers") with ["handlers"].
  destruct (mkdirAll_not_dir _ _ _ Hn Hd) as (fs' & e & -> & Ht). by exists fs', e.
Qed.
Lemma refuse_handler_quiet path fs :
  faults fs = [] → refuse_handler path fs =
    (fs, match find_node (tree fs) (parts path) with
         | Ok (Some n) => if is_symlink n then Ok tt else Err ("refusing to overwrite existing file " +:+ path)
         | _ => Ok tt
         end).
Proof using Type.
  intros Hf. unfold refuse_handler, bind, attempt. rewrite stat_run by done.
  by destruct (find_node (tree fs) (parts path)) as [[[]|]|].
Qed.
Lemma handler_refused d fs n :
  faults fs = [] → parts (handler_path d) = handler_node (Entity d) → tree fs !! handler_node (Entity d) = Some n →
  tree ((do* refuse_handler (handler_path d) in emit d) fs).1 !! handler_node (Entity d) = Some n.
Proof using Hstat Hwrite Hhandler.
  intros Hf Hp Hn. unfold bind. rewrite refuse_handler_quiet, Hp by done.
  destruct (find_node (tree fs) (handler_node (Entity d))) as [i|e] eqn:E.
  - apply find_node_Ok in E. rewrite Hn in E. subst i. destruct (is_symlink n) eqn:El; [|exact Hn].
    destruct n; try done. by apply (emit_keeps_link (handler_node (Entity d)) d fs).
  - unfold find_node in E. change (prefixes (dirname (handler_node (Entity d)))) with [["handlers"]] in E.
    cbn [walk_parents] in E. unfold emit. unfold bind at 1.
    assert (∃ m, tree fs !! ["handlers"] = Some m ∧ m ≠ Dir) as (m & Hm & Hd).
    { destruct (tree fs !! ["handlers"]) as [[]|]; eauto; done. }
    destruct (handlers_not_dir fs m Hm Hd) as (fs1 & e' & -> & Ht). cbn [fst]. by rewrite Ht.
Qed.
Lemma write_slice_handler d fs n :
  faults fs = [] → parts (handler_path d) = handler_node (Entity d) → tree fs !! handler_node (Entity d) = Some n →
  tree (write_slice d fs).1 !! handler_node (Entity d) = Some n.
Proof using Hstat Hwrite Hhandler.
  intros Hf Hp Hn. unfold writeCRUDFiles. unfold bind at 1.
  pose proof (refuse_existing_unchanged (stat_order (crud_files d)).*1 fs) as Hu.
  pose proof (quietly_refuse (stat_order (crud_files d)).*1 fs Hf) as Hq.
  destruct (refuse_existing _ fs) as [fs1 [[]|e]]; cbn [fst] in *; rewrite Hu in Hn; [|done].
  by apply handler_refused.
Qed.

(** Whatever the order of iteration and whichever calls fail, generation
    leaves every node of the project that was there as it was, except the registry
    and the two handler files of the entity; arguments that are refused change
    nothing; and when no call fails the handler itself is never replaced. *)
Theorem crud_keeps_files args fs :
  let fs' := (RunGenerateCRUD stat_order write_order handler_order args fs).1 in
  match parseCRUDArgs args with
  | Err _ => tree fs' = tree fs
  | Ok d =>
      replaces [registry_node; handler_node (Entity d); handler_test_node (Entity d)] (tree fs) (tree fs')
      ∧ (faults fs = [] → replaces [registry_node; handler_test_node (Entity d)] (tree fs) (tree fs'))
  end.
Proof using Hstat Hwrite Hhandler.
  unfold RunGenerateCRUD. pose proof (parse_crud_spec args) as Hp. destruct (parseCRUDArgs args) as [d|e]; [|done].
  destruct Hp as [Hd _]. set (ps := [registry_node; _; _]).
  assert (∀ m : M string, relates (replaces ps) m → (∀ fs n, faults fs = [] → tree fs !! handler_node (Entity d) = Some n →
      tree (m fs).1 !! handler_node (Entity d) = Some n) →
    replaces ps (tree fs) (tree (m fs).1) ∧ (faults fs = [] → replaces [registry_node; handler_test_node (Entity d)] (tree fs) (tree (m fs).1)))
    as Hboth.
  { intros m Hm Hh. split; [apply Hm|]. intros Hf q n Hq Hn. destruct (decide (q = handler_node (Entity d))) as [->|Hne].
    - by apply Hh.
    - apply Hm; [|done]. unfold ps. set_solver. }
  assert (∀ name, pascal (Entity (with_project d name)) = true ∧ Table (with_project d name) = toSnake (Entity (with_project d name)) +:+ "s") as Hname
    by (intros; split; apply Hd).
  apply Hboth.
  - apply relates_bind; [exact _ | apply relates_unchanged_replaces; unfold requireMVCProject; relates_steps|]. intros [[]|e]; [|relates_steps].
    apply relates_bind; [exact _ | apply relates_unchanged_replaces; unfold currentModuleName; relates_steps|]. intros [name|e]; [|relates_steps].
    apply relates_bind; [exact _ | |intros [[]|e]; relates_steps]. apply relates_attempt.
    destruct (slice_parts (with_project d name) (proj1 (Hname name)) (proj2 (Hname name))) as (_ & Hh & Ht).
    pose proof (write_slice_replaces (with_project d name)) as Hr. by rewrite Hh, Ht in Hr.
  - clear Hboth fs. intros fs n Hf Hn. unfold bind at 1.
    pose proof (quietly_attempt _ quietly_require fs Hf) as Hq1.
    assert (relates unchanged (attempt requireMVCProject)) as Hu1 by (unfold requireMVCProject; relates_steps).
    specialize (Hu1 fs). destruct (attempt requireMVCProject fs) as [fs1 [[[]|e]|e]]; cbn in *; try by rewrite <- Hu1.
    rewrite Hu1 in Hn. unfold bind at 1. pose proof (quietly_attempt _ quietly_module fs1 Hq1) as Hq2.
    assert (relates unchanged (attempt currentModuleName)) as Hu2 by (unfold currentModuleName; relates_steps).
    specialize (Hu2 fs1). destruct (attempt currentModuleName fs1) as [fs2 [[name|e]|e]]; cbn in *; try by rewrite <- Hu2.
    rewrite Hu2 in Hn. unfold bind, attempt.
    destruct (slice_parts (with_project d name) (proj1 (Hname name)) (proj2 (Hname name))) as (_ & Hh & _).
    pose proof (write_slice_handler (with_project d name) fs2 n Hq2 Hh Hn) as Hk.
    by destruct (write_slice (with_project d name) fs2) as [fs3 []].
Qed.
End Files.

(** ** The registry *)

Lemma segments_text s r :
  mem_byte "{" s = false →
  segments false (s +:+ r) = match segments false r with Some (t, ts) => Some (s +:+ t, ts) | None => None end.
Proof.
  induction s as [|c s IH].
  - intros _. rewrite str_app_nil_l. by destruct (segments false r) as [[]|].
  - cbn [mem_byte]. intros [Hc Hs]%orb_false_iff. rewrite str_app_cons. cbn [segments].
    replace (at_delim false (String c (s +:+ r))) with false.
    + rewrite IH by done. by destruct (segments false r) as [[]|].
    + symmetry. cbn [at_delim]. rewrite Ascii.eqb_sym in Hc. destruct (s +:+ r); [done|]. by rewrite Ascii.eqb_sym, Hc.
Qed.
Lemma quote_byte_brace c : mem_byte "{" (quote_byte c) = Ascii.eqb c "{".
Proof. destruct c as [[] [] [] [] [] [] [] []]; by vm_compute. Qed.
Lemma quote_brace s : mem_byte "{" (quote s) = mem_byte "{" s.
Proof.
  unfold quote. rewrite !mem_byte_app. change (mem_byte "{" dquote) with false. rewrite orb_false_r. cbn [orb].
  induction s as [|c s IH]; [done|]. cbn [quote_body]. rewrite mem_byte_app, IH, quote_byte_brace. done.
Qed.

Definition runtime_marker : string := "__RUNTIME_IMPORT__".
Definition registry_head : string := str_take (default 0 (index tmplSrc runtime_marker)) tmplSrc.
Definition registry_rest : string :=
  str_drop (default 0 (index tmplSrc runtime_marker) + String.length runtime_marker) tmplSrc.
Definition registry_mid : string :=
  match segments false registry_rest with Some (t, _) => t | None => "" end.
Definition tab : string := String (ascii_of_N 9) "".
Definition registry_text (project : string) (entities : list string) : string :=
  registry_head +:+ quote (project +:+ "/pkg/runtime") +:+ registry_mid
  +:+ concat_strings ((λ e, tab +:+ "register" +:+ e +:+ "Routes(registrar, db)" +:+ nl) <$> entities) +:+ "}" +:+ nl.

Lemma registry_render project entities :
  mem_byte "{" project = false →
  renderCRUDRouteRegistry tmplSrc project entities = Ok (registry_text project entities).
Proof.
  intros Hp. unfold renderCRUDRouteRegistry. set (q := quote (project +:+ "/pkg/runtime")).
  assert (mem_byte "{" q = false) as Hq by (unfold q; by rewrite quote_brace, mem_byte_app, Hp).
  replace (ReplaceAll tmplSrc "__RUNTIME_IMPORT__" q) with (registry_head +:+ q +:+ registry_rest) by (vm_compute; reflexivity).
  assert (parse (registry_head +:+ q +:+ registry_rest)
    = Ok [NText (registry_head +:+ q +:+ registry_mid);
          NRange None [NText (tab +:+ "register"); NPrint None; NText ("Routes(registrar, db)" +:+ nl)];
          NText ("}" +:+ nl)]) as Hparse.
  { unfold parse, lex. rewrite segments_text, segments_text by (done || by vm_compute). clearbody q. by vm_compute. }
  unfold render. rewrite Hparse. cbn [res_bind]. rewrite !exec_cons, exec_nil.
  erewrite exec_range with (f := λ v, match v with
    | VString e => tab +:+ "register" +:+ e +:+ "Routes(registrar, db)" +:+ nl
    | _ => "" end); [|reflexivity|].
  2: { intros v (e & -> & _)%list_elem_of_fmap. reflexivity. }
  cbn [exec_node]. unfold cat, res_bind. f_equal. unfold registry_text. fold q. rewrite <- list_fmap_compose, str_app_nil_r, <- !str_app_assoc. done.
Qed.

(** What the registry is computed from: the files named after a handler. *)
Definition handler_file (x : string) : string := x +:+ "_handler.go".
Definition handler_stem (entry : string * bool) : option string :=
  if entry.2 || negb (has_suffix entry.1 "_handler.go") then None else Some (trim_suffix entry.1 "_handler.go").
Definition handler_stems (t : gmap path node) : list string :=
  omap handler_stem (dir_entry t ["handlers"] <$> children t ["handlers"]).
Lemma handler_entity_stem (entries : list (string * bool)) : omap handler_entity entries = exportName <$> omap handler_stem entries.
Proof.
  induction entries as [|entry entries IH]; [done|]. cbn [omap list_omap]. rewrite IH.
  unfold handler_entity, handler_stem. by destruct (_ || _).
Qed.
Lemma handler_stem_Some entry x : handler_stem entry = Some x ↔ entry = (handler_file x, false).
Proof.
  unfold handler_stem, handler_file. destruct entry as [name dir]. cbn [fst snd]. split.
  - destruct dir; [done|]. cbn [orb]. destruct (has_suffix name "_handler.go") eqn:E; [|done]. cbn [negb].
    apply has_suffix_spec in E as [y ->]. rewrite trim_suffix_app. by intros [= ->].
  - intros [= -> ->]. by rewrite has_suffix_app, trim_suffix_app.
Qed.
Lemma NoDup_omap {A B} (f : A → option B) l :
  NoDup l → (∀ x y b, f x = Some b → f y = Some b → x = y) → NoDup (omap f l).
Proof.
  intros Hl Hf. induction Hl as [|x l Hx _ IH]; [constructor|]. cbn [omap list_omap].
  destruct (f x) as [b|] eqn:E; [|done]. constructor; [|done].
  intros (y & Hy & Eb)%list_elem_of_omap. by rewrite (Hf x y b) in Hx.
Qed.
Lemma handler_stems_NoDup t : NoDup (handler_stems t).
Proof.
  apply NoDup_omap; [apply NoDup_fmap_2, children_NoDup; by intros x y [= ->]|].
  intros x y b Hx%handler_stem_Some Hy%handler_stem_Some. congruence.
Qed.
Lemma elem_of_handler_stems t x :
  x ∈ handler_stems t ↔ ∃ n, t !! ["handlers"; handler_file x] = Some n ∧ is_dir n = false.
Proof.
  unfold handler_stems. rewrite list_elem_of_omap. split.
  - intros (entry & (name & -> & [n Hn]%elem_of_children)%list_elem_of_fmap & [= -> Hd]%handler_stem_Some).
    cbn [app] in *. rewrite Hn in Hd. by exists n.
  - intros (n & Hn & Hd). exists (handler_file x, false). split; [|by apply handler_stem_Some].
    apply list_elem_of_fmap. exists (handler_file x). split; [unfold dir_entry; cbn [app]; by rewrite Hn, Hd|].
    apply elem_of_children. by exists n.
Qed.
Lemma handler_stems_eq t t' :
  (∀ x n, is_dir n = false → t !! ["handlers"; handler_file x] = Some n → ∃ n', is_dir n' = false ∧ t' !! ["handlers"; handler_file x] = Some n') →
  (∀ x n, is_dir n = false → t' !! ["handlers"; handler_file x] = Some n → ∃ n', is_dir n' = false ∧ t !! ["handlers"; handler_file x] = Some n') →
  handler_stems t ≡ₚ handler_stems t'.
Proof.
  intros H1 H2. apply NoDup_Permutation; [apply handler_stems_NoDup..|]. intros x.
  rewrite !elem_of_handler_stems. split; intros (n & Hn & Hd); [destruct (H1 x n) as (n' & ? & ?)|destruct (H2 x n) as (n' & ? & ?)]; eauto.
Qed.
Lemma registry_not_handler x : ["handlers"; handler_file x] ≠ registry_node.
Proof.
  intros [= E]. assert (has_suffix (handler_file x) "_handler.go" = true) as H by apply has_suffix_app.
  rewrite E in H. by vm_compute in H.
Qed.
Lemma handler_stems_insert t n : handler_stems (<[registry_node := n]> t) ≡ₚ handler_stems t.
Proof.
  apply handler_stems_eq; intros x m Hd Hm; exists m; (split; [done|]);
    pose proof (registry_not_handler x); [rewrite lookup_insert_ne in Hm|rewrite lookup_insert_ne]; auto.
Qed.

Definition registered (t : gmap path node) : list string := sort_strings (exportName <$> handler_stems t).
Lemma registry_steps project fs fs' :
  mem_byte "{" project = false → writeCRUDRouteRegistry project fs = (fs', Ok tt) →
  tree fs !! ["handlers"] = Some Dir
  ∧ ∃ fs1, tree fs1 = tree fs ∧ writeFile registry_node (registry_text project (registered (tree fs))) 420 fs1 = (fs', Ok tt).
Proof.
  intros Hp. unfold writeCRUDRouteRegistry. intros (fs1 & entries & Hr%wrap_Ok & Hk)%bind_Ok.
  revert Hr. change (parts "handlers") with ["handlers"]. unfold readDir, bind.
  destruct (next_fault_eq fs) as (o & fs2 & -> & Ht & _). destruct (io_error o); [done|]. cbn [get_tree]. unfold get_tree. rewrite Ht.
  destruct (find_node (tree fs) ["handlers"]) as [i|] eqn:E; [|done]. apply find_node_Ok in E.
  destruct i as [[]|]; try done. intros [= -> <-]. split; [done|]. exists fs1. split; [done|].
  cbv zeta in Hk. rewrite handler_entity_stem in Hk. fold (handler_stems (tree fs)) in Hk.
  rewrite registry_render in Hk by done. rewrite registry_parts in Hk. exact Hk.
Qed.

(** A completed rebuild of the registry mounts, in order, exactly the
    entities whose handler files are in the directory, each by the name the
    generator gave it; with one handler per generated entity these are the
    entities, each once.  Rebuilding again changes nothing. *)
Theorem registry_regenerated project fs fs' :
  mem_byte "{" project = false → (∀ s, tree fs !! registry_node ≠ Some (Special s)) →
  writeCRUDRouteRegistry project fs = (fs', Ok tt) →
  ∃ entities mode,
    tree fs' = <[registry_node := File (registry_text project entities) mode]> (tree fs)
    ∧ StronglySorted String.le entities
    ∧ (∀ e, e ∈ entities ↔
         ∃ x n, tree fs !! ["handlers"; handler_file x] = Some n ∧ is_dir n = false ∧ e = exportName x)
    ∧ (∀ es, NoDup es → Forall (λ e, pascal e = true) es →
         (∀ x, (∃ n, tree fs !! ["handlers"; handler_file x] = Some n ∧ is_dir n = false) ↔ x ∈ toSnake <$> es) →
         entities ≡ₚ es)
    ∧ ∀ fs2 fs2', tree fs2 = tree fs' → writeCRUDRouteRegistry project fs2 = (fs2', Ok tt) → tree fs2' = tree fs2.
Proof.
  intros Hp Hsp (_ & fs1 & Ht1 & Hw%writeFile_Ok)%registry_steps; [|done]. rewrite Ht1 in Hw.
  destruct Hw as [Hw|(s & Hs & _)]; [|by destruct (Hsp s)]. do 2 eexists. split; [exact Hw|]. unfold registered at 1 2 3. split_and!.
  - apply sort_strings_sorted.
  - intros e. rewrite sort_strings_Permutation, list_elem_of_fmap. setoid_rewrite elem_of_handler_stems. naive_solver.
  - intros es Hnd Hes Hx. rewrite sort_strings_Permutation.
    assert (handler_stems (tree fs) ≡ₚ toSnake <$> es) as ->.
    { apply NoDup_Permutation; [apply handler_stems_NoDup| |intros x; by rewrite elem_of_handler_stems].
      apply NoDup_fmap_2_strong; [|done]. intros e e' He He' E. rewrite Forall_forall in Hes.
      by rewrite <- (export_toSnake e), E, export_toSnake by by apply Hes. }
    rewrite <- list_fmap_compose. erewrite list_fmap_ext; [by rewrite list_fmap_id|].
    intros i e Hi. rewrite Forall_forall in Hes. cbn. apply export_toSnake, Hes. by eapply list_elem_of_lookup_2.
  - intros fs2 fs2' Ht2 (_ & fs3 & Ht3 & Hw2%writeFile_Ok)%registry_steps; [|done]. rewrite Ht3, Ht2 in Hw2. rewrite Ht2.
    rewrite Hw in Hw2. rewrite lookup_insert_eq in Hw2. cbn [mode_kept] in Hw2. destruct Hw2 as [Hw2|(s & Hs & _)]; [|done].
    rewrite Hw2, insert_insert_eq, Hw. do 2 f_equal. f_equal. unfold registered. apply sort_strings_eq. by rewrite handler_stems_insert.
Qed.

(** ** A run in which every call succeeds *)

Definition quiet_state (t : gmap path node) (m : Z) (fs : project) : Prop := faults fs = [] ∧ tree fs = t ∧ umask fs = m.
Definition slice_dirs : list path := [["handlers"]; ["models"]; ["migrations"]; ["internal"]; ["internal"; "database"]].

Definition all_prefixes (dirs : list string) : list path := concat ((λ dir, prefixes (parts dir)) <$> dirs).
Lemma make_all_quiet dirs fs :
  faults fs = [] → (∀ q, q ∈ all_prefixes dirs → free_or_dir (tree fs) q) →
  ∃ t', make_all dirs fs = (set_tree fs t', Ok tt) ∧ with_dirs (all_prefixes dirs) (tree fs) t'.
Proof.
  revert fs. induction dirs as [|dir dirs IH]; intros fs Hf Hq.
  - exists (tree fs). split; [by destruct fs | done].
  - change (all_prefixes (dir :: dirs)) with (prefixes (parts dir) ++ all_prefixes dirs) in *.
    cbn [make_all]. unfold bind. destruct (mkdirAll_quiet (parts dir) fs Hf) as (t1 & -> & H1).
    { intros q Hin. apply Hq, elem_of_app. by left. }
    destruct (IH (set_tree fs t1)) as (t' & -> & H2); [done| |].
    { intros q Hin. unfold free_or_dir. cbn. rewrite H1. case_decide; [by right|]. apply Hq, elem_of_app. by right. }
    exists t'. split; [done|]. intros q. rewrite H2. cbn. rewrite H1. repeat case_decide; set_solver.
Qed.
Lemma crud_prefixes : all_prefixes crud_dirs = slice_dirs.
Proof. by vm_compute. Qed.
Lemma refuse_existing_quiet paths fs :
  faults fs = [] → (∀ p, p ∈ paths → tree fs !! parts p = None ∧ ∀ q, q ∈ prefixes (dirname (parts p)) → free_or_dir (tree fs) q) →
  refuse_existing paths fs = (fs, Ok tt).
Proof.
  intros Hf Hp. induction paths as [|p paths IH]; [done|]. cbn [refuse_existing]. unfold bind.
  destruct (Hp p) as [Hn Hq]; [by left|]. rewrite stat_run, find_node_dirs, Hn by done. apply IH. intros; apply Hp; by right.
Qed.

(** The files written, each with its rendering. *)
Definition emits (d : crudData) (m : Z) (files : list (string * string)) (t t' : gmap path node) : Prop :=
  (∀ f, f ∈ files → ∃ c, renderCRUDTemplate f.2 d = Ok c ∧ t' !! parts f.1 = Some (File c (Z.ldiff 420 m)))
  ∧ ∀ q, q ∉ parts <$> files.*1 → t' !! q = t !! q.
Lemma emits_perm d m files files' t t' : files ≡ₚ files' → emits d m files t t' → emits d m files' t t'.
Proof.
  intros Hp [H1 H2]. split; [intros f Hf; apply H1; by rewrite Hp|]. intros q Hq. apply H2. intros Hin. apply Hq.
  by rewrite <- Hp.
Qed.
Lemma parents_dir t p : (∀ q, q ∈ prefixes p → t !! q = Some Dir) → parent_dir t p = true.
Proof.
  intros Hq. unfold parent_dir. destruct p as [|c p]; [done|]. rewrite Hq; [done|].
  unfold prefixes. clear Hq. assert (∀ p d c, d ++ c :: p ∈ prefixes_from d (c :: p)) as H; [|apply (H p [] c)].
  clear. induction p as [|e p IH]; intros d c; [by left|]. right.
  replace (d ++ c :: e :: p) with ((d ++ [c]) ++ e :: p) by by rewrite <- app_assoc. apply IH.
Qed.
Lemma render_all_quiet d files fs :
  faults fs = [] → NoDup (parts <$> files.*1) → (∀ f, f ∈ files → f.2 ∈ crud_templates) →
  (∀ f, f ∈ files → tree fs !! parts f.1 = None ∧ ∀ q, q ∈ prefixes (dirname (parts f.1)) → tree fs !! q = Some Dir) →
  ∃ t', render_all d files fs = (set_tree fs t', Ok tt) ∧ emits d (umask fs) files (tree fs) t'.
Proof.
  revert fs. induction files as [|[p source] files IH]; intros fs Hf Hnd Hsrc Hfree.
  - exists (tree fs). split; [by destruct fs|]. split; [set_solver|done].
  - cbn [fmap list_fmap fst] in Hnd. apply NoDup_cons in Hnd as [Hp Hnd].
    destruct (crud_renders d source) as [c Hc]; [apply (Hsrc (p, source)); by left|].
    destruct (Hfree (p, source)) as [Hn Hdirs]; [by left|]. cbn [fst] in *.
    cbn [render_all]. unfold bind at 1, wrap at 1, of_result. rewrite Hc. unfold bind, wrap.
    rewrite writeFile_quiet; [|done|rewrite find_node_dirs, Hn; [done|]; intros; right; by apply Hdirs|by apply parents_dir].
    assert (∀ f, f ∈ files → parts f.1 ≠ parts p) as Hother.
    { intros f Hin E. apply Hp. rewrite <- E. by apply list_elem_of_fmap_2, list_elem_of_fmap_2. }
    destruct (IH (put fs (parts p) (File c (Z.ldiff 420 (umask fs))))) as (t' & -> & Hfs & Hrest); [done|done| | |].
    + intros f Hin. apply Hsrc. by right.
    + intros f Hin. cbn. destruct (Hfree f) as [Hfn Hfd]; [by right|].
      rewrite lookup_insert_ne by (intros E; by apply (Hother f)). split; [done|]. intros q Hq.
      rewrite lookup_insert_ne; [by apply Hfd|]. intros <-. by rewrite (Hfd _ Hq) in Hn.
    + exists t'. split; [done|]. split.
      * intros f [->|Hin]%elem_of_cons; [|by apply Hfs]. exists c. split; [done|]. cbn [fst].
        rewrite Hrest by done. cbn. by rewrite lookup_insert_eq.
      * cbn [fmap list_fmap fst]. intros q [Hq Hq']%not_elem_of_cons. rewrite Hrest by done. cbn. by rewrite lookup_insert_ne.
Qed.

Lemma test_not_handler e x : handler_test_node e ≠ ["handlers"; handler_file x].
Proof.
  unfold handler_test_node, handler_file. intros [= E].
  change "_handler_test.go" with ("_handler_tes" +:+ "t.go") in E. change "_handler.go" with ("_handle" +:+ "r.go") in E.
  rewrite !str_app_assoc in E. apply str_app_length_inj in E as [_ E]; [done|].
  apply (f_equal String.length) in E. rewrite !str_length_app in *. cbn [String.length] in *. lia.
Qed.
(** The paths of the six files with their templates. *)
Definition slice_sources (e : string) : list (path * string) :=
  [(handler_node e, crudHandlerTemplate); (handler_test_node e, crudHandlerTestTemplate)]
  ++ zip (slice_paths e) [crudModelTemplate; crudRepositoryTemplate; crudRepositoryTestTemplate; crudMigrationTemplate].

Record mvc_project (t : gmap path node) (name : string) (e : string) : Prop := {
  mp_mod : ∃ c rest, read_node (t !! ["go.mod"]) = Ok c ∧ contains c "modernc.org/sqlite" = true
    ∧ omap module_line (split c lf) = name :: rest;
  mp_name : mem_byte "{" name = false;
  mp_models : t !! ["models"] = Some Dir;
  mp_dirs : ∀ q, q ∈ slice_dirs → free_or_dir t q;
  mp_free : ∀ q, q ∈ (slice_sources e).*1 → t !! q = None;
  mp_registry : t !! registry_node = None ∨ ∃ c m, t !! registry_node = Some (File c m);
}.
Definition success_text (d : crudData) : string :=
  line ("✅ CRUD " +:+ Entity d +:+ " generated (model, handler, repository, migration + tests)")
  +:+ line ("   GET, POST /api/" +:+ Table d)
  +:+ line ("   GET, PUT, DELETE /api/" +:+ Table d +:+ "/{id}")
  +:+ line "   Run `go test ./...` to validate the generated project.".

(** The six paths are all different, and neither directories nor the registry. *)
Lemma slice_paths_NoDup e : NoDup (slice_sources e).*1.
Proof.
  unfold slice_sources, slice_paths, handler_node, handler_test_node. cbn [app zip fmap list_fmap fst zip_with].
  pose proof (test_not_handler e (toSnake e)) as Ht. unfold handler_test_node, handler_file in Ht.
  assert (toSnake e +:+ "_repository.go" ≠ toSnake e +:+ "_repository_test.go") as Hr by (by intros E%str_app_inj_l).
  repeat (constructor; [set_unfold; naive_solver|]). constructor.
Qed.
Lemma slice_paths_other e q : q ∈ (slice_sources e).*1 → q ∉ slice_dirs ∧ q ≠ registry_node.
Proof.
  intros Hq. split.
  - unfold slice_sources, slice_paths, handler_node, handler_test_node, slice_dirs in *. set_unfold. naive_solver.
  - intros ->. assert (∀ s, s +:+ "_handler.go" ≠ "routes_gen.go") as H1.
    { intros s E. pose proof (has_suffix_app s "_handler.go") as H. rewrite E in H. by vm_compute in H. }
    assert (∀ s, s +:+ "_handler_test.go" ≠ "routes_gen.go") as H2.
    { intros s E. pose proof (has_suffix_app s "_handler_test.go") as H. rewrite E in H. by vm_compute in H. }
    unfold slice_sources, slice_paths, handler_node, handler_test_node, registry_node in Hq. set_unfold. naive_solver.
Qed.
Lemma slice_parents e q r : q ∈ (slice_sources e).*1 → r ∈ prefixes (dirname q) → r ∈ slice_dirs.
Proof.
  intros Hq Hr. unfold slice_sources, slice_paths, handler_node, handler_test_node in Hq. unfold slice_dirs.
  cbn [app zip fmap list_fmap fst zip_with] in Hq.
  repeat (apply elem_of_cons in Hq as [->|Hq]; [unfold prefixes, dirname in Hr; cbn [removelast prefixes_from app] in Hr; set_solver|]).
  by apply elem_of_nil in Hq.
Qed.

Lemma files_sources d :
  pascal (Entity d) = true → Table d = toSnake (Entity d) +:+ "s" →
  (λ f, (parts f.1, f.2)) <$> (handler_files d ++ crud_files d) = slice_sources (Entity d).
Proof.
  intros He Ht. destruct (slice_parts d He Ht) as (H1 & H2 & H3). unfold handler_files, slice_sources.
  cbn [app fmap list_fmap fst snd]. rewrite H2, H3. do 2 f_equal.
  rewrite <- H1. reflexivity.
Qed.

Lemma handler_stems_emitted e m t t' :
  pascal e = true → t !! handler_node e = None → (∃ c, t' !! handler_node e = Some (File c m)) →
  (∀ q, q ∉ (slice_sources e).*1 → t' !! q = if decide (q ∈ slice_dirs) then Some Dir else t !! q) →
  handler_stems t' ≡ₚ toSnake e :: handler_stems t.
Proof.
  intros He Hn [c Hc] Hrest. apply NoDup_Permutation.
  - apply handler_stems_NoDup.
  - constructor; [|apply handler_stems_NoDup]. intros (n & H & _)%elem_of_handler_stems.
    change ["handlers"; handler_file (toSnake e)] with (handler_node e) in H. congruence.
  - intros x. rewrite elem_of_cons, !elem_of_handler_stems. destruct (decide (x = toSnake e)) as [->|Hx].
    + split; [by left|]. intros _. by eexists.
    + rewrite Hrest, decide_False; [naive_solver| |].
      * unfold slice_dirs. set_unfold. naive_solver.
      * pose proof (test_not_handler e x) as Ht. intros Hin.
        assert (["handlers"; handler_file x] ≠ handler_node e) as Hh.
        { unfold handler_node, handler_file. intros [= E]. apply Hx. 
          assert (trim_suffix (x +:+ "_handler.go") "_handler.go" = trim_suffix (toSnake e +:+ "_handler.go") "_handler.go") as Et by by rewrite E.
          by rewrite !trim_suffix_app in Et. }
        unfold slice_sources, slice_paths in Hin. cbn [app zip fmap list_fmap fst zip_with] in Hin. set_unfold. naive_solver.
Qed.

(** The last step, after the files of the entity are written. *)
Lemma emit_registry d t t1 fs m :
  pascal (Entity d) = true → Table d = toSnake (Entity d) +:+ "s" → faults fs = [] →
  mvc_project t (ProjectName d) (Entity d) → with_dirs slice_dirs t t1 →
  emits d m (handler_files d ++ crud_files d) t1 (tree fs) →
  ∃ m', writeCRUDRouteRegistry (ProjectName d) fs = (put fs registry_node
    (File (registry_text (ProjectName d) (sort_strings (Entity d :: (exportName <$> handler_stems t)))) m'), Ok tt).
Proof.
  intros He Htab Hf [_ Hname _ _ Hfree Hreg] Ht1 [Hem Hrest]. pose proof (files_sources d He Htab) as Hsrc.
  assert (parts <$> (handler_files d ++ crud_files d).*1 = (slice_sources (Entity d)).*1) as Hpaths.
  { rewrite <- Hsrc. by rewrite <- !list_fmap_compose. }
  rewrite Hpaths in Hrest.
  assert (∀ q, q ∉ (slice_sources (Entity d)).*1 → tree fs !! q = if decide (q ∈ slice_dirs) then Some Dir else t !! q) as Hall.
  { intros q Hq. by rewrite Hrest, Ht1. }
  assert (∀ q, q ∈ slice_dirs → tree fs !! q = Some Dir) as Hdirs.
  { intros q Hq. rewrite Hall, decide_True; [done..|]. intros Hin. by apply slice_paths_other in Hin as [? _]. }
  assert (tree fs !! registry_node = t !! registry_node) as Hr.
  { rewrite Hall, decide_False; [done| |]; [unfold slice_dirs, registry_node; set_solver|]. intros Hin. by apply slice_paths_other in Hin as [_ ?]. }
  assert (handler_stems (tree fs) ≡ₚ toSnake (Entity d) :: handler_stems t) as Hstems.
  { apply handler_stems_emitted with (Z.ldiff 420 m); [done| | |done].
    - apply Hfree. by left.
    - destruct (Hem (handler_path d, crudHandlerTemplate)) as (c & _ & Hc); [by left|]. exists c. cbn [fst] in Hc.
      rewrite (proj1 (proj2 (slice_parts d He Htab))) in Hc. exact Hc. }
  unfold writeCRUDRouteRegistry. unfold bind at 1, wrap at 1. change (parts "handlers") with ["handlers"].
  rewrite readDir_quiet; [|done|]. 2: { rewrite find_node_dirs; [|set_solver]. f_equal. apply Hdirs. unfold slice_dirs. set_solver. }
  rewrite handler_entity_stem. fold (handler_stems (tree fs)). rewrite registry_render by done. unfold bind, of_result.
  rewrite registry_parts.
  replace (sort_strings (exportName <$> handler_stems (tree fs))) with (sort_strings (Entity d :: (exportName <$> handler_stems t))).
  2: { apply sort_strings_eq. rewrite Hstems. cbn. by rewrite export_toSnake. }
  assert (find_node (tree fs) registry_node = Ok (t !! registry_node)) as Hfind.
  { rewrite find_node_dirs, Hr; [done|]. intros q Hq. right. apply Hdirs. unfold slice_dirs. unfold registry_node, prefixes, dirname in Hq. cbn in Hq. set_solver. }
  destruct Hreg as [Hn|(c & m0 & Hn)]; rewrite Hn in Hfind.
  - eexists. apply writeFile_quiet; [done..|]. apply parents_dir. intros q Hq. apply Hdirs.
    unfold slice_dirs. unfold registry_node, prefixes, dirname in Hq. cbn in Hq. set_solver.
  - eexists. by apply (writeFile_over _ _ _ _ c).
Qed.

Section Success.
Context (stat_order write_order handler_order : list (string * string) → list (string * string)).
Context (Hstat : ∀ l, stat_order l ≡ₚ l) (Hwrite : ∀ l, write_order l ≡ₚ l) (Hhandler : ∀ l, handler_order l ≡ₚ l).

Lemma write_slice_quiet d fs :
  pascal (Entity d) = true → Table d = toSnake (Entity d) +:+ "s" → faults fs = [] →
  mvc_project (tree fs) (ProjectName d) (Entity d) →
  ∃ t1 t2 m, writeCRUDFiles stat_order write_order handler_order d fs = (set_tree fs (<[registry_node :=
      File (registry_text (ProjectName d) (sort_strings (Entity d :: (exportName <$> handler_stems (tree fs))))) m]> t2), Ok tt)
    ∧ with_dirs slice_dirs (tree fs) t1
    ∧ emits d (umask fs) (handler_files d ++ crud_files d) t1 t2.
Proof using Hstat Hwrite Hhandler.
  intros He Htab Hf Hmvc. pose proof Hmvc as [_ Hname _ Hdirs Hfree Hreg]. pose proof (files_sources d He Htab) as Hsrc.
  assert (∀ f, f ∈ handler_files d ++ crud_files d → (parts f.1, f.2) ∈ slice_sources (Entity d)) as Hin.
  { intros f Hin. rewrite <- Hsrc. apply list_elem_of_fmap. by exists f. }
  assert (parts <$> (handler_files d ++ crud_files d).*1 = (slice_sources (Entity d)).*1) as Hpaths.
  { rewrite <- Hsrc. by rewrite <- !list_fmap_compose. }
  assert (∀ f, f ∈ handler_files d ++ crud_files d → parts f.1 ∈ (slice_sources (Entity d)).*1) as Hin1.
  { intros f Hf'. rewrite <- Hpaths. by apply list_elem_of_fmap_2, list_elem_of_fmap_2. }
  assert (∀ f q, f ∈ handler_files d ++ crud_files d → q ∈ prefixes (dirname (parts f.1)) → free_or_dir (tree fs) q) as Hpar.
  { intros f q Hf' Hq. apply Hdirs. eapply slice_parents; [by apply Hin1|done]. }
  assert (∀ f, f ∈ handler_files d → f ∈ handler_files d ++ crud_files d) as HinL by (intros; apply elem_of_app; by left).
  assert (∀ f, f ∈ crud_files d → f ∈ handler_files d ++ crud_files d) as HinR by (intros; apply elem_of_app; by right).
  unfold writeCRUDFiles. unfold bind at 1. rewrite refuse_existing_quiet; [|done|].
  2: { intros p (f & -> & Hf')%list_elem_of_fmap. rewrite Hstat in Hf'. apply HinR in Hf'.
       split; [by apply Hfree, Hin1 | intros q; by apply Hpar]. }
  unfold bind at 1. rewrite refuse_handler_quiet by done. assert ((handler_path d, crudHandlerTemplate) ∈ handler_files d ++ crud_files d) as Hh by (apply HinL; left).
  rewrite find_node_dirs; [|intros q; by apply (Hpar _ _ Hh)]. pose proof (Hfree _ (Hin1 _ Hh)) as Hhn. cbn [fst] in Hhn. rewrite Hhn.
  unfold bind at 1. destruct (make_all_quiet crud_dirs fs Hf) as (t1 & -> & Ht1).
  { rewrite crud_prefixes. exact Hdirs. }
  rewrite crud_prefixes in Ht1.
  assert (NoDup (parts <$> (handler_files d ++ crud_files d).*1)) as Hnd by (rewrite Hpaths; apply slice_paths_NoDup).
  rewrite !fmap_app in Hnd. apply NoDup_app in Hnd as (Hnd1 & Hdisj & Hnd2).
  assert (∀ f, f ∈ handler_files d ++ crud_files d → t1 !! parts f.1 = None ∧ ∀ q, q ∈ prefixes (dirname (parts f.1)) → t1 !! q = Some Dir) as Hready.
  { intros f Hf'. destruct (slice_paths_other _ _ (Hin1 f Hf')) as [Hnd _]. split.
    - rewrite Ht1, decide_False by done. by apply Hfree, Hin1.
    - intros q Hq. rewrite Ht1, decide_True; [done|]. eapply slice_parents; [by apply Hin1|done]. }
  assert (∀ f, f ∈ handler_files d ++ crud_files d → f.2 ∈ crud_templates) as Htmpl.
  { intros f Hf'. unfold handler_files, crud_files, crud_templates in *. cbn [app] in Hf'.
    repeat (apply elem_of_cons in Hf' as [->|Hf']; [cbn [snd]; clear; set_solver|]). by apply elem_of_nil in Hf'. }
  unfold bind at 1. destruct (render_all_quiet d (handler_order (handler_files d)) (set_tree fs t1)) as (t2 & -> & Hem).
  { done. } { by rewrite Hhandler. } { intros f. rewrite Hhandler. auto. }
  { intros f. rewrite Hhandler. auto. }
  apply (emits_perm _ _ _ _ _ _ (Hhandler _)) in Hem as [He2 Hr2].
  unfold bind at 1. destruct (render_all_quiet d (write_order (crud_files d)) (set_tree (set_tree fs t1) t2)) as (t3 & -> & He').
  { done. } { by rewrite Hwrite. } { intros f. rewrite Hwrite. auto. }
  { intros f. rewrite Hwrite. intros Hf'. destruct (Hready f (HinR f Hf')) as [Hn Hp]. cbn [set_tree tree] in *. split.
    - rewrite Hr2; [done|]. intros H. apply (Hdisj _ H). by apply list_elem_of_fmap_2, list_elem_of_fmap_2.
    - intros q Hq. rewrite Hr2; [by apply Hp|]. intros (g & -> & Hg)%list_elem_of_fmap.
      apply list_elem_of_fmap in Hg as (g' & -> & Hg). specialize (Hp _ Hq). by rewrite (proj1 (Hready g' (HinL g' Hg))) in Hp. }
  apply (emits_perm _ _ _ _ _ _ (Hwrite _)) in He' as [He3 Hr3]. cbn [set_tree tree umask] in *.
  assert (emits d (umask fs) (handler_files d ++ crud_files d) t1 t3) as Hem.
  { split.
    - intros f [Hf'|Hf']%elem_of_app; [|by apply He3]. destruct (He2 f Hf') as (c & Hc & Hl). exists c. split; [done|].
      rewrite Hr3; [done|]. intros H. apply (Hdisj (parts f.1)); [by apply list_elem_of_fmap_2, list_elem_of_fmap_2|done].
    - intros q Hq. rewrite !fmap_app, not_elem_of_app in Hq. destruct Hq as [Hq1 Hq2]. rewrite Hr3 by done. by apply Hr2. }
  destruct (emit_registry d (tree fs) t1 (set_tree (set_tree (set_tree fs t1) t2) t3) (umask fs)) as [m' ->]; [done..|].
  by exists t1, t3, m'.
Qed.

(** C29 : in an MVC project in which the slice's files are free and no call fails,
    accepted arguments succeed: each of the six files holds the rendering of its
    template, the registry mounts the new entity next to the ones already there,
    the four directories exist, and nothing else has changed. *)
Theorem crud_generates args d fs name :
  parseCRUDArgs args = Ok d → faults fs = [] → mvc_project (tree fs) name (Entity d) →
  ∃ fs', RunGenerateCRUD stat_order write_order handler_order args fs = (fs', Ok (success_text d))
    ∧ (∀ p source, (p, source) ∈ slice_sources (Entity d) → ∃ c,
         renderCRUDTemplate source (with_project d name) = Ok c ∧ tree fs' !! p = Some (File c (Z.ldiff 420 (umask fs))))
    ∧ (∃ m, tree fs' !! registry_node = Some (File (registry_text name
         (sort_strings (Entity d :: (exportName <$> handler_stems (tree fs))))) m))
    ∧ (∀ q, q ∈ slice_dirs → tree fs' !! q = Some Dir)
    ∧ ∀ q, q ∉ registry_node :: slice_dirs ++ (slice_sources (Entity d)).*1 → tree fs' !! q = tree fs !! q.
Proof using Hstat Hwrite Hhandler.
  intros Hargs Hf Hmvc. pose proof (parse_crud_spec args) as Hok. unfold RunGenerateCRUD. rewrite Hargs in *.
  destruct Hok as [Hd _]. pose proof Hmvc as [(c & rest & Hread & Hsql & Hmod) _ Hmodels _ _ _].
  unfold requireMVCProject, currentModuleName, attempt, bind. rewrite (readFile_quiet _ _ c) by done. rewrite Hsql. cbn [negb].
  rewrite stat_run, find_node_dirs, Hmodels by (done || set_solver). cbn [ret]. unfold ret at 1 2. rewrite (readFile_quiet _ _ c) by done.
  rewrite Hmod. unfold ret at 1.
  destruct (write_slice_quiet (with_project d name) fs) as (t1 & t2 & m & -> & Ht1 & Hem); [apply Hd..|done|done|].
  eexists. split; [reflexivity|]. cbn [set_tree tree]. destruct Hem as [Hem Hrest].
  pose proof (files_sources (with_project d name) (co_entity _ Hd) (co_table _ Hd)) as Hsrc. cbn [with_project Entity] in Hsrc.
  assert (parts <$> (handler_files (with_project d name) ++ crud_files (with_project d name)).*1 = (slice_sources (Entity d)).*1) as Hpaths.
  { rewrite <- Hsrc. by rewrite <- !list_fmap_compose. }
  rewrite Hpaths in Hrest. split_and!.
  - intros p source Hin. rewrite <- Hsrc in Hin. apply list_elem_of_fmap in Hin as (f & [= -> ->] & Hin).
    destruct (Hem f Hin) as (c' & Hc & Hl). exists c'. split; [done|]. rewrite lookup_insert_ne; [done|].
    intros E. apply (slice_paths_other (Entity d) registry_node); [|done]. rewrite E, <- Hpaths. by apply list_elem_of_fmap_2, list_elem_of_fmap_2.
  - exists m. by rewrite lookup_insert_eq.
  - intros q Hq. rewrite lookup_insert_ne, Hrest, Ht1, decide_True; [done..| |].
    + intros Hin. by apply slice_paths_other in Hin as [? _].
    + intros <-. unfold slice_dirs, registry_node in Hq. set_solver.
  - intros q [Hq1 [Hq2 Hq3]%not_elem_of_app]%not_elem_of_cons. by rewrite lookup_insert_ne, Hrest, Ht1, decide_False.
Qed.
End Success.

(** ** What is not checked *)

(** Two field names may have one exported name: the generated structure then
    declares the same field twice.  Names the slice declares itself are accepted
    too. *)
Theorem exported_names_clash :
  ∃ d, parseCRUDArgs ["User"; "line_1:string"; "line1:string"; "id:int"] = Ok d
    ∧ (Exported <$> Fields d) = ["Line1"; "Line1"; "Id"]
    ∧ Columns d = "line_1, line1, id".
Proof. exists (crud_of ["User"; "line_1:string"; "line1:string"; "id:int"]). by vm_compute. Qed.

(** The model of an entity whose name ends in Test is a test file, which the Go
    build leaves out. *)
Theorem test_entity_file :
  ∃ d, parseCRUDArgs ["LoadTest"; "name:string"] = Ok d ∧ fst <$> head (crud_files d) = Some "models/load_test.go".
Proof. exists (crud_of ["LoadTest"; "name:string"]). by vm_compute. Qed.

(** ** Witnesses *)

Definition demo_project : project :=
  mkProject (<[["go.mod"] := File ("module shop" +:+ nl +:+ "require modernc.org/sqlite v1" +:+ nl) 420]>
    (<[["models"] := Dir]> (<[["handlers"] := Dir]> (<[["handlers"; "auth_handler.go"] := File "mine" 420]> ∅)))) [] [] 18.
Definition demo_run : project * result string := RunGenerateCRUD id id id demo_args demo_project.

(** A hand-written test of the entity's handler is overwritten without a word. *)
Theorem handler_test_overwritten :
  let before := put demo_project (handler_test_node "ApiKey") (File "mine" 420) in
  let after := RunGenerateCRUD id id id demo_args before in
  after.2 = Ok (success_text demo_crud) ∧ tree after.1 !! handler_test_node "ApiKey" ≠ Some (File "mine" 420).
Proof. split; [vm_compute; reflexivity | vm_compute; discriminate]. Qed.
(** A hand-written handler is registered like a generated one, under a function
    that nothing declares. *)
Theorem foreign_handler_registered :
  match tree demo_run.1 !! registry_node with
  | Some (File c _) => contains c "registerAuthRoutes(registrar, db)" = true
  | _ => False
  end.
Proof. vm_compute. reflexivity. Qed.

Lemma snake_roundtrip_witness : exportName (toSnake "APIKey") = "APIKey".
Proof. apply (snake_roundtrip "APIKey" "User"); reflexivity. Defined.
Lemma crud_text_aligned_witness :
  renderCRUDTemplate crudMigrationTemplate (with_project demo_crud "shop")
  = Ok (create_table "api_keys" [("name", "TEXT"); ("uses_left", "INTEGER")]).
Proof. apply (crud_text_aligned demo_args demo_crud "shop"). vm_compute. reflexivity. Defined.
Lemma crud_keeps_files_witness :
  tree demo_run.1 !! ["handlers"; "auth_handler.go"] = Some (File "mine" 420).
Proof.
  pose proof (crud_keeps_files id id id (λ _, reflexivity _) (λ _, reflexivity _) (λ _, reflexivity _) demo_args demo_project) as H.
  cbv zeta in H. change (parseCRUDArgs demo_args) with (Ok demo_crud) in H. destruct H as [_ H].
  apply H; [reflexivity| |reflexivity]. apply (bool_decide_unpack _). vm_compute. exact I.
Defined.
Definition rebuilt : project := (writeCRUDRouteRegistry "shop" demo_run.1).1.
Lemma registry_regenerated_witness :
  ∃ entities mode, tree rebuilt !! registry_node = Some (File (registry_text "shop" entities) mode)
    ∧ "ApiKey" ∈ entities ∧ "Auth" ∈ entities.
Proof.
  destruct (registry_regenerated "shop" demo_run.1 rebuilt) as (es & m & Ht & _ & He & _).
  - reflexivity.
  - intros s. vm_compute. discriminate.
  - vm_compute. reflexivity.
  - exists es, m. split; [rewrite Ht; apply lookup_insert_eq|].
    split; apply He; [exists "api_key" | exists "auth"]; eexists; (split; [vm_compute; reflexivity|by split]).
Defined.
Lemma crud_generates_witness : demo_run.2 = Ok (success_text demo_crud).
Proof.
  destruct (crud_generates id id id (λ _, reflexivity _) (λ _, reflexivity _) (λ _, reflexivity _) demo_args demo_crud demo_project "shop")
    as (fs' & E & _).
  - vm_compute. reflexivity.
  - reflexivity.
  - split.
    + eexists _, _. split_and!; vm_compute; reflexivity.
    + reflexivity.
    + reflexivity.
    + apply Forall_forall. repeat (apply Forall_cons; split; [unfold free_or_dir; vm_compute; tauto|]). by apply Forall_nil.
    + apply Forall_forall. apply (bool_decide_unpack _). vm_compute. exact I.
    + left. reflexivity.
  - unfold demo_run. by rewrite E.
Defined.
