(* ===== verification/Governance.v ===== *)
(** * Release governance: artifacts, gates, plans and manifests

    Models src/pkg/runtime/artifacts.go and the first half of governance.go:
    configuration diffs, [ApprovalGate], [RollbackPlan], [ReleasePlan],
    [ComplianceReport], [PromotionPlan] and [DeploymentManifest].  SHA-256 and
    HMAC-SHA256 are parameters; readings of the clock are arguments. *)

From S2P Require Import Prelude GoStrings RequestID Registry.

(** A method that may modify its receiver and fail: the receiver afterwards,
    and the error returned, if any. *)
Definition outcome (S : Type) : Type := S * option error.

(** ** Configuration diffs *)

Record RouteRegistrySnapshot := mkSnapshot {
  s_Routes : list RouteConfig; s_Rolls : list Rollout.RolloutConfig;
  s_Regions : list RegionConfig; s_Tenants : list TenantConfig;
}.
Record RouteChange := mkChange { c_Name : string; Before : string; After : string }.
Record ConfigDiff := mkDiff {
  HasChanges : bool; df_Routes : list RouteChange; UpdatedAt : time;
}.

Definition route_index (l : list RouteConfig) : gmap string RouteConfig :=
  foldl (λ m c, <[rt_Name c := c]> m) ∅ l.

(** The change recorded for a route of the new snapshot, if it differs. *)
Definition route_change (index : gmap string RouteConfig) (c : RouteConfig) : option RouteChange :=
  match index !! rt_Name c with
  | None => Some (mkChange (rt_Name c) "" (rt_Target c))
  | Some prev =>
      if negb (String.eqb (rt_Target prev) (rt_Target c)) || negb (rt_Weight prev =? rt_Weight c)%Z
         || negb (eqb (rt_Enabled prev) (rt_Enabled c))
      then Some (mkChange (rt_Name c) (rt_Target prev) (rt_Target c)) else None
  end.

Definition BuildConfigDiff (now : time) (before after : RouteRegistrySnapshot) : ConfigDiff :=
  let diff := mkDiff false [] now in
  match s_Routes before, s_Routes after with
  | [], [] => diff
  | old, new =>
      let index := route_index old in
      foldl (λ d c,
        match route_change index c with
        | Some ch => mkDiff true (df_Routes d ++ [ch]) (UpdatedAt d)
        | None => d
        end) diff new
  end.

(** ** Approval gates *)

Record ApprovalGate := mkGate { g_Name : string; Required : Z; Approvals : list string }.

Definition NewApprovalGate (name : string) (required : Z) : ApprovalGate :=
  mkGate name (if (required <=? 0)%Z then 1%Z else required) [].

Definition gate_approve (g : option ApprovalGate) (actor : string) : result ApprovalGate :=
  match g with
  | None => Err "approval gate is nil"
  | Some g =>
      fail_if String.eqb actor "" with "approver identity is required";
      if existsb (λ existing, String.eqb existing actor) (Approvals g) then Ok g
      else Ok (mkGate (g_Name g) (Required g) (Approvals g ++ [actor]))
  end.

Definition gate_approved (g : option ApprovalGate) : bool :=
  match g with
  | None => false
  | Some g => (Required g <=? Z.of_nat (length (Approvals g)))%Z
  end.

(** ** Rollback plans *)

Record RollbackPlan := mkRollback {
  rb_Reason : string; Previous : string; Steps : list string; Triggered : bool;
}.
Definition NewRollbackPlan (reason previous : string) (steps : list string) : RollbackPlan :=
  mkRollback (if String.eqb reason "" then "rollback requested" else reason)
    (if String.eqb previous "" then "previous stable version" else previous) steps false.

(** ** Artifact provenance *)

Record ArtifactProvenance := mkArtifact {
  ap_Name : string; ap_Version : string; Digest : string; Signature : string;
  ap_CreatedAt : time; Source : string; Content : string;
}.

Definition NewArtifactProvenance (now : time) (name version : string) : ArtifactProvenance :=
  mkArtifact (if String.eqb name "" then "unknown" else name)
    (if String.eqb version "" then "dev" else version) "" "" now "fgoths-runtime" "".

Record ReleasePlan := mkRelease {
  rp_Environment : string; rp_Service : string; rp_Version : string;
  rp_Gate : option ApprovalGate; rp_Artifact : option ArtifactProvenance; Runbook : string;
  rp_SLO : option SLOPolicy; rp_Rollback : option RollbackPlan; rp_ApprovedAt : time;
}.
Definition NewReleasePlan (environment service version : string) : ReleasePlan :=
  mkRelease (if String.eqb environment "" then "prod" else environment) service version
    None None "" None None time_zero.

Record PromotionPlan := mkPromotion {
  From_ : string; To : string; pp_Service : string; pp_Version : string;
  pp_Gate : option ApprovalGate; pp_Artifact : option ArtifactProvenance;
  pp_Policy : RoutePolicy; pp_ApprovedAt : time;
}.

(** The policy both constructors start from: guarded when the stage is prod. *)
Definition stage_policy (environment service : string) : RoutePolicy :=
  let prod := String.eqb environment "prod" in
  mkPolicy "" environment service [] [] prod prod
    (if prod then Some (NewSLOPolicy (f64_lit 5 100) 250 (f64_lit 2 100)) else None).

Definition NewPromotionPlan (from to service version : string) : PromotionPlan :=
  let to := if String.eqb to "" then "prod" else to in
  mkPromotion (if String.eqb from "" then "staging" else from) to service version None None
    (stage_policy to service) time_zero.

Definition with_env_service (p : RoutePolicy) (environment service : string) : RoutePolicy :=
  mkPolicy (pl_Name p) environment service (AllowedTenants p) (AllowedRegions p)
    (RequireSignedArtifacts p) (RequireAudit p) (SLO p).

(** The blank environment and service of a policy, filled from its plan. *)
Definition fill_policy (p : RoutePolicy) (environment service : string) : RoutePolicy :=
  with_env_service p
    (if String.eqb (pl_Environment p) "" then environment else pl_Environment p)
    (if String.eqb (pl_Service p) "" then service else pl_Service p).

Section Crypto.
Context (sha256 : string → string) (hmac_sha256 : string → string → string).

Definition sha256Hex (value : string) : string := hex_encode (sha256 value).
Definition hmacSignature (secret value : string) : string := hex_encode (hmac_sha256 secret value).

Definition SetContent (p : option ArtifactProvenance) (content : string) : option ArtifactProvenance :=
  p ← p;
  Some (mkArtifact (ap_Name p) (ap_Version p) (sha256Hex content) (Signature p) (ap_CreatedAt p)
          (Source p) content).

Definition Sign (p : option ArtifactProvenance) (secret source : string) : option ArtifactProvenance :=
  p ← p;
  Some (mkArtifact (ap_Name p) (ap_Version p) (Digest p) (hmacSignature secret (Content p))
          (ap_CreatedAt p) (if String.eqb (trim_space source) "" then Source p else source) (Content p)).

Definition Verify (p : option ArtifactProvenance) (secret : string) : result unit :=
  match p with
  | None => Err "artifact provenance is nil"
  | Some p =>
      fail_if String.eqb (trim_space (Content p)) "" with "artifact content is empty";
      fail_if String.eqb (trim_space (Digest p)) "" with "artifact digest is empty";
      fail_if negb (String.eqb (hmacSignature secret (Content p)) (Signature p))
        with "artifact signature mismatch";
      fail_if negb (String.eqb (sha256Hex (Content p)) (Digest p)) with "artifact digest mismatch";
      Ok tt
  end.

(** [fmt.Errorf("...: %w", err)]. *)
Definition wrapf {A} (prefix : string) (r : result A) : result A :=
  match r with Ok a => Ok a | Err e => Err (prefix +:+ ": " +:+ e) end.

(** ** Release plans *)

Definition release_validate (now : time) (secret : string) (p : option ReleasePlan) : result ReleasePlan :=
  match p with
  | None => Err "release plan is nil"
  | Some p =>
      fail_if String.eqb (trim_space (rp_Service p)) "" with "service name is required";
      fail_if bool_decide (rp_Gate p = None) with "approval gate is required";
      fail_if negb (gate_approved (rp_Gate p)) with "approval gate is not approved";
      fail_if bool_decide (rp_Artifact p = None) with "artifact provenance is required";
      check wrapf "artifact signature verification failed" (Verify (rp_Artifact p) secret) in
      fail_if bool_decide (rp_SLO p = None) with "SLO policy is required for production rollout";
      fail_if bool_decide (rp_Rollback p = None) with "rollback plan is required for production rollout";
      fail_if String.eqb (trim_space (Runbook p)) "" with "deployment runbook is required";
      Ok (mkRelease (rp_Environment p) (rp_Service p) (rp_Version p) (rp_Gate p) (rp_Artifact p)
            (Runbook p) (rp_SLO p) (rp_Rollback p) now)
  end.

Definition IsReady (now : time) (secret : string) (p : option ReleasePlan) : bool :=
  is_ok (release_validate now secret p).

(** ** Promotions *)

(** The checks before [Validate] touches the plan, and those after it filled
    the policy. *)
Definition promotion_admissible (secret : string) (p : PromotionPlan) : result unit :=
  fail_if String.eqb (trim_space (pp_Service p)) "" with "service name is required";
  fail_if bool_decide (pp_Gate p = None) with "approval gate is required for promotion";
  fail_if negb (gate_approved (pp_Gate p)) with "approval gate is not approved";
  fail_if bool_decide (pp_Artifact p = None) with "artifact provenance is required for promotion";
  check wrapf "artifact signature verification failed" (Verify (pp_Artifact p) secret) in
  fail_if String.eqb (trim_space (To p)) "" with "target environment is required";
  Ok tt.

Definition unguarded (p : RoutePolicy) : bool :=
  negb (RequireSignedArtifacts p) || negb (RequireAudit p) || bool_decide (SLO p = None).
Definition no_allowlists (p : RoutePolicy) : bool :=
  bool_decide (AllowedTenants p = []) || bool_decide (AllowedRegions p = []).

Definition promotion_policy_ok (to service : string) (pol : RoutePolicy) : result unit :=
  fail_if String.eqb to "prod" && unguarded pol
    with "production promotion requires signed artifacts, audit logging, and SLO guardrails";
  fail_if String.eqb to "prod" && no_allowlists pol
    with "production promotion requires explicit tenant and region allowlists";
  fail_if RequireSignedArtifacts pol && bool_decide (SLO pol = None)
    with "target stage policy requires a valid SLO guardrail";
  fail_if RequireAudit pol && bool_decide (SLO pol = None)
    with "target stage policy requires audit logging and SLO guardrails";
  fail_if negb (String.eqb (pl_Environment pol) to)
    with "promotion target mismatch: policy environment " +:+ quote (pl_Environment pol)
         +:+ " does not match target " +:+ quote to;
  fail_if negb (String.eqb (pl_Service pol) service)
    with "promotion target mismatch: policy service " +:+ quote (pl_Service pol)
         +:+ " does not match service " +:+ quote service;
  Ok tt.

Definition promotion_validate (now : time) (secret : string) (p : option PromotionPlan)
    : outcome (option PromotionPlan) :=
  match p with
  | None => (None, Some "promotion plan is nil")
  | Some p =>
      match promotion_admissible secret p with
      | Err e => (Some p, Some e)
      | Ok _ =>
          let pol := fill_policy (pp_Policy p) (To p) (pp_Service p) in
          let stamped t := mkPromotion (From_ p) (To p) (pp_Service p) (pp_Version p) (pp_Gate p)
                             (pp_Artifact p) pol t in
          match promotion_policy_ok (To p) (pp_Service p) pol with
          | Err e => (Some (stamped (pp_ApprovedAt p)), Some e)
          | Ok _ => (Some (stamped now), None)
          end
      end
  end.

End Crypto.

(** ** Compliance *)

Record ComplianceReport := mkReport {
  cr_Environment : string; cr_Service : string; cr_Version : string;
  Compliant : bool; Evidence : list string;
}.

Definition evidence (present : bool) (text : string) : list string := if present then [text] else [].

Definition NewComplianceReport (plan : option ReleasePlan) : option ComplianceReport :=
  plan ← plan;
  let ev :=
    evidence (gate_approved (rp_Gate plan)) "approval gate satisfied"
    ++ evidence (match rp_Artifact plan with
                 | Some a => negb (String.eqb (trim_space (Signature a)) "") | None => false end)
         "artifact signature verified"
    ++ evidence (negb (bool_decide (rp_SLO plan = None))) "SLO guardrails defined"
    ++ evidence (match rp_Rollback plan with Some _ => true | None => false end)
         "rollback procedure defined"
    ++ evidence (negb (String.eqb (trim_space (Runbook plan)) "")) "deployment runbook available" in
  Some (mkReport (rp_Environment plan) (rp_Service plan) (rp_Version plan)
          (5 <=? Z.of_nat (length ev))%Z ev).

(** ** Deployment manifests *)

Record DeploymentManifest := mkManifest {
  dm_Environment : string; dm_Service : string; dm_Version : string; dm_Policy : RoutePolicy;
  Audit : list string; dm_CreatedAt : time;
}.
#[export] Instance DeploymentManifest_dec : EqDecision DeploymentManifest.
Proof. solve_decision. Defined.

Definition NewDeploymentManifest (now : time) (environment service version : string)
    : DeploymentManifest :=
  let environment := if String.eqb environment "" then "prod" else environment in
  mkManifest environment service version (stage_policy environment service) [] now.

Definition with_policy (m : DeploymentManifest) (pol : RoutePolicy) : DeploymentManifest :=
  mkManifest (dm_Environment m) (dm_Service m) (dm_Version m) pol (Audit m) (dm_CreatedAt m).

Definition manifest_policy_ok (env service : string) (pol : RoutePolicy) : result unit :=
  fail_if String.eqb env "prod" && unguarded pol
    with "production deployment manifest requires signed artifacts, audit logging, and SLO guardrails";
  fail_if String.eqb env "prod" && no_allowlists pol
    with "production deployment manifest requires explicit tenant and region allowlists";
  fail_if RequireSignedArtifacts pol && bool_decide (SLO pol = None)
    with "target stage policy requires a valid SLO guardrail";
  fail_if RequireAudit pol && bool_decide (SLO pol = None)
    with "target stage policy requires audit logging and SLO guardrails";
  fail_if negb (String.eqb (pl_Environment pol) env)
    with "deployment target mismatch: policy environment " +:+ quote (pl_Environment pol)
         +:+ " does not match environment " +:+ quote env;
  fail_if negb (String.eqb (pl_Service pol) service)
    with "deployment target mismatch: policy service " +:+ quote (pl_Service pol)
         +:+ " does not match service " +:+ quote service;
  Ok tt.

(** [DeploymentManifest.Validate]: the manifest with its policy filled, and the
    error. *)
Definition manifest_validate (m : DeploymentManifest) : outcome DeploymentManifest :=
  if String.eqb (trim_space (dm_Service m)) "" then (m, Some "service name is required")
  else if String.eqb (trim_space (dm_Environment m)) "" then (m, Some "environment is required")
  else
    let pol := fill_policy (dm_Policy m) (dm_Environment m) (dm_Service m) in
    let m := with_policy m pol in
    match manifest_policy_ok (dm_Environment m) (dm_Service m) pol with
    | Err e => (m, Some e)
    | Ok _ =>
        if bool_decide (Audit m = []) then (m, Some "deployment audit trail is required")
        else (m, None)
    end.

(** ** Approval gates: lemmas *)

(** The approvals a gate holds: distinct, non-empty, from the given actors. *)
Record gate_inv (actors : list string) (g : ApprovalGate) : Prop := {
  gi_required : (1 ≤ Required g)%Z;
  gi_nodup : NoDup (Approvals g);
  gi_exact : ∀ a, a ∈ Approvals g ↔ a ∈ actors ∧ a ≠ "";
}.

(** [Approve] by a list of actors, refused calls included. *)
Definition gate_step (g : ApprovalGate) (actor : string) : ApprovalGate :=
  match gate_approve (Some g) actor with Ok g' => g' | Err _ => g end.
Definition gate_run (name : string) (required : Z) (actors : list string) : ApprovalGate :=
  foldl gate_step (NewApprovalGate name required) actors.

Lemma gate_step_eq g a :
  gate_step g a
  = if decide (a = "" ∨ a ∈ Approvals g) then g
    else mkGate (g_Name g) (Required g) (Approvals g ++ [a]).
Proof.
  unfold gate_step, gate_approve. destruct (String.eqb_spec a "") as [->|Ha]; [by rewrite decide_True by auto|].
  destruct (existsb _ (Approvals g)) eqn:E.
  - apply existsb_true_iff in E as (x & Hx & ->%String.eqb_eq). by rewrite decide_True by auto.
  - rewrite decide_False; [done|]. intros [?|Hin]; [done|].
    assert (existsb (λ x, String.eqb x a) (Approvals g) = true); [|congruence].
    apply existsb_true_iff. exists a. by rewrite String.eqb_refl.
Qed.

Lemma gate_step_inv actors g a : gate_inv actors g → gate_inv (actors ++ [a]) (gate_step g a).
Proof.
  intros [H1 H2 H3]. rewrite gate_step_eq. case_decide as Hd.
  - split; [done|done|]. intros x. rewrite H3, elem_of_app, list_elem_of_singleton.
    destruct Hd as [->|[? ?]%H3]; naive_solver.
  - split; cbn; [done| |].
    + apply NoDup_app. repeat split; [done| |apply NoDup_singleton].
      intros x Hx ->%list_elem_of_singleton. tauto.
    + intros x. rewrite !elem_of_app, H3, !list_elem_of_singleton. naive_solver.
Qed.

Lemma foldl_gate_inv l actors g : gate_inv actors g → gate_inv (actors ++ l) (foldl gate_step g l).
Proof.
  revert actors g. induction l as [|a l IH]; intros actors g Hg; cbn; [by rewrite app_nil_r|].
  apply gate_step_inv with (a := a) in Hg. apply IH in Hg. by rewrite <- app_assoc in Hg.
Qed.
Lemma NewApprovalGate_inv name n : gate_inv [] (NewApprovalGate name n).
Proof.
  split; cbn; [|constructor|set_solver]. destruct (Z.leb_spec n 0); lia.
Qed.
Lemma gate_run_inv name n l : gate_inv l (gate_run name n l).
Proof. apply (foldl_gate_inv l []), NewApprovalGate_inv. Qed.
Lemma gate_step_Required g a : Required (gate_step g a) = Required g.
Proof. rewrite gate_step_eq. by case_decide. Qed.
Lemma gate_run_Required name n l : Required (gate_run name n l) = Z.max 1 n.
Proof.
  unfold gate_run. assert (∀ g, Required (foldl gate_step g l) = Required g) as ->.
  { induction l as [|a l IH]; intros g; [done|]. cbn. by rewrite IH, gate_step_Required. }
  cbn. destruct (Z.leb_spec n 0); lia.
Qed.

(** How many different people approved. *)
Definition approvers (actors : list string) : gset string := list_to_set actors ∖ {[ "" ]}.

Lemma gate_inv_size l g : gate_inv l g → length (Approvals g) = size (approvers l).
Proof.
  intros [_ Hnd Hex]. rewrite <- (size_list_to_set (C := gset string) (Approvals g) Hnd).
  f_equal. apply set_eq. intros a. unfold approvers.
  rewrite elem_of_difference, !elem_of_list_to_set, elem_of_singleton. apply Hex.
Qed.
Lemma gate_approved_run name n l :
  gate_approved (Some (gate_run name n l)) = true ↔ (Z.max 1 n ≤ Z.of_nat (size (approvers l)))%Z.
Proof.
  cbn [gate_approved]. by rewrite Z.leb_le, gate_run_Required, (gate_inv_size l) by apply gate_run_inv.
Qed.

(** ** Artifacts and releases *)

Lemma hex_digit_inj a b : (a < 16)%N → (b < 16)%N → hex_digit a = hex_digit b → a = b.
Proof.
  intros Ha Hb E. apply (f_equal N_of_ascii) in E. rewrite !hex_digit_val in E by done.
  destruct (N.ltb_spec a 10), (N.ltb_spec b 10); lia.
Qed.

Lemma hex_encode_inj b b' : hex_encode b = hex_encode b' → b = b'.
Proof.
  revert b'. induction b as [|c b IH]; intros [|c' b']; cbn [hex_encode]; try done.
  intros [= H1 H2 H3]. pose proof (byte_val_bound c). pose proof (byte_val_bound c').
  apply hex_digit_inj in H1, H2; try (apply N.mod_lt; done); try (apply N.Div0.div_lt_upper_bound; lia).
  f_equal; [|by apply IH]. rewrite <- (ascii_N_embedding c), <- (ascii_N_embedding c').
  f_equal. fold (byte_val c) (byte_val c').
  rewrite (N.div_mod (byte_val c) 16), (N.div_mod (byte_val c') 16) by done. congruence.
Qed.
Lemma hex_encode_blank b : String.eqb (trim_space (hex_encode b)) "" = false ↔ b ≠ "".
Proof.
  rewrite plain_trim by apply hex_encode_plain. rewrite String.eqb_neq. by destruct b.
Qed.

(** What a verified artifact carries. *)
Record trusted (sha256 : string → string) (hmac : string → string → string) (secret : string)
    (a : ArtifactProvenance) : Prop := {
  tr_content : trim_space (Content a) ≠ "";
  tr_digest_set : trim_space (Digest a) ≠ "";
  tr_signature : Signature a = hmacSignature hmac secret (Content a);
  tr_digest : Digest a = sha256Hex sha256 (Content a);
}.

Lemma Verify_Ok sha hmac a secret :
  Verify sha hmac (Some a) secret = Ok tt ↔ trusted sha hmac secret a.
Proof.
  unfold Verify. rewrite !fail_if_Ok, !negb_false_iff, !String.eqb_neq, !String.eqb_eq.
  split; [intros (?&?&?&?&_); by split | intros []; by repeat split].
Qed.
Lemma wrapf_Ok {A} e (r : result A) a : wrapf e r = Ok a ↔ r = Ok a.
Proof. by destruct r. Qed.
Lemma verified_Some sha hmac o secret (P : Prop) :
  (bool_decide (o = None) = false ∧ Verify sha hmac o secret = Ok tt ∧ P)
  ↔ (∃ a, o = Some a ∧ trusted sha hmac secret a) ∧ P.
Proof.
  rewrite bool_decide_eq_false. destruct o as [a|]; [|naive_solver].
  rewrite Verify_Ok. naive_solver.
Qed.

(** Signing and verification.  An artifact with content, signed with a
    secret, verifies under it; and no artifact carrying its signature verifies
    unless its content has the same HMAC and its digest is that of its content. *)
Theorem artifact_signature sha hmac now name version content secret source :
  sha content ≠ "" → trim_space content ≠ "" →
  let signed := Sign hmac (SetContent sha (Some (NewArtifactProvenance now name version)) content)
                  secret source in
  Verify sha hmac signed secret = Ok tt
  ∧ ∀ q secret', Verify sha hmac (Some q) secret' = Ok tt → Signature <$> signed = Some (Signature q) →
      hmac secret' (Content q) = hmac secret content ∧ Digest q = sha256Hex sha (Content q).
Proof.
  intros Hsha Hc. cbn [SetContent Sign mbind option_bind fmap option_fmap option_map Content Signature].
  split.
  - apply Verify_Ok. split; cbn [Content Digest Signature]; [done| |done|done].
    by apply String.eqb_neq, hex_encode_blank.
  - intros q secret' [? ? Hs Hd]%Verify_Ok [= Hq]. split; [|done].
    rewrite Hs in Hq. by apply hex_encode_inj.
Qed.

(** C20 : release readiness.  With a gate that went through any calls of
    [Approve], a release plan is ready exactly when it names a service, the gate's
    number of different people approved, the artifact verifies under the secret,
    and an SLO, a rollback plan and a runbook are present. *)
Theorem release_ready_exact sha hmac now secret p name n actors :
  rp_Gate p = Some (gate_run name n actors) →
  IsReady sha hmac now secret (Some p) = true
  ↔ trim_space (rp_Service p) ≠ ""
    ∧ (Z.max 1 n ≤ Z.of_nat (size (approvers actors)))%Z
    ∧ (∃ a, rp_Artifact p = Some a ∧ trusted sha hmac secret a)
    ∧ is_Some (rp_SLO p) ∧ is_Some (rp_Rollback p) ∧ trim_space (Runbook p) ≠ "".
Proof.
  intros Hg. unfold IsReady, release_validate. rewrite Hg, <- (gate_approved_run name n actors).
  destruct (String.eqb_spec (trim_space (rp_Service p)) ""); [naive_solver|].
  rewrite (bool_decide_eq_false_2 (Some _ = None)) by done.
  destruct (gate_approved _); cbn [negb]; [|naive_solver].
  destruct (rp_Artifact p) as [a|]; cbn; [|naive_solver].
  pose proof (Verify_Ok sha hmac a secret) as Hv. cbn in Hv.
  destruct (Verify sha hmac (Some a) secret) as [[]|e] eqn:E; cbn in E; rewrite E in *; cbn.
  2: { naive_solver. }
  destruct (rp_SLO p), (rp_Rollback p); cbn; try by naive_solver.
  destruct (String.eqb_spec (trim_space (Runbook p)) ""); cbn; naive_solver.
Qed.

(** ** Stage policies *)

(** What a filled policy must satisfy for a stage. *)
Record stage_ok (env service : string) (pol : RoutePolicy) : Prop := {
  st_prod : env = "prod" → RequireSignedArtifacts pol = true ∧ RequireAudit pol = true
              ∧ AllowedTenants pol ≠ [] ∧ AllowedRegions pol ≠ [];
  st_slo : RequireSignedArtifacts pol = true ∨ RequireAudit pol = true → is_Some (SLO pol);
  st_env : pl_Environment pol = env;
  st_service : pl_Service pol = service;
}.

Lemma stage_checks env service pol e1 e2 e3 e4 e5 e6 :
  (fail_if String.eqb env "prod" && unguarded pol with e1;
   fail_if String.eqb env "prod" && no_allowlists pol with e2;
   fail_if RequireSignedArtifacts pol && bool_decide (SLO pol = None) with e3;
   fail_if RequireAudit pol && bool_decide (SLO pol = None) with e4;
   fail_if negb (String.eqb (pl_Environment pol) env) with e5;
   fail_if negb (String.eqb (pl_Service pol) service) with e6; Ok tt) = Ok tt
  ↔ stage_ok env service pol.
Proof.
  rewrite !fail_if_Ok, !negb_false_iff, !String.eqb_eq. unfold unguarded, no_allowlists.
  rewrite !andb_false_iff, !orb_false_iff, !negb_false_iff, !bool_decide_eq_false, !String.eqb_neq,
    !not_eq_None_Some.
  split.
  - intros (Hp & Ha & Hs & Hu & He & Hv & _). split; [| |done|done].
    + intros ->. destruct Hp as [|[[? ?] ?]], Ha as [|[? ?]]; done.
    + intros [E|E]; [destruct Hs | destruct Hu]; congruence || done.
  - intros [Hp Hs He Hv]. destruct (decide (env = "prod")) as [->|Hne].
    + destruct Hp as (H1 & H2 & H3 & H4); [done|]. rewrite H1 in *. naive_solver.
    + destruct (RequireSignedArtifacts pol), (RequireAudit pol); naive_solver.
Qed.

Lemma manifest_policy_Ok env service pol :
  manifest_policy_ok env service pol = Ok tt ↔ stage_ok env service pol.
Proof. apply stage_checks. Qed.
Lemma promotion_policy_Ok env service pol :
  promotion_policy_ok env service pol = Ok tt ↔ stage_ok env service pol.
Proof. apply stage_checks. Qed.

Lemma fill_policy_fixed pol env service :
  pl_Environment pol = env → pl_Service pol = service → fill_policy pol env service = pol.
Proof.
  intros <- <-. unfold fill_policy, with_env_service. destruct pol as [n e s t r a u o]. cbn. destruct e, s; done.
Qed.

(** *** Manifests *)

Definition filled (m : DeploymentManifest) : DeploymentManifest :=
  with_policy m (fill_policy (dm_Policy m) (dm_Environment m) (dm_Service m)).
Record manifest_ok (m : DeploymentManifest) : Prop := {
  mo_service : trim_space (dm_Service m) ≠ "";
  mo_env : trim_space (dm_Environment m) ≠ "";
  mo_policy : stage_ok (dm_Environment m) (dm_Service m) (dm_Policy m);
  mo_audit : Audit m ≠ [];
}.

Lemma filled_id m : manifest_ok m → filled m = m.
Proof.
  intros [_ _ [_ _ He Hs] _]. unfold filled. rewrite fill_policy_fixed by done. by destruct m.
Qed.

(** Validating a manifest whose filled form is fine returns that form. *)
Lemma manifest_validate_ok m : manifest_ok (filled m) → manifest_validate m = (filled m, None).
Proof.
  intros [Hs He Hp Ha]. unfold manifest_validate.
  change (trim_space (dm_Service m) ≠ "") in Hs. change (trim_space (dm_Environment m) ≠ "") in He.
  rewrite (proj2 (String.eqb_neq _ _) Hs), (proj2 (String.eqb_neq _ _) He).
  change (with_policy m _) with (filled m). apply manifest_policy_Ok in Hp.
  change (fill_policy _ _ _) with (dm_Policy (filled m)). rewrite Hp.
  by rewrite bool_decide_eq_false_2.
Qed.
Lemma manifest_validate_None m : (manifest_validate m).2 = None → manifest_ok (filled m).
Proof.
  unfold manifest_validate.
  destruct (String.eqb_spec (trim_space (dm_Service m)) ""); [done|].
  destruct (String.eqb_spec (trim_space (dm_Environment m)) ""); [done|].
  change (with_policy m _) with (filled m). change (fill_policy _ _ _) with (dm_Policy (filled m)).
  destruct (manifest_policy_ok _ _ _) as [[]|e] eqn:E; [|done].
  apply manifest_policy_Ok in E. case_bool_decide; [done|]. by split.
Qed.

(** Manifest validation.  A manifest validates exactly when, its blank
    policy fields filled from it, it names a service and an environment, matches
    its policy, carries an audit trail and an SLO where its policy demands one,
    and, for "prod", demands signatures and audits and lists tenants and
    regions; it is then stored filled, and validates to itself from there on. *)
Theorem manifest_validation m :
  ((manifest_validate m).2 = None ↔ manifest_ok (filled m))
  ∧ ((manifest_validate m).2 = None →
     manifest_validate m = (filled m, None) ∧ manifest_validate (filled m) = (filled m, None)).
Proof.
  assert (manifest_ok (filled m) → manifest_ok (filled (filled m))) as Hstable.
  { intros H. by rewrite filled_id. }
  split; [split|].
  - apply manifest_validate_None.
  - intros H. by rewrite manifest_validate_ok.
  - intros H%manifest_validate_None. split; [by apply manifest_validate_ok|].
    rewrite manifest_validate_ok by auto. by rewrite filled_id.
Qed.

(** *** Promotions *)

Definition promoted (p : PromotionPlan) (t : time) : PromotionPlan :=
  mkPromotion (From_ p) (To p) (pp_Service p) (pp_Version p) (pp_Gate p) (pp_Artifact p)
    (fill_policy (pp_Policy p) (To p) (pp_Service p)) t.

(** Promotions.  A promotion validates exactly when it names a service and
    a target, its gate is satisfied, its artifact verifies under the secret and
    its filled policy is fit for the target stage; the policy is then filled and
    the approval stamped, and nothing else of the plan changes. *)
Theorem promotion_validation sha hmac now secret p :
  let '(p', err) := promotion_validate sha hmac now secret (Some p) in
  (err = None
   ↔ trim_space (pp_Service p) ≠ "" ∧ trim_space (To p) ≠ ""
     ∧ gate_approved (pp_Gate p) = true
     ∧ (∃ a, pp_Artifact p = Some a ∧ trusted sha hmac secret a)
     ∧ stage_ok (To p) (pp_Service p) (fill_policy (pp_Policy p) (To p) (pp_Service p)))
  ∧ (err = None → p' = Some (promoted p now)).
Proof.
  unfold promotion_validate, promotion_admissible.
  destruct (String.eqb_spec (trim_space (pp_Service p)) ""); [split; naive_solver|].
  destruct (pp_Gate p) as [g|] eqn:Eg; [|split; naive_solver].
  rewrite (bool_decide_eq_false_2 (Some _ = None)) by done.
  destruct (gate_approved (Some g)); cbn [negb]; [|split; naive_solver].
  destruct (pp_Artifact p) as [a|] eqn:Ea; [|split; naive_solver].
  rewrite (bool_decide_eq_false_2 (Some _ = None)) by done. rewrite <- !Eg, <- !Ea.
  pose proof (Verify_Ok sha hmac a secret) as Hv. rewrite <- Ea in Hv.
  destruct (Verify sha hmac (pp_Artifact p) secret) as [[]|e]; cbn [wrapf res_bind].
  2: { split; [|done]. split; [done|]. rewrite Ea. naive_solver. }
  destruct (String.eqb_spec (trim_space (To p)) ""); [split; naive_solver|].
  pose proof (promotion_policy_Ok (To p) (pp_Service p)
    (fill_policy (pp_Policy p) (To p) (pp_Service p))) as Hp.
  destruct (promotion_policy_ok _ _ _) as [[]|e].
  - split; [|done]. rewrite Ea. naive_solver.
  - split; [|done]. naive_solver.
Qed.

(** ** Configuration diffs: what is reported *)

(** The last route of a name in a snapshot wins. *)
Lemma route_index_lookup l n :
  route_index l !! n = last (List.filter (λ c, String.eqb (rt_Name c) n) l).
Proof.
  unfold route_index. induction l as [|c l IH] using rev_ind; [done|].
  rewrite foldl_app, List.filter_app. cbn [foldl List.filter].
  destruct (String.eqb_spec (rt_Name c) n) as [->|Hn].
  - by rewrite lookup_insert_eq, last_snoc.
  - by rewrite lookup_insert_ne, app_nil_r by done.
Qed.

(** Two routes a diff takes for the same. *)
Definition same_route (prev c : RouteConfig) : Prop :=
  rt_Target prev = rt_Target c ∧ rt_Weight prev = rt_Weight c ∧ rt_Enabled prev = rt_Enabled c.

Lemma route_change_None index c :
  route_change index c = None ↔ ∃ prev, index !! rt_Name c = Some prev ∧ same_route prev c.
Proof.
  unfold route_change, same_route. destruct (index !! rt_Name c) as [prev|].
  2: { split; [done | by intros (? & ? & _)]. }
  transitivity (same_route prev c).
  - unfold same_route. rewrite <- String.eqb_eq, <- Z.eqb_eq, <- (eqb_true_iff (rt_Enabled prev)).
    destruct (String.eqb _ _), (Z.eqb _ _), (eqb _ _); cbn;
      (split; intros; destruct_and?; repeat split; done).
  - split; [intros ?; by exists prev | intros (? & [= <-] & H); exact H].
Qed.

Lemma diff_fold index t l d0 :
  let d := foldl (λ d c, match route_change index c with
                         | Some ch => mkDiff true (df_Routes d ++ [ch]) (UpdatedAt d)
                         | None => d end) d0 l in
  df_Routes d = df_Routes d0 ++ omap (route_change index) l
  ∧ HasChanges d = HasChanges d0 || negb (bool_decide (omap (route_change index) l = []))
  ∧ (UpdatedAt d0 = t → UpdatedAt d = t).
Proof.
  revert d0. induction l as [|c l IH]; intros d0; cbn [foldl omap list_omap].
  { by rewrite app_nil_r, orb_false_r. }
  destruct (route_change index c) as [ch|] eqn:E; destruct (IH (match route_change index c with
    | Some ch => mkDiff true (df_Routes d0 ++ [ch]) (UpdatedAt d0) | None => d0 end)) as (H1 & H2 & H3);
    rewrite E in *; [|done].
  rewrite H1, H2. cbn. rewrite <- app_assoc. by rewrite orb_true_r.
Qed.

(** A configuration diff lists, in order, the routes of the new snapshot
    that are new or differ in target, weight or enablement from the route of
    that name before, and claims no change exactly when there is none. *)
Theorem config_diff_exact now before after :
  let d := BuildConfigDiff now before after in
  df_Routes d = omap (route_change (route_index (s_Routes before))) (s_Routes after)
  ∧ (HasChanges d = false
     ↔ ∀ c, c ∈ s_Routes after → ∃ prev,
         last (List.filter (λ o, String.eqb (rt_Name o) (rt_Name c)) (s_Routes before)) = Some prev
         ∧ same_route prev c).
Proof.
  intros d.
  assert (df_Routes d = omap (route_change (route_index (s_Routes before))) (s_Routes after)
    ∧ HasChanges d = negb (bool_decide
        (omap (route_change (route_index (s_Routes before))) (s_Routes after) = []))) as [Hr Hc].
  { unfold d, BuildConfigDiff. destruct (diff_fold (route_index (s_Routes before)) now (s_Routes after)
      (mkDiff false [] now)) as (H1 & H2 & _).
    destruct (s_Routes before), (s_Routes after); cbn [df_Routes HasChanges app orb] in *; done. }
  split; [done|]. rewrite Hc, negb_false_iff, bool_decide_eq_true, <- Forall_forall.
  setoid_rewrite <- route_index_lookup. setoid_rewrite <- route_change_None.
  clear Hr Hc. clear d. induction (s_Routes after) as [|c l IH]; cbn [omap list_omap].
  { split; [constructor|done]. }
  rewrite Forall_cons. destruct (route_change _ c).
  - split; [done | by intros [? _]].
  - split; [intros H; split; [done | by apply IH] | intros [_ H]; by apply IH].
Qed.

(** ** Witnesses *)

(** A stand-in for SHA-256 and HMAC in concrete runs. *)
Definition demo_hash (s : string) : string := "#" +:+ s.
Definition demo_mac (secret s : string) : string := secret +:+ ":" +:+ s.
Definition demo_artifact : option ArtifactProvenance :=
  Sign demo_mac (SetContent demo_hash (Some (NewArtifactProvenance 5 "api" "1")) "layer") "k" "".
Definition demo_release : ReleasePlan :=
  mkRelease "prod" "api" "1" (Some (gate_run "g" 2 ["ann"; ""; "ann"; "bob"])) demo_artifact "run"
    (Some default_slo) (Some (NewRollbackPlan "" "" [])) time_zero.

Lemma artifact_signature_witness :
  demo_hash "layer" ≠ "" ∧ trim_space "layer" ≠ "" ∧ Verify demo_hash demo_mac demo_artifact "k" = Ok tt.
Proof.
  split; [done|]. split; [by vm_compute|].
  apply (artifact_signature demo_hash demo_mac 5 "api" "1" "layer" "k" ""); [done | by vm_compute].
Defined.

Lemma release_ready_exact_witness : IsReady demo_hash demo_mac 9 "k" (Some demo_release) = true.
Proof.
  apply (release_ready_exact demo_hash demo_mac 9 "k" demo_release "g" 2 ["ann"; ""; "ann"; "bob"]);
    [reflexivity|].
  split; [by vm_compute|]. split; [by vm_compute|]. split.
  { eexists. split; [reflexivity|]. split; by vm_compute. }
  split; [by eexists|]. split; [by eexists|]. by vm_compute.
Defined.
