(* ===== verification/Ledger.v ===== *)
(** * Deployments: manifest registry, ledger and its stores

    Models the deployment half of src/pkg/runtime/governance.go:
    [DeploymentManifestRegistry], [DeploymentLedger], the [DeploymentStore]
    interface as a type class and [FileDeploymentStore] as its instance.
    Go's maps of maps are nested [gmap]s.  encoding/json and filepath.Dir are
    parameters. *)

From S2P Require Import Prelude GoStrings Registry Governance Os.

(** ** Maps of maps, keyed by service and environment *)

Abbreviation nested A := (gmap string (gmap string A)).

Definition lookup2 {A} (m : nested A) (s e : string) : option A := m !! s ≫= λ n, n !! e.
(** [if m[s] == nil { m[s] = make(...) }]. *)
Definition ensure {A} (m : nested A) (s : string) : nested A :=
  match m !! s with None => <[s := ∅]> m | Some _ => m end.
(** [m[s][e] = x], after [ensure]. *)
Definition insert2 {A} (m : nested A) (s e : string) (x : A) : nested A :=
  <[s := <[e := x]> (default ∅ (m !! s))]> m.

(** ** The manifest registry *)

Record DeploymentManifestRegistry := mkManifests { manifests : nested DeploymentManifest }.
Definition NewDeploymentManifestRegistry : DeploymentManifestRegistry := mkManifests ∅.

Definition manifest_register (r : option DeploymentManifestRegistry) (m : option DeploymentManifest)
    : outcome (option DeploymentManifestRegistry) :=
  match r, m with
  | None, _ => (None, Some "deployment manifest registry is nil")
  | Some r, None => (Some r, Some "deployment manifest is nil")
  | Some r, Some m =>
      match manifest_validate m with
      | (_, Some e) => (Some r, Some ("manifest validation failed: " +:+ e))
      | (m, None) =>
          let service := trim_space (dm_Service m) in
          let env := trim_space (dm_Environment m) in
          let ms := ensure (manifests r) service in
          match lookup2 ms service env with
          | Some _ =>
              (Some (mkManifests ms),
               Some ("manifest already registered for service " +:+ quote service
                     +:+ " in environment " +:+ quote env))
          | None => (Some (mkManifests (insert2 ms service env m)), None)
          end
      end
  end.

Definition manifest_get (r : option DeploymentManifestRegistry) (service environment : string)
    : option DeploymentManifest :=
  r ← r;
  let service := trim_space service in
  let environment := trim_space environment in
  if String.eqb service "" || String.eqb environment "" then None
  else lookup2 (manifests r) service environment.

(** [Validate] fills the stored manifest in place. *)
Definition registry_validate (r : option DeploymentManifestRegistry) (service environment : string)
    : outcome (option DeploymentManifestRegistry) :=
  match r with
  | None => (None, Some "deployment manifest registry is nil")
  | Some rg =>
      match manifest_get r service environment with
      | None => (r, Some ("manifest for service " +:+ quote service +:+ " in environment "
                          +:+ quote environment +:+ " not found"))
      | Some m =>
          let '(m', err) := manifest_validate m in
          (Some (mkManifests (insert2 (manifests rg) (trim_space service) (trim_space environment) m')), err)
      end
  end.

(** ** The ledger: pointers read back from a store may be nil *)

Record DeploymentLedger := mkLedger {
  current : nested (option DeploymentManifest);
  history : nested (list (option DeploymentManifest));
}.
Definition NewDeploymentLedger : DeploymentLedger := mkLedger ∅ ∅.

Definition has_version (version : string) (m : option DeploymentManifest) : bool :=
  match m with Some m => String.eqb (dm_Version m) version | None => false end.

Definition ledger_record (l : option DeploymentLedger) (m : option DeploymentManifest)
    : outcome (option DeploymentLedger) :=
  match l, m with
  | None, _ => (None, Some "deployment ledger is nil")
  | Some l, None => (Some l, Some "deployment manifest is nil")
  | Some l, Some m =>
      match manifest_validate m with
      | (_, Some e) => (Some l, Some ("manifest validation failed: " +:+ e))
      | (m, None) =>
          let service := trim_space (dm_Service m) in
          let env := trim_space (dm_Environment m) in
          let cur := ensure (current l) service in
          let his := ensure (history l) service in
          let past := default [] (lookup2 his service env) in
          if existsb (has_version (dm_Version m)) past then
            (Some (mkLedger cur his),
             Some ("version " +:+ quote (dm_Version m) +:+ " already exists for service "
                   +:+ quote service +:+ " in environment " +:+ quote env))
          else
            (Some (mkLedger (insert2 cur service env (Some m))
                     (insert2 his service env (past ++ [Some m]))), None)
      end
  end.

(** [Current] and [History] return nil pointers as they are stored. *)
Definition Current (l : option DeploymentLedger) (service environment : string)
    : option (option DeploymentManifest) :=
  l ← l;
  let service := trim_space service in
  let environment := trim_space environment in
  if String.eqb service "" || String.eqb environment "" then None
  else lookup2 (current l) service environment.
Definition History (l : option DeploymentLedger) (service environment : string)
    : option (list (option DeploymentManifest)) :=
  l ← l;
  let service := trim_space service in
  let environment := trim_space environment in
  if String.eqb service "" || String.eqb environment "" then None
  else lookup2 (history l) service environment.

(** ** Stores *)

(** The serializable state; [None] is a nil map. *)
Record DeploymentLedgerState := mkState {
  st_Current : option (nested (option DeploymentManifest));
  st_History : option (nested (list (option DeploymentManifest)));
}.

Definition Snapshot (l : option DeploymentLedger) : DeploymentLedgerState :=
  match l with
  | None => mkState None None
  | Some l => mkState (Some (current l)) None
  end.

(** The interface [DeploymentStore], its world explicit. *)
Class DeploymentStore (S : Type) := {
  store_save : S → DeploymentLedgerState → S * option error;
  store_load : S → S * result DeploymentLedgerState;
  store_close : S → S * option error;
}.

Definition state_of (l : DeploymentLedger) : DeploymentLedgerState :=
  mkState (Some (current l)) (Some (history l)).
Definition ledger_of (st : DeploymentLedgerState) : DeploymentLedger :=
  mkLedger (default ∅ (st_Current st)) (default ∅ (st_History st)).

Definition Persist {S} `{DeploymentStore S} (l : option DeploymentLedger) (store : option S)
    : option S * option error :=
  match l, store with
  | None, _ => (store, Some "deployment ledger is nil")
  | Some _, None => (None, Some "deployment store is required")
  | Some l, Some s => let '(s, r) := store_save s (state_of l) in (Some s, r)
  end.

Definition LoadFrom {S} `{DeploymentStore S} (l : option DeploymentLedger) (store : option S)
    : option DeploymentLedger * option S * option error :=
  match l, store with
  | None, _ => (None, store, Some "deployment ledger is nil")
  | Some _, None => (l, None, Some "deployment store is required")
  | Some _, Some s =>
      match store_load s with
      | (s, Err e) => (l, Some s, Some e)
      | (s, Ok st) => (Some (ledger_of st), Some s, None)
      end
  end.

(** ** The file store *)

Record FileDeploymentStore := mkFileStore {
  fs_path : string;
  fs_marshal : option (DeploymentLedgerState → result string);
}.
Definition NewFileDeploymentStore (path : string) : FileDeploymentStore := mkFileStore path None.

Section FileStore.
Context (json_marshal : DeploymentLedgerState → result string)
  (json_unmarshal : string → result DeploymentLedgerState)
  (filepath_dir : string → string).

Definition no_path (s : option FileDeploymentStore) : bool :=
  match s with None => true | Some s => String.eqb (trim_space (fs_path s)) "" end.

Definition file_save (s : option FileDeploymentStore) (fs : filesystem) (st : DeploymentLedgerState)
    : filesystem * option error :=
  match s with
  | None => (fs, Some "file deployment store requires a path")
  | Some s =>
      if no_path (Some s) then (fs, Some "file deployment store requires a path")
      else
        match (match fs_marshal s with None => json_marshal st | Some f => f st end) with
        | Err e => (fs, Some ("marshal deployment ledger state: " +:+ e))
        | Ok data =>
            let dir := filepath_dir (fs_path s) in
            let '(fs, made) := if String.eqb dir "." then (fs, None) else mkdir_all fs dir in
            match made with
            | Some e => (fs, Some ("create deployment store directory: " +:+ e))
            | None =>
                match write_file fs (fs_path s) data with
                | (fs, Some e) => (fs, Some ("write deployment ledger state: " +:+ e))
                | (fs, None) => (fs, None)
                end
            end
        end
  end.

Definition empty_state : DeploymentLedgerState := mkState (Some ∅) (Some ∅).

Definition file_load (s : option FileDeploymentStore) (fs : filesystem)
    : filesystem * result DeploymentLedgerState :=
  match s with
  | None => (fs, Err "file deployment store requires a path")
  | Some s =>
      if no_path (Some s) then (fs, Err "file deployment store requires a path")
      else
        match read_file fs (fs_path s) with
        | (fs, Err e) => (fs, Err ("read deployment ledger state: " +:+ e))
        | (fs, Ok None) => (fs, Ok empty_state)
        | (fs, Ok (Some data)) =>
            (fs, match json_unmarshal data with
                 | Err e => Err ("unmarshal deployment ledger state: " +:+ e)
                 | Ok st => Ok (mkState (Some (default ∅ (st_Current st)))
                                  (Some (default ∅ (st_History st))))
                 end)
        end
  end.

#[export] Instance file_deployment_store : DeploymentStore (option FileDeploymentStore * filesystem) := {
  store_save w st := let '(fs, r) := file_save w.1 w.2 st in ((w.1, fs), r);
  store_load w := let '(fs, r) := file_load w.1 w.2 in ((w.1, fs), r);
  store_close w := (w, None);
}.
End FileStore.

(** ** Lemmas on maps of maps *)

Lemma lookup2_ensure {A} (m : nested A) s s' e : lookup2 (ensure m s) s' e = lookup2 m s' e.
Proof.
  unfold ensure, lookup2. destruct (m !! s) eqn:E; [done|].
  destruct (decide (s = s')) as [<-|Hs].
  - rewrite lookup_insert_eq, E. cbn. apply lookup_empty.
  - by rewrite lookup_insert_ne.
Qed.
Lemma lookup2_insert2 {A} (m : nested A) s e x s' e' :
  lookup2 (insert2 m s e x) s' e' = if decide (s = s' ∧ e = e') then Some x else lookup2 m s' e'.
Proof.
  unfold insert2, lookup2. destruct (decide (s = s')) as [<-|Hs].
  - rewrite lookup_insert_eq. cbn. destruct (decide (e = e')) as [<-|He].
    + rewrite decide_True by done. apply lookup_insert_eq.
    + rewrite decide_False by naive_solver. rewrite lookup_insert_ne by done.
      destruct (m !! s); cbn; [done | apply lookup_empty].
  - rewrite decide_False by naive_solver. by rewrite lookup_insert_ne.
Qed.

(** ** The specification: the list of accepted manifests *)

Definition deployed_to (s e : string) (m : DeploymentManifest) : bool :=
  String.eqb (trim_space (dm_Service m)) s && String.eqb (trim_space (dm_Environment m)) e.
Definition same_release (m o : DeploymentManifest) : bool :=
  deployed_to (trim_space (dm_Service m)) (trim_space (dm_Environment m)) o
  && String.eqb (dm_Version o) (dm_Version m).
(** A release is accepted when its manifest is valid and its version new to its
    service and environment. *)
Definition accepts (log : list DeploymentManifest) (m : DeploymentManifest) : bool :=
  bool_decide ((manifest_validate m).2 = None) && negb (existsb (same_release m) log).
Definition spec_record (log : list DeploymentManifest) (m : DeploymentManifest)
    : list DeploymentManifest := if accepts log m then log ++ [filled m] else log.
Definition releases (log : list DeploymentManifest) (s e : string) : list DeploymentManifest :=
  List.filter (deployed_to s e) log.

Definition nonempty {A} (l : list A) : option (list A) := match l with [] => None | _ => Some l end.

(** The ledger represents a log. *)
Record represents (l : DeploymentLedger) (log : list DeploymentManifest) : Prop := {
  rep_history : ∀ s e, lookup2 (history l) s e = nonempty (Some <$> releases log s e);
  rep_current : ∀ s e, lookup2 (current l) s e = Some <$> last (releases log s e);
  rep_ok : Forall manifest_ok log;
}.

Lemma deployed_to_filled s e m : deployed_to s e (filled m) = deployed_to s e m.
Proof. done. Qed.
Lemma releases_snoc log s e m :
  releases (log ++ [m]) s e = releases log s e ++ if deployed_to s e m then [m] else [].
Proof. unfold releases. rewrite List.filter_app. done. Qed.
Lemma deployed_to_true s e m :
  deployed_to s e m = true ↔ trim_space (dm_Service m) = s ∧ trim_space (dm_Environment m) = e.
Proof. unfold deployed_to. by rewrite andb_true_iff, !String.eqb_eq. Qed.
Lemma default_nonempty {A} (l : list A) : default [] (nonempty l) = l.
Proof. by destruct l. Qed.
Lemma nonempty_snoc {A} (l : list A) x : nonempty (l ++ [x]) = Some (l ++ [x]).
Proof. by destruct l. Qed.

(** The scan of the history is the test of the specification. *)
Lemma known_version log m :
  existsb (has_version (dm_Version m))
    (Some <$> releases log (trim_space (dm_Service m)) (trim_space (dm_Environment m)))
  = existsb (same_release m) log.
Proof.
  unfold releases, same_release. induction log as [|o log IH]; [done|]. cbn [List.filter existsb].
  destruct (deployed_to _ _ o); cbn [fmap list_fmap existsb has_version andb orb]; by rewrite IH.
Qed.

Lemma ledger_record_represents l log m :
  represents l log →
  ∃ l', (ledger_record (Some l) (Some m)).1 = Some l' ∧ represents l' (spec_record log m)
    ∧ ((ledger_record (Some l) (Some m)).2 = None ↔ accepts log m = true).
Proof.
  intros [Hh Hc Hok]. unfold ledger_record, spec_record, accepts.
  destruct (manifest_validate m) as [m' [e|]] eqn:Ev.
  { exists l. cbn [fst snd]. rewrite bool_decide_eq_false_2 by done. split; [done|]. by split. }
  assert (manifest_ok (filled m)) as Hm by (apply manifest_validate_None; by rewrite Ev).
  rewrite manifest_validate_ok in Ev by done. injection Ev as <-. cbn [fst snd].
  rewrite bool_decide_eq_true_2 by done. cbn [andb].
  change (dm_Version (filled m)) with (dm_Version m).
  change (dm_Service (filled m)) with (dm_Service m).
  change (dm_Environment (filled m)) with (dm_Environment m).
  rewrite lookup2_ensure, Hh, default_nonempty, known_version.
  destruct (existsb (same_release m) log) eqn:Ex; cbn [negb fst snd].
  - eexists. split; [done|]. split; [|done].
    split; intros; cbn [history current]; rewrite ?lookup2_ensure; auto.
  - eexists. split; [done|]. split; [|done].
    split; [intros s e|intros s e|apply Forall_app; split; [done | by constructor]];
      cbn [history current]; rewrite lookup2_insert2, releases_snoc, deployed_to_filled, lookup2_ensure;
      destruct (deployed_to s e m) eqn:Ed.
    + apply deployed_to_true in Ed as [-> ->]. rewrite decide_True by done.
      rewrite fmap_app. change (Some <$> [filled m]) with [Some (filled m)]. by rewrite nonempty_snoc.
    + rewrite decide_False, app_nil_r; [done|]. intros [? ?].
      assert (deployed_to s e m = true) by (by apply deployed_to_true). congruence.
    + apply deployed_to_true in Ed as [-> ->]. rewrite decide_True by done. by rewrite last_snoc.
    + rewrite decide_False, app_nil_r; [done|]. intros [? ?].
      assert (deployed_to s e m = true) by (by apply deployed_to_true). congruence.
Qed.

Lemma represents_new : represents NewDeploymentLedger [].
Proof. by split; [intros; unfold lookup2; cbn; rewrite lookup_empty..|]. Qed.

(** Calls of [Record], errors included. *)
Definition record_all (l : option DeploymentLedger) (ms : list DeploymentManifest)
    : option DeploymentLedger := foldl (λ l m, (ledger_record l (Some m)).1) l ms.
Definition accepted (log ms : list DeploymentManifest) : list DeploymentManifest :=
  foldl spec_record log ms.

Lemma record_all_represents l log ms :
  represents l log → ∃ l', record_all (Some l) ms = Some l' ∧ represents l' (accepted log ms).
Proof.
  revert l log. induction ms as [|m ms IH]; intros l log Hl; [by exists l|].
  destruct (ledger_record_represents l log m Hl) as (l1 & E & H1 & _).
  unfold record_all, accepted. cbn [foldl]. rewrite E. by apply IH.
Qed.

Lemma releases_blank l log s e :
  represents l log → s = "" ∨ e = "" → releases log s e = [].
Proof.
  intros [_ _ Hok] Hse. unfold releases. induction Hok as [|m log [Hs He _ _] _ IH]; [done|].
  cbn [List.filter]. destruct (deployed_to s e m) eqn:Ed; [|done].
  apply deployed_to_true in Ed as [<- <-]. naive_solver.
Qed.

(** The queries of a ledger that represents a log. *)
Lemma History_represents l log s e :
  represents l log →
  History (Some l) s e = nonempty (Some <$> releases log (trim_space s) (trim_space e)).
Proof.
  intros Hl. unfold History. cbn [mbind option_bind].
  destruct (String.eqb_spec (trim_space s) ""), (String.eqb_spec (trim_space e) ""); cbn [orb];
    try by rewrite (releases_blank l) by auto.
  apply Hl.
Qed.
Lemma Current_represents l log s e :
  represents l log →
  Current (Some l) s e = Some <$> last (releases log (trim_space s) (trim_space e)).
Proof.
  intros Hl. unfold Current. cbn [mbind option_bind].
  destruct (String.eqb_spec (trim_space s) ""), (String.eqb_spec (trim_space e) ""); cbn [orb];
    try by rewrite (releases_blank l) by auto.
  apply Hl.
Qed.

(** C7 : the ledger refines the log of accepted manifests.  After any calls of
    [Record], [History] returns the accepted manifests of the service and
    environment in order, [Current] the last of them, and the next call succeeds
    exactly when its manifest is valid and its version new there. *)
Theorem ledger_refines ms m s e :
  let log := accepted [] ms in
  ∃ l, record_all (Some NewDeploymentLedger) ms = Some l
    ∧ History (Some l) s e = nonempty (Some <$> releases log (trim_space s) (trim_space e))
    ∧ Current (Some l) s e = Some <$> last (releases log (trim_space s) (trim_space e))
    ∧ ((ledger_record (Some l) (Some m)).2 = None ↔ accepts log m = true).
Proof.
  intros log. destruct (record_all_represents _ [] ms represents_new) as (l & E & Hl).
  exists l. split; [done|]. split; [by apply History_represents|].
  split; [by apply Current_represents|].
  destruct (ledger_record_represents l log m Hl) as (_ & _ & _ & ?). done.
Qed.

(** *** The log *)

Record log_ok (log : list DeploymentManifest) : Prop := {
  log_valid : Forall manifest_ok log;
  log_versions : ∀ s e, NoDup (dm_Version <$> releases log s e);
}.

Lemma spec_record_ok log m : log_ok log → log_ok (spec_record log m).
Proof.
  intros [Hv Hn]. unfold spec_record, accepts.
  destruct (bool_decide _) eqn:Eb; [|by split]. destruct (existsb _ log) eqn:Ex; [by split|].
  cbn [andb negb]. apply bool_decide_eq_true, manifest_validate_None in Eb.
  split; [apply Forall_app; by split; [|constructor]|]. intros s e. rewrite releases_snoc.
  rewrite deployed_to_filled. destruct (deployed_to s e m) eqn:Ed; [|by rewrite app_nil_r].
  rewrite fmap_app. apply NoDup_app. split; [done|]. split; [|apply NoDup_singleton].
  intros v (o & -> & Ho)%list_elem_of_fmap Hv'. apply list_elem_of_singleton in Hv'.
  apply list_elem_of_In, filter_In in Ho as [Ho%list_elem_of_In Hd].
  pose proof (proj1 (existsb_false_iff _ _) Ex o Ho) as Hf. unfold same_release in Hf.
  apply deployed_to_true in Ed as [<- <-]. rewrite Hd in Hf. cbn in Hf, Hv'.
  by rewrite Hv', String.eqb_refl in Hf.
Qed.
Lemma spec_record_prefix log m : log `prefix_of` spec_record log m.
Proof. unfold spec_record. destruct (accepts log m); [by eexists | done]. Qed.
Lemma accepted_ok log ms : log_ok log → log_ok (accepted log ms).
Proof.
  revert log. induction ms as [|m ms IH]; intros log H; [done|]. by apply IH, spec_record_ok.
Qed.
Lemma accepted_prefix log ms : log `prefix_of` accepted log ms.
Proof.
  revert log. induction ms as [|m ms IH]; intros log; [done|].
  etransitivity; [apply (spec_record_prefix log m) | apply IH].
Qed.
Lemma releases_prefix log log' s e :
  log `prefix_of` log' → releases log s e `prefix_of` releases log' s e.
Proof. intros [k ->]. unfold releases. rewrite List.filter_app. by eexists. Qed.
Lemma accepted_app log ms ms' : accepted log (ms ++ ms') = accepted (accepted log ms) ms'.
Proof. apply foldl_app. Qed.

(** The history is append-only and sound.  The history of a service and
    environment holds valid manifests with pairwise distinct versions, and no
    later call of [Record] changes or removes an entry of it. *)
Theorem ledger_append_only ms ms' s e h :
  History (record_all (Some NewDeploymentLedger) ms) s e = Some h →
  ∃ past more, h = Some <$> past ∧ Forall manifest_ok past ∧ NoDup (dm_Version <$> past)
    ∧ History (record_all (Some NewDeploymentLedger) (ms ++ ms')) s e = Some (Some <$> (past ++ more)).
Proof.
  destruct (record_all_represents _ [] ms represents_new) as (l & -> & Hl).
  destruct (record_all_represents _ [] (ms ++ ms') represents_new) as (l' & -> & Hl').
  rewrite (History_represents _ _ s e Hl), (History_represents _ _ s e Hl'), accepted_app.
  assert (log_ok (accepted [] ms)) as [Hv Hn] by (apply accepted_ok; split; [constructor | constructor]).
  set (log := accepted [] ms) in *. set (past := releases log (trim_space s) (trim_space e)).
  destruct (releases_prefix _ _ (trim_space s) (trim_space e) (accepted_prefix log ms')) as [more ->].
  fold past. intros Hh. exists past, more.
  assert (past ≠ [] ∧ h = Some <$> past) as [Hne ->] by (destruct past; [done|]; by injection Hh as <-).
  split; [done|]. split; [|split; [apply Hn | by destruct past]].
  apply Forall_forall. intros m Hm. apply list_elem_of_In, filter_In in Hm as [Hm%list_elem_of_In _].
  by eapply Forall_forall in Hv.
Qed.

(** ** Restarts *)

(** What a durable store promises for the states it can represent: while no
    failure is to come a save succeeds, and after a save that succeeded the
    saved ledger is loaded back. *)
Class DurableStore (S : Type) `{DeploymentStore S}
    (representable : DeploymentLedgerState → Prop) (reliable : S → Prop) := {
  save_reliable : ∀ s st, reliable s → representable st →
    ∃ s', store_save s st = (s', None) ∧ reliable s';
  load_saved : ∀ s s' st, reliable s → store_save s st = (s', None) → representable st → reliable s' →
    ∃ s'' st', store_load s' = (s'', Ok st') ∧ ledger_of st' = ledger_of st ∧ reliable s'';
}.

Lemma ledger_of_state_of l : ledger_of (state_of l) = l.
Proof. by destruct l. Qed.


Section FileDurable.
Context (json_marshal : DeploymentLedgerState → result string)
  (json_unmarshal : string → result DeploymentLedgerState)
  (filepath_dir : string → string).

(** encoding/json reads back what it wrote. *)
Definition json_representable (st : DeploymentLedgerState) : Prop :=
  ∃ data st', json_marshal st = Ok data ∧ json_unmarshal data = Ok st'
    ∧ ledger_of st' = ledger_of st.
(** A store with a path, over files that will not fail. *)
Definition file_reliable (w : option FileDeploymentStore * filesystem) : Prop :=
  ∃ path, w.1 = Some (NewFileDeploymentStore path) ∧ trim_space path ≠ "" ∧ quiet w.2.

Local Abbreviation file_world := (option FileDeploymentStore * filesystem)%type.
Local Instance the_store : DeploymentStore file_world :=
  file_deployment_store json_marshal json_unmarshal filepath_dir.

Lemma file_save_reliable (w : file_world) st :
  file_reliable w → json_representable st →
  ∃ w', store_save w st = (w', None) ∧ file_reliable w'.
Proof.
  destruct w as [o fs]. intros (path & Ho & Hp & Hq) (data & st' & Hm & _). cbn [fst snd] in *. subst o.
  cbn [store_save the_store file_deployment_store fst snd]. unfold file_save, no_path.
  cbn [fs_path fs_marshal NewFileDeploymentStore]. rewrite (proj2 (String.eqb_neq _ _) Hp), Hm.
  assert (∃ fs1, (if String.eqb (filepath_dir path) "." then (fs, None) else mkdir_all fs (filepath_dir path))
      = (fs1, None) ∧ quiet fs1) as (fs1 & -> & Hq1).
  { destruct (String.eqb _ "."); [by exists fs|].
    destruct (mkdir_all_quiet fs (filepath_dir path) Hq) as (fs1 & ? & ? & _). by exists fs1. }
  destruct (write_file_quiet fs1 path data Hq1) as (fs2 & -> & Hq2 & _).
  eexists. split; [done|]. by exists path.
Qed.

Lemma file_save_content s fs st fs' :
  file_save json_marshal filepath_dir (Some s) fs st = (fs', None) → fs_marshal s = None →
  ∃ data, json_marshal st = Ok data ∧ files fs' !! fs_path s = Some data.
Proof.
  unfold file_save. destruct (no_path (Some s)); [done|]. intros E Hm. rewrite Hm in E.
  destruct (json_marshal st) as [data|]; [|done]. exists data. split; [done|].
  destruct (if String.eqb _ _ then _ else _) as [fs1 [e|]]; [done|].
  destruct (write_file fs1 (fs_path s) data) as [fs2 [e|]] eqn:Ew; [done|].
  injection E as <-. apply write_file_ok in Ew. rewrite Ew. apply lookup_insert_eq.
Qed.

Lemma file_load_saved (w w' : file_world) st :
  store_save w st = (w', None) → json_representable st → file_reliable w' →
  ∃ w'' st', store_load w' = (w'', Ok st') ∧ ledger_of st' = ledger_of st ∧ file_reliable w''.
Proof.
  destruct w as [o fs], w' as [o' fs']. cbn [store_save the_store file_deployment_store fst snd].
  destruct (file_save _ _ o fs st) as [fs1 r] eqn:Es. intros [= -> -> ->] (data & st' & Hm & Hu & Hl).
  intros (path & Ho & Hp & Hq). cbn [fst snd] in *. subst o'.
  apply file_save_content in Es as (data' & Hm' & Hf); [|done]. rewrite Hm in Hm'. injection Hm' as <-.
  cbn [fs_path NewFileDeploymentStore] in Hf.
  cbn [store_load the_store file_deployment_store fst snd]. unfold file_load, no_path.
  cbn [fs_path NewFileDeploymentStore]. rewrite (proj2 (String.eqb_neq _ _) Hp).
  destruct (read_file_quiet fs' path Hq) as (fs2 & -> & Hq2 & _). rewrite Hf, Hu.
  do 2 eexists. split; [done|]. split; [|by exists path]. by rewrite <- Hl.
Qed.

#[export] Instance file_store_durable : DurableStore file_world json_representable file_reliable.
Proof. split; [apply file_save_reliable | intros w w' st _; apply file_load_saved]. Qed.
End FileDurable.

(** A save that fails half way has already truncated the only copy of the
    ledger: the next start cannot load it. *)
Theorem torn_save_loses_ledger json_marshal json_unmarshal filepath_dir path fs st data e n e' :
  trim_space path ≠ "" → filepath_dir path = "." → json_marshal st = Ok data →
  json_unmarshal (str_take n data) = Err e' →
  let store := Some (NewFileDeploymentStore path) in
  let '(fs1, r) := file_save json_marshal filepath_dir store (mkFs fs [IoTorn e n]) st in
  is_Some r
  ∧ (file_load json_unmarshal store fs1).2 = Err ("unmarshal deployment ledger state: " +:+ e').
Proof.
  intros Hp Hd Hm Hu store. unfold file_save, store, no_path. cbn [fs_path fs_marshal NewFileDeploymentStore].
  rewrite (proj2 (String.eqb_neq _ _) Hp), Hm, Hd. cbn [String.eqb Ascii.eqb Bool.eqb].
  cbn [write_file next_io plan files put_file]. split; [by eexists|].
  unfold file_load, no_path. cbn [fs_path NewFileDeploymentStore]. rewrite (proj2 (String.eqb_neq _ _) Hp).
  unfold read_file, next_io. cbn [plan put_file io_error files]. rewrite lookup_insert_eq. by rewrite Hu.
Qed.

(** The guard for production looks for exactly "prod", but manifests are filed
    under their trimmed environment: a space lets an unguarded release in. *)
Theorem prod_guard_bypassed now service version audit :
  trim_space service ≠ "" → audit ≠ [] →
  let m := NewDeploymentManifest now " prod" service version in
  let m := mkManifest (dm_Environment m) (dm_Service m) (dm_Version m) (dm_Policy m) audit now in
  let l := (ledger_record (Some NewDeploymentLedger) (Some m)).1 in
  Current l service "prod" = Some (Some m)
  ∧ RequireSignedArtifacts (dm_Policy m) = false ∧ SLO (dm_Policy m) = None.
Proof.
  intros Hs Ha m0 m l. split; [|done].
  assert (manifest_ok (filled m)) as Hm.
  { split; [done | done | | done]. split; [done| | done |].
    - cbn. by intros [?|?].
    - subst m m0. cbn. by destruct service. }
  assert (filled m = m) as Hf.
  { apply filled_id in Hm. unfold filled in *. subst m m0. cbn. by destruct service. }
  destruct (ledger_record_represents NewDeploymentLedger [] m represents_new) as (l' & E & Hl & _).
  subst l. rewrite E. rewrite (Current_represents _ _ _ _ Hl).
  unfold spec_record, accepts. rewrite manifest_validate_ok by done. cbn [snd].
  rewrite bool_decide_eq_true_2 by done. cbn [existsb negb andb app]. rewrite Hf.
  unfold releases. cbn [List.filter].
  replace (deployed_to (trim_space service) (trim_space "prod") m) with true; [done|].
  symmetry. by apply deployed_to_true.
Qed.

(** ** Witnesses *)

Definition demo_manifest (version : string) : DeploymentManifest :=
  mkManifest "staging" "api" version (stage_policy "staging" "api") ["built"] 7.
Definition demo_ledger : DeploymentLedger :=
  match record_all (Some NewDeploymentLedger) [demo_manifest "1"; demo_manifest "2"; demo_manifest "1"]
  with Some l => l | None => NewDeploymentLedger end.
(** A codec for this one ledger. *)
Definition demo_marshal (_ : DeploymentLedgerState) : result string := Ok "{1,2}".
Definition demo_unmarshal (s : string) : result DeploymentLedgerState :=
  if String.eqb s "{1,2}" then Ok (state_of demo_ledger) else Err "unexpected end of JSON input".
Definition demo_dir (_ : string) : string := "data".


Lemma ledger_append_only_witness :
  ∃ h past, History (record_all (Some NewDeploymentLedger) [demo_manifest "1"; demo_manifest "2"])
              "api" "staging" = Some h
    ∧ h = Some <$> past ∧ NoDup (dm_Version <$> past).
Proof.
  eexists.
  destruct (ledger_append_only [demo_manifest "1"; demo_manifest "2"] [demo_manifest "1"] "api" "staging"
    [Some (demo_manifest "1"); Some (demo_manifest "2")]) as (past & more & Hh & _ & Hn & _);
    [vm_compute; reflexivity|].
  exists past. split; [vm_compute; reflexivity|]. split; [exact Hh | exact Hn].
Defined.

Lemma prod_guard_bypassed_witness :
  let m := mkManifest " prod" "api" "1" (stage_policy " prod" "api") ["x"] 0 in
  Current (ledger_record (Some NewDeploymentLedger) (Some m)).1 "api" "prod" = Some (Some m).
Proof. apply (prod_guard_bypassed 0 "api" "1" ["x"]); [by vm_compute | done]. Defined.
