(* ===== verification/Workflow.v ===== *)
(** * Release workflows and the deployment event log

    Models [DeploymentEventLog] and [ReleaseWorkflow] of
    src/pkg/runtime/governance.go, and their refinement of a small state machine
    over phases, approvers and events.  Clock readings are arguments. *)

From S2P Require Import Prelude GoStrings Governance Ledger.

(** ** The event log *)

Record DeploymentEvent := mkEvent {
  ev_Service : string; ev_Environment : string; ev_Version : string; ev_Action : string;
  ev_Actor : string; ev_Reason : string; ev_CreatedAt : time;
}.
Record DeploymentEventLog := mkEventLog { log : nested (list DeploymentEvent) }.
Definition NewDeploymentEventLog : DeploymentEventLog := mkEventLog ∅.

Definition event_record (l : option DeploymentEventLog) (now : time)
    (service environment version action actor reason : string) : outcome (option DeploymentEventLog) :=
  match l with
  | None => (None, Some "deployment event log is nil")
  | Some l =>
      let service := trim_space service in
      let environment := trim_space environment in
      let action := trim_space action in
      let actor := trim_space actor in
      if String.eqb service "" || String.eqb environment "" || String.eqb action ""
      then (Some l, Some "service, environment, and action are required")
      else if String.eqb actor "" then (Some l, Some "actor is required for operator actions")
      else
        let m := ensure (log l) service in
        let ev := mkEvent service environment (trim_space version) action actor (trim_space reason) now in
        (Some (mkEventLog (insert2 m service environment
                 (default [] (lookup2 m service environment) ++ [ev]))), None)
  end.

Definition event_history (l : option DeploymentEventLog) (service environment : string)
    : option (list DeploymentEvent) :=
  l ← l;
  let service := trim_space service in
  let environment := trim_space environment in
  if String.eqb service "" || String.eqb environment "" then None
  else lookup2 (log l) service environment.

Definition Latest (l : option DeploymentEventLog) (service environment : string)
    : option DeploymentEvent :=
  l ← l;
  let service := trim_space service in
  let environment := trim_space environment in
  if String.eqb service "" || String.eqb environment "" then None
  else events ← lookup2 (log l) service environment; last events.

(** ** Release workflows *)

Record ReleaseWorkflow := mkWorkflow {
  w_Service : string; w_Environment : string; w_Version : string;
  Gate : option ApprovalGate; EventLog : option DeploymentEventLog;
  State : string; w_ApprovedAt : time; w_UpdatedAt : time;
}.

Definition NewReleaseWorkflow (now : time) (service environment version : string) : ReleaseWorkflow :=
  mkWorkflow (if String.eqb service "" then "unknown-service" else service)
    (if String.eqb environment "" then "prod" else environment) version
    None (Some NewDeploymentEventLog) "pending" time_zero now.

Definition terminal (w : ReleaseWorkflow) : bool :=
  String.eqb (State w) "rejected" || String.eqb (State w) "rolled_back".
Definition terminal_error (w : ReleaseWorkflow) : error :=
  "release workflow is terminal in state " +:+ quote (State w).

(** [w.EventLog.Record(...)] when the log is set, the last statement of each
    transition. *)
Definition log_event (w : ReleaseWorkflow) (now : time) (action actor reason : string)
    : outcome (option ReleaseWorkflow) :=
  match EventLog w with
  | None => (Some w, None)
  | Some _ =>
      let '(l, r) := event_record (EventLog w) now (w_Service w) (w_Environment w) (w_Version w)
                       action actor reason in
      (Some (mkWorkflow (w_Service w) (w_Environment w) (w_Version w) (Gate w) l (State w)
               (w_ApprovedAt w) (w_UpdatedAt w)), r)
  end.

(** [now] is the update time, [now'] the later reading in [Record]. *)
Definition workflow_approve (w : option ReleaseWorkflow) (now now' : time) (actor : string)
    : outcome (option ReleaseWorkflow) :=
  match w with
  | None => (None, Some "release workflow is nil")
  | Some w =>
      if terminal w then (Some w, Some (terminal_error w))
      else match Gate w with
           | None => (Some w, Some "approval gate is required")
           | Some g =>
               match gate_approve (Some g) actor with
               | Err e => (Some w, Some e)
               | Ok g =>
                   let done := gate_approved (Some g) in
                   log_event
                     (mkWorkflow (w_Service w) (w_Environment w) (w_Version w) (Some g) (EventLog w)
                        (if done then "approved" else State w)
                        (if done then now else w_ApprovedAt w) now)
                     now' "approval" actor "approval recorded"
               end
           end
  end.

Definition workflow_approved (w : option ReleaseWorkflow) : bool :=
  match w with None => false | Some w => gate_approved (Gate w) end.

Definition in_state (w : ReleaseWorkflow) (state : string) (now : time) : ReleaseWorkflow :=
  mkWorkflow (w_Service w) (w_Environment w) (w_Version w) (Gate w) (EventLog w) state
    (w_ApprovedAt w) now.

Definition workflow_rollback (w : option ReleaseWorkflow) (now now' : time) (actor reason : string)
    : outcome (option ReleaseWorkflow) :=
  match w with
  | None => (None, Some "release workflow is nil")
  | Some w =>
      if terminal w then (Some w, Some (terminal_error w))
      else if String.eqb (trim_space actor) "" then (Some w, Some "actor is required for rollback")
      else log_event (in_state w "rolled_back" now) now' "rollback" actor reason
  end.

Definition workflow_reject (w : option ReleaseWorkflow) (now now' : time) (actor reason : string)
    : outcome (option ReleaseWorkflow) :=
  match w with
  | None => (None, Some "release workflow is nil")
  | Some w =>
      if terminal w then (Some w, Some (terminal_error w))
      else if String.eqb (trim_space actor) "" then (Some w, Some "actor is required for rejection")
      else log_event (in_state w "rejected" now) now' "reject" actor reason
  end.

(** Calls on a workflow, with their clock readings. *)
Inductive wf_call :=
  | CallApprove (now now' : time) (actor : string)
  | CallRollback (now now' : time) (actor reason : string)
  | CallReject (now now' : time) (actor reason : string).
Definition wf_apply (w : option ReleaseWorkflow) (c : wf_call) : outcome (option ReleaseWorkflow) :=
  match c with
  | CallApprove t t' a => workflow_approve w t t' a
  | CallRollback t t' a r => workflow_rollback w t t' a r
  | CallReject t t' a r => workflow_reject w t t' a r
  end.
Definition wf_run (w : option ReleaseWorkflow) (cs : list wf_call) : option ReleaseWorkflow :=
  foldl (λ w c, (wf_apply w c).1) w cs.

(** ** The specification *)

Inductive phase := Pending | Approved | Rejected | RolledBack.
#[export] Instance phase_dec : EqDecision phase.
Proof. solve_decision. Defined.
Definition phase_name (p : phase) : string :=
  match p with
  | Pending => "pending" | Approved => "approved" | Rejected => "rejected" | RolledBack => "rolled_back"
  end.
Definition final (p : phase) : bool :=
  match p with Rejected | RolledBack => true | Pending | Approved => false end.

Record machine := mkMachine {
  mc_phase : phase; mc_approvers : list string; mc_events : list DeploymentEvent;
}.

(** The states a phase may change to. *)
Inductive moves : phase → phase → Prop :=
  | move_stay p : moves p p
  | move_approve : moves Pending Approved
  | move_rollback p : final p = false → moves p RolledBack
  | move_reject p : final p = false → moves p Rejected.

Section Machine.
Context (service environment version : string) (required : Z).

Definition event (now : time) (action actor reason : string) : list DeploymentEvent :=
  if String.eqb (trim_space actor) "" then []
  else [mkEvent (trim_space service) (trim_space environment) (trim_space version) action
          (trim_space actor) (trim_space reason) now].

Definition machine_step (m : machine) (c : wf_call) : machine :=
  if final (mc_phase m) then m
  else match c with
       | CallApprove _ t a =>
           if String.eqb a "" then m
           else let who := if existsb (λ x, String.eqb x a) (mc_approvers m) then mc_approvers m
                           else mc_approvers m ++ [a] in
                mkMachine (if (required <=? Z.of_nat (length who))%Z then Approved else mc_phase m)
                  who (mc_events m ++ event t "approval" a "approval recorded")
       | CallRollback _ t a r =>
           if String.eqb (trim_space a) "" then m
           else mkMachine RolledBack (mc_approvers m) (mc_events m ++ event t "rollback" a r)
       | CallReject _ t a r =>
           if String.eqb (trim_space a) "" then m
           else mkMachine Rejected (mc_approvers m) (mc_events m ++ event t "reject" a r)
       end.

Definition machine_init : machine := mkMachine Pending [] [].
Definition machine_run (cs : list wf_call) : machine := foldl machine_step machine_init cs.
End Machine.

(** ** Simulation *)

Section Simulation.
Context (service environment version : string) (required : Z).
Hypothesis (Hservice : trim_space service ≠ "") (Henvironment : trim_space environment ≠ "").

Local Abbreviation step := (machine_step service environment version required).

Record simulates (w : ReleaseWorkflow) (m : machine) : Prop := {
  sim_service : w_Service w = service;
  sim_environment : w_Environment w = environment;
  sim_version : w_Version w = version;
  sim_state : State w = phase_name (mc_phase m);
  sim_gate : ∃ g, Gate w = Some g ∧ Required g = required ∧ Approvals g = mc_approvers m;
  sim_events : ∃ l, EventLog w = Some l
    ∧ lookup2 (log l) (trim_space service) (trim_space environment) = nonempty (mc_events m);
}.

Lemma terminal_final w m : simulates w m → terminal w = final (mc_phase m).
Proof. intros [_ _ _ Hs _ _]. unfold terminal. rewrite Hs. by destruct (mc_phase m). Qed.

(** A transition ends by logging its event, unless its actor is blank. *)
Lemma log_event_simulates w p who evs now action actor reason :
  simulates w (mkMachine p who evs) → trim_space action = action → action ≠ "" →
  ∃ w', log_event w now action actor reason
        = (Some w', if String.eqb (trim_space actor) ""
                    then Some "actor is required for operator actions" else None)
    ∧ simulates w' (mkMachine p who (evs ++ event service environment version now action actor reason)).
Proof.
  intros [H1 H2 H3 H4 H5 (l & Hl & He)] Ha Hne. unfold log_event, event. rewrite Hl, H1, H2, H3.
  unfold event_record. rewrite Ha. cbn [mc_events mc_phase mc_approvers] in *.
  rewrite (proj2 (String.eqb_neq _ _) Hservice), (proj2 (String.eqb_neq _ _) Henvironment),
    (proj2 (String.eqb_neq _ _) Hne). cbn [orb].
  destruct (String.eqb_spec (trim_space actor) ""); (eexists; split; [reflexivity|]).
  - rewrite app_nil_r. split; cbn; eauto.
  - split; cbn [w_Service w_Environment w_Version State Gate EventLog mc_phase mc_approvers mc_events]; [done..|].
    eexists. split; [done|]. cbn [log]. rewrite lookup2_insert2, decide_True by done.
    by rewrite lookup2_ensure, He, default_nonempty, nonempty_snoc.
Qed.

(** Blank and repeated approvers change neither the gate nor the machine. *)
Lemma gate_approve_spec g a :
  gate_approve (Some g) a
  = if String.eqb a "" then Err "approver identity is required"
    else Ok (mkGate (g_Name g) (Required g)
               (if existsb (λ x, String.eqb x a) (Approvals g) then Approvals g
                else Approvals g ++ [a])).
Proof.
  unfold gate_approve. destruct (String.eqb a ""); [done|].
  destruct (existsb _ _); [by destruct g | done].
Qed.

Lemma wf_apply_simulates w m c :
  simulates w m →
  ∃ w' r, wf_apply (Some w) c = (Some w', r) ∧ simulates w' (step m c)
    ∧ (final (mc_phase m) = true → w' = w ∧ r = Some (terminal_error w)).
Proof.
  intros Hsim. pose proof (terminal_final w m Hsim) as Hterm. unfold machine_step.
  destruct (final (mc_phase m)) eqn:Ef.
  { exists w, (Some (terminal_error w)).
    split; [|done]. destruct c; cbn [wf_apply];
      unfold workflow_approve, workflow_rollback, workflow_reject; by rewrite Hterm. }
  pose proof Hsim as [H1 H2 H3 H4 (g & Hg & Hr & Happ) H6].
  destruct c as [t t' a|t t' a r|t t' a r]; cbn [wf_apply];
    unfold workflow_approve, workflow_rollback, workflow_reject; rewrite Hterm.
  - rewrite Hg, gate_approve_spec. destruct (String.eqb a "") eqn:Ea.
    { exists w, (Some "approver identity is required"). done. }
    cbn [gate_approved Required Approvals]. rewrite Hr, Happ.
    set (who := if existsb _ _ then _ else _).
    match goal with |- context [log_event ?w1 _ _ _ _] =>
      assert (simulates w1 (mkMachine (if (required <=? Z.of_nat (length who))%Z then Approved
        else mc_phase m) who (mc_events m))) as Hw1 end.
    { split; cbn [w_Service w_Environment w_Version State Gate EventLog mc_phase mc_approvers mc_events];
        [done|done|done| | |done]; [by destruct (_ <=? _)%Z | by eexists]. }
    edestruct (log_event_simulates _ _ _ _ t' "approval" a "approval recorded" Hw1) as (w' & E & Hw');
      [done..|]. eexists w', _. rewrite E. by split.
  - destruct (String.eqb (trim_space a) "") eqn:Ea; [by eexists w, _|].
    assert (simulates (in_state w "rolled_back" t) (mkMachine RolledBack (mc_approvers m) (mc_events m)))
      as Hw1 by (split; cbn; eauto).
    edestruct (log_event_simulates _ _ _ _ t' "rollback" a r Hw1) as (w' & E & Hw'); [done..|].
    eexists w', _. rewrite E. by split.
  - destruct (String.eqb (trim_space a) "") eqn:Ea; [by eexists w, _|].
    assert (simulates (in_state w "rejected" t) (mkMachine Rejected (mc_approvers m) (mc_events m)))
      as Hw1 by (split; cbn; eauto).
    edestruct (log_event_simulates _ _ _ _ t' "reject" a r Hw1) as (w' & E & Hw'); [done..|].
    eexists w', _. rewrite E. by split.
Qed.

Lemma wf_run_simulates w m cs :
  simulates w m → ∃ w', wf_run (Some w) cs = Some w' ∧ simulates w' (foldl step m cs).
Proof.
  revert w m. induction cs as [|c cs IH]; intros w m Hw; [by exists w|].
  destruct (wf_apply_simulates w m c Hw) as (w1 & r & E & Hw1 & _).
  destruct (IH w1 (step m c) Hw1) as (w' & E' & Hw'). exists w'. split; [|done].
  unfold wf_run. cbn [foldl]. by rewrite E.
Qed.
End Simulation.

(** ** Workflows as the control plane starts them *)

Definition started (now : time) (service environment version name : string) (n : Z) : ReleaseWorkflow :=
  let w := NewReleaseWorkflow now service environment version in
  mkWorkflow (w_Service w) (w_Environment w) (w_Version w) (Some (NewApprovalGate name n)) (EventLog w)
    (State w) (w_ApprovedAt w) (w_UpdatedAt w).

Lemma started_simulates now service environment version name n :
  trim_space service ≠ "" → trim_space environment ≠ "" →
  simulates service environment version (Z.max 1 n)
    (started now service environment version name n) machine_init.
Proof.
  intros Hs He. assert (service ≠ "" ∧ environment ≠ "") as [Hs' He'] by (by split; intros ->).
  split; cbn [started w_Service w_Environment w_Version State Gate EventLog NewReleaseWorkflow].
  - by rewrite (proj2 (String.eqb_neq _ _) Hs').
  - by rewrite (proj2 (String.eqb_neq _ _) He').
  - done.
  - done.
  - eexists. split; [done|]. split; [|done]. cbn. destruct (Z.leb_spec n 0); lia.
  - eexists. split; [done|]. cbn. unfold lookup2. cbn. by rewrite lookup_empty.
Qed.

(** C23 : a release workflow refines its state machine.  After any calls of
    [Approve], [Rollback] and [Reject], the workflow is in the phase of the
    machine, its gate holds the machine's approvers, it reports approval exactly
    when they are enough, and its event log is the machine's list of events. *)
Theorem workflow_refines now service environment version name n cs :
  trim_space service ≠ "" → trim_space environment ≠ "" →
  let m := machine_run service environment version (Z.max 1 n) cs in
  ∃ w, wf_run (Some (started now service environment version name n)) cs = Some w
    ∧ State w = phase_name (mc_phase m)
    ∧ (Approvals <$> Gate w) = Some (mc_approvers m)
    ∧ workflow_approved (Some w) = (Z.max 1 n <=? Z.of_nat (length (mc_approvers m)))%Z
    ∧ event_history (EventLog w) service environment = nonempty (mc_events m).
Proof.
  intros Hs He m.
  destruct (wf_run_simulates service environment version (Z.max 1 n) Hs He
    _ _ cs (started_simulates now service environment version name n Hs He))
    as (w & Hw & [_ _ _ H4 (g & Hg & Hr & Ha) (l & Hl & Hev)]).
  exists w. split; [done|]. split; [done|]. unfold workflow_approved. rewrite Hg. cbn [fmap option_fmap
    option_map gate_approved]. rewrite Ha, Hr. split; [done|]. split; [done|].
  unfold event_history. rewrite Hl. cbn [mbind option_bind].
  by rewrite (proj2 (String.eqb_neq _ _) Hs), (proj2 (String.eqb_neq _ _) He).
Qed.

(** *** The machine *)

(** The actors of the calls of [Approve]. *)
Definition approving (cs : list wf_call) : list string :=
  omap (λ c, match c with CallApprove _ _ a => Some a | _ => None end) cs.

Record machine_inv (required : Z) (actors : list string) (m : machine) : Prop := {
  mi_nodup : NoDup (mc_approvers m);
  mi_sound : ∀ a, a ∈ mc_approvers m → a ∈ actors ∧ a ≠ "";
  mi_open : final (mc_phase m) = false →
    (∀ a, a ∈ actors → a ≠ "" → a ∈ mc_approvers m)
    ∧ (mc_phase m = Approved ↔ (required ≤ Z.of_nat (length (mc_approvers m)))%Z);
}.

Lemma machine_step_inv s e v required actors m c :
  machine_inv required actors m →
  machine_inv required (actors ++ approving [c]) (machine_step s e v required m c)
  ∧ moves (mc_phase m) (mc_phase (machine_step s e v required m c)).
Proof.
  intros [Hn Hs Ho]. unfold machine_step. destruct (final (mc_phase m)) eqn:Ef.
  { split; [split; [done| |congruence]|constructor]. intros a Ha%Hs. set_solver. }
  destruct (Ho eq_refl) as [Hc Hp].
  destruct c as [t t' a|t t' a r|t t' a r]; cbn [approving omap list_omap].
  - destruct (String.eqb_spec a "") as [->|Ha].
    { split; [split; [done| |]|constructor]; [intros x Hx%Hs; set_solver|].
      intros _. split; [|done]. intros x [Hx| ->%list_elem_of_singleton]%elem_of_app; [auto|done]. }
    destruct (existsb (λ x, String.eqb x a) (mc_approvers m)) eqn:Ex.
    + apply existsb_true_iff in Ex as (x & Hx & ->%String.eqb_eq).
      split; cbn [mc_phase mc_approvers].
      * split; cbn [mc_phase mc_approvers]; [done|intros y Hy%Hs; set_solver|]. intros _. split.
        -- intros y [Hy| ->%list_elem_of_singleton]%elem_of_app; auto.
        -- destruct (Z.leb_spec required (Z.of_nat (length (mc_approvers m)))); [done|]. done.
      * destruct (Z.leb_spec required (Z.of_nat (length (mc_approvers m)))) as [Hle|];
          [|constructor]. rewrite (proj2 Hp Hle). constructor.
    + pose proof (proj1 (existsb_false_iff _ _) Ex) as Hnew.
      assert (a ∉ mc_approvers m) as Hna.
      { intros Hin. specialize (Hnew a Hin). cbn in Hnew. by rewrite String.eqb_refl in Hnew. }
      split; cbn [mc_phase mc_approvers].
      * split; cbn [mc_phase mc_approvers].
        -- apply NoDup_app. split; [done|]. split; [set_solver | apply NoDup_singleton].
        -- intros x [Hx%Hs| ->%list_elem_of_singleton]%elem_of_app; [set_solver|].
           split; [set_solver | done].
        -- intros _. split.
           ++ intros x [Hx| ->%list_elem_of_singleton]%elem_of_app Hne; [|set_solver].
              apply elem_of_app. auto.
           ++ destruct (Z.leb_spec required (Z.of_nat (length (mc_approvers m ++ [a])))) as [|Hlt]; [done|].
              split; [|lia]. intros Hph%Hp. rewrite length_app in Hlt. cbn in Hlt. lia.
      * destruct (_ <=? _)%Z; [|constructor]. destruct (mc_phase m); try done; constructor.
  - rewrite app_nil_r. destruct (String.eqb _ ""); (split; [split; try done; auto|]); [constructor|].
    cbn. by constructor.
  - rewrite app_nil_r. destruct (String.eqb _ ""); (split; [split; try done; auto|]); [constructor|].
    cbn. by constructor.
Qed.

Lemma machine_run_inv s e v required cs :
  (1 ≤ required)%Z → machine_inv required (approving cs) (machine_run s e v required cs).
Proof.
  intros Hr. unfold machine_run.
  assert (∀ acc m, machine_inv required acc m →
    machine_inv required (acc ++ approving cs) (foldl (machine_step s e v required) m cs)) as H.
  { induction cs as [|c cs IH]; intros acc m Hm; [by rewrite app_nil_r|]. cbn [foldl].
    replace (acc ++ approving (c :: cs)) with ((acc ++ approving [c]) ++ approving cs).
    - apply IH. by apply machine_step_inv.
    - rewrite <- app_assoc. f_equal. unfold approving. by rewrite <- omap_app. }
  apply (H []). split; cbn; [constructor|set_solver|]. intros _. split; [set_solver|].
  split; [done|lia].
Qed.

Lemma machine_inv_size required actors m :
  machine_inv required actors m → final (mc_phase m) = false →
  length (mc_approvers m) = size (Governance.approvers actors).
Proof.
  intros [Hn Hs Ho] Hf. destruct (Ho Hf) as [Hc _].
  rewrite <- (size_list_to_set (C := gset string) _ Hn). f_equal. apply set_eq. intros a.
  unfold Governance.approvers. rewrite elem_of_difference, !elem_of_list_to_set, elem_of_singleton.
  split; [apply Hs | intros [? ?]; auto].
Qed.
Lemma machine_inv_bound required actors m :
  machine_inv required actors m → length (mc_approvers m) ≤ size (Governance.approvers actors).
Proof.
  intros [Hn Hs _]. rewrite <- (size_list_to_set (C := gset string) _ Hn). apply subseteq_size.
  intros a. unfold Governance.approvers.
  rewrite elem_of_difference, !elem_of_list_to_set, elem_of_singleton. apply Hs.
Qed.

(** C5 : approval is exact.  While a workflow is neither rejected nor rolled
    back, it is in state "approved" exactly when as many different people as its
    gate requires have called [Approve], and "pending" otherwise; it is never
    approved with fewer. *)
Theorem workflow_approval_exact now service environment version name n cs :
  trim_space service ≠ "" → trim_space environment ≠ "" →
  let people := Z.of_nat (size (Governance.approvers (approving cs))) in
  ∃ w, wf_run (Some (started now service environment version name n)) cs = Some w
    ∧ (terminal w = false →
       State w = if (Z.max 1 n <=? people)%Z then "approved" else "pending")
    ∧ (workflow_approved (Some w) = true → (Z.max 1 n ≤ people)%Z).
Proof.
  intros Hs He people.
  destruct (wf_run_simulates service environment version (Z.max 1 n) Hs He
    _ _ cs (started_simulates now service environment version name n Hs He)) as (w & Hw & Hsim).
  fold (machine_run service environment version (Z.max 1 n) cs) in Hsim.
  pose proof (machine_run_inv service environment version (Z.max 1 n) cs ltac:(lia)) as Hm.
  set (m := machine_run _ _ _ _ _) in *. exists w. split; [done|]. split.
  - intros Ht. rewrite (terminal_final _ _ _ _ _ _ Hsim) in Ht.
    destruct (mi_open _ _ _ Hm Ht) as [_ Hp]. pose proof (machine_inv_size _ _ _ Hm Ht) as Hsize.
    rewrite (sim_state _ _ _ _ _ _ Hsim). subst people. rewrite <- Hsize.
    destruct (Z.leb_spec (Z.max 1 n) (Z.of_nat (length (mc_approvers m)))) as [Hle|Hlt].
    + by rewrite (proj2 Hp Hle).
    + destruct (mc_phase m); try done. pose proof (proj1 Hp eq_refl). lia.
  - destruct Hsim as [_ _ _ _ (g & Hg & Hr & Ha) _]. cbn. rewrite Hg. cbn.
    rewrite Hr, Ha, Z.leb_le. pose proof (machine_inv_bound _ _ _ Hm). lia.
Qed.

(** The life cycle.  Every call moves the workflow along the permitted
    transitions of its phase; once it is rejected or rolled back, every call is
    refused and nothing about it changes any more, its event log included. *)
Theorem workflow_lifecycle now service environment version name n cs c cs' :
  trim_space service ≠ "" → trim_space environment ≠ "" →
  ∃ w w' p p', wf_run (Some (started now service environment version name n)) cs = Some w
    ∧ (wf_apply (Some w) c).1 = Some w'
    ∧ State w = phase_name p ∧ State w' = phase_name p' ∧ moves p p'
    ∧ (final p = true →
       is_Some (wf_apply (Some w) c).2 ∧ w' = w ∧ wf_run (Some w) cs' = Some w).
Proof.
  intros Hs He.
  destruct (wf_run_simulates service environment version (Z.max 1 n) Hs He
    _ _ cs (started_simulates now service environment version name n Hs He)) as (w & Hw & Hsim).
  fold (machine_run service environment version (Z.max 1 n) cs) in Hsim.
  pose proof (machine_run_inv service environment version (Z.max 1 n) cs ltac:(lia)) as Hm.
  set (m := machine_run _ _ _ _ _) in *.
  destruct (wf_apply_simulates service environment version (Z.max 1 n) Hs He w m c Hsim)
    as (w' & r & E & Hsim' & Hfin).
  exists w, w', (mc_phase m), (mc_phase (machine_step service environment version (Z.max 1 n) m c)).
  split; [done|]. rewrite E. split; [done|].
  split; [apply (sim_state _ _ _ _ _ _ Hsim)|]. split; [apply (sim_state _ _ _ _ _ _ Hsim')|].
  split; [apply (machine_step_inv _ _ _ _ _ _ c Hm)|].
  intros Hf. destruct (Hfin Hf) as [-> ->]. split; [by eexists|]. split; [done|].
  clear E Hsim' Hfin. induction cs' as [|c' cs' IH]; [done|]. unfold wf_run. cbn [foldl].
  destruct (wf_apply_simulates service environment version (Z.max 1 n) Hs He w m c' Hsim)
    as (w1 & r1 & -> & _ & Hfin). destruct (Hfin Hf) as [-> _]. apply IH.
Qed.

(** An approval by a blank name is refused with an error and counts all the
    same. *)
Theorem blank_approver_counts now service environment version name t t' :
  trim_space service ≠ "" → trim_space environment ≠ "" →
  let '(w, r) := wf_apply (Some (started now service environment version name 1)) (CallApprove t t' " ") in
  r = Some "actor is required for operator actions" ∧ workflow_approved w = true
  ∧ (State <$> w) = Some "approved".
Proof.
  intros Hs He.
  destruct (log_event_simulates service environment version 1 Hs He
    (mkWorkflow service environment version (Some (mkGate name 1 [" "])) (Some NewDeploymentEventLog)
       "approved" t t) Approved [" "] [] t' "approval" " " "approval recorded")
    as (w' & E & [_ _ _ H4 (g & Hg & Hr & Ha) _]); [|done|done|].
  - split; cbn; try done; [by eexists|]. eexists. split; [done|]. cbn. unfold lookup2. cbn.
    by rewrite lookup_empty.
  - assert (service ≠ "" ∧ environment ≠ "") as [Hs' He'] by (by split; intros ->).
    assert (started now service environment version name 1
      = mkWorkflow service environment version (Some (mkGate name 1 [])) (Some NewDeploymentEventLog)
          "pending" time_zero now) as ->.
    { unfold started, NewReleaseWorkflow.
      by rewrite (proj2 (String.eqb_neq _ _) Hs'), (proj2 (String.eqb_neq _ _) He'). }
    change (wf_apply _ _) with (log_event (mkWorkflow service environment version
      (Some (mkGate name 1 [" "])) (Some NewDeploymentEventLog) "approved" t t) t' "approval" " "
      "approval recorded").
    rewrite E. split; [done|]. cbn [fmap option_fmap option_map workflow_approved]. rewrite Hg, H4.
    split; [|done]. cbn [gate_approved]. by rewrite Hr, Ha.
Qed.

(** ** Concurrent operators

    [Approve] runs without a lock around the workflow: it reads the state, and
    only then changes the gate and the state. *)

(** [Approve] after its terminal test has passed. *)
Definition approve_rest (w : ReleaseWorkflow) (now now' : time) (actor : string)
    : outcome (option ReleaseWorkflow) :=
  match Gate w with
  | None => (Some w, Some "approval gate is required")
  | Some g =>
      match gate_approve (Some g) actor with
      | Err e => (Some w, Some e)
      | Ok g =>
          let done := gate_approved (Some g) in
          log_event
            (mkWorkflow (w_Service w) (w_Environment w) (w_Version w) (Some g) (EventLog w)
               (if done then "approved" else State w) (if done then now else w_ApprovedAt w) now)
            now' "approval" actor "approval recorded"
      end
  end.
Lemma workflow_approve_split w now now' actor :
  workflow_approve (Some w) now now' actor
  = if terminal w then (Some w, Some (terminal_error w)) else approve_rest w now now' actor.
Proof. done. Qed.

(** A rejection that runs between the two halves of an approval is overwritten:
    the rejected release ends up approved. *)
Theorem concurrent_rejection_lost now service environment version name t a r :
  trim_space service ≠ "" → trim_space environment ≠ "" → a ≠ "" →
  let w := started now service environment version name 1 in
  terminal w = false
  ∧ ∃ w1 w2, (workflow_reject (Some w) t t "eve" r) = (Some w1, None) ∧ State w1 = "rejected"
      ∧ (approve_rest w1 t t a).1 = Some w2 ∧ State w2 = "approved".
Proof.
  intros Hs He Ha w.
  pose proof (started_simulates now service environment version name 1 Hs He) as Hsim. fold w in Hsim.
  split; [by rewrite (terminal_final _ _ _ _ _ _ Hsim)|].
  destruct (wf_apply_simulates _ _ _ _ Hs He w _ (CallReject t t "eve" r) Hsim)
    as (w1 & r1 & E & Hw1 & _).
  assert (r1 = None) as ->.
  { cbn [wf_apply workflow_reject] in E. rewrite (terminal_final _ _ _ _ _ _ Hsim) in E.
    change (String.eqb (trim_space "eve") "") with false in E. cbn [final machine_init mc_phase] in E.
    assert (simulates service environment version 1 (in_state w "rejected" t)
      (mkMachine Rejected [] [])) as Hin by (destruct Hsim; split; cbn; eauto).
    destruct (log_event_simulates _ _ _ _ Hs He _ _ _ _ t "reject" "eve" r Hin) as (w' & E' & _);
      [done|done|]. rewrite E' in E. by injection E as _ <-. }
  pose proof Hw1 as [H1 H2 H3 H4 (g & Hg & Hr & Hap) H6].
  cbn [machine_step machine_init final mc_phase mc_approvers mc_events String.eqb] in *.
  exists w1. unfold approve_rest. rewrite Hg, gate_approve_spec, (proj2 (String.eqb_neq _ _) Ha), Hap.
  cbn [existsb app gate_approved Required Approvals length]. rewrite Hr. cbn [Z.max].
  match goal with |- context [log_event ?w0 _ _ _ _] =>
    assert (simulates service environment version 1 w0 (mkMachine Approved [a] (mc_events
      (machine_step service environment version 1 machine_init (CallReject t t "eve" r))))) as Hw0 end.
  { split; cbn [w_Service w_Environment w_Version State Gate EventLog mc_phase mc_approvers mc_events];
      [done|done|done|done|by eexists|done]. }
  destruct (log_event_simulates _ _ _ _ Hs He _ _ _ _ t "approval" a "approval recorded" Hw0)
    as (w2 & E2 & Hw2); [done|done|].
  exists w2. rewrite E2. split; [exact E|]. split; [exact H4|]. split; [done|].
  apply (sim_state _ _ _ _ _ _ Hw2).
Qed.

(** ** Witnesses *)

Definition demo_calls : list wf_call :=
  [CallApprove 1 1 "ann"; CallApprove 2 2 "ann"; CallApprove 3 3 "bob"; CallReject 4 4 "eve" "no"].

Lemma workflow_refines_witness :
  (∃ w, wf_run (Some (started 0 "api" "prod" "1" "gate" 2)) demo_calls = Some w ∧ State w = "rejected")
  ∧ length (mc_events (machine_run "api" "prod" "1" 2 demo_calls)) = 4.
Proof.
  split; [|reflexivity].
  destruct (workflow_refines 0 "api" "prod" "1" "gate" 2 demo_calls) as (w & Hw & Hst & _);
    [by vm_compute | by vm_compute|].
  exists w. split; [exact Hw | exact Hst].
Defined.
Lemma workflow_approval_exact_witness :
  ∃ w, wf_run (Some (started 0 "api" "prod" "1" "gate" 2)) (take 3 demo_calls) = Some w
    ∧ (terminal w = false → State w = "approved").
Proof.
  destruct (workflow_approval_exact 0 "api" "prod" "1" "gate" 2 (take 3 demo_calls)) as (w & Hw & Hst & _);
    [by vm_compute | by vm_compute|].
  exists w. split; [exact Hw | exact Hst].
Defined.
Lemma workflow_lifecycle_witness :
  ∃ w w', wf_run (Some (started 0 "api" "prod" "1" "gate" 2)) demo_calls = Some w
    ∧ (wf_apply (Some w) (CallApprove 5 5 "joe")).1 = Some w'.
Proof.
  destruct (workflow_lifecycle 0 "api" "prod" "1" "gate" 2 demo_calls (CallApprove 5 5 "joe") [])
    as (w & w' & _ & _ & Hw & Hw' & _); [by vm_compute | by vm_compute|].
  exists w, w'. split; [exact Hw | exact Hw'].
Defined.
