(* ===== verification/PolicyVersioning.v ===== *)
(** * Versioned policies

    Models src/pkg/runtime/policy_versioning.go: [PolicyVersioner] over the route
    registry, the [PolicyVersionStore] interface as a type class with
    [FilePolicyVersionStore] as its instance, and the policy diff.  The registry
    the versioner writes to is part of its state.  encoding/json and the [%g]
    verb are parameters; the order in which a map is visited is an argument. *)

From S2P Require Import Prelude GoStrings Registry Governance Ledger Os.

Record PolicyVersionRecord := mkRecord {
  pr_Name : string; pr_Environment : string; pr_Version : Z; pr_Policy : RoutePolicy;
  pr_Actor : string; pr_Reason : string; pr_Diff : string; pr_CreatedAt : time;
}.
Abbreviation histories := (gmap string (list PolicyVersionRecord)).
(** [None] is a nil map. *)
Record PolicyVersionState := mkVersions { st_Versions : option histories }.

Class PolicyVersionStore (S : Type) := {
  policy_save : S → PolicyVersionState → S * option error;
  policy_load : S → S * result PolicyVersionState;
  policy_close : S → S * option error;
}.

(** ** The file store *)

Record FilePolicyVersionStore := mkPolicyStore {
  ps_path : string;
  ps_marshal : option (PolicyVersionState → result string);
}.
Definition NewFilePolicyVersionStore (path : string) : FilePolicyVersionStore := mkPolicyStore path None.

Section PolicyFile.
Context (json_marshal : PolicyVersionState → result string)
  (json_unmarshal : string → result PolicyVersionState).

Definition tmp_path (s : FilePolicyVersionStore) : string := ps_path s +:+ ".tmp".

Definition policy_file_save (s : option FilePolicyVersionStore) (fs : filesystem)
    (st : PolicyVersionState) : filesystem * option error :=
  match s with
  | None => (fs, Some "policy version store path is required")
  | Some s =>
      if String.eqb (trim_space (ps_path s)) "" then (fs, Some "policy version store path is required")
      else
        match (match ps_marshal s with None => json_marshal st | Some f => f st end) with
        | Err e => (fs, Some ("failed to marshal policy versions: " +:+ e))
        | Ok raw =>
            match write_file fs (tmp_path s) raw with
            | (fs, Some e) => (fs, Some ("failed to write policy versions: " +:+ e))
            | (fs, None) => rename fs (tmp_path s) (ps_path s)
            end
        end
  end.

Definition policy_file_load (s : option FilePolicyVersionStore) (fs : filesystem)
    : filesystem * result PolicyVersionState :=
  match s with
  | None => (fs, Err "policy version store path is required")
  | Some s =>
      if String.eqb (trim_space (ps_path s)) "" then (fs, Err "policy version store path is required")
      else
        match read_file fs (ps_path s) with
        | (fs, Err e) => (fs, Err ("failed to read policy versions: " +:+ e))
        | (fs, Ok None) => (fs, Ok (mkVersions (Some ∅)))
        | (fs, Ok (Some raw)) =>
            (fs, match json_unmarshal raw with
                 | Err e => Err ("failed to unmarshal policy versions: " +:+ e)
                 | Ok st => Ok (mkVersions (Some (default ∅ (st_Versions st))))
                 end)
        end
  end.

#[export] Instance file_policy_store : PolicyVersionStore (option FilePolicyVersionStore * filesystem) := {
  policy_save w st := let '(fs, r) := policy_file_save w.1 w.2 st in ((w.1, fs), r);
  policy_load w := let '(fs, r) := policy_file_load w.1 w.2 in ((w.1, fs), r);
  policy_close w := (w, None);
}.
End PolicyFile.

(** ** Diffs *)

(** The comparison of the sorted copies. *)
Fixpoint same_elements (a b : list string) : bool :=
  match a, b with
  | x :: a, y :: b => if negb (String.eqb x y) then false else same_elements a b
  | _, _ => true
  end.
Definition equalStringSlices (a b : list string) : bool :=
  if negb (Nat.eqb (length a) (length b)) then false
  else same_elements (sort_strings a) (sort_strings b).

(** [%v] of a string slice and of a bool. *)
Definition fmt_slice (l : list string) : string := "[" +:+ join l " " +:+ "]".
Definition fmt_bool (b : bool) : string := if b then "true" else "false".

Section Diff.
Context (fmt_g : float64 → string).

Definition fmt_slo (s : SLOPolicy) : string :=
  "{error_rate:" +:+ fmt_g (ErrorRateThreshold s) +:+ ", latency_ms:" +:+ itoa (LatencyThresholdMS s)
  +:+ ", burn_rate:" +:+ fmt_g (BurnRateLimit s) +:+ "}".

Definition change (field : string) (changed : bool) (before after : string) : list string :=
  if changed then [field +:+ ": " +:+ before +:+ " -> " +:+ after] else [].

(** Go compares the fields of an SLO as floats: a NaN differs from itself. *)
Definition same_slo (a b : SLOPolicy) : bool :=
  f64_eqb (ErrorRateThreshold a) (ErrorRateThreshold b)
  && (LatencyThresholdMS a =? LatencyThresholdMS b)%Z && f64_eqb (BurnRateLimit a) (BurnRateLimit b).

Definition diffPolicies (before after : RoutePolicy) : string :=
  let changes :=
    change "service" (negb (String.eqb (pl_Service before) (pl_Service after)))
      (quote (pl_Service before)) (quote (pl_Service after))
    ++ change "allowed_tenants" (negb (equalStringSlices (AllowedTenants before) (AllowedTenants after)))
         (fmt_slice (AllowedTenants before)) (fmt_slice (AllowedTenants after))
    ++ change "allowed_regions" (negb (equalStringSlices (AllowedRegions before) (AllowedRegions after)))
         (fmt_slice (AllowedRegions before)) (fmt_slice (AllowedRegions after))
    ++ change "require_signed_artifacts"
         (negb (eqb (RequireSignedArtifacts before) (RequireSignedArtifacts after)))
         (fmt_bool (RequireSignedArtifacts before)) (fmt_bool (RequireSignedArtifacts after))
    ++ change "require_audit" (negb (eqb (RequireAudit before) (RequireAudit after)))
         (fmt_bool (RequireAudit before)) (fmt_bool (RequireAudit after))
    ++ match SLO before, SLO after with
       | None, Some _ => ["slo: added"]
       | Some _, None => ["slo: removed"]
       | Some a, Some b => change "slo" (negb (same_slo a b)) (fmt_slo a) (fmt_slo b)
       | None, None => []
       end in
  match changes with
  | [] => "no changes"
  | _ => join (sort_strings changes) "; "
  end.

(** ** The versioner *)

Context {S : Type} `{PolicyVersionStore S}.

Record PolicyVersioner := mkVersioner {
  pv_registry : RouteRegistry; pv_store : option S; versions : histories;
}.

(** The constructor's loop over the loaded histories, in the order visited. *)
Definition restore (order : list (list PolicyVersionRecord)) (r : RouteRegistry) : RouteRegistry :=
  foldl (λ r history,
    match last history with
    | None => r
    | Some latest =>
        match GetPolicy (Some r) (pr_Name latest) with
        | Some _ => r
        | None => match RegisterPolicy (Some r) (pr_Policy latest) with Ok r' => r' | Err _ => r end
        end
    end) r order.

Definition NewPolicyVersioner (order : histories → list (list PolicyVersionRecord))
    (registry : RouteRegistry) (store : option S) : PolicyVersioner :=
  match store with
  | None => mkVersioner registry None ∅
  | Some s =>
      match policy_load s with
      | (s, Ok (mkVersions (Some vs))) => mkVersioner (restore (order vs) registry) (Some s) vs
      | (s, _) => mkVersioner registry (Some s) ∅
      end
  end.

Definition policyKey (name environment : string) : string :=
  trim_space name +:+ "/" +:+ trim_space environment.

Definition persistLocked (pv : PolicyVersioner) : outcome PolicyVersioner :=
  match pv_store pv with
  | None => (pv, None)
  | Some s =>
      let '(s, r) := policy_save s (mkVersions (Some (versions pv))) in
      (mkVersioner (pv_registry pv) (Some s) (versions pv), r)
  end.

Definition history_of (pv : PolicyVersioner) (key : string) : list PolicyVersionRecord :=
  default [] (versions pv !! key).
(** [pv.versions[key] = append(pv.versions[key], record)] and the persist. *)
Definition append_record (pv : PolicyVersioner) (key : string) (rec : PolicyVersionRecord)
    : outcome PolicyVersioner :=
  persistLocked (mkVersioner (pv_registry pv) (pv_store pv)
                   (<[key := history_of pv key ++ [rec]]> (versions pv))).

Definition replacePolicy (r : RouteRegistry) (policy : RoutePolicy) : result RouteRegistry :=
  let p := stored_policy policy in
  fail_if blank (pl_Name p) with "policy name is required";
  fail_if blank (pl_Service p) with "policy service is required";
  match policies r !! pl_Name p with
  | None => Err ("policy " +:+ quote (pl_Name p) +:+ " not found")
  | Some _ => Ok (with_policies r (<[pl_Name p := p]> (policies r)))
  end.

Definition in_registry (pv : PolicyVersioner) (r : RouteRegistry) : PolicyVersioner :=
  mkVersioner r (pv_store pv) (versions pv).

Definition Create (pv : option PolicyVersioner) (now : time) (policy : RoutePolicy)
    (actor reason : string) : outcome (option PolicyVersioner) :=
  match pv with
  | None => (None, Some "policy versioner is nil")
  | Some pv =>
      if blank (trim_space actor) then (Some pv, Some "actor is required")
      else
        match RegisterPolicy (Some (pv_registry pv)) policy with
        | Err e => (Some pv, Some e)
        | Ok r =>
            let rec := mkRecord (pl_Name policy) (pl_Environment policy) 1 policy
                         (trim_space actor) (trim_space reason) "" now in
            let '(pv, e) := append_record (in_registry pv r)
                              (policyKey (pl_Name policy) (pl_Environment policy)) rec in
            (Some pv, e)
        end
  end.

Definition Update (pv : option PolicyVersioner) (now : time) (policy : RoutePolicy)
    (actor reason : string) : outcome (option PolicyVersioner) :=
  match pv with
  | None => (None, Some "policy versioner is nil")
  | Some pv =>
      if blank (trim_space actor) then (Some pv, Some "actor is required")
      else
        match GetPolicy (Some (pv_registry pv)) (pl_Name policy) with
        | None => (Some pv, Some ("policy " +:+ quote (pl_Name policy)
                                  +:+ " not found; use Create to register it first"))
        | Some current =>
            if negb (String.eqb (pl_Environment current) (pl_Environment policy)) then
              (Some pv, Some ("policy " +:+ quote (pl_Name policy) +:+ " is registered for environment "
                 +:+ quote (pl_Environment current) +:+ "; cannot update to environment "
                 +:+ quote (pl_Environment policy)))
            else
              let policy := stored_policy policy in
              match replacePolicy (pv_registry pv) policy with
              | Err e => (Some pv, Some e)
              | Ok r =>
                  let key := policyKey (pl_Name policy) (pl_Environment policy) in
                  let next := Z.of_nat (Datatypes.S (length (history_of pv key))) in
                  let rec := mkRecord (pl_Name policy) (pl_Environment policy) next policy
                               (trim_space actor) (trim_space reason) (diffPolicies current policy) now in
                  let '(pv, e) := append_record (in_registry pv r) key rec in
                  (Some pv, e)
              end
        end
  end.

(** The zero [RoutePolicy] of a failed lookup. *)
Definition zero_policy : RoutePolicy := mkPolicy "" "" "" [] [] false false None.

Definition Rollback (pv : option PolicyVersioner) (now : time) (name environment : string)
    (toVersion : Z) (actor reason : string) : outcome (option PolicyVersioner) :=
  match pv with
  | None => (None, Some "policy versioner is nil")
  | Some pv =>
      if blank (trim_space actor) then (Some pv, Some "actor is required")
      else
        let key := policyKey name environment in
        let history := history_of pv key in
        match history with
        | [] => (Some pv, Some ("policy " +:+ quote name +:+ " has no version history"))
        | _ =>
            if (toVersion <? 1)%Z || (Z.of_nat (length history) <? toVersion)%Z then
              (Some pv, Some ("version " +:+ itoa toVersion +:+ " is out of range (1.."
                              +:+ itoa (Z.of_nat (length history)) +:+ ")"))
            else
              match history !! Z.to_nat (toVersion - 1) with
              | None => (Some pv, None)
              | Some target =>
                  let current := default zero_policy (GetPolicy (Some (pv_registry pv)) name) in
                  match replacePolicy (pv_registry pv) (pr_Policy target) with
                  | Err e => (Some pv, Some e)
                  | Ok r =>
                      let rec := mkRecord name environment
                                   (Z.of_nat (Datatypes.S (length history))) (pr_Policy target)
                                   (trim_space actor)
                                   ("rollback to v" +:+ itoa toVersion +:+ ": " +:+ trim_space reason)
                                   (diffPolicies current (pr_Policy target)) now in
                      let '(pv, e) := append_record (in_registry pv r) key rec in
                      (Some pv, e)
                  end
              end
        end
  end.

Definition policy_history (pv : option PolicyVersioner) (name environment : string)
    : result (list PolicyVersionRecord) :=
  match pv with
  | None => Err "policy versioner is nil"
  | Some pv =>
      match history_of pv (policyKey name environment) with
      | [] => Err ("policy " +:+ quote name +:+ " has no version history")
      | h => Ok h
      end
  end.

Definition versioner_close (pv : option PolicyVersioner) : outcome (option PolicyVersioner) :=
  match pv with
  | None => (None, None)
  | Some pv =>
      match pv_store pv with
      | None => (Some pv, None)
      | Some s => let '(s, r) := policy_close s in
                  (Some (mkVersioner (pv_registry pv) (Some s) (versions pv)), r)
      end
  end.
End Diff.
Arguments PolicyVersioner : clear implicits.

(** ** The file store is atomic *)

Lemma tmp_path_ne s : tmp_path s ≠ ps_path s.
Proof.
  intros E. apply (f_equal String.length) in E. unfold tmp_path in E. rewrite str_length_app in E.
  cbn in E. lia.
Qed.

(** Saving policy versions is atomic.  Whatever fails, and wherever, the
    file holds either what it held before, when [Save] reports an error, or all
    of the new state, when it reports none. *)
Theorem policy_file_atomic json_marshal path fs st fs' r :
  policy_file_save json_marshal (Some (NewFilePolicyVersionStore path)) fs st = (fs', r) →
  match r with
  | Some _ => files fs' !! path = files fs !! path
  | None => ∃ raw, json_marshal st = Ok raw ∧ files fs' !! path = Some raw
  end.
Proof.
  unfold policy_file_save. cbn [ps_path ps_marshal NewFilePolicyVersionStore].
  destruct (String.eqb _ _); [by intros [= <- <-]|].
  destruct (json_marshal st) as [raw|e]; [|by intros [= <- <-]].
  set (s := NewFilePolicyVersionStore path). assert (path ≠ tmp_path s) as Hne.
  { intros E. by apply (tmp_path_ne s). }
  destruct (write_file fs (tmp_path s) raw) as [fs1 [e|]] eqn:Ew.
  { intros [= <- <-]. by eapply write_file_other. }
  intros [(-> & data & Hd & ->)|([e ->] & ->)]%rename_atomic.
  - exists raw. split; [done|]. rewrite lookup_insert_eq. rewrite (write_file_ok _ _ _ _ Ew),
      lookup_insert_eq in Hd. congruence.
  - by eapply write_file_other.
Qed.

(** ** Keys *)

Definition slash : ascii := "/".
Definition slash_free (name : string) : Prop := mem_byte slash (trim_space name) = false.

Lemma policyKey_trim n e : policyKey (trim_space n) (trim_space e) = policyKey n e.
Proof. unfold policyKey. by rewrite !trim_space_idemp. Qed.
(** A name without a slash is read back from its key. *)
Lemma policyKey_inj n e n' e' :
  slash_free n → slash_free n' → policyKey n e = policyKey n' e' →
  trim_space n = trim_space n' ∧ trim_space e = trim_space e'.
Proof.
  unfold policyKey, slash_free. intros Hn Hn' E.
  pose proof (f_equal (λ s, index_byte s slash) E) as Ei. cbn beta in Ei.
  assert (∀ s t, mem_byte slash s = false → index_byte (s +:+ "/" +:+ t) slash = Some (String.length s))
    as Hidx. { intros s t Hs. by apply (index_byte_app s slash t). }
  rewrite !Hidx in Ei by done. injection Ei as El.
  apply str_app_length_inj in E as [-> E]; [|done]. split; [done|]. by apply str_app_inj_l in E.
Qed.

(** ** The versioner's invariant *)

(** A record that belongs to the policy of a name and environment. *)
Definition record_ok (name env : string) (rec : PolicyVersionRecord) : Prop :=
  trim_space (pr_Name rec) = name ∧ policy_ok name (stored_policy (pr_Policy rec))
  ∧ pl_Environment (stored_policy (pr_Policy rec)) = env.

Record history_ok (r : RouteRegistry) (key : string) (h : list PolicyVersionRecord) : Prop := {
  ho_latest : ∃ latest, last h = Some latest
    ∧ policies r !! trim_space (pr_Name latest) = Some (stored_policy (pr_Policy latest));
  ho_records : ∃ name env, key = policyKey name env ∧ slash_free name
    ∧ trim_space name = name ∧ Forall (record_ok name env) h;
  ho_versions : pr_Version <$> h = seqZ 1 (Z.of_nat (length h));
}.

Record versioner_inv (r : RouteRegistry) (vs : histories) : Prop := {
  vi_registry : map_Forall policy_ok (policies r);
  vi_histories : map_Forall (history_ok r) vs;
  vi_complete : ∀ name p, policies r !! name = Some p →
    slash_free name ∧ is_Some (vs !! policyKey name (pl_Environment p));
}.

(** The policy a history belongs to. *)
Lemma history_policy r key h :
  history_ok r key h →
  ∃ name p, policies r !! name = Some p ∧ slash_free name ∧ trim_space name = name
    ∧ key = policyKey name (pl_Environment p) ∧ Forall (record_ok name (pl_Environment p)) h.
Proof.
  intros [(latest & Hl & Hp) (name & env & -> & Hs & Ht & Hf) _].
  assert (record_ok name env latest) as (Hn & Hok & He).
  { rewrite Forall_forall in Hf. apply Hf. apply last_Some in Hl as [l ->]. set_solver. }
  rewrite Hn in Hp. exists name, (stored_policy (pr_Policy latest)).
  split; [done|]. split; [done|]. split; [done|]. by rewrite He.
Qed.

Lemma stored_policy_fixed k p : policy_ok k p → stored_policy p = p.
Proof.
  intros (<- & [Hn _] & [He Hen] & [Hs _] & [slo Hslo]). unfold stored_policy.
  rewrite Hn, He, Hs, Hslo. rewrite (proj2 (blank_false _) Hen). destruct p. cbn in *. congruence.
Qed.

Lemma stored_policy_idemp p : stored_policy (stored_policy p) = stored_policy p.
Proof.
  unfold stored_policy. cbn [pl_Name pl_Environment pl_Service AllowedTenants AllowedRegions
    RequireSignedArtifacts RequireAudit SLO]. rewrite !trim_space_idemp.
  destruct (blank (trim_space (pl_Environment p))) eqn:Eb; [done|]. by rewrite trim_space_idemp, Eb.
Qed.

(** Appending a record whose policy becomes the active one keeps the invariant. *)
Lemma push_inv r vs name env rec :
  versioner_inv r vs → slash_free name → trim_space name = name → record_ok name env rec →
  pr_Version rec = Z.of_nat (S (length (default [] (vs !! policyKey name env)))) →
  (∀ p, policies r !! name = Some p → pl_Environment p = env) →
  versioner_inv (with_policies r (<[name := stored_policy (pr_Policy rec)]> (policies r)))
    (<[policyKey name env := default [] (vs !! policyKey name env) ++ [rec]]> vs).
Proof.
  intros [Hr Hh Hc] Hs Ht (Hrn & Hok & Henv) Hv Hsame.
  split; cbn [policies with_policies].
  - apply map_Forall_insert_2; [done|done].
  - intros key h Hlk. destruct (decide (policyKey name env = key)) as [<-|Hne].
    + rewrite lookup_insert_eq in Hlk. injection Hlk as <-. split.
      * exists rec. rewrite last_snoc. split; [done|]. cbn [policies with_policies].
        by rewrite Hrn, lookup_insert_eq.
      * exists name, env. split; [done|]. split; [done|]. split; [done|].
        apply Forall_app. split; [|by apply Forall_singleton].
        destruct (vs !! policyKey name env) as [h|] eqn:Eh; [cbn|by apply Forall_nil].
        destruct (history_policy _ _ _ (Hh _ _ Eh)) as (n' & p' & Hp' & Hs' & Ht' & Hk & Hf).
        apply policyKey_inj in Hk as [Hn He]; [|done|done]. rewrite Ht, Ht' in Hn. subst n'.
        by rewrite <- (Hsame p' Hp').
      * rewrite fmap_app, length_app. cbn [fmap list_fmap length]. rewrite Hv, Nat.add_1_r.
        destruct (vs !! policyKey name env) as [h|] eqn:Eh; [cbn [default from_option id]|done].
        rewrite (ho_versions _ _ _ (Hh _ _ Eh)).
        rewrite seqZ_S. f_equal. f_equal. lia.
    + rewrite lookup_insert_ne in Hlk by done. pose proof (Hh _ _ Hlk) as [(l & Hl & Hp) H2 H3].
      destruct (history_policy _ _ _ (Hh _ _ Hlk)) as (n' & p' & Hp' & Hs' & Ht' & Hk & Hf).
      split; [|done|done]. exists l. split; [done|]. cbn [policies with_policies].
      destruct (decide (name = trim_space (pr_Name l))) as [Heq|]; [|by rewrite lookup_insert_ne].
      exfalso. apply Hne. rewrite Hk.
      assert (record_ok n' (pl_Environment p') l) as (Hn' & _).
      { rewrite Forall_forall in Hf. apply Hf. apply last_Some in Hl as [l' ->]. set_solver. }
      assert (n' = name) as -> by congruence. by rewrite (Hsame p' Hp').
  - intros n p Hlk. destruct (decide (name = n)) as [<-|Hne].
    + rewrite lookup_insert_eq in Hlk. injection Hlk as <-. rewrite Henv, lookup_insert_eq. by eauto.
    + rewrite lookup_insert_ne in Hlk by done. destruct (Hc _ _ Hlk) as [? ?].
      split; [done|]. by apply lookup_insert_is_Some'; right.
Qed.

(** ** Sequences of calls *)

Inductive pv_call :=
  | CallCreate (now : time) (policy : RoutePolicy) (actor reason : string)
  | CallUpdate (now : time) (policy : RoutePolicy) (actor reason : string)
  | CallRollback (now : time) (name environment : string) (to : Z) (actor reason : string).

(** Names without a slash, and an environment for every new policy. *)
Definition canonical (c : pv_call) : Prop :=
  match c with
  | CallCreate _ p _ _ => slash_free (pl_Name p) ∧ trim_space (pl_Environment p) ≠ ""
  | CallUpdate _ _ _ _ => True
  | CallRollback _ name _ _ _ _ => slash_free name
  end.

Section Calls.
Context {S : Type} `{PolicyVersionStore S} (fmt_g : float64 → string).

Definition pv_apply (pv : option (PolicyVersioner S)) (c : pv_call) : outcome (option (PolicyVersioner S)) :=
  match c with
  | CallCreate t p a r => Create pv t p a r
  | CallUpdate t p a r => Update fmt_g pv t p a r
  | CallRollback t n e v a r => Rollback fmt_g pv t n e v a r
  end.
Definition pv_step (pv : PolicyVersioner S) (c : pv_call) : PolicyVersioner S :=
  default pv (pv_apply (Some pv) c).1.
Definition pv_run (pv : PolicyVersioner S) (cs : list pv_call) : PolicyVersioner S := foldl pv_step pv cs.

Definition pv_ok (pv : PolicyVersioner S) : Prop := versioner_inv (pv_registry pv) (versions pv).
(** Histories only grow. *)
Definition grows (vs vs' : histories) : Prop :=
  ∀ key, default [] (vs !! key) `prefix_of` default [] (vs' !! key).

Lemma grows_refl vs : grows vs vs.
Proof. by intros key. Qed.
Lemma grows_trans a b c : grows a b → grows b c → grows a c.
Proof. intros H1 H2 key. by transitivity (default [] (b !! key)). Qed.
Lemma grows_push vs key rec : grows vs (<[key := default [] (vs !! key) ++ [rec]]> vs).
Proof.
  intros k. destruct (decide (key = k)) as [<-|Hne]; [rewrite lookup_insert_eq; by eexists|].
  by rewrite lookup_insert_ne.
Qed.

(** Persisting changes neither the registry nor the histories. *)
Lemma append_record_fields (pv : PolicyVersioner S) key rec :
  pv_registry (append_record pv key rec).1 = pv_registry pv
  ∧ versions (append_record pv key rec).1 = <[key := history_of pv key ++ [rec]]> (versions pv).
Proof.
  unfold append_record, persistLocked. cbn [pv_store]. destruct (pv_store pv); [|done].
  by destruct (policy_save _ _).
Qed.

Lemma replacePolicy_Ok r policy r' :
  replacePolicy r policy = Ok r' →
  r' = with_policies r (<[trim_space (pl_Name policy) := stored_policy policy]> (policies r))
  ∧ policy_ok (trim_space (pl_Name policy)) (stored_policy policy)
  ∧ is_Some (policies r !! trim_space (pl_Name policy)).
Proof.
  unfold replacePolicy. rewrite !fail_if_Ok. intros (Hn & Hs & E).
  destruct (policies r !! _) eqn:Ek; [|done]. injection E as <-. split; [done|].
  split; [by apply (stored_policy_ok policy) | by eexists].
Qed.

(** One lemma for the three operations: a record pushed under its key, over the
    registry with that record's policy active. *)
Lemma push_ok (pv : PolicyVersioner S) name env rec r :
  pv_ok pv → slash_free name → trim_space name = name → record_ok name env rec →
  pr_Version rec = Z.of_nat (Datatypes.S (length (history_of pv (policyKey name env)))) →
  (∀ p, policies (pv_registry pv) !! name = Some p → pl_Environment p = env) →
  r = with_policies (pv_registry pv) (<[name := stored_policy (pr_Policy rec)]> (policies (pv_registry pv))) →
  let pv' := (append_record (in_registry pv r) (policyKey name env) rec).1 in
  pv_ok pv' ∧ grows (versions pv) (versions pv').
Proof.
  intros Hok Hs Ht Hr Hv Hsame -> pv'. unfold pv_ok, pv'.
  destruct (append_record_fields (in_registry pv (with_policies (pv_registry pv)
    (<[name := stored_policy (pr_Policy rec)]> (policies (pv_registry pv))))) (policyKey name env) rec)
    as [-> ->].
  split; [by apply push_inv | apply grows_push].
Qed.

Lemma Create_ok (pv : PolicyVersioner S) t p a r :
  pv_ok pv → canonical (CallCreate t p a r) →
  let pv' := pv_step pv (CallCreate t p a r) in pv_ok pv' ∧ grows (versions pv) (versions pv').
Proof.
  intros Hok [Hs He] pv'. unfold pv', pv_step. cbn [pv_apply Create].
  destruct (blank _); [by split; [|apply grows_refl]|].
  destruct (RegisterPolicy _ p) as [rg|e] eqn:E; [|by split; [|apply grows_refl]].
  apply RegisterPolicy_Ok in E as (-> & Hnew & Hp). cbn [pl_Name stored_policy] in Hnew, Hp.
  destruct (append_record _ _ _) as [pv1 err] eqn:Ea. cbn [fst default from_option].
  replace pv1 with (append_record (in_registry pv (with_policies (pv_registry pv)
    (<[pl_Name (stored_policy p) := stored_policy p]> (policies (pv_registry pv)))))
    (policyKey (pl_Name p) (pl_Environment p))
    (mkRecord (pl_Name p) (pl_Environment p) 1 p (trim_space a) (trim_space r) "" t)).1 by by rewrite Ea.
  rewrite <- policyKey_trim. apply push_ok; cbn [pr_Version pr_Policy]; [done| | | | | |done].
  - unfold slash_free. by rewrite trim_space_idemp.
  - apply trim_space_idemp.
  - split; [done|]. split; [exact Hp|]. cbn. by rewrite (proj2 (blank_false _) He).
  - unfold history_of. destruct (versions pv !! _) as [h|] eqn:Eh; [|done]. exfalso.
    destruct (history_policy _ _ _ (vi_histories _ _ Hok _ _ Eh)) as (n & q & Hq & Hsn & Htn & Hk & _).
    rewrite policyKey_trim in Hk. apply policyKey_inj in Hk as [Hn _]; [|done|done].
    rewrite Htn in Hn. subst n. cbn in *. congruence.
  - intros q Hq. congruence.
Qed.

Lemma Update_ok (pv : PolicyVersioner S) t p a r :
  pv_ok pv →
  let pv' := pv_step pv (CallUpdate t p a r) in pv_ok pv' ∧ grows (versions pv) (versions pv').
Proof.
  intros Hok pv'. unfold pv', pv_step. cbn [pv_apply Update].
  destruct (blank _); [by split; [|apply grows_refl]|].
  destruct (GetPolicy _ _) as [current|] eqn:Eg; [|by split; [|apply grows_refl]].
  cbn [GetPolicy mbind option_bind] in Eg.
  destruct (String.eqb_spec (pl_Environment current) (pl_Environment p)) as [Heq|];
    cbn [negb]; [|by split; [|apply grows_refl]].
  destruct (replacePolicy _ _) as [rg|e] eqn:E; [|by split; [|apply grows_refl]].
  apply replacePolicy_Ok in E as (-> & Hp & _).
  pose proof (vi_registry _ _ Hok _ _ Eg) as (_ & [_ Hnn] & [Het Hen] & _).
  assert (trim_space (pl_Name (stored_policy p)) = trim_space (pl_Name p)) as Hname
    by (cbn; apply trim_space_idemp).
  rewrite Hname in Hp |- *.
  assert (pl_Environment (stored_policy p) = pl_Environment p) as Henv.
  { cbn. rewrite <- Heq, Het. by rewrite (proj2 (blank_false _) Hen). }
  destruct (vi_complete _ _ Hok _ _ Eg) as [Hs _].
  match goal with |- context [append_record ?a ?k ?b] => destruct (append_record a k b) as [pv1 err] eqn:Ea end.
  cbn [fst default from_option]. apply (f_equal fst) in Ea. cbn [fst] in Ea. rewrite <- Ea.
  change (pl_Name (stored_policy p)) with (trim_space (pl_Name p)). rewrite Henv.
  apply push_ok; cbn [pr_Version pr_Policy]; [done|done|apply trim_space_idemp| |done| |done].
  - split; [apply trim_space_idemp|]. cbn [pr_Policy]. split; [done|]. by rewrite stored_policy_idemp.
  - intros q Hq. congruence.
Qed.

Lemma Rollback_ok (pv : PolicyVersioner S) t n e v a r :
  pv_ok pv → slash_free n →
  let pv' := pv_step pv (CallRollback t n e v a r) in pv_ok pv' ∧ grows (versions pv) (versions pv').
Proof.
  intros Hok Hn pv'. unfold pv', pv_step. cbn [pv_apply Rollback].
  destruct (blank _); [by split; [|apply grows_refl]|].
  destruct (versions pv !! policyKey n e) as [h|] eqn:Eh.
  2: { unfold history_of. rewrite Eh. cbn. by split; [|apply grows_refl]. }
  assert (history_of pv (policyKey n e) = h) as Hh by (unfold history_of; by rewrite Eh).
  rewrite Hh. destruct h as [|rec0 h0]; [by split; [|apply grows_refl]|]. set (h := rec0 :: h0) in *.
  destruct (_ || _); [by split; [|apply grows_refl]|].
  destruct (h !! _) as [target|] eqn:Et; [|by split; [|apply grows_refl]].
  destruct (replacePolicy _ _) as [rg|err] eqn:E; [|by split; [|apply grows_refl]].
  apply replacePolicy_Ok in E as (-> & _ & _).
  destruct (history_policy _ _ _ (vi_histories _ _ Hok _ _ Eh)) as (name & q & Hq & Hs & Ht & Hk & Hf).
  pose proof (proj1 (Forall_lookup _ _) Hf _ _ Et) as (_ & Hpol & Henv).
  pose proof (proj1 Hpol) as Hname. cbn in Hname.
  apply policyKey_inj in Hk as [Hn1 He1]; [|done|done]. rewrite Ht in Hn1.
  pose proof (vi_registry _ _ Hok _ _ Hq) as (_ & _ & [Het _] & _). rewrite Het in He1.
  match goal with |- context [append_record ?a ?k ?b] => destruct (append_record a k b) as [pv1 err] eqn:Ea end.
  cbn [fst default from_option]. apply (f_equal fst) in Ea. cbn [fst] in Ea. rewrite <- Ea, Hname.
  rewrite <- (policyKey_trim n e), Hn1, He1.
  apply push_ok; cbn [pr_Version pr_Policy]; [done|done|done| | | |done].
  - split; [done|]. split; [done|]. done.
  - rewrite <- Hn1, <- He1, policyKey_trim, Hh. done.
  - intros q' Hq'. congruence.
Qed.

Lemma pv_step_ok (pv : PolicyVersioner S) c :
  pv_ok pv → canonical c → pv_ok (pv_step pv c) ∧ grows (versions pv) (versions (pv_step pv c)).
Proof.
  intros Hok Hc. destruct c; [by apply Create_ok | by apply Update_ok | by apply Rollback_ok].
Qed.
Lemma pv_run_ok (pv : PolicyVersioner S) cs :
  pv_ok pv → Forall canonical cs → pv_ok (pv_run pv cs) ∧ grows (versions pv) (versions (pv_run pv cs)).
Proof.
  intros Hok Hcs. revert pv Hok. induction Hcs as [|c cs Hc _ IH]; intros pv Hok.
  { split; [done | apply grows_refl]. }
  destruct (pv_step_ok pv c Hok Hc) as [H1 H2]. destruct (IH _ H1) as [H3 H4].
  split; [done|]. by eapply grows_trans.
Qed.

Definition fresh (store : option S) : PolicyVersioner S := mkVersioner NewRouteRegistry store ∅.
Lemma fresh_ok store : pv_ok (fresh store).
Proof. split; [apply map_Forall_empty | apply map_Forall_empty | done]. Qed.


(** ** Restarts *)

Lemma restore_step (r acc : RouteRegistry) key h :
  map_Forall policy_ok (policies r) → history_ok r key h → policies acc ⊆ policies r →
  let acc' := restore [h] acc in
  policies acc' ⊆ policies r ∧ policies acc ⊆ policies acc'
  ∧ ∀ name p, policies r !! name = Some p → key = policyKey name (pl_Environment p) →
      slash_free name → trim_space name = name → policies acc' !! name = Some p.
Proof.
  intros Hr Hh Hsub. destruct (ho_latest _ _ _ Hh) as (l & Hl & Hlp).
  destruct (history_policy _ _ _ Hh) as (n & q & Hq & Hs & Ht & Hk & Hf).
  assert (record_ok n (pl_Environment q) l) as (Hn & Hok & _).
  { rewrite Forall_forall in Hf. apply Hf. apply last_Some in Hl as [l' ->]. set_solver. }
  assert (∀ m : gmap string RoutePolicy, m !! n = Some q → ∀ name p,
    policies r !! name = Some p → key = policyKey name (pl_Environment p) →
    slash_free name → trim_space name = name → m !! name = Some p) as Hfound.
  { intros m Ha name p Hp Hk' Hs' Ht'. rewrite Hk in Hk'. apply policyKey_inj in Hk' as [E _]; [|done|done].
    rewrite Ht, Ht' in E. subst name. congruence. }
  cbn [restore foldl]. rewrite Hl. cbn [GetPolicy mbind option_bind]. rewrite Hn in *.
  destruct (policies acc !! n) as [p|] eqn:Ea.
  { split; [done|]. split; [done|]. apply Hfound.
    pose proof (lookup_weaken _ _ _ _ Ea Hsub). congruence. }
  pose proof (proj1 Hok) as Hname. unfold stored_policy in Hname. cbn [pl_Name] in Hname.
  destruct Hok as (_ & [_ Hnn] & _ & [_ Hsv] & _). unfold RegisterPolicy.
  rewrite Hname, (proj2 (blank_false _) Hnn). cbn [stored_policy pl_Service] in Hsv.
  rewrite (proj2 (blank_false _) Hsv), Ea. cbn [policies with_policies].
  assert (stored_policy (pr_Policy l) = q) as -> by congruence.
  split; [by apply insert_subseteq_l|]. split; [by apply insert_subseteq|].
  apply Hfound, lookup_insert_eq.
Qed.

Lemma restore_all (r acc : RouteRegistry) (vs : histories) (l : list (list PolicyVersionRecord)) :
  map_Forall policy_ok (policies r) → map_Forall (history_ok r) vs →
  (∀ h, h ∈ l → ∃ key, vs !! key = Some h) → policies acc ⊆ policies r →
  policies (restore l acc) ⊆ policies r ∧ policies acc ⊆ policies (restore l acc)
  ∧ ∀ name p h, policies r !! name = Some p → slash_free name → trim_space name = name →
      vs !! policyKey name (pl_Environment p) = Some h → h ∈ l → policies (restore l acc) !! name = Some p.
Proof.
  intros Hr Hvs. revert acc. induction l as [|h l IH]; intros acc Hl Hsub.
  { split; [done|]. split; [done|]. set_solver. }
  destruct (Hl h) as [key Hkey]; [by left|].
  destruct (restore_step r acc key h Hr (Hvs _ _ Hkey) Hsub) as (H1 & H2 & H3).
  change (restore (h :: l) acc) with (restore l (restore [h] acc)).
  destruct (IH (restore [h] acc)) as (H4 & H5 & H6); [set_solver|done|].
  split; [done|]. split; [by etrans|]. intros name p h' Hp Hs Ht Hv Hin.
  apply elem_of_cons in Hin as [->|Hin]; [|by eapply H6].
  eapply lookup_weaken; [|exact H5]. apply H3; [done| |done|done].
  (* the key of a history is the one its policy determines *)
  destruct (history_policy _ _ _ (Hvs _ _ Hkey)) as (n & q & Hq & Hs' & Ht' & Hk & Hf).
  destruct (history_policy _ _ _ (Hvs _ _ Hv)) as (n2 & q2 & Hq2 & Hs2 & Ht2 & Hk2 & Hf2).
  apply policyKey_inj in Hk2 as [E _]; [|done|done]. rewrite Ht, Ht2 in E. subst n2.
  destruct (ho_latest _ _ _ (Hvs _ _ Hkey)) as (lt & Hlt & _).
  assert (lt ∈ h) as Hin by (apply last_Some in Hlt as [l' ->]; set_solver).
  rewrite Forall_forall in Hf, Hf2. destruct (Hf _ Hin) as (E1 & _ & E2), (Hf2 _ Hin) as (E3 & _ & E4).
  congruence.
Qed.

(** Restarts restore the active policies.  A new versioner over an empty
    registry, whose store gives back the histories, ends with exactly the
    policies that were active, in whatever order the histories are visited. *)
Theorem restart_restores_policies store cs order s s' :
  Forall canonical cs →
  let pv := pv_run (fresh store) cs in
  policy_load s = (s', Ok (mkVersions (Some (versions pv)))) →
  (∀ vs, order vs ≡ₚ values vs) →
  let pv' := NewPolicyVersioner order NewRouteRegistry (Some s) in
  policies (pv_registry pv') = policies (pv_registry pv) ∧ versions pv' = versions pv.
Proof.
  intros Hcs pv Hload Horder pv'. destruct (pv_run_ok _ _ (fresh_ok store) Hcs) as [[Hr Hh Hc] _].
  fold pv in Hr, Hh, Hc. unfold pv', NewPolicyVersioner. rewrite Hload. cbn [pv_registry versions].
  split; [|done].
  destruct (restore_all (pv_registry pv) NewRouteRegistry (versions pv) (order (versions pv)) Hr Hh)
    as (H1 & _ & H2); [|apply map_empty_subseteq|].
  - intros h Hin. rewrite Horder in Hin. unfold values in Hin.
    apply list_elem_of_fmap in Hin as ([k h'] & -> & Hin%elem_of_map_to_list). by exists k.
  - apply (anti_symm (⊆)); [done|]. apply map_subseteq_spec. intros name p Hp.
    destruct (Hc _ _ Hp) as [Hs [h Hkey]]. eapply H2; [done|done| |done|].
    + apply Hr in Hp as (_ & [? _] & _). done.
    + rewrite Horder. unfold values. apply list_elem_of_fmap. exists (policyKey name (pl_Environment p), h).
      split; [done|]. by apply elem_of_map_to_list.
Qed.
End Calls.

(** A policy created without an environment is recorded under its blank
    environment but updated under "prod": its history is split, and the update
    is numbered 1 again. *)
Theorem blank_environment_splits_history {S} `{PolicyVersionStore S} fmt_g :
  let p := mkPolicy "p" "" "svc" [] [] false false None in
  let q := mkPolicy "p" "prod" "svc" ["t1"] [] false false None in
  let pv := pv_run (S := S) fmt_g (fresh None) [CallCreate 1 p "ann" ""; CallUpdate 2 q "bob" ""] in
  pr_Version <$> history_of pv "p/" = [1%Z] ∧ pr_Version <$> history_of pv "p/prod" = [1%Z].
Proof. vm_compute. done. Qed.

(** ** Order-insensitive comparison *)

Lemma same_elements_eq a b : length a = length b → same_elements a b = true ↔ a = b.
Proof.
  revert b. induction a as [|x a IH]; intros [|y b] Hl; cbn in *; try done.
  destruct (String.eqb_spec x y) as [->|Hne]; cbn [negb].
  - rewrite IH by congruence. naive_solver.
  - naive_solver.
Qed.

(** The diff compares tenants and regions as bags: two lists count as
    equal exactly when one is a permutation of the other. *)
Theorem equalStringSlices_permutation a b : equalStringSlices a b = true ↔ a ≡ₚ b.
Proof.
  unfold equalStringSlices. destruct (Nat.eqb_spec (length a) (length b)) as [Hl|Hl]; cbn [negb].
  - rewrite same_elements_eq by by rewrite !sort_strings_Permutation. apply sort_strings_eq.
  - split; [done|]. intros Hab. by rewrite Hab in Hl.
Qed.

(** ** Witnesses *)

(** A store that keeps the last state saved. *)
Definition memory_store : PolicyVersionStore PolicyVersionState := {|
  policy_save _ st := (st, None);
  policy_load s := (s, Ok s);
  policy_close s := (s, None);
|}.
Definition demo_policy (tenants : list string) : RoutePolicy :=
  mkPolicy "pay" "prod" "billing" tenants ["eu"] true true None.
Definition demo_pv_calls : list pv_call :=
  [CallCreate 1 (demo_policy ["a"]) "ann" "new"; CallUpdate 2 (demo_policy ["a"; "b"]) "bob" "more";
   CallRollback 3 "pay" "prod" 1 "eve" "undo"; CallUpdate 4 (demo_policy []) " " "refused"].
Lemma demo_pv_canonical : Forall canonical demo_pv_calls.
Proof. by repeat (constructor; [first [done | by vm_compute | split; by vm_compute]|]). Qed.
Definition demo_pv : PolicyVersioner PolicyVersionState :=
  @pv_run _ memory_store (λ _, "0") (fresh (Some (mkVersions None))) demo_pv_calls.


Lemma restart_restores_policies_witness :
  let pv' := @NewPolicyVersioner _ memory_store values NewRouteRegistry
               (Some (mkVersions (Some (versions demo_pv)))) in
  policies (pv_registry pv') = policies (pv_registry demo_pv).
Proof.
  apply (@restart_restores_policies _ memory_store (λ _, "0") (Some (mkVersions None)) demo_pv_calls values
    (mkVersions (Some (versions demo_pv))) (mkVersions (Some (versions demo_pv))));
    [apply demo_pv_canonical | reflexivity | reflexivity].
Defined.

Lemma policy_file_atomic_witness :
  let fs := mkFs {[ "p.json" := "old" ]} [IoOk; IoRefused "busy"] in
  let '(fs', r) := policy_file_save (λ _, Ok "new") (Some (NewFilePolicyVersionStore "p.json")) fs
                     (mkVersions None) in
  r = Some "busy" ∧ files fs' !! "p.json" = files fs !! "p.json".
Proof.
  intros fs. destruct (policy_file_save _ _ _ _) as [fs' r] eqn:E.
  assert (r = Some "busy") as Hr by (vm_compute in E; congruence).
  split; [exact Hr|].
  pose proof (policy_file_atomic (λ _, Ok "new") "p.json" fs (mkVersions None) fs' r E) as H.
  rewrite Hr in H. exact H.
Defined.
