(* ===== verification/ControlPlane.v ===== *)
(** * The control plane API

    Models src/pkg/runtime/controlplane.go: the server's state, the mux, bearer
    authentication, the routing table and every handler.  encoding/json is the
    decoders of the request bodies; [http.ServeMux]'s path cleaning, the stores
    and the [%g] verb are parameters; clock readings, random numbers and the
    order in which maps are visited are arguments of a request. *)

From S2P Require Import Prelude GoStrings Registry Governance Ledger Workflow PolicyVersioning.

(** ** Requests and responses *)

Record api_request := mkApi {
  rq_method : string; rq_path : string; rq_authorization : string; rq_body : string;
}.

Inductive value :=
  | VStr (s : string)
  | VInt (z : Z)
  | VBool (b : bool)
  | VHeaders (h : list (string * string))
  | VUpstreams (l : list UpstreamConfig)
  | VRoutes (l : list RouteConfig)
  | VPolicies (l : list RoutePolicy)
  | VRecords (l : list PolicyVersionRecord)
  | VCurrent (m : option (nested (option DeploymentManifest)))
  | VManifests (l : list (option DeploymentManifest))
  | VReleases (l : list (list (string * string))).

(** What [writeJSON] encodes: an object, or a policy or manifest itself. *)
Inductive body :=
  | Obj (fields : list (string * value))
  | PolicyBody (p : RoutePolicy)
  | ManifestBody (m : option DeploymentManifest)
  | NoBody.
Record response := mkResponse { rs_code : Z; rs_body : body }.

Definition writeJSON (code : Z) (fields : list (string * value)) : response :=
  mkResponse code (Obj fields).
Definition write_error (code : Z) (msg : string) : response := writeJSON code [("error", VStr msg)].

Definition writeConflictOrInvalid (e : error) : response :=
  if contains e "already exists" then write_error 409 e else write_error 422 e.

(** ** State *)

Record ControlPlaneConfig := mkConfig {
  Addr : string; StorePath : string; AdminToken : string; ApprovalRequirement : Z;
}.

Record policyRequest := mkPolicyRequest {
  pq_policy : RoutePolicy; pq_actor : string; pq_reason : string;
}.
Record policyRollbackRequest := mkPolicyRollback {
  prq_version : Z; prq_actor : string; prq_reason : string;
}.
Record deploymentRequest := mkDeployment {
  dq_service : string; dq_environment : string; dq_version : string; dq_audit : list string;
}.
Record releaseRequest := mkReleaseRequest {
  rlq_service : string; rlq_environment : string; rlq_version : string;
}.
Record actorRequest := mkActor { aq_actor : string; aq_reason : string }.

(** What the environment supplies to one request. *)
Record environment := mkEnv {
  now1 : time; now2 : time;
  intn : Z → Z;
  upstream_order : list UpstreamConfig;
  history_order : list (string * list PolicyVersionRecord);
}.

Definition workflowKey (service environment version : string) : string :=
  service +:+ "/" +:+ environment +:+ "/" +:+ version.
Definition workflowGateKey (service environment : string) : string :=
  trim_space service +:+ "/" +:+ trim_space environment.

(** [subtle.ConstantTimeCompare]. *)
Definition checkToken (a b : string) : bool := String.eqb a b.

(** ** Routing *)

Inductive apiHandler :=
  | H_listUpstreams | H_createUpstream | H_listRoutes | H_createRoute | H_resolveRoute
  | H_listDeployments | H_createDeployment | H_getDeployment | H_getDeploymentHistory
  | H_listReleases | H_createRelease | H_getRelease | H_approveRelease | H_rollbackRelease | H_rejectRelease
  | H_listPolicies | H_createPolicy | H_getPolicy | H_updatePolicy | H_policyHistory | H_rollbackPolicy.

#[export] Instance apiHandler_dec : EqDecision apiHandler.
Proof. solve_decision. Defined.

Record apiRoute := mkApiRoute { ar_segments : list string; ar_methods : list (string * apiHandler) }.

Definition apiRoutingTable : list apiRoute := [
  mkApiRoute ["upstreams"] [("GET", H_listUpstreams); ("POST", H_createUpstream)];
  mkApiRoute ["routes"] [("GET", H_listRoutes); ("POST", H_createRoute)];
  mkApiRoute ["routes"; "{name}"; "target"] [("GET", H_resolveRoute)];
  mkApiRoute ["deployments"] [("GET", H_listDeployments); ("POST", H_createDeployment)];
  mkApiRoute ["deployments"; "{service}"; "{environment}"] [("GET", H_getDeployment)];
  mkApiRoute ["deployments"; "{service}"; "{environment}"; "history"] [("GET", H_getDeploymentHistory)];
  mkApiRoute ["releases"] [("GET", H_listReleases); ("POST", H_createRelease)];
  mkApiRoute ["releases"; "{service}"; "{environment}"; "{version}"] [("GET", H_getRelease)];
  mkApiRoute ["releases"; "{service}"; "{environment}"; "{version}"; "approve"] [("POST", H_approveRelease)];
  mkApiRoute ["releases"; "{service}"; "{environment}"; "{version}"; "rollback"] [("POST", H_rollbackRelease)];
  mkApiRoute ["releases"; "{service}"; "{environment}"; "{version}"; "reject"] [("POST", H_rejectRelease)];
  mkApiRoute ["policies"] [("GET", H_listPolicies); ("POST", H_createPolicy)];
  mkApiRoute ["policies"; "{name}"] [("GET", H_getPolicy); ("PUT", H_updatePolicy)];
  mkApiRoute ["policies"; "{name}"; "history"] [("GET", H_policyHistory)];
  mkApiRoute ["policies"; "{name}"; "rollback"] [("POST", H_rollbackPolicy)]].

Definition is_param (seg : string) : bool := has_prefix seg "{" && has_suffix seg "}".

(** The loop over the pattern; both lists have the same length. *)
Fixpoint match_segments (pattern parts : list string) : option (list string) :=
  match pattern, parts with
  | seg :: pattern, part :: parts =>
      if is_param seg then params ← match_segments pattern parts; Some (part :: params)
      else if String.eqb seg part then match_segments pattern parts else None
  | _, _ => Some []
  end.
Definition matchRoute (pattern parts : list string) : option (list string) :=
  if negb (Nat.eqb (length pattern) (length parts)) then None else match_segments pattern parts.

(** [strings.Trim(path, "/")]. *)
Fixpoint trim_left_slashes (s : string) : string :=
  match s with
  | String c r => if Ascii.eqb c slash then trim_left_slashes r else s
  | EmptyString => s
  end.
Definition trim_slashes (s : string) : string :=
  String.rev (trim_left_slashes (String.rev (trim_left_slashes s))).
Definition splitPath (path : string) : list string :=
  let trimmed := trim_slashes path in
  if String.eqb trimmed "" then [""] else split trimmed slash.

Fixpoint method_handler (method : string) (l : list (string * apiHandler)) : option apiHandler :=
  match l with
  | [] => None
  | (m, h) :: l => if String.eqb m method then Some h else method_handler method l
  end.

(** The outcome of the table: a handler with its parameters, or a refusal. *)
Inductive routed :=
  | Routed (h : apiHandler) (params : list string)
  | MethodNotAllowed
  | NotRouted.
Fixpoint route_in (table : list apiRoute) (method : string) (parts : list string) : routed :=
  match table with
  | [] => NotRouted
  | route :: table =>
      match matchRoute (ar_segments route) parts with
      | None => route_in table method parts
      | Some params =>
          match method_handler method (ar_methods route) with
          | None => MethodNotAllowed
          | Some h => Routed h params
          end
      end
  end.

(** [parts[i]], which Go bounds-checks. *)
Definition part (parts : list string) (i : nat) : string := default "" (parts !! i).

(** ** The server *)

Section ControlPlane.
Context {S P : Type} `{DeploymentStore S} `{PolicyVersionStore P}.
Context (fmt_g : float64 → string) (url_ok : string → bool) (clean_path : string → string).
Context (decode_upstream : string → option UpstreamConfig)
  (decode_route : string → option RouteConfig)
  (decode_policy : string → option policyRequest)
  (decode_policy_rollback : string → option policyRollbackRequest)
  (decode_deployment : string → option deploymentRequest)
  (decode_release : string → option releaseRequest)
  (decode_actor : string → option actorRequest).

(** The route registry is the one inside the policy versioner. *)
Record ControlPlaneServer := mkServer {
  cp_ledger : DeploymentLedger;
  cp_store : option S;
  cp_workflows : gmap string ReleaseWorkflow;
  cp_gates : gmap string Z;
  cp_policies : PolicyVersioner P;
  cp_config : ControlPlaneConfig;
}.
Definition cp_registry (cp : ControlPlaneServer) : RouteRegistry := pv_registry (cp_policies cp).

Definition set_ledger cp l := mkServer l (cp_store cp) (cp_workflows cp) (cp_gates cp) (cp_policies cp) (cp_config cp).
Definition set_store cp s := mkServer (cp_ledger cp) s (cp_workflows cp) (cp_gates cp) (cp_policies cp) (cp_config cp).
Definition set_workflows cp w := mkServer (cp_ledger cp) (cp_store cp) w (cp_gates cp) (cp_policies cp) (cp_config cp).
Definition set_gates cp g := mkServer (cp_ledger cp) (cp_store cp) (cp_workflows cp) g (cp_policies cp) (cp_config cp).
Definition set_policies cp p := mkServer (cp_ledger cp) (cp_store cp) (cp_workflows cp) (cp_gates cp) p (cp_config cp).
Definition set_registry cp r := set_policies cp (in_registry (cp_policies cp) r).

(** The ledger is loaded when there is a store; a failure is only logged. *)
Definition NewControlPlaneServerWithStores (order : histories → list (list PolicyVersionRecord))
    (cfg : ControlPlaneConfig) (deploymentStore : option S) (policyStore : option P)
    : ControlPlaneServer :=
  let '(ledger, store) :=
    match deploymentStore with
    | None => (NewDeploymentLedger, None)
    | Some s => let '(l, s, _) := LoadFrom (Some NewDeploymentLedger) (Some s) in
                (default NewDeploymentLedger l, s)
    end in
  mkServer ledger store ∅ ∅ (NewPolicyVersioner order NewRouteRegistry policyStore) cfg.

(** The file-backed constructor; the policy history lives next to the ledger. *)
Definition policy_store_path (path : string) : string := trim_suffix path ".json" +:+ "-policies.json".
Definition NewControlPlaneServer (order : histories → list (list PolicyVersionRecord))
    (open_store : string → S) (open_policies : string → P) (cfg : ControlPlaneConfig)
    : ControlPlaneServer :=
  if String.eqb (StorePath cfg) "" then NewControlPlaneServerWithStores order cfg None None
  else NewControlPlaneServerWithStores order cfg (Some (open_store (StorePath cfg)))
         (Some (open_policies (policy_store_path (StorePath cfg)))).

Definition Reload (cp : ControlPlaneServer) : ControlPlaneServer * option error :=
  match cp_store cp with
  | None => (cp, Some "control plane has no store configured")
  | Some s =>
      let '(l, s, r) := LoadFrom (Some (cp_ledger cp)) (Some s) in
      (set_store (set_ledger cp (default (cp_ledger cp) l)) s, r)
  end.

Definition SetWorkflowGate (cp : ControlPlaneServer) (service environment : string) (required : Z)
    : ControlPlaneServer :=
  let service := trim_space service in
  let environment := trim_space environment in
  if blank service || blank environment then cp
  else set_gates cp (<[workflowGateKey service environment := if (required <=? 0)%Z then 1%Z else required]>
                       (cp_gates cp)).

Definition Close (cp : ControlPlaneServer) : ControlPlaneServer * option error :=
  let '(cp, first) :=
    match cp_store cp with
    | None => (cp, None)
    | Some s => let '(_, r) := store_close s in (set_store cp None, r)
    end in
  let '(pv, r) := versioner_close (Some (cp_policies cp)) in
  (set_policies cp (default (cp_policies cp) pv), match first with Some e => Some e | None => r end).

Definition workflow (cp : ControlPlaneServer) (service environment version : string)
    : option ReleaseWorkflow := cp_workflows cp !! workflowKey service environment version.

Definition persist (cp : ControlPlaneServer) : ControlPlaneServer * option error :=
  match cp_store cp with
  | None => (cp, None)
  | Some s =>
      match Persist (Some (cp_ledger cp)) (Some s) with
      | (s, Some e) => (set_store cp s, Some ("persist deployment ledger: " +:+ e))
      | (s, None) => (set_store cp s, None)
      end
  end.

(** [decodeJSON]: a body that does not decode is answered 400. *)
Definition decodeJSON {A} (decode : string → option A) (cp : ControlPlaneServer) (rq : api_request)
    (k : A → ControlPlaneServer * option response) : ControlPlaneServer * option response :=
  match decode (rq_body rq) with
  | None => (cp, Some (write_error 400 "malformed json body"))
  | Some b => k b
  end.
Definition reply (cp : ControlPlaneServer) (r : response) : ControlPlaneServer * option response :=
  (cp, Some r).

Definition release_not_found : response := write_error 404 "release workflow not found".

(** The three operator actions on a release: load, call, answer. *)
Definition act_on_release (cp : ControlPlaneServer) (parts : list string)
    (act : ReleaseWorkflow → outcome (option ReleaseWorkflow))
    (answer : ReleaseWorkflow → response) : ControlPlaneServer * option response :=
  let '(service, environment, version) := (part parts 0, part parts 1, part parts 2) in
  match workflow cp service environment version with
  | None => reply cp release_not_found
  | Some wf =>
      let '(w, r) := act wf in
      let wf := default wf w in
      let cp := set_workflows cp (<[workflowKey service environment version := wf]> (cp_workflows cp)) in
      match r with
      | Some e => reply cp (writeConflictOrInvalid e)
      | None => reply cp (answer wf)
      end
  end.

Definition of_policy (name : string) (kv : string * list PolicyVersionRecord) : bool :=
  match split2 kv.1 slash with
  | first :: _ => String.eqb first (trim_space name)
  | [] => false
  end.

(** The environment of a policy rollback: from the history under the blank
    environment, or the first one found for the name. *)
Definition rollback_history (env : environment) (cp : ControlPlaneServer) (name : string)
    : list PolicyVersionRecord :=
  match policy_history (Some (cp_policies cp)) name "" with
  | Ok h => h
  | Err _ =>
      match find (λ kv, of_policy name kv && negb (bool_decide (kv.2 = []))) (history_order env) with
      | Some kv => kv.2
      | None => []
      end
  end.

Definition release_fields (key : string) (wf : ReleaseWorkflow) : list (string * string) :=
  [("workflow", key); ("service", w_Service wf); ("environment", w_Environment wf);
   ("version", w_Version wf); ("state", State wf)].

(** *** The handlers *)

Definition listUpstreams (env : environment) (cp : ControlPlaneServer) (rq : api_request)
    (parts : list string) : ControlPlaneServer * option response :=
  let reg := Some (cp_registry cp) in
  reply cp (writeJSON 200 [("items", VUpstreams (ListUpstreams reg))]).

Definition createUpstream (env : environment) (cp : ControlPlaneServer) (rq : api_request)
    (parts : list string) : ControlPlaneServer * option response :=
  let reg := Some (cp_registry cp) in
  decodeJSON decode_upstream cp rq (λ b,
    match RegisterUpstream url_ok reg b with
    | Err e => reply cp (writeConflictOrInvalid e)
    | Ok r => reply (set_registry cp r)
                (writeJSON 201 [("status", VStr "created"); ("name", VStr (up_Name b))])
    end).

Definition listRoutes (env : environment) (cp : ControlPlaneServer) (rq : api_request)
    (parts : list string) : ControlPlaneServer * option response :=
  let reg := Some (cp_registry cp) in
  reply cp (writeJSON 200 [("items", VRoutes (List_ reg))]).

Definition createRoute (env : environment) (cp : ControlPlaneServer) (rq : api_request)
    (parts : list string) : ControlPlaneServer * option response :=
  let reg := Some (cp_registry cp) in
  decodeJSON decode_route cp rq (λ b,
    match Register reg b with
    | Err e => reply cp (writeConflictOrInvalid e)
    | Ok r => reply (set_registry cp r)
                (writeJSON 201 [("status", VStr "created"); ("name", VStr (rt_Name b))])
    end).

Definition resolveRoute (env : environment) (cp : ControlPlaneServer) (rq : api_request)
    (parts : list string) : ControlPlaneServer * option response :=
  let reg := Some (cp_registry cp) in
  let name := part parts 0 in
  match ResolveRouteTarget (intn env) (upstream_order env) reg name with
  | NoTarget => reply cp (write_error 404 ("route " +:+ quote name +:+ " not found or no healthy upstream"))
  | TargetPanic => (cp, None)
  | TargetUrl t =>
      let hs := RouteHeaders reg name in
      reply cp (writeJSON 200 ([("route", VStr name); ("target", VStr t)]
                               ++ match hs with [] => [] | _ => [("headers", VHeaders hs)] end))
  end.

Definition listPolicies (env : environment) (cp : ControlPlaneServer) (rq : api_request)
    (parts : list string) : ControlPlaneServer * option response :=
  let reg := Some (cp_registry cp) in
  reply cp (writeJSON 200 [("items", VPolicies (ListPolicies reg))]).

Definition createPolicy (env : environment) (cp : ControlPlaneServer) (rq : api_request)
    (parts : list string) : ControlPlaneServer * option response :=
  decodeJSON decode_policy cp rq (λ b,
    let '(pv, r) := Create (Some (cp_policies cp)) (now1 env) (pq_policy b) (pq_actor b) (pq_reason b) in
    let cp := set_policies cp (default (cp_policies cp) pv) in
    match r with
    | Some e => reply cp (writeConflictOrInvalid e)
    | None => reply cp (writeJSON 201 [("status", VStr "created"); ("name", VStr (pl_Name (pq_policy b)));
                                       ("version", VInt 1)])
    end).

Definition getPolicy (env : environment) (cp : ControlPlaneServer) (rq : api_request)
    (parts : list string) : ControlPlaneServer * option response :=
  let reg := Some (cp_registry cp) in
  let name := part parts 0 in
  match GetPolicy reg name with
  | None => reply cp (write_error 404 ("policy " +:+ quote name +:+ " not found"))
  | Some p => reply cp (mkResponse 200 (PolicyBody p))
  end.

Definition updatePolicy (env : environment) (cp : ControlPlaneServer) (rq : api_request)
    (parts : list string) : ControlPlaneServer * option response :=
  let name := part parts 0 in
  decodeJSON decode_policy cp rq (λ b,
    let p := pq_policy b in
    let p := mkPolicy name (pl_Environment p) (pl_Service p) (AllowedTenants p) (AllowedRegions p)
               (RequireSignedArtifacts p) (RequireAudit p) (SLO p) in
    let '(pv, r) := Update fmt_g (Some (cp_policies cp)) (now1 env) p (pq_actor b) (pq_reason b) in
    let cp := set_policies cp (default (cp_policies cp) pv) in
    match r with
    | Some e => if contains e "not found" then reply cp (write_error 404 e)
                else reply cp (writeConflictOrInvalid e)
    | None =>
        let version := match policy_history (Some (cp_policies cp)) name (pl_Environment p) with
                       | Ok hs => default 0%Z (pr_Version <$> last hs)
                       | Err _ => 0%Z
                       end in
        reply cp (writeJSON 200 [("status", VStr "updated"); ("name", VStr name); ("version", VInt version)])
    end).

Definition policyHistory (env : environment) (cp : ControlPlaneServer) (rq : api_request)
    (parts : list string) : ControlPlaneServer * option response :=
  let name := part parts 0 in
  match concat ((List.filter (of_policy name) (history_order env)).*2) with
  | [] => reply cp (write_error 404 ("policy " +:+ quote name +:+ " has no version history"))
  | items => reply cp (writeJSON 200 [("items", VRecords items)])
  end.

Definition rollbackPolicy (env : environment) (cp : ControlPlaneServer) (rq : api_request)
    (parts : list string) : ControlPlaneServer * option response :=
  let name := part parts 0 in
  decodeJSON decode_policy_rollback cp rq (λ b,
    match rollback_history env cp name with
    | [] => reply cp (write_error 404 ("policy " +:+ quote name +:+ " has no version history"))
    | first :: _ =>
        let '(pv, r) := Rollback fmt_g (Some (cp_policies cp)) (now1 env) name (pr_Environment first)
                          (prq_version b) (prq_actor b) (prq_reason b) in
        let cp := set_policies cp (default (cp_policies cp) pv) in
        match r with
        | Some e => reply cp (writeConflictOrInvalid e)
        | None => reply cp (writeJSON 200 [("status", VStr "rolled_back"); ("name", VStr name);
                                           ("to_version", VInt (prq_version b))])
        end
    end).

Definition createDeployment (env : environment) (cp : ControlPlaneServer) (rq : api_request)
    (parts : list string) : ControlPlaneServer * option response :=
  decodeJSON decode_deployment cp rq (λ b,
    let m := NewDeploymentManifest (now1 env) (dq_environment b) (dq_service b) (dq_version b) in
    let m := mkManifest (dm_Environment m) (dm_Service m) (dm_Version m) (dm_Policy m)
               (dq_audit b) (dm_CreatedAt m) in
    let '(l, r) := ledger_record (Some (cp_ledger cp)) (Some m) in
    let cp := set_ledger cp (default (cp_ledger cp) l) in
    match r with
    | Some e => reply cp (writeConflictOrInvalid e)
    | None =>
        let '(cp, r) := persist cp in
        match r with
        | Some _ => reply cp (write_error 500 "failed to persist deployment state")
        | None => reply cp (writeJSON 201 [("status", VStr "recorded"); ("service", VStr (dq_service b));
                     ("environment", VStr (dm_Environment m)); ("version", VStr (dq_version b))])
        end
    end).

Definition listDeployments (env : environment) (cp : ControlPlaneServer) (rq : api_request)
    (parts : list string) : ControlPlaneServer * option response :=
  reply cp (writeJSON 200 [("current", VCurrent (st_Current (Snapshot (Some (cp_ledger cp)))))]).

Definition getDeployment (env : environment) (cp : ControlPlaneServer) (rq : api_request)
    (parts : list string) : ControlPlaneServer * option response :=
  match Current (Some (cp_ledger cp)) (part parts 0) (part parts 1) with
  | None => reply cp (write_error 404 "deployment not found")
  | Some m => reply cp (mkResponse 200 (ManifestBody m))
  end.

Definition getDeploymentHistory (env : environment) (cp : ControlPlaneServer) (rq : api_request)
    (parts : list string) : ControlPlaneServer * option response :=
  match History (Some (cp_ledger cp)) (part parts 0) (part parts 1) with
  | None => reply cp (write_error 404 "no history for deployment")
  | Some hs => reply cp (writeJSON 200 [("items", VManifests hs)])
  end.

Definition createRelease (env : environment) (cp : ControlPlaneServer) (rq : api_request)
    (parts : list string) : ControlPlaneServer * option response :=
  decodeJSON decode_release cp rq (λ b,
    let '(service, environment, version) := (rlq_service b, rlq_environment b, rlq_version b) in
    let key := workflowKey service environment version in
    match cp_workflows cp !! key with
    | Some _ => reply cp (write_error 409 "release workflow already exists")
    | None =>
        let required := match cp_gates cp !! workflowGateKey service environment with
                        | Some scoped => scoped
                        | None => ApprovalRequirement (cp_config cp)
                        end in
        let required := if (required <=? 0)%Z then 1%Z else required in
        let wf := started (now1 env) service environment version key required in
        reply (set_workflows cp (<[key := wf]> (cp_workflows cp)))
          (writeJSON 201 [("status", VStr "pending"); ("workflow", VStr key)])
    end).

Definition getRelease (env : environment) (cp : ControlPlaneServer) (rq : api_request)
    (parts : list string) : ControlPlaneServer * option response :=
  match workflow cp (part parts 0) (part parts 1) (part parts 2) with
  | None => reply cp release_not_found
  | Some wf =>
      reply cp (writeJSON 200 [("service", VStr (w_Service wf)); ("environment", VStr (w_Environment wf));
        ("version", VStr (w_Version wf)); ("state", VStr (State wf));
        ("approved", VBool (workflow_approved (Some wf)))])
  end.

Definition listReleases (env : environment) (cp : ControlPlaneServer) (rq : api_request)
    (parts : list string) : ControlPlaneServer * option response :=
  reply cp (writeJSON 200 [("items", VReleases ((λ kw, release_fields kw.1 kw.2)
                                                 <$> map_to_list (cp_workflows cp)))]).

Definition approveRelease (env : environment) (cp : ControlPlaneServer) (rq : api_request)
    (parts : list string) : ControlPlaneServer * option response :=
  decodeJSON decode_actor cp rq (λ b,
    act_on_release cp parts (λ wf, workflow_approve (Some wf) (now1 env) (now2 env) (aq_actor b))
      (λ wf, writeJSON 200 [("state", VStr (State wf)); ("approved", VBool (workflow_approved (Some wf)))])).

Definition rollbackRelease (env : environment) (cp : ControlPlaneServer) (rq : api_request)
    (parts : list string) : ControlPlaneServer * option response :=
  decodeJSON decode_actor cp rq (λ b,
    act_on_release cp parts
      (λ wf, workflow_rollback (Some wf) (now1 env) (now2 env) (aq_actor b) (aq_reason b))
      (λ wf, writeJSON 200 [("state", VStr (State wf))])).

Definition rejectRelease (env : environment) (cp : ControlPlaneServer) (rq : api_request)
    (parts : list string) : ControlPlaneServer * option response :=
  decodeJSON decode_actor cp rq (λ b,
    act_on_release cp parts
      (λ wf, workflow_reject (Some wf) (now1 env) (now2 env) (aq_actor b) (aq_reason b))
      (λ wf, writeJSON 200 [("state", VStr (State wf))])).

Definition handle (env : environment) (cp : ControlPlaneServer) (rq : api_request)
    (h : apiHandler) : list string → ControlPlaneServer * option response :=
  match h with
  | H_listUpstreams => listUpstreams env cp rq
  | H_createUpstream => createUpstream env cp rq
  | H_listRoutes => listRoutes env cp rq
  | H_createRoute => createRoute env cp rq
  | H_resolveRoute => resolveRoute env cp rq
  | H_listDeployments => listDeployments env cp rq
  | H_createDeployment => createDeployment env cp rq
  | H_getDeployment => getDeployment env cp rq
  | H_getDeploymentHistory => getDeploymentHistory env cp rq
  | H_listReleases => listReleases env cp rq
  | H_createRelease => createRelease env cp rq
  | H_getRelease => getRelease env cp rq
  | H_approveRelease => approveRelease env cp rq
  | H_rollbackRelease => rollbackRelease env cp rq
  | H_rejectRelease => rejectRelease env cp rq
  | H_listPolicies => listPolicies env cp rq
  | H_createPolicy => createPolicy env cp rq
  | H_getPolicy => getPolicy env cp rq
  | H_updatePolicy => updatePolicy env cp rq
  | H_policyHistory => policyHistory env cp rq
  | H_rollbackPolicy => rollbackPolicy env cp rq
  end.

Definition routeAPI (env : environment) (cp : ControlPlaneServer) (rq : api_request)
    : ControlPlaneServer * option response :=
  let parts := splitPath (trim_prefix (rq_path rq) "/api/v1") in
  match route_in apiRoutingTable (rq_method rq) parts with
  | Routed h params => handle env cp rq h params
  | MethodNotAllowed => reply cp (write_error 405 "method not allowed")
  | NotRouted => reply cp (write_error 404 "not found")
  end.

Definition bearer : string := "Bearer ".

Definition requireAuth (cp : ControlPlaneServer) (rq : api_request)
    (next : ControlPlaneServer * option response) : ControlPlaneServer * option response :=
  let token := trim_space (AdminToken (cp_config cp)) in
  if blank token then
    reply cp (write_error 500 "control plane has no AdminToken configured; refusing to serve")
  else
    let got := rq_authorization rq in
    if negb (has_prefix got bearer) || negb (checkToken (trim_prefix got bearer) token)
    then reply cp (write_error 401 "unauthorized")
    else next.

(** The mux: two patterns, paths cleaned, and a redirect to the slash. *)
Definition Handler (env : environment) (cp : ControlPlaneServer) (rq : api_request)
    : ControlPlaneServer * option response :=
  let path := if String.eqb (rq_method rq) "CONNECT" then rq_path rq else clean_path (rq_path rq) in
  if String.eqb path "/api/v1" || negb (String.eqb path (rq_path rq))
  then reply cp (mkResponse 301 NoBody)
  else if String.eqb path "/healthz" then reply cp (writeJSON 200 [("status", VStr "ok")])
  else if has_prefix path "/api/v1/" then requireAuth cp rq (routeAPI env cp rq)
  else reply cp (mkResponse 404 NoBody).
End ControlPlane.
Arguments ControlPlaneServer : clear implicits.

(** Unfold one handler. *)
Ltac unfold_handler :=
  cbv beta iota zeta delta [handle listUpstreams createUpstream listRoutes createRoute resolveRoute listDeployments createDeployment
    getDeployment getDeploymentHistory listReleases createRelease getRelease approveRelease rollbackRelease
    rejectRelease listPolicies createPolicy getPolicy updatePolicy policyHistory rollbackPolicy].

(** ** Authentication *)

Definition authorized (cfg : ControlPlaneConfig) (rq : api_request) : Prop :=
  trim_space (AdminToken cfg) ≠ "" ∧ rq_authorization rq = bearer +:+ trim_space (AdminToken cfg).

Lemma bearer_token got token :
  negb (has_prefix got bearer) || negb (checkToken (trim_prefix got bearer) token) = false
  ↔ got = bearer +:+ token.
Proof.
  rewrite orb_false_iff, !negb_false_iff. unfold checkToken. rewrite String.eqb_eq, has_prefix_spec.
  split.
  - intros [[r ->] Ht]. rewrite trim_prefix_app in Ht. by subst.
  - intros ->. by rewrite trim_prefix_app; eauto.
Qed.

(** ** Routing *)

(** Two patterns that no path matches both: different lengths, or different
    literals at one position. *)
Definition disjoint_segments (a b : string) : bool :=
  negb (is_param a) && negb (is_param b) && negb (String.eqb a b).
Definition disjoint_patterns (p q : list string) : bool :=
  negb (Nat.eqb (length p) (length q)) || existsb (λ ab, disjoint_segments ab.1 ab.2) (zip p q).

Lemma match_segments_disjoint p q parts a b :
  length p = length parts → length q = length parts →
  match_segments p parts = Some a → match_segments q parts = Some b →
  existsb (λ ab, disjoint_segments ab.1 ab.2) (zip p q) = false.
Proof.
  revert q parts a b. induction p as [|x p IH]; intros [|y q] [|z parts] a b; cbn [length]; try done.
  intros [= Hp] [= Hq]. cbn [match_segments zip zip_with existsb fst snd]. intros Ha Hb.
  assert (disjoint_segments x y = false) as ->.
  { unfold disjoint_segments. destruct (is_param x); [done|]. destruct (is_param y); [done|].
    destruct (String.eqb_spec x z) as [->|]; [|done]. destruct (String.eqb_spec y z) as [->|]; [|done].
    by rewrite String.eqb_refl. }
  cbn [orb]. destruct (is_param x), (is_param y); cbn [mbind option_bind] in *;
    repeat (case_match; try done);
    repeat match goal with H : context [match_segments ?u ?v ≫= _] |- _ =>
      destruct (match_segments u v) eqn:?; [|done] end;
    eauto.
Qed.
Lemma matchRoute_disjoint p q parts a b :
  matchRoute p parts = Some a → matchRoute q parts = Some b → disjoint_patterns p q = false.
Proof.
  unfold matchRoute, disjoint_patterns.
  destruct (Nat.eqb_spec (length p) (length parts)) as [Hp|]; [|done].
  destruct (Nat.eqb_spec (length q) (length parts)) as [Hq|]; [|done]. cbn [negb]. intros Ha Hb.
  rewrite (proj2 (Nat.eqb_eq _ _)) by congruence. by eapply match_segments_disjoint.
Qed.

(** Entries of a table that match the same path are the same entry. *)
Definition unambiguous (table : list apiRoute) : Prop :=
  ∀ i j r q, table !! i = Some r → table !! j = Some q → i ≠ j →
    disjoint_patterns (ar_segments r) (ar_segments q) = true.
Fixpoint unambiguousb (table : list apiRoute) : bool :=
  match table with
  | [] => true
  | r :: table => forallb (λ q, disjoint_patterns (ar_segments r) (ar_segments q)
                                && disjoint_patterns (ar_segments q) (ar_segments r)) table
                  && unambiguousb table
  end.
Lemma unambiguousb_spec table : unambiguousb table = true → unambiguous table.
Proof.
  induction table as [|r0 table IH]; [done|]. cbn [unambiguousb]. intros [Hf Hu]%andb_true_iff.
  rewrite forallb_forall in Hf.
  assert (∀ j q, table !! j = Some q → disjoint_patterns (ar_segments r0) (ar_segments q) = true
    ∧ disjoint_patterns (ar_segments q) (ar_segments r0) = true) as Hq.
  { intros j q Hj. apply andb_true_iff, Hf, list_elem_of_In, list_elem_of_lookup. eauto. }
  intros [|i] [|j] r q; cbn; [done| | |].
  - intros [= <-] Hj _. by eapply Hq.
  - intros Hi [= <-] _. by eapply Hq.
  - intros Hi Hj Hne. eapply IH; eauto.
Qed.
Lemma apiRoutingTable_unambiguous : unambiguous apiRoutingTable.
Proof. apply unambiguousb_spec. vm_compute. reflexivity. Qed.

(** The verdict of one entry. *)
Definition entry_verdict (method : string) (r : apiRoute) (params : list string) : routed :=
  match method_handler method (ar_methods r) with None => MethodNotAllowed | Some h => Routed h params end.

(** The table routes to the first entry that matches. *)
Lemma route_in_cases table method parts :
  (route_in table method parts = NotRouted ∧ ∀ r, r ∈ table → matchRoute (ar_segments r) parts = None)
  ∨ ∃ i r params, table !! i = Some r ∧ matchRoute (ar_segments r) parts = Some params
      ∧ route_in table method parts = entry_verdict method r params.
Proof.
  induction table as [|r table IH]; [left; by split; [|set_solver]|]. cbn [route_in].
  destruct (matchRoute (ar_segments r) parts) as [params|] eqn:E.
  - right. by exists 0, r, params.
  - destruct IH as [[? Hn]|(i & q & params & ? & ? & ?)]; [left|right].
    + split; [done|]. intros q [->|Hq]%elem_of_cons; auto.
    + by exists (S i), q, params.
Qed.

(** The routing table is unambiguous.  At most one entry matches a path, so
    the order of the entries does not matter: any reordering of the table routes
    every request alike. *)
Theorem routing_order_irrelevant table method parts :
  table ≡ₚ apiRoutingTable → route_in table method parts = route_in apiRoutingTable method parts.
Proof.
  intros Hperm.
  destruct (route_in_cases table method parts) as [[-> Hn]|(i & r & params & Hi & Hm & ->)],
    (route_in_cases apiRoutingTable method parts) as [[-> Hn']|(j & q & params' & Hj & Hm' & ->)]; [done| | |].
  - rewrite Hn in Hm'; [done|]. rewrite Hperm. apply list_elem_of_lookup. eauto.
  - rewrite Hn' in Hm; [done|]. rewrite <- Hperm. apply list_elem_of_lookup. eauto.
  - assert (r ∈ apiRoutingTable) as [k Hk]%list_elem_of_lookup
      by (rewrite <- Hperm; apply list_elem_of_lookup; eauto).
    destruct (decide (k = j)) as [->|Hne]; [congruence|].
    pose proof (apiRoutingTable_unambiguous k j r q Hk Hj Hne).
    pose proof (matchRoute_disjoint _ _ _ _ _ Hm Hm'). congruence.
Qed.

Section Facts.
Context {S P : Type} `{DeploymentStore S} `{PolicyVersionStore P}.
Context (fmt_g : float64 → string) (url_ok : string → bool) (clean_path : string → string)
  (decode_upstream : string → option UpstreamConfig) (decode_route : string → option RouteConfig)
  (decode_policy : string → option policyRequest)
  (decode_policy_rollback : string → option policyRollbackRequest)
  (decode_deployment : string → option deploymentRequest)
  (decode_release : string → option releaseRequest) (decode_actor : string → option actorRequest).

Local Abbreviation server := (ControlPlaneServer S P).
Local Abbreviation serve := (Handler fmt_g url_ok clean_path decode_upstream decode_route decode_policy
  decode_policy_rollback decode_deployment decode_release decode_actor).
Local Abbreviation handler := (handle fmt_g url_ok decode_upstream decode_route decode_policy
  decode_policy_rollback decode_deployment decode_release decode_actor).
Local Abbreviation api := (routeAPI fmt_g url_ok decode_upstream decode_route decode_policy
  decode_policy_rollback decode_deployment decode_release decode_actor).

Lemma requireAuth_denied (cp : server) rq next :
  ¬ authorized (cp_config cp) rq →
  requireAuth cp rq next
  = (cp, Some (if blank (trim_space (AdminToken (cp_config cp)))
               then write_error 500 "control plane has no AdminToken configured; refusing to serve"
               else write_error 401 "unauthorized")).
Proof.
  intros Hna. unfold requireAuth. destruct (blank _) eqn:Eb; [done|].
  destruct (_ || _) eqn:Ea; [done|]. exfalso. apply Hna. apply bearer_token in Ea.
  split; [by apply blank_false | done].
Qed.


(** ** Reads *)

Lemma route_in_handler table method parts h params :
  route_in table method parts = Routed h params →
  ∃ r, r ∈ table ∧ (method, h) ∈ ar_methods r ∧ matchRoute (ar_segments r) parts = Some params.
Proof.
  destruct (route_in_cases table method parts) as [[-> _]|(i & r & ps & Hi & Hm & ->)]; [done|].
  unfold entry_verdict. intros E. exists r. split; [apply list_elem_of_lookup; eauto|].
  destruct (method_handler method (ar_methods r)) as [h'|] eqn:Eh; [|done]. injection E as <- <-.
  split; [|done]. clear Hi. induction (ar_methods r) as [|[m0 h0] l IH]; [done|]. cbn in Eh.
  destruct (String.eqb_spec m0 method) as [->|]; [injection Eh as ->; by left | right; auto].
Qed.

(** The handlers of the table, by method. *)
Definition reads : list apiHandler :=
  [H_listUpstreams; H_listRoutes; H_resolveRoute; H_listDeployments; H_getDeployment; H_getDeploymentHistory;
   H_listReleases; H_getRelease; H_listPolicies; H_getPolicy; H_policyHistory].
Lemma get_reads parts h params : route_in apiRoutingTable "GET" parts = Routed h params → h ∈ reads.
Proof.
  intros (r & Hr & Hm & _)%route_in_handler.
  assert (Forall (λ r, Forall (λ mh, mh.1 = "GET" → mh.2 ∈ reads) (ar_methods r)) apiRoutingTable) as Ht.
  { unfold apiRoutingTable. repeat (constructor; [cbn [ar_methods];
      repeat (constructor; [cbn [fst snd]; first [intros [=]; done
        | intros _; unfold reads; rewrite !elem_of_cons; tauto]|]); constructor|]). constructor. }
  rewrite Forall_forall in Ht. specialize (Ht r Hr). rewrite Forall_forall in Ht. by apply (Ht _ Hm).
Qed.

Lemma read_pure env (cp : server) rq h params : h ∈ reads → (handler env cp rq h params).1 = cp.
Proof.
  unfold reads. rewrite !elem_of_cons. intros Hh. destruct h; unfold_handler;
    try (exfalso; destruct Hh as [?|Hh]; [done|]; repeat (destruct Hh as [?|Hh]; [done|]);
         by apply not_elem_of_nil in Hh); repeat case_match; done.
Qed.

(** Reads change nothing: a GET request leaves the whole state of the
    control plane as it was, whatever it asks for. *)
Theorem get_is_pure env (cp : server) rq : rq_method rq = "GET" → (serve env cp rq).1 = cp.
Proof.
  intros Hm. unfold Handler. rewrite Hm. destruct (_ || _); [done|].
  destruct (String.eqb _ "/healthz"); [done|]. destruct (has_prefix _ _); [|done].
  unfold requireAuth. destruct (blank _); [done|]. destruct (_ || _); [done|].
  unfold routeAPI. rewrite Hm. destruct (route_in _ _ _) as [h params| |] eqn:E; [|done..].
  apply read_pure. by eapply get_reads.
Qed.

(** ** The invariant of the control plane *)

(** A workflow some calls have led to since its release was created. *)
Definition reachable (key : string) (w : ReleaseWorkflow) : Prop :=
  ∃ t service env version n cs, key = workflowKey service env version ∧ (1 ≤ n)%Z
    ∧ wf_run (Some (started t service env version key n)) cs = Some w.

Record server_ok (cp : server) : Prop := {
  so_registry : registry_inv (cp_registry cp);
  so_ledger : ∃ log, represents (cp_ledger cp) log ∧ log_ok log;
  so_workflows : map_Forall reachable (cp_workflows cp);
}.

(** How a ledger may change: it represents a longer log. *)
Definition ledger_extends (l l' : DeploymentLedger) : Prop :=
  ∀ log, represents l log → log_ok log → ∃ log', represents l' log' ∧ log_ok log' ∧ log `prefix_of` log'.
(** What a workflow may turn into. *)
Definition workflow_extends (w w' : ReleaseWorkflow) : Prop := ∃ cs, wf_run (Some w) cs = Some w'.

Record server_extends (cp cp' : server) : Prop := {
  se_config : cp_config cp' = cp_config cp;
  se_routes : routes (cp_registry cp) ⊆ routes (cp_registry cp');
  se_upstreams : upstreams (cp_registry cp) ⊆ upstreams (cp_registry cp');
  se_policies : ∀ n, is_Some (policies (cp_registry cp) !! n) → is_Some (policies (cp_registry cp') !! n);
  se_versions : grows (versions (cp_policies cp)) (versions (cp_policies cp'));
  se_ledger : ledger_extends (cp_ledger cp) (cp_ledger cp');
  se_workflows : ∀ key w, cp_workflows cp !! key = Some w →
    ∃ w', cp_workflows cp' !! key = Some w' ∧ workflow_extends w w';
}.
Definition steps_to (cp cp' : server) : Prop :=
  server_ok cp → server_ok cp' ∧ server_extends cp cp'.

Lemma wf_run_app w cs cs' : wf_run w (cs ++ cs') = wf_run (wf_run w cs) cs'.
Proof. apply foldl_app. Qed.
Lemma workflow_extends_refl w : workflow_extends w w.
Proof. by exists []. Qed.
Lemma workflow_extends_trans a b c : workflow_extends a b → workflow_extends b c → workflow_extends a c.
Proof. intros [cs H1] [cs' H2]. exists (cs ++ cs'). by rewrite wf_run_app, H1. Qed.
Lemma ledger_extends_refl l : ledger_extends l l.
Proof. intros log ? ?. by exists log. Qed.
Lemma ledger_extends_trans a b c : ledger_extends a b → ledger_extends b c → ledger_extends a c.
Proof.
  intros H1 H2 log Hr Ho. destruct (H1 log Hr Ho) as (log1 & Hr1 & Ho1 & Hp1).
  destruct (H2 log1 Hr1 Ho1) as (log2 & ? & ? & ?). exists log2. split; [done|]. split; [done | by etrans].
Qed.

Lemma server_extends_refl cp : server_extends cp cp.
Proof.
  split; try done; [apply grows_refl | apply ledger_extends_refl|]. intros key w Hw. exists w.
  split; [done | apply workflow_extends_refl].
Qed.
Lemma server_extends_trans a b c : server_extends a b → server_extends b c → server_extends a c.
Proof.
  intros [] []. split; [congruence|by etrans|by etrans|auto| | |].
  - by eapply grows_trans.
  - by eapply ledger_extends_trans.
  - intros key w Hw. destruct (se_workflows0 key w Hw) as (w1 & Hw1 & He1).
    destruct (se_workflows1 key w1 Hw1) as (w2 & Hw2 & He2). exists w2. split; [done|].
    by eapply workflow_extends_trans.
Qed.
Lemma steps_to_refl cp : steps_to cp cp.
Proof. intros Hok. split; [done | apply server_extends_refl]. Qed.
Lemma steps_to_trans a b c : steps_to a b → steps_to b c → steps_to a c.
Proof.
  intros Hab Hbc Ha. destruct (Hab Ha) as [Hb Eab]. destruct (Hbc Hb) as [Hc Ebc].
  split; [done|]. by eapply server_extends_trans.
Qed.

(** *** One lemma per part of the state *)

Lemma steps_registry (cp : server) r :
  (registry_inv (cp_registry cp) → registry_inv r ∧ extends (cp_registry cp) r) →
  steps_to cp (set_registry cp r).
Proof.
  intros Hr [H1 H2 H3]. destruct (Hr H1) as [Hi (? & ? & _ & _ & Hp & _)].
  split; [by split|]. destruct (server_extends_refl cp) as [].
  split; try done. intros n [p Hn]. exists p. by eapply lookup_weaken.
Qed.

(** The policies of a registry changed in one place, to a valid policy. *)
Lemma policies_inv r p k :
  registry_inv r → policy_ok k p → registry_inv (with_policies r (<[k := p]> (policies r))).
Proof.
  intros [] Hp. split; cbn [routes upstreams regions tenants policies rollouts with_policies]; try done.
  by apply map_Forall_insert_2.
Qed.

Lemma pv_step_registry (pv : PolicyVersioner P) c :
  let pv' := pv_step fmt_g pv c in
  (pv_registry pv' = pv_registry pv
   ∨ ∃ k p, pv_registry pv' = with_policies (pv_registry pv) (<[k := p]> (policies (pv_registry pv)))
       ∧ policy_ok k p)
  ∧ grows (versions pv) (versions pv').
Proof.
  intros pv'. unfold pv', pv_step. destruct c as [t p a r|t p a r|t n e v a r]; cbn [pv_apply].
  - unfold Create. destruct (blank _); [split; [by left | apply grows_refl]|].
    destruct (RegisterPolicy _ p) as [rg|e] eqn:E; [|split; [by left | apply grows_refl]].
    apply RegisterPolicy_Ok in E as (-> & _ & Hp).
    match goal with |- context [append_record ?a ?k ?b] =>
      pose proof (append_record_fields a k b) as [Hr Hv]; destruct (append_record a k b) as [pv1 e1] end.
    cbn [fst default from_option id] in *. rewrite Hr, Hv. split; [right; by eauto | apply grows_push].
  - unfold Update. destruct (blank _); [split; [by left | apply grows_refl]|].
    destruct (GetPolicy _ _); [|split; [by left | apply grows_refl]].
    destruct (negb _); [split; [by left | apply grows_refl]|].
    destruct (replacePolicy _ _) as [rg|e] eqn:E; [|split; [by left | apply grows_refl]].
    apply replacePolicy_Ok in E as (-> & Hp & _).
    match goal with |- context [append_record ?a ?k ?b] =>
      pose proof (append_record_fields a k b) as [Hr Hv]; destruct (append_record a k b) as [pv1 e1] end.
    cbn [fst default from_option id] in *. rewrite Hr, Hv. split; [right; by eauto | apply grows_push].
  - unfold Rollback. destruct (blank _); [split; [by left | apply grows_refl]|].
    destruct (history_of pv (policyKey n e)) as [|rec h] eqn:Eh; [split; [by left | apply grows_refl]|].
    destruct (_ || _); [split; [by left | apply grows_refl]|].
    destruct (_ !! _) as [target|]; [|split; [by left | apply grows_refl]].
    destruct (replacePolicy _ _) as [rg|e'] eqn:E; [|split; [by left | apply grows_refl]].
    apply replacePolicy_Ok in E as (-> & Hp & _).
    match goal with |- context [append_record ?a ?k ?b] =>
      pose proof (append_record_fields a k b) as [Hr Hv]; destruct (append_record a k b) as [pv1 e1] end.
    cbn [fst default from_option id] in *. rewrite Hr, Hv. split; [right; by eauto | apply grows_push].
Qed.

Lemma steps_policies (cp : server) c : steps_to cp (set_policies cp (pv_step fmt_g (cp_policies cp) c)).
Proof.
  intros [H1 H2 H3]. destruct (pv_step_registry (cp_policies cp) c) as [Hr Hg].
  destruct (server_extends_refl cp) as []. unfold cp_registry in *.
  destruct Hr as [E|(k & p & E & Hp)].
  - split; [split; unfold cp_registry; cbn [cp_policies set_policies]; [by rewrite E|done|done]|].
    split; unfold cp_registry; cbn [cp_policies set_policies]; rewrite ?E; done.
  - split; [split; unfold cp_registry; cbn [cp_policies set_policies];
      [rewrite E; by apply policies_inv|done|done]|].
    split; unfold cp_registry; cbn [cp_policies set_policies]; rewrite ?E; try done.
    cbn [policies with_policies]. intros n Hn. by apply lookup_insert_is_Some'; right.
Qed.

Lemma steps_ledger (cp : server) m :
  steps_to cp (set_ledger cp (default (cp_ledger cp) (ledger_record (Some (cp_ledger cp)) (Some m)).1)).
Proof.
  intros [H1 (log & Hl & Ho) H3]. destruct (server_extends_refl cp) as [].
  assert (ledger_extends (cp_ledger cp)
    (default (cp_ledger cp) (ledger_record (Some (cp_ledger cp)) (Some m)).1)) as He.
  { intros log' Hr' Ho'. destruct (ledger_record_represents _ _ m Hr') as (l' & -> & Hr2 & _).
    exists (spec_record log' m). split; [done|]. split; [by apply spec_record_ok | apply spec_record_prefix]. }
  split; [|by split]. split; [done| |done]. destruct (He log Hl Ho) as (log' & ? & ? & _). by exists log'.
Qed.

Lemma steps_store (cp : server) s : steps_to cp (set_store cp s).
Proof. intros [H1 H2 H3]. destruct (server_extends_refl cp) as []. split; by split. Qed.
Lemma steps_persist (cp : server) : steps_to cp (persist cp).1.
Proof.
  unfold persist. destruct (cp_store cp); [|apply steps_to_refl].
  destruct (Persist _ _) as [s' [e|]]; apply steps_store.
Qed.

Lemma steps_workflow (cp : server) key w :
  (cp_workflows cp !! key = None ∧ reachable key w
   ∨ ∃ w0, cp_workflows cp !! key = Some w0 ∧ workflow_extends w0 w) →
  steps_to cp (set_workflows cp (<[key := w]> (cp_workflows cp))).
Proof.
  intros Hw [H1 H2 H3]. destruct (server_extends_refl cp) as []. split.
  - split; [done|done|]. cbn [cp_workflows set_workflows]. apply map_Forall_insert_2; [|done].
    destruct Hw as [[_ ?]|(w0 & Hw0 & cs & Hcs)]; [done|].
    destruct (H3 _ _ Hw0) as (t & s & e & v & n & cs0 & -> & Hn & Hrun).
    exists t, s, e, v, n, (cs0 ++ cs). split; [done|]. split; [done|].
    by rewrite wf_run_app, Hrun.
  - split; try done. cbn [cp_workflows set_workflows]. intros k w1 Hw1.
    destruct (decide (key = k)) as [<-|Hne].
    + rewrite lookup_insert_eq. exists w. split; [done|].
      destruct Hw as [[Hnone _]|(w0 & Hw0 & He)]; congruence.
    + rewrite lookup_insert_ne by done. exists w1. split; [done | apply workflow_extends_refl].
Qed.

Lemma steps_versioner (cp : server) c pv r :
  pv_apply fmt_g (Some (cp_policies cp)) c = (pv, r) →
  steps_to cp (set_policies cp (default (cp_policies cp) pv)).
Proof. intros E. pose proof (steps_policies cp c) as Hs. unfold pv_step in Hs. by rewrite E in Hs. Qed.

Lemma steps_record (cp : server) m l r :
  ledger_record (Some (cp_ledger cp)) (Some m) = (l, r) →
  steps_to cp (set_ledger cp (default (cp_ledger cp) l)).
Proof. intros E. pose proof (steps_ledger cp m) as Hs. by rewrite E in Hs. Qed.

Lemma act_on_release_steps (cp : server) parts c answer :
  steps_to cp (act_on_release cp parts (λ wf, wf_apply (Some wf) c) answer).1.
Proof.
  unfold act_on_release. destruct (workflow cp _ _ _) as [wf|] eqn:Ew; [|apply steps_to_refl].
  destruct (wf_apply (Some wf) c) as [w r] eqn:E.
  assert (workflow_extends wf (default wf w)) as He.
  { destruct w as [w|]; [|apply workflow_extends_refl]. exists [c]. unfold wf_run. cbn [foldl].
    by rewrite E. }
  destruct r; apply steps_workflow; right; by exists wf.
Qed.

Lemma created_reachable t service env version n :
  (1 ≤ n)%Z → reachable (workflowKey service env version)
    (started t service env version (workflowKey service env version) n).
Proof. intros Hn. by exists t, service, env, version, n, []. Qed.

Lemma handle_steps env (cp : server) rq h params : steps_to cp (handler env cp rq h params).1.
Proof.
  destruct (decide (h ∈ reads)) as [Hr|Hr]; [rewrite read_pure by done; apply steps_to_refl|].
  destruct h; try (exfalso; apply Hr; unfold reads; rewrite !elem_of_cons; tauto); unfold_handler;
    unfold decodeJSON; (destruct (_ (rq_body rq)) as [b|]; [|apply steps_to_refl]); clear Hr.
  - destruct (RegisterUpstream _ _ _) as [r|e] eqn:E; [|apply steps_to_refl].
    apply steps_registry. intros Hi. by apply (reg_apply_inv url_ok _ (RegUpstream b)).
  - destruct (Register _ _) as [r|e] eqn:E; [|apply steps_to_refl].
    apply steps_registry. intros Hi. by apply (reg_apply_inv url_ok _ (RegRoute b)).
  - destruct (ledger_record _ _) as [l r] eqn:E. pose proof (steps_record cp _ _ _ E) as Hl.
    destruct r; [done|]. set (cp1 := set_ledger _ _) in *.
    pose proof (steps_persist cp1) as Hp. destruct (persist cp1) as [cp2 r2].
    destruct r2; by eapply steps_to_trans.
  - destruct (cp_workflows cp !! _) eqn:Ek; [apply steps_to_refl|]. apply steps_workflow. left.
    split; [done|]. apply created_reachable. destruct (Z.leb_spec (default
      (ApprovalRequirement (cp_config cp)) (cp_gates cp !! workflowGateKey (rlq_service b) (rlq_environment b))) 0);
      destruct (cp_gates cp !! _); cbn in *; repeat case_match; lia.
  - apply (act_on_release_steps cp params (Workflow.CallApprove (now1 env) (now2 env) (aq_actor b))).
  - apply (act_on_release_steps cp params (Workflow.CallRollback (now1 env) (now2 env) (aq_actor b) (aq_reason b))).
  - apply (act_on_release_steps cp params (Workflow.CallReject (now1 env) (now2 env) (aq_actor b) (aq_reason b))).
  - destruct (Create _ _ _ _ _) as [pv r] eqn:E.
    pose proof (steps_versioner cp (CallCreate (now1 env) (pq_policy b) (pq_actor b) (pq_reason b)) _ _ E).
    by destruct r.
  - match goal with |- context [Update ?f ?x ?t ?p ?a ?r] => destruct (Update f x t p a r) as [pv r1] eqn:E;
      pose proof (steps_versioner cp (CallUpdate t p a r) _ _ E) end.
    destruct r1; [by case_match | done].
  - destruct (rollback_history _ _ _) as [|first l]; [apply steps_to_refl|].
    match goal with |- context [Rollback ?f ?x ?t ?n ?e ?v ?a ?r] =>
      destruct (Rollback f x t n e v a r) as [pv r1] eqn:E;
      pose proof (steps_versioner cp (CallRollback t n e v a r) _ _ E) end.
    by destruct r1.
Qed.

Lemma serve_steps env (cp : server) rq : steps_to cp (serve env cp rq).1.
Proof.
  unfold Handler. destruct (_ || _); [apply steps_to_refl|].
  destruct (String.eqb _ "/healthz"); [apply steps_to_refl|].
  destruct (has_prefix _ _); [|apply steps_to_refl].
  unfold requireAuth. destruct (blank _); [apply steps_to_refl|].
  destruct (_ || _); [apply steps_to_refl|]. unfold routeAPI.
  destruct (route_in _ _ _); [apply handle_steps | apply steps_to_refl..].
Qed.

(** *** Runs *)

Definition serve_all (cp : server) (l : list (environment * api_request)) : server :=
  foldl (λ cp er, (serve er.1 cp er.2).1) cp l.

Lemma serve_all_steps cp l : steps_to cp (serve_all cp l).
Proof.
  revert cp. induction l as [|[env rq] l IH]; intros cp; [apply steps_to_refl|].
  eapply steps_to_trans; [apply (serve_steps env cp rq) | apply IH].
Qed.

(** A server over stores that hold nothing yet. *)
Definition booted (cfg : ControlPlaneConfig) (store : option S) (policies : option P) : server :=
  mkServer NewDeploymentLedger store ∅ ∅ (fresh policies) cfg.
Lemma booted_new order cfg : NewControlPlaneServerWithStores order cfg None None = booted cfg None None.
Proof. done. Qed.
Lemma booted_ok cfg store policies : server_ok (booted cfg store policies).
Proof.
  split; [apply NewRouteRegistry_inv| |apply map_Forall_empty].
  exists []. split; [apply represents_new|]. split; [constructor|]. intros s e. constructor.
Qed.

(** C1 : the control plane's invariant.  Over any requests, whatever their
    method, path, token and body and whatever the stores do, the route registry
    stays referentially sound, the ledger stays a log of valid releases with
    distinct versions, and every workflow is one that calls of its operations led
    to; and no later request removes or changes a route or an upstream, drops a
    policy, rewrites a deployment or policy history, or takes a workflow anywhere
    its own operations do not. *)
Theorem control_plane_invariant cfg store policies l l' :
  let cp := serve_all (booted cfg store policies) l in
  server_ok cp ∧ server_extends cp (serve_all cp l').
Proof.
  intros cp. destruct (serve_all_steps (booted cfg store policies) l (booted_ok _ _ _)) as [Hok _].
  split; [done|]. by apply serve_all_steps.
Qed.

Lemma set_ledger_id (cp : server) : set_ledger cp (cp_ledger cp) = cp.
Proof. by destruct cp. Qed.

(** No release for exactly "prod" can be recorded through the API.  The
    manifest it builds has no tenant or region allowlists, which validation
    demands for production, so every such request is refused and changes nothing. *)
Theorem production_deployments_refused env (cp : server) rq b parts :
  decode_deployment (rq_body rq) = Some b → dq_environment b = "" ∨ dq_environment b = "prod" →
  ∃ e, handler env cp rq H_createDeployment parts = (cp, Some (write_error 422 e)).
Proof.
  intros Hd He. unfold_handler. unfold decodeJSON. rewrite Hd.
  set (m := mkManifest _ _ _ _ _ _).
  assert (∃ e, manifest_validate m = (filled m, Some e) ∧ contains ("manifest validation failed: " +:+ e)
    "already exists" = false ∨ manifest_validate m = (m, Some e) ∧
    contains ("manifest validation failed: " +:+ e) "already exists" = false) as (e & Hv).
  { assert (dm_Environment m = "prod") as Hm by (cbn; destruct He as [->| ->]; reflexivity).
    assert (dm_Policy m = stage_policy "prod" (dq_service b)) as Hp.
    { cbn in Hm |- *. by rewrite Hm. }
    unfold manifest_validate. destruct (String.eqb (trim_space (dm_Service m)) "").
    { eexists. right. split; [done | by vm_compute]. }
    rewrite Hm. change (String.eqb (trim_space "prod") "") with false. cbn iota.
    change (with_policy m _) with (with_policy m (fill_policy (dm_Policy m) "prod" (dm_Service m))).
    assert (filled m = with_policy m (fill_policy (dm_Policy m) "prod" (dm_Service m))) as <-.
    { unfold filled. by rewrite Hm. }
    unfold manifest_policy_ok. change (dm_Environment (filled m)) with (dm_Environment m). rewrite Hm, Hp.
    eexists. left. split; [reflexivity | by vm_compute]. }
  unfold ledger_record.
  destruct Hv as [[-> Hc]|[-> Hc]]; cbn [from_option id]; unfold writeConflictOrInvalid; rewrite Hc,
    set_ledger_id; by eexists.
Qed.
End Facts.

(** ** Witnesses *)

Definition memory_ledger : DeploymentStore DeploymentLedgerState := {|
  store_save _ st := (st, None);
  store_load s := (s, Ok s);
  store_close s := (s, None);
|}.
Definition demo_config : ControlPlaneConfig := mkConfig ":9091" "" "s3cret" 1.
Definition demo_server : ControlPlaneServer DeploymentLedgerState PolicyVersionState :=
  booted demo_config None None.
Definition demo_env : environment := mkEnv 1 2 (λ _, 0%Z) [] [].
(** Decoders for one body of each kind. *)
Definition only {A} (text : string) (a : A) (b : string) : option A :=
  if String.eqb b text then Some a else None.
Definition demo_deployment : deploymentRequest := mkDeployment "api" "prod" "1" ["ci"].
Definition demo_serve := @Handler _ _ memory_ledger memory_store (λ _, "0") (λ _, true) (λ p, p)
  (only "u" (demo_up "a" "http://a" 1)) (λ _, None) (λ _, None) (λ _, None) (only "d" demo_deployment)
  (λ _, None) (λ _, None).


Lemma routing_order_irrelevant_witness :
  route_in (reverse apiRoutingTable) "POST" ["releases"; "a"; "b"; "c"; "approve"]
  = Routed H_approveRelease ["a"; "b"; "c"].
Proof.
  rewrite (routing_order_irrelevant (reverse apiRoutingTable)); [reflexivity | apply reverse_Permutation].
Defined.

Lemma get_is_pure_witness :
  (demo_serve demo_env demo_server (mkApi "GET" "/api/v1/upstreams" "Bearer s3cret" "")).1 = demo_server.
Proof. by apply get_is_pure. Defined.

Lemma production_deployments_refused_witness :
  ∃ e, demo_serve demo_env demo_server (mkApi "POST" "/api/v1/deployments" "Bearer s3cret" "d")
       = (demo_server, Some (write_error 422 e)).
Proof.
  destruct (@production_deployments_refused _ _ memory_ledger memory_store (λ _, "0") (λ _, true)
    (only "u" (demo_up "a" "http://a" 1)) (λ _, None) (λ _, None) (λ _, None) (only "d" demo_deployment)
    (λ _, None) (λ _, None) demo_env demo_server
    (mkApi "POST" "/api/v1/deployments" "Bearer s3cret" "d") demo_deployment []) as (e & He);
    [reflexivity | by right|].
  exists e. rewrite <- He. reflexivity.
Defined.

(** A deployment whose save fails is answered 500 but stays recorded: the retry
    is refused as a duplicate. *)
Definition failing_store : DeploymentStore unit := {|
  store_save s _ := (s, Some "no space left on device");
  store_load s := (s, Ok empty_state);
  store_close s := (s, None);
|}.
Theorem failed_save_keeps_record :
  let serve := @Handler _ _ failing_store memory_store (λ _, "0") (λ _, true) (λ p, p)
    (λ _, None) (λ _, None) (λ _, None) (λ _, None)
    (only "d" (mkDeployment "api" "staging" "1" ["ci"])) (λ _, None) (λ _, None) demo_env in
  let rq := mkApi "POST" "/api/v1/deployments" "Bearer s3cret" "d" in
  let '(cp1, r1) := serve (booted demo_config (Some tt) None) rq in
  (rs_code <$> r1) = Some 500%Z ∧ (rs_code <$> (serve cp1 rq).2) = Some 409%Z.
Proof. vm_compute. done. Qed.
