(* ===== verification/Base64.v ===== *)
(** * Base64

    [base64.StdEncoding] of encoding/base64 (RFC 4648, padded), by which the
    change events of the development hub travel on one text line, and the
    decoder of the browser that reads them. *)

From Stdlib Require Import Zify ZifyN.
From S2P Require Import Prelude GoStrings.

Definition alphabet : string :=
  "ABCDEFGHIJKLMNOPQRSTUVWXYZabcdefghijklmnopqrstuvwxyz0123456789+/".
Definition pad : ascii := "=".
Definition digit (n : N) : ascii := default pad (String.get (N.to_nat n) alphabet).
Definition undigit (c : ascii) : option N := N.of_nat <$> index_byte alphabet c.

Definition byte_of (n : N) : ascii := ascii_of_N n.

(** [EncodeToString]. *)
Fixpoint b64_encode (s : string) : string :=
  match s with
  | EmptyString => EmptyString
  | String a EmptyString =>
      let a := byte_val a in
      String (digit (a / 4)) (String (digit (a mod 4 * 16)) (String pad (String pad "")))
  | String a (String b EmptyString) =>
      let a := byte_val a in let b := byte_val b in
      String (digit (a / 4)) (String (digit (a mod 4 * 16 + b / 16))
        (String (digit (b mod 16 * 4)) (String pad "")))
  | String a (String b (String c r)) =>
      let a := byte_val a in let b := byte_val b in let c := byte_val c in
      String (digit (a / 4)) (String (digit (a mod 4 * 16 + b / 16))
        (String (digit (b mod 16 * 4 + c / 64)) (String (digit (c mod 64)) (b64_encode r))))
  end.

(** [atob]. *)
Fixpoint b64_decode (s : string) : option string :=
  match s with
  | EmptyString => Some EmptyString
  | String w (String x (String y (String z r))) =>
      w ← undigit w; x ← undigit x;
      let a := byte_of (w * 4 + x / 16) in
      if Ascii.eqb y pad then
        if Ascii.eqb z pad && String.eqb r "" then Some (String a "") else None
      else
        y ← undigit y;
        let b := byte_of (x mod 16 * 16 + y / 4) in
        if Ascii.eqb z pad then if String.eqb r "" then Some (String a (String b "")) else None
        else
          z ← undigit z; r ← b64_decode r;
          Some (String a (String b (String (byte_of (y mod 4 * 64 + z)) r)))
  | _ => None
  end.

Example b64_padding :
  b64_encode "fo" = "Zm8=" ∧ b64_encode "f" = "Zg==" ∧ b64_encode "foo" = "Zm9v".
Proof. done. Qed.

(** ** Facts *)

(** A six-bit digit survives the alphabet, and is no padding and no line break. *)
Definition safe_char (c : ascii) : bool := byte_in 43 122 c.
Definition digit_ok (n : N) : bool :=
  bool_decide (undigit (digit n) = Some n) && negb (Ascii.eqb (digit n) pad) && safe_char (digit n).
Lemma digit_spec n :
  (n < 64)%N →
  undigit (digit n) = Some n ∧ Ascii.eqb (digit n) pad = false ∧ safe_char (digit n) = true.
Proof.
  intros Hn.
  assert (forallb digit_ok (N.of_nat <$> seq 0 64) = true) as Hall by by vm_compute.
  rewrite forallb_forall in Hall. specialize (Hall n).
  assert (In n (N.of_nat <$> seq 0 64)) as Hin.
  { apply list_elem_of_In, list_elem_of_fmap. exists (N.to_nat n). split; [lia|].
    apply elem_of_seq. lia. }
  specialize (Hall Hin). unfold digit_ok in Hall.
  rewrite !andb_true_iff, bool_decide_eq_true, negb_true_iff in Hall. tauto.
Qed.

Lemma byte_val_lt c : (byte_val c < 256)%N.
Proof. apply N_ascii_bounded. Qed.
Lemma byte_of_val n c : n = byte_val c → byte_of n = c.
Proof. intros ->. apply ascii_N_embedding. Qed.

Lemma string_ind3 (P : string → Prop) :
  P "" → (∀ a, P (String a "")) → (∀ a b, P (String a (String b ""))) →
  (∀ a b c r, P r → P (String a (String b (String c r)))) → ∀ s, P s.
Proof.
  intros H0 H1 H2 H3. fix IH 1. intros [|a [|b [|c r]]]; [done..|]. by apply H3.
Qed.

Lemma undigit_digit n : (n < 64)%N → undigit (digit n) = Some n.
Proof. apply digit_spec. Qed.
Lemma digit_not_pad n : (n < 64)%N → Ascii.eqb (digit n) pad = false.
Proof. apply digit_spec. Qed.
Lemma digit_safe n : (n < 64)%N → safe_char (digit n) = true.
Proof. apply digit_spec. Qed.

Lemma b64_bits (a b c : N) :
  (a < 256 → b < 256 → c < 256 →
   a / 4 < 64 ∧ a mod 4 * 16 + b / 16 < 64 ∧ b mod 16 * 4 + c / 64 < 64 ∧ c mod 64 < 64
   ∧ a / 4 * 4 + (a mod 4 * 16 + b / 16) / 16 = a
   ∧ (a mod 4 * 16 + b / 16) mod 16 * 16 + (b mod 16 * 4 + c / 64) / 4 = b
   ∧ (b mod 16 * 4 + c / 64) mod 4 * 64 + c mod 64 = c)%N.
Proof. intros. repeat split; zify; Z.div_mod_to_equations; lia. Qed.

(** What was encoded is decoded. *)
Lemma b64_roundtrip s : b64_decode (b64_encode s) = Some s.
Proof.
  induction s as [|a|a b|a b c r IH] using string_ind3; [done|..]; cbn [b64_encode b64_decode].
  - destruct (b64_bits (byte_val a) 0 0) as (Ha & Hb & _ & _ & Ea & _); [apply byte_val_lt|done..|].
    change (0 / 16)%N with 0%N in *. rewrite N.add_0_r in *. rewrite !undigit_digit by done. cbn.
    by rewrite (byte_of_val _ a).
  - destruct (b64_bits (byte_val a) (byte_val b) 0) as (Ha & Hb & Hc & _ & Ea & Eb & _);
      [apply byte_val_lt..|done|].
    change (0 / 64)%N with 0%N in *. rewrite (N.add_0_r (byte_val b mod 16 * 4)) in *.
    rewrite !undigit_digit, !digit_not_pad by done. cbn.
    by rewrite (byte_of_val _ a), (byte_of_val _ b).
  - destruct (b64_bits (byte_val a) (byte_val b) (byte_val c)) as (Ha & Hb & Hc & Hd & Ea & Eb & Ec);
      [apply byte_val_lt..|].
    rewrite !undigit_digit by done.
    rewrite !digit_not_pad, IH by done. cbn [mbind option_bind].
    by rewrite (byte_of_val _ a), (byte_of_val _ b), (byte_of_val _ c).
Qed.

(** The text has no white space and no line break. *)
Lemma b64_safe s : all_bytes safe_char (b64_encode s) = true.
Proof.
  induction s as [|a|a b|a b c r IH] using string_ind3; [done|..]; cbn [b64_encode all_bytes].
  - destruct (b64_bits (byte_val a) 0 0) as (Ha & Hb & _); [apply byte_val_lt|done..|].
    change (0 / 16)%N with 0%N in *. rewrite N.add_0_r in *. rewrite !digit_safe by done. done.
  - destruct (b64_bits (byte_val a) (byte_val b) 0) as (Ha & Hb & Hc & _); [apply byte_val_lt..|done|].
    change (0 / 64)%N with 0%N in *. rewrite (N.add_0_r (byte_val b mod 16 * 4)) in *. rewrite !digit_safe by done. done.
  - destruct (b64_bits (byte_val a) (byte_val b) (byte_val c)) as (Ha & Hb & Hc & Hd & _);
      [apply byte_val_lt..|].
    rewrite !digit_safe by done. done.
Qed.
