(* ===== verification/Hmr.v ===== *)
(** * The development hub: change events for browsers

    [pkg/runtime/hmr]: the [Hub] that fans events out to its subscribers
    (hmr.go), the event wire format (codec.go) and the browser side: the
    dispatch rule of the client script and its injection into a page
    (client.go).

    The hub is a transition system: one transition per critical section of
    [h.mu], and one per channel operation outside it ([Subscribe] registers
    under the lock and sends the replay after releasing it).  The FlatBuffers
    runtime is a parameter, [Flatbuffers], with the documented behaviour of its
    builder and table accessors. *)

From stdpp Require Import strings pretty.
From S2P Require Import Prelude GoStrings Unicode Base64 Http.

(** ** Events and the wire schema *)

Definition EventReload : string := "reload".
Definition EventFragment : string := "fragment".
Definition EventPing : string := "ping".

Definition SchemaMajor : Z := 1.
Definition SchemaMinor : Z := 1.

Definition IsCompatible (major minor : Z) : bool :=
  ((major =? SchemaMajor) && (minor <=? SchemaMinor))%Z.

Record Event := MkEvent {
  Kind : string;
  Target : string;
  Payload : string;
  Source : string;
  Route : string;
  ev_major : Z;                  (* uint16 *)
  ev_minor : Z;                  (* uint16 *)
  BuildID : string;
  TS : Z;                        (* uint64 *)
}.
#[export] Instance Event_dec : EqDecision Event.
Proof. solve_decision. Defined.

(** [uint64(t.UnixNano())]. *)
Definition unix_epoch : time := (62135596800 * second)%Z.
Definition unix_nano (t : time) : Z := wrap64 (t - unix_epoch).
Definition uint64 (z : Z) : Z := (z `mod` 18446744073709551616)%Z.

Definition stamp (buildID : string) (ev : Event) (now : time) : Event :=
  MkEvent (Kind ev) (Target ev) (Payload ev) (Source ev) (Route ev)
    SchemaMajor SchemaMinor buildID (uint64 (unix_nano now)).

(** ** The hub *)

Definition chan_cap : nat := 8.
Record chan := MkChan { buf : list Event; closed : bool }.

Record Hub := MkHub {
  clients : gset nat;
  last : option Event;
  lastAt : time;
  buildID : string;
  chans : gmap nat chan;         (* every channel made so far *)
  pending : gmap nat Event;      (* the replays Subscribe has yet to send *)
}.
Definition replayWindow : duration := (2 * second)%Z.

Definition NewHub (buildID : string) : Hub := MkHub ∅ None time_zero buildID ∅ ∅.
Definition ClientCount (h : Hub) : nat := size (clients h).

(** A step does not happen yet, crashes the program, or yields a new state and
    what the caller sees. *)
Inductive outcome (A : Type) :=
  | Blocked
  | Panics
  | Next (h : Hub) (a : A).
Arguments Blocked {A}.
Arguments Panics {A}.
Arguments Next {A} h a.

(** [Subscribe] up to [h.mu.Unlock()]; [ch] is the new channel. *)
Definition Subscribe_register (ch : nat) (now : time) (h : Hub) : outcome unit :=
  if decide (chans h !! ch = None) then
    let replay :=
      ev ← last h; if (time_sub now (lastAt h) <? replayWindow)%Z then Some ev else None in
    Next (MkHub ({[ch]} ∪ clients h) (last h) (lastAt h) (buildID h)
            (<[ch := MkChan [] false]> (chans h))
            (match replay with Some ev => <[ch := ev]> (pending h) | None => pending h end)) ()
  else Blocked.

(** [ch <- *replay]. *)
Definition Subscribe_replay (ch : nat) (h : Hub) : outcome unit :=
  match pending h !! ch, chans h !! ch with
  | Some ev, Some c =>
      if closed c then Panics
      else if length (buf c) <? chan_cap then
        Next (MkHub (clients h) (last h) (lastAt h) (buildID h)
                (<[ch := MkChan (buf c ++ [ev]) false]> (chans h)) (delete ch (pending h))) ()
      else Blocked
  | _, _ => Blocked
  end.

(** [select { case ch <- ev: default: }] for one client; [None] is the panic of
    a send on a closed channel. *)
Definition try_send (ev : Event) (c : chan) : option chan :=
  if closed c then None
  else Some (if length (buf c) <? chan_cap then MkChan (buf c ++ [ev]) false else c).
Definition send_all (ev : Event) (cs : list nat) (m : gmap nat chan) : option (gmap nat chan) :=
  foldr (λ ch r, m ← r; c ← m !! ch; c ← try_send ev c; Some (<[ch := c]> m)) (Some m) cs.

(** [now] is read by [stamp], [now'] for [lastAt]. *)
Definition Broadcast (ev : Event) (now now' : time) (h : Hub) : outcome unit :=
  let ev := stamp (buildID h) ev now in
  match send_all ev (elements (clients h)) (chans h) with
  | Some m => Next (MkHub (clients h) (Some ev) now' (buildID h) m (pending h)) ()
  | None => Panics
  end.

(** The [cancel] function, which the caller has once [Subscribe] returned. *)
Definition Subscribe_cancel (ch : nat) (h : Hub) : outcome unit :=
  match chans h !! ch, pending h !! ch with
  | Some c, None =>
      if decide (ch ∈ clients h) then
        if closed c then Panics
        else Next (MkHub (clients h ∖ {[ch]}) (last h) (lastAt h) (buildID h)
                     (<[ch := MkChan (buf c) true]> (chans h)) (pending h)) ()
      else Next h ()
  | _, _ => Blocked
  end.

(** [ev, ok := <-events]. *)
Definition receive (ch : nat) (h : Hub) : outcome (option Event) :=
  match chans h !! ch, pending h !! ch with
  | Some c, None =>
      match buf c with
      | ev :: more =>
          Next (MkHub (clients h) (last h) (lastAt h) (buildID h)
                  (<[ch := MkChan more (closed c)]> (chans h)) (pending h)) (Some ev)
      | [] => if closed c then Next h None else Blocked
      end
  | _, _ => Blocked
  end.

Inductive label :=
  | LRegister (ch : nat) (now : time)
  | LReplay (ch : nat)
  | LBroadcast (ev : Event) (now now' : time)
  | LCancel (ch : nat)
  | LReceive (ch : nat).

Definition quietly (o : outcome unit) : outcome (option (nat * Event)) :=
  match o with Blocked => Blocked | Panics => Panics | Next h _ => Next h None end.
Definition step (l : label) (h : Hub) : outcome (option (nat * Event)) :=
  match l with
  | LRegister ch now => quietly (Subscribe_register ch now h)
  | LReplay ch => quietly (Subscribe_replay ch h)
  | LBroadcast ev now now' => quietly (Broadcast ev now now' h)
  | LCancel ch => quietly (Subscribe_cancel ch h)
  | LReceive ch =>
      match receive ch h with
      | Next h' r => Next h' ((λ ev, (ch, ev)) <$> r)
      | Blocked => Blocked
      | Panics => Panics
      end
  end.

(** A run of enabled steps, and what the receivers got, in order. *)
Fixpoint run (t : list label) (h : Hub) : option (Hub * list (nat * Event)) :=
  match t with
  | [] => Some (h, [])
  | l :: t =>
      match step l h with
      | Next h' o => '(h'', got) ← run t h'; Some (h'', option_list o ++ got)
      | _ => None
      end
  end.

(** ** The wire format

    The calls [encodeEvent] makes on the FlatBuffers builder, by slot, and the
    accessors [decodeEvent] calls on the table. *)

Inductive slot :=
  | UOffsetTSlot (n : nat) (s : string)         (* a created string *)
  | Uint16Slot (n : nat) (v d : Z)
  | Uint64Slot (n : nat) (v d : Z).
Definition slot_index (s : slot) : nat :=
  match s with UOffsetTSlot n _ | Uint16Slot n _ _ | Uint64Slot n _ _ => n end.

Class Flatbuffers := {
  Table : Type;
  finished_bytes : nat → list slot → string;
  root_table : string → Table;
  Offset : Table → Z → Z;
  table_string : Table → Z → string;
  table_uint16 : Table → Z → Z;
  table_uint64 : Table → Z → Z;
}.

Definition fbFieldKind : Z := 4.
Definition fbFieldTarget : Z := 6.
Definition fbFieldPayload : Z := 8.
Definition fbFieldSource : Z := 10.
Definition fbFieldRoute : Z := 12.
Definition fbFieldSchemaMajor : Z := 14.
Definition fbFieldSchemaMinor : Z := 16.
Definition fbFieldBuildID : Z := 18.
Definition fbFieldTS : Z := 20.

Section Codec.
Context `{FB : Flatbuffers}.

Definition encodeEvent (ev : Event) : string :=
  finished_bytes 9
    [UOffsetTSlot 0 (Kind ev); UOffsetTSlot 1 (Target ev); UOffsetTSlot 2 (Payload ev);
     UOffsetTSlot 3 (Source ev); UOffsetTSlot 4 (Route ev);
     Uint16Slot 5 (ev_major ev) 0; Uint16Slot 6 (ev_minor ev) 0;
     UOffsetTSlot 7 (BuildID ev); Uint64Slot 8 (TS ev) 0].

Definition tableString (t : Table) (off : Z) : string :=
  let o := Offset t off in if (o =? 0)%Z then "" else table_string t o.
Definition tableUshort (t : Table) (off : Z) : Z :=
  let o := Offset t off in if (o =? 0)%Z then 0%Z else table_uint16 t o.
Definition tableUlong (t : Table) (off : Z) : Z :=
  let o := Offset t off in if (o =? 0)%Z then 0%Z else table_uint64 t o.

Definition decodeEvent (b : string) : Event :=
  if String.length b <? 4 then MkEvent "" "" "" "" "" 0 0 "" 0
  else
    let t := root_table b in
    MkEvent (tableString t fbFieldKind) (tableString t fbFieldTarget)
      (tableString t fbFieldPayload) (tableString t fbFieldSource) (tableString t fbFieldRoute)
      (tableUshort t fbFieldSchemaMajor) (tableUshort t fbFieldSchemaMinor)
      (tableString t fbFieldBuildID) (tableUlong t fbFieldTS).

(** ** The event stream *)

Definition writeEvent (ev : Event) : string :=
  "event: fb" +:+ nl +:+ "data: " +:+ b64_encode (encodeEvent ev) +:+ nl +:+ nl.
Definition keep_alive (now : time) : string := ": keep-alive " +:+ itoa (unix_nano now) +:+ nl +:+ nl.

(** What the handler's [select] picks up: the request's end, a tick, a receive. *)
Inductive input :=
  | Done
  | Tick (now : time)
  | FromEvents (r : option Event).

Fixpoint handler_loop (ins : list input) : list writer_op :=
  match ins with
  | [] | Done :: _ | FromEvents None :: _ => []
  | Tick now :: ins => OpWrite (keep_alive now) :: OpFlush :: handler_loop ins
  | FromEvents (Some ev) :: ins => OpWrite (writeEvent ev) :: OpFlush :: handler_loop ins
  end.
Definition hello (buildID : string) (now : time) : Event :=
  stamp buildID (MkEvent EventPing "" "" "connected" "" 0 0 "" 0) now.
Definition Handler (flusher : bool) (buildID : string) (now : time) (ins : list input)
    : list writer_op :=
  if negb flusher then http_error "streaming unsupported" 500
  else
    [OpSet "Content-Type" "text/event-stream"; OpSet "Cache-Control" "no-cache";
     OpSet "Connection" "keep-alive"; OpSet "X-Accel-Buffering" "no";
     OpWrite ("retry: 1000" +:+ nl +:+ nl); OpWrite (writeEvent (hello buildID now)); OpFlush]
    ++ handler_loop ins.
End Codec.

(** ** The browser *)

(** An [EventSource] on the lines of a stream, for the field forms the hub
    writes: the events it dispatches, by name and data. *)
Fixpoint sse_lines (name : string) (data : option string) (ls : list string)
    : list (string * string) :=
  match ls with
  | [] => []
  | l :: ls =>
      if String.eqb l "" then
        match data with
        | None => sse_lines "" None ls
        | Some d => (name, d) :: sse_lines "" None ls
        end
      else if has_prefix l "event: " then sse_lines (trim_prefix l "event: ") data ls
      else if has_prefix l "data: " then
        let v := trim_prefix l "data: " in
        sse_lines name (Some (match data with None => v | Some d => d +:+ nl +:+ v end)) ls
      else sse_lines name data ls
  end.
Definition newline : ascii := ascii_of_N 10.
Definition sse_events (stream : string) : list (string * string) :=
  sse_lines "" None (split stream newline).

(** [dispatch] of the client script, on a page at [pathname]. *)
Inductive action :=
  | Reload
  | Swap (target html : string)
  | Ignore.
Definition dispatch (pathname : string) (found : string → bool) (ev : Event) : action :=
  if negb (ev_major ev =? SchemaMajor)%Z || (SchemaMinor <? ev_minor ev)%Z then Reload
  else if String.eqb (Kind ev) "reload" then Reload
  else if String.eqb (Kind ev) "fragment" then
    if String.eqb (Target ev) ""
       || (negb (String.eqb (Route ev) "") && negb (String.eqb (Route ev) pathname))
    then Ignore
    else if found (Target ev) then Swap (Target ev) (Payload ev) else Ignore
  else Ignore.

(** [InjectClientScript]; [None] is the panic of a slice out of range. *)
Definition hmr_tag : string :=
  "<script src=" +:+ dquote +:+ "/hmr/hmr.js" +:+ dquote +:+ " defer></script>".
Definition close_body : string := "</body>".
Definition InjectClientScript (lower_table : Z → Z) (html : string) : option string :=
  match last_index (ToLower lower_table html) close_body with
  | None => Some (html +:+ hmr_tag)
  | Some idx =>
      if idx <=? String.length html
      then Some (str_take idx html +:+ hmr_tag +:+ str_drop idx html) else None
  end.

(** ** The hub: safety *)

Definition good (bid : string) (ev : Event) : Prop :=
  IsCompatible (ev_major ev) (ev_minor ev) = true ∧ BuildID ev = bid.
Lemma stamp_good bid ev now : good bid (stamp bid ev now).
Proof. done. Qed.

Record hub_ok (bid : string) (h : Hub) : Prop := {
  ok_build : buildID h = bid;
  ok_clients : ∀ ch, ch ∈ clients h → is_Some (chans h !! ch);
  ok_chan : ∀ ch c, chans h !! ch = Some c →
    length (buf c) ≤ chan_cap ∧ Forall (good bid) (buf c) ∧ (closed c = false ↔ ch ∈ clients h);
  ok_pending : ∀ ch ev, pending h !! ch = Some ev → good bid ev ∧ ch ∈ clients h;
  ok_last : ∀ ev, last h = Some ev → good bid ev;
}.

Lemma NewHub_ok bid : hub_ok bid (NewHub bid).
Proof. split; try done. Qed.

Definition deliver (ev : Event) (c : chan) : chan :=
  if length (buf c) <? chan_cap then MkChan (buf c ++ [ev]) false else c.

(** The fan-out reaches each client once, whatever the order. *)
Lemma send_all_lookup ev cs m m' ch :
  NoDup cs → send_all ev cs m = Some m' →
  m' !! ch = if decide (ch ∈ cs) then deliver ev <$> m !! ch else m !! ch.
Proof.
  intros Hnd. revert m'. induction Hnd as [|x cs Hx Hnd IH]; intros m' Hs.
  - cbn in Hs. by simplify_eq.
  - cbn in Hs. change (foldr _ (Some m) cs) with (send_all ev cs m) in Hs.
    destruct (send_all ev cs m) as [mr|] eqn:Er; [|done]. cbn in Hs.
    destruct (mr !! x) as [c|] eqn:Ec; [|done]. cbn in Hs.
    unfold try_send in Hs. destruct (closed c) eqn:Ecl; [done|]. cbn in Hs. injection Hs as <-.
    destruct (decide (ch = x)) as [->|Hne].
    + rewrite lookup_insert_eq, decide_True by (by left).
      rewrite (IH mr eq_refl) in Ec. rewrite decide_False in Ec by done. by rewrite Ec.
    + rewrite lookup_insert_ne by done. rewrite (IH mr eq_refl).
      destruct (decide (ch ∈ cs)); [rewrite decide_True by (by right) | rewrite decide_False]; [done|done|].
      by intros [|]%elem_of_cons.
Qed.

Lemma send_all_Some ev cs m :
  NoDup cs → (∀ ch, ch ∈ cs → ∃ c, m !! ch = Some c ∧ closed c = false) → is_Some (send_all ev cs m).
Proof.
  intros Hnd. induction Hnd as [|x cs Hx Hnd IH]; intros Ho; [done|].
  destruct IH as [mr Hr]; [intros; apply Ho; by right|].
  cbn. change (foldr _ (Some m) cs) with (send_all ev cs m). rewrite Hr. cbn.
  rewrite (send_all_lookup _ _ _ _ x Hnd Hr), decide_False by done.
  destruct (Ho x) as (c & -> & Hc); [by left|]. cbn. unfold try_send. by rewrite Hc.
Qed.

Lemma deliver_buf ev c :
  buf (deliver ev c) = buf c ++ (if length (buf c) <? chan_cap then [ev] else []).
Proof. unfold deliver. destruct (_ <? _); [done|]. by rewrite app_nil_r. Qed.

Lemma broadcast_inv ev now now' h h' :
  Broadcast ev now now' h = Next h' () →
  clients h' = clients h ∧ last h' = Some (stamp (buildID h) ev now) ∧ buildID h' = buildID h
  ∧ pending h' = pending h
  ∧ ∀ ch, chans h' !! ch = if decide (ch ∈ clients h)
          then deliver (stamp (buildID h) ev now) <$> chans h !! ch else chans h !! ch.
Proof.
  unfold Broadcast. destruct (send_all _ _ _) as [m|] eqn:E; [|done]. intros [= <-]. cbn.
  split_and!; [done..|]. intros ch. rewrite (send_all_lookup _ _ _ _ ch (NoDup_elements _) E).
  destruct (decide (ch ∈ elements (clients h))), (decide (ch ∈ clients h)); set_solver.
Qed.

Definition step_fine {A} (bid : string) (fine : A → Prop) (o : outcome A) : Prop :=
  match o with Blocked => True | Panics => False | Next h a => hub_ok bid h ∧ fine a end.

Section Safe.
Context (bid : string) (h : Hub) (Hok : hub_ok bid h).

Lemma register_ok ch now : step_fine bid (λ _, True) (Subscribe_register ch now h).
Proof using Hok.
  destruct Hok as [Hb Hcl Hch Hp Hl]. unfold Subscribe_register. destruct (decide _) as [Hn|]; [|done].
  assert (∀ x e, pending h !! x = Some e → good bid e ∧ x ∈ {[ch]} ∪ clients h) as Hp'.
  { intros x e [? ?]%Hp. split; [done|]. by apply elem_of_union_r. }
  split; [|done]. split; cbn; [done|..|done].
  - intros x [->%elem_of_singleton|Hx]%elem_of_union; apply lookup_insert_is_Some'; auto.
  - intros x c [[-> <-]|[Hne Hc]]%lookup_insert_Some.
    + split_and!; [unfold chan_cap; cbn; lia|done|]. split; [|done]. intros _. by apply elem_of_union_l, elem_of_singleton.
    + destruct (Hch x c Hc) as (?&?&[Ho Hi]). split_and!; [done..|].
      rewrite elem_of_union, elem_of_singleton. split; [by right; apply Ho|]. intros [->|?]; [done|auto].
  - intros x e. destruct (last h) as [le|]; cbn; [|apply Hp']. destruct (_ <? _)%Z; [|apply Hp'].
    intros [[-> <-]|[_ Hx]]%lookup_insert_Some; [|by apply Hp'].
    split; [by apply Hl|]. by apply elem_of_union_l, elem_of_singleton.
Qed.

Lemma replay_ok ch : step_fine bid (λ _, True) (Subscribe_replay ch h).
Proof using Hok.
  destruct Hok as [Hb Hcl Hch Hp Hl]. unfold Subscribe_replay.
  destruct (pending h !! ch) as [ev|] eqn:Ep; [|done].
  destruct (chans h !! ch) as [c|] eqn:Ec; [|done].
  destruct (Hch _ _ Ec) as (Hle & Hg & Hcl'). destruct (Hp _ _ Ep) as [Hev Hin].
  destruct (closed c) eqn:Ecl; [by apply Hcl' in Hin|].
  destruct (length (buf c) <? chan_cap) eqn:Elen; [|done]. apply Nat.ltb_lt in Elen.
  split; [|done]. split; cbn; [done|..|done].
  - intros x Hx. apply lookup_insert_is_Some'. auto.
  - intros x d [[-> <-]|[_ Hx]]%lookup_insert_Some; [|by apply Hch]. cbn.
    rewrite length_app. cbn. split_and!; [lia|by apply Forall_app_2; [|constructor]|done].
  - intros x e [_ Hx]%lookup_delete_Some. by apply Hp.
Qed.

Lemma broadcast_ok ev now now' : step_fine bid (λ _, True) (Broadcast ev now now' h).
Proof using Hok.
  destruct Hok as [Hb Hcl Hch Hp Hl].
  destruct (send_all_Some (stamp (buildID h) ev now) (elements (clients h)) (chans h)) as [m Hm].
  { apply NoDup_elements. }
  { intros ch Hin%elem_of_elements. destruct (Hcl _ Hin) as [c Hc]. exists c.
    split; [done|]. by apply (Hch _ _ Hc). }
  destruct (Broadcast ev now now' h) as [| |h' []] eqn:E; [by unfold Broadcast in E; rewrite Hm in E..|].
  split; [|done]. destruct (broadcast_inv _ _ _ _ _ E) as (E1 & E2 & E3 & E4 & E5).
  split; rewrite ?E1, ?E2, ?E3, ?E4; [done|..|done|intros e [= <-]; by rewrite Hb].
  - intros x Hx. rewrite E5, decide_True by done. apply fmap_is_Some. auto.
  - intros x c. rewrite E5. destruct (decide (x ∈ clients h)) as [Hx|Hx]; [|apply Hch].
    intros (d & Hd & ->)%fmap_Some. destruct (Hch _ _ Hd) as (? & ? & ?). unfold deliver.
    destruct (_ <? _) eqn:El; [apply Nat.ltb_lt in El|done]. cbn. rewrite length_app. cbn.
    split_and!; [lia | | done]. apply Forall_app_2; [done|]. constructor; [by rewrite Hb|done].
Qed.

Lemma cancel_ok ch : step_fine bid (λ _, True) (Subscribe_cancel ch h).
Proof using Hok.
  destruct Hok as [Hb Hcl Hch Hp Hl]. unfold Subscribe_cancel.
  destruct (chans h !! ch) as [c|] eqn:Ec; [|done].
  destruct (pending h !! ch) eqn:Ep; [done|]. destruct (Hch _ _ Ec) as (Hle & Hg & Hcl').
  destruct (decide _) as [Hin|]; [|done].
  destruct (closed c) eqn:Ecl; [by apply Hcl' in Hin|]. split; [|done]. split; cbn; [done|..|done].
  - intros x [Hx _]%elem_of_difference. apply lookup_insert_is_Some'. auto.
  - intros x d [[-> <-]|[? Hx]]%lookup_insert_Some; [cbn; set_solver|].
    destruct (Hch _ _ Hx) as (? & ? & ?). set_solver.
  - intros x e Hx. destruct (Hp _ _ Hx). split; [done|]. apply elem_of_difference. split; [done|].
    intros ->%elem_of_singleton. congruence.
Qed.

Lemma receive_ok ch : step_fine bid (λ r, ∀ ev, r = Some ev → good bid ev) (receive ch h).
Proof using Hok.
  destruct Hok as [Hb Hcl Hch Hp Hl]. unfold receive.
  destruct (chans h !! ch) as [c|] eqn:Ec; [|done].
  destruct (pending h !! ch) eqn:Ep; [done|]. destruct (Hch _ _ Ec) as (Hle & Hg & Hcl').
  destruct (buf c) as [|ev more] eqn:Eb; [by destruct (closed c)|].
  inversion Hg as [|?? Hev Hmore]; subst. split; [|by intros ? [= <-]]. split; cbn; [done|..|done|done].
  - intros x Hx. apply lookup_insert_is_Some'. auto.
  - intros x d [[-> <-]|[? Hx]]%lookup_insert_Some; [|by apply Hch]. cbn in *. split_and!; [lia|done|done].
Qed.

Lemma step_ok l : step_fine bid (λ o, ∀ ch ev, o = Some (ch, ev) → good bid ev) (step l h).
Proof using Hok.
  destruct l as [ch now|ch|ev now now'|ch|ch]; cbn [step].
  - pose proof (register_ok ch now). destruct (Subscribe_register _ _ _); naive_solver.
  - pose proof (replay_ok ch). destruct (Subscribe_replay _ _); naive_solver.
  - pose proof (broadcast_ok ev now now'). destruct (Broadcast _ _ _ _); naive_solver.
  - pose proof (cancel_ok ch). destruct (Subscribe_cancel _ _); naive_solver.
  - pose proof (receive_ok ch) as Hr. destruct (receive _ _) as [| |h' [ev|]]; [done..| |];
      destruct Hr as [? He]; (split; [done|]); [intros ? ? [= <- <-]; by apply He|done].
Qed.
End Safe.

Lemma run_ok bid t h h' got :
  hub_ok bid h → run t h = Some (h', got) →
  hub_ok bid h' ∧ Forall (λ ce, good bid ce.2) got.
Proof.
  revert h got. induction t as [|l t IH]; intros h got Hok; cbn [run].
  { intros [= <- <-]. done. }
  pose proof (step_ok bid h Hok l) as Hs. destruct (step l h) as [| |h1 o]; [done..|].
  destruct Hs as [Hok1 Ho]. destruct (run t h1) as [[h2 g]|] eqn:E; [|done]. cbn. intros [= <- <-].
  destruct (IH _ _ Hok1 E) as [? ?]. split; [done|]. apply Forall_app_2; [|done].
  destruct o as [[ch ev]|]; cbn; [|done]. constructor; [by eapply Ho|done].
Qed.

(** ** The hub: what a subscriber gets *)

Definition published1 (bid : string) (l : label) : list Event :=
  match l with LBroadcast ev now _ => [stamp bid ev now] | _ => [] end.
Definition published (bid : string) (t : list label) : list Event := t ≫= published1 bid.
Definition got_by (ch : nat) (got : list (nat * Event)) : list Event :=
  (filter (λ ce, ce.1 = ch) got).*2.
Lemma got_by_cons ch x e g :
  got_by ch ((x, e) :: g) = if decide (x = ch) then e :: got_by ch g else got_by ch g.
Proof. unfold got_by. rewrite filter_cons. cbn. by destruct (decide _). Qed.
#[global] Arguments got_by : simpl never.
Definition owed (ch : nat) (h : Hub) : list Event := option_list (pending h !! ch).

(** The subscriber is connected and has room at every broadcast. *)
Definition has_room (ch : nat) (l : label) (h : Hub) : bool :=
  match l with
  | LBroadcast _ _ _ =>
      bool_decide (ch ∈ clients h)
      && match chans h !! ch with Some c => length (buf c) <? chan_cap | None => false end
  | _ => true
  end.
Fixpoint keeps_up (ch : nat) (t : list label) (h : Hub) : bool :=
  match t with
  | [] => true
  | l :: t =>
      has_room ch l h && match step l h with Next h' _ => keeps_up ch t h' | _ => true end
  end.

(** One step adds to what the subscriber got or will get the event published,
    if any, or the replay it was owed. *)
Record step_delivers (ch : nat) (l : label) (h h' : Hub) (o : option (nat * Event)) (c c' : chan)
    (pre r : list Event) : Prop := {
  sd_chan : chans h' !! ch = Some c';
  sd_build : buildID h' = buildID h;
  sd_queue : got_by ch (option_list o) ++ buf c' = buf c ++ pre ++ r;
  sd_owed : r ++ owed ch h' = owed ch h;
  sd_pub : sublist pre (published1 (buildID h) l);
  sd_one : pre = [] ∨ r = [];
  sd_room : has_room ch l h = true → pre = published1 (buildID h) l;
}.

Lemma step_delivers_same ch l h h' c :
  chans h' !! ch = Some c → buildID h' = buildID h → pending h' !! ch = pending h !! ch →
  published1 (buildID h) l = [] → step_delivers ch l h h' None c c [] [].
Proof.
  intros ? ? Hp Hl. split; rewrite ?Hl; try done; [by rewrite app_nil_r|by unfold owed; rewrite Hp|by left].
Qed.

Lemma step_delivers_ex ch l h h' o c :
  step l h = Next h' o → chans h !! ch = Some c →
  ∃ c' pre r, step_delivers ch l h h' o c c' pre r.
Proof.
  intros Hs Hc. destruct l as [x now|x|ev now now'|x|x]; cbn [step] in Hs.
  - unfold Subscribe_register in Hs. destruct (decide _) as [Hn|]; [|done]. injection Hs as <- <-.
    assert (x ≠ ch) by congruence. exists c, [], []. apply step_delivers_same; cbn; [|done| |done].
    + by rewrite lookup_insert_ne.
    + destruct (_ ≫= _); [by rewrite lookup_insert_ne|done].
  - unfold Subscribe_replay in Hs. destruct (pending h !! x) as [ev|] eqn:Ep; [|done].
    destruct (chans h !! x) as [d|] eqn:Ed; [|done]. destruct (closed d); [done|].
    destruct (_ <? _); [|done]. injection Hs as <- <-. destruct (decide (x = ch)) as [->|].
    + assert (d = c) as -> by congruence. exists (MkChan (buf c ++ [ev]) false), [], [ev].
      split; try done; cbn; [by rewrite lookup_insert_eq| |by left].
      unfold owed. cbn. rewrite lookup_delete_eq, Ep. done.
    + exists c, [], []. apply step_delivers_same; cbn; [by rewrite lookup_insert_ne|done| |done].
      by rewrite lookup_delete_ne.
  - destruct (Broadcast ev now now' h) as [| |h1 []] eqn:E; [done..|]. injection Hs as <- <-.
    destruct (broadcast_inv _ _ _ _ _ E) as (E1 & E2 & E3 & E4 & E5). specialize (E5 ch).
    rewrite Hc in E5. set (e := stamp (buildID h) ev now) in *. destruct (decide (ch ∈ clients h)) as [Hin|Hin].
    + exists (deliver e c), (if length (buf c) <? chan_cap then [e] else []), [].
      split; try done; [by rewrite deliver_buf, app_nil_r|by unfold owed; rewrite E4| |by right|].
      * destruct (length (buf c) <? chan_cap); [done|apply sublist_nil_l].
      * unfold has_room. rewrite Hc. by intros [_ ->]%andb_true_iff.
    + exists c, [], []. split; try done; [by rewrite app_nil_r|by unfold owed; rewrite E4|apply sublist_nil_l|by left|].
      cbn. by rewrite bool_decide_eq_false_2 by done.
  - unfold Subscribe_cancel in Hs. destruct (chans h !! x) as [d|] eqn:Ed; [|done].
    destruct (pending h !! x) eqn:Ep; [done|]. destruct (decide _).
    + destruct (closed d); [done|]. injection Hs as <- <-. destruct (decide (x = ch)) as [->|].
      * assert (d = c) as -> by congruence. exists (MkChan (buf c) true), [], [].
        split; try done; cbn; [by rewrite lookup_insert_eq|by rewrite app_nil_r|by left].
      * exists c, [], []. by apply step_delivers_same; cbn; [rewrite lookup_insert_ne|..].
    + injection Hs as <- <-. exists c, [], []. by apply step_delivers_same.
  - unfold receive in Hs. destruct (chans h !! x) as [d|] eqn:Ed; [|done].
    destruct (pending h !! x) eqn:Ep; [done|]. destruct (buf d) as [|ev more] eqn:Eb.
    + destruct (closed d); [|done]. injection Hs as <- <-. exists c, [], []. by apply step_delivers_same.
    + injection Hs as <- <-. destruct (decide (x = ch)) as [->|].
      * assert (d = c) as -> by congruence. exists (MkChan more (closed c)), [], [].
        split; try done; cbn; [by rewrite lookup_insert_eq| |by left].
        by rewrite got_by_cons, decide_True, Eb, app_nil_r.
      * exists c, [], []. split; try done; cbn; [by rewrite lookup_insert_ne| |by left].
        by rewrite got_by_cons, decide_False, app_nil_r.
Qed.

Lemma got_by_app ch g g' : got_by ch (g ++ g') = got_by ch g ++ got_by ch g'.
Proof. unfold got_by. by rewrite filter_app, fmap_app. Qed.

Lemma run_delivers ch t h h' got c :
  run t h = Some (h', got) → chans h !! ch = Some c →
  ∃ c' pre r post,
    chans h' !! ch = Some c'
    ∧ got_by ch got ++ buf c' = buf c ++ pre ++ r ++ post
    ∧ r ++ owed ch h' = owed ch h
    ∧ sublist (pre ++ post) (published (buildID h) t)
    ∧ (keeps_up ch t h = true → pre ++ post = published (buildID h) t).
Proof.
  revert h got c. induction t as [|l t IH]; intros h got c; cbn [run keeps_up].
  { intros [= <- <-] Hc. exists c, [], [], []. cbn. by rewrite app_nil_r. }
  destruct (step l h) as [| |h1 o] eqn:Es; [done..|]. intros Hr Hc.
  destruct (run t h1) as [[h2 g]|] eqn:Er; [|done]. cbn in Hr. injection Hr as <- <-.
  destruct (step_delivers_ex _ _ _ _ _ _ Es Hc) as (c1 & pre1 & r1 & [S1 S2 S3 S4 S5 S6 S7]).
  destruct (IH _ _ _ Er S1) as (c2 & pre & r & post & R1 & R2 & R3 & R4 & R5).
  rewrite S2 in R4, R5. change (published (buildID h) (l :: t)) with (published1 (buildID h) l ++ published (buildID h) t).
  assert (got_by ch (option_list o ++ g) ++ buf c2 = buf c ++ pre1 ++ r1 ++ pre ++ r ++ post) as Hq.
  { rewrite got_by_app, <- app_assoc, R2, app_assoc, S3. by rewrite <- !app_assoc. }
  destruct r1 as [|e r1].
  - exists c2, (pre1 ++ pre), r, post. rewrite <- !app_assoc. cbn in S4. split_and!; [done|done|by rewrite R3| |].
    + by apply sublist_app.
    + intros [Ha Hb]%andb_true_iff. by rewrite S7, R5.
  - destruct S6 as [-> | ?]; [|done].
    assert (r1 = [] ∧ owed ch h1 = []) as [-> Ho].
    { unfold owed in S4 at 2. destruct (pending h !! ch); [|done]. cbn in S4.
      injection S4 as _ S4. by apply app_eq_nil in S4. }
    rewrite Ho in R3. apply app_eq_nil in R3 as [-> Ho'].
    exists c2, [], [e], (pre ++ post). cbn [app] in *. split_and!; [done|done| | |].
    + rewrite Ho'. by rewrite Ho in S4.
    + rewrite <- (app_nil_l (pre ++ post)). by apply sublist_app.
    + intros [Ha Hb]%andb_true_iff. by rewrite <- S7, R5.
Qed.

(** A call stuck in its replay sees nothing change. *)
Lemma stuck_step ch ev c l h h1 o :
  pending h !! ch = Some ev → chans h !! ch = Some c → length (buf c) = 8 → step l h = Next h1 o →
  pending h1 !! ch = Some ev ∧ chans h1 !! ch = Some c ∧ got_by ch (option_list o) = [].
Proof.
  intros Hp Hc Hl Es. destruct l as [x now|x|e now now'|x|x]; cbn [step] in Es.
  - unfold Subscribe_register in Es. destruct (decide _); [|done]. injection Es as <- <-. cbn.
    assert (x ≠ ch) by congruence. rewrite lookup_insert_ne by done.
    destruct (_ ≫= _); [by rewrite lookup_insert_ne|done].
  - unfold Subscribe_replay in Es. destruct (pending h !! x) as [e|] eqn:Ep; [|done].
    destruct (chans h !! x) as [d|] eqn:Ed; [|done]. destruct (closed d); [done|].
    destruct (length (buf d) <? chan_cap) eqn:El; [|done]. injection Es as <- <-.
    destruct (decide (x = ch)) as [->|]; [assert (d = c) as -> by congruence; by rewrite Hl in El|].
    cbn. by rewrite lookup_delete_ne, lookup_insert_ne.
  - destruct (Broadcast e now now' h) as [| |hb []] eqn:E; [done..|]. injection Es as <- <-.
    destruct (broadcast_inv _ _ _ _ _ E) as (E1 & E2 & E3 & E4 & E5). rewrite E4, E5, Hc.
    destruct (decide _); [|done]. cbn. unfold deliver. by rewrite Hl.
  - unfold Subscribe_cancel in Es. destruct (chans h !! x) as [d|] eqn:Ed; [|done].
    destruct (pending h !! x) eqn:Ep; [done|]. assert (x ≠ ch) by congruence.
    destruct (decide _); [destruct (closed d); [done|]|]; injection Es as <- <-; [|done].
    cbn. by rewrite lookup_insert_ne.
  - unfold receive in Es. destruct (chans h !! x) as [d|] eqn:Ed; [|done].
    destruct (pending h !! x) eqn:Ep; [done|]. assert (x ≠ ch) by congruence.
    destruct (buf d); [destruct (closed d); [|done]|]; injection Es as <- <-; [done|].
    cbn. rewrite lookup_insert_ne by done. split_and!; [done..|].
    cbn. by rewrite got_by_cons, decide_False.
Qed.

(** C24 : No schedule of subscriptions, broadcasts, cancellations and receives
    sends on a closed channel or closes one twice; every subscriber's buffer
    stays within its capacity; everything buffered or received carries a
    schema version the client accepts and the hub's build. *)
Theorem hub_never_panics bid t h got :
  run t (NewHub bid) = Some (h, got) →
  (∀ l, step l h ≠ Panics)
  ∧ (∀ ch c, chans h !! ch = Some c →
      length (buf c) ≤ 8 ∧ Forall (good bid) (buf c) ∧ (closed c = true ↔ ch ∉ clients h))
  ∧ Forall (λ ce, good bid ce.2) got.
Proof.
  intros Hr. destruct (run_ok bid _ _ _ _ (NewHub_ok bid) Hr) as [Hok Hgot]. split_and!; [| |done].
  - intros l E. pose proof (step_ok bid h Hok l) as Hs. by rewrite E in Hs.
  - intros ch c Hc. destruct (ok_chan _ _ Hok _ _ Hc) as (? & ? & Hcl). split_and!; [done..|].
    destruct (closed c); naive_solver.
Qed.

(** C15 : From the moment a subscriber is registered, what it received followed
    by what waits in its buffer is the events broadcast since, in their order
    and none twice, with the replay it was owed somewhere among them; none is
    missing as long as the subscriber keeps up. *)
Theorem hub_delivers_in_order ch now h0 h t h' got :
  Subscribe_register ch now h0 = Next h () →
  run t h = Some (h', got) →
  ∃ c pre r post,
    chans h' !! ch = Some c
    ∧ got_by ch got ++ buf c = pre ++ r ++ post
    ∧ r ++ owed ch h' = owed ch h
    ∧ sublist (pre ++ post) (published (buildID h0) t)
    ∧ (keeps_up ch t h = true → pre ++ post = published (buildID h0) t).
Proof.
  intros Hreg Hr. unfold Subscribe_register in Hreg. destruct (decide _); [|done].
  assert (chans h !! ch = Some (MkChan [] false) ∧ buildID h = buildID h0) as [Hc Hb].
  { injection Hreg as <-. cbn. by rewrite lookup_insert_eq. }
  destruct (run_delivers _ _ _ _ _ _ Hr Hc) as (c & pre & r & post & ? & ? & ? & ? & ?).
  rewrite <- Hb. by exists c, pre, r, post.
Qed.

(** [Subscribe] sends the replay with no receiver yet: if eight broadcasts
    come in after the channel is registered and before that send, the call never
    returns, in any continuation, and its client is never served. *)
Theorem subscribe_hangs ch ev c t h h' got :
  pending h !! ch = Some ev → chans h !! ch = Some c → length (buf c) = 8 →
  run t h = Some (h', got) →
  pending h' !! ch = Some ev ∧ chans h' !! ch = Some c ∧ got_by ch got = [].
Proof.
  intros Hp Hc Hl. revert h got Hp Hc. induction t as [|l t IH]; intros h got Hp Hc; cbn [run].
  { by intros [= <- <-]. }
  destruct (step l h) as [| |h1 o] eqn:Es; [done..|]. intros Hr.
  destruct (run t h1) as [[h2 g]|] eqn:Er; [|done]. cbn in Hr. injection Hr as <- <-.
  destruct (stuck_step _ _ _ _ _ _ _ Hp Hc Hl Es) as (Hp1 & Hc1 & Ho).
  destruct (IH _ _ Hp1 Hc1 Er) as (? & ? & ?). rewrite got_by_app, Ho. done.
Qed.

Definition ev0 (src : string) : Event := MkEvent EventReload "" "" src "" 0 0 "" 0.
(** A restart's broadcast, a tab that reconnects, and eight more broadcasts
    before its [Subscribe] gets to send the replay. *)
Definition burst : list label :=
  LBroadcast (ev0 "restart") 100 100 :: LRegister 0 200 :: replicate 8 (LBroadcast (ev0 "save") 300 300).
Definition burst_state : Hub :=
  match run burst (NewHub "b1") with Some (h, _) => h | None => NewHub "b1" end.

Lemma hub_never_panics_witness :
  run burst (NewHub "b1") = Some (burst_state, [])
  ∧ ∀ l, step l burst_state ≠ Panics.
Proof.
  assert (run burst (NewHub "b1") = Some (burst_state, [])) as H by (vm_compute; reflexivity).
  split; [exact H|]. apply (hub_never_panics "b1" burst burst_state [] H).
Defined.

Lemma subscribe_hangs_witness :
  ∀ t h' got, run t burst_state = Some (h', got) → got_by 0 got = [].
Proof.
  intros t h' got Hr.
  eapply (subscribe_hangs 0 (stamp "b1" (ev0 "restart") 100)
    (MkChan (replicate 8 (stamp "b1" (ev0 "save") 300)) false) t burst_state h' got);
    [vm_compute; reflexivity..|exact Hr].
Defined.

(** Connected, served its replay, three broadcasts, two of them read. *)
Definition visit : list label :=
  [LReplay 0; LBroadcast (ev0 "a") 201 201; LReceive 0; LBroadcast (ev0 "b") 202 202; LReceive 0].
Definition registered : Hub :=
  match run [LBroadcast (ev0 "restart") 100 100] (NewHub "b1") with
  | Some (h, _) => match Subscribe_register 0 200 h with Next h _ => h | _ => h end
  | None => NewHub "b1"
  end.
Definition before_register : Hub :=
  match run [LBroadcast (ev0 "restart") 100 100] (NewHub "b1") with
  | Some (h, _) => h | None => NewHub "b1" end.
Definition after_visit : Hub * list (nat * Event) :=
  match run visit registered with Some r => r | None => (registered, []) end.

Lemma hub_delivers_in_order_witness :
  (∃ c pre r post,
    chans after_visit.1 !! 0 = Some c
    ∧ got_by 0 after_visit.2 ++ buf c = pre ++ r ++ post
    ∧ r ++ owed 0 after_visit.1 = owed 0 registered
    ∧ sublist (pre ++ post) (published "b1" visit)
    ∧ (keeps_up 0 visit registered = true → pre ++ post = published "b1" visit))
  ∧ keeps_up 0 visit registered = true.
Proof.
  split; [|vm_compute; reflexivity].
  apply (hub_delivers_in_order 0 200 before_register registered visit after_visit.1 after_visit.2);
    vm_compute; reflexivity.
Defined.

(** ** The wire format: encode, decode *)

Definition slot_default (s : slot) : bool :=
  match s with UOffsetTSlot _ _ => false | Uint16Slot _ v d | Uint64Slot _ v d => (v =? d)%Z end.

(** What the FlatBuffers documentation promises of a finished table. *)
Class FlatbuffersLaws (FB : Flatbuffers) : Prop := {
  finished_length : ∀ n ss, 4 ≤ String.length (finished_bytes n ss);
  offset_written : ∀ n ss s,
    NoDup (slot_index <$> ss) → Forall (λ s, slot_index s < n) ss → s ∈ ss →
    (Offset (root_table (finished_bytes n ss)) (4 + 2 * Z.of_nat (slot_index s)) = 0%Z)
    ↔ slot_default s = true;
  string_written : ∀ n ss i v,
    NoDup (slot_index <$> ss) → Forall (λ s, slot_index s < n) ss → UOffsetTSlot i v ∈ ss →
    let t := root_table (finished_bytes n ss) in table_string t (Offset t (4 + 2 * Z.of_nat i)) = v;
  uint16_written : ∀ n ss i v d,
    NoDup (slot_index <$> ss) → Forall (λ s, slot_index s < n) ss → Uint16Slot i v d ∈ ss →
    (0 ≤ v < 65536)%Z → v ≠ d →
    let t := root_table (finished_bytes n ss) in table_uint16 t (Offset t (4 + 2 * Z.of_nat i)) = v;
  uint64_written : ∀ n ss i v d,
    NoDup (slot_index <$> ss) → Forall (λ s, slot_index s < n) ss → Uint64Slot i v d ∈ ss →
    (0 ≤ v < 18446744073709551616)%Z → v ≠ d →
    let t := root_table (finished_bytes n ss) in table_uint64 t (Offset t (4 + 2 * Z.of_nat i)) = v;
}.

(** The fields are within their machine widths. *)
Definition ev_fits (ev : Event) : Prop :=
  (0 ≤ ev_major ev < 65536 ∧ 0 ≤ ev_minor ev < 65536 ∧ 0 ≤ TS ev < 18446744073709551616)%Z.
Lemma stamp_fits bid ev now : ev_fits (stamp bid ev now).
Proof.
  unfold ev_fits, stamp, uint64, SchemaMajor, SchemaMinor. cbn [ev_major ev_minor TS].
  pose proof (Z.mod_pos_bound (unix_nano now) 18446744073709551616). lia.
Qed.

Section CodecFacts.
Context `{FL : FlatbuffersLaws}.
Context (ss : list slot) (n : nat).
Context (Hnd : NoDup (slot_index <$> ss)) (Hlt : Forall (λ s, slot_index s < n) ss).
Abbreviation tbl := (root_table (finished_bytes n ss)).

Lemma tableString_written i v off :
  UOffsetTSlot i v ∈ ss → off = (4 + 2 * Z.of_nat i)%Z → tableString tbl off = v.
Proof using FL Hnd Hlt.
  intros Hin ->. unfold tableString. pose proof (offset_written n ss _ Hnd Hlt Hin) as Ho. cbn in Ho.
  destruct (Z.eqb_spec (Offset tbl (4 + 2 * Z.of_nat i)) 0); [naive_solver|].
  by apply string_written.
Qed.
Lemma tableUshort_written i v off :
  Uint16Slot i v 0 ∈ ss → (0 ≤ v < 65536)%Z → off = (4 + 2 * Z.of_nat i)%Z → tableUshort tbl off = v.
Proof using FL Hnd Hlt.
  intros Hin Hv ->. unfold tableUshort. pose proof (offset_written n ss _ Hnd Hlt Hin) as Ho.
  cbn [slot_index slot_default] in Ho. rewrite Z.eqb_eq in Ho.
  destruct (Z.eqb_spec (Offset tbl (4 + 2 * Z.of_nat i)) 0); [symmetry; by apply Ho|].
  apply (uint16_written n ss i v 0); try done. intros ->. naive_solver.
Qed.
Lemma tableUlong_written i v off :
  Uint64Slot i v 0 ∈ ss → (0 ≤ v < 18446744073709551616)%Z → off = (4 + 2 * Z.of_nat i)%Z →
  tableUlong tbl off = v.
Proof using FL Hnd Hlt.
  intros Hin Hv ->. unfold tableUlong. pose proof (offset_written n ss _ Hnd Hlt Hin) as Ho.
  cbn [slot_index slot_default] in Ho. rewrite Z.eqb_eq in Ho.
  destruct (Z.eqb_spec (Offset tbl (4 + 2 * Z.of_nat i)) 0); [symmetry; by apply Ho|].
  apply (uint64_written n ss i v 0); try done. intros ->. naive_solver.
Qed.
End CodecFacts.

Ltac slot_in := repeat first [left; reflexivity | right].
Lemma decode_encodeEvent `{FL : FlatbuffersLaws} ev : ev_fits ev → decodeEvent (encodeEvent ev) = ev.
Proof.
  intros (Hma & Hmi & Hts). unfold decodeEvent, encodeEvent.
  match goal with |- context [finished_bytes 9 ?l] => set (ss := l) end.
  assert (NoDup (slot_index <$> ss)) as Hnd by (apply (bool_decide_unpack _); vm_compute; exact I).
  assert (Forall (λ s, slot_index s < 9) ss) as Hlt by (repeat constructor).
  replace (_ <? 4) with false by (symmetry; apply Nat.ltb_ge, finished_length).
  destruct ev as [k ta pa so ro ma mi bi ts]. cbn [Kind Target Payload Source Route ev_major ev_minor BuildID TS] in *.
  f_equal;
    first [ eapply (tableString_written ss 9 Hnd Hlt); [subst ss; slot_in | reflexivity]
          | eapply (tableUshort_written ss 9 Hnd Hlt); [subst ss; slot_in | done | reflexivity]
          | eapply (tableUlong_written ss 9 Hnd Hlt); [subst ss; slot_in | done | reflexivity] ].
Qed.

(** A FlatBuffers runtime that satisfies the laws: the slots, written out. *)
Module Plain.

#[export] Instance slot_dec : EqDecision slot.
Proof. solve_decision. Defined.
#[export] Instance slot_countable : Countable slot.
Proof.
  refine (inj_countable'
    (λ s, match s with
          | UOffsetTSlot n s => inl (n, s)
          | Uint16Slot n v d => inr (inl (n, v, d))
          | Uint64Slot n v d => inr (inr (n, v, d))
          end)
    (λ x, match x with
          | inl (n, s) => UOffsetTSlot n s
          | inr (inl (n, v, d)) => Uint16Slot n v d
          | inr (inr (n, v, d)) => Uint64Slot n v d
          end) _).
  by intros [].
Defined.

Fixpoint bits (p : positive) : string :=
  match p with
  | xH => ""
  | xO p => String "0" (bits p)
  | xI p => String "1" (bits p)
  end.
Fixpoint unbits (s : string) : positive :=
  match s with
  | EmptyString => xH
  | String c s => if Ascii.eqb c "0" then xO (unbits s) else xI (unbits s)
  end.
Lemma unbits_bits p : unbits (bits p) = p.
Proof. induction p; cbn; by f_equal. Qed.

Definition slot_of (t : list slot) (o : Z) : option slot :=
  List.find (λ s, slot_index s =? Z.to_nat (o - 1)) t.
#[export] Instance fb : Flatbuffers := {
  Table := list slot;
  finished_bytes _ ss := "root" +:+ bits (encode ss);
  root_table s := default [] (decode (unbits (str_drop 4 s)));
  Offset t off :=
    match slot_of t ((off - 4) / 2 + 1) with
    | Some s => if slot_default s then 0%Z else ((off - 4) / 2 + 1)%Z
    | None => 0%Z
    end;
  table_string t o := match slot_of t o with Some (UOffsetTSlot _ s) => s | _ => "" end;
  table_uint16 t o := match slot_of t o with Some (Uint16Slot _ v _) => v | _ => 0%Z end;
  table_uint64 t o := match slot_of t o with Some (Uint64Slot _ v _) => v | _ => 0%Z end;
}.

Lemma root_finished n ss : root_table (finished_bytes n ss) = ss.
Proof.
  unfold root_table, finished_bytes. cbn. by rewrite unbits_bits, decode_encode.
Qed.
Lemma find_slot ss s :
  NoDup (slot_index <$> ss) → s ∈ ss → List.find (λ x, slot_index x =? slot_index s) ss = Some s.
Proof.
  induction ss as [|x ss IH]; [by intros _ ?%not_elem_of_nil|]. rewrite fmap_cons.
  intros [Hx Hnd]%NoDup_cons [->|Hs]%elem_of_cons; cbn; [by rewrite Nat.eqb_refl|].
  destruct (Nat.eqb_spec (slot_index x) (slot_index s)) as [E|]; [|by apply IH].
  exfalso. apply Hx. rewrite E. by apply list_elem_of_fmap_2.
Qed.
Lemma slot_at ss s o :
  NoDup (slot_index <$> ss) → s ∈ ss → o = (Z.of_nat (slot_index s) + 1)%Z → slot_of ss o = Some s.
Proof.
  intros Hnd Hs ->. unfold slot_of. replace (Z.to_nat _) with (slot_index s) by lia. by apply find_slot.
Qed.
Lemma offset_of ss s :
  NoDup (slot_index <$> ss) → s ∈ ss →
  Offset (ss : Table) (4 + 2 * Z.of_nat (slot_index s)) =
    if slot_default s then 0%Z else (Z.of_nat (slot_index s) + 1)%Z.
Proof.
  intros Hnd Hs. unfold Offset. cbn.
  replace ((4 + 2 * Z.of_nat (slot_index s) - 4) / 2)%Z with (Z.of_nat (slot_index s)).
  - by rewrite (slot_at ss s) by done.
  - rewrite Z.add_simpl_l, Z.mul_comm, Z.div_mul by done. done.
Qed.

#[export] Instance fb_laws : FlatbuffersLaws fb.
Proof.
  split.
  - intros n ss. cbn. lia.
  - intros n ss s Hnd _ Hs. rewrite root_finished, offset_of by done.
    destruct (slot_default s); split; try done. lia.
  - intros n ss i v Hnd _ Hs t. subst t. rewrite root_finished.
    pose proof (offset_of ss (UOffsetTSlot i v) Hnd Hs) as E. cbn [slot_default slot_index] in E. rewrite E. cbn.
    by rewrite (slot_at ss (UOffsetTSlot i v)).
  - intros n ss i v d Hnd _ Hs Hv Hd t. subst t. rewrite root_finished.
    pose proof (offset_of ss (Uint16Slot i v d) Hnd Hs) as E. cbn [slot_default slot_index] in E. rewrite E.
    rewrite (proj2 (Z.eqb_neq v d)) by done. cbn. by rewrite (slot_at ss (Uint16Slot i v d)).
  - intros n ss i v d Hnd _ Hs Hv Hd t. subst t. rewrite root_finished.
    pose proof (offset_of ss (Uint64Slot i v d) Hnd Hs) as E. cbn [slot_default slot_index] in E. rewrite E.
    rewrite (proj2 (Z.eqb_neq v d)) by done. cbn. by rewrite (slot_at ss (Uint64Slot i v d)).
Qed.
End Plain.

(** ** The event stream *)

(** The bytes a handler writes, when it leaves the status at 200. *)
Definition written1 (o : writer_op) : string := match o with OpWrite b => b | _ => "" end.
Definition written (ops : list writer_op) : string := foldr (λ o s, written1 o +:+ s) "" ops.
Definition default_status (r : response) : Prop :=
  final r = None ∨ ∃ h, final r = Some (200%Z, h).
Lemma step_default_status r o :
  default_status r → (∀ c, o ≠ OpWriteHeader c) →
  default_status (response_step r o) ∧ sent (response_step r o) = sent r +:+ written1 o.
Proof.
  unfold default_status. intros Hd Ho. destruct r as [l i f b].
  destruct o; cbn in *; try (by rewrite str_app_nil_r); try (by exfalso; eapply Ho);
    destruct Hd as [->|[h ->]]; cbn; rewrite ?str_app_nil_r; eauto.
Qed.
Lemma sent_written r ops :
  default_status r → Forall (λ o, ∀ c, o ≠ OpWriteHeader c) ops →
  default_status (respond_from r ops) ∧ sent (respond_from r ops) = sent r +:+ written ops.
Proof.
  intros Hd Hops. revert r Hd. induction Hops as [|o ops Ho _ IH]; intros r Hd; cbn.
  { by rewrite str_app_nil_r. }
  destruct (step_default_status r o Hd Ho) as [Hd' Hs]. destruct (IH _ Hd') as [? Hs'].
  split; [done|]. by rewrite Hs', Hs, str_app_assoc.
Qed.
Lemma sent_commit r : sent (commit r) = sent r.
Proof. by destruct r as [l i [[]|] b]. Qed.

(** [%d] writes no line break. *)
Lemma pretty_go_bytes f x s :
  (∀ c, byte_in 48 57 c = true → f c = true) → all_bytes f s = true → all_bytes f (pretty_N_go x s) = true.
Proof.
  intros Hf. revert s. induction (N.lt_wf_0 x) as [x _ IH]; intros s Hs.
  destruct (decide (x = 0)%N) as [->|]; [by rewrite pretty_N_go_0|].
  rewrite pretty_N_go_step by lia. apply IH; [apply N.div_lt; lia|].
  cbn [all_bytes]. rewrite Hs, andb_true_r. apply Hf.
  assert (x `mod` 10 < 10)%N as Hy by by apply N.mod_lt. revert Hy. generalize (x `mod` 10)%N. intros y Hy.
  assert (y ∈ [0; 1; 2; 3; 4; 5; 6; 7; 8; 9]%N) as Hin.
  { rewrite !elem_of_cons. lia. }
  repeat (apply elem_of_cons in Hin as [->|Hin]; [by vm_compute|]). by apply not_elem_of_nil in Hin.
Qed.
Lemma itoa_no_newline z : mem_byte newline (itoa z) = false.
Proof.
  assert (∀ s, all_bytes (byte_in 45 57) s = true → mem_byte newline s = false) as Hmem.
  { induction s as [|c s IH]; [done|]. cbn [mem_byte all_bytes]. intros [Hc Hs]%andb_true_iff. rewrite IH by done.
    destruct (Ascii.eqb_spec c newline) as [->|]; [by vm_compute in Hc|done]. }
  assert (∀ x : N, all_bytes (byte_in 45 57) (pretty x) = true) as HN.
  { intros x. unfold pretty, pretty_N. destruct (decide _); [by vm_compute|]. apply pretty_go_bytes; [|done].
    intros c. rewrite !byte_in_true. lia. }
  apply Hmem. unfold itoa, pretty, pretty_Z. destruct z as [|p|p]; [by vm_compute|apply HN|].
  rewrite str_app_cons, str_app_nil_l. cbn. apply HN.
Qed.
Lemma b64_no_newline s : mem_byte newline (b64_encode s) = false.
Proof.
  pose proof (b64_safe s) as Hs. revert Hs. generalize (b64_encode s). clear.
  induction s as [|c s IH]; [done|]. cbn [mem_byte all_bytes]. intros [Hc Hs]%andb_true_iff. rewrite IH by done.
  destruct (Ascii.eqb_spec c newline) as [->|]; [by vm_compute in Hc|done].
Qed.

Section Stream.
Context `{FB : Flatbuffers}.

Definition frame (ev : Event) : string * string := ("fb", b64_encode (encodeEvent ev)).
Lemma split_line s t : mem_byte newline s = false → split (s +:+ nl +:+ t) newline = s :: split t newline.
Proof. intros Hs. unfold nl. rewrite str_app_cons, str_app_nil_l. by apply split_app_sep. Qed.

Lemma sse_event ev rest : sse_events (writeEvent ev +:+ rest) = frame ev :: sse_events rest.
Proof.
  unfold sse_events, writeEvent. rewrite <- !str_app_assoc.
  rewrite split_line by done. rewrite (str_app_assoc "data: "), split_line.
  - rewrite <- (str_app_nil_l (nl +:+ rest)), split_line by done.
    cbn [sse_lines]. change (String.eqb ("data: " +:+ _) "") with false.
    change (has_prefix "event: fb" "event: ") with true.
    change (has_prefix ("data: " +:+ _) "event: ") with false. rewrite has_prefix_app, trim_prefix_app.
    done.
  - rewrite mem_byte_app, b64_no_newline. done.
Qed.
Lemma sse_keep_alive now rest : sse_events (keep_alive now +:+ rest) = sse_events rest.
Proof.
  unfold sse_events, keep_alive. rewrite <- !str_app_assoc, (str_app_assoc ": keep-alive "), split_line.
  - rewrite <- (str_app_nil_l (nl +:+ rest)), split_line by done. done.
  - rewrite mem_byte_app, itoa_no_newline. done.
Qed.

(** The events the handler picked up before it returned. *)
Fixpoint picked (ins : list input) : list Event :=
  match ins with
  | [] | Done :: _ | FromEvents None :: _ => []
  | Tick _ :: ins => picked ins
  | FromEvents (Some ev) :: ins => ev :: picked ins
  end.
Lemma sse_loop ins : sse_events (written (handler_loop ins)) = frame <$> picked ins.
Proof.
  induction ins as [|[|now|[ev|]] ins IH]; [done|done|..|done]; cbn [handler_loop written foldr written1 picked];
    rewrite str_app_nil_l.
  - by rewrite sse_keep_alive.
  - by rewrite sse_event, fmap_cons, <- IH.
Qed.
Lemma loop_writes ins : Forall (λ o, ∀ c, o ≠ OpWriteHeader c) (handler_loop ins).
Proof. induction ins as [|[|now|[ev|]] ins IH]; cbn; repeat constructor; done. Qed.

Lemma sse_handler bid now ins :
  sse_events (sent (respond (Handler true bid now ins))) = frame <$> hello bid now :: picked ins.
Proof.
  unfold respond. rewrite sent_commit. cbn [Handler negb].
  match goal with |- context [respond_from new_response ?l] => set (ops := l) end.
  assert (Forall (λ o, ∀ c, o ≠ OpWriteHeader c) ops) as Hops
    by (repeat (constructor; [done|]); apply loop_writes).
  destruct (sent_written new_response ops) as [_ ->]; [by left|done|]. subst ops.
  cbn [sent new_response written foldr written1 app]. rewrite !str_app_nil_l.
  change (foldr _ "" (handler_loop ins)) with (written (handler_loop ins)).
  rewrite <- !str_app_assoc. unfold sse_events. rewrite split_line by done.
  rewrite <- (str_app_nil_l (nl +:+ _)), split_line by done. cbn [sse_lines].
  change (sse_lines "" None (split ?x newline)) with (sse_events x).
  change (has_prefix "retry: 1000" "event: ") with false.
  change (has_prefix "retry: 1000" "data: ") with false.
  change (sse_lines "" None (split ?x newline)) with (sse_events x).
  by rewrite sse_event, sse_loop.
Qed.
End Stream.

(** What the script's listener makes of a dispatched frame. *)
Definition on_fb `{Flatbuffers} (f : string * string) : option Event :=
  if String.eqb f.1 "fb" then decodeEvent <$> b64_decode f.2 else None.

Import Plain.

(** ** The browser: dispatch *)

(** The script's compatibility gate is the Go one: a page reloads exactly
    on an incompatible event or a reload event, and a fragment replaces an
    element only if it carries a target and is meant for the page shown. *)
Theorem dispatch_exact pathname found ev :
  (dispatch pathname found ev = Reload
   ↔ IsCompatible (ev_major ev) (ev_minor ev) = false ∨ Kind ev = EventReload)
  ∧ (∀ target html, dispatch pathname found ev = Swap target html
     ↔ IsCompatible (ev_major ev) (ev_minor ev) = true ∧ Kind ev = EventFragment
       ∧ Target ev = target ∧ target ≠ "" ∧ Payload ev = html ∧ found target = true
       ∧ (Route ev = "" ∨ Route ev = pathname)).
Proof.
  unfold dispatch, IsCompatible, EventReload, EventFragment.
  replace (SchemaMinor <? ev_minor ev)%Z with (negb (ev_minor ev <=? SchemaMinor)%Z)
    by (symmetry; apply Z.ltb_antisym).
  rewrite <- negb_andb. destruct (_ && _); cbn [negb].
  - destruct (String.eqb_spec (Kind ev) "reload") as [E|].
    { split; [by split; auto|]. intros ? ?. split; [done|]. intros (_ & ? & _). congruence. }
    split; [split; [|intros [?|?]; congruence]; repeat case_match; done|]. intros target html.
    destruct (String.eqb_spec (Kind ev) "fragment"), (String.eqb_spec (Target ev) ""),
      (String.eqb_spec (Route ev) ""), (String.eqb_spec (Route ev) pathname); cbn [negb orb andb];
      destruct (found (Target ev)) eqn:Ef; (split; [intros [= <- <-]|intros (_&?&?&?&?&?&[?|?])]);
      try congruence; split_and!; auto.
  - split; [by split; auto|]. intros ? ?. split; [done|]. by intros (? & _).
Qed.

(** ** The browser: injection *)

Lemma str_map_drop f n s : str_drop n (str_map f s) = str_map f (str_drop n s).
Proof. revert n. induction s as [|c s IH]; intros [|n]; cbn; [done..|]. apply IH. Qed.
Lemma str_map_length f s : String.length (str_map f s) = String.length s.
Proof. induction s; cbn; [done|]. by f_equal. Qed.
Lemma str_map_take f n s : str_take n (str_map f s) = str_map f (str_take n s).
Proof. revert n. induction s as [|c s IH]; intros [|n]; cbn; [done..|]. by rewrite IH. Qed.
Lemma str_drop_drop m n s : str_drop m (str_drop n s) = str_drop (n + m) s.
Proof. revert n. induction s as [|c s IH]; intros [|n]; cbn; [done|by destruct m|done|]. apply IH. Qed.

(** In an ASCII page the script tag goes right before the last closing body
    tag, in whatever case it is written, and at the end of a page without one;
    nothing of the page is lost. *)
Theorem inject_before_last_body t html :
  ascii_only html = true →
  match InjectClientScript t html with
  | None => False
  | Some out =>
      (∃ before tag after,
        html = before +:+ tag +:+ after ∧ out = before +:+ hmr_tag +:+ tag +:+ after
        ∧ to_lower tag = close_body
        ∧ ∀ j, 0 < j ≤ String.length (tag +:+ after) →
            has_prefix (to_lower (str_drop j (tag +:+ after))) close_body = false)
      ∨ (out = html +:+ hmr_tag
         ∧ ∀ j, j ≤ String.length html → has_prefix (to_lower (str_drop j html)) close_body = false)
  end.
Proof.
  intros Ha. unfold InjectClientScript. rewrite ToLower_ascii by done. unfold to_lower.
  destruct (last_index _ _) as [idx|] eqn:E.
  - apply last_index_Some in E as (Hle & Hp & Hlast). rewrite str_map_length in Hle, Hlast.
    replace (idx <=? _) with true by (symmetry; by apply Nat.leb_le).
    left. rewrite str_map_drop in Hp. pose proof Hp as Hp'. apply has_prefix_spec in Hp as [r Hr].
    exists (str_take idx html), (str_take 7 (str_drop idx html)), (str_drop 7 (str_drop idx html)).
    rewrite !str_take_drop. split_and!; [done|done| |].
    + rewrite <- str_map_take, Hr. done.
    + intros j Hj. rewrite <- str_map_drop. rewrite str_length_drop in Hj.
      rewrite <- str_map_drop, str_drop_drop. apply Hlast. lia.
  - right. split; [done|]. intros j Hj. rewrite <- str_map_drop.
    apply last_index_None; [done|]. by rewrite str_map_length.
Qed.
Lemma inject_before_last_body_witness :
  match InjectClientScript id "<p></body></BODY >x</BoDy>!" with
  | None => False
  | Some out =>
      (∃ before tag after,
        "<p></body></BODY >x</BoDy>!" = before +:+ tag +:+ after ∧ out = before +:+ hmr_tag +:+ tag +:+ after
        ∧ to_lower tag = close_body
        ∧ ∀ j, 0 < j ≤ String.length (tag +:+ after) →
            has_prefix (to_lower (str_drop j (tag +:+ after))) close_body = false)
      ∨ (out = "<p></body></BODY >x</BoDy>!" +:+ hmr_tag
         ∧ ∀ j, j ≤ String.length "<p></body></BODY >x</BoDy>!" →
             has_prefix (to_lower (str_drop j "<p></body></BODY >x</BoDy>!")) close_body = false)
  end.
Proof. apply (inject_before_last_body id "<p></body></BODY >x</BoDy>!"). reflexivity. Defined.

(** U+023A lower-cases to U+2C65, one byte longer; U+212A to the letter k. *)
Definition wide (n : nat) : string := Nat.iter n (λ s, encode_rune 570 +:+ s) "".
Definition kelvin : string := encode_rune 8490.

(** The index is computed in the lower-cased page and used on the page
    itself: letters whose lower case is longer push it past the closing tag, or
    past the end, where the slice panics; a shorter lower case puts the tag
    inside the preceding character. *)
Theorem inject_index_of_other_string t :
  t 570%Z = 11365%Z → t 8490%Z = 107%Z →
  InjectClientScript t (wide 8 +:+ close_body) = None
  ∧ InjectClientScript t (wide 1 +:+ close_body) = Some (wide 1 +:+ "<" +:+ hmr_tag +:+ "/body>")
  ∧ InjectClientScript t (kelvin +:+ close_body)
    = Some (str_take 1 kelvin +:+ hmr_tag +:+ str_drop 1 kelvin +:+ close_body).
Proof.
  intros Ht Hk.
  unfold InjectClientScript, ToLower. split_and!.
  - replace (runes _) with (repeat 570%Z 8 ++ runes close_body) by by vm_compute.
    cbn [repeat app fmap list_fmap]. change (lower_rune t 570) with (t 570%Z). rewrite Ht. by vm_compute.
  - replace (runes _) with (570%Z :: runes close_body) by by vm_compute.
    cbn [fmap list_fmap]. change (lower_rune t 570) with (t 570%Z). rewrite Ht. by vm_compute.
  - replace (runes _) with (8490%Z :: runes close_body) by by vm_compute.
    cbn [fmap list_fmap]. change (lower_rune t 8490) with (t 8490%Z). rewrite Hk. by vm_compute.
Qed.
Lemma inject_index_of_other_string_witness :
  InjectClientScript (λ r, if (r =? 570)%Z then 11365%Z else if (r =? 8490)%Z then 107%Z else r)
    (wide 8 +:+ close_body) = None.
Proof.
  apply (inject_index_of_other_string
    (λ r, if (r =? 570)%Z then 11365%Z else if (r =? 8490)%Z then 107%Z else r)); reflexivity.
Defined.
