(* ===== verification/Browser.v ===== *)
(** * The browser client

    Models the script of src/pkg/runtime/hmr/client.go beyond the dispatch rule of Hmr.v: the
    table reader it has instead of a FlatBuffers library, what a message does to a page, and
    the connection that it opens again after every error.  A page is its address and its
    elements; [atob], [TextDecoder], [querySelector] and [EventSource] belong to the browser.
    A JavaScript string is its UTF-8 text, an exception is [None]. *)

From stdpp Require Import strings sets gmap.
From S2P Require Import Prelude GoStrings Http Base64 Hmr.

(** ** [DataView], little endian; an offset out of range throws *)

Definition getUint8 (dv : string) (i : Z) : option Z :=
  if (i <? 0)%Z then None else (λ c, Z.of_N (byte_val c)) <$> String.get (Z.to_nat i) dv.
Fixpoint le_bytes (n : nat) (dv : string) (i : Z) : option Z :=
  match n with
  | 0 => Some 0%Z
  | S n => b ← getUint8 dv i; rest ← le_bytes n dv (i + 1); Some (b + 256 * rest)%Z
  end.
Definition getUint16 : string → Z → option Z := le_bytes 2.
Definition getUint32 : string → Z → option Z := le_bytes 4.
Definition getInt32 (dv : string) (i : Z) : option Z :=
  (λ v, if (v <? 2147483648)%Z then v else (v - 4294967296)%Z) <$> getUint32 dv i.
(** [new Uint8Array(dv.buffer, i, len)]. *)
Definition byte_range (dv : string) (i len : Z) : option string :=
  if (0 <=? i)%Z && (i + len <=? Z.of_nat (String.length dv))%Z
  then Some (str_take (Z.to_nat len) (str_drop (Z.to_nat i) dv)) else None.

(** ** The table reader *)

(** What the script makes of a message; the time is a number. *)
Record js_event := mkJs {
  js_kind : string; js_target : string; js_payload : string; js_source : string; js_route : string;
  js_schemaMajor : Z; js_schemaMinor : Z; js_buildID : string; js_ts : float64;
}.

Section Script.
Context (utf8Decode : string → string).

Definition fbFieldOffset (dv : string) (tablePos vtableOffset : Z) : option Z :=
  soffset ← getInt32 dv tablePos;
  let vtablePos := (tablePos - soffset)%Z in
  vtableSize ← getUint16 dv vtablePos;
  if (vtableSize <=? vtableOffset)%Z then Some 0%Z else getUint16 dv (vtablePos + vtableOffset).
Definition fbUshort (dv : string) (tablePos vtableOffset : Z) : option Z :=
  rel ← fbFieldOffset dv tablePos vtableOffset;
  if (rel =? 0)%Z then Some 0%Z else getUint16 dv (tablePos + rel).
Definition fbUlong (dv : string) (tablePos vtableOffset : Z) : option float64 :=
  rel ← fbFieldOffset dv tablePos vtableOffset;
  if (rel =? 0)%Z then Some f64_zero
  else lo ← getUint32 dv (tablePos + rel); hi ← getUint32 dv (tablePos + rel + 4);
       Some (f64_add (f64_mul (f64_of_int hi) (f64_of_int 4294967296)) (f64_of_int lo)).
Definition fbString (dv : string) (tablePos vtableOffset : Z) : option string :=
  rel ← fbFieldOffset dv tablePos vtableOffset;
  if (rel =? 0)%Z then Some ""
  else let fieldPos := (tablePos + rel)%Z in
       strOff ← getUint32 dv fieldPos;
       let strPos := (fieldPos + strOff)%Z in
       len ← getUint32 dv strPos;
       utf8Decode <$> byte_range dv (strPos + 4) len.
Definition decodeEvent_js (dv : string) : option js_event :=
  tablePos ← getUint32 dv 0;
  kind ← fbString dv tablePos 4; target ← fbString dv tablePos 6; payload ← fbString dv tablePos 8;
  source ← fbString dv tablePos 10; route ← fbString dv tablePos 12;
  schemaMajor ← fbUshort dv tablePos 14; schemaMinor ← fbUshort dv tablePos 16;
  buildID ← fbString dv tablePos 18; ts ← fbUlong dv tablePos 20;
  Some (mkJs kind target payload source route schemaMajor schemaMinor buildID ts).

(** ** A page *)

Record page := mkPage {
  pathname : string;
  elements : gmap nat string;    (* the content of each element *)
  reloads : nat;
}.
(** [document.querySelector]. *)
Context (querySelector : string → option nat).
Definition reload (p : page) : page := mkPage (pathname p) (elements p) (S (reloads p)).
Definition dispatch_js (ev : js_event) (p : page) : page :=
  if negb (js_schemaMajor ev =? SchemaMajor)%Z || (SchemaMinor <? js_schemaMinor ev)%Z then reload p
  else if String.eqb (js_kind ev) "reload" then reload p
  else if String.eqb (js_kind ev) "fragment" then
    if String.eqb (js_target ev) "" || (negb (String.eqb (js_route ev) "") && negb (String.eqb (js_route ev) (pathname p))) then p
    else match querySelector (js_target ev) with
         | None => p
         | Some el => mkPage (pathname p) (<[el := js_payload ev]> (elements p)) (reloads p)
         end
  else p.
(** The listener on the events named fb; one that throws leaves the page as it is. *)
Definition on_message (p : page) (frame : string * string) : page :=
  if String.eqb frame.1 "fb" then
    match b64_decode frame.2 ≫= decodeEvent_js with Some ev => dispatch_js ev p | None => p end
  else p.
End Script.

(** ** The connection *)

(** The script has run or not; the sources that are open; the calls of [connect] that [setTimeout] holds. *)
Record client := mkClient { hmr_loaded : bool; sources : gset nat; fresh_source : nat; timeouts : nat }.
Definition no_client : client := mkClient false ∅ 0 0.
Definition connect (c : client) : client :=
  mkClient (hmr_loaded c) ({[ fresh_source c ]} ∪ sources c) (S (fresh_source c)) (timeouts c).
Definition onerror (c : client) (es : nat) : client :=
  mkClient (hmr_loaded c) (sources c ∖ {[ es ]}) (fresh_source c) (S (timeouts c)).
Inductive client_step : client → client → Prop :=
  | run_script_again c : hmr_loaded c = true → client_step c c
  | run_script c : hmr_loaded c = false →
      client_step c (connect (mkClient true (sources c) (fresh_source c) (timeouts c)))
  | source_fails c es : es ∈ sources c → client_step c (onerror c es)
  | timeout_fires c n : timeouts c = S n → client_step c (connect (mkClient (hmr_loaded c) (sources c) (fresh_source c) n)).

(** * Lemmas *)

(** ** Tables on the wire

    The layout of a FlatBuffers table, as its documentation has it. *)

Record table_at (dv : string) (pos vpos vsize : Z) : Prop := mkTable {
  t_root : getUint32 dv 0 = Some pos;
  t_vtable : ∃ soffset, getInt32 dv pos = Some soffset ∧ vpos = (pos - soffset)%Z;
  t_size : getUint16 dv vpos = Some vsize;
}.
(** The entry of a field in the table of offsets: none, or where the field is. *)
Definition absent (dv : string) (vpos vsize k : Z) : Prop := (vsize ≤ k)%Z ∨ getUint16 dv (vpos + k) = Some 0%Z.
Definition present (dv : string) (vpos vsize k rel : Z) : Prop :=
  (k < vsize)%Z ∧ getUint16 dv (vpos + k) = Some rel ∧ rel ≠ 0%Z.
Definition string_field (dv : string) (pos vpos vsize k : Z) (s : string) : Prop :=
  (absent dv vpos vsize k ∧ s = "")
  ∨ ∃ rel off, present dv vpos vsize k rel ∧ getUint32 dv (pos + rel) = Some off
      ∧ getUint32 dv (pos + rel + off) = Some (Z.of_nat (String.length s))
      ∧ byte_range dv (pos + rel + off + 4) (Z.of_nat (String.length s)) = Some s.
Definition ushort_field (dv : string) (pos vpos vsize k v : Z) : Prop :=
  (absent dv vpos vsize k ∧ v = 0%Z) ∨ ∃ rel, present dv vpos vsize k rel ∧ getUint16 dv (pos + rel) = Some v.
Definition ulong_field (dv : string) (pos vpos vsize k v : Z) : Prop :=
  (absent dv vpos vsize k ∧ v = 0%Z)
  ∨ ∃ rel lo hi, present dv vpos vsize k rel ∧ getUint32 dv (pos + rel) = Some lo ∧ getUint32 dv (pos + rel + 4) = Some hi
      ∧ v = (hi * 4294967296 + lo)%Z.
Definition on_the_wire (dv : string) (ev : Event) : Prop := ∃ pos vpos vsize, table_at dv pos vpos vsize
  ∧ string_field dv pos vpos vsize 4 (Kind ev) ∧ string_field dv pos vpos vsize 6 (Target ev)
  ∧ string_field dv pos vpos vsize 8 (Payload ev) ∧ string_field dv pos vpos vsize 10 (Source ev)
  ∧ string_field dv pos vpos vsize 12 (Route ev) ∧ ushort_field dv pos vpos vsize 14 (ev_major ev)
  ∧ ushort_field dv pos vpos vsize 16 (ev_minor ev) ∧ string_field dv pos vpos vsize 18 (BuildID ev)
  ∧ ulong_field dv pos vpos vsize 20 (TS ev).
Definition texts (ev : Event) : list string := [Kind ev; Target ev; Payload ev; Source ev; Route ev; BuildID ev].

#[local] Ltac bound := cbn [mbind option_bind fmap option_fmap option_map]; cbv zeta.
Lemma field_offset dv pos vpos vsize k : table_at dv pos vpos vsize →
  (absent dv vpos vsize k → fbFieldOffset dv pos k = Some 0%Z) ∧ ∀ rel, present dv vpos vsize k rel → fbFieldOffset dv pos k = Some rel.
Proof.
  intros [_ (so & Hs & ->) Hv]. unfold fbFieldOffset. rewrite Hs. bound. rewrite Hv. bound. split.
  - intros [Hk|Hk]; [by rewrite (proj2 (Z.leb_le _ _) Hk)|]. by destruct (_ <=? _)%Z.
  - intros rel (Hk & Hr & _). by rewrite (proj2 (Z.leb_gt _ _) Hk).
Qed.
Lemma read_string utf8 dv pos vpos vsize k s : table_at dv pos vpos vsize → utf8 s = s →
  string_field dv pos vpos vsize k s → fbString utf8 dv pos k = Some s.
Proof.
  intros Ht Hu Hf. destruct (field_offset dv pos vpos vsize k Ht) as [Ha Hp]. unfold fbString.
  destruct Hf as [[H ->]|(rel & off & H & Ho & Hl & Hb)]; [by rewrite Ha|].
  rewrite (Hp rel H). bound. destruct (Z.eqb_spec rel 0); [by destruct H as (_ & _ & ?)|]. rewrite Ho. bound. rewrite Hl. bound. rewrite Hb. bound. by rewrite Hu.
Qed.
Lemma read_ushort dv pos vpos vsize k v : table_at dv pos vpos vsize →
  ushort_field dv pos vpos vsize k v → fbUshort dv pos k = Some v.
Proof.
  intros Ht Hf. destruct (field_offset dv pos vpos vsize k Ht) as [Ha Hp]. unfold fbUshort.
  destruct Hf as [[H ->]|(rel & H & Hv)]; [by rewrite Ha|]. rewrite (Hp rel H). bound.
  by destruct (Z.eqb_spec rel 0); [destruct H as (_ & _ & ?)|].
Qed.
Lemma read_ulong dv pos vpos vsize k v : table_at dv pos vpos vsize →
  ulong_field dv pos vpos vsize k v → is_Some (fbUlong dv pos k).
Proof.
  intros Ht Hf. destruct (field_offset dv pos vpos vsize k Ht) as [Ha Hp]. unfold fbUlong.
  destruct Hf as [[H ->]|(rel & lo & hi & H & Hl & Hh & _)]; [by rewrite Ha|]. rewrite (Hp rel H). bound.
  destruct (Z.eqb_spec rel 0); [by destruct H as (_ & _ & ?)|]. rewrite Hl. bound. rewrite Hh. by eexists.
Qed.
(** The reader gets every field back; the time but for its precision. *)
Lemma decode_on_the_wire utf8 dv ev : on_the_wire dv ev → Forall (λ s, utf8 s = s) (texts ev) →
  ∃ ts, decodeEvent_js utf8 dv
    = Some (mkJs (Kind ev) (Target ev) (Payload ev) (Source ev) (Route ev) (ev_major ev) (ev_minor ev) (BuildID ev) ts).
Proof.
  intros (pos & vpos & vsize & Ht & H1 & H2 & H3 & H4 & H5 & H6 & H7 & H8 & H9) Hu. unfold texts in Hu. rewrite !Forall_cons in Hu.
  destruct Hu as (U1 & U2 & U3 & U4 & U5 & U6 & _). unfold decodeEvent_js. rewrite (t_root _ _ _ _ Ht).
  destruct (read_ulong _ _ _ _ _ _ Ht H9) as [ts Hts]. exists ts.
  change (Some pos ≫= ?f) with (f pos). cbv beta.
  rewrite (read_string _ _ _ _ _ _ _ Ht U1 H1), (read_string _ _ _ _ _ _ _ Ht U2 H2), (read_string _ _ _ _ _ _ _ Ht U3 H3),
    (read_string _ _ _ _ _ _ _ Ht U4 H4), (read_string _ _ _ _ _ _ _ Ht U5 H5), (read_ushort _ _ _ _ _ _ Ht H6),
    (read_ushort _ _ _ _ _ _ Ht H7), (read_string _ _ _ _ _ _ _ Ht U6 H8), Hts.
  done.
Qed.

(** ** The listener *)

Section Listener.
Context (utf8Decode : string → string) (querySelector : string → option nat).
(** The action that the dispatch rule names, done to the page. *)
Definition act (p : page) (a : action) : page :=
  match a with
  | Reload => reload p
  | Swap target html =>
      match querySelector target with Some el => mkPage (pathname p) (<[el := html]> (elements p)) (reloads p) | None => p end
  | Ignore => p
  end.
Definition found (target : string) : bool := match querySelector target with Some _ => true | None => false end.
Lemma dispatch_js_act ev ts p :
  dispatch_js querySelector (mkJs (Kind ev) (Target ev) (Payload ev) (Source ev) (Route ev) (ev_major ev) (ev_minor ev) (BuildID ev) ts) p
  = act p (dispatch (pathname p) found ev).
Proof using.
  unfold dispatch_js, dispatch, found. cbn [js_kind js_target js_payload js_route js_schemaMajor js_schemaMinor].
  destruct (_ || _); [done|]. destruct (String.eqb (Kind ev) "reload"); [done|]. destruct (String.eqb (Kind ev) "fragment"); [|done].
  destruct (_ || _); [done|]. destruct (querySelector (Target ev)) as [el|] eqn:E; [|done]. cbn. by rewrite E.
Qed.
Definition readable `{Flatbuffers} (ev : Event) : Prop :=
  on_the_wire (encodeEvent ev) ev ∧ Forall (λ s, utf8Decode s = s) (texts ev).
Lemma on_message_event `{Flatbuffers} ev p : readable ev →
  on_message utf8Decode querySelector p (frame ev) = act p (dispatch (pathname p) found ev).
Proof using.
  intros [Hw Hu]. unfold on_message, frame. cbn [fst snd String.eqb Ascii.eqb Bool.eqb]. rewrite b64_roundtrip. bound.
  destruct (decode_on_the_wire _ _ _ Hw Hu) as [ts ->]. apply dispatch_js_act.
Qed.
End Listener.

(** ** The connection *)

Definition one_connection (c : client) : Prop :=
  size (sources c) + timeouts c = (if hmr_loaded c then 1 else 0) ∧ ∀ es, es ∈ sources c → es < fresh_source c.
Lemma connect_size c : (∀ es, es ∈ sources c → es < fresh_source c) →
  size (sources (connect c)) = S (size (sources c)) ∧ ∀ es, es ∈ sources (connect c) → es < fresh_source (connect c).
Proof.
  intros Hf. cbn. split.
  - rewrite size_union, size_singleton; [done|]. intros es ->%elem_of_singleton Hes. specialize (Hf _ Hes). lia.
  - intros es [->%elem_of_singleton|Hes]%elem_of_union; [lia|]. specialize (Hf _ Hes). lia.
Qed.
Lemma client_step_one c c' : client_step c c' → one_connection c → one_connection c'.
Proof.
  intros Hs [Hn Hf]. unfold one_connection. destruct Hs as [c Hl|c Hl|c es Hes|c n Ht].
  - done.
  - destruct (connect_size (mkClient true (sources c) (fresh_source c) (timeouts c)) Hf) as [-> Hf']. rewrite Hl in Hn. split; [cbn; lia|exact Hf'].
  - cbn. split; [|intros x [Hx _]%elem_of_difference; by apply Hf].
    rewrite size_difference, size_singleton by set_solver. assert (size (sources c) ≠ 0) by (apply size_non_empty_iff; set_solver). lia.
  - destruct (connect_size (mkClient (hmr_loaded c) (sources c) (fresh_source c) n) Hf) as [-> Hf']. split; [cbn in *; lia|exact Hf'].
Qed.

(** * Properties *)

(** C36 : The page does what the hub's events say.  Where the bytes of each event are a FlatBuffers table with its
    fields and its texts are UTF-8, the script, reading the stream of a subscription frame by frame with its own table
    reader, does to the page exactly what the dispatch rule gives for the greeting and for each event that the
    handler took off its channel, in that order; and however often the script runs and connections break, there
    is one open connection or one attempt waiting, never two. *)
Theorem browser_follows_hub `{FB : Flatbuffers} utf8Decode querySelector bid now ins p :
  Forall (readable utf8Decode) (hello bid now :: picked ins) →
  foldl (on_message utf8Decode querySelector) p (sse_events (sent (respond (Handler true bid now ins))))
  = foldl (λ p ev, act querySelector p (dispatch (pathname p) (found querySelector) ev)) p (hello bid now :: picked ins)
  ∧ ∀ c, rtc client_step no_client c → size (sources c) + timeouts c = if hmr_loaded c then 1 else 0.
Proof.
  intros H. split.
  - rewrite sse_handler. revert p H. generalize (hello bid now :: picked ins). intros evs. induction evs as [|ev evs IH]; intros p H; [done|].
    apply Forall_cons in H as [Hev H]. cbn [fmap list_fmap foldl]. rewrite on_message_event by done. by apply IH.
  - intros c Hc. assert (one_connection c) as [H1 _]; [|done].
    assert (one_connection no_client) as H0 by (split; [done|set_solver]). revert H0.
    induction Hc as [|c1 c2 c3 Hs _ IH]; [done|]. intros H1. by apply IH, (client_step_one c1).
Qed.

(** ** A table of nine fields, and a page that a fragment is swapped into *)

Fixpoint le_string (n : nat) (z : Z) : string :=
  match n with 0 => "" | S n => String (ascii_of_N (Z.to_N (z `mod` 256))) (le_string n (z / 256)) end.
(** The entry of a slot in the table of offsets, its eight bytes in the table, its text behind the table. *)
Definition lay_slot (heap : string) (s : slot) : string * string * string :=
  let at_ i := (4 + 8 * Z.of_nat i)%Z in
  match s with
  | UOffsetTSlot i t =>
      (le_string 2 (at_ i), le_string 4 (104 + Z.of_nat (String.length heap) - (28 + at_ i)) +:+ le_string 4 0,
       heap +:+ le_string 4 (Z.of_nat (String.length t)) +:+ t)
  | Uint16Slot i v _ => (le_string 2 (at_ i), le_string 8 v, heap)
  | Uint64Slot i v d => (le_string 2 (if (v =? d)%Z then 0 else at_ i), le_string 8 v, heap)
  end.
Definition lay_slots (ss : list slot) : string * string * string :=
  foldl (λ '(v, t, heap) s, let '(v', t', heap) := lay_slot heap s in (v +:+ v', t +:+ t', heap)) ("", "", "") ss.
#[local] Instance wire_fb : Flatbuffers := {
  Table := string;
  finished_bytes n ss := let '(v, t, heap) := lay_slots ss in
    le_string 4 28 +:+ le_string 2 22 +:+ le_string 2 76 +:+ v +:+ le_string 2 0 +:+ le_string 4 24 +:+ t +:+ heap;
  root_table b := b; Offset _ _ := 0%Z; table_string _ _ := ""; table_uint16 _ _ := 0%Z; table_uint64 _ _ := 0%Z;
}.
Definition swap_event : Event := stamp "b1" (MkEvent "fragment" "#content" ("<p>" +:+ nl +:+ "new</p>") "index.templ" "/" 0 0 "" 0) (unix_epoch + 1700000000123456789).
Definition one_element (sel : string) : option nat := if String.eqb sel "#content" then Some 7 else None.
Definition home : page := mkPage "/" {[ 7 := "old" ]} 0.
#[local] Ltac string_here rel := right; exists rel; eexists; split_and!; [split_and!; [reflexivity|vm_compute; reflexivity|done]|vm_compute; reflexivity..].
#[local] Ltac on_wire := exists 28%Z, 4%Z, 22%Z; split_and!;
  [split; [vm_compute; reflexivity|exists 24%Z; split; [vm_compute; reflexivity|done]|vm_compute; reflexivity]
  |string_here 4%Z|string_here 12%Z|string_here 20%Z|string_here 28%Z|string_here 36%Z
  |right; exists 44%Z; split; [split_and!; [reflexivity|vm_compute; reflexivity|done]|vm_compute; reflexivity]
  |right; exists 52%Z; split; [split_and!; [reflexivity|vm_compute; reflexivity|done]|vm_compute; reflexivity]
  |string_here 60%Z|right; exists 68%Z; do 2 eexists; split_and!; [split_and!; [reflexivity|vm_compute; reflexivity|done]|vm_compute; reflexivity|vm_compute; reflexivity|vm_compute; reflexivity]].
Lemma browser_follows_hub_witness :
  foldl (on_message id one_element) home (sse_events (sent (respond (Handler true "b1" (unix_epoch + 1700000000000000000) [FromEvents (Some swap_event); Done]))))
  = mkPage "/" {[ 7 := "<p>" +:+ nl +:+ "new</p>" ]} 0.
Proof.
  etransitivity; [apply (proj1 (browser_follows_hub id one_element "b1" (unix_epoch + 1700000000000000000)
    [FromEvents (Some swap_event); Done] home ltac:(repeat (constructor; [split; [on_wire|repeat constructor]|]); constructor)))|].
  vm_compute. reflexivity.
Defined.
