(* ===== verification/SqliteStore.v ===== *)
(** * The SQLite stores

    Models src/pkg/runtime/sqlite_store.go: [SQLiteDeploymentStore] and
    [SQLitePolicyVersionStore] over one database, and its schema migration.

    The engine behind database/sql is a parameter: the class [Sqlite] has one
    operation per call the file makes, with its SQL text as a [stmt], and
    [SqliteLaws] is what SQLite documents of them: the meaning of each
    statement on the tables, atomic transactions, ordered queries.
    encoding/json is a parameter too, and so is the order in which a map is
    visited.  The stores implement the same interfaces as the file stores. *)

From S2P Require Import Prelude GoStrings Registry Governance Ledger PolicyVersioning.

(** ** The database *)

(** [None] is a table that does not exist.  [schema_version] has no key. *)
Record tables := mkTables {
  t_version : option (list Z);
  t_current : option (gmap (string * string) string);
  t_history : option (gmap (string * string * Z) string);
  t_policies : option (gmap (string * string * Z) string);
}.

Inductive stmt :=
  | DeleteCurrent
  | DeleteHistory
  | InsertCurrent (service environment manifest : string)
  | InsertHistory (service environment : string) (seq : Z) (manifest : string)
  | DeletePolicies
  | InsertPolicy (name environment : string) (version : Z) (record : string)
  | CreateTables                     (* the four CREATE TABLE IF NOT EXISTS *)
  | InsertVersion (version : Z).

(** [INSERT]; [None] is a violated primary key. *)
Definition insert_row {K} `{Countable K} (k : K) (v : string) (m : gmap K string) : option (gmap K string) :=
  match m !! k with Some _ => None | None => Some (<[k := v]> m) end.

(** The meaning of a statement; [None] is an error and no change. *)
Definition apply_stmt (s : stmt) (t : tables) : option tables :=
  match s with
  | DeleteCurrent => _ ← t_current t; Some (mkTables (t_version t) (Some ∅) (t_history t) (t_policies t))
  | DeleteHistory => _ ← t_history t; Some (mkTables (t_version t) (t_current t) (Some ∅) (t_policies t))
  | DeletePolicies => _ ← t_policies t; Some (mkTables (t_version t) (t_current t) (t_history t) (Some ∅))
  | InsertCurrent s e raw =>
      m ← t_current t; m ← insert_row (s, e) raw m;
      Some (mkTables (t_version t) (Some m) (t_history t) (t_policies t))
  | InsertHistory s e i raw =>
      m ← t_history t; m ← insert_row (s, e, i) raw m;
      Some (mkTables (t_version t) (t_current t) (Some m) (t_policies t))
  | InsertPolicy n e v raw =>
      m ← t_policies t; m ← insert_row (n, e, v) raw m;
      Some (mkTables (t_version t) (t_current t) (t_history t) (Some m))
  | CreateTables =>
      Some (mkTables (Some (default [] (t_version t))) (Some (default ∅ (t_current t)))
              (Some (default ∅ (t_history t))) (Some (default ∅ (t_policies t))))
  | InsertVersion v =>
      vs ← t_version t; Some (mkTables (Some (vs ++ [v])) (t_current t) (t_history t) (t_policies t))
  end.

Class Sqlite := {
  DB : Type;
  committed : DB → tables;
  working : DB → option tables;         (* inside an open transaction *)
  sql_open : string → result DB;
  db_pragma : string → DB → DB * option error;
  tx_begin : DB → DB * option error;
  tx_exec : stmt → DB → DB * option error;
  tx_commit : DB → DB * option error;
  tx_rollback : DB → DB * option error;
  query_newest : DB → DB * result Z;    (* ORDER BY version DESC LIMIT 1 *)
  query_version : DB → DB * result Z;   (* LIMIT 1 *)
  query_current : DB → DB * result (list (string * string * string) * option error);
  query_history : DB → DB * result (list (string * string * Z * string) * option error);
  query_policies : DB → DB * result (list (string * string * Z * string) * option error);
  db_close : DB → DB * option error;
}.
(** A query's rows come with [rows.Err()], met after them. *)

(** [ORDER BY] a text pair and an integer, texts compared byte by byte. *)
Definition row_le (a b : string * string * Z * string) : Prop :=
  let '(s, e, i, _) := a in let '(s', e', i', _) := b in
  (s ≠ s' ∧ String.le s s') ∨ (s = s' ∧ ((e ≠ e' ∧ String.le e e') ∨ (e = e' ∧ (i ≤ i')%Z))).

Section Stores.
Context `{SQ : Sqlite}.
(** The order in which [range] visits the entries of a map. *)
Context (visit : ∀ {A : Type}, list A → list A).

(** *** Schema *)

Definition controlPlaneSchema : list stmt := [CreateTables].

Definition migrate_one (v : nat) (ddl : stmt) (db : DB) : DB * option error :=
  match tx_begin db with
  | (db, Some e) => (db, Some ("begin migration " +:+ itoa (Z.of_nat (S v)) +:+ ": " +:+ e))
  | (db, None) =>
      match tx_exec ddl db with
      | (db, Some e) => ((tx_rollback db).1, Some ("apply schema version " +:+ itoa (Z.of_nat (S v)) +:+ ": " +:+ e))
      | (db, None) =>
          match tx_exec (InsertVersion (Z.of_nat (S v))) db with
          | (db, Some e) =>
              ((tx_rollback db).1, Some ("record schema version " +:+ itoa (Z.of_nat (S v)) +:+ ": " +:+ e))
          | (db, None) =>
              match tx_commit db with
              | (db, Some e) => (db, Some ("commit migration " +:+ itoa (Z.of_nat (S v)) +:+ ": " +:+ e))
              | (db, None) => (db, None)
              end
          end
      end
  end.
Fixpoint migrate_from (v : nat) (todo : list stmt) (db : DB) : DB * option error :=
  match todo with
  | [] => (db, None)
  | ddl :: todo =>
      match migrate_one v ddl db with
      | (db, Some e) => (db, Some e)
      | (db, None) => migrate_from (S v) todo db
      end
  end.
(** [None] is the panic of a negative index. *)
Definition migrateControlPlaneSchema (db : DB) : option (DB * option error) :=
  let '(db, r) := query_newest db in
  let current := match r with Ok v => v | Err _ => 0%Z end in
  if (Z.of_nat (length controlPlaneSchema) <? current)%Z then
    Some (db, Some ("unsupported sqlite schema version " +:+ itoa current +:+ " (latest supported: "
                    +:+ itoa (Z.of_nat (length controlPlaneSchema)) +:+ ")"))
  else if (current <? 0)%Z then None
  else Some (migrate_from (Z.to_nat current) (drop (Z.to_nat current) controlPlaneSchema) db).

Fixpoint apply_pragmas (ps : list string) (db : DB) : DB * option error :=
  match ps with
  | [] => (db, None)
  | p :: ps =>
      match db_pragma p db with
      | (db, Some e) => (db, Some ("apply " +:+ p +:+ ": " +:+ e))
      | (db, None) => apply_pragmas ps db
      end
  end.
Definition pragmas : list string :=
  ["PRAGMA journal_mode=WAL"; "PRAGMA busy_timeout=5000"; "PRAGMA synchronous=NORMAL";
   "PRAGMA foreign_keys=ON"].

(** The handle is kept in both cases: an error leaves it closed. *)
Definition openControlPlaneDB (path : string) : option (option DB * option error) :=
  if String.eqb path "" then Some (None, Some "sqlite database path is required")
  else
    match sql_open path with
    | Err e => Some (None, Some ("open sqlite database: " +:+ e))
    | Ok db =>
        match apply_pragmas pragmas db with
        | (db, Some e) => Some (Some (db_close db).1, Some e)
        | (db, None) =>
            match migrateControlPlaneSchema db with
            | None => None
            | Some (db, Some e) => Some (Some (db_close db).1, Some e)
            | Some (db, None) => Some (Some db, None)
            end
        end
    end.

Definition SchemaVersion (s : option DB) : Z :=
  match s with
  | None => 0
  | Some db => match (query_version db).2 with Ok v => v | Err _ => 0 end
  end.

(** *** Statement sequences *)

(** What a loop of [Exec]s does: each item is a statement with the prefix of its
    error, or an error met while preparing it. *)
Fixpoint exec_all (l : list (result stmt * string)) (db : DB) : DB * option error :=
  match l with
  | [] => (db, None)
  | (Err e, _) :: _ => (db, Some e)
  | (Ok s, msg) :: l =>
      match tx_exec s db with
      | (db, Some e) => (db, Some (msg +:+ e))
      | (db, None) => exec_all l db
      end
  end.
Definition in_transaction (commit_msg : string) (l : list (result stmt * string)) (db : DB)
    : DB * option error :=
  match tx_begin db with
  | (db, Some e) => (db, Some ("begin transaction: " +:+ e))
  | (db, None) =>
      match exec_all l db with
      | (db, Some e) => ((tx_rollback db).1, Some e)
      | (db, None) =>
          match tx_commit db with
          | (db, Some e) => ((tx_rollback db).1, Some (commit_msg +:+ e))
          | (db, None) => ((tx_rollback db).1, None)
          end
      end
  end.

(** The entries of a map of maps. *)
Definition flat {A} (m : nested A) : list (string * string * A) :=
  map_to_list m ≫= λ sn, (λ ex, (sn.1, ex.1, ex.2)) <$> map_to_list sn.2.

(** *** The deployment store *)

Context (marshal : option DeploymentManifest → result string)
  (unmarshal : string → result DeploymentManifest).

Definition map_err {A B} (f : A → B) (msg : string) (r : result A) : result B :=
  match r with Ok a => Ok (f a) | Err e => Err (msg +:+ e) end.

Definition current_steps (m : nested (option DeploymentManifest)) : list (result stmt * string) :=
  (λ sem, (map_err (InsertCurrent sem.1.1 sem.1.2) "marshal manifest: " (marshal sem.2),
           "insert current: ")) <$> visit _ (flat m).
Definition history_steps (m : nested (list (option DeploymentManifest))) : list (result stmt * string) :=
  visit _ (flat m) ≫= λ sel,
    imap (λ i m, (map_err (InsertHistory sel.1.1 sel.1.2 (Z.of_nat i)) "marshal history manifest: " (marshal m),
                  "insert history: ")) sel.2.
Definition save_steps (st : DeploymentLedgerState) : list (result stmt * string) :=
  [(Ok DeleteCurrent, "clear current: "); (Ok DeleteHistory, "clear history: ")]
  ++ current_steps (default ∅ (st_Current st)) ++ history_steps (default ∅ (st_History st)).

Definition sqlite_save (s : option DB) (st : DeploymentLedgerState) : option DB * option error :=
  match s with
  | None => (None, Some "sqlite deployment store is not open")
  | Some db => let '(db, r) := in_transaction "commit: " (save_steps st) db in (Some db, r)
  end.

Fixpoint load_current (rows : list (string * string * string)) (m : nested (option DeploymentManifest))
    : result (nested (option DeploymentManifest)) :=
  match rows with
  | [] => Ok m
  | (s, e, raw) :: rows =>
      match unmarshal raw with
      | Err x => Err ("unmarshal current manifest: " +:+ x)
      | Ok d => load_current rows (insert2 (ensure m s) s e (Some d))
      end
  end.
Fixpoint load_history (rows : list (string * string * Z * string)) (m : nested (list (option DeploymentManifest)))
    : result (nested (list (option DeploymentManifest))) :=
  match rows with
  | [] => Ok m
  | (s, e, _, raw) :: rows =>
      match unmarshal raw with
      | Err x => Err ("unmarshal history manifest: " +:+ x)
      | Ok d => load_history rows (insert2 (ensure m s) s e (default [] (lookup2 m s e) ++ [Some d]))
      end
  end.
Definition rows_err {A} (err : option error) (r : result A) : result A :=
  match r, err with Ok _, Some e => Err e | _, _ => r end.
Definition sqlite_load (s : option DB) : option DB * result DeploymentLedgerState :=
  match s with
  | None => (None, Err "sqlite deployment store is not open")
  | Some db =>
      match query_current db with
      | (db, Err e) => (Some db, Err ("query current: " +:+ e))
      | (db, Ok (rows, err)) =>
          match rows_err err (load_current rows ∅) with
          | Err e => (Some db, Err e)
          | Ok cur =>
              match query_history db with
              | (db, Err e) => (Some db, Err ("query history: " +:+ e))
              | (db, Ok (rows, err)) =>
                  (Some db, map_err (λ h, mkState (Some cur) (Some h)) "" (rows_err err (load_history rows ∅)))
              end
          end
      end
  end.
Definition sqlite_close (s : option DB) : option DB * option error :=
  match s with
  | None => (None, None)
  | Some db => let '(db, r) := db_close db in (Some db, r)
  end.

#[local] Instance sqlite_deployment_store : DeploymentStore (option DB) := {
  store_save := sqlite_save;
  store_load := sqlite_load;
  store_close := sqlite_close;
}.

(** *** The policy version store *)

Context (rec_marshal : PolicyVersionRecord → result string)
  (rec_unmarshal : string → result PolicyVersionRecord).

Definition splitPolicyKey (key : string) : string * string :=
  match index_byte key "/" with
  | Some i => (str_take i key, str_drop (S i) key)
  | None => (key, "")
  end.

Definition policy_steps (vs : histories) : list (result stmt * string) :=
  visit _ (map_to_list vs) ≫= λ kh,
    (λ r, (map_err (InsertPolicy (splitPolicyKey kh.1).1 (splitPolicyKey kh.1).2 (pr_Version r))
             "marshal policy record: " (rec_marshal r), "insert policy record: ")) <$> kh.2.
Definition sqlite_policy_save (s : option DB) (st : PolicyVersionState) : option DB * option error :=
  match s with
  | None => (None, Some "sqlite policy store is not open")
  | Some db =>
      let '(db, r) := in_transaction ""
        ((Ok DeletePolicies, "clear policy versions: ") :: policy_steps (default ∅ (st_Versions st))) db in
      (Some db, r)
  end.
Fixpoint load_policies (rows : list (string * string * Z * string)) (vs : histories) : result histories :=
  match rows with
  | [] => Ok vs
  | (n, e, _, raw) :: rows =>
      match rec_unmarshal raw with
      | Err x => Err ("unmarshal policy record: " +:+ x)
      | Ok r =>
          let key := n +:+ "/" +:+ e in
          load_policies rows (<[key := default [] (vs !! key) ++ [r]]> vs)
      end
  end.
Definition sqlite_policy_load (s : option DB) : option DB * result PolicyVersionState :=
  match s with
  | None => (None, Err "sqlite policy store is not open")
  | Some db =>
      match query_policies db with
      | (db, Err e) => (Some db, Err ("query policy versions: " +:+ e))
      | (db, Ok (rows, err)) =>
          (Some db, map_err (λ vs, mkVersions (Some vs)) "" (rows_err err (load_policies rows ∅)))
      end
  end.
#[local] Instance sqlite_policy_store : PolicyVersionStore (option DB) := {
  policy_save := sqlite_policy_save;
  policy_load := sqlite_policy_load;
  policy_close := sqlite_close;
}.
End Stores.

(** ** What SQLite promises *)

(** [healthy]: no call to come fails for a reason of its own. *)
Class SqliteLaws (SQ : Sqlite) (healthy : DB → Prop) : Prop := {
  begin_law : ∀ db db' r, working db = None → tx_begin db = (db', r) →
    committed db' = committed db ∧ working db' = (if r then None else Some (committed db))
    ∧ (healthy db → r = None ∧ healthy db');
  exec_law : ∀ s db db' r w, working db = Some w → tx_exec s db = (db', r) →
    committed db' = committed db ∧ is_Some (working db')
    ∧ (r = None → ∃ w', apply_stmt s w = Some w' ∧ working db' = Some w')
    ∧ (healthy db → healthy db' ∧ (r = None ↔ is_Some (apply_stmt s w)));
  commit_law : ∀ db db' r w, working db = Some w → tx_commit db = (db', r) →
    committed db' = (if r then committed db else w) ∧ working db' = None
    ∧ (healthy db → r = None ∧ healthy db');
  rollback_law : ∀ db db' r, tx_rollback db = (db', r) →
    committed db' = committed db ∧ working db' = None ∧ (healthy db → healthy db');
  pragma_law : ∀ p db db' r, db_pragma p db = (db', r) →
    committed db' = committed db ∧ working db' = working db
    ∧ (healthy db → r = None ∧ healthy db');
  close_law : ∀ db db' r, db_close db = (db', r) → committed db' = committed db;
  newest_law : ∀ db db' r, query_newest db = (db', r) →
    committed db' = committed db ∧ working db' = working db ∧ (healthy db → healthy db')
    ∧ (∀ v, r = Ok v → ∃ vs, t_version (committed db) = Some vs ∧ v ∈ vs ∧ ∀ x, x ∈ vs → (x ≤ v)%Z)
    ∧ (healthy db → ∀ v vs, t_version (committed db) = Some (v :: vs) → is_ok r = true);
  current_law : ∀ db db' r, query_current db = (db', r) →
    committed db' = committed db ∧ working db' = working db ∧ (healthy db → healthy db')
    ∧ (∀ rows, r = Ok (rows, None) → ∃ m, t_current (committed db) = Some m
        ∧ rows ≡ₚ (λ x, (x.1.1, x.1.2, x.2)) <$> map_to_list m)
    ∧ (healthy db → is_Some (t_current (committed db)) → ∃ rows, r = Ok (rows, None));
  history_law : ∀ db db' r, query_history db = (db', r) →
    committed db' = committed db ∧ working db' = working db ∧ (healthy db → healthy db')
    ∧ (∀ rows, r = Ok (rows, None) → ∃ m, t_history (committed db) = Some m
        ∧ rows ≡ₚ (λ x, (x.1.1.1, x.1.1.2, x.1.2, x.2)) <$> map_to_list m ∧ StronglySorted row_le rows)
    ∧ (healthy db → is_Some (t_history (committed db)) → ∃ rows, r = Ok (rows, None));
  policies_law : ∀ db db' r, query_policies db = (db', r) →
    committed db' = committed db ∧ working db' = working db ∧ (healthy db → healthy db')
    ∧ (∀ rows, r = Ok (rows, None) → ∃ m, t_policies (committed db) = Some m
        ∧ rows ≡ₚ (λ x, (x.1.1.1, x.1.1.2, x.1.2, x.2)) <$> map_to_list m ∧ StronglySorted row_le rows)
    ∧ (healthy db → is_Some (t_policies (committed db)) → ∃ rows, r = Ok (rows, None));
}.

(** ** Lemmas: transactions *)

Definition apply_all (ss : list stmt) (t : tables) : option tables :=
  foldl (λ t s, t ≫= apply_stmt s) (Some t) ss.
Lemma apply_all_None ss : foldl (λ t s, t ≫= apply_stmt s) None ss = None.
Proof. by induction ss. Qed.
Lemma apply_all_cons s ss t : apply_all (s :: ss) t = apply_stmt s t ≫= apply_all ss.
Proof. unfold apply_all. cbn. destruct (apply_stmt s t); [done|]. apply apply_all_None. Qed.
Lemma apply_all_app ss ss' t : apply_all (ss ++ ss') t = apply_all ss t ≫= apply_all ss'.
Proof.
  revert t. induction ss as [|s ss IH]; intros t; [done|]. cbn [app]. rewrite !apply_all_cons.
  destruct (apply_stmt s t); [apply IH|done].
Qed.

Definition prepared (l : list (result stmt * string)) : option (list stmt) :=
  mapM (λ rs, match rs.1 with Ok s => Some s | Err _ => None end) l.

Lemma prepared_Ok s msg l : prepared ((Ok s, msg) :: l) = cons s <$> prepared l.
Proof. unfold prepared. cbn. by destruct (mapM _ l). Qed.
Lemma prepared_Err e msg l : prepared ((Err e, msg) :: l) = None.
Proof. done. Qed.
#[global] Arguments apply_all : simpl never.
#[global] Arguments prepared : simpl never.

Section Transactions.
Context {SQ : Sqlite} {healthy : DB → Prop} {SL : SqliteLaws SQ healthy}.

Lemma exec_all_spec l db db' r w :
  working db = Some w → exec_all l db = (db', r) →
  committed db' = committed db ∧ is_Some (working db')
  ∧ (r = None → ∃ ss w', prepared l = Some ss ∧ apply_all ss w = Some w' ∧ working db' = Some w')
  ∧ (healthy db → healthy db' ∧ (r = None ↔ ∃ ss, prepared l = Some ss ∧ is_Some (apply_all ss w))).
Proof using SL.
  revert db w. induction l as [|[[s|e] msg] l IH]; intros db w Hw; cbn [exec_all].
  - intros [= <- <-]. split_and!; [done|by eexists| |].
    + intros _. by exists [], w.
    + intros Hh. split; [done|]. split; [|done]. intros _. exists []. by split; [|eexists].
  - destruct (tx_exec s db) as [db1 [x|]] eqn:E; destruct (exec_law _ _ _ _ _ Hw E) as (Hc & Hw1 & Hok & Hh).
    + intros [= <- <-]. split_and!; [done|done|done|]. intros [? Hi]%Hh. split; [done|]. split; [done|].
      intros (ss & Hp & Ha). rewrite prepared_Ok in Hp. destruct (prepared l) as [ss'|]; [|done].
      injection Hp as <-. rewrite apply_all_cons in Ha. destruct (apply_stmt s w) eqn:Es; [|by destruct Ha].
      exfalso. by assert (Some x = None) by (apply Hi; by eexists).
    + intros Hx. destruct (Hok eq_refl) as (w1 & Ha & Hw1'). destruct (IH _ _ Hw1' Hx) as (I1 & I2 & I3 & I4).
      split_and!; [congruence|done| |].
      * intros (ss & w' & Hp & Hb & Hw')%I3. exists (s :: ss), w'. rewrite prepared_Ok, Hp.
        split_and!; [done| |done]. by rewrite apply_all_cons, Ha.
      * intros [Hh1 _]%Hh. destruct (I4 Hh1) as [Hh' Hi]. split; [done|]. rewrite Hi, prepared_Ok.
        split; intros (ss & Hp & Hb).
        -- exists (s :: ss). rewrite Hp. split; [done|]. by rewrite apply_all_cons, Ha.
        -- destruct (prepared l) as [ss'|]; [|done]. injection Hp as <-. exists ss'. split; [done|].
           by rewrite apply_all_cons, Ha in Hb.
  - intros [= <- <-]. split_and!; [done|by eexists|done|]. intros Hh. split; [done|]. split; [done|].
    by intros (ss & Hp & _).
Qed.

(** All or nothing, and all when nothing fails. *)
Lemma in_transaction_spec msg l db db' r :
  working db = None → in_transaction msg l db = (db', r) →
  working db' = None
  ∧ match r with
    | Some _ => committed db' = committed db
    | None => ∃ ss, prepared l = Some ss ∧ apply_all ss (committed db) = Some (committed db')
    end
  ∧ (healthy db → healthy db'
      ∧ ∀ ss, prepared l = Some ss → is_Some (apply_all ss (committed db)) → r = None).
Proof using SL.
  intros Hw. unfold in_transaction. destruct (tx_begin db) as [db1 [e|]] eqn:Eb;
    destruct (begin_law _ _ _ Hw Eb) as (Hc1 & Hw1 & Hh1).
  { intros [= <- <-]. split_and!; [done|done|]. intros [? _]%Hh1. done. }
  destruct (exec_all l db1) as [db2 [e|]] eqn:Ee; destruct (exec_all_spec _ _ _ _ _ Hw1 Ee) as (Hc2 & Hw2 & Ho & Hh2).
  - destruct (tx_rollback db2) as [db3 x] eqn:Er. destruct (rollback_law _ _ _ Er) as (Hc3 & Hw3 & Hh3).
    cbn [fst]. intros [= <- <-]. split_and!; [done|congruence|].
    intros [_ [? Hi]%Hh2]%Hh1. split; [by apply Hh3|]. intros ss Hp Ha.
    exfalso. assert (Some e = None) by (apply Hi; by exists ss). done.
  - destruct (Ho eq_refl) as (ss & w & Hp & Ha & Hw2'). rewrite <- Hc1 in *.
    destruct (tx_commit db2) as [db3 [e|]] eqn:Ec; destruct (commit_law _ _ _ _ Hw2' Ec) as (Hc3 & Hw3 & Hh3);
      destruct (tx_rollback db3) as [db4 x] eqn:Er; destruct (rollback_law _ _ _ Er) as (Hc4 & Hw4 & Hh4);
      cbn [fst]; intros [= <- <-]; (split_and!; [done| |]).
    + congruence.
    + intros [_ [[? _]%Hh3 _]%Hh2]%Hh1. done.
    + exists ss. split; [done|]. by rewrite Hc4, Hc3.
    + intros [_ [[_ ?]%Hh3 _]%Hh2]%Hh1. split; [by apply Hh4|done].
Qed.
End Transactions.

(** ** Lemmas: tables *)

Lemma insert_row_Some {K} `{Countable K} (k : K) v m m' :
  insert_row k v m = Some m' → m !! k = None ∧ m' = <[k := v]> m.
Proof. unfold insert_row. destruct (m !! k); naive_solver. Qed.

Definition insert_all {K} `{Countable K} (rows : list (K * string)) (m : gmap K string) : option (gmap K string) :=
  foldl (λ m kv, m ≫= insert_row kv.1 kv.2) (Some m) rows.
Lemma insert_all_cons {K} `{Countable K} kv (rows : list (K * string)) m :
  insert_all (kv :: rows) m = insert_row kv.1 kv.2 m ≫= insert_all rows.
Proof. unfold insert_all. cbn. destruct (insert_row _ _ m); [done|]. by induction rows. Qed.
Lemma insert_all_Some {K} `{Countable K} (rows : list (K * string)) m m' :
  insert_all rows m = Some m' → map_to_list m' ≡ₚ rows ++ map_to_list m.
Proof.
  revert m. induction rows as [|[k v] rows IH]; intros m; [by intros [= <-]|]. rewrite insert_all_cons. cbn [fst snd].
  destruct (insert_row k v m) as [m1|] eqn:E; [|done]. cbn. intros ->%IH.
  apply insert_row_Some in E as [Hn ->]. rewrite map_to_list_insert by done. by rewrite Permutation_middle.
Qed.
Lemma insert_all_fresh {K} `{Countable K} (rows : list (K * string)) m :
  NoDup rows.*1 → (∀ kv, kv ∈ rows → m !! kv.1 = None) → is_Some (insert_all rows m).
Proof.
  revert m. induction rows as [|[k v] rows IH]; intros m; [done|]. cbn [fmap list_fmap].
  intros [Hk Hnd]%NoDup_cons Hm. rewrite insert_all_cons. cbn [fst snd]. unfold insert_row.
  pose proof (Hm (k, v)) as Hkv. cbn in Hkv. rewrite Hkv by by left. cbn. apply IH; [done|]. intros [k' v'] Hin. cbn.
  rewrite lookup_insert_ne; [apply (Hm (k', v')); by right|]. intros ->. apply Hk.
  apply list_elem_of_fmap. by exists (k', v').
Qed.
Lemma insert_all_lookup {K} `{Countable K} (rows : list (K * string)) m' k v :
  insert_all rows ∅ = Some m' → m' !! k = Some v ↔ (k, v) ∈ rows.
Proof.
  intros Hp%insert_all_Some. rewrite map_to_list_empty, app_nil_r in Hp.
  by rewrite <- elem_of_map_to_list, Hp.
Qed.

Lemma apply_current rows t m :
  t_current t = Some m →
  apply_all ((λ kv, InsertCurrent kv.1.1 kv.1.2 kv.2) <$> rows) t
  = (λ m, mkTables (t_version t) (Some m) (t_history t) (t_policies t)) <$> insert_all rows m.
Proof.
  revert t m. induction rows as [|kv rows IH]; intros t m Ht; [destruct t; cbn in *; by subst|].
  rewrite fmap_cons, apply_all_cons, insert_all_cons. cbn [apply_stmt]. rewrite Ht. cbn [mbind option_bind].
  rewrite <- surjective_pairing. destruct (insert_row _ _ m) as [m1|]; [|done]. cbn [mbind option_bind].
  by erewrite IH.
Qed.
Lemma apply_history rows t m :
  t_history t = Some m →
  apply_all ((λ kv, InsertHistory kv.1.1.1 kv.1.1.2 kv.1.2 kv.2) <$> rows) t
  = (λ m, mkTables (t_version t) (t_current t) (Some m) (t_policies t)) <$> insert_all rows m.
Proof.
  revert t m. induction rows as [|[[[s e] i] raw] rows IH]; intros t m Ht; [destruct t; cbn in *; by subst|].
  rewrite fmap_cons, apply_all_cons, insert_all_cons. cbn [apply_stmt fst snd]. rewrite Ht. cbn [mbind option_bind].
  destruct (insert_row _ _ m) as [m1|]; [|done]. cbn [mbind option_bind]. by erewrite IH.
Qed.
Lemma apply_policies rows t m :
  t_policies t = Some m →
  apply_all ((λ kv, InsertPolicy kv.1.1.1 kv.1.1.2 kv.1.2 kv.2) <$> rows) t
  = (λ m, mkTables (t_version t) (t_current t) (t_history t) (Some m)) <$> insert_all rows m.
Proof.
  revert t m. induction rows as [|[[[s e] i] raw] rows IH]; intros t m Ht; [destruct t; cbn in *; by subst|].
  rewrite fmap_cons, apply_all_cons, insert_all_cons. cbn [apply_stmt fst snd]. rewrite Ht. cbn [mbind option_bind].
  destruct (insert_row _ _ m) as [m1|]; [|done]. cbn [mbind option_bind]. by erewrite IH.
Qed.

(** A loop of inserts, item by item. *)
Definition ok_of (r : result string) : string := match r with Ok s => s | Err _ => "" end.
Lemma prepared_rows {K D} (F : K → string → stmt) (g : D → result string) pre msg (rows : list (K * D)) ss :
  prepared ((λ kd, (map_err (F kd.1) pre (g kd.2), msg)) <$> rows) = Some ss ↔
  (∀ kd, kd ∈ rows → is_ok (g kd.2) = true)
  ∧ ss = (λ kv, F kv.1 kv.2) <$> ((λ kd, (kd.1, ok_of (g kd.2))) <$> rows).
Proof.
  revert ss. induction rows as [|[k d] rows IH]; intros ss; cbn [fmap list_fmap].
  { cbn. split; [intros [= <-]; split; [set_solver|done] | by intros [_ ->]]. }
  cbn [fst snd]. destruct (g d) as [raw|e] eqn:E; cbn [map_err].
  - rewrite prepared_Ok. split.
    + destruct (prepared _) as [ss'|] eqn:Ep; [|done]. cbn. intros [= <-]. destruct (proj1 (IH ss') eq_refl) as [Ha ->].
      split; [|done]. intros kd [->|?]%elem_of_cons; [cbn; by rewrite E|auto].
    + intros [Ha ->]. erewrite (proj2 (IH _)); [done|]. split; [|done]. intros kd Hkd. apply Ha. by right.
  - rewrite prepared_Err. split; [done|]. intros [Ha _]. specialize (Ha (k, d)). cbn in Ha. rewrite E in Ha.
    discriminate Ha. by left.
Qed.
Lemma prepared_app l l' ss :
  prepared (l ++ l') = Some ss ↔ ∃ a b, prepared l = Some a ∧ prepared l' = Some b ∧ ss = a ++ b.
Proof.
  revert ss. induction l as [|[[s|e] msg] l IH]; intros ss; cbn [app].
  - split; [intros Hp; by exists [], ss|]. by intros (a & b & [= <-] & Hb & ->).
  - rewrite !prepared_Ok, fmap_Some. setoid_rewrite fmap_Some. setoid_rewrite IH. naive_solver.
  - rewrite prepared_Err. split; [done|]. by intros (a & b & Ha & _).
Qed.

Lemma fmap_bind {A B C} (f : B → C) (g : A → list B) l : f <$> (l ≫= g) = l ≫= λ x, f <$> g x.
Proof. induction l as [|x l IH]; [done|]. cbn. by rewrite fmap_app, IH. Qed.

(** ** Lemmas: maps of maps as rows *)

Lemma elem_of_flat {A} (m : nested A) s e x : (s, e, x) ∈ flat m ↔ lookup2 m s e = Some x.
Proof.
  unfold flat, lookup2. rewrite list_elem_of_bind. split.
  - intros ([s' n] & Hx & Hn). apply list_elem_of_fmap in Hx as ([e' y] & [= -> -> ->] & He).
    apply elem_of_map_to_list in Hn, He. cbn in *. by rewrite Hn.
  - intros Hx. destruct (m !! s) as [n|] eqn:E; [|done]. cbn in Hx. exists (s, n). split.
    + apply list_elem_of_fmap. exists (e, x). split; [done|]. by apply elem_of_map_to_list.
    + by apply elem_of_map_to_list.
Qed.
Lemma NoDup_flat {A} (m : nested A) : NoDup (flat m).*1.
Proof.
  unfold flat. rewrite fmap_bind. apply NoDup_bind.
  - intros [s n] [s' n'] [s0 e0] Hn Hn' Hy Hy'. cbn in *.
    rewrite <- list_fmap_compose in Hy, Hy'.
    apply list_elem_of_fmap in Hy as (x & [= -> ->] & _), Hy' as (y & [= <- _] & _).
    apply elem_of_map_to_list in Hn, Hn'. f_equal. congruence.
  - intros [s n] _. cbn. rewrite <- list_fmap_compose.
    replace (_ <$> map_to_list n) with (pair s <$> (map_to_list n).*1) by (by rewrite <- list_fmap_compose).
    apply NoDup_fmap; [by intros ?? [=]|]. apply NoDup_fst_map_to_list.
  - apply NoDup_map_to_list.
Qed.

Lemma insert2_ensure {A} (m : nested A) s e x : insert2 (ensure m s) s e x = insert2 m s e x.
Proof.
  unfold insert2, ensure. destruct (m !! s) eqn:E; [by rewrite E|]. rewrite lookup_insert_eq. cbn.
  by rewrite insert_insert_eq.
Qed.
(** No service without an environment. *)
Definition tidy {A} (m : nested A) : Prop := ∀ s n, m !! s = Some n → n ≠ ∅.
Lemma tidy_insert2 {A} (m : nested A) s e x : tidy m → tidy (insert2 m s e x).
Proof. unfold tidy, insert2. intros Ht s' n [[-> <-]|[_ ?]]%lookup_insert_Some; [apply insert_non_empty|eauto]. Qed.
Lemma tidy_ext {A} (m m' : nested A) :
  tidy m → tidy m' → (∀ s e, lookup2 m s e = lookup2 m' s e) → m = m'.
Proof.
  intros Ht Ht' Hl. assert (∀ m1 m2 : nested A, tidy m1 → (∀ s e, lookup2 m1 s e = lookup2 m2 s e) →
    ∀ s n, m1 !! s = Some n → m2 !! s = Some n) as Hsub.
  { intros m1 m2 Ht1 Hl1 s n Hn. apply Ht1 in Hn as Hne. apply map_choose in Hne as (e & x & Hx).
    destruct (m2 !! s) as [n2|] eqn:E2.
    - f_equal. apply map_eq. intros e'. specialize (Hl1 s e'). unfold lookup2 in Hl1. rewrite Hn, E2 in Hl1. done.
    - specialize (Hl1 s e). unfold lookup2 in Hl1. rewrite Hn, E2 in Hl1. cbn in Hl1. congruence. }
  apply map_eq. intros s. apply option_eq. intros n. split; apply Hsub; auto.
Qed.

(** ** Lemmas: rows in order *)

Abbreviation row := (string * string * Z * string)%type.
Definition group (k : string * string) (rows : list row) : list (Z * string) :=
  (λ r : row, (r.1.2, r.2)) <$> filter (λ r : row, r.1.1 = k) rows.
Definition increasing (Y : list (Z * string)) : Prop := StronglySorted (λ a b, a.1 < b.1)%Z Y.

Lemma group_cons k r rows :
  group k (r :: rows) = (if decide (r.1.1 = k) then [(r.1.2, r.2)] else []) ++ group k rows.
Proof. unfold group. rewrite filter_cons. by destruct (decide _). Qed.
#[global] Arguments group : simpl never.
Lemma elem_of_group k rows ir : ir ∈ group k rows ↔ (k, ir.1, ir.2) ∈ rows.
Proof.
  unfold group. rewrite list_elem_of_fmap. split.
  - intros ([[k' i] raw] & -> & [<- ?]%list_elem_of_filter). done.
  - intros Hin. exists (k, ir.1, ir.2). split; [by destruct ir|]. by apply list_elem_of_filter.
Qed.
Lemma increasing_inj Y x y : increasing Y → x ∈ Y → y ∈ Y → x.1 = y.1 → x = y.
Proof.
  induction 1 as [|z Y HY IH Hz]; [by intros ?%not_elem_of_nil|]. rewrite Forall_forall in Hz.
  intros [->|Hx]%elem_of_cons [->|Hy]%elem_of_cons E; [done|..|by apply IH].
  - apply Hz in Hy. lia.
  - apply Hz in Hx. lia.
Qed.
Lemma sorted_group k rows Y :
  NoDup rows → StronglySorted row_le rows → increasing Y →
  (∀ i raw, (k, i, raw) ∈ rows ↔ (i, raw) ∈ Y) → group k rows = Y.
Proof.
  intros Hnd Hs HY Hin.
  assert (∀ x, x ∈ group k rows ↔ x ∈ Y) as Hel.
  { intros [i raw]. by rewrite elem_of_group, Hin. }
  apply (StronglySorted_unique_strong (λ a b, a.1 ≤ b.1)%Z).
  - intros x y Hx%Hel Hy ? ?. apply (increasing_inj Y); [done..|lia].
  - clear -Hs. induction Hs as [|r rows Hs IH Hr]; [constructor|]. rewrite group_cons.
    destruct (decide _) as [<-|]; [|done]. constructor; [done|]. apply Forall_forall.
    intros [i raw] Hin%elem_of_group. rewrite Forall_forall in Hr. apply Hr in Hin.
    destruct r as [[[s e] j] w]. cbn in *. destruct Hin as [[? _]|[_ [[? _]|[_ ?]]]]; done.
  - clear -HY. induction HY as [|y Y HY IH Hy]; constructor; [done|].
    eapply Forall_impl; [exact Hy|]. cbn. lia.
  - apply NoDup_Permutation; [| |done].
    + unfold group. apply NoDup_fmap_2_strong; [|by apply NoDup_filter].
      intros [[k1 i1] r1] [[k2 i2] r2] [? _]%list_elem_of_filter [? _]%list_elem_of_filter [=]. cbn in *. congruence.
    + clear -HY. induction HY as [|y Y HY IH Hy]; constructor; [|done]. intros Hin.
      rewrite Forall_forall in Hy. apply Hy in Hin. lia.
Qed.
Lemma increasing_imap {A} (f : A → string) (l : list A) k :
  increasing (imap (λ i x, (Z.of_nat (k + i), f x)) l).
Proof.
  revert k. induction l as [|x l IH]; intros k; [constructor|]. cbn [imap]. constructor.
  - rewrite (imap_ext _ (λ i x, (Z.of_nat (S k + i), f x))); [apply IH|].
    intros i y _. cbn. do 2 f_equal. lia.
  - apply Forall_forall. intros y (i & z & -> & _)%elem_of_lookup_imap. cbn. lia.
Qed.

(** ** Lemmas: reading back *)

Section Reading.
Context (unmarshal : string → result DeploymentManifest)
  (rec_unmarshal : string → result PolicyVersionRecord).

Definition dec (raw : string) : option DeploymentManifest :=
  match unmarshal raw with Ok d => Some d | Err _ => None end.

Lemma load_current_spec rows acc :
  (∀ r, r ∈ rows → is_ok (unmarshal r.2) = true) → NoDup rows.*1 → tidy acc →
  ∃ m, load_current unmarshal rows acc = Ok m ∧ tidy m
    ∧ (∀ s e raw, (s, e, raw) ∈ rows → lookup2 m s e = Some (dec raw))
    ∧ (∀ s e, (s, e) ∉ rows.*1 → lookup2 m s e = lookup2 acc s e).
Proof.
  revert acc. induction rows as [|[[s e] raw] rows IH]; intros acc Hok Hnd Ht; cbn [load_current].
  { exists acc. split_and!; [done..| |done]. intros ???. by intros ?%not_elem_of_nil. }
  pose proof (Hok _ (list_elem_of_here _ _)) as Hd. cbn [snd] in Hd.
  destruct (unmarshal raw) as [d|] eqn:Ed; [|done]. rewrite fmap_cons in Hnd. apply NoDup_cons in Hnd as [Hk Hnd].
  rewrite insert2_ensure. destruct (IH (insert2 acc s e (Some d))) as (m & -> & Hm & H1 & H2);
    [intros; apply Hok; by right|done|by apply tidy_insert2|].
  exists m. split_and!; [done|done| |].
  - intros s' e' raw' [[= -> -> ->]|Hin]%elem_of_cons; [|by apply H1].
    rewrite H2 by done. rewrite lookup2_insert2, decide_True by done. unfold dec. by rewrite Ed.
  - intros s' e'. cbn [fmap list_fmap fst]. rewrite not_elem_of_cons. intros [Hne Hn]. rewrite H2 by done.
    rewrite lookup2_insert2, decide_False; [done|]. intros [-> ->]. done.
Qed.

Definition no_empty {A} (m : nested (list A)) : Prop :=
  ∀ s e, lookup2 m s e = nonempty (default [] (lookup2 m s e)).
Lemma load_history_spec rows acc :
  (∀ r, r ∈ rows → is_ok (unmarshal r.2) = true) → tidy acc → no_empty acc →
  ∃ m, load_history unmarshal rows acc = Ok m ∧ tidy m
    ∧ ∀ s e, lookup2 m s e
        = nonempty (default [] (lookup2 acc s e) ++ ((λ ir, dec ir.2) <$> group (s, e) rows)).
Proof.
  revert acc. induction rows as [|[[[s e] i] raw] rows IH]; intros acc Hok Ht Hne; cbn [load_history].
  { exists acc. split_and!; [done..|]. intros s e. cbn. by rewrite app_nil_r. }
  pose proof (Hok _ (list_elem_of_here _ _)) as Hd. cbn [snd] in Hd.
  destruct (unmarshal raw) as [d|] eqn:Ed; [|done]. rewrite insert2_ensure.
  set (x := default [] (lookup2 acc s e) ++ [Some d]).
  destruct (IH (insert2 acc s e x)) as (m & -> & Hm & Hl);
    [intros; apply Hok; by right|by apply tidy_insert2| |].
  { intros s' e'. rewrite lookup2_insert2. destruct (decide _); [|apply Hne]. cbn. subst x. by rewrite nonempty_snoc. }
  exists m. split_and!; [done..|]. intros s' e'. rewrite Hl, lookup2_insert2, group_cons. cbn [fst snd].
  destruct (decide (s = s' ∧ e = e')) as [[-> ->]|Hn]; [rewrite decide_True by done|rewrite decide_False by (intros [= -> ->]; by apply Hn)].
  - cbn [default from_option id app]. subst x. rewrite fmap_cons, <- app_assoc. cbn. unfold dec at 2. by rewrite Ed.
  - done.
Qed.

Definition key_of (r : row) : string := r.1.1.1 +:+ "/" +:+ r.1.1.2.
Definition rec_dec (raw : string) : list PolicyVersionRecord :=
  match rec_unmarshal raw with Ok d => [d] | Err _ => [] end.
Lemma load_policies_spec rows acc :
  (∀ r, r ∈ rows → is_ok (rec_unmarshal r.2) = true) → (∀ k, acc !! k = nonempty (default [] (acc !! k))) →
  ∃ vs, load_policies rec_unmarshal rows acc = Ok vs
    ∧ ∀ k, vs !! k = nonempty (default [] (acc !! k)
                               ++ (filter (λ r, key_of r = k) rows ≫= λ r, rec_dec r.2)).
Proof.
  revert acc. induction rows as [|[[[s e] i] raw] rows IH]; intros acc Hok Hne; cbn [load_policies].
  { exists acc. split; [done|]. intros k. cbn. by rewrite app_nil_r. }
  pose proof (Hok _ (list_elem_of_here _ _)) as Hd. cbn [snd] in Hd.
  destruct (rec_unmarshal raw) as [d|] eqn:Ed; [|done].
  set (key := s +:+ "/" +:+ e). set (x := default [] (acc !! key) ++ [d]).
  destruct (IH (<[key := x]> acc)) as (m & -> & Hl); [intros; apply Hok; by right| |].
  { intros k. destruct (decide (key = k)) as [<-|]; [|by rewrite lookup_insert_ne].
    rewrite lookup_insert_eq. cbn. subst x. by rewrite nonempty_snoc. }
  exists m. split; [done|]. intros k. rewrite Hl, filter_cons.
  change (key_of (s, e, i, raw)) with key. destruct (decide (key = k)) as [<-|Hk].
  - rewrite lookup_insert_eq. cbn [default from_option id]. subst x. rewrite bind_cons, <- app_assoc.
    unfold rec_dec at 2. cbn [snd]. by rewrite Ed.
  - by rewrite lookup_insert_ne.
Qed.
End Reading.

(** Rows with their value marshalled. *)
Definition raws {K D} (g : D → result string) (rows : list (K * D)) : list (K * string) :=
  (λ kd, (kd.1, ok_of (g kd.2))) <$> rows.
Lemma elem_of_raws {K D} (g : D → result string) (rows : list (K * D)) k raw :
  (∀ kd, kd ∈ rows → is_ok (g kd.2) = true) →
  (k, raw) ∈ raws g rows ↔ ∃ d, (k, d) ∈ rows ∧ g d = Ok raw.
Proof.
  intros Hok. unfold raws. rewrite list_elem_of_fmap. split.
  - intros ([k' d] & [= -> ->] & Hin). exists d. split; [done|]. apply Hok in Hin. cbn in Hin.
    by destruct (g d).
  - intros (d & Hin & Hm). exists (k, d). cbn. by rewrite Hm.
Qed.
Lemma raws_keys {K D} (g : D → result string) (rows : list (K * D)) : (raws g rows).*1 = rows.*1.
Proof. unfold raws. by rewrite <- list_fmap_compose. Qed.

(** ** The deployment store *)

Section Deployments.
Context {SQ : Sqlite} {healthy : DB → Prop} {SL : SqliteLaws SQ healthy}.
Context (visit : ∀ A : Type, list A → list A) (visit_perm : ∀ (A : Type) (l : list A), visit A l ≡ₚ l).
Context (marshal : option DeploymentManifest → result string)
  (unmarshal : string → result DeploymentManifest).

Definition cur_rows (m : nested (option DeploymentManifest))
    : list (string * string * option DeploymentManifest) := visit _ (flat m).
Definition hist_rows (m : nested (list (option DeploymentManifest)))
    : list (string * string * Z * option DeploymentManifest) :=
  visit _ (flat m) ≫= λ sel, imap (λ i d, (sel.1, Z.of_nat i, d)) sel.2.

Lemma elem_of_cur_rows m k d : (k, d) ∈ cur_rows m ↔ lookup2 m k.1 k.2 = Some d.
Proof using visit_perm. unfold cur_rows. rewrite visit_perm. destruct k. apply elem_of_flat. Qed.
Lemma elem_of_hist_rows m k i d :
  (k, i, d) ∈ hist_rows m ↔ ∃ l, lookup2 m k.1 k.2 = Some l ∧ (0 ≤ i)%Z ∧ l !! Z.to_nat i = Some d.
Proof using visit_perm.
  unfold hist_rows. rewrite visit_perm, list_elem_of_bind. setoid_rewrite elem_of_lookup_imap. split.
  - intros ([[s e] l] & (n & x & [= -> -> ->] & Hx) & Hl%elem_of_flat). exists l. cbn.
    split_and!; [done|lia|by rewrite Nat2Z.id].
  - intros (l & Hl & Hi & Hd). destruct k as [s e]. exists (s, e, l). split; [|by apply elem_of_flat].
    exists (Z.to_nat i), d. by rewrite Z2Nat.id.
Qed.
Lemma NoDup_cur_rows m : NoDup (cur_rows m).*1.
Proof using visit_perm. unfold cur_rows. rewrite visit_perm. apply NoDup_flat. Qed.
Lemma NoDup_hist_rows m : NoDup (hist_rows m).*1.
Proof using visit_perm.
  unfold hist_rows. rewrite fmap_bind. apply NoDup_bind.
  - intros [k l] [k' l'] [k0 i] Hn Hn'. rewrite !fmap_imap, !elem_of_lookup_imap. cbn.
    intros (? & ? & [= -> ->] & _) (? & ? & [= -> _] & _). rewrite visit_perm in Hn, Hn'.
    destruct k' as [s e]. apply elem_of_flat in Hn, Hn'. congruence.
  - intros [k l] _. rewrite fmap_imap. cbn. apply NoDup_alt. intros i j x. rewrite !list_lookup_imap.
    intros (? & _ & ->)%fmap_Some (? & _ & [= ?])%fmap_Some. lia.
  - rewrite visit_perm. eapply NoDup_fmap_1, NoDup_flat.
Qed.

Lemma current_steps_rows m :
  current_steps visit marshal m
  = (λ kd, (map_err (InsertCurrent kd.1.1 kd.1.2) "marshal manifest: " (marshal kd.2), "insert current: "))
    <$> cur_rows m.
Proof. done. Qed.
Lemma history_steps_rows m :
  history_steps visit marshal m
  = (λ kd, (map_err (InsertHistory kd.1.1.1 kd.1.1.2 kd.1.2) "marshal history manifest: " (marshal kd.2),
            "insert history: ")) <$> hist_rows m.
Proof.
  unfold history_steps, hist_rows. rewrite fmap_bind.
  generalize (visit _ (flat m)). intros l. induction l as [|[[s e] x] l IH]; [done|].
  rewrite !bind_cons, IH. cbn. by rewrite fmap_imap.
Qed.

(** The tables a save writes. *)
Lemma save_content st t t' ss :
  let cur := default ∅ (st_Current st) in
  let hist := default ∅ (st_History st) in
  prepared (save_steps visit marshal st) = Some ss → apply_all ss t = Some t' →
  (∀ kd, kd ∈ cur_rows cur → is_ok (marshal kd.2) = true)
  ∧ (∀ kd, kd ∈ hist_rows hist → is_ok (marshal kd.2) = true)
  ∧ ∃ mc mh, insert_all (raws marshal (cur_rows cur)) ∅ = Some mc ∧ insert_all (raws marshal (hist_rows hist)) ∅ = Some mh
      ∧ t' = mkTables (t_version t) (Some mc) (Some mh) (t_policies t).
Proof.
  intros cur hist. unfold save_steps. fold cur hist. cbn [app]. rewrite !prepared_Ok, fmap_Some.
  intros (ss1 & (ss2 & Hp & ->)%fmap_Some & ->). apply prepared_app in Hp as (a & b & Ha & Hb & ->).
  rewrite current_steps_rows in Ha. rewrite history_steps_rows in Hb.
  apply (prepared_rows (λ k, InsertCurrent k.1 k.2)) in Ha as [Hoc ->].
  apply (prepared_rows (λ k, InsertHistory k.1.1 k.1.2 k.2)) in Hb as [Hoh ->].
  fold (raws marshal (cur_rows cur)) (raws marshal (hist_rows hist)).
  rewrite apply_all_cons. cbn [apply_stmt]. destruct (t_current t); [|done]. cbn [mbind option_bind].
  rewrite apply_all_cons. cbn [apply_stmt t_history].
  destruct (t_history t); [|done]. cbn [mbind option_bind t_version t_current t_policies].
  rewrite apply_all_app, (apply_current _ _ ∅) by done. cbn [t_version t_history t_policies].
  destruct (insert_all (raws marshal (cur_rows cur)) ∅) as [mc|] eqn:Ec; [|done]. cbn [fmap option_fmap option_map mbind option_bind].
  rewrite (apply_history _ _ ∅) by done. cbn [t_version t_current t_policies].
  destruct (insert_all (raws marshal (hist_rows hist)) ∅) as [mh|] eqn:Eh; [|done]. cbn. intros [= <-].
  split_and!; [done|done|]. by exists mc, mh.
Qed.
Lemma save_succeeds st t :
  let cur := default ∅ (st_Current st) in
  let hist := default ∅ (st_History st) in
  (∀ kd, kd ∈ cur_rows cur → is_ok (marshal kd.2) = true) →
  (∀ kd, kd ∈ hist_rows hist → is_ok (marshal kd.2) = true) →
  is_Some (t_current t) → is_Some (t_history t) →
  ∃ ss, prepared (save_steps visit marshal st) = Some ss ∧ is_Some (apply_all ss t).
Proof using visit_perm.
  intros cur hist Hoc Hoh [mc0 Hc] [mh0 Hh]. unfold save_steps. fold cur hist. cbn [app]. rewrite !prepared_Ok.
  rewrite current_steps_rows, history_steps_rows.
  match goal with |- context [prepared ?l] => assert (∃ ss, prepared l = Some ss
    ∧ ss = ((λ kv, InsertCurrent kv.1.1 kv.1.2 kv.2) <$> raws marshal (cur_rows cur))
           ++ ((λ kv, InsertHistory kv.1.1.1 kv.1.1.2 kv.1.2 kv.2) <$> raws marshal (hist_rows hist))) as (ss & -> & ->) end.
  { eexists. split; [|reflexivity]. apply prepared_app. do 2 eexists. split_and!; [| |done].
    - by apply (prepared_rows (λ k, InsertCurrent k.1 k.2)).
    - by apply (prepared_rows (λ k, InsertHistory k.1.1 k.1.2 k.2)). }
  eexists. split; [done|]. rewrite apply_all_cons. cbn [apply_stmt]. rewrite Hc. cbn [mbind option_bind].
  rewrite apply_all_cons. cbn [apply_stmt t_history]. rewrite Hh. cbn [mbind option_bind t_version t_current t_policies].
  rewrite apply_all_app, (apply_current _ _ ∅) by done. cbn [t_version t_history t_policies].
  destruct (insert_all_fresh (raws marshal (cur_rows cur)) ∅) as [mc ->];
    [rewrite raws_keys; apply NoDup_cur_rows|done|]. cbn [fmap option_fmap option_map mbind option_bind].
  rewrite (apply_history _ _ ∅) by done.
  destruct (insert_all_fresh (raws marshal (hist_rows hist)) ∅) as [mh ->];
    [rewrite raws_keys; apply NoDup_hist_rows|done|]. by eexists.
Qed.
(** encoding/json carries a manifest. *)
Definition carried (d : option DeploymentManifest) : Prop :=
  ∃ raw m, marshal d = Ok raw ∧ d = Some m ∧ unmarshal raw = Ok m.
Record sq_representable (st : DeploymentLedgerState) : Prop := {
  sr_cur_tidy : tidy (default ∅ (st_Current st));
  sr_hist_tidy : tidy (default ∅ (st_History st));
  sr_lists : no_empty (default ∅ (st_History st));
  sr_cur : ∀ s e d, lookup2 (default ∅ (st_Current st)) s e = Some d → carried d;
  sr_hist : ∀ s e l d, lookup2 (default ∅ (st_History st)) s e = Some l → d ∈ l → carried d;
}.
(** An open database, migrated, between transactions, with no failure to come. *)
Definition sq_reliable (s : option DB) : Prop :=
  ∃ db, s = Some db ∧ healthy db ∧ working db = None
    ∧ is_Some (t_current (committed db)) ∧ is_Some (t_history (committed db)).

Lemma carried_ok d : carried d → is_ok (marshal d) = true.
Proof. by intros (raw & m & -> & _). Qed.
Lemma carried_dec d : carried d → dec unmarshal (ok_of (marshal d)) = d.
Proof. intros (raw & m & -> & -> & Hu). unfold dec. cbn. by rewrite Hu. Qed.
Lemma carried_readable d raw : carried d → marshal d = Ok raw → is_ok (unmarshal raw) = true.
Proof. intros (raw' & m & Hm & _ & Hu). rewrite Hm. intros [= <-]. by rewrite Hu. Qed.

Lemma hist_rows_carried st kd : sq_representable st → kd ∈ hist_rows (default ∅ (st_History st)) → carried kd.2.
Proof using visit_perm.
  intros Hr Hin. destruct kd as [[k i] d]. apply elem_of_hist_rows in Hin as (l & Hl & _ & Hd).
  eapply sr_hist; [done..|]. by eapply list_elem_of_lookup_2.
Qed.
Lemma cur_rows_carried st kd : sq_representable st → kd ∈ cur_rows (default ∅ (st_Current st)) → carried kd.2.
Proof using visit_perm. intros Hr Hin. destruct kd as [k d]. apply elem_of_cur_rows in Hin. by eapply sr_cur. Qed.

#[local] Instance the_sqlite : DeploymentStore (option DB) := sqlite_deployment_store visit marshal unmarshal.

Lemma sqlite_save_reliable (s : option DB) st :
  sq_reliable s → sq_representable st → ∃ s', store_save s st = (s', None) ∧ sq_reliable s'.
Proof using SL visit_perm.
  intros (db & -> & Hh & Hw & Hc & Hhi) Hr. cbn [store_save the_sqlite sqlite_deployment_store sqlite_save].
  destruct (in_transaction "commit: " (save_steps visit marshal st) db) as [db' r] eqn:E.
  destruct (in_transaction_spec _ _ _ _ _ Hw E) as (Hw' & Hres & Hok).
  destruct (Hok Hh) as [Hh' Hnone].
  destruct (save_succeeds st (committed db)) as (ss & Hp & Ha); [| |done|done|].
  { intros kd Hkd. eapply carried_ok, cur_rows_carried; done. }
  { intros kd Hkd. eapply carried_ok, hist_rows_carried; done. }
  rewrite (Hnone ss Hp Ha) in *. exists (Some db'). split; [done|]. exists db'. split; [done|].
  destruct Hres as (ss' & Hp' & Ha'). destruct (save_content _ _ _ _ Hp' Ha') as (_ & _ & mc & mh & _ & _ & ->).
  by split_and!.
Qed.

(** The rows of the history, grouped, are the lists that were saved. *)
Lemma history_group st rows mh s e :
  sq_representable st →
  let hist := default ∅ (st_History st) in
  insert_all (raws marshal (hist_rows hist)) ∅ = Some mh →
  rows ≡ₚ (λ x, (x.1.1.1, x.1.1.2, x.1.2, x.2)) <$> map_to_list mh → StronglySorted row_le rows →
  group (s, e) rows
  = imap (λ i d, (Z.of_nat i, ok_of (marshal d))) (default [] (lookup2 hist s e)).
Proof using visit_perm.
  intros Hr hist Hmh Hp Hs.
  assert (∀ x, x ∈ rows ↔ x ∈ map_to_list mh) as Hel.
  { intros [[[a b] i] raw]. rewrite Hp, list_elem_of_fmap. split; [by intros ([[[??]?]?] & [= -> -> -> ->] & ?)|].
    intros ?. by exists (a, b, i, raw). }
  assert (∀ kd, kd ∈ hist_rows hist → is_ok (marshal kd.2) = true) as Hok.
  { intros kd Hkd. eapply carried_ok, hist_rows_carried; done. }
  apply sorted_group.
  - rewrite Hp. apply NoDup_fmap_2_strong; [|apply NoDup_map_to_list].
    intros [[[??]?]?] [[[??]?]?] _ _. cbn. congruence.
  - done.
  - apply (increasing_imap (λ d, ok_of (marshal d)) _ 0).
  - intros i raw. rewrite Hel, elem_of_map_to_list, (insert_all_lookup _ _ _ _ Hmh), elem_of_raws by done.
    rewrite elem_of_lookup_imap. setoid_rewrite elem_of_hist_rows. cbn [fst snd]. split.
    + intros (d & (l & -> & Hi & Hd) & Hm). exists (Z.to_nat i), d. rewrite Z2Nat.id by done. cbn. by rewrite Hm.
    + intros (n & d & [= -> ->] & Hd). exists d. destruct (lookup2 hist s e) as [l|] eqn:El; [|done].
      split; [exists l; split_and!; [done|lia|by rewrite Nat2Z.id]|].
      destruct (sr_hist st Hr s e l d El) as (raw & m & -> & _); [by eapply list_elem_of_lookup_2|done].
Qed.

Lemma sqlite_load_saved (s s' : option DB) st :
  sq_reliable s → store_save s st = (s', None) → sq_representable st → sq_reliable s' →
  ∃ s'' st', store_load s' = (s'', Ok st') ∧ ledger_of st' = ledger_of st ∧ sq_reliable s''.
Proof using SL visit_perm.
  intros (db & -> & _ & Hw & _) Hsave Hr (db' & -> & Hh & Hw' & Hcs & Hhs).
  cbn [store_save the_sqlite sqlite_deployment_store sqlite_save] in Hsave.
  destruct (in_transaction "commit: " (save_steps visit marshal st) db) as [db1 r] eqn:E.
  injection Hsave as -> ->. destruct (in_transaction_spec _ _ _ _ _ Hw E) as (_ & (ss & Hp & Ha) & _).
  destruct (save_content _ _ _ _ Hp Ha) as (Hoc & Hoh & mc & mh & Hmc & Hmh & Ht).
  set (cur := default ∅ (st_Current st)) in *. set (hist := default ∅ (st_History st)) in *.
  cbn [store_load the_sqlite sqlite_deployment_store sqlite_load].
  destruct (query_current db') as [db2 r2] eqn:E2. destruct (current_law _ _ _ E2) as (C2 & W2 & H2 & R2 & O2).
  destruct (O2 Hh Hcs) as [crows ->]. destruct (R2 _ eq_refl) as (mc' & Emc & Pc). rewrite Ht in Emc. injection Emc as <-.
  assert (∀ s e raw, (s, e, raw) ∈ crows ↔ ∃ d, lookup2 cur s e = Some d ∧ marshal d = Ok raw) as Hcr.
  { intros s e raw. rewrite Pc, list_elem_of_fmap.
    transitivity ((s, e, raw) ∈ map_to_list mc).
    { split; [by intros ([[??]?] & [= -> -> ->] & ?)|intros ?; by exists (s, e, raw)]. }
    rewrite elem_of_map_to_list, (insert_all_lookup _ _ _ _ Hmc), elem_of_raws by done.
    by setoid_rewrite elem_of_cur_rows. }
  destruct (load_current_spec unmarshal crows ∅) as (cur' & Ecur & Tcur & L1 & L2).
  { intros [[s e] raw] (d & Hd & Hm)%Hcr. apply (carried_readable d); [by eapply (sr_cur st Hr)|done]. }
  { rewrite Pc, <- list_fmap_compose. rewrite (list_fmap_ext _ fst) by (by intros ? [[??]?]).
    apply NoDup_fst_map_to_list. }
  { intros ??. by rewrite lookup_empty. }
  rewrite Ecur. cbn [rows_err].
  destruct (query_history db2) as [db3 r3] eqn:E3. destruct (history_law _ _ _ E3) as (C3 & W3 & H3 & R3 & O3).
  rewrite C2 in O3. destruct (O3 (H2 Hh) Hhs) as [hrows ->]. destruct (R3 _ eq_refl) as (mh' & Emh & Ph & Sh).
  rewrite C2, Ht in Emh. injection Emh as <-.
  destruct (load_history_spec unmarshal hrows ∅) as (hist' & Ehist & Thist & L3).
  { intros [[[s e] i] raw] Hin. rewrite Ph, list_elem_of_fmap in Hin. destruct Hin as ([[[??]?]?] & [= -> -> -> ->] & Hin).
    rewrite elem_of_map_to_list, (insert_all_lookup _ _ _ _ Hmh), elem_of_raws in Hin by done.
    destruct Hin as (d & Hin & Hm). eapply (carried_readable d); [|done]. by eapply (hist_rows_carried st (_, d)). }
  { intros ??. by rewrite lookup_empty. }
  { intros ??. unfold lookup2. by rewrite lookup_empty. }
  rewrite Ehist. cbn [map_err rows_err]. do 2 eexists. split; [done|]. split.
  - unfold ledger_of. cbn [st_Current st_History default from_option id]. f_equal.
    + apply tidy_ext; [done|apply Hr|]. intros s e. destruct (lookup2 cur s e) as [d|] eqn:Ed.
      * destruct (sr_cur st Hr s e d Ed) as (raw & m & Hm & -> & Hu).
        rewrite (L1 s e raw) by (apply Hcr; by exists (Some m)). unfold dec. rewrite Hu. by fold cur.
      * rewrite L2; [unfold lookup2 at 1; rewrite lookup_empty; by fold cur|].
        intros Hin. apply list_elem_of_fmap in Hin as ([[??]?] & [= <- <-] & (d & Hd & _)%Hcr). congruence.
    + apply tidy_ext; [done|apply Hr|]. intros s e. rewrite L3.
      rewrite (history_group st hrows mh) by done. fold hist. unfold lookup2 at 1. rewrite lookup_empty. cbn [mbind option_bind default from_option id app].
      rewrite fmap_imap. pose proof (sr_lists st Hr s e) as Hne. fold hist in Hne. rewrite Hne at 2.
      f_equal. destruct (lookup2 hist s e) as [l|] eqn:El; [|done]. cbn [default from_option id].
      rewrite (imap_ext _ (λ _ d, d)); [|by intros; apply carried_dec; eapply sr_hist, list_elem_of_lookup_2].
      clear. induction l as [|x l IH]; [done|]. cbn. f_equal. exact IH.
  - exists db3. rewrite W3, W2, C3, C2. split_and!; auto.
Qed.

#[export] Instance sqlite_store_durable : DurableStore (option DB) sq_representable sq_reliable.
Proof using SL visit_perm. split; [apply sqlite_save_reliable | apply sqlite_load_saved]. Qed.
End Deployments.

(** C9 : Saving the ledger to SQLite is atomic.  Whichever call fails, an error
    leaves every committed row as it was; no error means that the two deployment
    tables hold exactly the manifests of the saved state, those of another state
    gone, and that the policy table is untouched. *)
Theorem sqlite_save_atomic {SQ : Sqlite} {healthy} {SL : SqliteLaws SQ healthy}
    visit marshal (db db' : DB) st r :
  (∀ A (l : list A), visit A l ≡ₚ l) → working db = None →
  sqlite_save visit marshal (Some db) st = (Some db', r) →
  match r with
  | Some _ => committed db' = committed db
  | None => ∃ mc mh,
      committed db' = mkTables (t_version (committed db)) (Some mc) (Some mh) (t_policies (committed db))
      ∧ (∀ s e raw, mc !! (s, e) = Some raw ↔
           ∃ d, lookup2 (default ∅ (st_Current st)) s e = Some d ∧ marshal d = Ok raw)
      ∧ (∀ s e i raw, mh !! (s, e, i) = Some raw ↔
           ∃ l d, lookup2 (default ∅ (st_History st)) s e = Some l ∧ (0 ≤ i)%Z
             ∧ l !! Z.to_nat i = Some d ∧ marshal d = Ok raw)
  end.
Proof.
  intros Hv Hw. unfold sqlite_save.
  destruct (in_transaction "commit: " (save_steps visit marshal st) db) as [db1 r1] eqn:E.
  intros [= -> ->]. destruct (in_transaction_spec _ _ _ _ _ Hw E) as (_ & Hr & _). destruct r; [done|].
  destruct Hr as (ss & Hp & Ha). destruct (save_content visit marshal _ _ _ _ Hp Ha) as (Hoc & Hoh & mc & mh & Hmc & Hmh & Ht).
  exists mc, mh. split_and!; [done| |].
  - intros s e raw. rewrite (insert_all_lookup _ _ _ _ Hmc), elem_of_raws by done.
    by setoid_rewrite (elem_of_cur_rows visit Hv).
  - intros s e i raw. rewrite (insert_all_lookup _ _ _ _ Hmh), elem_of_raws by done.
    setoid_rewrite (elem_of_hist_rows visit Hv). cbn [fst snd]. naive_solver.
Qed.

(** ** The policy version store *)

Lemma splitPolicyKey_eq key n e :
  mem_byte "/" key = true → splitPolicyKey key = (n, e) → key = n +:+ "/" +:+ e ∧ mem_byte "/" n = false.
Proof.
  unfold splitPolicyKey. intros Hm. destruct (index_byte key "/") as [i|] eqn:E;
    [|by rewrite (proj1 (index_byte_None _ _) E) in Hm].
  intros [= <- <-]. apply index_byte_Some in E. naive_solver.
Qed.

Lemma filter_ext_in {A} (P Q : A → Prop) `{∀ x, Decision (P x), ∀ x, Decision (Q x)} (l : list A) :
  (∀ x, x ∈ l → P x ↔ Q x) → filter P l = filter Q l.
Proof.
  induction l as [|x l IH]; intros Hpq; [done|]. rewrite !filter_cons.
  assert (P x ↔ Q x) as Hx by (apply Hpq; by left).
  rewrite IH by (intros; apply Hpq; by right). destruct (decide (P x)), (decide (Q x)); tauto.
Qed.

Section Policies.
Context {SQ : Sqlite} {healthy : DB → Prop} {SL : SqliteLaws SQ healthy}.
Context (visit : ∀ A : Type, list A → list A) (visit_perm : ∀ (A : Type) (l : list A), visit A l ≡ₚ l).
Context (rec_marshal : PolicyVersionRecord → result string)
  (rec_unmarshal : string → result PolicyVersionRecord).

Definition pol_rows (vs : histories) : list (string * string * Z * PolicyVersionRecord) :=
  visit _ (map_to_list vs) ≫= λ kh, (λ r, (splitPolicyKey kh.1, pr_Version r, r)) <$> kh.2.
Lemma elem_of_pol_rows vs k v r :
  (k, v, r) ∈ pol_rows vs ↔ ∃ key h, vs !! key = Some h ∧ splitPolicyKey key = k ∧ r ∈ h ∧ v = pr_Version r.
Proof using visit_perm.
  unfold pol_rows. rewrite visit_perm, list_elem_of_bind. setoid_rewrite list_elem_of_fmap. split.
  - intros ([key h] & (r' & [= -> -> ->] & Hr) & Hk%elem_of_map_to_list). by exists key, h.
  - intros (key & h & Hk & <- & Hr & ->). exists (key, h). split; [by exists r|]. by apply elem_of_map_to_list.
Qed.

Lemma policy_steps_rows vs :
  policy_steps visit rec_marshal vs
  = (λ kd, (map_err (InsertPolicy kd.1.1.1 kd.1.1.2 kd.1.2) "marshal policy record: " (rec_marshal kd.2),
            "insert policy record: ")) <$> pol_rows vs.
Proof.
  unfold policy_steps, pol_rows. rewrite fmap_bind.
  generalize (visit _ (map_to_list vs)). intros l. induction l as [|[k h] l IH]; [done|].
  rewrite !bind_cons, IH. f_equal. rewrite <- list_fmap_compose. by apply list_fmap_ext.
Qed.
Lemma policy_content vs t t' ss :
  prepared ((Ok DeletePolicies, "clear policy versions: ") :: policy_steps visit rec_marshal vs) = Some ss →
  apply_all ss t = Some t' →
  (∀ kd, kd ∈ pol_rows vs → is_ok (rec_marshal kd.2) = true)
  ∧ ∃ m, insert_all (raws rec_marshal (pol_rows vs)) ∅ = Some m
      ∧ t' = mkTables (t_version t) (t_current t) (t_history t) (Some m).
Proof.
  rewrite prepared_Ok, fmap_Some, policy_steps_rows. intros (ss1 & Hp & ->).
  apply (prepared_rows (λ k, InsertPolicy k.1.1 k.1.2 k.2)) in Hp as [Ho ->].
  fold (raws rec_marshal (pol_rows vs)). rewrite apply_all_cons. cbn [apply_stmt].
  destruct (t_policies t); [|done]. cbn [mbind option_bind]. rewrite (apply_policies _ _ ∅) by done.
  cbn [t_version t_history t_current]. destruct (insert_all _ _) as [m|]; [|done]. cbn. intros [= <-].
  split; [done|]. by exists m.
Qed.

(** Histories as the versioner keeps them: their keys have a slash, their
    versions increase, and encoding/json carries their records. *)
Record storable (vs : histories) : Prop := {
  sb_history : ∀ key h, vs !! key = Some h →
    h ≠ [] ∧ mem_byte "/" key = true ∧ StronglySorted Z.lt (pr_Version <$> h);
  sb_record : ∀ key h r, vs !! key = Some h → r ∈ h →
    ∃ raw, rec_marshal r = Ok raw ∧ rec_unmarshal raw = Ok r;
}.

Lemma storable_ok vs kd : storable vs → kd ∈ pol_rows vs → is_ok (rec_marshal kd.2) = true.
Proof using visit_perm.
  destruct kd as [[k v] r]. intros Hs (key & h & Hk & _ & Hr & _)%elem_of_pol_rows. cbn.
  by destruct (sb_record vs Hs _ _ _ Hk Hr) as (raw & -> & _).
Qed.
Definition raw_of (r : PolicyVersionRecord) : string := ok_of (rec_marshal r).
Lemma increasing_versions h :
  StronglySorted Z.lt (pr_Version <$> h) → increasing ((λ r, (pr_Version r, raw_of r)) <$> h).
Proof.
  induction h as [|r h IH]; [constructor|]. cbn. inversion 1 as [|?? Hs Hf]; subst. constructor; [by apply IH|].
  apply Forall_fmap. exact (proj1 (Forall_fmap _ _ _) Hf).
Qed.

Lemma policy_group vs rows m key h :
  storable vs → insert_all (raws rec_marshal (pol_rows vs)) ∅ = Some m →
  rows ≡ₚ (λ x, (x.1.1.1, x.1.1.2, x.1.2, x.2)) <$> map_to_list m → StronglySorted row_le rows →
  vs !! key = Some h →
  group (splitPolicyKey key) rows = (λ r, (pr_Version r, raw_of r)) <$> h.
Proof using visit_perm.
  intros Hs Hm Hp Hsort Hk. destruct (sb_history vs Hs key h Hk) as (_ & Hslash & Hinc).
  pose proof (λ kd, storable_ok vs kd Hs) as Hok.
  apply sorted_group; [|done|by apply increasing_versions|].
  - rewrite Hp. apply NoDup_fmap_2_strong; [|apply NoDup_map_to_list].
    intros [[[??]?]?] [[[??]?]?] _ _. cbn. congruence.
  - intros v raw. rewrite Hp, list_elem_of_fmap.
    transitivity ((splitPolicyKey key, v, raw) ∈ map_to_list m).
    { split; [intros ([[[??]?]?] & E & ?); destruct (splitPolicyKey key); cbn in *; by simplify_eq|].
      intros ?. exists (splitPolicyKey key, v, raw). by destruct (splitPolicyKey key). }
    rewrite elem_of_map_to_list, (insert_all_lookup _ _ _ _ Hm), elem_of_raws, list_elem_of_fmap by done.
    setoid_rewrite elem_of_pol_rows. split.
    + intros (r & (key' & h' & Hk' & Hsp & Hr & ->) & Hrm). exists r.
      assert (key' = key) as ->.
      { destruct (splitPolicyKey key) as [n e] eqn:E.
        destruct (splitPolicyKey_eq _ _ _ (proj1 (proj2 (sb_history vs Hs _ _ Hk'))) Hsp) as [-> _].
        by destruct (splitPolicyKey_eq _ _ _ Hslash E) as [-> _]. }
      unfold raw_of. rewrite Hrm. cbn. split; [done|]. congruence.
    + intros (r & [= -> ->] & Hr). exists r. split; [by exists key, h|]. unfold raw_of.
      by destruct (sb_record vs Hs key h r Hk Hr) as (raw & -> & _).
Qed.

(** A row's key is the key it was saved under. *)
Lemma row_key vs rows m r :
  storable vs → insert_all (raws rec_marshal (pol_rows vs)) ∅ = Some m →
  rows ≡ₚ (λ x, (x.1.1.1, x.1.1.2, x.1.2, x.2)) <$> map_to_list m → r ∈ rows →
  is_Some (vs !! key_of r) ∧ r.1.1 = splitPolicyKey (key_of r) ∧ is_ok (rec_unmarshal r.2) = true.
Proof using visit_perm.
  intros Hs Hm Hp Hr. pose proof (λ kd, storable_ok vs kd Hs) as Hok.
  rewrite Hp, list_elem_of_fmap in Hr. destruct Hr as ([[[n e] v] raw] & -> & Hin).
  rewrite elem_of_map_to_list, (insert_all_lookup _ _ _ _ Hm), elem_of_raws in Hin by done.
  destruct Hin as (x & (key & h & Hk & Hsp & Hx & ->)%elem_of_pol_rows & Hrm).
  destruct (splitPolicyKey_eq _ _ _ (proj1 (proj2 (sb_history vs Hs _ _ Hk))) Hsp) as [E _].
  change (key_of _) with (n +:+ "/" +:+ e). rewrite <- E. split; [by eexists|]. split; [done|]. cbn.
  destruct (sb_record vs Hs key h x Hk Hx) as (raw' & Hrm' & Hu). rewrite Hrm in Hrm'. injection Hrm' as <-. by rewrite Hu.
Qed.

Lemma policies_roundtrip (db db' : DB) vs :
  storable vs → working db = None → healthy db' →
  sqlite_policy_save visit rec_marshal (Some db) (mkVersions (Some vs)) = (Some db', None) →
  ∃ db2, sqlite_policy_load rec_unmarshal (Some db') = (Some db2, Ok (mkVersions (Some vs))).
Proof using SL visit_perm.
  intros Hs Hw Hh. unfold sqlite_policy_save. cbn [st_Versions default from_option id].
  destruct (in_transaction _ _ db) as [db1 r] eqn:E. intros [= -> ->].
  destruct (in_transaction_spec _ _ _ _ _ Hw E) as (_ & (ss & Hp & Ha) & _).
  destruct (policy_content _ _ _ _ Hp Ha) as (Hok & m & Hm & Ht).
  unfold sqlite_policy_load. destruct (query_policies db') as [db2 r2] eqn:E2.
  destruct (policies_law _ _ _ E2) as (_ & _ & _ & R2 & O2). rewrite Ht in O2. cbn in O2.
  destruct (O2 Hh) as [rows ->]; [by eexists|]. destruct (R2 _ eq_refl) as (m' & Em & Pm & Sm).
  rewrite Ht in Em. injection Em as <-.
  destruct (load_policies_spec rec_unmarshal rows ∅) as (vs' & -> & Hl).
  { intros r Hr. by eapply row_key. }
  { intros k. by rewrite lookup_empty. }
  exists db2. cbn [map_err rows_err]. do 4 f_equal. apply map_eq. intros key.
  rewrite Hl, lookup_empty. cbn [default from_option id app]. destruct (vs !! key) as [h|] eqn:Hk.
  - rewrite (filter_ext_in _ (λ r : row, r.1.1 = splitPolicyKey key)).
    + pose proof (policy_group vs rows m key h Hs Hm Pm Sm Hk) as Hg. unfold group in Hg.
      assert ((filter (λ r : row, r.1.1 = splitPolicyKey key) rows ≫= λ r, rec_dec rec_unmarshal r.2)
              = ((λ r, (pr_Version r, raw_of r)) <$> h) ≫= λ ir, rec_dec rec_unmarshal ir.2) as ->.
      { rewrite <- Hg, list_fmap_bind. done. }
      rewrite list_fmap_bind. assert (h ≫= (λ ir : Z * string, rec_dec rec_unmarshal ir.2) ∘ (λ r, (pr_Version r, raw_of r)) = h) as ->.
      { assert (∀ r, r ∈ h → rec_dec rec_unmarshal (raw_of r) = [r]) as Hd.
        { intros r Hr. destruct (sb_record vs Hs key h r Hk Hr) as (raw & Hrm & Hu).
          unfold raw_of, rec_dec. rewrite Hrm. cbn. by rewrite Hu. }
        clear -Hd. induction h as [|r h IH]; [done|]. rewrite bind_cons, IH by (intros; apply Hd; by right).
        cbn. rewrite Hd by by left. done. }
      destruct (sb_history vs Hs key h Hk) as (Hne & _). by destruct h.
    + intros r Hr. destruct (row_key vs rows m r Hs Hm Pm Hr) as ([h' Hh'] & Hsp & _). split; [by intros <-|].
      intros Heq. destruct r as [[[n e] v] raw]. cbn [fst snd] in Heq.
      destruct (sb_history vs Hs key h Hk) as (_ & Hslash & _).
      destruct (splitPolicyKey_eq key n e Hslash (eq_sym Heq)) as [-> _]. done.
  - rewrite filter_none; [done|]. intros r Hr <-.
    destruct (row_key vs rows m r Hs Hm Pm Hr) as ([h' Hh'] & _). congruence.
Qed.
End Policies.

Lemma seqZ_increasing m n : StronglySorted Z.lt (seqZ m n).
Proof.
  destruct (Z.le_gt_cases 0 n) as [Hn|]; [|rewrite seqZ_nil by lia; constructor].
  revert m. pattern n. apply natlike_ind; [|clear n Hn|done].
  - intros m. rewrite seqZ_nil by done. constructor.
  - intros n Hn IH m. rewrite seqZ_cons by lia. constructor; [rewrite Z.pred_succ; apply IH|].
    apply Forall_forall. intros x [? _]%elem_of_seqZ. lia.
Qed.
Lemma policyKey_slash n e : mem_byte "/" (policyKey n e) = true.
Proof. unfold policyKey. rewrite mem_byte_app. cbn. by rewrite orb_true_r. Qed.

(** C34 : Versioned policies survive a restart over SQLite.  The histories of any
    sequence of creations, updates and rollbacks, saved without error, are loaded
    back exactly: every key, every version, in order. *)
Theorem sqlite_policies_survive {SQ : Sqlite} {healthy} {SL : SqliteLaws SQ healthy}
    {S} `{PolicyVersionStore S} fmt_g (store : option S) cs
    visit rec_marshal rec_unmarshal (db db' : DB) :
  Forall canonical cs → (∀ A (l : list A), visit A l ≡ₚ l) → working db = None → healthy db' →
  let vs := versions (pv_run fmt_g (fresh store) cs) in
  (∀ key h r, vs !! key = Some h → r ∈ h → ∃ raw, rec_marshal r = Ok raw ∧ rec_unmarshal raw = Ok r) →
  sqlite_policy_save visit rec_marshal (Some db) (mkVersions (Some vs)) = (Some db', None) →
  ∃ db2, sqlite_policy_load rec_unmarshal (Some db') = (Some db2, Ok (mkVersions (Some vs))).
Proof.
  intros Hcs Hv Hw Hh vs Hcarry Hsave. eapply policies_roundtrip; [done| |done|done|exact Hsave].
  destruct (pv_run_ok fmt_g _ _ (fresh_ok store) Hcs) as [[_ Hok _] _]. split; [|done].
  intros key h Hk. destruct (Hok _ _ Hk) as [(l & Hl & _) (n & e & -> & _) Hvs].
  split_and!; [by destruct h|apply policyKey_slash|]. rewrite Hvs. apply seqZ_increasing.
Qed.

(** ** Opening a database *)

(** Every row a table had is still there; a missing table may have been made. *)
Definition kept {A : Type} (empty : A) (t t' : option A) : Prop := t' = t ∨ (t = None ∧ t' = Some empty).
Definition data_kept (t t' : tables) : Prop :=
  kept ∅ (t_current t) (t_current t') ∧ kept ∅ (t_history t) (t_history t')
  ∧ kept ∅ (t_policies t) (t_policies t').
Lemma data_kept_refl t : data_kept t t.
Proof. split_and!; by left. Qed.
Lemma data_kept_create t t' v :
  apply_all [CreateTables; InsertVersion v] t = Some t' →
  data_kept t t' ∧ t_version t' = Some (default [] (t_version t) ++ [v])
  ∧ is_Some (t_current t') ∧ is_Some (t_history t') ∧ is_Some (t_policies t').
Proof.
  intros [= <-]. split_and!; cbn; try by eexists. unfold data_kept, kept. cbn.
  destruct t as [? [] [] []]; cbn; auto.
Qed.

Lemma bind_is_Some {A B} (o : option A) (f : A → option B) : is_Some (o ≫= f) → is_Some o.
Proof. destruct o; [by eexists|by intros [? [=]]]. Qed.

Section Opening.
Context {SQ : Sqlite} {healthy : DB → Prop} {SL : SqliteLaws SQ healthy}.

Lemma apply_pragmas_spec ps db db' r :
  apply_pragmas ps db = (db', r) →
  committed db' = committed db ∧ working db' = working db ∧ (healthy db → r = None ∧ healthy db').
Proof using SL.
  revert db. induction ps as [|p ps IH]; intros db; cbn; [by intros [= <- <-]|].
  destruct (db_pragma p db) as [db1 [e|]] eqn:E; destruct (pragma_law _ _ _ _ E) as (H1 & H2 & H3).
  - intros [= <- <-]. split_and!; [done..|]. by intros [? _]%H3.
  - intros (I1 & I2 & I3)%IH. split_and!; [congruence..|]. intros [_ ?]%H3. auto.
Qed.

(** One migration is one transaction. *)
Lemma migrate_one_spec v ddl db db' r :
  working db = None → migrate_one v ddl db = (db', r) →
  match r with
  | Some _ => committed db' = committed db
  | None => apply_all [ddl; InsertVersion (Z.of_nat (S v))] (committed db) = Some (committed db') ∧ working db' = None
  end
  ∧ (healthy db → is_Some (apply_all [ddl; InsertVersion (Z.of_nat (S v))] (committed db)) →
     r = None ∧ healthy db').
Proof using SL.
  intros Hw. unfold migrate_one. destruct (tx_begin db) as [db1 [e|]] eqn:Eb;
    destruct (begin_law _ _ _ Hw Eb) as (C1 & W1 & H1).
  { intros [= <- <-]. split; [done|]. by intros [? _]%H1. }
  destruct (tx_exec ddl db1) as [db2 [e|]] eqn:E2; destruct (exec_law _ _ _ _ _ W1 E2) as (C2 & W2 & O2 & H2).
  { intros [= <- <-]. destruct (tx_rollback db2) as [db3 x] eqn:Er. destruct (rollback_law _ _ _ Er) as (C3 & _).
    cbn. split; [congruence|]. intros [_ [_ Hi]%H2]%H1. rewrite apply_all_cons.
    intros Hs%bind_is_Some%Hi. done. }
  destruct (O2 eq_refl) as (w & Ha & Hw2). rewrite apply_all_cons, Ha. cbn [mbind option_bind].
  destruct (tx_exec _ db2) as [db3 [e|]] eqn:E3; destruct (exec_law _ _ _ _ _ Hw2 E3) as (C3 & W3 & O3 & H3).
  { intros [= <- <-]. destruct (tx_rollback db3) as [db4 x] eqn:Er. destruct (rollback_law _ _ _ Er) as (C4 & _).
    cbn. split; [congruence|]. intros [_ [[_ Hi]%H3 _]%H2]%H1. rewrite apply_all_cons.
    intros Hs%bind_is_Some%Hi. done. }
  destruct (O3 eq_refl) as (w' & Ha' & Hw3). rewrite apply_all_cons, Ha'. cbn [mbind option_bind].
  destruct (tx_commit db3) as [db4 [e|]] eqn:E4; destruct (commit_law _ _ _ _ Hw3 E4) as (C4 & W4 & H4);
    intros [= <- <-].
  - split; [congruence|]. intros [_ [[[? _]%H4 _]%H3 _]%H2]%H1. done.
  - split; [split; [by rewrite C4|done]|]. intros [_ [[[_ ?]%H4 _]%H3 _]%H2]%H1. done.
Qed.

Lemma migrate_spec db db' r :
  working db = None → migrateControlPlaneSchema db = Some (db', r) →
  data_kept (committed db) (committed db')
  ∧ match r with
    | Some _ => committed db' = committed db
    | None => ∃ v, (v = 1 ∨ v = 0)%Z
        ∧ (v = 1%Z → committed db' = committed db)
        ∧ (v = 0%Z → apply_all [CreateTables; InsertVersion 1] (committed db) = Some (committed db'))
    end.
Proof using SL.
  intros Hw. unfold migrateControlPlaneSchema. destruct (query_newest db) as [db1 q] eqn:Eq.
  destruct (newest_law _ _ _ Eq) as (C1 & W1 & _). set (v := match q with Ok v => v | Err _ => 0%Z end).
  cbn [length controlPlaneSchema]. destruct (Z.ltb_spec (Z.of_nat 1) v); [intros [= <- <-]; split; [rewrite C1; apply data_kept_refl|done]|].
  destruct (Z.ltb_spec v 0); [done|]. assert (v = 0 ∨ v = 1)%Z as [->| ->] by lia.
  - change (drop (Z.to_nat 0) controlPlaneSchema) with [CreateTables]. change (Z.to_nat 0) with 0.
    cbn [migrate_from]. rewrite <- W1 in Hw. destruct (migrate_one 0 CreateTables db1) as [db2 [e|]] eqn:E;
      destruct (migrate_one_spec _ _ _ _ _ Hw E) as [Hr _]; intros [= <- <-].
    + rewrite Hr, C1. split; [apply data_kept_refl|done].
    + destruct Hr as [Hr _]. rewrite C1 in Hr. split; [by apply (data_kept_create _ _ 1)|].
      exists 0%Z. split_and!; [by right|done|done].
  - change (drop (Z.to_nat 1) controlPlaneSchema) with (@nil stmt). cbn [migrate_from]. intros [= <- <-].
    rewrite C1. split; [apply data_kept_refl|]. exists 1%Z. split_and!; [by left|done|done].
Qed.

(** A version table that can be read decides. *)
Lemma migrate_newest db db' r v vs :
  t_version (committed db) = Some vs → working db = None → v ∈ vs → (∀ x, x ∈ vs → (x ≤ v)%Z) → healthy db →
  migrateControlPlaneSchema db = Some (db', r) →
  ((1 < v)%Z → is_Some r) ∧ (v = 1%Z → r = None ∧ committed db' = committed db).
Proof using SL.
  intros Hvs Hw Hin Hmax Hh. unfold migrateControlPlaneSchema. destruct (query_newest db) as [db1 q] eqn:Eq.
  destruct (newest_law _ _ _ Eq) as (C1 & _ & _ & Hq & Hok).
  destruct vs as [|x vs]; [by apply not_elem_of_nil in Hin|]. specialize (Hok Hh x vs Hvs).
  destruct q as [v'|]; [|done]. destruct (Hq v' eq_refl) as (vs' & Hvs' & Hin' & Hmax').
  rewrite Hvs in Hvs'. injection Hvs' as <-. assert (v' = v) as -> by (apply Z.le_antisymm; auto).
  cbn [length controlPlaneSchema]. destruct (Z.ltb_spec (Z.of_nat 1) v); [intros [= <- <-]; split; [done|lia]|].
  destruct (Z.ltb_spec v 0); [done|]. intros E. split; [lia|]. intros ->.
  change (drop (Z.to_nat 1) controlPlaneSchema) with (@nil stmt) in E. cbn [migrate_from] in E.
  by injection E as <- <-.
Qed.
Lemma migrate_fresh db db' r :
  t_version (committed db) = None → working db = None → healthy db →
  migrateControlPlaneSchema db = Some (db', r) →
  r = None ∧ t_version (committed db') = Some [1%Z] ∧ is_Some (t_current (committed db'))
  ∧ is_Some (t_history (committed db')) ∧ is_Some (t_policies (committed db')).
Proof using SL.
  intros Hnone Hw Hh. unfold migrateControlPlaneSchema. destruct (query_newest db) as [db1 q] eqn:Eq.
  destruct (newest_law _ _ _ Eq) as (C1 & W1 & Hh1 & Hq & _). destruct q as [v|e].
  { destruct (Hq v eq_refl) as (vs & Hvs & _). congruence. }
  cbn [length controlPlaneSchema Z.ltb Z.of_nat Pos.of_succ_nat Z.compare].
  change (drop (Z.to_nat 0) controlPlaneSchema) with [CreateTables]. change (Z.to_nat 0) with 0. cbn [migrate_from].
  destruct (migrate_one 0 CreateTables db1) as [db2 r1] eqn:E. rewrite <- W1 in Hw.
  destruct (migrate_one_spec _ _ _ _ _ Hw E) as [Hr Hn]. destruct (Hn (Hh1 Hh)) as [-> _]; [by eexists|].
  intros [= <- <-]. split; [done|]. destruct Hr as [Hr _].
  destruct (data_kept_create _ _ 1%Z Hr) as (_ & Hv & ?). rewrite C1, Hnone in Hv. done.
Qed.
End Opening.

(** Opening a database never loses a row.  Whatever fails, every row of the
    deployment and policy tables is still there, and an error leaves the
    database as it was; a database whose version is newer than the program's is
    refused, one without a version gets all the tables, and one at version 1 is
    opened unchanged. *)
Theorem open_migrates {SQ : Sqlite} {healthy} {SL : SqliteLaws SQ healthy} path (db db' : DB) r :
  sql_open path = Ok db → working db = None → openControlPlaneDB path = Some (Some db', r) →
  let t := committed db in
  let t' := committed db' in
  data_kept t t' ∧ (is_Some r → t' = t)
  ∧ (healthy db → ∀ v vs, t_version t = Some vs → v ∈ vs → (∀ x, x ∈ vs → (x ≤ v)%Z) →
      ((1 < v)%Z → is_Some r) ∧ (v = 1%Z → r = None ∧ t' = t))
  ∧ (healthy db → t_version t = None →
      r = None ∧ t_version t' = Some [1%Z] ∧ is_Some (t_current t') ∧ is_Some (t_history t')
      ∧ is_Some (t_policies t')).
Proof.
  intros Ho Hw. unfold openControlPlaneDB. destruct (String.eqb path ""); [done|]. rewrite Ho.
  destruct (apply_pragmas pragmas db) as [db1 [e|]] eqn:Ep; destruct (apply_pragmas_spec _ _ _ _ Ep) as (C1 & W1 & H1).
  { intros [= <- <-]. cbn zeta. destruct (db_close db1) as [db2 x] eqn:Ec. pose proof (close_law _ _ _ Ec) as C2.
    cbn [fst]. rewrite C2, C1. split; [apply data_kept_refl|]. split; [done|]. split; by intros [? _]%H1. }
  destruct (migrateControlPlaneSchema db1) as [[db2 r2]|] eqn:Em; [|done]. rewrite <- W1 in Hw.
  destruct (migrate_spec _ _ _ Hw Em) as [Hk Hr]. rewrite C1 in Hk, Hr. intros Hres.
  assert (committed db' = committed db2 ∧ r = r2) as [E ->].
  { destruct r2 as [e|]; injection Hres as <- <-; [|done]. destruct (db_close db2) as [db3 x] eqn:Ec.
    cbn [fst]. by rewrite (close_law _ _ _ Ec). }
  clear Hres. cbn zeta. rewrite E. split; [done|]. split; [by destruct r2; [|intros [? [=]]]|].
  split; intros [_ Hh]%H1.
  - intros v vs Hvs Hin Hmax. destruct (migrate_newest db1 db2 r2 v vs) as [Ha Hb]; [congruence|congruence|done..|].
    split; [done|]. intros Hv. destruct (Hb Hv). split; [done|congruence].
  - intros Hnone. rewrite <- C1 in Hnone. by eapply migrate_fresh.
Qed.

(** A version that cannot be read counts as version 0: a database of any newer
    version is then opened without error and its marker rewritten. *)
Theorem unreadable_version_rewritten {SQ : Sqlite} {healthy} {SL : SqliteLaws SQ healthy} path (db db1 db2 : DB) vs e :
  path ≠ "" → sql_open path = Ok db → working db = None → t_version (committed db) = Some vs →
  apply_pragmas pragmas db = (db1, None) → query_newest db1 = (db2, Err e) → healthy db2 →
  ∃ db', openControlPlaneDB path = Some (Some db', None) ∧ t_version (committed db') = Some (vs ++ [1%Z]).
Proof.
  intros Hp Ho Hw Hvs Ep Eq Hh. destruct (apply_pragmas_spec _ _ _ _ Ep) as (C1 & W1 & _).
  destruct (newest_law _ _ _ Eq) as (C2 & W2 & _).
  unfold openControlPlaneDB. rewrite (proj2 (String.eqb_neq _ _) Hp), Ho, Ep.
  unfold migrateControlPlaneSchema. rewrite Eq.
  cbn [length controlPlaneSchema Z.ltb Z.of_nat Pos.of_succ_nat Z.compare].
  change (drop (Z.to_nat 0) controlPlaneSchema) with [CreateTables]. change (Z.to_nat 0) with 0. cbn [migrate_from].
  destruct (migrate_one 0 CreateTables db2) as [db3 r1] eqn:E. rewrite <- W1, <- W2 in Hw.
  destruct (migrate_one_spec _ _ _ _ _ Hw E) as [Hr Hn]. destruct (Hn Hh) as [-> _]; [by eexists|].
  eexists. split; [done|]. destruct Hr as [Hr _]. destruct (data_kept_create _ _ 1%Z Hr) as (_ & Hv & _).
  by rewrite C2, C1, Hvs in Hv.
Qed.

(** ** An engine that keeps the promises

    The tables in memory, and a list of calls that fail. *)
Module Engine.

Record db := mkDb { p_tables : tables; p_work : option tables; p_faults : list bool }.
Definition pop (d : db) : bool * db :=
  match p_faults d with
  | [] => (false, d)
  | f :: more => (f, mkDb (p_tables d) (p_work d) more)
  end.
Definition fault : error := "disk I/O error".

#[export] Instance row_le_dec : RelDecision row_le.
Proof. intros [[[s e] i] x] [[[s' e'] i'] y]. apply _. Defined.
#[export] Instance row_le_total : Total row_le.
Proof.
  intros [[[s e] i] x] [[[s' e'] i'] y]. unfold row_le.
  destruct (decide (s = s')) as [<-|Hs]; [destruct (decide (e = e')) as [<-|He]|].
  - destruct (Z.le_ge_cases i i'); [left|right]; right; (split; [done|]); right; by split.
  - destruct (total String.le e e'); [left|right]; right; (split; [done|]); left; by split.
  - destruct (total String.le s s'); [left|right]; left; by split.
Qed.
#[export] Instance row_le_trans : Transitive row_le.
Proof.
  intros [[[s e] i] x] [[[s' e'] i'] y] [[[s'' e''] i''] z]. unfold row_le.
  intros [[Hn Hs]|[<- H1]] [[Hn' Hs']|[<- H2]].
  - left. split; [|by etrans]. intros <-. apply Hn. by apply (anti_symm String.le).
  - by left.
  - by left.
  - right. split; [done|]. destruct H1 as [[Hm He]|[<- Hi]], H2 as [[Hm' He']|[<- Hi']].
    + left. split; [|by etrans]. intros <-. apply Hm. by apply (anti_symm String.le).
    + by left.
    + by left.
    + right. split; [done|lia].
Qed.

Definition unless {A} (d : db) (k : db → A) (failed : db → A) : A :=
  let '(f, d) := pop d in if f then failed d else k d.
Definition newest (vs : list Z) : result Z :=
  match vs with [] => Err "sql: no rows in result set" | v :: vs => Ok (foldr Z.max v vs) end.
Definition rows_of (m : gmap (string * string * Z) string) : list row :=
  merge_sort row_le ((λ x, (x.1.1.1, x.1.1.2, x.1.2, x.2)) <$> map_to_list m).

Definition engine (initial : db) : Sqlite := {|
  DB := db;
  committed := p_tables;
  working := p_work;
  sql_open _ := Ok initial;
  db_pragma _ d := unless d (λ d, (d, None)) (λ d, (d, Some fault));
  tx_begin d := unless d (λ d, (mkDb (p_tables d) (Some (p_tables d)) (p_faults d), None)) (λ d, (d, Some fault));
  tx_exec s d := unless d
    (λ d, match p_work d ≫= apply_stmt s with
          | Some w => (mkDb (p_tables d) (Some w) (p_faults d), None)
          | None => (d, Some "constraint failed")
          end) (λ d, (d, Some fault));
  tx_commit d := unless d
    (λ d, (mkDb (default (p_tables d) (p_work d)) None (p_faults d), None))
    (λ d, (mkDb (p_tables d) None (p_faults d), Some fault));
  tx_rollback d := (mkDb (p_tables d) None (p_faults d), None);
  query_newest d := unless d
    (λ d, (d, match t_version (p_tables d) with None => Err "no such table" | Some vs => newest vs end))
    (λ d, (d, Err fault));
  query_version d := unless d
    (λ d, (d, match t_version (p_tables d) with Some (v :: _) => Ok v | _ => Err "no such table" end))
    (λ d, (d, Err fault));
  query_current d := unless d
    (λ d, (d, match t_current (p_tables d) with
              | None => Err "no such table"
              | Some m => Ok ((λ x, (x.1.1, x.1.2, x.2)) <$> map_to_list m, None)
              end)) (λ d, (d, Err fault));
  query_history d := unless d
    (λ d, (d, match t_history (p_tables d) with None => Err "no such table" | Some m => Ok (rows_of m, None) end))
    (λ d, (d, Err fault));
  query_policies d := unless d
    (λ d, (d, match t_policies (p_tables d) with None => Err "no such table" | Some m => Ok (rows_of m, None) end))
    (λ d, (d, Err fault));
  db_close d := (d, None);
|}.
Definition no_faults (d : db) : Prop := p_faults d = [].

Lemma newest_spec vs v : newest vs = Ok v → v ∈ vs ∧ ∀ x, x ∈ vs → (x ≤ v)%Z.
Proof.
  destruct vs as [|y vs]; [done|]. intros [= <-]. induction vs as [|z vs [IH1 IH2]]; cbn.
  - split; [by left|]. by intros x ->%list_elem_of_singleton.
  - split.
    + destruct (Z.max_dec z (foldr Z.max y vs)) as [->| ->]; [right; by left|].
      apply elem_of_cons in IH1 as [->|IH1]; [by left|]. right. by right.
    + intros x [->|[->|Hx]%elem_of_cons]%elem_of_cons.
      * specialize (IH2 y). pose proof (IH2 (list_elem_of_here _ _)). lia.
      * lia.
      * specialize (IH2 x). assert (x ≤ foldr Z.max y vs)%Z by (apply IH2; by right). lia.
Qed.
Lemma rows_of_spec m :
  rows_of m ≡ₚ (λ x, (x.1.1.1, x.1.1.2, x.1.2, x.2)) <$> map_to_list m ∧ StronglySorted row_le (rows_of m).
Proof. split; [apply merge_sort_Permutation|by apply (StronglySorted_merge_sort row_le)]. Qed.

(** A call fails by its first fault or runs; without faults it runs. *)
Lemma unless_spec {B} (d : db) (k failed : db → B) (b : B) :
  unless d k failed = b →
  ∃ d', p_tables d' = p_tables d ∧ p_work d' = p_work d
    ∧ ((k d' = b ∧ (no_faults d → no_faults d')) ∨ (failed d' = b ∧ ¬ no_faults d)).
Proof.
  unfold unless, pop, no_faults. destruct d as [t w [|[] fs]]; cbn; intros <-.
  - exists (mkDb t w []). split_and!; [done..|]. by left.
  - exists (mkDb t w fs). split_and!; [done..|]. by right.
  - exists (mkDb t w fs). split_and!; [done..|]. by left.
Qed.
Ltac call H d Ht Hw Hf := apply unless_spec in H as (d & Ht & Hw & [[H Hf]|[H Hf]]); cbn in Ht, Hw.

Lemma exec_engine initial s (d d' : db) r w :
  p_work d = Some w → @tx_exec (engine initial) s d = (d', r) →
  p_tables d' = p_tables d ∧ is_Some (p_work d')
  ∧ (r = None → ∃ w', apply_stmt s w = Some w' ∧ p_work d' = Some w')
  ∧ (no_faults d → no_faults d' ∧ (r = None ↔ is_Some (apply_stmt s w))).
Proof.
  intros Hw E. cbn in E. call E d1 Ht Hw1 Hf; [|injection E as <- <-; rewrite Ht, Hw1, Hw; naive_solver].
  rewrite Hw1, Hw in E. cbn in E. destruct (apply_stmt s w) as [w'|] eqn:Ea; injection E as <- <-; cbn.
  - rewrite Ht. split_and!; [done|by eexists|intros _; by exists w'|]. intros ?%Hf. split; [done|]. split; [by eexists|done].
  - rewrite Ht, Hw1, Hw. split_and!; [done|by eexists|done|]. intros ?%Hf. split; [done|]. split; [done|by intros []].
Qed.

(** A query with its answer [ans] on the tables. *)
Lemma query_engine {A} (ans : tables → result A) (d d' : db) r :
  unless d (λ d, (d, ans (p_tables d))) (λ d, (d, Err fault)) = (d', r) →
  p_tables d' = p_tables d ∧ p_work d' = p_work d ∧ (no_faults d → no_faults d')
  ∧ (∀ x, r = Ok x → ans (p_tables d) = Ok x) ∧ (no_faults d → r = ans (p_tables d)).
Proof.
  intros E. call E d1 Ht Hw Hf; injection E as <- <-; rewrite ?Ht, ?Hw; naive_solver.
Qed.

Instance engine_laws initial : SqliteLaws (engine initial) no_faults.
Proof.
  split; [|intros s d d' r w Hw E; exact (exec_engine initial _ _ _ _ _ Hw E)|..];
    cbn [DB committed working tx_begin tx_exec tx_commit tx_rollback db_pragma db_close query_newest
         query_current query_history query_policies engine].
  - intros d d' r Hd E. call E d1 Ht Hw Hf; injection E as <- <-; cbn; rewrite ?Ht, ?Hw, ?Hd; naive_solver.
  - intros d d' r w Hd E. call E d1 Ht Hw Hf; injection E as <- <-; cbn; rewrite ?Ht, ?Hw, ?Hd; naive_solver.
  - intros d d' r [= <- <-]. done.
  - intros _ d d' r E. call E d1 Ht Hw Hf; injection E as <- <-; cbn; rewrite ?Ht, ?Hw; naive_solver.
  - by intros d d' r [= <- <-].
  - intros d d' r (H1 & H2 & H3 & H4 & H5)%(query_engine (λ t, match t_version t with None => Err "no such table" | Some vs => newest vs end)).
    split_and!; [done..| |].
    + intros v Hv%H4. destruct (t_version _) as [vs|]; [|done]. exists vs. split; [done|]. by apply newest_spec.
    + intros Hn v vs E. by rewrite (H5 Hn), E.
  - intros d d' r (H1 & H2 & H3 & H4 & H5)%(query_engine (λ t, match t_current t with None => Err "no such table" | Some m => Ok ((λ x, (x.1.1, x.1.2, x.2)) <$> map_to_list m, None) end)).
    split_and!; [done..| |].
    + intros rows Hr%H4. destruct (t_current _) as [m|]; [|done]. injection Hr as <-. by exists m.
    + intros Hn [m E]. rewrite (H5 Hn), E. by eexists.
  - intros d d' r (H1 & H2 & H3 & H4 & H5)%(query_engine (λ t, match t_history t with None => Err "no such table" | Some m => Ok (rows_of m, None) end)).
    split_and!; [done..| |].
    + intros rows Hr%H4. destruct (t_history _) as [m|]; [|done]. injection Hr as <-. exists m. split; [done|]. apply rows_of_spec.
    + intros Hn [m E]. rewrite (H5 Hn), E. by eexists.
  - intros d d' r (H1 & H2 & H3 & H4 & H5)%(query_engine (λ t, match t_policies t with None => Err "no such table" | Some m => Ok (rows_of m, None) end)).
    split_and!; [done..| |].
    + intros rows Hr%H4. destruct (t_policies _) as [m|]; [|done]. injection Hr as <-. exists m. split; [done|]. apply rows_of_spec.
    + intros Hn [m E]. rewrite (H5 Hn), E. by eexists.
Qed.
End Engine.

(** ** Witnesses *)

Import Engine.
Definition keep_order (A : Type) (l : list A) : list A := l.
Definition migrated : tables := mkTables (Some [1%Z]) (Some ∅) (Some ∅) (Some ∅).
Definition one_release : DeploymentLedgerState :=
  mkState (Some {[ "api" := {[ "staging" := Some (demo_manifest "1") ]} ]})
    (Some {[ "api" := {[ "staging" := [Some (demo_manifest "1")] ]} ]}).
Definition some_json (d : option DeploymentManifest) : result string := Ok "{}".
(** The second insert fails. *)
Definition failing_db : db := mkDb migrated None [false; false; false; false; true].

Lemma sqlite_save_atomic_witness :
  let '(s, r) := @sqlite_save (engine failing_db) keep_order some_json (Some failing_db) one_release in
  r = Some ("insert history: " +:+ fault) ∧ p_tables <$> s = Some migrated.
Proof.
  set (SQ := engine failing_db).
  destruct (@sqlite_save SQ keep_order some_json (Some failing_db) one_release) as [s r] eqn:E.
  assert (r = Some ("insert history: " +:+ fault)) as Hr.
  { transitivity ((@sqlite_save SQ keep_order some_json (Some failing_db) one_release).2); [by rewrite E|by vm_compute]. }
  split; [exact Hr|]. destruct s as [d|].
  - pose proof (@sqlite_save_atomic SQ no_faults (engine_laws failing_db) keep_order some_json failing_db d
      one_release r (λ _ l, Permutation_refl l) eq_refl E) as H. rewrite Hr in H. cbn. f_equal. exact H.
  - exfalso. assert ((@sqlite_save SQ keep_order some_json (Some failing_db) one_release).1 = None) as H by by rewrite E.
    vm_compute in H. discriminate H.
Defined.

Definition empty_db : db := mkDb migrated None [].
Definition demo_records : list PolicyVersionRecord := default [] (versions demo_pv !! policyKey "pay" "prod").
Definition rec_json (r : PolicyVersionRecord) : result string := Ok (itoa (pr_Version r)).
Definition rec_parse (s : string) : result PolicyVersionRecord :=
  match List.find (λ r, String.eqb (itoa (pr_Version r)) s) demo_records with
  | Some r => Ok r
  | None => Err "unexpected end of JSON input"
  end.
Definition saved_db : db :=
  default empty_db (@sqlite_policy_save (engine empty_db) keep_order rec_json (Some empty_db)
                      (mkVersions (Some (versions demo_pv)))).1.

Lemma sqlite_policies_survive_witness :
  length demo_records = 3
  ∧ ∃ d, @sqlite_policy_load (engine empty_db) rec_parse (Some saved_db)
         = (Some d, Ok (mkVersions (Some (versions demo_pv)))).
Proof.
  split; [by vm_compute|].
  apply (@sqlite_policies_survive (engine empty_db) no_faults (engine_laws empty_db) _ memory_store (λ _, "0")
    (Some (mkVersions None)) demo_pv_calls keep_order rec_json rec_parse empty_db saved_db demo_pv_canonical
    (λ _ l, Permutation_refl l) eq_refl).
  - by vm_compute.
  - intros key h r Hk Hr. assert (versions demo_pv = {[ policyKey "pay" "prod" := demo_records ]}) as E by by vm_compute.
    fold demo_pv in Hk. rewrite E in Hk. apply lookup_singleton_Some in Hk as [<- <-].
    exists (itoa (pr_Version r)). split; [done|]. unfold demo_records in Hr.
    assert (Forall (λ r, rec_parse (itoa (pr_Version r)) = Ok r) demo_records) as Hall
      by (repeat constructor; by vm_compute).
    by apply (proj1 (Forall_forall _ _) Hall).
  - by vm_compute.
Defined.

Definition blank_db : db := mkDb (mkTables None None None None) None [].
Definition opened : option (option db * option error) := @openControlPlaneDB (engine blank_db) "cp.db".
Lemma open_migrates_witness :
  match opened with
  | Some (Some d, r) => r = None ∧ t_version (p_tables d) = Some [1%Z]
  | _ => False
  end.
Proof.
  destruct opened as [[[d|] r]|] eqn:E; [|vm_compute in E; discriminate E..].
  destruct (@open_migrates (engine blank_db) no_faults (engine_laws blank_db) "cp.db" blank_db d r
    eq_refl eq_refl E) as (_ & _ & _ & H).
  destruct (H eq_refl eq_refl) as (H1 & H2 & _). split; [exact H1|exact H2].
Defined.

(** A database of version 2 whose version query fails once. *)
Definition newer_db : db :=
  mkDb (mkTables (Some [2%Z]) (Some ∅) (Some ∅) (Some ∅)) None [false; false; false; false; true].
Lemma unreadable_version_rewritten_witness :
  ∃ d, @openControlPlaneDB (engine newer_db) "cp.db" = Some (Some d, None) ∧ t_version (p_tables d) = Some [2; 1]%Z.
Proof.
  eapply (@unreadable_version_rewritten (engine newer_db) no_faults (engine_laws newer_db) "cp.db" newer_db
    (mkDb (p_tables newer_db) None [true]) (mkDb (p_tables newer_db) None []) [2%Z] fault);
    first [done | reflexivity].
Defined.
