(* ===== verification/Server.v ===== *)
(** * The server

    Models src/pkg/runtime/server.go and health.go: the [Server] around the
    router, its registrations ([Mount], [Proxy], the endpoints), the request
    middleware it installs (metrics, request log, alert), its listener and its
    shutdown.

    A handler takes the request with the pattern the router set on it and the
    world: the metrics, the alerts, the log and the clock the middleware shares,
    and the program's own state.  encoding/json, the network, the environment
    and contexts are parameters. *)

From stdpp Require Import strings.
From S2P Require Import Prelude GoStrings Paths RoutePattern Router Http RequestID Proxy Metrics.

Record log_line := LogLine {
  l_method : string; l_path : string; l_status : Z; l_duration_ms : Z; l_request_id : string;
}.

Section Server.
Context {U Ctx Listener : Type}.

Record world := World {
  w_metrics : option Metrics;
  w_alerts : gmap nat alertThreshold;
  w_fired : list (nat * MetricsSnapshot * float64);   (* callback calls *)
  w_log : list log_line;
  w_clock : list time;                                (* the readings to come *)
  w_user : U;
}.
Definition set_metrics (m : option Metrics) (w : world) : world :=
  World m (w_alerts w) (w_fired w) (w_log w) (w_clock w) (w_user w).
Definition set_user (u : U) (w : world) : world :=
  World (w_metrics w) (w_alerts w) (w_fired w) (w_log w) (w_clock w) u.
(** [time.Now()]. *)
Definition read_clock (w : world) : time * world :=
  match w_clock w with
  | [] => (time_zero, w)
  | t :: more => (t, World (w_metrics w) (w_alerts w) (w_fired w) (w_log w) more (w_user w))
  end.

(** [http.Handler]: [req.Pattern], the request, the world. *)
Definition Handler : Type := string → request → world → list writer_op * world.
Definition hook : Type := Ctx → U → U * option error.
Definition HealthCheck : Type := Ctx → U → U * option error.

Record Server := MkServer {
  http_server : bool;                  (* the embedded server is not nil *)
  Addr : string;
  router : option (Router Handler);
  has_metrics : bool;                  (* [metrics] is not nil *)
  readinessTimeout : duration;
  shutdownTimeout : duration;
  onShutdown : list hook;
  reusePort : bool;
  injectedListener : option Listener;
}.
(** The server, the package's pattern index and the world. *)
Abbreviation state := (option Server * gmap string (list routeSegment) * world)%type.

Definition with_router (s : Server) (r : option (Router Handler)) : Server :=
  MkServer (http_server s) (Addr s) r (has_metrics s) (readinessTimeout s) (shutdownTimeout s)
    (onShutdown s) (reusePort s) (injectedListener s).

Definition NewServer (addr : string) : Server :=
  MkServer true (if String.eqb addr "" then ":8080" else addr) (Some NewRouter) true 0 0 [] false None.

(** ** Registrations *)

(** [if s == nil || s.router == nil { return }]. *)
Definition on_router (x : state)
    (f : option (Router Handler) → gmap string (list routeSegment) →
         option (Router Handler) * gmap string (list routeSegment)) : state :=
  match x with
  | (Some s, idx, w) =>
      match router s with
      | None => x
      | Some _ => let '(r, idx) := f (router s) idx in (Some (with_router s r), idx, w)
      end
  | _ => x
  end.

Definition server_Use (x : state) (mws : list (Handler → Handler)) : state :=
  on_router x (λ r idx, (Use r mws, idx)).
Definition server_Handle (x : state) (method path : string) (h : option Handler) : state :=
  on_router x (λ r idx, Handle r idx method path h).
Definition server_Get x path h := server_Handle x "GET" path h.
Definition server_Post x path h := server_Handle x "POST" path h.
Definition server_Put x path h := server_Handle x "PUT" path h.
Definition server_Patch x path h := server_Handle x "PATCH" path h.
Definition server_Delete x path h := server_Handle x "DELETE" path h.
Definition HandleFunc x method path h := server_Handle x method path h.
Definition server_Any (x : state) (path : string) (h : option Handler) : state :=
  on_router x (λ r idx, Any r idx path h).

(** The loop of [Mount] and [Proxy]: each method gets the two routes. *)
Definition mount_method (prefix wildcard : string) (h : Handler)
    (s : option (Router Handler) * gmap string (list routeSegment)) (method : string)
    : option (Router Handler) * gmap string (list routeSegment) :=
  let s := Handle s.1 s.2 method prefix (Some h) in Handle s.1 s.2 method wildcard (Some h).
Definition mount_routes (prefix wildcard : string) (h : Handler) (r : option (Router Handler))
    (idx : gmap string (list routeSegment)) : option (Router Handler) * gmap string (list routeSegment) :=
  foldl (mount_method prefix wildcard h) (r, idx) all_methods.
Definition Mount (x : state) (prefix : string) (h : option Handler) : state :=
  match h with
  | None => x
  | Some h =>
      let prefix := normalizePath prefix in
      on_router x (mount_routes prefix (withWildcardRoute prefix) h)
  end.

Definition server_Proxy (parse_url : string → result url) (as_handler : Proxy → Handler)
    (x : state) (prefix target : string) : state * option error :=
  match x with
  | (Some s, _, _) =>
      match router s with
      | None => (x, Some "server is not initialized")
      | Some _ =>
          match NewProxy parse_url target with
          | Err e => (x, Some e)
          | Ok p =>
              let p := default p (WithStripPrefix (Some p) prefix) in
              (on_router x (mount_routes prefix (withWildcardRoute prefix) (as_handler p)), None)
          end
      end
  | _ => (x, Some "server is not initialized")
  end.

(** ** Middleware *)

Definition metrics_mw (next : Handler) : Handler := λ pattern r w,
  let '(start, w) := read_clock w in
  let '(ops, w) := next pattern r w in
  let '(now, w) := read_clock w in
  (ops, set_metrics (Record_ (w_metrics w) (method r) (routePattern (Some (pattern, url_path r)))
                       (recorded_status ops) (Some (time_sub now start))) w).
Definition WithMetrics (x : state) : state :=
  match x with
  | (Some s, idx, w) =>
      let w := if has_metrics s then w else set_metrics (Some NewMetrics) w in
      (Some (MkServer (http_server s) (Addr s) (Use (router s) [metrics_mw]) true (readinessTimeout s)
               (shutdownTimeout s) (onShutdown s) (reusePort s) (injectedListener s)), idx, w)
  | _ => x
  end.

Definition logger_mw (next : Handler) : Handler := λ pattern r w,
  let '(start, w) := read_clock w in
  let '(ops, w) := next pattern r w in
  let '(now, w) := read_clock w in
  let line := LogLine (method r) (normalizePath (url_path r)) (recorded_status ops)
                (Z.quot (time_sub now start) 1000000) (RequestIDFromRequest (Some r)) in
  (ops, World (w_metrics w) (w_alerts w) (w_fired w) (w_log w ++ [line]) (w_clock w) (w_user w)).
Definition WithLogger (x : state) : state :=
  match x with
  | (Some s, idx, w) => (Some (with_router s (Use (router s) [logger_mw])), idx, w)
  | _ => x
  end.

(** The comparison after a request; [id] is the alert's state. *)
Definition alert_check (id : nat) (w : world) : world :=
  let '(_, rate) := ErrorWindow (w_metrics w) (Z.of_nat errorWindowCap) in
  match w_alerts w !! id with
  | None => w
  | Some a =>
      let '(fire, a) := alert_step a rate in
      let w := World (w_metrics w) (<[id := a]> (w_alerts w)) (w_fired w) (w_log w) (w_clock w) (w_user w) in
      if fire then
        let '(snap, m) := Snapshot (w_metrics w) in
        World m (w_alerts w) (w_fired w ++ [(id, snap, rate)]) (w_log w) (w_clock w) (w_user w)
      else w
  end.
Definition alert_mw (id : nat) (next : Handler) : Handler := λ pattern r w,
  let '(ops, w) := next pattern r w in (ops, alert_check id w).
(** [id] is the new [alertThreshold]; [callback] tells whether one is given. *)
Definition WithAlertThreshold (x : state) (id : nat) (threshold : float64) (callback : bool) : state :=
  match x with
  | (Some s, idx, w) =>
      if has_metrics s && callback then
        (Some (with_router s (Use (router s) [alert_mw id])), idx,
         World (w_metrics w) (<[id := AlertThreshold threshold false]> (w_alerts w)) (w_fired w) (w_log w)
           (w_clock w) (w_user w))
      else x
  | _ => x
  end.

(** ** Endpoints *)

Context (json_status : string → option string → string).   (* {"status": ..., "error": ...} *)
Context (snapshot_json : MetricsSnapshot → string).

Definition json_reply (code : Z) (body : string) : list writer_op :=
  [OpSet "Content-Type" "application/json"; OpWriteHeader code; OpWrite body].

Definition metrics_endpoint : Handler := λ _ _ w,
  let '(snap, m) := Snapshot (w_metrics w) in (json_reply 200 (snapshot_json snap), set_metrics m w).
Definition WithMetricsEndpoint (x : state) (path : string) : state :=
  match x with
  | (Some s, idx, w) =>
      match router s with
      | None => x
      | Some _ =>
          let path := if String.eqb path "" then "/metrics" else path in
          let w := if has_metrics s then w else set_metrics (Some NewMetrics) w in
          let s := MkServer (http_server s) (Addr s) (router s) true (readinessTimeout s)
                     (shutdownTimeout s) (onShutdown s) (reusePort s) (injectedListener s) in
          on_router (Some s, idx, w) (λ r idx, Get r idx path (Some metrics_endpoint))
      end
  | _ => x
  end.

Definition liveness : Handler := λ _ _ w, (json_reply 200 (json_status "ok" None), w).
Definition WithLiveness (x : state) (path : string) : state :=
  on_router x (λ r idx, Get r idx (if String.eqb path "" then "/health/live" else path) (Some liveness)).

Context (request_ctx : request → Ctx) (with_timeout : Ctx → duration → Ctx).

(** [None] is a nil check. *)
Fixpoint run_checks (ctx : Ctx) (checks : list (option HealthCheck)) (u : U) : U * option error :=
  match checks with
  | [] => (u, None)
  | None :: checks => run_checks ctx checks u
  | Some probe :: checks =>
      match probe ctx u with
      | (u, Some e) => (u, Some e)
      | (u, None) => run_checks ctx checks u
      end
  end.
Definition readiness (timeout : duration) (checks : list (option HealthCheck)) : Handler := λ _ r w,
  let '(u, err) := run_checks (with_timeout (request_ctx r) timeout) checks (w_user w) in
  (match err with
   | Some e => json_reply 503 (json_status "unavailable" (Some e))
   | None => json_reply 200 (json_status "ok" None)
   end, set_user u w).
Definition WithReadinessTimeout (x : state) (timeout : duration) : state :=
  match x with
  | (Some s, idx, w) =>
      (Some (MkServer (http_server s) (Addr s) (router s) (has_metrics s) timeout
               (shutdownTimeout s) (onShutdown s) (reusePort s) (injectedListener s)), idx, w)
  | _ => x
  end.
Definition WithReadiness (x : state) (path : string) (checks : list (option HealthCheck)) : state :=
  match x with
  | (Some s, _, _) =>
      let timeout := if (readinessTimeout s <=? 0)%Z then (2 * second)%Z else readinessTimeout s in
      on_router x (λ r idx, Get r idx (if String.eqb path "" then "/health/ready" else path)
                              (Some (readiness timeout checks)))
  | _ => x
  end.

(** ** Listening *)

Definition on_server (x : state) (f : Server → Server) : state :=
  match x with (Some s, idx, w) => (Some (f s), idx, w) | _ => x end.
Definition WithShutdownTimeout (x : state) (d : duration) : state :=
  on_server x (λ s, MkServer (http_server s) (Addr s) (router s) (has_metrics s) (readinessTimeout s) d
                      (onShutdown s) (reusePort s) (injectedListener s)).
Definition with_listener (ln : option Listener) (s : Server) : Server :=
  MkServer (http_server s) (Addr s) (router s) (has_metrics s) (readinessTimeout s) (shutdownTimeout s)
    (onShutdown s) (reusePort s) ln.
Definition WithListener (x : state) (ln : option Listener) : state := on_server x (with_listener ln).
Definition WithReusePort (x : state) : state :=
  on_server x (λ s, MkServer (http_server s) (Addr s) (router s) (has_metrics s) (readinessTimeout s)
                      (shutdownTimeout s) (onShutdown s) true (injectedListener s)).

(** [net.Listen] and the [Listen] of a configuration with SO_REUSEPORT. *)
Context (net_listen reuse_listen : string → result Listener).
Definition listen (s : Server) : Server * result Listener :=
  if negb (http_server s) then (s, Err "server is not initialized")
  else
    match injectedListener s with
    | Some ln => (with_listener None s, Ok ln)
    | None => (s, if reusePort s then reuse_listen (Addr s) else net_listen (Addr s))
    end.

(** What [ListenAndServe] does before it serves, or why it does not. *)
Inductive serving :=
  | Refused (e : error)
  | Serving (ln : Listener) (ready_file : option (string * string)).
Definition ListenAndServe (getenv : string → string) (s : option Server) : option Server * serving :=
  match s with
  | None => (None, Refused "http: Server closed")
  | Some s =>
      if negb (http_server s) then (Some s, Refused "http: Server closed")
      else
        match listen s with
        | (s, Err e) => (Some s, Refused e)
        | (s, Ok ln) =>
            let file := getenv "FGOTHS_READY_FILE" in
            (Some s, Serving ln (if String.eqb file "" then None
                                 else Some (file, getenv "FGOTHS_BUILD_ID")))
        end
  end.

(** ** Shutting down *)

Definition OnShutdown (x : state) (fn : option hook) : state :=
  match fn with
  | None => x
  | Some fn =>
      on_server x (λ s, MkServer (http_server s) (Addr s) (router s) (has_metrics s) (readinessTimeout s)
                          (shutdownTimeout s) (onShutdown s ++ [fn]) (reusePort s) (injectedListener s))
  end.
Fixpoint run_hooks (ctx : Ctx) (hooks : list hook) (u : U) : U * option error :=
  match hooks with
  | [] => (u, None)
  | fn :: hooks =>
      match fn ctx u with
      | (u, Some e) => (u, Some e)
      | (u, None) => run_hooks ctx hooks u
      end
  end.
(** [drain] is the embedded server's [Shutdown]. *)
Definition Shutdown (drain : hook) (s : option Server) (ctx : Ctx) (u : U) : U * option error :=
  match s with
  | None => (u, None)
  | Some s =>
      if negb (http_server s) then (u, None)
      else
        let ctx := if (0 <? shutdownTimeout s)%Z then with_timeout ctx (shutdownTimeout s) else ctx in
        match drain ctx u with
        | (u, Some e) => (u, Some e)
        | (u, None) => run_hooks ctx (onShutdown s) u
        end
  end.

(** ** Dispatch *)

Definition serve (order : list (string * routeEntry Handler)) (s : Server) (r : request) (w : world)
    : list writer_op * world :=
  match Router.ServeHTTP order (router s) (method r) (url_path r) with
  | Router.NotFound => (not_found, w)
  | Call h pattern => h pattern r w
  end.
End Server.
Arguments world U : clear implicits.
Arguments Handler U : clear implicits.
Arguments Server U Ctx Listener : clear implicits.

(** ** Mounts *)

Section Mounts.
Context {U : Type}.
Abbreviation H := (Handler U).
Implicit Types (r : Router H) (h : H).

Definition mounted_table (p wild : string) (h : H) (m : gmap string (routeEntry H)) :
    gmap string (routeEntry H) := <[wild := compile_entry wild h]> (<[p := compile_entry p h]> m).

Lemma mount_method_some p wild h r idx x :
  to_upper x = x → normalizePath p = p → normalizePath wild = wild →
  ∃ idx', mount_method p wild h (Some r, idx) x
    = (Some (mkRouter (<[x := mounted_table p wild h (default ∅ (routes r !! x))]> (routes r)) (middleware r)), idx').
Proof.
  intros Hx Hp Hw. unfold mount_method. cbn [fst snd]. rewrite Handle_some. cbn zeta. cbn [fst snd].
  rewrite Handle_some. cbn zeta. cbn [routes middleware]. rewrite Hp, Hw, Hx, lookup_insert_eq.
  cbn [default from_option id]. rewrite insert_insert_eq. by eexists.
Qed.
Lemma mount_loop p wild h ms r idx :
  NoDup ms → Forall (λ m, to_upper m = m) ms → normalizePath p = p → normalizePath wild = wild →
  ∃ r' idx',
    foldl (mount_method p wild h) (Some r, idx) ms = (Some r', idx')
    ∧ middleware r' = middleware r
    ∧ ∀ m, routes r' !! m
        = if decide (m ∈ ms) then Some (mounted_table p wild h (default ∅ (routes r !! m))) else routes r !! m.
Proof.
  intros Hnd Hup Hp Hw. revert r idx. induction ms as [|x ms IH]; intros r idx; cbn [foldl].
  { exists r, idx. split_and!; [done|done|]. intros m. by rewrite decide_False by apply not_elem_of_nil. }
  inversion Hnd as [|?? Hx Hnd']; subst. inversion Hup as [|?? Hux Hup']; subst.
  destruct (mount_method_some p wild h r idx x Hux Hp Hw) as [idx1 ->].
  match goal with |- context [foldl _ (Some ?a, ?b) ms] => destruct (IH Hnd' Hup' a b) as (r' & idx' & -> & Hm & Hl) end.
  exists r', idx'. split_and!; [done|done|]. intros m. rewrite Hl. cbn [routes].
  destruct (decide (m = x)) as [->|Hne].
  - rewrite decide_False, lookup_insert_eq, decide_True by (done || by left). done.
  - rewrite lookup_insert_ne by done. destruct (decide (m ∈ ms)).
    + by rewrite decide_True by (by right).
    + by rewrite decide_False by (by rewrite not_elem_of_cons).
Qed.

Lemma all_methods_upper : Forall (λ m, to_upper m = m) all_methods.
Proof. repeat constructor. Qed.
Lemma all_methods_nodup : NoDup all_methods.
Proof. apply (bool_decide_unpack _). by vm_compute. Qed.

Lemma wildcard_of p : normal_path p = true → p ≠ "/" → withWildcardRoute p = p +:+ "/*".
Proof. intros Hp Hne. unfold withWildcardRoute. rewrite normal_path_fixed by done. by rewrite decide_False. Qed.
Lemma compile_wildcard p h : normal_path p = true → p ≠ "/" →
  compile_entry (withWildcardRoute p) h = RouteEntry h [] false 0.
Proof. intros. unfold compile_entry. by rewrite withWildcardRoute_suffix. Qed.
(** A prefix without parameters and without a wildcard of its own. *)
Definition literal_prefix (p : string) : Prop :=
  normal_path p = true ∧ p ≠ "/" ∧ has_suffix p "/*" = false ∧ (compilePattern p).2 = false.
Lemma compile_literal p h : literal_prefix p → compile_entry p h = RouteEntry h [] false 0.
Proof.
  intros (_ & _ & Hs & Hc). unfold compile_entry. rewrite Hs. destruct (compilePattern p) as [? []]; [done|done].
Qed.

Lemma mount_state {Ctx L} (s : Server U Ctx L) idx w prefix h r x' :
  router s = Some r → literal_prefix (normalizePath prefix) →
  Mount (Some s, idx, w) prefix (Some h) = x' →
  let p := normalizePath prefix in
  ∃ s' r' idx', x' = (Some s', idx', w) ∧ router s' = Some r' ∧ middleware r' = middleware r
    ∧ ∀ m, routes r' !! m
        = if decide (m ∈ all_methods)
          then Some (mounted_table p (withWildcardRoute p) h (default ∅ (routes r !! m))) else routes r !! m.
Proof.
  intros Hr (Hn & Hne & _) <- p. cbn [Mount on_router]. rewrite Hr. unfold mount_routes. fold p.
  destruct (mount_loop p (withWildcardRoute p) h all_methods r idx) as (r' & idx' & -> & Hm & Hl);
    [apply all_methods_nodup|apply all_methods_upper|by apply normal_path_fixed| |].
  - rewrite wildcard_of by done. apply normal_path_fixed, wildcard_normal. by apply normal_path_spec in Hn as [? _].
  - eexists _, r', idx'. split_and!; [done..|exact Hl].
Qed.

Lemma mounted_lookup p wild h m pattern e :
  mounted_table p wild h m !! pattern = Some e →
  (pattern = wild ∧ e = compile_entry wild h) ∨ (pattern = p ∧ e = compile_entry p h) ∨ m !! pattern = Some e.
Proof.
  unfold mounted_table. intros [[<- <-]|[_ Hp]]%lookup_insert_Some; [by left|].
  apply lookup_insert_Some in Hp as [[<- <-]|[_ ?]]; auto.
Qed.

Lemma under_refl p : under p p = true.
Proof. apply under_spec. by left. Qed.
Lemma routeMatches_plain p q :
  literal_prefix p → normal_path q = true → routeMatches p q = under p q.
Proof.
  intros (Hn & Hne & Hs & _) Hq. unfold routeMatches, under. rewrite (normal_path_fixed p), (normal_path_fixed q) by done.
  case_decide as E; [subst q; by rewrite bool_decide_eq_true_2|]. rewrite Hs, bool_decide_eq_false_2 by done. done.
Qed.
Lemma wildcard_not_root p h : root_match (p +:+ "/*", RouteEntry h [] false 0) = true → False.
Proof.
  unfold root_match. cbn. intros E%String.eqb_eq. apply (f_equal String.length) in E.
  rewrite str_length_app in E. cbn in E. lia.
Qed.

(** Below the prefix, the wildcard route wins. *)
Lemma mount_below p q h old res :
  q ≠ p → under p q = true → literal_prefix p → normal_path q = true →
  (∀ pattern e, old !! pattern = Some e → pattern ≠ p → pattern ≠ p +:+ "/*" →
     pattern ≠ q ∧ param_match q (pattern, e) = false
     ∧ (legacy_match q (pattern, e) = true → String.length pattern < String.length p + 2)) →
  let t := <[p +:+ "/*" := RouteEntry h [] false 0]> (<[p := RouteEntry h [] false 0]> old) in
  match t !! q with
  | Some e => res = Some (e, q)
  | None => selected q (map_to_list t) res
  end →
  res = Some (RouteEntry h [] false 0, p +:+ "/*").
Proof.
  intros Hqp Hu Hlit Hq Hold t. pose proof Hlit as (Hn & Hne & _). set (wild := p +:+ "/*") in *.
  destruct (decide (q = wild)) as [->|Hqw]; [subst t; by rewrite lookup_insert_eq|].
  assert (∀ pattern e, t !! pattern = Some e →
    (pattern = wild ∧ e = RouteEntry h [] false 0) ∨ (pattern = p ∧ e = RouteEntry h [] false 0)
    ∨ (old !! pattern = Some e ∧ pattern ≠ p ∧ pattern ≠ wild)) as Ht.
  { intros pattern e [[<- <-]|[? Hp]]%lookup_insert_Some; [by left|].
    apply lookup_insert_Some in Hp as [[<- <-]|[? ?]]; [right; by left|right; by right]. }
  assert (t !! q = None) as ->.
  { destruct (t !! q) as [e|] eqn:E; [|done]. destruct (Ht _ _ E) as [[? _]|[[? _]|(Ho & _)]]; [done..|].
    by destruct (Hold q e Ho Hqp Hqw). }
  intros (op & ol & Hop & Hol & Hres).
  assert (legacy_match q (wild, RouteEntry h [] false 0) = true) as Hwild.
  { unfold legacy_match. cbn [fst snd hasParams negb andb]. subst wild. rewrite <- wildcard_of, routeMatches_wildcard, Hu by done.
    rewrite wildcard_of by done. destruct (String.eqb_spec (p +:+ "/*") "/") as [E|]; [|done].
    apply (f_equal String.length) in E. rewrite str_length_app in E. cbn in E. lia. }
  destruct op as [[pat e]|].
  { destruct Hop as (Hin%elem_of_map_to_list & Hpm & _). destruct (Ht _ _ Hin) as [[-> ->]|[[-> ->]|(Ho & Hp & Hw)]]; [done..|].
    destruct (Hold _ _ Ho Hp Hw) as (_ & Hf & _). congruence. }
  assert ((wild, RouteEntry h [] false 0) ∈ map_to_list t) as Hinw
    by (apply elem_of_map_to_list; apply lookup_insert_eq).
  destruct ol as [[pat e]|]; [|cbn in Hol; rewrite (Hol _ Hinw) in Hwild; done].
  destruct Hol as (Hin%elem_of_map_to_list & Hlm & Hmax). specialize (Hmax _ Hinw Hwild).
  unfold legacy_le in Hmax. cbn [fst] in Hmax. unfold wild in Hmax. rewrite str_length_app in Hmax. cbn [String.length] in Hmax.
  cbn [fst snd] in Hres. destruct (Ht _ _ Hin) as [[-> ->]|[[-> ->]|(Ho & Hp & Hw)]]; [done|lia|].
  destruct (Hold _ _ Ho Hp Hw) as (_ & _ & Hlen). specialize (Hlen Hlm). lia.
Qed.

End Mounts.

(** ** Alerts *)

Section Alerts.
Context {U : Type}.
Implicit Types (w : world U) (h : Handler U).

Definition window_rate (m : option Metrics) : float64 := (ErrorWindow m (Z.of_nat errorWindowCap)).2.
(** Metrics and alert installed in the documented order. *)
Definition observed_server {Ctx L} (addr : string) (id : nat) (th : float64) w
    : option (Server U Ctx L) * gmap string (list routeSegment) * world U :=
  WithAlertThreshold (WithMetrics (Some (NewServer addr), ∅, w)) id th true.

Lemma observed_middleware {Ctx L} addr id th w :
  ∃ s w', @observed_server Ctx L addr id th w = (Some s, ∅, w')
    ∧ router s = Some (mkRouter ∅ [metrics_mw; alert_mw id])
    ∧ w_alerts w' !! id = Some (AlertThreshold th false).
Proof. do 2 eexists. split; [reflexivity|]. split; [done|]. cbn. apply lookup_insert_eq. Qed.

Lemma alert_check_fired id w a :
  w_alerts w !! id = Some a →
  w_fired (alert_check id w)
  = w_fired w ++ (if (alert_step a (window_rate (w_metrics w))).1
                  then [(id, (Snapshot (w_metrics w)).1, window_rate (w_metrics w))] else []).
Proof.
  intros Ha. unfold alert_check, window_rate. destruct (ErrorWindow _ _) as [n rate]. rewrite Ha. cbn [snd].
  destruct (alert_step a rate) as [[] a']; cbn [fst]; [|by rewrite app_nil_r].
  cbn [w_metrics]. by destruct (Snapshot (w_metrics w)) as [snap m].
Qed.

(** C99 : With metrics enabled before the alert, as documented, the rate an alert
    compares never includes the request just served: the callback runs exactly
    when the rate of the requests recorded before reaches the threshold and the
    alert is not triggered, whatever this request was answered; the request is
    recorded only afterwards. *)
Theorem alert_lags_one_request {Ctx L} addr id th w0 s (idx : gmap string (list routeSegment)) w0' h pattern r w ops w' a :
  @observed_server Ctx L addr id th w0 = (Some s, idx, w0') →
  h pattern r (read_clock w).2 = (ops, w') → w_alerts w' !! id = Some a →
  ∃ rt w'' d, router s = Some rt
    ∧ chain (middleware rt) h pattern r w = (ops, w'')
    ∧ w_fired w'' = w_fired w' ++
        (if f64_geb (window_rate (w_metrics w')) (threshold a) && negb (triggered a)
         then [(id, (Snapshot (w_metrics w')).1, window_rate (w_metrics w'))] else [])
    ∧ w_metrics w'' = Record_ (w_metrics (alert_check id w')) (method r)
                        (routePattern (Some (pattern, url_path r))) (recorded_status ops) (Some d).
Proof.
  intros Hs Hh Ha. destruct (@observed_middleware Ctx L addr id th w0) as (s1 & w1 & E & Hr & _).
  rewrite Hs in E. injection E as -> -> ->. exists (mkRouter ∅ [metrics_mw; alert_mw id]).
  cbn [middleware chain fold_right]. unfold metrics_mw, alert_mw. destruct (read_clock w) as [start wc] eqn:Ec.
  cbn [snd] in Hh. rewrite Hh. destruct (read_clock (alert_check id w')) as [now wn] eqn:En.
  assert (w_fired wn = w_fired (alert_check id w') ∧ w_metrics wn = w_metrics (alert_check id w')) as [Hf Hm].
  { unfold read_clock in En. destruct (w_clock _); injection En as <- <-; done. }
  do 2 eexists. split; [done|]. split; [done|]. cbn [w_fired w_metrics set_metrics]. split; [|by rewrite Hm].
  rewrite Hf, (alert_check_fired id w' a Ha). f_equal.
  assert ((alert_step a (window_rate (w_metrics w'))).1
          = f64_geb (window_rate (w_metrics w')) (threshold a) && negb (triggered a)) as ->; [|done].
  unfold alert_step. destruct (_ && _); [done|]. by destruct (f64_ltb _ _).
Qed.
End Alerts.

(** ** Readiness *)

Section Readiness.
Context {U Ctx : Type}.

(** The checks that are not nil. *)
Definition present (checks : list (option (HealthCheck (U:=U) (Ctx:=Ctx)))) : list (HealthCheck (U:=U) (Ctx:=Ctx)) :=
  omap id checks.
(** Each check passes, in order; the state they leave. *)
Fixpoint all_pass (ctx : Ctx) (checks : list (HealthCheck (U:=U) (Ctx:=Ctx))) (u u' : U) : Prop :=
  match checks with
  | [] => u' = u
  | c :: checks => ∃ u1, c ctx u = (u1, None) ∧ all_pass ctx checks u1 u'
  end.

Lemma run_checks_spec ctx checks u u' r :
  run_checks ctx checks u = (u', r) ↔
  match r with
  | None => all_pass ctx (present checks) u u'
  | Some e => ∃ pre c post u1, present checks = pre ++ c :: post ∧ all_pass ctx pre u u1 ∧ c ctx u1 = (u', Some e)
  end.
Proof.
  revert u. induction checks as [|[c|] checks IH]; intros u; cbn [run_checks].
  - destruct r as [e|]; cbn; [|naive_solver]. split; [done|]. by intros ([] & ? & ? & ? & ? & _).
  - change (present (Some c :: checks)) with (c :: present checks).
    destruct (c ctx u) as [u1 [e|]] eqn:Ec.
    + split.
      * intros [= <- <-]. by exists [], c, (present checks), u.
      * destruct r as [e'|]; [|cbn; rewrite Ec; naive_solver].
        intros ([|c' pre] & c2 & post & u2 & [= -> E] & Hp & Hc); cbn in Hp; [subst u2; congruence|].
        rewrite Ec in Hp. naive_solver.
    + rewrite IH. destruct r as [e|]; cbn; rewrite ?Ec; [|naive_solver]. split.
      * intros (pre & c2 & post & u2 & -> & Hp & Hc). exists (c :: pre), c2, post, u2. cbn. rewrite Ec. naive_solver.
      * intros ([|c' pre] & c2 & post & u2 & [= -> E] & Hp & Hc); cbn in Hp; [subst u2; congruence|].
        rewrite Ec in Hp. destruct Hp as (u3 & [= <-] & Hp). by exists pre, c2, post, u2.
  - apply IH.
Qed.

(** Readiness answers 200 exactly when every check given passes, in order;
    otherwise 503 with the error of the first check that fails, and no later
    check runs. *)
Theorem readiness_exact json_status request_ctx with_timeout timeout checks pattern r (w : world U) ops w' :
  readiness json_status request_ctx with_timeout timeout checks pattern r w = (ops, w') →
  let ctx := with_timeout (request_ctx r) timeout in
  let resp := respond ops in
  (status resp = 200%Z ∧ sent resp = json_status "ok" None
   ∧ all_pass ctx (present checks) (w_user w) (w_user w'))
  ∨ (status resp = 503%Z ∧ ∃ e pre c post u,
       sent resp = json_status "unavailable" (Some e)
       ∧ present checks = pre ++ c :: post ∧ all_pass ctx pre (w_user w) u ∧ c ctx u = (w_user w', Some e)).
Proof.
  unfold readiness. destruct (run_checks _ checks (w_user w)) as [u err] eqn:E. apply run_checks_spec in E.
  intros [= <- <-]. destruct err as [e|]; cbn [w_user set_user]; [right|left].
  - split; [done|]. destruct E as (pre & c & post & u1 & ? & ? & ?).
    exists e, pre, c, post, u1. by split.
  - split; [done|]. by split.
Qed.

(** ** Shutdown *)

Lemma run_hooks_checks ctx (hooks : list (hook (U:=U) (Ctx:=Ctx))) u :
  run_hooks ctx hooks u = run_checks ctx (Some <$> hooks) u.
Proof. revert u. induction hooks as [|f hooks IH]; intros u; cbn; [done|]. destruct (f ctx u) as [? []]; [done|apply IH]. Qed.
Lemma present_Some hooks : present (Some <$> hooks) = hooks.
Proof. unfold present. induction hooks; cbn; [done|]. by f_equal. Qed.

End Readiness.

(** ** Listening *)

Lemma listener_consumed {U Ctx L} (s : Server U Ctx L) net reuse ln :
  http_server s = true → injectedListener s = Some ln →
  let '(s', r) := listen net reuse s in
  r = Ok ln ∧ (listen net reuse s').2 = if reusePort s then reuse (Addr s) else net (Addr s).
Proof.
  intros Hh Hi. unfold listen. rewrite Hh, Hi. cbn [negb]. split; [done|]. cbn. by rewrite Hh.
Qed.

(** ** Witnesses *)

Definition say (text : string) : Handler nat := λ _ _ w, ([OpWrite text], w).
Definition idle_world : world nat := World (Some NewMetrics) ∅ [] [] [] 0.
Definition demo_server : option (Server nat unit unit) * gmap string (list routeSegment) * world nat :=
  server_Get (Some (NewServer ""), ∅, idle_world) "/api/status" (Some (say "status")).
Definition mounted_server := Mount demo_server "/api/" (Some (say "api")).
Definition server_of (x : option (Server nat unit unit) * gmap string (list routeSegment) * world nat) : Server nat unit unit :=
  default (NewServer "") x.1.1.
Definition router_of x : Router (Handler nat) := default NewRouter (router (server_of x)).
Definition get_table : gmap string (routeEntry (Handler nat)) := default ∅ (routes (router_of mounted_server) !! "GET").


Definition fail_500 : Handler nat := λ _ _ w, ([OpWriteHeader 500], w).
Definition half : float64 := f64_lit 1 2.
Definition alerting := @observed_server nat unit unit ":80" 0 half idle_world.
(** The first request fails and nothing fires; the next one, a success, fires. *)
Lemma alert_lags_one_request_witness :
  ∃ rt w1 w2 d, router (default (NewServer "") alerting.1.1) = Some rt
    ∧ chain (middleware rt) fail_500 "/x" (Request "GET" "" "" "/x" "" ∅ "" ∅ None) alerting.2 = ([OpWriteHeader 500], w1)
    ∧ w_fired w1 = []
    ∧ chain (middleware rt) (say "ok") "/x" (Request "GET" "" "" "/x" "" ∅ "" ∅ None) w1 = ([OpWrite "ok"], w2)
    ∧ length (w_fired w2) = 1
    ∧ w_metrics w1 = Record_ (w_metrics (alert_check 0 alerting.2)) "GET" "/x" 500 (Some d).
Proof.
  destruct (@alert_lags_one_request nat unit unit ":80" 0 half idle_world (default (NewServer "") alerting.1.1) ∅ alerting.2
    fail_500 "/x" (Request "GET" "" "" "/x" "" ∅ "" ∅ None) alerting.2 [OpWriteHeader 500] alerting.2
    (AlertThreshold half false) eq_refl eq_refl eq_refl) as (rt & w1 & d & Hr & Hc & Hf & Hm).
  assert (Some (mkRouter ∅ [metrics_mw; alert_mw 0]) = Some rt) as [= <-] by (rewrite <- Hr; reflexivity).
  eexists _, w1, _, d. split; [exact Hr|]. split; [exact Hc|]. split; [rewrite Hf; by vm_compute|].
  split; [vm_compute in Hc; injection Hc as <-; by vm_compute|].
  split; [vm_compute in Hc; injection Hc as <-; by vm_compute|exact Hm].
Defined.

Definition ok_check : HealthCheck (U:=nat) (Ctx:=unit) := λ _ u, (S u, None).
Definition bad_check : HealthCheck (U:=nat) (Ctx:=unit) := λ _ u, (S u, Some "db down").
Definition demo_json (s : string) (e : option string) : string := s +:+ default "" e.
Lemma readiness_exact_witness :
  let '(ops, w') := readiness demo_json (λ _, ()) (λ c _, c) 5 [Some ok_check; None; Some bad_check; Some ok_check]
    "/health/ready" (Request "GET" "" "" "/health/ready" "" ∅ "" ∅ None) idle_world in
  status (respond ops) = 503%Z ∧ w_user w' = 2
  ∧ ∃ e, sent (respond ops) = demo_json "unavailable" (Some e).
Proof.
  set (res := readiness _ _ _ _ _ _ _ _). destruct res as [ops w'] eqn:E.
  destruct (readiness_exact demo_json (λ _, ()) (λ c _, c) 5 [Some ok_check; None; Some bad_check; Some ok_check]
    "/health/ready" (Request "GET" "" "" "/health/ready" "" ∅ "" ∅ None) idle_world ops w' E)
    as [(H & _)|(H & e & _ & _ & _ & _ & Hs & _)].
  - exfalso. injection E as <- <-. discriminate H.
  - split; [exact H|]. split; [by injection E as <- <-|]. by exists e.
Defined.

Definition closing_server : Server nat unit unit :=
  server_of (OnShutdown (OnShutdown (Some (NewServer ""), ∅, idle_world) (Some ok_check)) (Some bad_check)).
