(* ===== verification/Secrets.v ===== *)
(** * Secrets

    Models src/pkg/runtime/secrets.go: the sources a [SecretResolver] asks in
    turn, the environment source, and the [RequireSecret] middleware, which puts
    a secret into the request context.  The environment is an argument. *)

From stdpp Require Import strings.
From S2P Require Import Prelude GoStrings Http.

Definition SecretSource : Type := string → result string.
(** A source may be nil. *)
Record SecretResolver := MkResolver { sources : list (option SecretSource) }.

Definition EnvironmentSecretSource (lookup_env : string → option string) : SecretSource := λ name,
  let key := trim_space name in
  fail_if String.eqb key "" with "secret name is empty";
  match lookup_env key with
  | Some value =>
      if String.eqb (trim_space value) "" then Err ("secret " +:+ quote key +:+ " not found") else Ok value
  | None => Err ("secret " +:+ quote key +:+ " not found")
  end.

Definition NewSecretResolver (lookup_env : string → option string) (ss : list (option SecretSource)) : SecretResolver :=
  match ss with
  | [] => MkResolver [Some (EnvironmentSecretSource lookup_env)]
  | _ => MkResolver ss
  end.

Fixpoint ask (ss : list (option SecretSource)) (name : string) : result string :=
  match ss with
  | [] => Err ("secret " +:+ quote (trim_space name) +:+ " not found")
  | None :: ss => ask ss name
  | Some source :: ss =>
      match source name with
      | Ok value => if String.eqb (trim_space value) "" then ask ss name else Ok value
      | Err _ => ask ss name
      end
  end.
Definition resolver_get (r : option SecretResolver) (name : string) : result string :=
  match r with
  | None => Err "secret resolver is nil"
  | Some r => ask (sources r) name
  end.

(** The context value under [secretContextKey]; [None] when it is not set. *)
Abbreviation secret_context := (option (gmap string string)).
Definition ContextSecret (ctx : option secret_context) (name : string) : string :=
  match ctx with
  | Some (Some values) => default "" (values !! name)
  | _ => ""
  end.

(** The middleware answers, or calls the next handler with a new context. *)
Inductive secret_gate :=
  | Answered (ops : list writer_op)
  | Forwarded (ctx : secret_context).
Definition RequireSecret (resolver : option SecretResolver) (name : string) (ctx : secret_context) : secret_gate :=
  match resolver with
  | None => Answered (http_error "server misconfiguration: secret resolver not configured" 500)
  | Some _ =>
      match resolver_get resolver name with
      | Err _ => Answered (http_error "server misconfiguration: secret unavailable" 500)
      | Ok secret =>
          (* [for k, v := range existing { values[k] = v }] *)
          Forwarded (Some (default ∅ ctx ∪ {[ name := secret ]}))
      end
  end.

(** A source that gives a usable secret. *)
Definition gives (name value : string) (s : option SecretSource) : Prop :=
  ∃ f, s = Some f ∧ f name = Ok value ∧ trim_space value ≠ "".

Lemma ask_spec ss name :
  match ask ss name with
  | Ok value => ∃ pre s post, ss = pre ++ s :: post ∧ gives name value s ∧ ∀ s', s' ∈ pre → ∀ v, ¬ gives name v s'
  | Err _ => ∀ s', s' ∈ ss → ∀ v, ¬ gives name v s'
  end.
Proof.
  induction ss as [|s ss IH]; cbn [ask]; [by intros s' ?%not_elem_of_nil|].
  assert ((∀ v, ¬ gives name v s) → match ask ss name with
    | Ok value => ∃ pre x post, s :: ss = pre ++ x :: post ∧ gives name value x ∧ ∀ s', s' ∈ pre → ∀ v, ¬ gives name v s'
    | Err _ => ∀ s', s' ∈ s :: ss → ∀ v, ¬ gives name v s'
    end) as Hskip.
  { intros Hs. destruct (ask ss name).
    - destruct IH as (pre & x & post & -> & Hx & Hpre). exists (s :: pre), x, post. split_and!; [done|done|].
      intros s' [->|?]%elem_of_cons; [done|auto].
    - intros s' [->|?]%elem_of_cons; [done|auto]. }
  destruct s as [f|]; [|apply Hskip; by intros v (f & ? & _)].
  destruct (f name) as [value|e] eqn:Ef.
  - destruct (String.eqb_spec (trim_space value) "") as [Eb|Hb].
    + apply Hskip. intros v (g & [= <-] & Hg & Hv). congruence.
    + exists [], (Some f), ss. split_and!; [done|by exists f|]. by intros s' ?%not_elem_of_nil.
  - apply Hskip. intros v (g & [= <-] & Hg & Hv). congruence.
Qed.

(** The next handler runs exactly when some source of the resolver gives a
    secret that is not blank; the request then carries the first such secret
    under its name next to the secrets it carried before, and otherwise the
    client gets a 500 that names no secret. *)
Theorem require_secret_exact r name ctx :
  match RequireSecret (Some r) name ctx with
  | Answered ops => status (respond ops) = 500%Z ∧ ∀ s v, s ∈ sources r → ¬ gives name v s
  | Forwarded ctx' => ∃ value pre s post,
      sources r = pre ++ s :: post ∧ gives name value s ∧ (∀ s', s' ∈ pre → ∀ v, ¬ gives name v s')
      ∧ (default ∅ ctx !! name = None → ContextSecret (Some ctx') name = value)
      ∧ ∀ k, k ≠ name → ContextSecret (Some ctx') k = ContextSecret (Some ctx) k
  end.
Proof.
  cbn [RequireSecret resolver_get]. pose proof (ask_spec (sources r) name) as Hs.
  destruct (ask (sources r) name) as [value|e].
  - destruct Hs as (pre & s & post & E & Hg & Hp). exists value, pre, s, post. split_and!; [done..| |].
    + intros Hn. cbn. by rewrite lookup_union_r, lookup_singleton_eq.
    + intros k Hk. cbn. rewrite lookup_union, lookup_singleton_ne by done. rewrite (right_id_L None _).
      destruct ctx; [done|]. cbn. by rewrite lookup_empty.
  - split; [done|]. intros s v Hin. by apply Hs.
Qed.

(** When a request already carries a secret of that name, the value just resolved
    is dropped for the older one. *)
Theorem carried_secret_wins r name ctx old value :
  resolver_get (Some r) name = Ok value → ctx !! name = Some old →
  ∃ ctx', RequireSecret (Some r) name (Some ctx) = Forwarded ctx' ∧ ContextSecret (Some ctx') name = old.
Proof.
  intros Hv Ho. unfold RequireSecret. rewrite Hv. eexists. split; [done|]. cbn.
  by erewrite lookup_union_Some_l.
Qed.
Lemma carried_secret_wins_witness :
  ∃ ctx', RequireSecret (Some (NewSecretResolver (λ _, Some "rotated") [])) "db" (Some {[ "db" := "stale" ]})
          = Forwarded ctx' ∧ ContextSecret (Some ctx') "db" = "stale".
Proof.
  apply (carried_secret_wins (NewSecretResolver (λ _, Some "rotated") []) "db" {[ "db" := "stale" ]} "stale" "rotated");
    reflexivity.
Defined.
