(* ===== verification/Filepath.v ===== *)
(** * File names

    [filepath.Base], [filepath.Ext] and [filepath.Dir] on Unix, next to the
    functions of [ProjectFs]. *)

From S2P Require Import Prelude GoStrings ProjectFs.

(** From the last dot that no slash follows. *)
Fixpoint Ext (path : string) : string :=
  match path with
  | EmptyString => ""
  | String c r =>
      if String.eqb (Ext r) "" && Ascii.eqb c "." && negb (mem_byte "/" r) then path else Ext r
  end.
Definition name_parts (path : string) : list string :=
  List.filter (λ c, negb (String.eqb c "")) (split path "/").
Definition Base (path : string) : string :=
  if String.eqb path "" then "."
  else default "/" (last (name_parts path)).

Example ext_templ : Ext "views/index.templ" = ".templ".
Proof. reflexivity. Qed.
Example ext_dir : Ext "a.b/Makefile" = "".
Proof. reflexivity. Qed.
Example ext_last : Ext "x.tar.gz" = ".gz".
Proof. reflexivity. Qed.
Example base_slash : Base "views/a.templ//" = "a.templ".
Proof. reflexivity. Qed.
Example base_root : Base "//" = "/".
Proof. reflexivity. Qed.

Lemma Ext_no_dot s : mem_byte "." s = false → Ext s = "".
Proof.
  induction s as [|c s IH]; [done|]. cbn [mem_byte Ext]. intros [Hc Hs]%orb_false_iff. rewrite IH by done.
  rewrite Hc. by rewrite andb_false_r.
Qed.
Lemma Ext_slash s : mem_byte "/" s = true → ∃ t, Ext s = Ext t ∧ mem_byte "/" t = false.
Proof.
  induction s as [|c s IH]; [done|]. cbn [mem_byte Ext]. intros Hs. destruct (mem_byte "/" s) eqn:E.
  - rewrite andb_false_r. by apply IH.
  - exists s. split; [|done]. rewrite orb_false_r in Hs. apply Ascii.eqb_eq in Hs as ->. by rewrite andb_false_r.
Qed.
(** The extension is that of the last component. *)
Lemma Ext_dir d n : mem_byte "/" n = false → Ext (d +:+ String "/" n) = Ext n.
Proof.
  intros Hn. induction d as [|c d IH].
  - rewrite str_app_nil_l. cbn [Ext]. by rewrite andb_false_r.
  - rewrite str_app_cons. cbn [Ext]. rewrite IH. replace (mem_byte "/" (d +:+ String "/" n)) with true.
    + by rewrite andb_false_r.
    + rewrite mem_byte_app. cbn. by rewrite orb_true_r.
Qed.
Lemma Ext_name stem ext :
  mem_byte "." ext = false → mem_byte "/" ext = false → Ext (stem +:+ String "." ext) = String "." ext.
Proof.
  intros Hd Hs. induction stem as [|c stem IH].
  - rewrite str_app_nil_l. cbn [Ext]. by rewrite Ext_no_dot, Hs.
  - rewrite str_app_cons. cbn [Ext]. by rewrite IH.
Qed.
