(* ===== verification/DevFiles.v ===== *)
(** * What the development watcher looks at

    Models the functions of src/examples/webapp-demo/cmd/dev/main.go (the watcher
    that every generated project gets) that decide which files matter, what has
    changed between two snapshots, and which part of a page a change concerns. *)

From S2P Require Import Prelude GoStrings Unicode ProjectFs Filepath.

(** ** Names *)

Definition skipDirs : list string := ["bin"; "tmp"; ".git"; "vendor"; "node_modules"].
Definition watchExts : list string := [".go"; ".templ"; ".html"; ".tpl"; ".css"; ".js"; ".fbs"].
Definition in_set (l : list string) (s : string) : bool := existsb (String.eqb s) l.

Definition isGenerated (clean : string) : bool :=
  has_suffix clean "_templ.go" || has_suffix clean "manifest_gen.go" || contains clean "schemas/generated".
Definition isStaticAsset (path : string) : bool := in_set [".css"; ".js"; ".html"] (Ext path).
Definition needs_generate (path : string) : bool :=
  String.eqb (Ext path) ".fbs" || String.eqb (Ext path) ".templ" || isStaticAsset path.

Definition mergeChangeSource (current next : string) (hasCurrent : bool) : string :=
  if negb hasCurrent || isStaticAsset next || negb (isStaticAsset current) then next else current.

(** An fsnotify operation is a bit set; [mask] is Write|Create|Rename|Remove and
    [is_dir_now] the outcome of [os.Stat] on a path. *)
Section Events.
Context (mask : Z) (is_dir_now : string → bool).
Definition shouldHandle (name : string) (op : Z) : bool :=
  if String.eqb name "" || (op =? 0)%Z then false
  else if (Z.land op mask =? 0)%Z then false
  else
    let clean := Clean name in
    let base := Base clean in
    if has_prefix base "." || has_prefix base "#" then false
    else if has_suffix base ".swp" || has_suffix base "~" then false
    else if isGenerated clean then false
    else if negb (in_set watchExts (Ext clean)) then is_dir_now clean
    else true.
End Events.

(** ** Snapshots *)

Record fileStamp := mkStamp { modUnixNano : Z; size : Z }.
#[export] Instance fileStamp_eq_dec : EqDecision fileStamp.
Proof. solve_decision. Defined.

(** What [filepath.Walk] meets below the project root. *)
Inductive entry :=
  | EFile (stamp : fileStamp)
  | EDir (children : list (string * entry)).

Definition hidden (base : string) : bool := has_prefix base "." || in_set skipDirs base.
Definition watched (clean : string) : bool := in_set watchExts (Ext clean) && negb (isGenerated clean).
(** [rel] holds the components below the root; the root itself is never hidden. *)
Fixpoint walk (rel : list string) (e : entry) : list (string * fileStamp) :=
  if match last rel with Some base => hidden base | None => false end then []
  else match e with
       | EFile st => let clean := join rel "/" in if watched clean then [(clean, st)] else []
       | EDir children => concat ((λ c, walk (rel ++ [c.1]) c.2) <$> children)
       end.
Definition snapshotWatchedFiles (root : entry) : gmap string fileStamp := list_to_map (walk [] root).

(** The outcome of [os.Stat] on a changed path. *)
Inductive stat_outcome := Gone | Unreadable (e : error) | Found (regular : bool) (stamp : fileStamp).
Definition updateWatchedSnapshot (snapshot : gmap string fileStamp) (path : string) (o : stat_outcome)
    : gmap string fileStamp * option error :=
  let clean := Clean path in
  match o with
  | Gone => (delete clean snapshot, None)
  | Unreadable e => (snapshot, Some e)
  | Found regular stamp =>
      if negb regular || negb (in_set watchExts (Ext clean)) || isGenerated clean then (snapshot, None)
      else (<[clean := stamp]> snapshot, None)
  end.

(** [changed[0], changed[i] = changed[i], changed[0]] for the first asset [i]. *)
Fixpoint first_static (l : list string) : option nat :=
  match l with
  | [] => None
  | p :: l => if isStaticAsset p then Some 0 else S <$> first_static l
  end.
Definition static_first (l : list string) : list string :=
  match first_static l, l with
  | Some (S i), p :: rest => match rest !! i with
                             | Some q => q :: <[i := p]> rest
                             | None => l
                             end
  | _, _ => l
  end.
(** Iteration order does not matter: the paths are sorted. *)
Definition differs (other : gmap string fileStamp) (kv : string * fileStamp) : bool :=
  negb (bool_decide (other !! kv.1 = Some kv.2)).
Definition changed_paths (prev curr : gmap string fileStamp) : list string :=
  (List.filter (differs prev) (map_to_list curr)).*1
  ++ List.filter (λ p, negb (bool_decide (is_Some (curr !! p)))) (map_to_list prev).*1.
Definition detectSnapshotChanges (prev curr : gmap string fileStamp) : list string * bool :=
  let changed := changed_paths prev curr in
  (static_first (sort_strings changed), existsb needs_generate changed).

(** ** Fragments *)

Definition routeForView (sourcePath : string) : option string :=
  let clean := Clean sourcePath in
  if negb (has_prefix clean "views/") || negb (has_suffix clean ".templ") then None
  else
    let name := trim_suffix (trim_prefix clean "views/") ".templ" in
    if String.eqb name "layout" || mem_byte "/" name then None
    else if String.eqb name "index" then Some "/" else Some ("/" +:+ name).

Definition fragmentContainerID : string := "id=" +:+ dquote +:+ "fgoths-content" +:+ dquote.
Definition open_div : string := "<div".
Definition close_div : string := "</div>".

(** The loop over the tags: the position after the tag that closes the first
    [depth] ones.  Every round moves [pos] forward, so the length of the page
    bounds the rounds. *)
Fixpoint close_at (fuel : nat) (html : string) (pos depth : nat) : option nat :=
  match depth with
  | 0 => Some pos
  | S d =>
      match fuel with
      | 0 => None
      | S fuel =>
          let rest := str_drop pos html in
          match index rest close_div with
          | None => None
          | Some nextClose =>
              match index rest open_div with
              | Some nextOpen =>
                  if nextOpen <? nextClose
                  then close_at fuel html (pos + nextOpen + String.length open_div) (S depth)
                  else close_at fuel html (pos + nextClose + String.length close_div) d
              | None => close_at fuel html (pos + nextClose + String.length close_div) d
              end
          end
      end
  end.
Definition slice (html : string) (i j : nat) : string := str_take (j - i) (str_drop i html).
Definition extractFragment (html : string) : option string :=
  match index html fragmentContainerID with
  | None => None
  | Some idx =>
      match last_index (str_take idx html) "<" with
      | None => None
      | Some tagStart =>
          match index (str_drop tagStart html) ">" with
          | None => None
          | Some tagEnd =>
              let contentStart := tagStart + tagEnd + 1 in
              match close_at (S (String.length html)) html contentStart 1 with
              | None => None
              | Some pos => Some (slice html contentStart (pos - String.length close_div))
              end
          end
      end
  end.

Definition page (body : string) : string :=
  "<html><body class=x><div class=a " +:+ fragmentContainerID +:+ " role=main>" +:+ body +:+ "</div></body></html>".
Example fragment_nested : extractFragment (page "<p>hi</p><div><div>x</div></div>!") = Some "<p>hi</p><div><div>x</div></div>!".
Proof. vm_compute. reflexivity. Qed.
Example fragment_open : extractFragment (page "<div>") = None.
Proof. vm_compute. reflexivity. Qed.

(** ** The fragment is the inner HTML

    Well-formed HTML as far as the scan is concerned: text without tags, tags
    whose name does not begin like that of a division, and divisions. *)

Inductive piece :=
  | Plain (s : string)
  | Tag (s : string)
  | Div (attrs : string) (body : list piece).
Fixpoint render_piece (p : piece) : string :=
  match p with
  | Plain s => s
  | Tag s => "<" +:+ s +:+ ">"
  | Div attrs body => open_div +:+ attrs +:+ ">" +:+ foldr (λ p out, render_piece p +:+ out) "" body +:+ close_div
  end.
Definition render_pieces (ps : list piece) : string := foldr (λ p out, render_piece p +:+ out) "" ps.
Fixpoint piece_ok (p : piece) : bool :=
  match p with
  | Plain s => negb (mem_byte "<" s)
  | Tag s => negb (mem_byte "<" s) && negb (mem_byte ">" s) && negb (has_prefix s "div") && negb (String.eqb s "/div")
  | Div attrs body => negb (mem_byte "<" attrs) && forallb piece_ok body
  end.
(** Rounds of the scan. *)
Fixpoint rounds (p : piece) : nat :=
  match p with
  | Div _ body => 2 + foldr (λ p n, rounds p + n) 0 body
  | _ => 0
  end.
Definition rounds_all (ps : list piece) : nat := foldr (λ p n, rounds p + n) 0 ps.

(** No division tag starts inside [t], followed by [r]. *)
Definition no_div (s : string) : Prop := has_prefix s open_div = false ∧ has_prefix s close_div = false.
Fixpoint skippable (t r : string) : Prop :=
  match t with
  | EmptyString => True
  | String _ t' => no_div (t +:+ r) ∧ skippable t' r
  end.
Lemma skippable_app t t' r : skippable t (t' +:+ r) → skippable t' r → skippable (t +:+ t') r.
Proof.
  intros Ht Ht'. induction t as [|c t IH]; [done|]. destruct Ht as [Hc Ht]. rewrite str_app_cons. cbn [skippable].
  split; [|by apply IH]. by rewrite <- str_app_cons, <- str_app_assoc.
Qed.
Lemma no_div_other c s : c ≠ "<"%char → no_div (String c s).
Proof.
  intros Hc. split; apply not_true_iff_false; intros [r E]%has_prefix_spec; injection E as -> _; done.
Qed.
Lemma skippable_text s r : mem_byte "<" s = false → skippable s r.
Proof.
  induction s as [|c s IH]; [done|]. cbn [mem_byte skippable]. intros [Hc Hs]%orb_false_iff.
  split; [|by apply IH]. rewrite str_app_cons. apply no_div_other. by apply Ascii.eqb_neq.
Qed.
Lemma skippable_tag s r :
  mem_byte "<" s = false → mem_byte ">" s = false → has_prefix s "div" = false → s ≠ "/div" →
  skippable ("<" +:+ s +:+ ">") r.
Proof.
  intros Hs Hg Hd Hc. change ("<" +:+ s +:+ ">") with (String "<" (s +:+ ">")). cbn [skippable]. split.
  - rewrite str_app_cons, <- str_app_assoc. split; apply not_true_iff_false; intros [r' E]%has_prefix_spec; injection E as E.
    + destruct s as [|c1 [|c2 [|c3 s]]]; rewrite ?str_app_cons, ?str_app_nil_l in E; injection E; intros; subst; try done.
    + destruct s as [|c1 [|c2 [|c3 [|c4 [|c5 s]]]]]; rewrite ?str_app_cons, ?str_app_nil_l in E; injection E; intros; subst; try done.
  - apply skippable_text. by rewrite mem_byte_app, Hs.
Qed.

(** Skipped text shifts the index of the next tag. *)
Lemma index_skip t r sub :
  (∀ u, no_div u → has_prefix u sub = false) → skippable t r → index (t +:+ r) sub = (λ i, String.length t + i) <$> index r sub.
Proof.
  intros Hsub. induction t as [|c t IH]; intros Ht.
  - rewrite str_app_nil_l. cbn [String.length]. destruct (index r sub); [|done]. done.
  - destruct Ht as [Hc Ht]. rewrite str_app_cons in *. cbn [index]. rewrite (Hsub _ Hc), (IH Ht). by destruct (index r sub).
Qed.
Lemma close_skip fuel u t r d :
  skippable t r →
  close_at (S fuel) (u +:+ t +:+ r) (String.length u) (S d)
  = close_at (S fuel) (u +:+ t +:+ r) (String.length u + String.length t) (S d).
Proof.
  intros Ht. cbn [close_at]. rewrite str_drop_app.
  replace (str_drop (String.length u + String.length t) (u +:+ t +:+ r)) with r.
  2: { rewrite str_app_assoc, <- str_length_app. by rewrite str_drop_app. }
  rewrite !(index_skip t r) by (done || by intros ? []).
  destruct (index r close_div) as [k|]; [|done]. cbn [fmap option_fmap option_map].
  destruct (index r open_div) as [o|]; cbn [fmap option_fmap option_map].
  - replace (String.length t + o <? String.length t + k) with (o <? k).
    + by rewrite !Nat.add_assoc.
    + destruct (Nat.ltb_spec o k), (Nat.ltb_spec (String.length t + o) (String.length t + k)); lia || done.
  - by rewrite Nat.add_assoc.
Qed.
Lemma close_skip_at fuel html u t r d pos :
  html = u +:+ t +:+ r → pos = String.length u → skippable t r →
  close_at (S fuel) html pos (S d) = close_at (S fuel) html (pos + String.length t) (S d).
Proof. intros -> ->. apply close_skip. Qed.

Lemma contains_index s sub : contains s sub = true → ∃ i, index s sub = Some i.
Proof. unfold contains. destruct (index s sub) as [i|]; [by exists i | done]. Qed.
Lemma contains_prefixed t s sub : contains s sub = true → contains (t +:+ s) sub = true.
Proof.
  intros [i Hi]%contains_index. apply index_Some in Hi as [_ ->]. rewrite str_app_assoc. apply contains_app.
Qed.
Lemma index_here p r : index (p +:+ r) p = Some 0.
Proof. pose proof (has_prefix_app p r) as H. destruct (p +:+ r) eqn:E; cbn [index]; by rewrite H. Qed.
(** The rounds at an opening and at a closing tag. *)
Lemma close_at_open fuel html u r d pos :
  html = u +:+ open_div +:+ r → pos = String.length u → contains r close_div = true →
  close_at (S fuel) html pos (S d) = close_at fuel html (pos + String.length open_div) (S (S d)).
Proof.
  intros -> -> Hr. cbn [close_at]. rewrite str_drop_app.
  destruct (contains_index _ _ (contains_prefixed open_div r close_div Hr)) as [k Hk]. rewrite Hk.
  rewrite index_here.
  destruct k as [|k]; [|by rewrite Nat.add_0_r]. exfalso. apply index_Some in Hk as [_ Hk]. cbn in Hk. discriminate.
Qed.
Lemma close_at_close fuel html u r d pos :
  html = u +:+ close_div +:+ r → pos = String.length u →
  close_at (S fuel) html pos (S d) = close_at fuel html (pos + String.length close_div) d.
Proof.
  intros -> ->. cbn [close_at]. rewrite str_drop_app.
  rewrite index_here.
  rewrite Nat.add_0_r. by destruct (index (close_div +:+ r) open_div).
Qed.

Definition passes (s : string) (n : nat) : Prop := ∀ fuel html u tail d pos,
  html = u +:+ s +:+ tail → pos = String.length u → contains tail close_div = true →
  close_at (n + S fuel) html pos (S d) = close_at (S fuel) html (pos + String.length s) (S d).
Lemma passes_nil : passes "" 0.
Proof. intros fuel html u tail d pos _ _ _. by rewrite Nat.add_0_r. Qed.
Lemma passes_app s n s' n' : passes s n → passes s' n' → passes (s +:+ s') (n + n').
Proof.
  intros Hs Hs' fuel html u tail d pos Hh Hp Ht.
  replace (n + n' + S fuel) with (n + S (n' + fuel)) by lia.
  rewrite (Hs (n' + fuel) html u (s' +:+ tail) d pos); [|by rewrite Hh, <- str_app_assoc|done|by apply contains_prefixed].
  replace (S (n' + fuel)) with (n' + S fuel) by lia.
  rewrite (Hs' fuel html (u +:+ s) tail d (pos + String.length s)); [|by rewrite Hh, <- !str_app_assoc|by rewrite str_length_app, Hp|done].
  by rewrite str_length_app, Nat.add_assoc.
Qed.
Lemma passes_skippable s : (∀ r, skippable s r) → passes s 0.
Proof. intros Hs fuel html u tail d pos Hh Hp _. cbn [Nat.add]. by eapply close_skip_at. Qed.
Lemma passes_div attrs body n :
  mem_byte "<" attrs = false → passes body n → passes (open_div +:+ attrs +:+ ">" +:+ body +:+ close_div) (2 + n).
Proof.
  intros Ha Hb fuel html u tail d pos Hh Hp Ht. rewrite <- !str_app_assoc in Hh.
  replace (2 + n + S fuel) with (S (n + S (S fuel))) by lia.
  rewrite (close_at_open _ html u (attrs +:+ ">" +:+ body +:+ close_div +:+ tail)); [|done..|].
  2: { do 3 apply contains_prefixed. pose proof (contains_app "" close_div tail) as H. by rewrite str_app_nil_l in H. }
  assert (passes (attrs +:+ ">") 0) as Hattrs.
  { apply passes_skippable. intros r. apply skippable_text. by rewrite mem_byte_app, Ha. }
  pose proof (passes_app _ _ _ _ Hattrs Hb) as Hall. cbn [Nat.add] in Hall.
  rewrite (Hall (S fuel) html (u +:+ open_div) (close_div +:+ tail)).
  - erewrite (close_at_close _ html (u +:+ open_div +:+ (attrs +:+ ">") +:+ body)); [| |].
    + rewrite !str_length_app. f_equal. lia.
    + rewrite Hh. by rewrite <- !str_app_assoc.
    + rewrite !str_length_app, Hp. lia.
  - rewrite Hh. by rewrite <- !str_app_assoc.
  - by rewrite str_length_app, Hp.
  - pose proof (contains_app "" close_div tail) as H. by rewrite str_app_nil_l in H.
Qed.
Lemma passes_all ps : Forall (λ p, passes (render_piece p) (rounds p)) ps → passes (render_pieces ps) (rounds_all ps).
Proof.
  induction 1 as [|p ps Hp _ IH]; [apply passes_nil|]. cbn [render_pieces rounds_all foldr].
  by apply passes_app.
Qed.
Fixpoint passes_piece (p : piece) : piece_ok p = true → passes (render_piece p) (rounds p).
Proof.
  destruct p as [s|s|attrs body]; cbn [piece_ok].
  - intros Hs%negb_true_iff. apply passes_skippable. intros r. by apply skippable_text.
  - intros [[[Hs Hg]%andb_true_iff Hd]%andb_true_iff Hc]%andb_true_iff. apply passes_skippable. intros r.
    apply skippable_tag; try by apply negb_true_iff. by apply String.eqb_neq, negb_true_iff.
  - intros [Ha Hb]%andb_true_iff. apply negb_true_iff in Ha. cbn [render_piece rounds].
    apply passes_div; [done|]. apply (passes_all body).
    clear -passes_piece Hb. induction body as [|p body IH]; [constructor|]. cbn [forallb] in Hb.
    apply andb_true_iff in Hb as [Hp Hb]. constructor; [by apply passes_piece | by apply IH].
Qed.
Lemma passes_pieces ps : forallb piece_ok ps = true → passes (render_pieces ps) (rounds_all ps).
Proof.
  intros Hps. apply passes_all. apply Forall_forall. intros p Hp. apply passes_piece.
  rewrite forallb_forall in Hps. by apply Hps, list_elem_of_In.
Qed.

Lemma rounds_le_all ps : Forall (λ p, rounds p ≤ String.length (render_piece p)) ps → rounds_all ps ≤ String.length (render_pieces ps).
Proof. induction 1 as [|p ps Hp _ IH]; [done|]. cbn [rounds_all render_pieces foldr]. rewrite str_length_app. unfold rounds_all, render_pieces in IH. lia. Qed.
Fixpoint rounds_le (p : piece) : rounds p ≤ String.length (render_piece p).
Proof.
  destruct p as [s|s|attrs body]; cbn [rounds render_piece]; [lia..|].
  assert (rounds_all body ≤ String.length (render_pieces body)) as H.
  { apply rounds_le_all. clear -rounds_le. induction body; constructor; [apply rounds_le | done]. }
  unfold rounds_all, render_pieces in H. rewrite !str_length_app. cbn [String.length open_div close_div]. unfold open_div, close_div. cbn [String.length]. lia.
Qed.
Lemma rounds_all_le ps : rounds_all ps ≤ String.length (render_pieces ps).
Proof. apply rounds_le_all, Forall_forall. intros p _. apply rounds_le. Qed.
Lemma close_at_0 fuel html pos : close_at fuel html pos 0 = Some pos.
Proof. by destruct fuel. Qed.

Lemma index_char s c r : mem_byte c s = false → index (s +:+ String c r) (String c "") = Some (String.length s).
Proof.
  induction s as [|d s IH].
  - intros _. rewrite str_app_nil_l. change (String c r) with (String c "" +:+ r). by rewrite index_here.
  - cbn [mem_byte]. intros [Hd Hs]%orb_false_iff. rewrite str_app_cons. cbn [index String.length]. rewrite IH by done.
    replace (has_prefix (String d (s +:+ String c r)) (String c "")) with false; [done|].
    symmetry. apply not_true_iff_false. intros [t E]%has_prefix_spec. injection E as -> _. by rewrite Ascii.eqb_refl in Hd.
Qed.
Lemma last_index_none_char s c : mem_byte c s = false → last_index s (String c "") = None.
Proof.
  induction s as [|d s IH]; [done|]. cbn [mem_byte last_index]. intros [Hd Hs]%orb_false_iff. rewrite IH by done.
  replace (has_prefix (String d s) (String c "")) with false; [done|].
  symmetry. apply not_true_iff_false. intros [t E]%has_prefix_spec. injection E as -> _. by rewrite Ascii.eqb_refl in Hd.
Qed.
Lemma last_index_char s c r : mem_byte c r = false → last_index (s +:+ String c r) (String c "") = Some (String.length s).
Proof.
  intros Hr. induction s as [|d s IH].
  - rewrite str_app_nil_l. cbn [last_index]. rewrite last_index_none_char by done.
    replace (has_prefix (String c r) (String c "")) with true; [done|]. symmetry. apply has_prefix_spec. by exists r.
  - rewrite str_app_cons. cbn [last_index]. by rewrite IH.
Qed.

Definition no_angle (s : string) : bool := negb (mem_byte "<" s) && negb (mem_byte ">" s).
Lemma no_angle_spec s : no_angle s = true → mem_byte "<" s = false ∧ mem_byte ">" s = false.
Proof. by intros [H1%negb_true_iff H2%negb_true_iff]%andb_true_iff. Qed.

(** On a page whose container is the first element with the identifier, the
    fragment is exactly the inner HTML of the container, however deeply divisions
    are nested in it and whatever follows; the scan ends within the length of the
    page. *)
Theorem fragment_extracted pre a1 a2 body post :
  index (pre +:+ open_div +:+ a1 +:+ fragmentContainerID +:+ a2 +:+ ">" +:+ render_pieces body +:+ close_div +:+ post) fragmentContainerID
    = Some (String.length (pre +:+ open_div +:+ a1)) →
  no_angle a1 = true → no_angle a2 = true → forallb piece_ok body = true →
  extractFragment (pre +:+ open_div +:+ a1 +:+ fragmentContainerID +:+ a2 +:+ ">" +:+ render_pieces body +:+ close_div +:+ post)
    = Some (render_pieces body).
Proof.
  set (html := pre +:+ _). intros Hi [Hl1 Hg1]%no_angle_spec [Hl2 Hg2]%no_angle_spec Hok. unfold extractFragment. rewrite Hi.
  set (rest := fragmentContainerID +:+ a2 +:+ ">" +:+ render_pieces body +:+ close_div +:+ post) in *.
  assert (html = (pre +:+ open_div +:+ a1) +:+ rest) as Hh by (unfold html; by rewrite <- !str_app_assoc).
  rewrite Hh at 1. rewrite str_take_app.
  change (pre +:+ open_div +:+ a1) with (pre +:+ String "<" ("div" +:+ a1)). rewrite last_index_char by (rewrite mem_byte_app, Hl1; done).
  replace (str_drop (String.length pre) html) with ((open_div +:+ a1 +:+ fragmentContainerID +:+ a2) +:+ String ">" (render_pieces body +:+ close_div +:+ post)).
  2: { unfold html. rewrite str_drop_app. by rewrite <- !str_app_assoc. }
  rewrite index_char by (rewrite !mem_byte_app, Hg1, Hg2; by vm_compute).
  set (start := String.length pre + _ + 1).
  assert (start = String.length (pre +:+ (open_div +:+ a1 +:+ fragmentContainerID +:+ a2) +:+ ">")) as Hstart.
  { unfold start. rewrite !str_length_app. cbn [String.length]. lia. }
  set (before := pre +:+ (open_div +:+ a1 +:+ fragmentContainerID +:+ a2) +:+ ">") in *.
  assert (html = before +:+ render_pieces body +:+ close_div +:+ post) as Hb by (unfold html, before; by rewrite <- !str_app_assoc).
  assert (rounds_all body < String.length html) as Hr.
  { rewrite Hb, !str_length_app. pose proof (rounds_all_le body). cbn [close_div String.length]. unfold close_div. cbn [String.length]. lia. }
  replace (S (String.length html)) with (rounds_all body + S (String.length html - rounds_all body)) by lia.
  rewrite (passes_pieces body Hok _ _ before (close_div +:+ post)); [|done..|].
  2: { pose proof (contains_app "" close_div post) as H. by rewrite str_app_nil_l in H. }
  rewrite (close_at_close _ html (before +:+ render_pieces body) post); [|by rewrite Hb, <- str_app_assoc|by rewrite str_length_app, Hstart].
  rewrite close_at_0, Nat.add_sub. unfold slice. rewrite Nat.add_comm, Nat.add_sub, Hstart, Hb, str_drop_app, str_take_app. done.
Qed.

(** ** Changes *)

Lemma sorted_static l : ∀ p, p ∈ static_first l ↔ p ∈ l.
Proof.
  intros p. unfold static_first. destruct (first_static l) as [[|i]|]; [done| |done].
  destruct l as [|x rest]; [done|]. destruct (rest !! i) as [q|] eqn:E; [|done].
  rewrite !elem_of_cons. split.
  - intros [->|(j & Hj)%list_elem_of_lookup]; [right; by eapply list_elem_of_lookup_2|].
    apply list_lookup_insert_Some in Hj as [(-> & -> & _)|[_ Hj]]; [by left|right; by eapply list_elem_of_lookup_2].
  - intros [->|(j & Hj)%list_elem_of_lookup].
    + right. apply list_elem_of_lookup. exists i. apply list_lookup_insert_eq. by apply lookup_lt_Some in E.
    + destruct (decide (i = j)) as [->|Hne]; [left; congruence|]. right. apply list_elem_of_lookup. exists j.
      by rewrite list_lookup_insert_ne.
Qed.
Lemma first_static_Some l i : first_static l = Some i → ∃ p, l !! i = Some p ∧ isStaticAsset p = true.
Proof.
  revert i. induction l as [|p l IH]; intros i; [done|]. cbn [first_static]. destruct (isStaticAsset p) eqn:E.
  - intros [= <-]. by exists p.
  - destruct (first_static l) as [j|]; cbn; [|done]. intros [= <-]. cbn. by apply IH.
Qed.
Lemma first_static_None l : first_static l = None → ∀ p, p ∈ l → isStaticAsset p = false.
Proof.
  induction l as [|p l IH]; cbn [first_static]; [set_solver|]. destruct (isStaticAsset p) eqn:E; [done|].
  destruct (first_static l); [done|]. intros _ q [->|Hq]%elem_of_cons; [done|]. by apply IH.
Qed.
Lemma static_first_head l p :
  head (static_first l) = Some p → (isStaticAsset p = true ↔ ∃ q, q ∈ l ∧ isStaticAsset q = true).
Proof.
  intros Hh. split.
  - intros Hp. exists p. split; [|done]. apply sorted_static. destruct (static_first l); [done|]. injection Hh as ->. by left.
  - intros (q & Hq & Hs). unfold static_first in Hh. destruct (first_static l) as [i|] eqn:E.
    + apply first_static_Some in E as (x & Hx & Hxs). destruct i as [|i].
      * destruct l; [done|]. cbn in *. congruence.
      * destruct l as [|y rest]; [done|]. change (rest !! i = Some x) in Hx. rewrite Hx in Hh. cbn in Hh. congruence.
    + by rewrite (first_static_None _ E q Hq) in Hs.
Qed.
Lemma elem_of_filter_bool {A} (f : A → bool) l x : x ∈ List.filter f l ↔ f x = true ∧ x ∈ l.
Proof. rewrite !list_elem_of_In, filter_In. tauto. Qed.
Lemma elem_of_changed prev curr p : p ∈ changed_paths prev curr ↔ prev !! p ≠ curr !! p.
Proof.
  unfold changed_paths. rewrite elem_of_app. split.
  - intros [([p' st] & -> & [Hd Hin]%elem_of_filter_bool)%list_elem_of_fmap|[Hn Hin]%elem_of_filter_bool].
    + apply elem_of_map_to_list in Hin. cbn. unfold differs in Hd. cbn in Hd. rewrite Hin. by apply negb_true_iff, bool_decide_eq_false in Hd.
    + apply list_elem_of_fmap in Hin as ([p' st] & -> & Hin). apply elem_of_map_to_list in Hin. cbn in *. rewrite Hin.
      apply negb_true_iff, bool_decide_eq_false in Hn. intros E. apply Hn. by exists st.
  - intros Hne. destruct (curr !! p) as [st|] eqn:Ec.
    + left. apply list_elem_of_fmap. exists (p, st). split; [done|]. apply elem_of_filter_bool. split.
      * by apply negb_true_iff, bool_decide_eq_false.
      * by apply elem_of_map_to_list.
    + right. destruct (prev !! p) as [st|] eqn:Ep; [|done]. apply elem_of_filter_bool. split.
      * apply negb_true_iff, bool_decide_eq_false. rewrite Ec. by intros [? ?].
      * apply list_elem_of_fmap. exists (p, st). split; [done|]. by apply elem_of_map_to_list.
Qed.
Lemma elem_of_detected prev curr p : p ∈ (detectSnapshotChanges prev curr).1 ↔ prev !! p ≠ curr !! p.
Proof. cbn [detectSnapshotChanges fst]. by rewrite sorted_static, sort_strings_Permutation, elem_of_changed. Qed.

(** A poll reports exactly the paths whose stamps differ, and none exactly
    when the snapshots are equal; the path it acts on is an asset whenever an
    asset is among them, and it asks for generation exactly when one of them is a
    source of generated code or an asset. *)
Theorem detect_exact prev curr changed gen :
  detectSnapshotChanges prev curr = (changed, gen) →
  (∀ p, p ∈ changed ↔ prev !! p ≠ curr !! p)
  ∧ (changed = [] ↔ prev = curr)
  ∧ (gen = true ↔ ∃ p, prev !! p ≠ curr !! p ∧ needs_generate p = true)
  ∧ ∀ p, head changed = Some p → isStaticAsset p = true ↔ ∃ q, prev !! q ≠ curr !! q ∧ isStaticAsset q = true.
Proof.
  intros E. assert (∀ p, p ∈ changed ↔ prev !! p ≠ curr !! p) as Hc.
  { intros p. rewrite <- elem_of_detected, E. done. }
  split; [exact Hc|]. split_and!.
  - split.
    + intros ->. apply map_eq. intros p. destruct (decide (prev !! p = curr !! p)) as [|Hne]; [done|]. by apply Hc, elem_of_nil in Hne.
    + intros ->. destruct changed as [|p l]; [done|]. by destruct (proj1 (Hc p)); [left|].
  - injection E as _ <-. rewrite existsb_true_iff. setoid_rewrite elem_of_changed. done.
  - intros p Hp. injection E as <- _. rewrite (static_first_head _ _ Hp).
    setoid_rewrite sort_strings_Permutation. setoid_rewrite elem_of_changed. done.
Qed.

(** What a batch of changes is merged into: its last asset, or its last change. *)
Definition merge_sources (changes : list string) : string :=
  default "" (foldl (λ acc next, Some (mergeChangeSource (default "" acc) next (bool_decide (is_Some acc)))) None changes).
Lemma merge_sources_snoc l next :
  merge_sources (l ++ [next]) = mergeChangeSource (merge_sources l) next (negb (bool_decide (l = []))).
Proof.
  unfold merge_sources. rewrite foldl_app. cbn [foldl default from_option]. f_equal.
  destruct l as [|x l _] using rev_ind; [done|]. rewrite foldl_app. cbn [foldl].
  rewrite (bool_decide_eq_true_2 (is_Some (Some _))) by by eexists. rewrite (bool_decide_eq_false_2 (_ = [])) by by destruct l. done.
Qed.
Lemma merge_static l :
  (∃ p, p ∈ l ∧ isStaticAsset p = true) → isStaticAsset (merge_sources l) = true.
Proof.
  induction l as [|x l IH] using rev_ind; intros (p & Hp & Hs); [by apply elem_of_nil in Hp|].
  rewrite merge_sources_snoc. unfold mergeChangeSource. destruct (isStaticAsset x) eqn:Ex.
  - by rewrite orb_true_r.
  - apply elem_of_app in Hp as [Hp| ->%list_elem_of_singleton]; [|congruence].
    rewrite orb_false_r. assert (isStaticAsset (merge_sources l) = true) as Hm by (apply IH; eauto).
    rewrite Hm. rewrite bool_decide_eq_false_2 by (by intros ->; apply elem_of_nil in Hp). done.
Qed.
Lemma merge_last l x : (∀ p, p ∈ l → isStaticAsset p = false) → merge_sources (l ++ [x]) = x.
Proof.
  intros Hl. rewrite merge_sources_snoc. unfold mergeChangeSource. destruct (bool_decide (l = [])) eqn:E; [done|].
  replace (isStaticAsset (merge_sources l)) with false; [by rewrite orb_true_r|].
  symmetry. apply bool_decide_eq_false in E. destruct l as [|y l _] using rev_ind; [done|].
  clear E. revert y Hl. induction l as [|z l IH] using rev_ind; intros y Hl.
  - apply Hl. set_solver.
  - rewrite merge_sources_snoc. unfold mergeChangeSource.
    rewrite (IH z) by (intros; apply Hl; set_solver). rewrite orb_true_r. apply Hl. set_solver.
Qed.


(** ** The snapshot holds the watched files

    [file_at e p st]: below [e] there is a file at the components [p]. *)
Inductive file_at : entry → list string → fileStamp → Prop :=
  | at_file st : file_at (EFile st) [] st
  | at_dir children n c rest st : (n, c) ∈ children → file_at c rest st → file_at (EDir children) (n :: rest) st.
(** A directory has one entry per name. *)
Fixpoint entry_ok (e : entry) : Prop :=
  match e with
  | EFile _ => True
  | EDir children =>
      NoDup children.*1 ∧ Forall name_component children.*1
      ∧ (fix go cs := match cs with [] => True | c :: cs => entry_ok c.2 ∧ go cs end) children
  end.
Lemma entry_ok_children children n c : entry_ok (EDir children) → (n, c) ∈ children → entry_ok c ∧ name_component n.
Proof.
  intros (_ & Hn & Hgo) Hin. split.
  - clear Hn. induction children as [|x children IH]; [by apply elem_of_nil in Hin|]. destruct Hgo as [Hx Hgo].
    apply elem_of_cons in Hin as [<-|Hin]; [done|by apply IH].
  - rewrite Forall_forall in Hn. apply Hn. apply list_elem_of_fmap. by exists (n, c).
Qed.
Lemma file_at_names e comps st : entry_ok e → file_at e comps st → Forall name_component comps.
Proof.
  intros He Hf. induction Hf as [|children n c rest st Hin _ IH]; [constructor|].
  destruct (entry_ok_children _ _ _ He Hin) as [Hc Hn]. constructor; [done|by apply IH].
Qed.
Lemma file_at_unique e comps st st' : entry_ok e → file_at e comps st → file_at e comps st' → st = st'.
Proof.
  intros He Hf. revert st'. induction Hf as [|children n c rest st Hin Hf IH]; intros st' Hf'; [by inversion Hf'|].
  inversion Hf' as [|? ? c' ? ? Hin' Hf'']; subst. assert (c' = c) as ->.
  { destruct He as (Hnd & _ & _). apply list_elem_of_lookup in Hin as [i Hi], Hin' as [j Hj].
    assert (i = j) as ->; [|congruence]. apply (NoDup_lookup children.*1 i j n); [done|..]; rewrite list_lookup_fmap; [by rewrite Hi|by rewrite Hj]. }
  apply IH; [by eapply entry_ok_children|done].
Qed.

Definition visible (rel : list string) : Prop := match last rel with Some base => hidden base = false | None => True end.
Lemma visible_snoc rel n : visible (rel ++ [n]) ↔ hidden n = false.
Proof. unfold visible. by rewrite last_snoc. Qed.
Definition walk_holds (e : entry) : Prop := ∀ rel p st,
  (p, st) ∈ walk rel e ↔ visible rel ∧ ∃ rest, file_at e rest st ∧ p = join (rel ++ rest) "/"
    ∧ Forall (λ c, hidden c = false) rest ∧ watched p = true.
Fixpoint walk_spec (e : entry) : walk_holds e.
Proof.
  assert (∀ children, e = EDir children → Forall (λ c, walk_holds c.2) children) as IH.
  { destruct e as [|children]; [done|]. intros ? [= <-]. induction children as [|[n c] children IHc]; constructor; [apply walk_spec|exact IHc]. }
  clear walk_spec. intros rel p st. assert ((p, st) ∈ walk rel e ↔ visible rel ∧ (p, st) ∈ match e with
    | EFile st => let clean := join rel "/" in if watched clean then [(clean, st)] else []
    | EDir children => concat ((λ c, walk (rel ++ [c.1]) c.2) <$> children) end) as ->.
  { unfold visible. destruct e; cbn [walk]; destruct (last rel) as [b|]; try destruct (hidden b); set_solver. }
  apply and_iff_compat_l. destruct e as [st'|children]; cbn zeta.
  - split.
    + destruct (watched (join rel "/")) eqn:E; [|by intros ?%elem_of_nil]. intros [= -> ->]%list_elem_of_singleton.
      exists []. rewrite app_nil_r. by split_and!; [constructor|done|constructor|].
    + intros (rest & Hf & -> & _ & Hw). inversion Hf; subst. rewrite app_nil_r in *. rewrite Hw. by left.
  - specialize (IH children eq_refl). rewrite Forall_forall in IH.
    rewrite list_elem_of_In, in_concat. setoid_rewrite <- list_elem_of_In. split.
    + intros (l & ([n c] & -> & Hin)%list_elem_of_fmap & Hl). cbn [fst snd] in Hl.
      apply (IH (n, c) Hin) in Hl as (Hv & rest & Hf & -> & Hr & Hw). apply visible_snoc in Hv.
      exists (n :: rest). rewrite <- app_assoc in *. split_and!; [by econstructor|done|by constructor|done].
    + intros (rest & Hf & -> & Hr & Hw). inversion Hf as [|? n c rest' ? Hin Hf']; subst.
      apply Forall_cons in Hr as [Hn Hr]. exists (walk (rel ++ [n]) c). split.
      * apply list_elem_of_fmap. by exists (n, c).
      * apply (IH (n, c) Hin). split; [by apply visible_snoc|]. exists rest'. rewrite <- app_assoc. by split_and!.
Qed.
Lemma join_inj l l' : Forall name_component l → Forall name_component l' → l ≠ [] → l' ≠ [] → join l "/" = join l' "/" → l = l'.
Proof.
  intros Hl Hl' Hn Hn' E. rewrite <- (split_join l "/"), <- (split_join l' "/"); try done.
  - by rewrite E.
  - intros x Hx. rewrite Forall_forall in Hl'. by apply Hl'.
  - intros x Hx. rewrite Forall_forall in Hl. by apply Hl.
Qed.

(** The snapshot of a project holds exactly its watched files: those with a
    watched extension, not generated, below no hidden or skipped directory, each
    with its stamp. *)
Theorem snapshot_exact children p st :
  entry_ok (EDir children) →
  snapshotWatchedFiles (EDir children) !! p = Some st ↔
    ∃ comps, file_at (EDir children) comps st ∧ p = join comps "/"
      ∧ Forall (λ c, hidden c = false) comps ∧ watched p = true.
Proof.
  intros Hok. unfold snapshotWatchedFiles. split.
  - intros Hl. apply elem_of_list_to_map_2 in Hl. by apply walk_spec in Hl as [_ H].
  - intros H. apply elem_of_list_to_map_1'; [|by apply walk_spec].
    intros st' [_ (comps' & Hf' & Ep & _)]%walk_spec. destruct H as (comps & Hf & -> & _).
    assert (comps = comps') as <-.
    { apply join_inj; [by eapply file_at_names..| | |done]; intros ->; [inversion Hf|inversion Hf']. }
    by eapply file_at_unique.
Qed.
Definition demo_tree : list (string * entry) :=
  [("views", EDir [("index.templ", EFile (mkStamp 1 10)); ("index_templ.go", EFile (mkStamp 2 20))]);
   (".git", EDir [("hook.go", EFile (mkStamp 3 30))])].
Lemma snapshot_exact_witness : entry_ok (EDir demo_tree)
  ∧ snapshotWatchedFiles (EDir demo_tree) !! "views/index.templ" = Some (mkStamp 1 10).
Proof.
  assert (entry_ok (EDir demo_tree)) as Hok.
  { cbn. unfold name_component. cbn. repeat split; try (repeat constructor; set_solver); try discriminate. }
  split; [exact Hok|]. apply (snapshot_exact demo_tree _ _ Hok). exists ["views"; "index.templ"].
  split; [|split; [reflexivity|split; [repeat constructor|reflexivity]]].
  do 2 (eapply at_dir; [left|]). apply at_file.
Defined.
Definition demo_prev : gmap string fileStamp := {[ "main.go" := mkStamp 1 1; "static/site.css" := mkStamp 1 1 ]}.
Definition demo_curr : gmap string fileStamp := {[ "static/site.css" := mkStamp 2 1 ]}.
Lemma detect_exact_witness : detectSnapshotChanges demo_prev demo_curr = (["static/site.css"; "main.go"], true)
  ∧ (["static/site.css"; "main.go"] = [] ↔ demo_prev = demo_curr).
Proof.
  assert (detectSnapshotChanges demo_prev demo_curr = (["static/site.css"; "main.go"], true)) as E by (vm_compute; reflexivity).
  split; [exact E|]. destruct (detect_exact _ _ _ _ E) as (_ & H & _). exact H.
Defined.
Lemma fragment_extracted_witness :
  let body := [Plain "hi "; Div " class=b" [Tag "br"; Div "" [Plain "x"]]] in
  extractFragment ("<html>" +:+ open_div +:+ " class=a " +:+ fragmentContainerID +:+ " role=main" +:+ ">" +:+ render_pieces body +:+ close_div +:+ "<div></html>")
    = Some "hi <div class=b><br><div>x</div></div>".
Proof.
  intros body. exact (fragment_extracted "<html>" " class=a " " role=main" body "<div></html>" eq_refl eq_refl eq_refl eq_refl).
Defined.
