(* ===== verification/DevLoop.v ===== *)
(** * The development loop

    Models [setupWatcher] of src/examples/webapp-demo/cmd/dev/main.go as a
    transition system: the main loop accepts changes and a signal, timer
    callbacks start a cycle, and a cycle generates, builds, starts the new server,
    waits for it, swaps it in and tells the browsers.  The parts the mutex guards,
    and the calls in between, are one step each; which step comes next is free. *)

From stdpp Require Import gmap sets.
From S2P Require Import Prelude GoStrings ProjectFs Filepath DevFiles.

(** ** State

    A change is its path with whether it needs generation.  Servers and binaries
    are numbered.  [batch] fields and [accepted], [handled] record which changes
    a source string stands for; the code does not read them. *)
Abbreviation change := (string * bool)%type (only parsing).

Inductive phase :=
  | AtGenerate
  | AtBuild
  | AtStart (newBin : nat)
  | AtWait (newBin newProc : nat)
  | AtRetire (oldBin oldProc : nat)
  | AtNotify
  | AtFinish.
Record cycle := mkCycle { c_source : string; c_phase : phase; c_batch : list change }.

Record broadcastMessage := mkMessage { Kind : string; Target : string; Payload : string; Source : string; Route : string }.

Record dev := mkDev {
  debounceID : nat;
  timers : gset nat;  (* callbacks that may still run *)
  restartTimer : option nat;
  debouncePending : bool; debounceSrc : string; debounceGen : bool; debounceBatch : list change;
  busy : bool;
  pending : bool; pendingSrc : string; pendingGen : bool; pendingBatch : list change;
  proc : nat; binPath : nat;
  cycles : list cycle;
  running : gset nat; bins : gset nat; fresh : nat;
  posted : list broadcastMessage;
  accepted : list change; handled : list change;
  stopped : bool;
}.
(** After [main] has built and started the first server. *)
Definition started : dev :=
  mkDev 0 ∅ None false "" false [] false false "" false [] 0 0 [] {[ 0 ]} {[ 0 ]} 1 [] [] [] false.

Definition set_cycles (d : dev) (cs : list cycle) : dev :=
  mkDev (debounceID d) (timers d) (restartTimer d) (debouncePending d) (debounceSrc d) (debounceGen d) (debounceBatch d)
    (busy d) (pending d) (pendingSrc d) (pendingGen d) (pendingBatch d) (proc d) (binPath d) cs (running d) (bins d) (fresh d)
    (posted d) (accepted d) (handled d) (stopped d).
Definition set_busy (d : dev) (b : bool) : dev :=
  mkDev (debounceID d) (timers d) (restartTimer d) (debouncePending d) (debounceSrc d) (debounceGen d) (debounceBatch d)
    b (pending d) (pendingSrc d) (pendingGen d) (pendingBatch d) (proc d) (binPath d) (cycles d) (running d) (bins d) (fresh d)
    (posted d) (accepted d) (handled d) (stopped d).
Definition set_servers (d : dev) (p b : nat) (rs bs : gset nat) (f : nat) : dev :=
  mkDev (debounceID d) (timers d) (restartTimer d) (debouncePending d) (debounceSrc d) (debounceGen d) (debounceBatch d)
    (busy d) (pending d) (pendingSrc d) (pendingGen d) (pendingBatch d) p b (cycles d) rs bs f
    (posted d) (accepted d) (handled d) (stopped d).
Definition set_pending (d : dev) (p : bool) (src : string) (gen : bool) (batch : list change) : dev :=
  mkDev (debounceID d) (timers d) (restartTimer d) (debouncePending d) (debounceSrc d) (debounceGen d) (debounceBatch d)
    (busy d) p src gen batch (proc d) (binPath d) (cycles d) (running d) (bins d) (fresh d)
    (posted d) (accepted d) (handled d) (stopped d).
Definition set_debounce (d : dev) (id : nat) (ts : gset nat) (t : option nat) (p : bool) (src : string) (gen : bool)
    (batch : list change) : dev :=
  mkDev id ts t p src gen batch (busy d) (pending d) (pendingSrc d) (pendingGen d) (pendingBatch d) (proc d) (binPath d)
    (cycles d) (running d) (bins d) (fresh d) (posted d) (accepted d) (handled d) (stopped d).
Definition add_accepted (d : dev) (c : change) : dev :=
  mkDev (debounceID d) (timers d) (restartTimer d) (debouncePending d) (debounceSrc d) (debounceGen d) (debounceBatch d)
    (busy d) (pending d) (pendingSrc d) (pendingGen d) (pendingBatch d) (proc d) (binPath d) (cycles d) (running d) (bins d) (fresh d)
    (posted d) (accepted d ++ [c]) (handled d) (stopped d).
Definition add_handled (d : dev) (cs : list change) : dev :=
  mkDev (debounceID d) (timers d) (restartTimer d) (debouncePending d) (debounceSrc d) (debounceGen d) (debounceBatch d)
    (busy d) (pending d) (pendingSrc d) (pendingGen d) (pendingBatch d) (proc d) (binPath d) (cycles d) (running d) (bins d) (fresh d)
    (posted d) (accepted d) (handled d ++ cs) (stopped d).
Definition add_posted (d : dev) (m : broadcastMessage) : dev :=
  mkDev (debounceID d) (timers d) (restartTimer d) (debouncePending d) (debounceSrc d) (debounceGen d) (debounceBatch d)
    (busy d) (pending d) (pendingSrc d) (pendingGen d) (pendingBatch d) (proc d) (binPath d) (cycles d) (running d) (bins d) (fresh d)
    (posted d ++ [m]) (accepted d) (handled d) (stopped d).
Definition stop (d : dev) : dev :=
  mkDev (debounceID d) (timers d) (restartTimer d) (debouncePending d) (debounceSrc d) (debounceGen d) (debounceBatch d)
    (busy d) (pending d) (pendingSrc d) (pendingGen d) (pendingBatch d) (proc d) (binPath d) [] (running d ∖ {[ proc d ]})
    (bins d ∖ {[ binPath d ]}) (fresh d) (posted d) (accepted d) (handled d) true.

(** ** The main loop *)

(** [stop_ok]: whether [restartTimer.Stop] came before the callback. *)
Definition scheduleChange (d : dev) (changed : string) (needGenerate stop_ok : bool) : dev :=
  let d := add_accepted d (changed, needGenerate) in
  if busy d then
    set_pending d true (mergeChangeSource (pendingSrc d) changed (pending d)) (pendingGen d || needGenerate)
      (pendingBatch d ++ [(changed, needGenerate)])
  else
    let left := match restartTimer d with
                | Some t => if stop_ok then timers d ∖ {[ t ]} else timers d
                | None => timers d
                end in
    let id := S (debounceID d) in
    set_debounce d id ({[ id ]} ∪ left) (Some id) true (mergeChangeSource (debounceSrc d) changed (debouncePending d))
      (debounceGen d || needGenerate) (debounceBatch d ++ [(changed, needGenerate)]).
Definition begin_cycle (source : string) (needGenerate : bool) (batch : list change) : cycle :=
  mkCycle source (if needGenerate then AtGenerate else AtBuild) batch.
(** The callback of the timer [id]. *)
Definition fire (d : dev) (id : nat) : dev :=
  let ts := timers d ∖ {[ id ]} in
  if negb (id =? debounceID d) then
    set_debounce d (debounceID d) ts (restartTimer d) (debouncePending d) (debounceSrc d) (debounceGen d) (debounceBatch d)
  else
    let c := begin_cycle (debounceSrc d) (debounceGen d) (debounceBatch d) in
    set_cycles (set_busy (set_debounce d (debounceID d) ts None false "" false []) true) (c :: cycles d).

(** The events that the loop passes on: an event of the watcher, or a poll. *)
Definition event_change (name : string) : change :=
  (name, if isStaticAsset name then true else String.eqb (Ext name) ".templ" || String.eqb (Ext name) ".fbs").
Definition poll_change (prev curr : gmap string fileStamp) : option change :=
  match detectSnapshotChanges prev curr with
  | ([], _) => None
  | (p :: _, gen) => Some (p, gen)
  end.

(** ** A cycle *)

Definition fragment_message (route html source : string) : broadcastMessage :=
  mkMessage "fragment" "#fgoths-content" html (Base source) route.
Definition reload_message (source : string) : broadcastMessage := mkMessage "reload" "" "" (Base source) "".
(** [reply]: the body of a successful fetch of the route. *)
Definition notify (source : string) (reply : option string) : broadcastMessage :=
  match routeForView source with
  | Some route =>
      match reply with
      | Some body => match extractFragment body with
                     | Some html => fragment_message route html source
                     | None => reload_message source
                     end
      | None => reload_message source
      end
  | None => reload_message source
  end.
(** [waitForBuild]: what the ready file holds at each try before the deadline. *)
Fixpoint waitForBuild (reads : list (option string)) (buildID : string) : bool :=
  match reads with
  | [] => false
  | Some data :: reads => if String.eqb data buildID then true else waitForBuild reads buildID
  | None :: reads => waitForBuild reads buildID
  end.

(** The error returns: [busy] is reset, whatever is pending. *)
Definition abandon (d : dev) (c : cycle) : dev := set_busy (add_handled d (c_batch c)) false.
Definition at_phase (c : cycle) (p : phase) : cycle := mkCycle (c_source c) p (c_batch c).
(** The end of a cycle, under the mutex. *)
Definition finish (d : dev) (c : cycle) : dev * option cycle :=
  let d := add_handled d (c_batch c) in
  if pending d then (set_pending d false "" false [], Some (begin_cycle (pendingSrc d) (pendingGen d) (pendingBatch d)))
  else (set_busy d false, None).

(** [ok] is whether the call of the phase succeeds; [None] ends the cycle. *)
Definition cycle_step (d : dev) (c : cycle) (ok : bool) (reply : option string) : dev * option cycle :=
  match c_phase c with
  | AtGenerate => if ok then (d, Some (at_phase c AtBuild)) else (abandon d c, None)
  | AtBuild =>
      if ok then (set_servers d (proc d) (binPath d) (running d) ({[ fresh d ]} ∪ bins d) (S (fresh d)), Some (at_phase c (AtStart (fresh d))))
      else (abandon d c, None)
  | AtStart b =>
      if ok then (set_servers d (proc d) (binPath d) ({[ fresh d ]} ∪ running d) (bins d) (S (fresh d)), Some (at_phase c (AtWait b (fresh d))))
      else (abandon (set_servers d (proc d) (binPath d) (running d) (bins d ∖ {[ b ]}) (fresh d)) c, None)
  | AtWait b p =>
      if ok then (set_servers d p b (running d) (bins d) (fresh d), Some (at_phase c (AtRetire (binPath d) (proc d))))
      else (set_servers d (proc d) (binPath d) (running d ∖ {[ p ]}) (bins d ∖ {[ b ]}) (fresh d), Some (at_phase c AtFinish))
  | AtRetire b p =>
      (set_servers d (proc d) (binPath d) (running d ∖ {[ p ]}) (bins d ∖ {[ b ]}) (fresh d), Some (at_phase c AtNotify))
  | AtNotify => (add_posted d (notify (c_source c) reply), Some (at_phase c AtFinish))
  | AtFinish => finish d c
  end.

(** ** Steps *)

Inductive label :=
  | LChange (changed : string) (needGenerate stop_ok : bool)
  | LFire (id : nat)
  | LCycle (i : nat) (ok : bool) (reply : option string)
  | LSignal.
Definition exec (d : dev) (l : label) : option dev :=
  if stopped d then None
  else match l with
       | LChange changed gen stop_ok => Some (scheduleChange d changed gen stop_ok)
       | LFire id => if bool_decide (id ∈ timers d) then Some (fire d id) else None
       | LCycle i ok reply =>
           match cycles d !! i with
           | Some c => let '(d', c') := cycle_step d c ok reply in
                       Some (set_cycles d' (take i (cycles d) ++ option_list c' ++ drop (S i) (cycles d)))
           | None => None
           end
       | LSignal => Some (stop d)
       end.
Fixpoint run (d : dev) (ls : list label) : option dev :=
  match ls with
  | [] => Some d
  | l :: ls => match exec d l with Some d => run d ls | None => None end
  end.

(** ** The invariant *)

(** What the main loop knows of a batch of changes: whether there are any, the
    source that stands for them, and whether one needs generation. *)
Definition summary (batch : list change) (some : bool) (src : string) (gen : bool) : Prop :=
  some = negb (bool_decide (batch = [])) ∧ src = merge_sources batch.*1 ∧ gen = existsb snd batch.
Lemma summary_nil : summary [] false "" false.
Proof. done. Qed.
Lemma summary_snoc batch some src gen name g :
  summary batch some src gen →
  summary (batch ++ [(name, g)]) true (mergeChangeSource src name some) (gen || g).
Proof.
  intros (-> & -> & ->). split_and!.
  - rewrite bool_decide_eq_false_2; [done|]. by destruct batch.
  - rewrite fmap_app. cbn. rewrite merge_sources_snoc. do 2 f_equal.
    apply bool_decide_ext. destruct batch; naive_solver.
  - rewrite existsb_app. cbn. by rewrite orb_false_r.
Qed.

(** The servers and the binaries that a cycle holds beside the current ones. *)
Definition held_procs (p : phase) : list nat :=
  match p with AtWait _ p => [p] | AtRetire _ p => [p] | _ => [] end.
Definition held_bins (p : phase) : list nat :=
  match p with AtStart b => [b] | AtWait b _ => [b] | AtRetire b _ => [b] | _ => [] end.
Definition batches (cs : list cycle) : list change := cs ≫= c_batch.

(** [held]: what is running, or on the disk, is the current one and what the
    cycle holds; the next number is of none of them. *)
Record held (current : nat) (extra : list nat) (all : gset nat) (fresh : nat) : Prop := mkHeld {
  held_nodup : NoDup (current :: extra);
  held_exact : ∀ n, n ∈ all ↔ n ∈ current :: extra;
  held_fresh : ∀ n, n ∈ all → n < fresh;
}.
Lemma held_more current extra all fresh fresh' : held current extra all fresh → fresh ≤ fresh' → held current extra all fresh'.
Proof. intros [] ?. split; [done..|]. intros n Hn%held_fresh0. lia. Qed.
Lemma held_start current all fresh : held current [] all fresh → held current [fresh] ({[ fresh ]} ∪ all) (S fresh).
Proof.
  intros [? He Hf]. assert (current < fresh) by (apply Hf, He; set_solver). split.
  - repeat constructor; set_unfold; intuition lia.
  - intros n. rewrite elem_of_union, He. set_solver.
  - intros n [->%elem_of_singleton|Hn%Hf]%elem_of_union; lia.
Qed.
Lemma held_drop current x all fresh : held current [x] all fresh → held current [] (all ∖ {[ x ]}) fresh.
Proof.
  intros [Hn He Hf]. apply NoDup_cons in Hn as [Hn _]. split.
  - apply NoDup_singleton.
  - intros n. rewrite elem_of_difference, He. set_solver.
  - intros n. set_solver.
Qed.
Lemma held_swap current x all fresh : held current [x] all fresh → held x [current] all fresh.
Proof.
  intros [Hn He Hf]. split; [|intros n; rewrite He; set_solver|done].
  apply NoDup_cons in Hn as [Hn _]. repeat constructor; set_solver.
Qed.
#[local] Hint Resolve held_start held_drop held_swap : core.

Record dev_ok (d : dev) : Prop := mkDevOk {
  ok_one_cycle : if busy d then length (cycles d) = 1 else cycles d = [];
  ok_timers : ∀ t, t ∈ timers d → t ≤ debounceID d;
  ok_armed : debouncePending d = bool_decide (debounceID d ∈ timers d);
  ok_stoppable : debouncePending d = true → restartTimer d = Some (debounceID d);
  ok_idle : busy d = true → debouncePending d = false;
  ok_debounce : summary (debounceBatch d) (debouncePending d) (debounceSrc d) (debounceGen d);
  ok_pending : summary (pendingBatch d) (pending d) (pendingSrc d) (pendingGen d);
  ok_source : ∀ c, c ∈ cycles d → c_source c = merge_sources (c_batch c).*1;
  ok_procs : held (proc d) (cycles d ≫= held_procs ∘ c_phase) (running d) (fresh d);
  ok_bins : held (binPath d) (cycles d ≫= held_bins ∘ c_phase) (bins d) (fresh d);
  ok_accounted : accepted d ≡ₚ handled d ++ batches (cycles d) ++ pendingBatch d ++ debounceBatch d;
}.
Lemma started_ok : dev_ok started.
Proof. split; cbn; try done; try set_solver; (split; [apply NoDup_singleton|set_solver|set_unfold; lia]). Qed.

Lemma schedule_ok d name g stop_ok : dev_ok d → dev_ok (scheduleChange d name g stop_ok).
Proof.
  intros Hd. unfold scheduleChange. cbn [busy add_accepted].
  destruct (busy d) eqn:Eb; destruct Hd; rewrite Eb in *; split; cbn; rewrite ?Eb; try done.
  - by apply summary_snoc.
  - rewrite ok_accounted0. rewrite <- !(assoc_L (++)). do 3 f_equiv. apply (comm (++)).
  - intros t [->%elem_of_singleton|Ht]%elem_of_union; [lia|].
    destruct (restartTimer d), stop_ok; [apply elem_of_difference in Ht as [Ht _]|..]; apply ok_timers0 in Ht; lia.
  - symmetry. apply bool_decide_eq_true. set_solver.
  - by apply summary_snoc.
  - by rewrite ok_accounted0, !(assoc_L (++)).
Qed.
Lemma fire_ok d id : dev_ok d → id ∈ timers d → dev_ok (fire d id).
Proof.
  intros Hd Hid. unfold fire. destruct (id =? debounceID d) eqn:E; cbn [negb].
  - apply Nat.eqb_eq in E as ->. destruct Hd.
    assert (debouncePending d = true) as Ep by (rewrite ok_armed0; by apply bool_decide_eq_true).
    destruct (busy d) eqn:Eb; [by rewrite ok_idle0 in Ep|]. rename ok_one_cycle0 into Hc.
    rewrite Hc in ok_procs0, ok_bins0, ok_accounted0.
    split; cbn; rewrite ?Hc; try done.
    + intros t Ht. apply ok_timers0. set_solver.
    + symmetry. apply bool_decide_eq_false. set_solver.
    + intros c ->%list_elem_of_singleton. cbn. by destruct ok_debounce0 as (_ & ? & _).
    + by destruct (debounceGen d).
    + by destruct (debounceGen d).
    + rewrite ok_accounted0. unfold batches. cbn. rewrite !app_nil_r. f_equiv. apply (comm (++)).
  - apply Nat.eqb_neq in E. destruct Hd. split; cbn; try done.
    + intros t Ht. apply ok_timers0. set_solver.
    + rewrite ok_armed0. apply bool_decide_ext. set_solver.
Qed.

(** A step of the cycle [c], with what the caller of [cycle_step] does. *)
Definition after_step (d : dev) (c : cycle) (ok : bool) (reply : option string) : dev :=
  let '(d', c') := cycle_step d c ok reply in set_cycles d' (option_list c').
Lemma step_alone d i ok reply d' :
  dev_ok d → exec d (LCycle i ok reply) = Some d' →
  ∃ c, i = 0 ∧ busy d = true ∧ cycles d = [c] ∧ d' = after_step d c ok reply.
Proof.
  intros Hd He. pose proof (ok_one_cycle d Hd) as H1. unfold exec in He.
  destruct (stopped d); [done|]. destruct (busy d); [|by rewrite H1 in He].
  destruct (cycles d) as [|c [|]]; try done. destruct i; [|done]. cbn in He.
  exists c. split_and!; [done..|]. unfold after_step. destruct (cycle_step d c ok reply). cbn in He.
  rewrite app_nil_r in He. by injection He.
Qed.

(** What is left to show of a step is what it does with servers and binaries. *)
Section Step.
Context (d : dev) (c : cycle) (Hd : dev_ok d) (Hb : busy d = true) (Hc : cycles d = [c]).

Lemma cycle_moves p b rs bs f m c' :
  held p (held_procs (c_phase c')) rs f → held b (held_bins (c_phase c')) bs f →
  c_source c' = c_source c → c_batch c' = c_batch c →
  dev_ok (set_cycles (mkDev (debounceID d) (timers d) (restartTimer d) (debouncePending d) (debounceSrc d) (debounceGen d)
    (debounceBatch d) (busy d) (pending d) (pendingSrc d) (pendingGen d) (pendingBatch d) p b (cycles d) rs bs f m
    (accepted d) (handled d) (stopped d)) [c']).
Proof using Hd Hb Hc.
  intros Hp Hbs Es Eb. pose proof (ok_source d Hd c) as Hs. destruct Hd. rewrite Hc, Hb in *.
  split; cbn; rewrite ?Hb, ?app_nil_r; try done.
  - intros c'' ->%list_elem_of_singleton. rewrite Es, Eb. apply Hs. set_solver.
  - rewrite ok_accounted0. unfold batches. cbn. by rewrite Eb, app_nil_r.
Qed.
Lemma cycle_ends p b rs bs f :
  held p [] rs f → held b [] bs f → dev_ok (set_cycles (abandon (set_servers d p b rs bs f) c) []).
Proof using Hd Hb Hc.
  intros Hp Hbs. destruct Hd. rewrite Hc, Hb in *. split; cbn; try done.
  - intros c' []%elem_of_nil.
  - rewrite ok_accounted0. unfold batches. cbn. by rewrite app_nil_r, <- (assoc_L (++)).
Qed.
Lemma finish_ok : held (proc d) [] (running d) (fresh d) → held (binPath d) [] (bins d) (fresh d) →
  dev_ok (let '(d', c') := finish d c in set_cycles d' (option_list c')).
Proof using Hd Hb Hc.
  intros Hp Hbs. unfold finish. cbn [pending add_handled]. destruct Hd. rewrite Hc, Hb in *.
  destruct (pending d) eqn:Ep; split; cbn; rewrite ?Hb, ?Ep; try done.
  - intros c' ->%list_elem_of_singleton. by destruct ok_pending0 as (_ & -> & _).
  - by destruct (pendingGen d).
  - by destruct (pendingGen d).
  - rewrite ok_accounted0. unfold batches. cbn. by rewrite !app_nil_r, <- !(assoc_L (++)).
  - intros c' []%elem_of_nil.
  - rewrite ok_accounted0. unfold batches. cbn. by rewrite app_nil_r, <- (assoc_L (++)).
Qed.
Lemma after_step_ok ok reply : dev_ok (after_step d c ok reply).
Proof using Hd Hb Hc.
  pose proof (ok_procs d Hd) as Hp. pose proof (ok_bins d Hd) as Hbs. rewrite Hc in Hp, Hbs. cbn in Hp, Hbs.
  rewrite app_nil_r in Hp, Hbs. assert (∀ x a s n, held x a s n → held x a s (S n)) by (intros; eapply held_more; eauto).
  destruct (c_phase c) eqn:Eph; cbn in Hp, Hbs; unfold after_step, cycle_step; rewrite Eph;
    try destruct ok; cbn [option_list]; try (apply cycle_ends; cbn; by eauto); try (apply cycle_moves; cbn; by eauto).
  all: by apply finish_ok.
Qed.
End Step.

Lemma exec_ok d l d' : dev_ok d → exec d l = Some d' → stopped d' = false → dev_ok d'.
Proof.
  intros Hd He Hs. destruct l as [name g stop_ok|id|i ok reply|].
  - unfold exec in He. destruct (stopped d); simplify_eq. by apply schedule_ok.
  - unfold exec in He. destruct (stopped d); simplify_eq. case_bool_decide; simplify_eq. by apply fire_ok.
  - apply step_alone in He as (c & -> & Hb & Hc & ->); [|done]. by apply after_step_ok.
  - unfold exec in He. by destruct (stopped d); simplify_eq.
Qed.
Lemma run_dev_ok ls d d' : dev_ok d → run d ls = Some d' → stopped d' = false → dev_ok d'.
Proof.
  revert d. induction ls as [|l ls IH]; intros d Hd He Hs; [by simplify_eq/=|]. cbn in He.
  destruct (exec d l) as [d1|] eqn:E1; [|done]. apply (IH d1); [|done..]. eapply exec_ok; [done..|].
  destruct ls as [|l' ls]; [by simplify_eq/=|]. cbn in He. unfold exec in He at 1. by destruct (stopped d1).
Qed.

(** ** Every change is handled *)

(** The steps that the loop makes by itself. *)
Definition internal (l : label) : bool := match l with LFire _ | LCycle _ _ _ => true | _ => false end.
Definition phase_rank (p : phase) : nat :=
  match p with
  | AtGenerate => 7 | AtBuild => 6 | AtStart _ => 5 | AtWait _ _ => 4 | AtRetire _ _ => 3 | AtNotify => 2 | AtFinish => 1
  end.
Definition work (d : dev) : nat :=
  10 * base.size (timers d) + (if pending d then 10 else 0) + sum_list (phase_rank ∘ c_phase <$> cycles d).
(** A cycle that ends early, because generating, building or starting failed. *)
Definition gives_up (d : dev) (l : label) : bool :=
  match l with
  | LCycle i false _ =>
      match c_phase <$> cycles d !! i with Some (AtGenerate | AtBuild | AtStart _) => true | _ => false end
  | _ => false
  end.
Fixpoint any_gives_up (d : dev) (ls : list label) : bool :=
  match ls with
  | [] => false
  | l :: ls => gives_up d l || match exec d l with Some d => any_gives_up d ls | None => false end
  end.
Definition quiet (d : dev) : Prop := timers d = ∅ ∧ cycles d = [].

Lemma begin_rank src gen b : 0 < phase_rank (c_phase (begin_cycle src gen b)) ≤ 7.
Proof. destruct gen; cbn; lia. Qed.
Lemma size_fired (ts : gset nat) id : id ∈ ts → S (base.size (ts ∖ {[ id ]})) = base.size ts.
Proof.
  intros Hid. rewrite size_difference by set_solver. rewrite size_singleton.
  enough (base.size ts ≠ 0) by lia. intros He%size_empty_inv. set_solver.
Qed.
Lemma work_decreases d l d' : dev_ok d → internal l = true → exec d l = Some d' → work d' < work d.
Proof.
  intros Hd Hl He. destruct l as [|id|i ok reply|]; try done.
  - unfold exec in He. destruct (stopped d); [done|]. case_bool_decide as Hid; [|done]. simplify_eq. unfold fire, work.
    pose proof (size_fired _ _ Hid). destruct (id =? debounceID d); cbn -[Nat.mul begin_cycle]; [|destruct (pending d); lia].
    pose proof (begin_rank (debounceSrc d) (debounceGen d) (debounceBatch d)). destruct (pending d); lia.
  - apply step_alone in He as (c & -> & Hb & Hc & ->); [|done]. unfold after_step, cycle_step, work. rewrite Hc.
    destruct (c_phase c) eqn:Eph; try destruct ok; unfold finish; cbn [pending add_handled];
      try destruct (pending d) eqn:Ep; cbn; rewrite ?Eph, ?Ep; cbn; try lia;
      pose proof (begin_rank (pendingSrc d) (pendingGen d) (pendingBatch d)); cbn in *; lia.
Qed.
Lemma internal_alive d l d' : internal l = true → exec d l = Some d' → stopped d' = false.
Proof.
  intros Hl He. destruct l as [|id|i ok reply|]; try done; unfold exec in He; destruct (stopped d) eqn:Es; try done.
  - case_bool_decide; simplify_eq. unfold fire. by destruct (negb _).
  - destruct (cycles d !! i) as [c|]; [|done]. unfold cycle_step, finish in He.
    destruct (c_phase c), ok; cbn [pending add_handled] in He; try destruct (pending d); by simplify_eq/=.
Qed.
Lemma run_bounded ls d d' : dev_ok d → stopped d = false → forallb internal ls = true → run d ls = Some d' →
  dev_ok d' ∧ stopped d' = false ∧ length ls + work d' ≤ work d.
Proof.
  revert d. induction ls as [|l ls IH]; intros d Hd Hs Hls Hr; cbn [run forallb length] in *; [by simplify_eq|].
  apply andb_true_iff in Hls as [Hl Hls]. destruct (exec d l) as [d1|] eqn:E1; [|done].
  assert (stopped d1 = false) as Hs1 by (by apply (internal_alive d l)).
  assert (dev_ok d1) as Hd1 by (by eapply exec_ok).
  pose proof (work_decreases d l d1 Hd Hl E1). apply IH in Hr as (? & ? & ?); [|done..]. split_and!; [done..|lia].
Qed.

(** A state that is not quiet has a step in which nothing fails. *)
Lemma internal_step d : dev_ok d → stopped d = false → ¬ quiet d →
  ∃ l d', internal l = true ∧ gives_up d l = false ∧ exec d l = Some d'.
Proof.
  intros Hd Hs Hq. destruct (cycles d) as [|c cs] eqn:Ec.
  - destruct (set_choose_or_empty (timers d)) as [[id Hid]|He]; [|by destruct Hq; split; [apply leibniz_equiv|]].
    exists (LFire id), (fire d id). split_and!; [done..|]. unfold exec. rewrite Hs. by rewrite bool_decide_eq_true_2.
  - exists (LCycle 0 true None). unfold exec. rewrite Hs, Ec. cbn.
    destruct (cycle_step d c true None) as [d' c']. by eexists.
Qed.

(** While no cycle has given up, queued changes wait for a running one. *)
Definition served (d : dev) : Prop := pending d = true → busy d = true.
Lemma exec_served d l d' : dev_ok d → served d → gives_up d l = false → exec d l = Some d' → served d'.
Proof.
  unfold served. intros Hd Hsv Hg He. destruct l as [name g stop_ok|id|i ok reply|].
  - unfold exec in He. destruct (stopped d); [done|]. simplify_eq. unfold scheduleChange.
    cbn [busy add_accepted]. destruct (busy d) eqn:Eb; cbn; [done|by rewrite Eb].
  - unfold exec in He. destruct (stopped d); [done|]. case_bool_decide; [|done]. simplify_eq. unfold fire. by destruct (negb _).
  - apply step_alone in He as (c & -> & Hb & Hc & ->); [|done]. unfold gives_up in Hg. rewrite Hc in Hg.
    unfold after_step, cycle_step, finish.
    cbn in Hg. destruct (c_phase c), ok; cbn [pending add_handled]; try done; try destruct (pending d) eqn:Ep; cbn; rewrite ?Hb, ?Ep; try done.
  - unfold exec in He. by destruct (stopped d); simplify_eq.
Qed.

(** What a quiet state owes: the changes that a cycle which gave up left behind. *)
Lemma quiet_accounted d : dev_ok d → quiet d → accepted d ≡ₚ handled d ++ pendingBatch d.
Proof.
  intros [] [Ht Hc]. rewrite Hc in ok_accounted0. unfold batches in ok_accounted0. cbn in ok_accounted0.
  destruct ok_debounce0 as [Hp _]. rewrite ok_armed0, Ht, bool_decide_eq_false_2 in Hp by set_solver.
  destruct (debounceBatch d); [|done]. by rewrite app_nil_r in ok_accounted0.
Qed.
Lemma quiet_served d : dev_ok d → quiet d → served d → pendingBatch d = [] ∧ pending d = false.
Proof.
  intros [] [_ Hc] Hs. destruct (busy d) eqn:Eb; [by rewrite Hc in ok_one_cycle0|].
  destruct (pending d) eqn:Ep; [by rewrite Hs in Eb|]. destruct ok_pending0 as [Hp _]. by destruct (pendingBatch d).
Qed.
Lemma run_served ls d d' : dev_ok d → served d → any_gives_up d ls = false → run d ls = Some d' → stopped d' = false →
  served d'.
Proof.
  revert d. induction ls as [|l ls IH]; intros d Hd Hsv Hg He Hs; cbn [run any_gives_up] in *; [by simplify_eq|].
  destruct (exec d l) as [d1|] eqn:E1; [|done]. apply orb_false_iff in Hg as [Hg1 Hg].
  apply (IH d1); [|by eapply exec_served|done..]. eapply exec_ok; [done..|].
  destruct ls as [|l' ls]; [by simplify_eq/=|]. cbn in He. unfold exec in He at 1. by destruct (stopped d1).
Qed.
Lemma run_app ls1 ls2 d : run d (ls1 ++ ls2) = run d ls1 ≫= λ d', run d' ls2.
Proof. revert d. induction ls1 as [|l ls1 IH]; intros d; cbn; [done|]. destruct (exec d l); cbn; auto. Qed.
(** By itself, and with nothing failing, the loop comes to a quiet state. *)
Lemma settles n d : work d < n → dev_ok d → stopped d = false →
  ∃ ls d', forallb internal ls = true ∧ any_gives_up d ls = false ∧ run d ls = Some d' ∧ quiet d'.
Proof.
  revert d. induction n as [|n IH]; intros d Hw Hd Hs; [lia|].
  destruct (decide (timers d = ∅)) as [Ht|Ht]; [destruct (cycles d) as [|c cs] eqn:Ec; [by exists [], d|]|].
  all: destruct (internal_step d Hd Hs) as (l & d1 & Hl & Hg & He); [intros []; congruence|].
  all: assert (stopped d1 = false) by (by apply (internal_alive d l)).
  all: destruct (IH d1) as (ls & d' & Hls & Hgs & Hr & Hq);
    [by pose proof (work_decreases d l d1 Hd Hl He); lia|by eapply exec_ok|done|].
  all: exists (l :: ls), d'; cbn [forallb any_gives_up run]; by rewrite Hl, Hg, He.
Qed.

(** * Properties *)


(** Left alone, the loop settles and owes nothing: from every state it can reach, however its
    timers and cycles are interleaved, it takes at most [work] steps before it is quiet; it can always
    get there; and where no cycle failed to generate, build or start, every change it accepted has then
    been handled, the ones queued during a cycle included. *)
Theorem dev_settles ls d :
  run started ls = Some d → stopped d = false →
  (∀ more d', forallb internal more = true → run d more = Some d' → length more ≤ work d) ∧
  (∃ more d', forallb internal more = true ∧ any_gives_up d more = false ∧ run d more = Some d' ∧ quiet d') ∧
  (∀ more d', forallb internal more = true → run d more = Some d' →
    (¬ quiet d' → ∃ l d'', internal l = true ∧ exec d' l = Some d'') ∧
    (quiet d' → any_gives_up started (ls ++ more) = false → accepted d' ≡ₚ handled d')).
Proof.
  intros Hr Hs. pose proof (run_dev_ok ls _ d started_ok Hr Hs) as Hd. split_and!.
  - intros more d' Hm Hr'. destruct (run_bounded more d d') as (_ & _ & ?); [done..|lia].
  - apply (settles (S (work d))); auto.
  - intros more d' Hm Hr'. destruct (run_bounded more d d') as (Hd' & Hs' & _); [done..|]. split.
    + intros Hq. destruct (internal_step d' Hd' Hs' Hq) as (l & d'' & ? & _ & ?). eauto.
    + intros Hq Hg. rewrite (quiet_accounted d' Hd' Hq).
      destruct (quiet_served d' Hd' Hq) as [-> _]; [|by rewrite app_nil_r].
      apply (run_served (ls ++ more) started d'); [apply started_ok|done|done| |done]. by rewrite run_app, Hr.
Qed.

(** A view is edited, and a style sheet while the cycle builds. *)
Definition session : list label :=
  [LChange "views/index.templ" true true; LFire 1; LCycle 0 true None; LChange "static/site.css" true true;
   LCycle 0 true None; LCycle 0 true None; LCycle 0 true None; LCycle 0 true None].
Definition after (ls : list label) : dev := default started (run started ls).
Definition session_end : list label := session ++ replicate 9 (LCycle 0 true None).
Lemma dev_settles_witness : accepted (after session_end) ≡ₚ handled (after session_end)
  ∧ handled (after session_end) = [("views/index.templ", true); ("static/site.css", true)]
  ∧ 9 ≤ work (after session).
Proof.
  assert (run started session = Some (after session)) as Hr by (vm_compute; reflexivity).
  assert (stopped (after session) = false) as Hs by (vm_compute; reflexivity).
  assert (run (after session) (replicate 9 (LCycle 0 true None)) = Some (after session_end)) as Hm by (vm_compute; reflexivity).
  assert (forallb internal (replicate 9 (LCycle 0 true None)) = true) as Hi by reflexivity.
  destruct (dev_settles session _ Hr Hs) as (Hw & _ & Hq). split; [|split].
  - apply (Hq _ _ Hi Hm); [split; vm_compute; reflexivity|vm_compute; reflexivity].
  - vm_compute. reflexivity.
  - exact (Hw _ _ Hi Hm).
Defined.

(** A change queued during a cycle whose build then fails is not built: the loop is
    quiet, with the change pending, until another change is made. *)
Theorem queued_change_stranded : ∃ ls d,
  run started ls = Some d ∧ stopped d = false ∧ quiet d ∧ busy d = false ∧
  pending d = true ∧ pendingBatch d = [("b.go", false)] ∧ ("b.go", false) ∉ handled d.
Proof.
  exists [LChange "a.go" false true; LFire 1; LChange "b.go" false true; LCycle 0 false None]. eexists.
  split; [vm_compute; reflexivity|]. split_and!; [reflexivity|by split|reflexivity..|]. cbn. set_solver.
Qed.
(** A signal while the new server starts leaves it running. *)
Theorem signal_leaves_server : ∃ ls d,
  run started ls = Some d ∧ stopped d = true ∧ running d ≠ ∅ ∧ bins d ≠ ∅.
Proof.
  exists [LChange "a.go" false true; LFire 1; LCycle 0 true None; LCycle 0 true None; LSignal]. eexists.
  split; [vm_compute; reflexivity|]. split_and!; [reflexivity|vm_compute; discriminate..].
Qed.
(** Whatever else changed with it, a view that was saved last gets a fragment only. *)
Theorem layout_change_patched body html :
  extractFragment body = Some html →
  Kind (notify (merge_sources ["views/layout.templ"; "main.go"; "views/index.templ"]) (Some body)) = "fragment".
Proof.
  intros Hb. unfold notify. replace (routeForView _) with (Some "/") by (vm_compute; reflexivity). by rewrite Hb.
Qed.
