(* ===== verification/Config.v ===== *)
(** * Project configurations

    Models src/internal/config/types.go and presets.go, and the part of
    src/internal/cli/init.go that makes a configuration out of the flags.  The
    named string types are strings; [Features] is [None] where the slice is nil. *)

From S2P Require Import Prelude GoStrings Unicode.

(** ** The values *)

Definition TypeAPI : string := "api".
Definition TypeSSR : string := "ssr".
Definition ArchFlat : string := "flat".
Definition ArchMVC : string := "mvc".
Definition DBSQLite : string := "sqlite".
Definition DBPostgres : string := "postgres".
Definition DBMySQL : string := "mysql".
Definition DBNone : string := "none".
Definition FeatureFlatBuffers : string := "flatbuffers".
Definition FeatureHTMX : string := "htmx".
Definition FeatureOpenAPI : string := "openapi".
Definition FeatureMetrics : string := "metrics".
Definition FeatureHealth : string := "health".
Definition FeatureGRPC : string := "grpc".
Definition FeatureCICD : string := "ci-cd".
Definition FeatureJWTAuth : string := "jwt-auth".
Definition FeatureMTLS : string := "mtls".
Definition FeatureOTel : string := "otel".

Definition ValidTypes : list string := [TypeAPI; TypeSSR].
Definition ValidArchs : list string := [ArchFlat; ArchMVC].
Definition ValidDBs : list string := [DBNone; DBSQLite; DBPostgres; DBMySQL].
Definition ValidFeatures : list string :=
  [FeatureHealth; FeatureMetrics; FeatureOpenAPI; FeatureFlatBuffers; FeatureHTMX; FeatureGRPC; FeatureJWTAuth; FeatureMTLS;
   FeatureOTel; FeatureCICD].

Record ProjectConfig := mkConfig {
  Name : string;
  Dir : string;
  ProjectType : string;
  Architecture : string;
  Database : string;
  Features : option (list string);
  FrameworkVersion : string;
}.
Definition features_of (c : ProjectConfig) : list string := default [] (Features c).

(** [containsType], [containsArch], [containsDB] and [containsFeature]. *)
Fixpoint contains_value (slice : list string) (item : string) : bool :=
  match slice with
  | [] => false
  | s :: slice => if String.eqb s item then true else contains_value slice item
  end.
(** [joinTypes], [joinArchs], [joinDBs] and [joinFeatures]. *)
Fixpoint join_from (i : nat) (slice : list string) (out : string) : string :=
  match slice with
  | [] => out
  | s :: slice => join_from (S i) slice ((if 0 <? i then out +:+ ", " else out) +:+ s)
  end.
Definition join_values (slice : list string) : string := join_from 0 slice "".

Definition invalid (what value : string) (available : list string) : error :=
  what +:+ " " +:+ quote value +:+ " (available: " +:+ join_values available +:+ ")".
Fixpoint check_features (fs : list string) : result unit :=
  match fs with
  | [] => Ok tt
  | f :: fs => if contains_value ValidFeatures f then check_features fs else Err (invalid "unknown feature" f ValidFeatures)
  end.
Definition Validate (c : ProjectConfig) : result unit :=
  if String.eqb (Name c) "" then Err "project name cannot be empty"
  else if negb (contains_value ValidTypes (ProjectType c)) then Err (invalid "invalid project type" (ProjectType c) ValidTypes)
  else if negb (contains_value ValidArchs (Architecture c)) then Err (invalid "invalid architecture" (Architecture c) ValidArchs)
  else if negb (contains_value ValidDBs (Database c)) then Err (invalid "invalid database" (Database c) ValidDBs)
  else check_features (features_of c).

Definition or_default (s d : string) : string := if String.eqb s "" then d else s.
Definition Normalize (c : ProjectConfig) : ProjectConfig :=
  let t := or_default (ProjectType c) TypeAPI in
  mkConfig (Name c) (Dir c) t
    (or_default (Architecture c) (if String.eqb t TypeSSR then ArchMVC else ArchFlat))
    (or_default (Database c) DBNone) (Some (features_of c)) (FrameworkVersion c).

Definition HasFeature (c : ProjectConfig) (feature : string) : bool := existsb (λ f, String.eqb f feature) (features_of c).
Definition UseSQLite (c : ProjectConfig) : bool := String.eqb (Database c) DBSQLite.
Definition UsePostgres (c : ProjectConfig) : bool := String.eqb (Database c) DBPostgres.
Definition UseMySQL (c : ProjectConfig) : bool := String.eqb (Database c) DBMySQL.
Definition UseDatabase (c : ProjectConfig) : bool := negb (String.eqb (Database c) DBNone).
Definition Placeholder (c : ProjectConfig) : string := if String.eqb (Database c) DBPostgres then "$1" else "?".

(** ** Presets *)

Record Preset := mkPreset {
  p_Name : string;
  p_Description : string;
  p_Type : string;
  p_Architecture : string;
  p_Database : string;
  p_Features : list string;
}.
Definition PresetAPI : Preset :=
  mkPreset "api" "Flat JSON API + health + proxy (opt-ins: metrics, openapi, grpc, jwt-auth, mtls, otel, flatbuffers, sqlite)"
    TypeAPI ArchFlat DBNone [FeatureHealth].
Definition PresetWebapp : Preset :=
  mkPreset "webapp" "MVC SSR + HTMX + SQLite + proxy (opt-ins: metrics, openapi, jwt-auth, mtls, otel, flatbuffers)"
    TypeSSR ArchMVC DBSQLite [FeatureHTMX; FeatureHealth].
Definition GetPreset (name : string) : option Preset :=
  if String.eqb name (p_Name PresetAPI) then Some PresetAPI
  else if String.eqb name (p_Name PresetWebapp) then Some PresetWebapp
  else None.
Definition ListPresets : list Preset := [PresetAPI; PresetWebapp].
Definition ApplyPreset (c : ProjectConfig) (presetName : string) : ProjectConfig :=
  match GetPreset presetName with
  | None => c
  | Some p =>
      mkConfig (Name c) (Dir c) (or_default (ProjectType c) (p_Type p)) (or_default (Architecture c) (p_Architecture p))
        (or_default (Database c) (p_Database p))
        (match features_of c with [] => Some (p_Features p) | _ => Features c end) (FrameworkVersion c)
  end.

(** ** Features from the command line *)

(** [strings.ReplaceAll] of one byte by another. *)
Definition replace_byte (a b : ascii) : string → string := str_map (λ c, if Ascii.eqb c a then b else c).

(** [lower_table]: [unicode.ToLower] beyond ASCII. *)
Section Names.
Context (lower_table : Z → Z).

Definition normalizeFeatureName (raw : string) : option string :=
  let normalized := replace_byte " " "-" (replace_byte "_" "-" (trim_space (ToLower lower_table raw))) in
  let named := existsb (String.eqb normalized) in
  if named ["flatbuffers"; "flat-buffers"] then Some FeatureFlatBuffers
  else if named ["htmx"] then Some FeatureHTMX
  else if named ["openapi"; "swagger"] then Some FeatureOpenAPI
  else if named ["metrics"; "prometheus"] then Some FeatureMetrics
  else if named ["health"; "healthcheck"; "health-check"] then Some FeatureHealth
  else if named ["grpc"] then Some FeatureGRPC
  else if named ["jwt-auth"; "jwtauth"; "jwt_auth"] then Some FeatureJWTAuth
  else if named ["mtls"; "m-tls"; "mutual-tls"] then Some FeatureMTLS
  else if named ["otel"; "opentelemetry"] then Some FeatureOTel
  else if named ["ci-cd"; "cicd"; "ci"; "github-actions"; "gitlab-ci"] then Some FeatureCICD
  else None.

(** [strings.FieldsFunc]: the word that the input goes on with, and the next ones. *)
Definition separator (c : ascii) : bool :=
  Ascii.eqb c "," || Ascii.eqb c ";" || byte_in 10 10 c || byte_in 13 13 c.
Fixpoint fields_func (s : string) : string * list string :=
  match s with
  | EmptyString => ("", [])
  | String c r => if separator c then ("", push_word (fields_func r)) else add_byte c (fields_func r)
  end.
Definition FieldsFunc (s : string) : list string := push_word (fields_func s).

(** [seen] holds what has been taken, [acc] the same in reverse order. *)
Fixpoint take_features (parts : list string) (acc : list string) : result (list string) :=
  match parts with
  | [] => Ok (rev acc)
  | part :: parts =>
      match normalizeFeatureName part with
      | None => Err ("unknown feature: " +:+ trim_space part)
      | Some f => take_features parts (if existsb (String.eqb f) acc then acc else f :: acc)
      end
  end.
Definition parseFeatures (featuresStr : string) : result (list string) :=
  if String.eqb featuresStr "" then Ok [] else take_features (FieldsFunc featuresStr) [].

Fixpoint unseen (fs : list string) (merged : list string) : list string :=
  match fs with
  | [] => rev merged
  | f :: fs => unseen fs (if existsb (String.eqb f) merged then merged else f :: merged)
  end.
Definition mergeFeatures (base extra : list string) : list string := unseen (base ++ extra) [].

(** The flags of [fgoths init], parsed. *)
Record init_flags := mkInitFlags { i_name : string; i_dir : string; i_db : string; i_features : string; i_preset : string }.
Definition validateDB (db : string) : bool := existsb (String.eqb db) ValidDBs.
Definition validateArch (arch : string) : bool := existsb (String.eqb arch) ValidArchs.
Definition validateType (t : string) : bool := existsb (String.eqb t) ValidTypes.
(** [RunInit] up to the call of [generator.Generate]. *)
Definition init_config (frameworkVersion : string) (f : init_flags) : result ProjectConfig :=
  if String.eqb (i_preset f) "" then Err "--preset is required: api or webapp"
  else if String.eqb (i_name f) "" then Err "project name is required"
  else
    match GetPreset (i_preset f) with
    | None => Err ("unknown preset: " +:+ i_preset f)
    | Some p =>
        match (if String.eqb (i_features f) "" then Ok (p_Features p)
               else match parseFeatures (i_features f) with
                    | Err e => Err e
                    | Ok extra => Ok (mergeFeatures (p_Features p) extra)
                    end) with
        | Err e => Err e
        | Ok features =>
            if String.eqb (i_db f) "" then
              Ok (mkConfig (i_name f) (i_dir f) (p_Type p) (p_Architecture p) (p_Database p) (Some features) frameworkVersion)
            else if negb (validateDB (i_db f)) then Err ("unsupported database: " +:+ i_db f)
            else Ok (mkConfig (i_name f) (i_dir f) (p_Type p) (p_Architecture p) (i_db f) (Some features) frameworkVersion)
        end
    end.
End Names.

(** * Lemmas *)

Lemma existsb_eqb_spec s l : existsb (String.eqb s) l = bool_decide (s ∈ l).
Proof.
  apply eq_true_iff_eq. rewrite existsb_true_iff, bool_decide_eq_true. split.
  - by intros (x & Hx & ->%String.eqb_eq).
  - intros Hs. exists s. by rewrite String.eqb_refl.
Qed.
Lemma contains_value_spec slice item : contains_value slice item = bool_decide (item ∈ slice).
Proof.
  induction slice as [|s slice IH]; cbn; [done|]. destruct (String.eqb_spec s item) as [->|Hne].
  - symmetry. apply bool_decide_eq_true. left.
  - rewrite IH. apply bool_decide_ext. rewrite elem_of_cons. naive_solver.
Qed.
Lemma check_features_spec fs : check_features fs = Ok tt ↔ ∀ f, f ∈ fs → f ∈ ValidFeatures.
Proof.
  induction fs as [|f fs IH]; cbn [check_features]; [split; [intros _ f []%elem_of_nil|done]|].
  rewrite contains_value_spec. case_bool_decide as Hf.
  - rewrite IH. split; [intros H g [->|Hg]%elem_of_cons; auto|]. intros H g Hg. apply H. by right.
  - split; [done|]. intros H. exfalso. apply Hf, H. left.
Qed.
Lemma Validate_spec c :
  Validate c = Ok tt ↔ Name c ≠ "" ∧ ProjectType c ∈ ValidTypes ∧ Architecture c ∈ ValidArchs ∧ Database c ∈ ValidDBs
    ∧ ∀ f, f ∈ features_of c → f ∈ ValidFeatures.
Proof.
  unfold Validate. rewrite !contains_value_spec, <- check_features_spec.
  destruct (String.eqb_spec (Name c) ""); [split; [done|by intros []]|].
  repeat case_bool_decide; cbn [negb]; split; try done; naive_solver.
Qed.
Lemma or_default_id s d : s ≠ "" → or_default s d = s.
Proof. unfold or_default. by destruct (String.eqb_spec s ""). Qed.
Lemma or_default_elem s d (l : list string) : s = "" ∨ s ∈ l → d ∈ l → or_default s d ∈ l.
Proof. unfold or_default. destruct (String.eqb_spec s ""); naive_solver. Qed.
Lemma or_default_ne s d : d ≠ "" → or_default s d ≠ "".
Proof. unfold or_default. by destruct (String.eqb_spec s ""). Qed.

Lemma valid_nonempty (s : string) (l : list string) : s ∈ l → "" ∉ l → s ≠ "".
Proof. by intros Hs Hl ->. Qed.

(** Collecting without repetition, newest first. *)
Definition add_new (acc : list string) (f : string) : list string := if existsb (String.eqb f) acc then acc else f :: acc.
Lemma add_new_elem acc f g : g ∈ add_new acc f ↔ g = f ∨ g ∈ acc.
Proof. unfold add_new. rewrite existsb_eqb_spec. case_bool_decide; [naive_solver|by rewrite elem_of_cons]. Qed.
Lemma add_new_NoDup acc f : NoDup acc → NoDup (add_new acc f).
Proof. unfold add_new. rewrite existsb_eqb_spec. case_bool_decide; [done|by constructor]. Qed.
Lemma fold_new_elem fs acc g : g ∈ foldl add_new acc fs ↔ g ∈ fs ∨ g ∈ acc.
Proof.
  revert acc. induction fs as [|f fs IH]; intros acc; cbn; [set_solver|]. rewrite IH, add_new_elem, elem_of_cons. tauto.
Qed.
Lemma fold_new_NoDup fs acc : NoDup acc → NoDup (foldl add_new acc fs).
Proof. revert acc. induction fs; cbn; eauto using add_new_NoDup. Qed.
Lemma fold_new_fresh fs acc : NoDup fs → (∀ f, f ∈ fs → f ∉ acc) → foldl add_new acc fs = rev fs ++ acc.
Proof.
  intros Hn. revert acc. induction Hn as [|f fs Hf Hn IH]; intros acc Ha; cbn; [done|].
  rewrite IH; [unfold add_new|].
  - rewrite existsb_eqb_spec, bool_decide_eq_false_2 by (apply Ha; left). by rewrite <- (assoc_L (++)).
  - intros g Hg. rewrite add_new_elem. intros [->|?]; [done|]. eapply Ha; [by right|done].
Qed.
(** What was collected before stays in front. *)
Lemma fold_new_prefix fs acc : ∃ more, foldl add_new acc fs = more ++ acc.
Proof.
  revert acc. induction fs as [|f fs IH]; intros acc; cbn; [by exists []|]. destruct (IH (add_new acc f)) as [more ->].
  unfold add_new. destruct (existsb _ acc); [by eexists|]. exists (more ++ [f]). by rewrite <- (assoc_L (++)).
Qed.

Lemma mergeFeatures_fold base extra : mergeFeatures base extra = rev (foldl add_new [] (base ++ extra)).
Proof.
  unfold mergeFeatures. generalize (base ++ extra) at 1 2 as l. generalize ([] : list string) as acc.
  intros acc l. revert acc. induction l as [|f l IH]; intros acc; cbn; [done|]. apply IH.
Qed.
Lemma elem_of_rev' {A} (x : A) l : x ∈ rev l ↔ x ∈ l.
Proof. by rewrite !list_elem_of_In, <- in_rev. Qed.
Lemma mergeFeatures_elem base extra f : f ∈ mergeFeatures base extra ↔ f ∈ base ∨ f ∈ extra.
Proof. rewrite mergeFeatures_fold, elem_of_rev', fold_new_elem, elem_of_app. set_solver. Qed.
Lemma mergeFeatures_NoDup base extra : NoDup (mergeFeatures base extra).
Proof. rewrite mergeFeatures_fold, <- Permutation_rev. apply fold_new_NoDup. constructor. Qed.
(** The defaults come first, as they are. *)
Lemma mergeFeatures_defaults base extra : NoDup base → ∃ more, mergeFeatures base extra = base ++ more.
Proof.
  intros Hn. rewrite mergeFeatures_fold, foldl_app, (fold_new_fresh base []), app_nil_r; [|done|intros f _ []%elem_of_nil].
  destruct (fold_new_prefix extra (rev base)) as [more ->]. rewrite rev_app_distr, rev_involutive. by eexists.
Qed.

Lemma mapM_elem {A B} (g : A → option B) l k : mapM g l = Some k → ∀ y, y ∈ k ↔ ∃ x, x ∈ l ∧ g x = Some y.
Proof.
  intros H%mapM_Some. induction H as [|x y l k Hxy H IH]; intros z; [set_solver|].
  rewrite elem_of_cons, IH. split.
  - intros [->|(x' & ? & ?)]; [exists x; by split; [left|]|]. exists x'. by split; [right|].
  - intros (x' & [->|?]%elem_of_cons & ?); [left; congruence|right; eauto].
Qed.

(** The table of names. *)
Section NameLemmas.
Context (lower_table : Z → Z).

Lemma normalize_valid raw f : normalizeFeatureName lower_table raw = Some f → f ∈ ValidFeatures.
Proof.
  unfold normalizeFeatureName. intros E. cbv zeta in E. apply (bool_decide_eq_true (f ∈ ValidFeatures)).
  repeat case_match; simplify_eq; vm_compute; reflexivity.
Qed.
(** The names that the program prints are names it reads. *)
Lemma normalize_canonical f : f ∈ ValidFeatures → normalizeFeatureName lower_table f = Some f.
Proof.
  intros Hf. unfold normalizeFeatureName.
  repeat (apply elem_of_cons in Hf as [->|Hf]; [rewrite ToLower_ascii by reflexivity; vm_compute; reflexivity|]).
  by apply elem_of_nil in Hf.
Qed.

Lemma take_features_spec parts acc :
  match take_features lower_table parts acc with
  | Ok fs => ∃ gs, mapM (normalizeFeatureName lower_table) parts = Some gs ∧ fs = rev (foldl add_new acc gs)
  | Err e => mapM (normalizeFeatureName lower_table) parts = None
      ∧ ∃ part, part ∈ parts ∧ normalizeFeatureName lower_table part = None ∧ e = "unknown feature: " +:+ trim_space part
  end.
Proof.
  revert acc. induction parts as [|part parts IH]; intros acc; cbn [take_features]; [by exists []|].
  cbn [mapM]. destruct (normalizeFeatureName lower_table part) as [f|] eqn:Ef; cbn.
  - specialize (IH (add_new acc f)). unfold add_new in IH at 1. destruct (take_features _ _ _).
    + destruct IH as (gs & -> & ->). by exists (f :: gs).
    + destruct IH as (-> & part' & Hp & ? & ->). split; [done|]. exists part'. split; [by right|done].
  - split; [done|]. exists part. split; [left|done].
Qed.

Lemma FieldsFunc_word w rest :
  all_bytes (λ c, negb (separator c)) w = true → w ≠ "" → FieldsFunc (w +:+ String "," rest) = w :: FieldsFunc rest.
Proof.
  intros Hw Hne. unfold FieldsFunc.
  assert (fields_func (w +:+ String "," rest) = (w, push_word (fields_func rest))) as ->.
  { clear Hne. induction w as [|c w IH]; cbn in *; [done|]. apply andb_true_iff in Hw as [Hc Hw].
    apply negb_true_iff in Hc. rewrite Hc. by rewrite (IH Hw). }
  unfold push_word at 1. cbn. by destruct (String.eqb_spec w "").
Qed.
Lemma FieldsFunc_last w : all_bytes (λ c, negb (separator c)) w = true → w ≠ "" → FieldsFunc w = [w].
Proof.
  intros Hw Hne. unfold FieldsFunc. assert (fields_func w = (w, [])) as ->.
  { clear Hne. induction w as [|c w IH]; cbn in *; [done|]. apply andb_true_iff in Hw as [Hc Hw].
    apply negb_true_iff in Hc. rewrite Hc. by rewrite (IH Hw). }
  unfold push_word. cbn. by destruct (String.eqb_spec w "").
Qed.
Lemma FieldsFunc_join l :
  Forall (λ w, all_bytes (λ c, negb (separator c)) w = true ∧ w ≠ "") l → FieldsFunc (join l ",") = l.
Proof.
  induction 1 as [|w l [Hw Hne] Hl IH]; [done|]. destruct l as [|w' l].
  - by apply FieldsFunc_last.
  - change (join (w :: w' :: l) ",") with (w +:+ String "," (join (w' :: l) ",")). by rewrite FieldsFunc_word, IH.
Qed.
Lemma valid_feature_word f : f ∈ ValidFeatures → all_bytes (λ c, negb (separator c)) f = true ∧ f ≠ "".
Proof.
  intros Hf. repeat (apply elem_of_cons in Hf as [->|Hf]; [split; [vm_compute; reflexivity|done]|]). by apply elem_of_nil in Hf.
Qed.
Lemma mapM_canonical l : (∀ f, f ∈ l → f ∈ ValidFeatures) → mapM (normalizeFeatureName lower_table) l = Some l.
Proof.
  induction l as [|f l IH]; intros Hl; [done|]. cbn [mapM]. rewrite normalize_canonical by (apply Hl; left). cbn.
  rewrite IH; [done|]. intros g Hg. apply Hl. by right.
Qed.
End NameLemmas.

Lemma preset_sound name p : GetPreset name = Some p →
  p_Type p ∈ ValidTypes ∧ p_Architecture p ∈ ValidArchs ∧ p_Database p ∈ ValidDBs
  ∧ (∀ f, f ∈ p_Features p → f ∈ ValidFeatures) ∧ NoDup (p_Features p).
Proof.
  unfold GetPreset. intros E. repeat case_match; simplify_eq; (split_and!; try (by apply (bool_decide_unpack _); vm_compute));
    by rewrite <- Forall_forall; apply (bool_decide_unpack _); vm_compute.
Qed.
Lemma parsed_valid lower_table s fs g : parseFeatures lower_table s = Ok fs → g ∈ fs → g ∈ ValidFeatures.
Proof.
  unfold parseFeatures. destruct (String.eqb s ""); [intros [= <-] []%elem_of_nil|]. intros E Hg.
  pose proof (take_features_spec lower_table (FieldsFunc s) []) as H. rewrite E in H. destruct H as (gs & Hm & ->).
  rewrite elem_of_rev', fold_new_elem in Hg. destruct Hg as [Hg|[]%elem_of_nil]. 
  apply (mapM_elem _ _ _ Hm) in Hg as (part & _ & Hp). by eapply normalize_valid.
Qed.

(** * Properties *)

(** The feature list of the command line is read exactly: it is refused, with the name, when some
    part of it is no feature; otherwise the result has, once each and in the order they are first named,
    the features of the parts, all of them supported.  A list of supported features, printed with commas,
    is read back. *)
Theorem parse_features_exact lower_table s :
  match parseFeatures lower_table s with
  | Ok fs =>
      NoDup fs ∧ (∀ f, f ∈ fs → f ∈ ValidFeatures)
      ∧ (∀ f, f ∈ fs ↔ ∃ part, part ∈ FieldsFunc s ∧ normalizeFeatureName lower_table part = Some f)
  | Err e => ∃ part, part ∈ FieldsFunc s ∧ normalizeFeatureName lower_table part = None
      ∧ e = "unknown feature: " +:+ trim_space part
  end ∧
  ∀ fs, NoDup fs → (∀ f, f ∈ fs → f ∈ ValidFeatures) → parseFeatures lower_table (join fs ",") = Ok fs.
Proof.
  split.
  - unfold parseFeatures. destruct (String.eqb_spec s "") as [->|_].
    { split_and!; [constructor|intros f []%elem_of_nil|]. intros f. cbn. set_solver. }
    pose proof (take_features_spec lower_table (FieldsFunc s) []) as H. destruct (take_features _ _ _).
    + destruct H as (gs & Hg & ->). pose proof (mapM_elem _ _ _ Hg) as Hin.
      split_and!.
      * rewrite <- Permutation_rev. apply fold_new_NoDup. constructor.
      * intros f. rewrite elem_of_rev', fold_new_elem, Hin. intros [(p & _ & Hp)|[]%elem_of_nil]. by eapply normalize_valid.
      * intros f. rewrite elem_of_rev', fold_new_elem, Hin. set_solver.
    + by destruct H as [_ H].
  - intros fs Hn Hv. destruct fs as [|f fs]; [done|]. unfold parseFeatures.
    assert (Forall (λ w, all_bytes (λ c, negb (separator c)) w = true ∧ w ≠ "") (f :: fs)) as Hw.
    { apply Forall_forall. intros g Hg. by apply valid_feature_word, Hv. }
    pose proof (FieldsFunc_join _ Hw) as Hj. destruct (String.eqb_spec (join (f :: fs) ",") "") as [E|_]; [by rewrite E in Hj|].
    rewrite Hj. pose proof (take_features_spec lower_table (f :: fs) []) as H.
    rewrite mapM_canonical in H by done. destruct (take_features _ _ _).
    + destruct H as (gs & [= <-] & ->). by rewrite fold_new_fresh, app_nil_r, rev_involutive by (done || set_solver).
    + by destruct H.
Qed.

(** What [fgoths init] hands to the generator is complete and valid: defaulting leaves it as it is and
    validation accepts it; its type and layout are the preset's, its features the preset's followed by the
    ones asked for, without repetition, and its database the one asked for, or else the preset's. *)
Theorem init_config_valid lower_table version f c :
  init_config lower_table version f = Ok c →
  Validate (Normalize c) = Ok tt ∧ Normalize c = c ∧
  ∃ p more, GetPreset (i_preset f) = Some p ∧ ProjectType c = p_Type p ∧ Architecture c = p_Architecture p
    ∧ Database c = or_default (i_db f) (p_Database p) ∧ Features c = Some (p_Features p ++ more) ∧ NoDup (p_Features p ++ more)
    ∧ Name c = i_name f ∧ Dir c = i_dir f.
Proof.
  unfold init_config. intros E. destruct (String.eqb (i_preset f) ""); [done|].
  destruct (String.eqb_spec (i_name f) "") as [|Hname]; [done|]. destruct (GetPreset (i_preset f)) as [p|] eqn:Ep; [|done].
  destruct (preset_sound _ _ Ep) as (Ht & Ha & Hd & Hf & Hn).
  destruct (if String.eqb (i_features f) "" then _ else _) as [fs|] eqn:Efs; [|done].
  assert (∃ more, fs = p_Features p ++ more ∧ NoDup fs ∧ ∀ g, g ∈ fs → g ∈ ValidFeatures) as (more & -> & Hnd & Hv).
  { destruct (String.eqb (i_features f) ""); [injection Efs as <-; exists []; rewrite app_nil_r; auto|].
    destruct (parseFeatures _ _) as [extra|] eqn:Ee; [|done]. injection Efs as <-.
    destruct (mergeFeatures_defaults (p_Features p) extra Hn) as [more Em]. exists more. split_and!; [done| |].
    - apply mergeFeatures_NoDup.
    - intros g [?|Hg]%mergeFeatures_elem; [auto|]. by eapply parsed_valid. }
  assert (∃ db, c = mkConfig (i_name f) (i_dir f) (p_Type p) (p_Architecture p) db (Some (p_Features p ++ more)) version
    ∧ db = or_default (i_db f) (p_Database p) ∧ db ∈ ValidDBs) as (db & -> & Hdb & Hdv).
  { unfold or_default, validateDB in *. rewrite existsb_eqb_spec in E. destruct (String.eqb (i_db f) ""); [by eexists; simplify_eq|].
    case_bool_decide; cbn in E; [|done]. by eexists; simplify_eq. }
  assert (Normalize (mkConfig (i_name f) (i_dir f) (p_Type p) (p_Architecture p) db (Some (p_Features p ++ more)) version)
    = mkConfig (i_name f) (i_dir f) (p_Type p) (p_Architecture p) db (Some (p_Features p ++ more)) version) as HN.
  { unfold Normalize. cbn. rewrite !or_default_id; [done|..]; (eapply valid_nonempty; [eassumption|by apply (bool_decide_unpack _); vm_compute]). }
  rewrite HN. split_and!; [by apply Validate_spec|done|]. exists p, more. by split_and!.
Qed.

Definition demo_flags : init_flags := mkInitFlags "shop" "" "postgres" "Metrics; jwt auth,health" "webapp".
Lemma init_config_valid_witness : ∃ c, init_config id "v1.2.3" demo_flags = Ok c ∧ Validate (Normalize c) = Ok tt
  ∧ Features c = Some ["htmx"; "health"; "metrics"; "jwt-auth"].
Proof.
  eexists. split; [vm_compute; reflexivity|]. split; [|reflexivity].
  apply (init_config_valid id "v1.2.3" demo_flags). vm_compute. reflexivity.
Defined.
Lemma parse_features_exact_witness :
  parseFeatures id (join ["grpc"; "ci-cd"] ",") = Ok ["grpc"; "ci-cd"] ∧ parseFeatures id "grpc, rust" = Err "unknown feature: rust".
Proof.
  split; [|vm_compute; reflexivity]. apply (proj2 (parse_features_exact id "")).
  - apply (bool_decide_unpack _). vm_compute. done.
  - rewrite <- Forall_forall. apply (bool_decide_unpack _). vm_compute. done.
Defined.
