(* ===== verification/Generator.v ===== *)
(** * The project generator

    Models src/internal/generator/generator.go.  Paths on disk are components below
    the root of the file system.  The embedded templates are a tree; what a
    template renders to, how Go code is formatted, the hash and the JSON encoder
    are parameters, as the first two and the last are variables of the source. *)

From S2P Require Import Prelude GoStrings Config Os Filepath ProjectFs.

(** ** More calls on directories *)

Definition within (dir p : path) : bool := bool_decide (dir `prefix_of` p).
(** What lies below [dir], itself included, as [filepath.Walk] visits it: a
    directory before its children, those by name. *)
Fixpoint walk_below (fuel : nat) (t : gmap path node) (p : path) : list path :=
  match fuel with
  | 0 => []
  | S fuel =>
      match t !! p with
      | None => []
      | Some Dir => p :: ((children t p) ≫= λ c, walk_below fuel t (p ++ [c]))
      | Some _ => [p]
      end
  end.
Definition depth (t : gmap path node) : nat := S (max_list (length <$> (map_to_list t).*1)).
Definition walk (t : gmap path node) (p : path) : list path := walk_below (depth t) t p.

(** [os.RemoveAll]; when it fails on the way, part is gone, from the leaves. *)
Definition drop_paths (t : gmap path node) (ps : list path) : gmap path node := foldr delete t ps.
Definition removeAll (dir : path) : M unit := λ fs,
  match next_fault fs with
  | (fs, Ok IoOk) => (set_tree fs (filter (λ kv, within dir kv.1 = false) (tree fs)), Ok tt)
  | (fs, Ok (IoRefused e)) => (fs, Err e)
  | (fs, Ok (IoTorn e n)) => (set_tree fs (drop_paths (tree fs) (take n (reverse (walk (tree fs) dir)))), Err e)
  | (fs, Err e) => (fs, Err e)
  end.

(** [os.MkdirTemp]. *)
Definition mkdirTemp (dir : path) (prefix : string) : M path :=
  let* o := next_fault in
  match io_error o with
  | Some e => fail e
  | None => λ fs,
      if negb (parent_dir (tree fs) dir) then (fs, Err "no such file or directory")
      else match first_free (tree fs) dir prefix (names fs) with
           | None => (fs, Err "file exists")
           | Some (p, ns) => (mkProject (<[p := Dir]> (tree fs)) (faults fs) ns (umask fs), Ok p)
           end
  end.

(** [os.Rename] of a directory; [exdev] is the failure between file systems. *)
Definition exdev : error := "invalid cross-device link".
Definition rebase (from to p : path) : path := to ++ drop (length from) p.
Definition move_tree (t : gmap path node) (from to : path) : gmap path node :=
  list_to_map ((λ kv, (rebase from to kv.1, kv.2)) <$> map_to_list (filter (λ kv, within from kv.1 = true) t))
    ∪ filter (λ kv, within from kv.1 = false) t.
Definition renameDir (from to : path) : M unit :=
  let* o := next_fault in
  match io_error o with
  | Some e => fail e
  | None => λ fs,
      let t := tree fs in
      if within from to then (fs, Err "invalid argument")
      else if negb (parent_dir t (dirname to)) then (fs, Err "no such file or directory")
      else match t !! from, t !! to with
           | None, _ => (fs, Err "no such file or directory")
           | Some _, None => (set_tree fs (move_tree t from to), Ok tt)
           | Some _, Some Dir =>
               match children t to with
               | [] => (set_tree fs (move_tree t from to), Ok tt)
               | _ => (fs, Err "directory not empty")
               end
           | Some _, Some _ => (fs, Err "not a directory")
           end
  end.

(** ** [copyDir], over the nodes that [filepath.Walk] visits *)

Definition copyFile (src dst : path) (mode : Z) : M unit :=
  let* content := readFile src in
  writeFile dst content mode.
Fixpoint copy_nodes (src dst : path) (ps : list path) : M unit :=
  match ps with
  | [] => ret tt
  | p :: ps =>
      let* info := lstat p in
      let target := rebase src dst p in
      do* match info with
          | None => fail "no such file or directory"
          | Some Dir => mkdirAll target
          | Some n => copyFile p target (perm n)
          end in
      copy_nodes src dst ps
  end.
Definition copyDir (src dst : path) : M unit :=
  let* t := get_tree in copy_nodes src dst (walk t src).
Definition finalizeProjectDir (stagingRoot projectRoot : path) : M unit :=
  let* r := attempt (renameDir stagingRoot projectRoot) in
  match r with
  | Ok _ => ret tt
  | Err e =>
      if negb (String.eqb e exdev) then fail e
      else do* copyDir stagingRoot projectRoot in removeAll stagingRoot
  end.

(** ** Names *)

(** [filepath.Abs] is [Join] with the working directory; finding that may fail. *)
Definition resolve (cwd : path) (name : string) : path :=
  if IsAbs name then clean_parts name else clean_parts ("/" +:+ join (cwd ++ [name]) "/").
Definition single_name_error : error :=
  "project name must be a single directory name; use --dir to choose a target directory".
Definition projectRoot (cwd : path) (name dir : string) : M path :=
  if negb (String.eqb (Base name) name) || String.eqb name "." || String.eqb name ".." || mem_byte "/" name then
    fail single_name_error
  else if String.eqb dir "" then ret (resolve cwd (Clean name))
  else
    let* abs :=
      (if IsAbs dir then ret (clean_parts dir)
       else wrap (λ e, "invalid target directory " +:+ quote dir +:+ ": " +:+ e)
              (let* o := next_fault in match io_error o with Some e => fail e | None => ret (resolve cwd dir) end)) in
    ret (abs ++ [name]).
Definition is_digit (c : ascii) : bool := byte_in 48 57 c.
Definition IsReleaseVersion (version : string) : bool :=
  let ps := split (trim_prefix version "v") "." in
  (length ps =? 3) && forallb (λ p, negb (String.eqb p "") && all_bytes is_digit p) ps.

(** ** The embedded templates *)

(** An [embed.FS]: the children of a directory are in the order of their names. *)
Inductive embedded := TFile (content : string) | TDir (children : list (string * embedded)).
Fixpoint child (name : string) (l : list (string * embedded)) : option embedded :=
  match l with
  | [] => None
  | (n, e) :: l => if String.eqb n name then Some e else child name l
  end.
Fixpoint find_embedded (e : embedded) (p : list string) : option embedded :=
  match p, e with
  | [], _ => Some e
  | n :: p, TDir l => match child n l with Some e => find_embedded e p | None => None end
  | _ :: _, TFile _ => None
  end.
Definition embed_missing (op name : string) : error := op +:+ " " +:+ name +:+ ": file does not exist".
Definition embed_ReadFile (e : embedded) (name : string) : result string :=
  match find_embedded e (split name "/") with
  | Some (TFile c) => Ok c
  | Some (TDir _) => Err ("read " +:+ name +:+ ": is a directory")
  | None => Err (embed_missing "open" name)
  end.
Definition embed_ReadDir (e : embedded) (name : string) : result (list (string * embedded)) :=
  match find_embedded e (split name "/") with
  | Some (TDir l) => Ok l
  | Some (TFile _) => Err ("read " +:+ name +:+ ": not a directory")
  | None => Err (embed_missing "open" name)
  end.

(** The directory src/internal/generator/templates, by what its files hold. *)
Section Templates.
Context (content : string → string).
Local Abbreviation f p n := (n, TFile (content (p +:+ n))).
Definition templatesFS : embedded :=
  TDir [("templates", TDir
      [("architectures", TDir
        [("flat", TDir
          [("handlers", TDir
            [f "templates/architectures/flat/handlers/" "handlers.go.tpl";
             f "templates/architectures/flat/handlers/" "handlers_test.go.tpl"]);
           f "templates/architectures/flat/" "main.go.tpl"]);
         ("mvc", TDir
          [("handlers", TDir
            [f "templates/architectures/mvc/handlers/" "counter.go.tpl";
             f "templates/architectures/mvc/handlers/" "counter_test.go.tpl";
             f "templates/architectures/mvc/handlers/" "index.go.tpl";
             f "templates/architectures/mvc/handlers/" "index_test.go.tpl";
             f "templates/architectures/mvc/handlers/" "routes_gen.go.tpl"]);
           f "templates/architectures/mvc/" "main.go.tpl";
           ("middleware", TDir
            [f "templates/architectures/mvc/middleware/" "logger.go.tpl"]);
           ("models", TDir
            [f "templates/architectures/mvc/models/" "user.go.tpl"]);
           ("schemas", TDir
            [f "templates/architectures/mvc/schemas/" "app.fbs.tpl"]);
           ("views", TDir
            [f "templates/architectures/mvc/views/" "about.templ.tpl";
             f "templates/architectures/mvc/views/" "index.templ.tpl";
             f "templates/architectures/mvc/views/" "layout.templ.tpl"])])]);
       ("base", TDir
        [f "templates/base/" ".dockerignore.tpl";
         f "templates/base/" "Dockerfile.tpl";
         f "templates/base/" "Makefile.tpl";
         f "templates/base/" "README.md.tpl";
         ("cmd", TDir
          [("assetmanifest", TDir
            [f "templates/base/cmd/assetmanifest/" "main.go.tpl"]);
           ("dev", TDir
            [f "templates/base/cmd/dev/" "main.go.tpl"])]);
         f "templates/base/" "gitignore.tpl";
         f "templates/base/" "go.mod.tpl";
         ("internal", TDir
          [("assets", TDir
            [f "templates/base/internal/assets/" "assets.go.tpl";
             f "templates/base/internal/assets/" "manifest_gen.go.tpl"])]);
         ("pkg", TDir
          [("runtime", TDir
            [f "templates/base/pkg/runtime/" "health.go.tpl";
             ("hmr", TDir
              [f "templates/base/pkg/runtime/hmr/" "client.go.tpl";
               f "templates/base/pkg/runtime/hmr/" "codec.go.tpl";
               f "templates/base/pkg/runtime/hmr/" "hmr.go.tpl"]);
             f "templates/base/pkg/runtime/" "hmr_server.go.tpl";
             f "templates/base/pkg/runtime/" "metrics.go.tpl";
             f "templates/base/pkg/runtime/" "proxy.go.tpl";
             f "templates/base/pkg/runtime/" "requestid.go.tpl";
             f "templates/base/pkg/runtime/" "reuseport_linux.go.tpl";
             f "templates/base/pkg/runtime/" "reuseport_other.go.tpl";
             f "templates/base/pkg/runtime/" "reuseport_posix.go.tpl";
             f "templates/base/pkg/runtime/" "router.go.tpl";
             f "templates/base/pkg/runtime/" "server.go.tpl"])]);
         ("static", TDir
          [("css", TDir
            [f "templates/base/static/css/" "app.css.tpl"])])]);
       ("database", TDir
        [("mysql", TDir
          [("internal", TDir
            [("database", TDir
              [f "templates/database/mysql/internal/database/" "database.go.tpl"])]);
           ("migrations", TDir
            [f "templates/database/mysql/migrations/" "001_initial.sql.tpl";
             f "templates/database/mysql/migrations/" "migrations.go.tpl"])]);
         ("postgres", TDir
          [("internal", TDir
            [("database", TDir
              [f "templates/database/postgres/internal/database/" "database.go.tpl"])]);
           ("migrations", TDir
            [f "templates/database/postgres/migrations/" "001_initial.sql.tpl";
             f "templates/database/postgres/migrations/" "migrations.go.tpl"])]);
         ("sqlite", TDir
          [f "templates/database/sqlite/" ".keep";
           f "templates/database/sqlite/" "README.md";
           ("internal", TDir
            [("database", TDir
              [f "templates/database/sqlite/internal/database/" "database.go.tpl"])]);
           ("migrations", TDir
            [f "templates/database/sqlite/migrations/" "001_initial.sql.tpl";
             f "templates/database/sqlite/migrations/" "migrations.go.tpl"])])]);
       ("features", TDir
        [("ci-cd", TDir
          [(".github", TDir
            [("workflows", TDir
              [f "templates/features/ci-cd/.github/workflows/" "ci.yml.tpl";
               f "templates/features/ci-cd/.github/workflows/" "release.yml.tpl"])]);
           f "templates/features/ci-cd/" ".gitlab-ci.yml.tpl"]);
         ("flatbuffers", TDir
          [("schemas", TDir
            [f "templates/features/flatbuffers/schemas/" "app.fbs.tpl"])]);
         ("grpc", TDir
          [("internal", TDir
            [("grpcapi", TDir
              [f "templates/features/grpc/internal/grpcapi/" "service.go.tpl"])]);
           ("pkg", TDir
            [("runtime", TDir
              [f "templates/features/grpc/pkg/runtime/" "grpc.go.tpl"])])]);
         ("health", TDir
          [f "templates/features/health/" ".keep";
           f "templates/features/health/" "README.md";
           ("internal", TDir
            [("health", TDir
              [f "templates/features/health/internal/health/" "health.go.tpl"])])]);
         ("htmx", TDir
          [("static", TDir
            [f "templates/features/htmx/static/" "htmx.min.js.tpl"])]);
         ("jwt-auth", TDir
          [("pkg", TDir
            [("runtime", TDir
              [f "templates/features/jwt-auth/pkg/runtime/" "auth.go.tpl"])])]);
         ("metrics", TDir
          [("internal", TDir
            [("metrics", TDir
              [f "templates/features/metrics/internal/metrics/" "metrics.go.tpl"])])]);
         ("mtls", TDir
          [("pkg", TDir
            [("runtime", TDir
              [f "templates/features/mtls/pkg/runtime/" "identity.go.tpl";
               f "templates/features/mtls/pkg/runtime/" "tls.go.tpl"])])]);
         ("openapi", TDir
          [f "templates/features/openapi/" ".keep";
           f "templates/features/openapi/" "README.md";
           ("internal", TDir
            [("openapi", TDir
              [f "templates/features/openapi/internal/openapi/" "openapi.go.tpl"])])]);
         ("otel", TDir
          [("pkg", TDir
            [("runtime", TDir
              [f "templates/features/otel/pkg/runtime/" "otel.go.tpl"])])])])])].
End Templates.

(** ** Template data *)

Record TemplateData := mkData {
  d_ProjectName : string;
  d_Type : string;
  d_Architecture : string;
  d_Database : string;
  d_Features : list string;  (* the keys, all of them true *)
}.
Definition Has (d : TemplateData) (feature : string) : bool := existsb (String.eqb feature) (d_Features d).
Definition d_UseSQLite (d : TemplateData) : bool := String.eqb (d_Database d) DBSQLite.
Definition d_UsePostgres (d : TemplateData) : bool := String.eqb (d_Database d) DBPostgres.
Definition d_UseMySQL (d : TemplateData) : bool := String.eqb (d_Database d) DBMySQL.
Definition d_UseDatabase (d : TemplateData) : bool := negb (String.eqb (d_Database d) DBNone).
Definition IsMVC (d : TemplateData) : bool := String.eqb (d_Architecture d) ArchMVC.
Definition IsAPI (d : TemplateData) : bool := String.eqb (d_Type d) TypeAPI.
Definition IsSSR (d : TemplateData) : bool := String.eqb (d_Type d) TypeSSR.
Definition d_Placeholder (d : TemplateData) : string := if String.eqb (d_Database d) DBPostgres then "$1" else "?".

Record projectUpgradeMetadata := mkMetadata {
  m_FrameworkVersion : string;
  m_ProjectType : string;
  m_Architecture : string;
  m_Database : string;
  m_Features : list string;
  m_RuntimeFiles : gmap string string;
}.

Definition templateOutputPath (templatePath : string) : string :=
  let ps := split templatePath "/" in
  let relativePath :=
    if 3 <=? length ps then
      match ps !! 1 with
      | Some kind =>
          if existsb (String.eqb kind) ["architectures"; "database"; "features"] && (4 <=? length ps) then join (drop 3 ps) "/"
          else join (drop 2 ps) "/"
      | None => ""
      end
    else "" in
  trim_suffix relativePath ".tpl".

Definition baseFiles : list string := [
  "templates/base/go.mod.tpl"; "templates/base/Makefile.tpl"; "templates/base/Dockerfile.tpl"; "templates/base/.dockerignore.tpl";
  "templates/base/README.md.tpl"; "templates/base/gitignore.tpl"; "templates/base/cmd/assetmanifest/main.go.tpl";
  "templates/base/cmd/dev/main.go.tpl"; "templates/base/internal/assets/assets.go.tpl";
  "templates/base/internal/assets/manifest_gen.go.tpl"; "templates/base/static/css/app.css.tpl";
  "templates/base/pkg/runtime/router.go.tpl"; "templates/base/pkg/runtime/server.go.tpl"; "templates/base/pkg/runtime/proxy.go.tpl";
  "templates/base/pkg/runtime/requestid.go.tpl"; "templates/base/pkg/runtime/reuseport_linux.go.tpl";
  "templates/base/pkg/runtime/reuseport_other.go.tpl"; "templates/base/pkg/runtime/reuseport_posix.go.tpl";
  "templates/base/pkg/runtime/metrics.go.tpl"; "templates/base/pkg/runtime/health.go.tpl";
  "templates/base/pkg/runtime/hmr_server.go.tpl"; "templates/base/pkg/runtime/hmr/hmr.go.tpl";
  "templates/base/pkg/runtime/hmr/client.go.tpl"; "templates/base/pkg/runtime/hmr/codec.go.tpl"].
Definition managedRuntimeTemplates : list (string * string) := [
  ("pkg/runtime/router.go", "templates/base/pkg/runtime/router.go.tpl");
  ("pkg/runtime/server.go", "templates/base/pkg/runtime/server.go.tpl");
  ("pkg/runtime/proxy.go", "templates/base/pkg/runtime/proxy.go.tpl");
  ("pkg/runtime/requestid.go", "templates/base/pkg/runtime/requestid.go.tpl");
  ("pkg/runtime/metrics.go", "templates/base/pkg/runtime/metrics.go.tpl");
  ("pkg/runtime/health.go", "templates/base/pkg/runtime/health.go.tpl");
  ("pkg/runtime/hmr/hmr.go", "templates/base/pkg/runtime/hmr/hmr.go.tpl");
  ("pkg/runtime/hmr/client.go", "templates/base/pkg/runtime/hmr/client.go.tpl");
  ("pkg/runtime/hmr/codec.go", "templates/base/pkg/runtime/hmr/codec.go.tpl");
  ("pkg/runtime/auth.go", "templates/features/jwt-auth/pkg/runtime/auth.go.tpl");
  ("pkg/runtime/otel.go", "templates/features/otel/pkg/runtime/otel.go.tpl");
  ("pkg/runtime/tls.go", "templates/features/mtls/pkg/runtime/tls.go.tpl");
  ("pkg/runtime/identity.go", "templates/features/mtls/pkg/runtime/identity.go.tpl")].

(** ** Generation

    [visit] is the order in which a map with the given keys is ranged over. *)
Section Generate.
Context (fs_templates : embedded)
  (renderTemplateSource : string → string → string → TemplateData → result string)
  (formatTemplateSource : string → string → result string)
  (marshalUpgradeMetadata : projectUpgradeMetadata → result string)
  (sha256Hex : string → string)
  (visit : list string → list string)
  (cwd : path).

Fixpoint read_sources (keys : list string) (acc : gmap string string) : result (gmap string string) :=
  match keys with
  | [] => Ok acc
  | key :: keys =>
      let templatePath := default "" ((list_to_map managedRuntimeTemplates : gmap string string) !! key) in
      match embed_ReadFile fs_templates templatePath with
      | Err e => Err ("read managed runtime template " +:+ templatePath +:+ ": " +:+ e)
      | Ok source =>
          if contains source "{{" then
            Err ("managed runtime template " +:+ templatePath +:+ " contains unsupported template directives")
          else read_sources keys (<[key := source]> acc)
      end
  end.
Definition ManagedRuntimeSources : result (gmap string string) := read_sources (visit managedRuntimeTemplates.*1) ∅.

(** A path as the program prints it, relative to the working directory. *)
Definition shown (p : path) : string := join (drop (length cwd) p) "/".
Definition below (dir : path) (rel : string) : path := dir ++ clean_parts rel.

Definition processTemplate (projectName : path) (templatePath : string) (data : TemplateData) : M unit :=
  let* content := wrap (λ e, "failed to read template " +:+ templatePath +:+ ": " +:+ e)
                    (of_result (embed_ReadFile fs_templates templatePath)) in
  let targetPath := below projectName (templateOutputPath templatePath) in
  do* wrap (λ e, "failed to create directory " +:+ shown (dirname targetPath) +:+ ": " +:+ e) (mkdirAll (dirname targetPath)) in
  let* output := of_result (renderTemplateSource templatePath (Base templatePath) content data) in
  let* output := (if has_suffix (shown targetPath) ".go" then of_result (formatTemplateSource templatePath output) else ret output) in
  wrap (λ e, "failed to create file " +:+ shown targetPath +:+ ": " +:+ e) (writeFile targetPath output 420).

Fixpoint process_all (projectName : path) (files : list string) (data : TemplateData) : M unit :=
  match files with
  | [] => ret tt
  | file :: files => do* processTemplate projectName file data in process_all projectName files data
  end.
Definition generateBase (projectName : path) (data : TemplateData) : M unit := process_all projectName baseFiles data.

Fixpoint walk_tree (projectName : path) (templateDir : string) (e : embedded) (data : TemplateData) : M unit :=
  match e with
  | TFile _ => fail ("read " +:+ templateDir +:+ ": not a directory")
  | TDir entries =>
      (fix go entries :=
         match entries with
         | [] => ret tt
         | (name, entry) :: entries =>
             let path := templateDir +:+ "/" +:+ name in
             do* match entry with
                 | TDir _ => walk_tree projectName path entry data
                 | TFile _ => if has_suffix name ".tpl" then processTemplate projectName path data else ret tt
                 end in
             go entries
         end) entries
  end.
Definition walkAndProcess (projectName : path) (templateDir : string) (data : TemplateData) : M unit :=
  match find_embedded fs_templates (split templateDir "/") with
  | None => fail (embed_missing "open" templateDir)
  | Some e => walk_tree projectName templateDir e data
  end.

(** [os.IsNotExist] holds of no error here that does not have this text. *)
Definition not_found (e : error) : bool := contains e "file does not exist".
Definition generateArchitecture (projectName : path) (data : TemplateData) : M unit :=
  wrap (λ e, if not_found e then
               "architecture " +:+ quote (d_Architecture data) +:+ " is not implemented yet (implemented: flat, mvc)"
             else e)
    (walkAndProcess projectName ("templates/architectures/" +:+ d_Architecture data) data).
Definition generateDatabase (projectName : path) (data : TemplateData) : M unit :=
  wrap (λ e, if not_found e then
               "database " +:+ quote (d_Database data) +:+ " is not implemented yet (implemented: sqlite, postgres, mysql)"
             else e)
    (walkAndProcess projectName ("templates/database/" +:+ d_Database data) data).
Fixpoint generate_each (projectName : path) (features : list string) (data : TemplateData) : M unit :=
  match features with
  | [] => ret tt
  | feature :: features =>
      let* r := attempt (walkAndProcess projectName ("templates/features/" +:+ feature) data) in
      match r with
      | Err e => if negb (not_found e) then fail e else generate_each projectName features data
      | Ok _ => generate_each projectName features data
      end
  end.
Definition generateFeatures (projectName : path) (data : TemplateData) : M unit :=
  generate_each projectName (visit (d_Features data)) data.

Definition IsNotExist (e : error) : bool := String.eqb e "no such file or directory".
Fixpoint hash_files (root : path) (paths : list string) (hashes : gmap string string) : M (gmap string string) :=
  match paths with
  | [] => ret hashes
  | p :: paths =>
      let* r := attempt (readFile (below root p)) in
      match r with
      | Ok content => hash_files root paths (<[p := sha256Hex content]> hashes)
      | Err e => if IsNotExist e then hash_files root paths hashes
                 else fail ("read generated runtime file " +:+ p +:+ ": " +:+ e)
      end
  end.
Definition newline : string := String (ascii_of_N 10) "".
Definition writeProjectUpgradeMetadata (root : path) (cfg : ProjectConfig) : M unit :=
  if negb (IsReleaseVersion (FrameworkVersion cfg)) then ret tt
  else
    let* sources := of_result ManagedRuntimeSources in
    let* hashes := hash_files root (visit (map_to_list sources).*1) ∅ in
    let* metadata := of_result (marshalUpgradeMetadata
      (mkMetadata (FrameworkVersion cfg) (ProjectType cfg) (Architecture cfg) (Database cfg) (features_of cfg) hashes)) in
    do* mkdirAll (root ++ [".fgoths"]) in
    writeFile (root ++ [".fgoths"; "upgrade.json"]) (metadata +:+ newline) 420.

Definition template_data (root : path) (cfg : ProjectConfig) : TemplateData :=
  mkData (default "" (last root)) (ProjectType cfg) (Architecture cfg) (Database cfg) (remove_dups (features_of cfg)).
(** Everything that happens in the staging directory. *)
Definition generate_in (stagingRoot : path) (cfg : ProjectConfig) (data : TemplateData) : M unit :=
  do* wrap (λ e, "failed to generate base: " +:+ e) (generateBase stagingRoot data) in
  do* wrap (λ e, "failed to generate architecture: " +:+ e) (generateArchitecture stagingRoot data) in
  do* (if negb (String.eqb (Database cfg) DBNone) then
         wrap (λ e, "failed to generate database: " +:+ e) (generateDatabase stagingRoot data)
       else ret tt) in
  do* wrap (λ e, "failed to generate features: " +:+ e) (generateFeatures stagingRoot data) in
  do* attempt (renameFile (stagingRoot ++ ["gitignore"]) (stagingRoot ++ [".gitignore"])) in
  wrap (λ e, "failed to write upgrade metadata: " +:+ e) (writeProjectUpgradeMetadata stagingRoot cfg).
(** The deferred call. *)
Definition cleanup (stagingRoot : path) (m : M unit) : M unit := λ fs,
  match m fs with
  | (fs, Err e) => ((removeAll stagingRoot fs).1, Err e)
  | r => r
  end.
Definition Generate (config : ProjectConfig) : M unit :=
  let cfg := Normalize config in
  match Validate cfg with
  | Err e => fail ("invalid configuration: " +:+ e)
  | Ok _ =>
      let* root := projectRoot cwd (Name cfg) (Config.Dir cfg) in
      let* info := wrap (λ e, "could not inspect project directory: " +:+ e) (stat root) in
      match info with
      | Some _ => fail ("project directory " +:+ quote (Name cfg) +:+ " already exists")
      | None =>
          let* stagingRoot := wrap (λ e, "failed to create staging directory: " +:+ e) (mkdirTemp cwd ".fgoths-") in
          cleanup stagingRoot
            (do* generate_in stagingRoot cfg (template_data root cfg) in
             wrap (λ e, "failed to finalize project generation: " +:+ e) (finalizeProjectDir stagingRoot root))
      end
  end.
(** [fgoths init]. *)
Definition RunInit (lower_table : Z → Z) (frameworkVersion : string) (flags : init_flags) : M unit :=
  match init_config lower_table frameworkVersion flags with
  | Err e => fail e
  | Ok cfg => Generate cfg
  end.
End Generate.

(** * Where generation writes *)

(** [only_below p]: where the directory [p] is there, it stays, and nothing else
    than what is below it changes. *)
Definition only_below (p : path) : relation (gmap path node) :=
  λ t t', dirs t p → dirs t' p ∧ ∀ q, ¬ p `prefix_of` q → t' !! q = t !! q.
#[export] Instance only_below_preorder p : PreOrder (only_below p).
Proof.
  split; [by intros t Ht|]. intros t t1 t2 H1 H2 Ht. destruct (H1 Ht) as [Ht1 E1]. destruct (H2 Ht1) as [Ht2 E2].
  split; [done|]. intros q Hq. by rewrite E2, E1.
Qed.
Lemma insert_below p q n t : p `prefix_of` q → t !! q ≠ Some Dir → only_below p t (<[q := n]> t).
Proof.
  intros Hq Hn Ht. split.
  - intros q' Hq'. rewrite lookup_insert_ne; [by apply Ht|]. intros ->. by apply Hn, Ht.
  - intros q' Hq'. rewrite lookup_insert_ne; [done|]. by intros ->.
Qed.
Lemma make_dirs_below p ps t limit :
  (∀ q, q ∈ ps → q ∈ prefixes p ∨ p `prefix_of` q) → only_below p t (make_dirs t ps limit).1.
Proof.
  revert t limit. induction ps as [|q ps IH]; intros t limit Hps; [reflexivity|]. cbn [make_dirs].
  assert (∀ q, q ∈ ps → q ∈ prefixes p ∨ p `prefix_of` q) as Hps' by (intros q' Hq'; apply Hps; by right).
  destruct (t !! q) as [[]|] eqn:E; try reflexivity; [by apply IH|]. destruct limit; [reflexivity|]. intros Ht.
  destruct (Hps q) as [Hq|Hq]; [left|by rewrite (Ht q Hq) in E|].
  enough (only_below p t (make_dirs (<[q:=Dir]> t) ps limit).1) as H by exact (H Ht).
  etransitivity; [|by apply IH]. apply insert_below; [done|congruence].
Qed.
Lemma mkdirAll_below p dir : dir `prefix_of` p ∨ p `prefix_of` dir → relates (only_below p) (mkdirAll dir).
Proof.
  intros Hdir fs. unfold mkdirAll. pose proof (relates_next_fault (only_below p) fs) as Hn.
  destruct (next_fault fs) as [fs1 [o|e]]; [|done]. cbn [fst] in Hn.
  pose proof (make_dirs_below p (prefixes dir) (tree fs1)
    (match o with IoOk => length dir | IoRefused _ => 0 | IoTorn _ n => n end)) as Hm.
  destruct (make_dirs _ _ _) as [t r]. cbn. etransitivity; [done|]. apply Hm. intros q [Hq Hpre]%elem_of_prefixes.
  destruct Hdir as [Hd|Hd]; [left; apply elem_of_prefixes; split; [done|by etrans]|].
  destruct (prefix_weak_total q p dir Hpre Hd); [left; by apply elem_of_prefixes|by right].
Qed.
Lemma write_bytes_below p q c m o fs :
  p `prefix_of` q → tree fs !! q ≠ Some Dir → only_below p (tree fs) (tree (write_bytes q c m o fs).1).
Proof. intros Hq Hn. destruct o; cbn; [|reflexivity|]; by apply insert_below. Qed.
Lemma writeFile_below p q c m : p `prefix_of` q → relates (only_below p) (writeFile q c m).
Proof.
  intros Hq fs. unfold writeFile, bind. destruct (next_fault_eq fs) as (o & fs1 & -> & <- & _). unfold get_tree.
  destruct (find_node (tree fs1) q) as [i|] eqn:E; [|reflexivity]. apply find_node_Ok in E.
  destruct i as [[]|]; try reflexivity.
  - apply write_bytes_below; congruence.
  - by destruct (io_error o).
  - destruct (parent_dir _ _); [|reflexivity]. apply write_bytes_below; congruence.
Qed.
Lemma renameFile_below p a b : relates (only_below p) (renameFile (p ++ [a]) (p ++ [b])).
Proof.
  intros fs. unfold renameFile, bind. destruct (next_fault_eq fs) as (o & fs1 & -> & <- & _).
  destruct (io_error o); [reflexivity|]. destruct (tree fs1 !! (p ++ [a])) as [n|] eqn:Ea; [|reflexivity].
  assert (∀ c t, only_below p t (delete (p ++ [c]) t)) as Hdel.
  { intros c t Ht. split; intros q Hq; rewrite lookup_delete_ne; [by apply Ht| |done|]; intros <-.
    - apply elem_of_prefixes in Hq as [_ [x Hx]]. rewrite <- (assoc_L (++)) in Hx.
      apply (f_equal length) in Hx. rewrite !length_app in Hx. cbn in Hx. lia.
    - apply Hq. by exists [c]. }
  destruct (tree fs1 !! (p ++ [b])) as [[]|] eqn:Eb; cbn; try reflexivity;
    (etransitivity; [apply (Hdel a)|apply insert_below; [by exists [b]|]]);
    (destruct (decide (a = b)) as [->|]; [by rewrite lookup_delete_eq|rewrite lookup_delete_ne; naive_solver]).
Qed.
#[export] Hint Resolve writeFile_below renameFile_below : relates.

Section Below.
Context (fs_templates : embedded) (render : string → string → string → TemplateData → result string)
  (format : string → string → result string) (marshal : projectUpgradeMetadata → result string) (sha : string → string)
  (visit : list string → list string) (cwd stag : path).

Lemma below_prefix rel : stag `prefix_of` below stag rel.
Proof using. by eexists. Qed.
Lemma mkdirAll_target rel : relates (only_below stag) (mkdirAll (dirname (below stag rel))).
Proof using.
  apply mkdirAll_below. unfold dirname, below. destruct (clean_parts _) as [|c l _] using rev_ind.
  - rewrite app_nil_r. left. destruct stag as [|c l _] using rev_ind; [done|]. rewrite List.removelast_last. by exists [c].
  - right. rewrite (assoc_L (++)), List.removelast_last. by eexists.
Qed.
Hint Resolve below_prefix mkdirAll_target : relates.
Lemma processTemplate_below file data : relates (only_below stag) (processTemplate fs_templates render format cwd stag file data).
Proof using. unfold processTemplate. relates_steps. Qed.
Hint Resolve processTemplate_below : relates.
Lemma process_all_below files data : relates (only_below stag) (process_all fs_templates render format cwd stag files data).
Proof using. induction files; cbn [process_all]; relates_steps. Qed.
Lemma walk_tree_below data : ∀ e dir, relates (only_below stag) (walk_tree fs_templates render format cwd stag dir e data).
Proof using.
  fix IH 1. intros [c|entries] dir; cbn [walk_tree]; [relates_steps|].
  assert (Forall (λ e, ∀ dir, relates (only_below stag) (walk_tree fs_templates render format cwd stag dir e.2 data)) entries) as Hes.
  { revert entries. fix IHl 1. intros [|[n e] entries]; constructor; [apply IH|apply IHl]. }
  clear IH. induction Hes as [|[n e] entries He Hes IHes]; [relates_steps|]. apply relates_bind; [exact _| |done].
  destruct e as [c|l]; [relates_steps|]. apply He.
Qed.
Hint Resolve process_all_below walk_tree_below : relates.
Lemma walkAndProcess_below dir data : relates (only_below stag) (walkAndProcess fs_templates render format cwd stag dir data).
Proof using. unfold walkAndProcess. relates_steps. Qed.
Hint Resolve walkAndProcess_below : relates.
Lemma generate_each_below features data : relates (only_below stag) (generate_each fs_templates render format cwd stag features data).
Proof using. induction features; cbn [generate_each]; relates_steps. Qed.
Lemma hash_files_below paths hashes : relates (only_below stag) (hash_files sha stag paths hashes).
Proof using. revert hashes. induction paths; intros hashes; cbn [hash_files]; relates_steps. Qed.
Hint Resolve generate_each_below hash_files_below : relates.
Lemma metadata_below cfg : relates (only_below stag) (writeProjectUpgradeMetadata fs_templates marshal sha visit stag cfg).
Proof using.
  unfold writeProjectUpgradeMetadata. destruct (negb _); [relates_steps|]. apply relates_bind; [exact _|relates_steps|intros sources].
  apply relates_bind; [exact _|relates_steps|intros hashes]. apply relates_bind; [exact _|relates_steps|intros metadata].
  apply relates_bind; [exact _|apply mkdirAll_below; right; by eexists|intros _]. apply writeFile_below. by eexists.
Qed.
Hint Resolve metadata_below : relates.
Lemma generate_in_below cfg data :
  relates (only_below stag) (generate_in fs_templates render format marshal sha visit cwd stag cfg data).
Proof using.
  unfold generate_in, generateBase, generateArchitecture, generateDatabase, generateFeatures. relates_steps.
Qed.
End Below.

(** ** The other calls *)

Lemma within_spec d p : within d p = true ↔ d `prefix_of` p.
Proof. apply bool_decide_eq_true. Qed.
Lemma within_false d p : within d p = false ↔ ¬ d `prefix_of` p.
Proof. apply bool_decide_eq_false. Qed.
Lemma rebase_app from to r : rebase from to (from ++ r) = to ++ r.
Proof. unfold rebase. by rewrite drop_app_length. Qed.

Lemma moved_keys t from to :
  ((λ kv, (rebase from to kv.1, kv.2)) <$> map_to_list (filter (λ kv : path * node, within from kv.1 = true) t)).*1
    = rebase from to <$> (map_to_list (filter (λ kv : path * node, within from kv.1 = true) t)).*1.
Proof. by rewrite <- !list_fmap_compose. Qed.
Lemma move_tree_other t from to q : ¬ from `prefix_of` q → ¬ to `prefix_of` q → move_tree t from to !! q = t !! q.
Proof.
  intros Hf Ht. unfold move_tree. rewrite lookup_union_r.
  - rewrite map_lookup_filter. destruct (t !! q); cbn; [|done]. rewrite option_guard_True; [done|]. by apply within_false.
  - apply not_elem_of_list_to_map. rewrite moved_keys. intros (p & -> & _)%list_elem_of_fmap. apply Ht. by eexists.
Qed.
Lemma move_tree_moved t from to r :
  (∀ q, to `prefix_of` q → t !! q = None) → move_tree t from to !! (to ++ r) = t !! (from ++ r).
Proof.
  intros Hto. unfold move_tree. set (l := (λ kv, (rebase from to kv.1, kv.2)) <$> _).
  assert (NoDup l.*1) as Hn.
  { unfold l. rewrite moved_keys. apply NoDup_fmap_2_strong; [|apply NoDup_fst_map_to_list].
    intros p q Hp Hq. apply list_elem_of_fmap in Hp as ([p' n] & -> & Hp), Hq as ([q' m] & -> & Hq).
    apply elem_of_map_to_list, map_lookup_filter_Some in Hp as [_ [x Hx]%within_spec].
    apply elem_of_map_to_list, map_lookup_filter_Some in Hq as [_ [y Hy]%within_spec].
    cbn in *. subst. rewrite !rebase_app. intros E. by apply app_inv_head in E as ->. }
  destruct (t !! (from ++ r)) as [n|] eqn:E.
  - apply lookup_union_Some_l, elem_of_list_to_map_1; [done|]. apply list_elem_of_fmap. exists (from ++ r, n).
    cbn. rewrite rebase_app. split; [done|]. apply elem_of_map_to_list, map_lookup_filter_Some. split; [done|].
    apply within_spec. by eexists.
  - apply lookup_union_None. split.
    + apply not_elem_of_list_to_map. unfold l. rewrite moved_keys. intros (p & Hp & Hin)%list_elem_of_fmap.
      apply list_elem_of_fmap in Hin as ([p' n] & -> & Hin). apply elem_of_map_to_list, map_lookup_filter_Some in Hin as [Hs Hw].
      apply within_spec in Hw as [x Hx]. cbn in *. subst. rewrite rebase_app in Hp. apply app_inv_head in Hp as ->. congruence.
    + rewrite map_lookup_filter, Hto; [done|]. by eexists.
Qed.

(** [kept ps]: what is not below one of [ps] stays. *)
Definition kept (ps : list path) : relation (gmap path node) :=
  λ t t', ∀ q n, t !! q = Some n → (∀ p, p ∈ ps → ¬ p `prefix_of` q) → t' !! q = Some n.
#[export] Instance kept_preorder ps : PreOrder (kept ps).
Proof. split; [by intros t q n|]. intros t t1 t2 H1 H2 q n Hn Hq. apply H2; [|done]. by apply H1. Qed.
Lemma replaces_kept p q t t' : p `prefix_of` q → replaces [q] t t' → kept [p] t t'.
Proof.
  intros Hp Hr q' n Hn Hq'. apply Hr; [|done]. intros ->%list_elem_of_singleton. eapply Hq'; [left|done].
Qed.
Lemma mkdirAll_kept ps dir : relates (kept ps) (mkdirAll dir).
Proof.
  apply (relates_weaken extends); [|apply mkdirAll_extends]. intros t t' He q n Hn _. apply He; [|done]. by intros ?%elem_of_nil.
Qed.
#[export] Hint Resolve mkdirAll_kept : relates.
Lemma copy_nodes_kept src dst ps : relates (kept [dst]) (copy_nodes src dst ps).
Proof.
  assert (∀ p, dst `prefix_of` rebase src dst p) as Hp by (intros p; by eexists).
  induction ps as [|p ps IH]; cbn [copy_nodes]; [relates_steps|]. apply relates_bind; [exact _|relates_steps|intros info].
  apply relates_bind; [exact _| |done].
  assert (∀ c m, relates (kept [dst]) (writeFile (rebase src dst p) c m)) as Hw.
  { intros c m. apply (relates_weaken (replaces [rebase src dst p])); [intros t t'; by apply replaces_kept|]. apply relates_writeFile. left. }
  destruct info as [[]|]; unfold copyFile; relates_steps.
Qed.
Lemma walk_below_prefix fuel t p q : q ∈ walk_below fuel t p → p `prefix_of` q.
Proof.
  revert p. induction fuel as [|fuel IH]; intros p; cbn [walk_below]; [by intros ?%elem_of_nil|].
  destruct (t !! p) as [[]|]; try (by intros ->%list_elem_of_singleton); [|by intros ?%elem_of_nil].
  rewrite elem_of_cons, list_elem_of_bind. intros [->|(c & Hq & _)]; [done|]. apply IH in Hq as [r ->].
  rewrite <- (assoc_L (++)). by eexists.
Qed.
Lemma removeAll_kept dir : relates (kept [dir]) (removeAll dir).
Proof.
  intros fs. unfold removeAll. destruct (next_fault_eq fs) as (o & fs1 & -> & <- & _). destruct o as [|e|e n]; cbn [fst tree set_tree]; [|reflexivity|].
  - intros q m Hm Hq. apply map_lookup_filter_Some. split; [done|]. apply within_false, Hq. left.
  - enough (∀ ps, (∀ p, p ∈ ps → dir `prefix_of` p) → kept [dir] (tree fs1) (drop_paths (tree fs1) ps)) as H.
    { apply H. intros p Hp. apply subseteq_take in Hp. rewrite elem_of_reverse in Hp. by eapply walk_below_prefix. }
    induction ps as [|p ps IH]; intros Hps q m Hm Hq; cbn; [done|]. rewrite lookup_delete_ne.
    + apply IH; [|done..]. intros p' Hp'. apply Hps. by right.
    + intros ->. eapply Hq; [left|]. apply Hps. left.
Qed.

(** ** The calls to come *)

(** [later]: some of the outcomes to come have been used up, the umask is the same. *)
Definition later (fs fs' : project) : Prop := umask fs' = umask fs ∧ faults fs' `suffix_of` faults fs.
#[export] Instance later_preorder : PreOrder later.
Proof. split; [by intros fs|]. intros fs fs1 fs2 [H1 H2] [H3 H4]. split; [congruence|by etransitivity]. Qed.
Definition onward {A : Type} (m : M A) : Prop := ∀ fs, later fs (m fs).1.
Lemma onward_ret {A} (a : A) : onward (ret a).
Proof. by intros fs. Qed.
Lemma onward_fail {A} e : onward (@fail A e).
Proof. by intros fs. Qed.
Lemma onward_of_result {A} (r : result A) : onward (of_result r).
Proof. by intros fs. Qed.
Lemma onward_get_tree : onward get_tree.
Proof. by intros fs. Qed.
Lemma onward_bind {A B} (m : M A) (k : A → M B) : onward m → (∀ a, onward (k a)) → onward (bind m k).
Proof.
  intros Hm Hk fs. unfold bind. specialize (Hm fs). destruct (m fs) as [fs1 [a|e]]; [|done].
  etransitivity; [exact Hm|apply Hk].
Qed.
Lemma onward_wrap {A} f (m : M A) : onward m → onward (wrap f m).
Proof. intros Hm fs. unfold wrap. specialize (Hm fs). by destruct (m fs) as [fs1 []]. Qed.
Lemma onward_attempt {A} (m : M A) : onward m → onward (attempt m).
Proof. intros Hm fs. unfold attempt. specialize (Hm fs). by destruct (m fs) as [fs1 ?]. Qed.
Lemma onward_next_fault : onward next_fault.
Proof. intros fs. unfold next_fault. destruct (faults fs) as [|o l] eqn:E; [done|]. split; cbn; [done|]. rewrite E. by exists [o]. Qed.
#[export] Hint Resolve onward_ret onward_fail onward_of_result onward_get_tree onward_wrap onward_attempt onward_next_fault : onward.
Ltac onward_steps :=
  repeat first
    [ solve [eauto with onward]
    | apply onward_bind; [ | intros ? ]
    | apply onward_wrap | apply onward_attempt
    | progress cbn beta iota
    | match goal with |- onward (match ?x with _ => _ end) => destruct x end ].
Lemma onward_mkdirAll dir : onward (mkdirAll dir).
Proof.
  intros fs. unfold mkdirAll. pose proof (onward_next_fault fs) as H. destruct (next_fault fs) as [fs1 [o|e]]; [|done].
  by destruct (make_dirs _ _ _).
Qed.
Lemma onward_write_bytes q c m o : onward (write_bytes q c m o).
Proof. by intros fs; destruct o. Qed.
#[export] Hint Resolve onward_mkdirAll onward_write_bytes : onward.
Lemma onward_writeFile q c m : onward (writeFile q c m).
Proof. unfold writeFile. onward_steps. intros fs. destruct (parent_dir _ _); [apply onward_write_bytes|done]. Qed.
Lemma onward_readFile q : onward (readFile q).
Proof. unfold readFile. onward_steps. Qed.
Lemma onward_renameFile p q : onward (renameFile p q).
Proof.
  unfold renameFile. onward_steps. intros fs. destruct (tree fs !! p); [|done]. by destruct (tree fs !! q) as [[]|].
Qed.
Lemma onward_stat p : onward (stat p).
Proof. unfold stat. onward_steps. Qed.
Lemma onward_mkdirTemp dir prefix : onward (mkdirTemp dir prefix).
Proof.
  unfold mkdirTemp. onward_steps. intros fs. destruct (negb _); [done|]. by destruct (first_free _ _ _ _) as [[]|].
Qed.
Lemma onward_removeAll dir : onward (removeAll dir).
Proof. intros fs. unfold removeAll. pose proof (onward_next_fault fs) as H. by destruct (next_fault fs) as [fs1 [[]|e]]. Qed.
#[export] Hint Resolve onward_writeFile onward_readFile onward_renameFile onward_stat onward_mkdirTemp onward_removeAll : onward.

Section Onward.
Context (fs_templates : embedded) (render : string → string → string → TemplateData → result string)
  (format : string → string → result string) (marshal : projectUpgradeMetadata → result string) (sha : string → string)
  (visit : list string → list string) (cwd stag : path).
Lemma onward_processTemplate file data : onward (processTemplate fs_templates render format cwd stag file data).
Proof using. unfold processTemplate. onward_steps. Qed.
Hint Resolve onward_processTemplate : onward.
Lemma onward_process_all files data : onward (process_all fs_templates render format cwd stag files data).
Proof using. induction files; cbn [process_all]; onward_steps. Qed.
Lemma onward_walk_tree data : ∀ e dir, onward (walk_tree fs_templates render format cwd stag dir e data).
Proof using.
  fix IH 1. intros [c|entries] dir; cbn [walk_tree]; [onward_steps|].
  assert (Forall (λ e, ∀ dir, onward (walk_tree fs_templates render format cwd stag dir e.2 data)) entries) as Hes.
  { revert entries. fix IHl 1. intros [|[n e] entries]; constructor; [apply IH|apply IHl]. }
  clear IH. induction Hes as [|[n e] entries He Hes IHes]; [onward_steps|]. apply onward_bind; [|done].
  destruct e as [c|l]; [onward_steps|]. apply He.
Qed.
Hint Resolve onward_process_all onward_walk_tree : onward.
Lemma onward_walkAndProcess dir data : onward (walkAndProcess fs_templates render format cwd stag dir data).
Proof using. unfold walkAndProcess. onward_steps. Qed.
Hint Resolve onward_walkAndProcess : onward.
Lemma onward_generate_each features data : onward (generate_each fs_templates render format cwd stag features data).
Proof using. induction features; cbn [generate_each]; onward_steps. Qed.
Lemma onward_hash_files paths hashes : onward (hash_files sha stag paths hashes).
Proof using. revert hashes. induction paths; intros hashes; cbn [hash_files]; onward_steps. Qed.
Hint Resolve onward_generate_each onward_hash_files : onward.
Lemma onward_generate_in cfg data : onward (generate_in fs_templates render format marshal sha visit cwd stag cfg data).
Proof using.
  unfold generate_in, generateBase, generateArchitecture, generateDatabase, generateFeatures, writeProjectUpgradeMetadata.
  onward_steps.
Qed.
End Onward.

(** ** Staging, moving, cleaning up *)

Lemma rooted_parts l : Forall name_component l → clean_parts ("/" +:+ join l "/") = l.
Proof.
  intros Hl. unfold clean_parts. destruct l as [|c l]; [done|]. change (IsAbs _) with true.
  change (split ("/" +:+ join (c :: l) "/") "/") with ("" :: split (join (c :: l) "/") "/").
  rewrite split_join; [|done|]; [|intros x Hx; rewrite Forall_forall in Hl; by apply Hl].
  change (foldl (clean_step true) [] ("" :: c :: l)) with (foldl (clean_step true) [] (c :: l)).
  rewrite clean_fold_names, app_nil_r by done. apply rev_involutive.
Qed.
Lemma resolve_name cwd name : Forall name_component cwd → name_component name → resolve cwd (Clean name) = cwd ++ [name].
Proof.
  intros Hcwd Hc. change (Clean name) with (Clean (join [name] "/")). rewrite Clean_join by (by constructor || done).
  unfold resolve. rewrite join_not_abs by by constructor. change (join [name] "/") with name.
  apply rooted_parts, Forall_app. split; [done|by constructor].
Qed.
Lemma projectRoot_spec cwd name dir fs fs' r :
  Forall name_component cwd → name ≠ "" → projectRoot cwd name dir fs = (fs', r) →
  tree fs' = tree fs ∧ later fs fs' ∧
  match r with
  | Ok root => name_component name ∧
      root = (if String.eqb dir "" then cwd else if IsAbs dir then clean_parts dir else resolve cwd dir) ++ [name]
  | Err _ => True
  end.
Proof.
  intros Hcwd Hname. unfold projectRoot.
  destruct (negb (String.eqb (Base name) name) || _ || _ || _) eqn:Eb; [by intros [= <- <-]|].
  apply orb_false_iff in Eb as [Eb Hs]. apply orb_false_iff in Eb as [Eb Hdd%String.eqb_neq].
  apply orb_false_iff in Eb as [_ Hd%String.eqb_neq].
  assert (name_component name) as Hc by (by split_and!).
  destruct (String.eqb dir "").
  { intros [= <- <-]. split_and!; try done. by apply resolve_name. }
  destruct (IsAbs dir); [by intros [= <- <-]|]. unfold bind, wrap.
  destruct (next_fault_eq fs) as (o & fs1 & E & Ht & _). pose proof (onward_next_fault fs) as Hl. rewrite E in Hl |- *.
  destruct (io_error o); by intros [= <- <-].
Qed.
Lemma mkdirTemp_spec dir prefix fs fs' r :
  mkdirTemp dir prefix fs = (fs', r) →
  later fs fs' ∧
  match r with
  | Ok p => tree fs !! p = None ∧ tree fs' = <[p := Dir]> (tree fs) ∧ ∃ n, p = dir ++ [prefix +:+ n]
  | Err _ => tree fs' = tree fs
  end.
Proof.
  intros E. pose proof (onward_mkdirTemp dir prefix fs) as Hl. rewrite E in Hl. split; [done|]. clear Hl. revert E.
  unfold mkdirTemp, bind. destruct (next_fault_eq fs) as (o & fs1 & -> & <- & _).
  destruct (io_error o); [by intros [= <- <-]|]. destruct (negb _); [by intros [= <- <-]|].
  destruct (first_free _ _ _ _) as [[p ns]|] eqn:E; intros [= <- <-]; [|done]. by apply first_free_None in E as [Hp Hn].
Qed.
Lemma renameDir_spec from to fs fs' r :
  renameDir from to fs = (fs', r) →
  later fs fs' ∧
  match r with
  | Ok _ => tree fs' = move_tree (tree fs) from to
  | Err e => tree fs' = tree fs ∧ (e = exdev → ∃ o, o ∈ faults fs ∧ io_error o = Some exdev)
  end.
Proof.
  unfold renameDir, bind. pose proof (onward_next_fault fs) as Hl. unfold next_fault in *.
  destruct (faults fs) as [|o more] eqn:Ef; cbn in Hl |- *.
  - destruct (within _ _); [by intros [= <- <-]|]. destruct (negb _); [by intros [= <- <-]|].
    destruct (tree fs !! from), (tree fs !! to) as [[]|]; try destruct (children _ _); by intros [= <- <-].
  - destruct (io_error o) as [e|] eqn:Eo; [intros [= <- <-]; split_and!; [done..|intros ->; exists o; split; [left|done]]|].
    destruct (within _ _); [by intros [= <- <-]|]. destruct (negb _); [by intros [= <- <-]|]. cbn.
    destruct (tree fs !! from), (tree fs !! to) as [[]|]; try destruct (children _ _); by intros [= <- <-].
Qed.
(** No call to come fails between file systems. *)
Definition one_device (fs : project) : Prop := ∀ o, o ∈ faults fs → io_error o ≠ Some exdev.
Lemma later_device fs fs' : later fs fs' → one_device fs → one_device fs'.
Proof. intros [_ [l Hl]] H o Ho. apply H. rewrite Hl. apply elem_of_app. by right. Qed.
Lemma finalize_spec from to fs fs' r :
  finalizeProjectDir from to fs = (fs', r) →
  kept [from; to] (tree fs) (tree fs')
  ∧ (one_device fs → later fs fs' ∧ match r with Ok _ => tree fs' = move_tree (tree fs) from to | Err _ => tree fs' = tree fs end).
Proof.
  unfold finalizeProjectDir, bind, attempt. destruct (renameDir from to fs) as [fs1 r1] eqn:E1.
  apply renameDir_spec in E1 as [Hl H1]. destruct r1 as [[]|e].
  - intros [= <- <-]. split; [|done]. rewrite H1. intros q n Hn Hq. rewrite move_tree_other; [done|apply Hq; set_solver..].
  - destruct H1 as [Ht Hx]. destruct (String.eqb_spec e exdev) as [->|Hne]; cbn [negb]; [|intros [= <- <-]; by rewrite Ht].
    intros E. rewrite <- Ht. split; [|intros Hd; destruct Hx as (o & Ho & He); [done|by destruct (Hd o Ho)]].
    assert (relates (kept [from; to]) (do* copyDir from to in removeAll from)) as Hr.
    { assert (∀ p, p ∈ [from; to] → ∀ t t', kept [p] t t' → kept [from; to] t t') as Hw.
      { intros p Hp t t' Hk q n Hn Hq. apply Hk; [done|]. intros p' ->%list_elem_of_singleton. by apply Hq. }
      apply relates_bind; [exact _| |intros _].
      - unfold copyDir. apply relates_bind; [exact _|relates_steps|intros t].
        apply (relates_weaken (kept [to])); [apply Hw; set_solver|apply copy_nodes_kept].
      - apply (relates_weaken (kept [from])); [apply Hw; set_solver|apply removeAll_kept]. }
    exact (relates_run _ _ _ _ _ Hr E).
Qed.
(** The clean-up takes the staging directory away, or something below it stays. *)
Lemma removeAll_spec dir fs :
  later fs (removeAll dir fs).1 ∧ (∀ q, ¬ dir `prefix_of` q → tree (removeAll dir fs).1 !! q = tree fs !! q)
  ∧ (faults fs = [] → ∀ q, dir `prefix_of` q → tree (removeAll dir fs).1 !! q = None).
Proof.
  split_and!; [apply onward_removeAll| |].
  - intros q Hq. unfold removeAll. destruct (next_fault_eq fs) as (o & fs1 & -> & <- & _).
    destruct o as [|e|e n]; cbn [fst tree set_tree]; [|done|].
    + rewrite map_lookup_filter. destruct (tree fs1 !! q); cbn; [|done]. rewrite option_guard_True; [done|]. by apply within_false.
    + assert (∀ ps, (∀ p, p ∈ ps → dir `prefix_of` p) → drop_paths (tree fs1) ps !! q = tree fs1 !! q) as H.
      { induction ps as [|p ps IH]; intros Hps; cbn; [done|]. rewrite lookup_delete_ne; [apply IH; intros; apply Hps; by right|].
        intros ->. apply Hq, Hps. left. }
      apply H. intros p Hp. apply subseteq_take in Hp. rewrite elem_of_reverse in Hp. by eapply walk_below_prefix.
  - intros Hf q Hq. unfold removeAll. rewrite next_fault_quiet by done. cbn. rewrite map_lookup_filter.
    destruct (tree fs !! q); cbn; [|done]. rewrite option_guard_False; [done|]. by intros ?%within_false.
Qed.

Section Safe.
Context (fs_templates : embedded) (render : string → string → string → TemplateData → result string)
  (format : string → string → result string) (marshal : projectUpgradeMetadata → result string) (sha : string → string)
  (visit : list string → list string) (cwd : path).
Local Abbreviation gen_in := (generate_in fs_templates render format marshal sha visit cwd).

(** What happens once the staging directory is there. *)
Lemma staged_spec stag root cfg data fs fs' r :
  dirs (tree fs) stag → 
  cleanup stag (do* gen_in stag cfg data in
    wrap (λ e, "failed to finalize project generation: " +:+ e) (finalizeProjectDir stag root)) fs = (fs', r) →
  kept [stag; root] (tree fs) (tree fs')
  ∧ (one_device fs → is_ok r = false →
      (∀ q, ¬ stag `prefix_of` q → tree fs' !! q = tree fs !! q)
      ∧ (faults fs = [] → ∀ q, stag `prefix_of` q → tree fs' !! q = None)).
Proof using.
  intros Hdirs. unfold cleanup, bind.
  pose proof (generate_in_below fs_templates render format marshal sha visit cwd stag cfg data fs Hdirs) as [_ Hg].
  pose proof (onward_generate_in fs_templates render format marshal sha visit cwd stag cfg data fs) as Hlg.
  destruct (gen_in stag cfg data fs) as [fs2 r2]. cbn [fst] in Hg, Hlg.
  assert (kept [stag; root] (tree fs) (tree fs2)) as Hk by (intros q n Hn Hq; rewrite Hg; [done|apply Hq; left]).
  assert (∀ fs3, later fs fs3 → faults fs = [] → faults fs3 = []) as Hnil.
  { intros fs3 [_ Hs] Hf. rewrite Hf in Hs. by apply suffix_nil_inv in Hs. }
  assert (∀ fs3 : project, kept [stag; root] (tree fs3) (tree (removeAll stag fs3).1)) as Hrk.
  { intros fs3 q n Hn Hq. apply removeAll_kept; [done|]. intros p ->%list_elem_of_singleton. apply Hq. left. }
  assert (∀ fs3 e, later fs fs3 → tree fs3 = tree fs2 → ((removeAll stag fs3).1, Err e : result unit) = (fs', r) →
    (∀ q, ¬ stag `prefix_of` q → tree fs' !! q = tree fs !! q)
    ∧ (faults fs = [] → ∀ q, stag `prefix_of` q → tree fs' !! q = None)) as Hrm.
  { intros fs3 e Hl Ht [= <- _]. destruct (removeAll_spec stag fs3) as (_ & Ho & Hn). split.
    - intros q Hq. by rewrite Ho, Ht, Hg.
    - intros Hf. apply Hn. by apply Hnil. }
  destruct r2 as [[]|e].
  - unfold wrap. destruct (finalizeProjectDir stag root fs2) as [fs3 r3] eqn:E3. apply finalize_spec in E3 as [Hk3 Hd3].
    destruct r3 as [[]|e3]; intros E.
    + injection E as <- <-. split; [by etransitivity|done].
    + split; [injection E as <- <-; etransitivity; [exact Hk|]; etransitivity; [exact Hk3|apply Hrk]|].
      intros Hd _. destruct Hd3 as [Hl3 Ht3]; [by eapply later_device|]. refine (Hrm fs3 _ _ _ E); [by etransitivity|done].
  - intros E. split; [injection E as <- <-; by etransitivity|]. intros _ _. by apply (Hrm fs2 e).
Qed.
End Safe.
