(* ===== verification/GeneratorSpec.v ===== *)
(** * What the generator produces

    The plan of a project (which templates, in which order), the tree of files and
    directories that it amounts to, and the proof that a run in which no call
    fails makes exactly that tree. *)

From S2P Require Import Prelude GoStrings Config Os Filepath ProjectFs Generator.

(** ** Plans *)

(** The templates below an embedded directory, as [walkAndProcess] meets them. *)
Fixpoint templates_below (dir : string) (e : embedded) : list string :=
  match e with
  | TFile _ => []
  | TDir entries =>
      (fix go entries :=
         match entries with
         | [] => []
         | (name, entry) :: entries =>
             let path := dir +:+ "/" +:+ name in
             match entry with
             | TDir _ => templates_below path entry
             | TFile _ => if has_suffix name ".tpl" then [path] else []
             end ++ go entries
         end) entries
  end.
Definition templates_in (e : embedded) (dir : string) : list string :=
  match find_embedded e (split dir "/") with Some e => templates_below dir e | None => [] end.
Definition stage_files (e : embedded) (cfg : ProjectConfig) : list string :=
  baseFiles ++ templates_in e ("templates/architectures/" +:+ Architecture cfg)
    ++ (if String.eqb (Database cfg) DBNone then [] else templates_in e ("templates/database/" +:+ Database cfg)).
Definition feature_files (e : embedded) (features : list string) : list string :=
  features ≫= λ f, templates_in e ("templates/features/" +:+ f).

Definition out_path (file : string) : path := clean_parts (templateOutputPath file).

(** ** The tree that a sequence of writes makes *)

Abbreviation writes := (list (path * string)) (only parsing).
Definition last_write (W : writes) (rel : path) : option string := (list_to_map (reverse W) : gmap path string) !! rel.
Definition is_parent (W : writes) (rel : path) : bool :=
  existsb (λ w, bool_decide (rel `prefix_of` w.1 ∧ rel ≠ w.1)) W.
Definition expected (mode : Z) (W : writes) (rel : path) : option node :=
  match last_write W rel with
  | Some c => Some (File c mode)
  | None => if is_parent W rel then Some Dir else None
  end.
(** The project: the writes, [gitignore] under its final name, and the metadata
    of a release. *)
Definition rename_write (w : path * string) : path * string := (if decide (w.1 = ["gitignore"]) then [".gitignore"] else w.1, w.2).
Definition metadata_write (json : string) : path * string := ([".fgoths"; "upgrade.json"], json +:+ newline).
Definition managed_hashes (sha : string → string) (W : writes) : gmap string string :=
  omap (λ p, sha <$> last_write W (clean_parts p)) (list_to_map ((λ k, (k, k)) <$> managedRuntimeTemplates.*1) : gmap string string).

(** * Lemmas *)

Lemma last_write_snoc W p c rel : last_write (W ++ [(p, c)]) rel = if decide (rel = p) then Some c else last_write W rel.
Proof.
  unfold last_write. rewrite reverse_app. cbn. case_decide as H; [subst; apply lookup_insert_eq|by rewrite lookup_insert_ne].
Qed.
Lemma last_write_None W rel : last_write W rel = None ↔ rel ∉ W.*1.
Proof.
  unfold last_write. rewrite <- not_elem_of_list_to_map. by rewrite fmap_reverse, elem_of_reverse.
Qed.
Lemma last_write_Some W rel c : last_write W rel = Some c → rel ∈ W.*1.
Proof. intros E. destruct (decide (rel ∈ W.*1)) as [|Hn%last_write_None]; [done|congruence]. Qed.
Lemma is_parent_spec W rel : is_parent W rel = true ↔ ∃ p, p ∈ W.*1 ∧ rel `prefix_of` p ∧ rel ≠ p.
Proof.
  unfold is_parent. rewrite existsb_true_iff. split.
  - intros (w & Hw & H%bool_decide_eq_true). exists w.1. split; [by apply list_elem_of_fmap_2|done].
  - intros (p & (w & -> & Hw)%list_elem_of_fmap & H). exists w. split; [done|by apply bool_decide_eq_true].
Qed.
Lemma is_parent_snoc W p c rel :
  is_parent (W ++ [(p, c)]) rel = is_parent W rel || bool_decide (rel `prefix_of` p ∧ rel ≠ p).
Proof. unfold is_parent. rewrite existsb_app. cbn. by rewrite orb_false_r. Qed.
Lemma no_conflict_parent W rel :
  no_conflict W.*1 → is_parent W rel = true → last_write W rel = None.
Proof.
  intros Hn (p & Hp & Hpre & Hne)%is_parent_spec. destruct (last_write W rel) eqn:E; [|done].
  destruct Hne. apply Hn; [by eapply last_write_Some|done|done].
Qed.
Lemma key_last (W : writes) p c : p ∈ (W ++ [(p, c)]).*1.
Proof. rewrite fmap_app. apply elem_of_app. right. left. Qed.
Lemma key_old (W : writes) p c q : q ∈ W.*1 → q ∈ (W ++ [(p, c)]).*1.
Proof. rewrite fmap_app. intros Hq. apply elem_of_app. by left. Qed.
Lemma key_write W p c rel out : last_write W rel = Some out → rel ∈ (W ++ [(p, c)]).*1.
Proof. intros E. by eapply key_old, last_write_Some. Qed.
#[local] Hint Resolve key_last key_old key_write : core.
Lemma expected_snoc mode W p c rel :
  no_conflict (W ++ [(p, c)]).*1 →
  expected mode (W ++ [(p, c)]) rel =
    if decide (rel = p) then Some (File c mode)
    else if decide (rel `prefix_of` p) then Some Dir else expected mode W rel.
Proof.
  intros Hn. unfold expected. rewrite last_write_snoc. case_decide as H; [done|]. rewrite is_parent_snoc.
  case_decide as Hpre.
  - rewrite (bool_decide_eq_true_2 (_ ∧ _)) by done. rewrite orb_true_r.
    destruct (last_write W rel) eqn:E; [|done]. destruct H. apply Hn; eauto.
  - rewrite (bool_decide_eq_false_2 (_ ∧ _)) by naive_solver. by rewrite orb_false_r.
Qed.
(** On the way to a file of the project there are no files. *)
Lemma expected_parent mode W p c rel :
  no_conflict (W ++ [(p, c)]).*1 → rel `prefix_of` p → rel ≠ p → expected mode W rel = None ∨ expected mode W rel = Some Dir.
Proof.
  intros Hn Hpre Hne. unfold expected. destruct (last_write W rel) eqn:E; [|destruct (is_parent W rel); auto].
  destruct Hne. apply Hn; eauto.
Qed.
Lemma expected_target mode W p c :
  no_conflict (W ++ [(p, c)]).*1 → expected mode W p = None ∨ ∃ c', expected mode W p = Some (File c' mode).
Proof.
  intros Hn. unfold expected. destruct (last_write W p) eqn:E; [eauto|]. destruct (is_parent W p) eqn:Ep; [|auto].
  apply is_parent_spec in Ep as (q & Hq & Hpre & Hne). destruct Hne. apply Hn; eauto.
Qed.
(** What matters of a sequence of writes is the last write of each file. *)
Lemma is_parent_last W1 W2 rel : (∀ q, last_write W1 q = last_write W2 q) → is_parent W1 rel = is_parent W2 rel.
Proof.
  intros Hl. assert (∀ q, q ∈ W1.*1 ↔ q ∈ W2.*1) as Hk.
  { intros q. pose proof (last_write_None W1 q) as H1. pose proof (last_write_None W2 q) as H2. rewrite Hl in H1.
    destruct (decide (q ∈ W1.*1)), (decide (q ∈ W2.*1)); tauto. }
  apply eq_true_iff_eq. rewrite !is_parent_spec. by setoid_rewrite Hk.
Qed.
Lemma expected_last mode W1 W2 rel :
  (∀ q, last_write W1 q = last_write W2 q) → expected mode W1 rel = expected mode W2 rel.
Proof. intros Hl. unfold expected. by rewrite Hl, (is_parent_last W1 W2). Qed.

Lemma last_write_rename W rel : [".gitignore"] ∉ W.*1 →
  last_write (rename_write <$> W) rel =
    if decide (rel = [".gitignore"]) then last_write W ["gitignore"]
    else if decide (rel = ["gitignore"]) then None else last_write W rel.
Proof.
  induction W as [|[p c] W IH] using rev_ind; intros Hg; [by repeat case_decide|].
  rewrite fmap_app in Hg. rewrite (fmap_app rename_write). cbn [fmap list_fmap fst] in Hg.
  change (rename_write <$> [(p, c)]) with [(if decide (p = ["gitignore"]) then [".gitignore"] else p, c)].
  assert ([".gitignore"] ∉ W.*1 ∧ p ≠ [".gitignore"]) as [Hg1 Hg2] by (rewrite elem_of_app, elem_of_cons in Hg; naive_solver).
  rewrite !last_write_snoc, IH by done. repeat case_decide; naive_solver.
Qed.
Lemma is_parent_rename W rel : rel ≠ [] → is_parent (rename_write <$> W) rel = is_parent W rel.
Proof.
  intros Hrel. unfold is_parent. induction W as [|[p c] W IH]; [done|]. cbn [fmap list_fmap existsb rename_write fst]. rewrite IH. f_equal.
  case_decide as Hp; [|done]. cbn in Hp. subst. apply bool_decide_ext.
  assert (∀ s : string, rel `prefix_of` [s] → rel = [s]) as Hs.
  { intros s [z Hz]. destruct rel as [|x [|]], z; naive_solver. }
  split; intros [H1%Hs H2]; done.
Qed.
Lemma no_conflict_incl ps qs : (∀ p, p ∈ ps → p ∈ qs) → no_conflict qs → no_conflict ps.
Proof. intros Hs Hn a b Ha Hb. apply Hn; auto. Qed.

Lemma has_suffix_longer r s p : String.length p ≤ String.length s → has_suffix (r +:+ s) p = has_suffix s p.
Proof.
  intros Hl. unfold has_suffix. rewrite str_length_app. f_equal; [apply eq_true_iff_eq; rewrite !Nat.leb_le; lia|].
  f_equal. induction r as [|c r IH]; [done|]. cbn [String.length]. rewrite str_app_cons, Nat.add_succ_l, Nat.sub_succ_l by lia.
  cbn [str_drop]. apply IH.
Qed.

(** What the names of the templates have to be like. *)
Definition good_file (file : string) : bool :=
  negb (bool_decide (out_path file = [])) && String.eqb (join (out_path file) "/") (templateOutputPath file)
  && (3 <=? String.length (templateOutputPath file)).

(** ** One file after the other *)

Section Run.
Context (fs_templates : embedded) (render : string → string → string → TemplateData → result string)
  (format : string → string → result string) (cwd : path) (st : string).
Local Abbreviation stag := (cwd ++ [st]).

(** The bytes that a template turns into. *)
Definition output (data : TemplateData) (file : string) : result string :=
  match embed_ReadFile fs_templates file with
  | Err e => Err e
  | Ok content =>
      match render file (Base file) content data with
      | Err e => Err e
      | Ok out => if has_suffix (templateOutputPath file) ".go" then format file out else Ok out
      end
  end.
Definition written (data : TemplateData) (file : string) : path * string :=
  (out_path file, match output data file with Ok c => c | Err _ => "" end).

Record staged (mode : Z) (W : writes) (t : gmap path node) : Prop := mkStaged {
  staged_dirs : dirs t stag;
  staged_nodes : ∀ rel, rel ≠ [] → t !! (stag ++ rel) = expected mode W rel;
}.

Lemma prefix_stag q p : q `prefix_of` stag ++ p → q ≠ [] → q ∈ prefixes stag ∨ ∃ x, x ≠ [] ∧ q = stag ++ x ∧ x `prefix_of` p.
Proof using.
  intros Hq Hne. destruct (prefix_weak_total q stag (stag ++ p)) as [H|[x ->]]; [done|by eexists| |].
  - left. by apply elem_of_prefixes.
  - destruct x as [|c x]; [left; rewrite app_nil_r in Hne |- *; by apply elem_of_prefixes|]. right. exists (c :: x).
    split_and!; [done..|]. by apply prefix_app_inv in Hq.
Qed.
Lemma prefix_snoc_inv (rel p : path) x : rel `prefix_of` p ++ [x] → rel ≠ p ++ [x] → rel `prefix_of` p.
Proof using.
  intros [z Hz] Hne. destruct z as [|y z _] using rev_ind; [by rewrite app_nil_r in Hz|].
  rewrite (assoc_L (++)) in Hz. apply app_inj_tail in Hz as [-> _]. by eexists.
Qed.
Lemma write_staged mode W p c fs :
  faults fs = [] → staged mode W (tree fs) → p ≠ [] → no_conflict (W ++ [(p, c)]).*1 → mode = Z.ldiff 420 (umask fs) →
  ∃ t1, mkdirAll (dirname (stag ++ p)) fs = (set_tree fs t1, Ok tt)
    ∧ ∃ t2, writeFile (stag ++ p) c 420 (set_tree fs t1) = (set_tree fs t2, Ok tt) ∧ staged mode (W ++ [(p, c)]) t2.
Proof using.
  intros Hf [Hd Hn] Hp Hc Hm. destruct p as [|x p _] using rev_ind; [done|]. clear Hp.
  rewrite (assoc_L (++)), dirname_snoc.
  assert (∀ q, q ∈ prefixes (stag ++ p) → free_or_dir (tree fs) q) as Hfree.
  { intros q [Hne Hq]%elem_of_prefixes. apply prefix_stag in Hq as [Hq|(y & Hy & -> & Hpre)]; [right; by apply Hd| |done].
    unfold free_or_dir. rewrite Hn by done. eapply expected_parent; [done|by etransitivity; [|eexists]|].
    intros ->. destruct Hpre as [z Hz]. apply (f_equal length) in Hz. rewrite !length_app in Hz. cbn in Hz. lia. }
  destruct (mkdirAll_quiet (stag ++ p) fs Hf Hfree) as (t1 & -> & Ht1). exists t1. split; [done|].
  assert (dirs t1 stag) as Hd1.
  { intros q Hq. rewrite Ht1. case_decide; [done|]. by apply Hd. }
  assert (∀ rel, rel ≠ [] → t1 !! (stag ++ rel) = if decide (rel `prefix_of` p) then Some Dir else expected mode W rel) as Hn1.
  { intros rel Hrel. rewrite Ht1, Hn by done. destruct (decide (rel `prefix_of` p)) as [Hpre|Hpre]; case_decide as Hin; try done.
    - destruct Hin. apply elem_of_prefixes. split; [by destruct stag|]. by apply prefix_app.
    - apply elem_of_prefixes in Hin as [_ Hin]. by apply prefix_app_inv in Hin. }
  assert (find_node t1 (stag ++ p ++ [x]) = Ok (t1 !! (stag ++ p ++ [x]))) as Hfind.
  { apply find_node_dirs. intros q Hq. rewrite (assoc_L (++)), dirname_snoc in Hq. right. rewrite Ht1. by case_decide. }
  assert (parent_dir t1 (dirname (stag ++ p ++ [x])) = true) as Hpar.
  { rewrite (assoc_L (++)), dirname_snoc. unfold parent_dir. destruct (stag ++ p) eqn:E; [done|]. rewrite <- E, Ht1, decide_True; [done|].
    apply elem_of_prefixes. by rewrite E. }
  assert (t1 !! (stag ++ p ++ [x]) = expected mode W (p ++ [x])) as Hx.
  { rewrite Hn1 by by destruct p. rewrite decide_False; [done|]. intros [z Hz]. apply (f_equal length) in Hz.
    rewrite !length_app in Hz. cbn in Hz. lia. }
  exists (<[stag ++ p ++ [x] := File c mode]> t1). rewrite <- (assoc_L (++)). split.
  - destruct (expected_target mode W (p ++ [x]) c Hc) as [E|[c' E]]; rewrite E in Hx; rewrite Hx in Hfind.
    + rewrite writeFile_quiet by done. by subst mode.
    + by rewrite (writeFile_over _ _ _ (set_tree fs t1) c' mode).
  - split.
    + intros q Hq. rewrite lookup_insert_ne; [by apply Hd1|]. intros <-. apply elem_of_prefixes in Hq as [_ [z Hz]].
      apply (f_equal length) in Hz. rewrite !length_app in Hz. cbn in Hz. lia.
    + intros rel Hrel. rewrite expected_snoc by done. destruct (decide (rel = p ++ [x])) as [->|Hne]; [by rewrite lookup_insert_eq|].
      rewrite lookup_insert_ne by (intros E; by apply app_inv_head in E). rewrite Hn1 by done.
      destruct (decide (rel `prefix_of` p)) as [H|H]; [rewrite decide_True; [done|by etransitivity; [|by eexists]]|].
      rewrite decide_False; [done|]. intros Hpre. apply H. by eapply prefix_snoc_inv.
Qed.

Lemma shown_stag p : p ≠ [] → shown cwd (stag ++ p) = (st +:+ "/") +:+ join p "/".
Proof using.
  intros Hp. unfold shown. rewrite <- (assoc_L (++)), drop_app_length. destruct p as [|c p]; [done|]. cbn [app join].
  by rewrite str_app_assoc.
Qed.
Lemma rename_staged mode W c fs :
  faults fs = [] → staged mode W (tree fs) → no_conflict W.*1 → last_write W ["gitignore"] = Some c → expected mode W [".gitignore"] = None →
  ∃ t2, renameFile (stag ++ ["gitignore"]) (stag ++ [".gitignore"]) fs = (set_tree fs t2, Ok tt)
    ∧ staged mode (rename_write <$> W) t2.
Proof using.
  intros Hf [Hd Hn] Hnc Hc He. unfold renameFile, bind. rewrite next_fault_quiet by done. cbn [io_error].
  rewrite !Hn, He by done. unfold expected at 1. rewrite Hc. eexists. split; [reflexivity|].
  assert (∀ x q, q ∈ prefixes stag → q ≠ stag ++ [x]) as Hne.
  { intros x q [_ [z Hz]]%elem_of_prefixes ->. apply (f_equal length) in Hz. rewrite !length_app in Hz. cbn in Hz. lia. }
  assert ([".gitignore"] ∉ W.*1) as Hg.
  { apply last_write_None. unfold expected in He. by destruct (last_write W [".gitignore"]). }
  split.
  - intros q Hq. rewrite lookup_insert_ne, lookup_delete_ne by (symmetry; by apply Hne). by apply Hd.
  - intros rel Hrel. unfold expected. rewrite last_write_rename, is_parent_rename by done.
    destruct (decide (rel = [".gitignore"])) as [->|Hr1]; [by rewrite lookup_insert_eq, Hc|].
    rewrite lookup_insert_ne by (intros E; by apply app_inv_head in E).
    destruct (decide (rel = ["gitignore"])) as [->|Hr2].
    + rewrite lookup_delete_eq. destruct (is_parent W ["gitignore"]) eqn:Ep; [|done]. by rewrite (no_conflict_parent W) in Hc.
    + rewrite lookup_delete_ne by (intros E; by apply app_inv_head in E). by apply Hn.
Qed.
Lemma processTemplate_staged mode W file data fs out :
  faults fs = [] → staged mode W (tree fs) → mode = Z.ldiff 420 (umask fs) → good_file file = true →
  output data file = Ok out → no_conflict (W ++ [(out_path file, out)]).*1 →
  ∃ t2, processTemplate fs_templates render format cwd stag file data fs = (set_tree fs t2, Ok tt)
    ∧ staged mode (W ++ [(out_path file, out)]) t2.
Proof using.
  intros Hf Hs Hm [[Hp Hj]%andb_true_iff Hlen]%andb_true_iff Ho Hc.
  apply negb_true_iff, bool_decide_eq_false in Hp. apply String.eqb_eq in Hj. apply Nat.leb_le in Hlen.
  destruct (write_staged mode W (out_path file) out fs) as (t1 & E1 & t2 & E2 & Hs2); [done..|]. exists t2. split; [|done].
  unfold processTemplate, output in *. destruct (embed_ReadFile fs_templates file) as [content|]; [|done].
  unfold bind, wrap, of_result at 1. change (below stag (templateOutputPath file)) with (stag ++ out_path file). rewrite E1.
  unfold of_result at 1. destruct (render _ _ _ _) as [rendered|]; [|done].
  rewrite shown_stag, Hj, has_suffix_longer by done. destruct (has_suffix _ _).
  - unfold of_result. rewrite Ho. by rewrite E2.
  - injection Ho as ->. unfold ret. by rewrite E2.
Qed.
Lemma process_all_staged mode data files : ∀ W fs,
  faults fs = [] → staged mode W (tree fs) → mode = Z.ldiff 420 (umask fs) → Forall (λ f, good_file f = true) files →
  Forall (λ f, is_ok (output data f) = true) files → no_conflict (W.*1 ++ (out_path <$> files)) →
  ∃ t2, process_all fs_templates render format cwd stag files data fs = (set_tree fs t2, Ok tt)
    ∧ staged mode (W ++ (written data <$> files)) t2.
Proof using.
  induction files as [|file files IH]; intros W fs Hf Hs Hm Hg Ho Hc; cbn [process_all].
  { exists (tree fs). rewrite app_nil_r. by destruct fs. }
  apply Forall_cons in Hg as [Hg1 Hg], Ho as [Ho1 Ho]. destruct (output data file) as [out|] eqn:E; [|done].
  assert (written data file = (out_path file, out)) as Hw by (unfold written; by rewrite E).
  destruct (processTemplate_staged mode W file data fs out) as (t1 & E1 & Hs1); try done.
  { eapply no_conflict_incl; [|exact Hc]. intros p. rewrite fmap_app. cbn. set_solver. }
  destruct (IH (W ++ [(out_path file, out)]) (set_tree fs t1)) as (t2 & E2 & Hs2); try done.
  { rewrite fmap_app, <- app_assoc. done. }
  exists t2. unfold bind. rewrite E1, E2. split; [done|]. rewrite <- app_assoc in Hs2. cbn. by rewrite Hw.
Qed.

Lemma process_all_app l1 l2 data fs :
  process_all fs_templates render format cwd stag (l1 ++ l2) data fs =
    (do* process_all fs_templates render format cwd stag l1 data in
     process_all fs_templates render format cwd stag l2 data) fs.
Proof using.
  revert fs. induction l1 as [|f l1 IH]; intros fs; [done|]. cbn [app process_all]. unfold bind in *.
  destruct (processTemplate _ _ _ _ _ _ _ _) as [fs1 [[]|e]]; [apply IH|done].
Qed.
Lemma walk_tree_all data : ∀ e dir fs, (∃ l, e = TDir l) →
  walk_tree fs_templates render format cwd stag dir e data fs =
    process_all fs_templates render format cwd stag (templates_below dir e) data fs.
Proof using.
  fix IH 1. intros [c|entries] dir fs [l Hl]; [done|]. clear l Hl. cbn [walk_tree templates_below].
  assert (Forall (λ e, ∀ dir fs, (∃ l, e.2 = TDir l) → walk_tree fs_templates render format cwd stag dir e.2 data fs =
    process_all fs_templates render format cwd stag (templates_below dir e.2) data fs) entries) as Hes.
  { revert entries. fix IHl 1. intros [|[n e] entries]; constructor; [apply IH|apply IHl]. }
  clear IH. revert fs. induction Hes as [|[n e] entries He Hes IHes]; intros fs; [done|].
  rewrite process_all_app. unfold bind. destruct e as [c|l].
  - destruct (has_suffix n ".tpl"); [|apply IHes]. cbn [process_all]. unfold bind, ret.
    destruct (processTemplate _ _ _ _ _ _ _ _) as [fs1 [[]|e]]; [apply IHes|done].
  - rewrite <- He by by eexists. cbn [snd]. destruct (walk_tree _ _ _ _ _ _ _ _ _) as [fs1 [[]|e]]; [apply IHes|done].
Qed.
Lemma walkAndProcess_all data dir fs : (∃ l, find_embedded fs_templates (split dir "/") = Some (TDir l)) →
  walkAndProcess fs_templates render format cwd stag dir data fs =
    process_all fs_templates render format cwd stag (templates_in fs_templates dir) data fs.
Proof using.
  intros [l Hl]. unfold walkAndProcess, templates_in. rewrite Hl. apply walk_tree_all. by eexists.
Qed.
End Run.

(** ** The table of templates *)

Definition all_files (e : embedded) : list string :=
  baseFiles ++ (ValidArchs ≫= λ a, templates_in e ("templates/architectures/" +:+ a))
    ++ (ValidDBs ≫= λ d, templates_in e ("templates/database/" +:+ d)) ++ feature_files e ValidFeatures.
(** All the files of a project, with the ones that are not templates. *)
Definition all_paths (e : embedded) : list path :=
  (out_path <$> all_files e) ++ [[".gitignore"]; [".fgoths"; "upgrade.json"]].
Definition no_conflict_b (ps : list path) : bool :=
  forallb (λ a, forallb (λ b, negb (bool_decide (a `prefix_of` b)) || bool_decide (a = b)) ps) ps.
Lemma no_conflict_b_spec ps : no_conflict_b ps = true → no_conflict ps.
Proof.
  unfold no_conflict_b. rewrite forallb_forall. intros H a b Ha Hb Hp.
  specialize (H a (proj1 (list_elem_of_In _ _) Ha)). rewrite forallb_forall in H. specialize (H b (proj1 (list_elem_of_In _ _) Hb)).
  rewrite bool_decide_eq_true_2 in H by done. by apply bool_decide_eq_true in H.
Qed.
Definition disjoint_features (e : embedded) : bool :=
  let outs f := out_path <$> templates_in e ("templates/features/" +:+ f) in
  forallb (λ f, bool_decide (NoDup (outs f))
    && forallb (λ g, bool_decide (f = g) || forallb (λ p, negb (bool_decide (p ∈ outs g))) (outs f)) ValidFeatures) ValidFeatures.

Lemma fmap_bind_list {A B C} (h : B → C) (g : A → list B) l : h <$> (l ≫= g) = l ≫= λ x, h <$> g x.
Proof. induction l as [|x l IH]; [done|]. cbn. by rewrite fmap_app, IH. Qed.

Section Table.
Context (content : string → string).
Local Abbreviation tfs := (templatesFS content).

Lemma table_good : forallb good_file (all_files tfs) = true.
Proof using. vm_compute. reflexivity. Qed.
Lemma table_no_conflict : no_conflict (all_paths tfs).
Proof using. apply no_conflict_b_spec. vm_compute. reflexivity. Qed.
Lemma table_disjoint : disjoint_features tfs = true.
Proof using. vm_compute. reflexivity. Qed.
Lemma arch_found a : a ∈ ValidArchs → ∃ l, find_embedded tfs (split ("templates/architectures/" +:+ a) "/") = Some (TDir l).
Proof using.
  intros Ha. repeat (apply elem_of_cons in Ha as [->|Ha]; [eexists; vm_compute; reflexivity|]). by apply elem_of_nil in Ha.
Qed.
Lemma db_found d : d ∈ ValidDBs → d ≠ DBNone → ∃ l, find_embedded tfs (split ("templates/database/" +:+ d) "/") = Some (TDir l).
Proof using.
  intros Hd Hn. apply elem_of_cons in Hd as [->|Hd]; [done|].
  repeat (apply elem_of_cons in Hd as [->|Hd]; [eexists; vm_compute; reflexivity|]). by apply elem_of_nil in Hd.
Qed.
(** Every feature has templates. *)
Lemma feature_found f : f ∈ ValidFeatures → ∃ l, find_embedded tfs (split ("templates/features/" +:+ f) "/") = Some (TDir l).
Proof using.
  intros Hf. repeat (apply elem_of_cons in Hf as [->|Hf]; [eexists; vm_compute; reflexivity|]). by apply elem_of_nil in Hf.
Qed.
Lemma stage_files_all cfg f : Architecture cfg ∈ ValidArchs → Database cfg ∈ ValidDBs →
  f ∈ stage_files tfs cfg → f ∈ all_files tfs.
Proof using.
  unfold stage_files, all_files. rewrite !elem_of_app, !list_elem_of_bind. intros Ha Hd [?|[?|Hf]]; [auto|right; left; eauto|].
  right; right; left. destruct (String.eqb (Database cfg) DBNone); [by apply elem_of_nil in Hf|eauto].
Qed.
Lemma feature_files_all fs f : (∀ g, g ∈ fs → g ∈ ValidFeatures) → f ∈ feature_files tfs fs → f ∈ all_files tfs.
Proof using.
  unfold feature_files, all_files. rewrite !elem_of_app. unfold feature_files. rewrite !list_elem_of_bind.
  intros Hfs (g & Hf & Hg). right. right. right. eauto.
Qed.
Lemma managed_paths k t : (k, t) ∈ managedRuntimeTemplates →
  clean_parts k = out_path t ∧ t ∈ all_files tfs ∧ embed_ReadFile tfs t = Ok (content t).
Proof using.
  intros Hk. assert (forallb (λ kt, bool_decide (clean_parts kt.1 = out_path kt.2) && bool_decide (kt.2 ∈ all_files tfs))
    managedRuntimeTemplates = true) as H by (vm_compute; reflexivity).
  rewrite forallb_forall in H. specialize (H _ (proj1 (list_elem_of_In _ _) Hk)). apply andb_true_iff in H as [H1 H2].
  apply bool_decide_eq_true in H1, H2. split_and!; [done..|].
  repeat (apply elem_of_cons in Hk as [[= -> ->]|Hk]; [vm_compute; reflexivity|]). by apply elem_of_nil in Hk.
Qed.
Lemma feature_outputs_NoDup l : NoDup l → (∀ f, f ∈ l → f ∈ ValidFeatures) → NoDup (out_path <$> feature_files tfs l).
Proof using.
  intros Hl Hv. pose proof table_disjoint as H. unfold disjoint_features in H. rewrite forallb_forall in H.
  assert (∀ f, f ∈ ValidFeatures → NoDup (out_path <$> templates_in tfs ("templates/features/" +:+ f))) as H1.
  { intros f Hf%list_elem_of_In. apply H, andb_true_iff in Hf as [Hf _]. by apply bool_decide_eq_true in Hf. }
  assert (∀ f g p, f ∈ ValidFeatures → g ∈ ValidFeatures → p ∈ (out_path <$> templates_in tfs ("templates/features/" +:+ f)) →
    p ∈ (out_path <$> templates_in tfs ("templates/features/" +:+ g)) → f = g) as H2.
  { intros f g p Hf%list_elem_of_In Hg%list_elem_of_In Hp Hp'. apply H, andb_true_iff in Hf as [_ Hf].
    rewrite forallb_forall in Hf. apply Hf, orb_true_iff in Hg as [Hg|Hg]; [by apply bool_decide_eq_true in Hg|].
    rewrite forallb_forall in Hg. apply list_elem_of_In, Hg, negb_true_iff, bool_decide_eq_false in Hp. done. }
  clear H. unfold feature_files. rewrite fmap_bind_list. apply NoDup_bind; [|auto|done].
  intros f g p Hf Hg. apply H2; auto.
Qed.
End Table.

(** ** The metadata *)

Lemma lookup_managed sha W k :
  managed_hashes sha W !! k = if decide (k ∈ managedRuntimeTemplates.*1) then sha <$> last_write W (clean_parts k) else None.
Proof.
  unfold managed_hashes. rewrite lookup_omap. set (ks := managedRuntimeTemplates.*1). clearbody ks.
  assert ((list_to_map ((λ k, (k, k)) <$> ks) : gmap string string) !! k = if decide (k ∈ ks) then Some k else None) as ->.
  { induction ks as [|x ks IH]; [done|]. cbn. destruct (decide (x = k)) as [->|Hne].
    - rewrite lookup_insert_eq, decide_True; [done|left].
    - rewrite lookup_insert_ne by done. rewrite IH. apply decide_ext. rewrite elem_of_cons. naive_solver. }
  by case_decide.
Qed.

Section Metadata.
Context (content : string → string) (marshal : projectUpgradeMetadata → result string) (sha : string → string)
  (visit : list string → list string) (Hvisit : ∀ l, visit l ≡ₚ l).
Context (Hplain : ∀ kt, kt ∈ managedRuntimeTemplates → contains (content kt.2) "{{" = false).
Context (cwd : path) (st : string).
Local Abbreviation tfs := (templatesFS content).
Local Abbreviation stag := (cwd ++ [st]).

Lemma read_sources_ok ks acc : (∀ k, k ∈ ks → k ∈ managedRuntimeTemplates.*1) →
  ∃ m, read_sources tfs ks acc = Ok m ∧ ∀ k, is_Some (m !! k) ↔ k ∈ ks ∨ is_Some (acc !! k).
Proof using All.
  revert acc. induction ks as [|k ks IH]; intros acc Hks; cbn [read_sources]; [exists acc; split; [done|set_solver]|].
  assert (∃ t, (k, t) ∈ managedRuntimeTemplates ∧ (list_to_map managedRuntimeTemplates : gmap string string) !! k = Some t)
    as (t & Ht & ->).
  { destruct (list_to_map managedRuntimeTemplates !! k) as [t|] eqn:E; [exists t; split; [by apply elem_of_list_to_map_2|done]|].
    apply not_elem_of_list_to_map in E. destruct E. apply Hks. left. }
  change (default "" (Some t)) with t. cbv zeta. destruct (managed_paths content k t Ht) as (_ & _ & ->). pose proof (Hplain _ Ht) as Hp. cbn [snd] in Hp. rewrite Hp.
  destruct (IH (<[k := content t]> acc)) as (m & -> & Hm); [intros; apply Hks; by right|]. exists m. split; [done|].
  intros k'. rewrite Hm, elem_of_cons. destruct (decide (k' = k)) as [->|Hne]; [rewrite lookup_insert_eq; naive_solver|].
  rewrite lookup_insert_ne by done. naive_solver.
Qed.
Lemma managed_key_path k : k ∈ managedRuntimeTemplates.*1 →
  clean_parts k ≠ [] ∧ ∃ t, clean_parts k = out_path t ∧ t ∈ all_files tfs.
Proof using.
  intros ([k' t] & -> & Hk)%list_elem_of_fmap. destruct (managed_paths content k' t Hk) as (E & Ht & _). split; [|by exists t].
  cbn [fst]. rewrite E. pose proof (table_good content) as Hg. rewrite forallb_forall in Hg. apply list_elem_of_In, Hg in Ht.
  unfold good_file in Ht. rewrite !andb_true_iff, negb_true_iff in Ht. destruct Ht as [[Ht _] _]. by apply bool_decide_eq_false in Ht.
Qed.
Lemma hash_files_quiet mode W fs ks hashes :
  faults fs = [] → staged cwd st mode W (tree fs) → (∀ k, k ∈ ks → clean_parts k ≠ [] ∧ is_parent W (clean_parts k) = false) →
  ∃ h, hash_files sha stag ks hashes fs = (fs, Ok h)
    ∧ ∀ k, h !! k = if decide (k ∈ ks) then match last_write W (clean_parts k) with Some c => Some (sha c) | None => hashes !! k end
                    else hashes !! k.
Proof using All.
  intros Hf [_ Hn]. revert hashes. induction ks as [|k ks IH]; intros hashes Hks; cbn [hash_files]; [by exists hashes|].
  destruct (Hks k) as [Hne Hp]; [left|]. unfold bind, attempt.
  assert (readFile (below stag k) fs = (fs, match last_write W (clean_parts k) with
    Some c => Ok c | None => Err "no such file or directory" end)) as ->.
  { unfold readFile, bind. rewrite next_fault_quiet by done. cbn. unfold of_result, below. rewrite Hn by done. unfold expected.
    rewrite Hp. by destruct (last_write W (clean_parts k)). }
  destruct (last_write W (clean_parts k)) as [c|] eqn:E.
  - destruct (IH (<[k := sha c]> hashes)) as (h & -> & Hh); [intros; apply Hks; by right|]. exists h. split; [done|].
    intros k'. rewrite Hh. destruct (decide (k' = k)) as [->|Hk].
    + rewrite lookup_insert_eq, E. rewrite (decide_True (P := k ∈ k :: ks)) by by left. by case_decide.
    + rewrite lookup_insert_ne by done. erewrite decide_ext; [done|]. rewrite elem_of_cons. naive_solver.
  - change (IsNotExist "no such file or directory") with true. cbn iota.
    destruct (IH hashes) as (h & -> & Hh); [intros; apply Hks; by right|]. exists h. split; [done|].
    intros k'. rewrite Hh. destruct (decide (k' = k)) as [->|Hk].
    + rewrite E. rewrite (decide_True (P := k ∈ k :: ks)) by by left. by case_decide.
    + erewrite decide_ext; [done|]. rewrite elem_of_cons. naive_solver.
Qed.

(** The record of a release, and the write that it is. *)
Definition metadata_for (cfg : ProjectConfig) (W : writes) : projectUpgradeMetadata :=
  mkMetadata (FrameworkVersion cfg) (ProjectType cfg) (Architecture cfg) (Database cfg) (features_of cfg) (managed_hashes sha W).
Definition metadata_writes (cfg : ProjectConfig) (W : writes) : writes :=
  if IsReleaseVersion (FrameworkVersion cfg) then
    match marshal (metadata_for cfg W) with Ok json => [metadata_write json] | Err _ => [] end
  else [].
Lemma metadata_staged mode W cfg fs :
  faults fs = [] → staged cwd st mode W (tree fs) → mode = Z.ldiff 420 (umask fs) → is_ok (marshal (metadata_for cfg W)) = true →
  (∀ p, p ∈ W.*1 → p ∈ all_paths tfs) → [".fgoths"; "upgrade.json"] ∉ W.*1 →
  ∃ t2, writeProjectUpgradeMetadata tfs marshal sha visit stag cfg fs = (set_tree fs t2, Ok tt)
    ∧ staged cwd st mode (W ++ metadata_writes cfg W) t2.
Proof using All.
  intros Hf Hs Hm Hok Hall Hnew. unfold writeProjectUpgradeMetadata, metadata_writes.
  destruct (IsReleaseVersion _); cbn [negb]; [|exists (tree fs); rewrite app_nil_r; by destruct fs].
  unfold ManagedRuntimeSources. destruct (read_sources_ok (visit managedRuntimeTemplates.*1) ∅) as (m & -> & Hm1); [intros k; by rewrite Hvisit|].
  unfold bind, of_result at 1.
  assert (∀ k, k ∈ visit (map_to_list m).*1 ↔ k ∈ managedRuntimeTemplates.*1) as Hks.
  { intros k. rewrite Hvisit, list_elem_of_fmap. specialize (Hm1 k). rewrite Hvisit, lookup_empty in Hm1. split.
    - intros ([k' c] & -> & Hk%elem_of_map_to_list). cbn in *. destruct Hm1 as [Hm1 _]. destruct Hm1; [by eexists|done|by destruct H].
    - intros Hk. destruct Hm1 as [_ [c Hc]]; [by left|]. exists (k, c). split; [done|]. by apply elem_of_map_to_list. }
  destruct (hash_files_quiet mode W fs (visit (map_to_list m).*1) ∅ Hf Hs) as (h & -> & Hh).
  { intros k Hk%Hks. destruct (managed_key_path k Hk) as (Hne & t & Et & Ht). split; [done|].
    destruct (is_parent W (clean_parts k)) eqn:Ep; [|done]. apply is_parent_spec in Ep as (q & Hq & Hpre & Hneq). destruct Hneq.
    apply (table_no_conflict content); [rewrite Et; apply elem_of_app; left; by apply list_elem_of_fmap_2|by apply Hall|done]. }
  assert (h = managed_hashes sha W) as ->.
  { apply map_eq. intros k. rewrite Hh, lookup_managed, lookup_empty. specialize (Hks k).
    repeat case_decide; tauto. }
  fold (metadata_for cfg W). unfold of_result. destruct (marshal (metadata_for cfg W)) as [json|]; [|done].
  destruct (write_staged cwd st mode W [".fgoths"; "upgrade.json"] (json +:+ newline) fs) as (t1 & E1 & t2 & E2 & Hs2); try done.
  { eapply no_conflict_incl; [|apply (table_no_conflict content)]. intros p. rewrite fmap_app. intros [?|Hp]%elem_of_app; [auto|].
    apply list_elem_of_singleton in Hp as ->. apply elem_of_app. right. right. left. }
  exists t2. split; [|exact Hs2].
  replace (dirname (stag ++ [".fgoths"; "upgrade.json"])) with (stag ++ [".fgoths"]) in E1.
  - rewrite E1. exact E2.
  - change [".fgoths"; "upgrade.json"] with ([".fgoths"] ++ ["upgrade.json"]). by rewrite (assoc_L (++)), dirname_snoc.
Qed.
End Metadata.

(** ** The staging directory *)

Section Whole.
Context (content : string → string) (render : string → string → string → TemplateData → result string)
  (format : string → string → result string) (marshal : projectUpgradeMetadata → result string) (sha : string → string)
  (visit : list string → list string) (Hvisit : ∀ l, visit l ≡ₚ l).
Context (Hplain : ∀ kt, kt ∈ managedRuntimeTemplates → contains (content kt.2) "{{" = false)
  (Hmarshal : ∀ m, is_ok (marshal m) = true).
Context (cwd : path) (st : string).
Local Abbreviation tfs := (templatesFS content).
Local Abbreviation stag := (cwd ++ [st]).
Local Abbreviation process := (process_all tfs render format cwd stag).

(** The writes of a project whose features are visited in the given order. *)
Definition template_writes (cfg : ProjectConfig) (data : TemplateData) (features : list string) : writes :=
  written tfs render format data <$> (stage_files tfs cfg ++ feature_files tfs features).
Definition project_writes (cfg : ProjectConfig) (data : TemplateData) (features : list string) : writes :=
  let W := rename_write <$> template_writes cfg data features in W ++ metadata_writes marshal sha cfg W.

Lemma generate_each_run features data fs fs' : (∀ f, f ∈ features → f ∈ ValidFeatures) →
  process (feature_files tfs features) data fs = (fs', Ok tt) →
  generate_each tfs render format cwd stag features data fs = (fs', Ok tt).
Proof using All.
  revert fs. induction features as [|f features IH]; intros fs Hv E; [done|]. cbn [generate_each].
  change (feature_files tfs (f :: features)) with (templates_in tfs ("templates/features/" +:+ f) ++ feature_files tfs features) in E.
  rewrite process_all_app in E. apply bind_Ok in E as (fs1 & [] & E1 & E).
  rewrite (bind_run _ _ fs fs1 (Ok tt)); [apply IH; [intros; apply Hv; by right|done]|].
  unfold attempt. rewrite walkAndProcess_all by (apply feature_found, Hv; left). by rewrite E1.
Qed.

Definition valid (cfg : ProjectConfig) : Prop :=
  Architecture cfg ∈ ValidArchs ∧ Database cfg ∈ ValidDBs ∧ ∀ f, f ∈ features_of cfg → f ∈ ValidFeatures.
Definition data_of (cfg : ProjectConfig) (data : TemplateData) : Prop :=
  d_Architecture data = Architecture cfg ∧ d_Database data = Database cfg ∧ d_Features data = remove_dups (features_of cfg).
Lemma stages_run cfg data fs fs' : valid cfg → data_of cfg data →
  process (stage_files tfs cfg ++ feature_files tfs (visit (d_Features data))) data fs = (fs', Ok tt) →
  generate_in tfs render format marshal sha visit cwd stag cfg data fs = 
    (do* attempt (renameFile (stag ++ ["gitignore"]) (stag ++ [".gitignore"])) in
     wrap (λ e, "failed to write upgrade metadata: " +:+ e) (writeProjectUpgradeMetadata tfs marshal sha visit stag cfg)) fs'.
Proof using All.
  intros (Ha & Hd & Hf) (Ea & Ed & Ef) E. unfold stage_files in E. rewrite <- !(app_assoc _ _ (feature_files _ _)) in E.
  rewrite !process_all_app in E. apply bind_Ok in E as (fs1 & [] & E1 & E). rewrite process_all_app in E.
  apply bind_Ok in E as (fs2 & [] & E2 & E). rewrite process_all_app in E. apply bind_Ok in E as (fs3 & [] & E3 & E4).
  unfold generate_in. rewrite (bind_run _ _ fs fs1 tt) by (by apply wrap_run).
  rewrite (bind_run _ _ fs1 fs2 tt).
  2: { apply wrap_run, wrap_run. rewrite Ea. by rewrite walkAndProcess_all by by apply arch_found. }
  rewrite (bind_run _ _ fs2 fs3 tt).
  2: { destruct (String.eqb_spec (Database cfg) DBNone) as [|Hne]; [done|]. cbn [negb].
       apply wrap_run, wrap_run. rewrite Ed. by rewrite walkAndProcess_all by by apply db_found. }
  rewrite (bind_run _ _ fs3 fs' tt); [done|]. apply wrap_run, generate_each_run; [|done].
  intros f. rewrite Hvisit, Ef, elem_of_remove_dups. apply Hf.
Qed.

Lemma table_new p : p ∈ out_path <$> all_files tfs → p ≠ [".gitignore"] ∧ p ≠ [".fgoths"; "upgrade.json"].
Proof using.
  assert (forallb (λ p, negb (bool_decide (p = [".gitignore"])) && negb (bool_decide (p = [".fgoths"; "upgrade.json"])))
    (out_path <$> all_files tfs) = true) as H by (vm_compute; reflexivity).
  rewrite forallb_forall in H. intros Hp%list_elem_of_In. apply H, andb_true_iff in Hp as [H1 H2].
  by apply negb_true_iff, bool_decide_eq_false in H1, H2.
Qed.
Lemma plan_all cfg f : valid cfg →
  f ∈ stage_files tfs cfg ++ feature_files tfs (remove_dups (features_of cfg)) → f ∈ all_files tfs.
Proof using All.
  intros (Ha & Hd & Hf) [Hs|Hs]%elem_of_app; [by eapply stage_files_all|]. eapply feature_files_all; [|done].
  intros g. rewrite elem_of_remove_dups. apply Hf.
Qed.
Lemma keys_written data files : (written tfs render format data <$> files).*1 = out_path <$> files.
Proof using. by rewrite <- list_fmap_compose. Qed.
Lemma plan_paths cfg data l : valid cfg → l ≡ₚ remove_dups (features_of cfg) →
  let W := template_writes cfg data l in
  (∀ p, p ∈ W.*1 → p ∈ out_path <$> all_files tfs) ∧ ["gitignore"] ∈ W.*1.
Proof using All.
  intros Hv Hl W. unfold W, template_writes. rewrite keys_written. split.
  - intros p (f & -> & Hf)%list_elem_of_fmap. apply list_elem_of_fmap_2, (plan_all cfg); [done|].
    apply elem_of_app in Hf as [Hf|Hf]; apply elem_of_app; [by left|right]. unfold feature_files in *.
    rewrite list_elem_of_bind in Hf |- *. by setoid_rewrite Hl in Hf.
  - change ["gitignore"] with (out_path "templates/base/gitignore.tpl"). apply list_elem_of_fmap_2, elem_of_app. left.
    apply elem_of_app. left. by do 5 right; left.
Qed.
Lemma rename_paths (W : writes) : (∀ p, p ∈ W.*1 → p ∈ out_path <$> all_files tfs) →
  ∀ p, p ∈ (rename_write <$> W).*1 → p ∈ all_paths tfs ∧ p ≠ [".fgoths"; "upgrade.json"].
Proof using.
  intros HW p (w' & -> & Hw')%list_elem_of_fmap. apply list_elem_of_fmap in Hw' as ([q c] & -> & Hw). cbn [rename_write fst].
  case_decide as E; [split; [apply elem_of_app; right; left|done]|].
  pose proof (HW q (list_elem_of_fmap_2 fst _ _ Hw)) as Hq. split; [apply elem_of_app; by left|by apply table_new].
Qed.
Lemma generate_in_staged mode cfg data fs :
  faults fs = [] → staged cwd st mode [] (tree fs) → mode = Z.ldiff 420 (umask fs) → valid cfg → data_of cfg data →
  (∀ f, f ∈ stage_files tfs cfg ++ feature_files tfs (remove_dups (features_of cfg)) →
    is_ok (output tfs render format data f) = true) →
  ∃ t2, generate_in tfs render format marshal sha visit cwd stag cfg data fs = (set_tree fs t2, Ok tt)
    ∧ staged cwd st mode (project_writes cfg data (visit (d_Features data))) t2.
Proof using All.
  intros Hf Hs Hm Hv Hd Ho. pose proof (Hvisit (d_Features data)) as Hl. destruct (Hd) as (_ & _ & Ef). rewrite Ef in Hl at 2.
  destruct (plan_paths cfg data _ Hv Hl) as [Hpaths Hgit]. set (W := template_writes cfg data _) in *.
  assert (∀ f, f ∈ stage_files tfs cfg ++ feature_files tfs (visit (d_Features data)) →
    f ∈ stage_files tfs cfg ++ feature_files tfs (remove_dups (features_of cfg))) as Hin.
  { intros f [Hf'|Hf']%elem_of_app; apply elem_of_app; [by left|right]. unfold feature_files in *.
    rewrite list_elem_of_bind in Hf' |- *. by setoid_rewrite Hl in Hf'. }
  destruct (process_all_staged tfs render format cwd st mode data
    (stage_files tfs cfg ++ feature_files tfs (visit (d_Features data))) [] fs) as (t1 & E1 & Hs1); try done.
  { apply Forall_forall. intros f Hf'%Hin%(plan_all cfg); [|done]. pose proof (table_good content) as Hg.
    rewrite forallb_forall in Hg. by apply Hg, list_elem_of_In. }
  { apply Forall_forall. intros f Hf'%Hin. by apply Ho. }
  { eapply no_conflict_incl; [|apply (table_no_conflict content)]. intros p Hp. cbn in Hp. apply elem_of_app. left.
    apply Hpaths. unfold W, template_writes. by rewrite keys_written. }
  change ([] ++ _) with W in Hs1. rewrite (stages_run cfg data fs (set_tree fs t1)) by done.
  destruct (last_write W ["gitignore"]) as [c|] eqn:Ec; [|by apply last_write_None in Ec].
  assert (no_conflict W.*1) as Hnc.
  { eapply no_conflict_incl; [|apply (table_no_conflict content)]. intros p Hp. apply elem_of_app. left. by apply Hpaths. }
  destruct (rename_staged cwd st mode W c (set_tree fs t1)) as (t2 & E2 & Hs2); try done.
  { unfold expected. destruct (last_write W [".gitignore"]) eqn:E; [apply last_write_Some, Hpaths, table_new in E; by destruct E|].
    destruct (is_parent W [".gitignore"]) eqn:Ep; [|done]. apply is_parent_spec in Ep as (q & Hq & Hpre & Hne). destruct Hne.
    apply (table_no_conflict content); [apply elem_of_app; right; left|apply elem_of_app; left; by apply Hpaths|done]. }
  rewrite (bind_run _ _ (set_tree fs t1) (set_tree fs t2) (Ok tt)) by (unfold attempt; by rewrite E2).
  destruct (metadata_staged content marshal sha visit Hvisit Hplain cwd st mode (rename_write <$> W) cfg (set_tree fs t2))
    as (t3 & E3 & Hs3); try done.
  { intros p Hp. by apply (rename_paths W Hpaths) in Hp as [? _]. }
  { intros Hp. by apply (rename_paths W Hpaths) in Hp as [_ ?]. }
  exists t3. split; [by apply wrap_run|exact Hs3].
Qed.
End Whole.

(** ** The order of the features does not matter *)

Lemma last_write_app W1 W2 rel :
  last_write (W1 ++ W2) rel = match last_write W2 rel with Some c => Some c | None => last_write W1 rel end.
Proof.
  induction W2 as [|[p c] W2 IH] using rev_ind; [by rewrite app_nil_r|].
  rewrite (assoc_L (++)), !last_write_snoc, IH. by case_decide.
Qed.
Lemma last_write_perm W1 W2 rel : W1 ≡ₚ W2 → NoDup W1.*1 → last_write W1 rel = last_write W2 rel.
Proof.
  intros Hp Hn. unfold last_write. f_equal. apply list_to_map_proper; [by rewrite fmap_reverse, reverse_Permutation|].
  by rewrite !reverse_Permutation.
Qed.
Lemma managed_hashes_last sha W1 W2 : (∀ q, last_write W1 q = last_write W2 q) → managed_hashes sha W1 = managed_hashes sha W2.
Proof. intros Hl. apply map_eq. intros k. by rewrite !lookup_managed, Hl. Qed.

Section Order.
Context (content : string → string) (render : string → string → string → TemplateData → result string)
  (format : string → string → result string) (marshal : projectUpgradeMetadata → result string) (sha : string → string).
Local Abbreviation tfs := (templatesFS content).
Local Abbreviation writes_of := (project_writes content render format marshal sha).

Lemma project_writes_order cfg data l1 l2 q :
  valid cfg → l1 ≡ₚ l2 → NoDup l1 → (∀ f, f ∈ l1 → f ∈ ValidFeatures) →
  last_write (writes_of cfg data l1) q = last_write (writes_of cfg data l2) q.
Proof using.
  intros (Ha & Hd & _) Hl Hn Hv.
  assert (∀ l, (∀ f, f ∈ l → f ∈ ValidFeatures) → [".gitignore"] ∉ (template_writes content render format cfg data l).*1) as Hnew.
  { intros l Hvl. unfold template_writes. rewrite keys_written. intros (f & E & Hf)%list_elem_of_fmap.
    destruct (table_new content [".gitignore"]) as [[] _]; [|done]. rewrite E. apply list_elem_of_fmap_2.
    apply elem_of_app in Hf as [Hf|Hf]; [by eapply stage_files_all|by eapply feature_files_all]. }
  assert (∀ q, last_write (template_writes content render format cfg data l1) q =
    last_write (template_writes content render format cfg data l2) q) as HW.
  { intros q'. unfold template_writes. rewrite !fmap_app, !last_write_app.
    rewrite (last_write_perm (written tfs render format data <$> feature_files tfs l1) (written tfs render format data <$> feature_files tfs l2)); [done|by unfold feature_files; rewrite Hl|].
    rewrite keys_written. by apply feature_outputs_NoDup. }
  assert (∀ q, last_write (rename_write <$> template_writes content render format cfg data l1) q =
    last_write (rename_write <$> template_writes content render format cfg data l2) q) as HR.
  { intros q'. rewrite !last_write_rename; [by rewrite !HW|apply Hnew; intros f; rewrite <- Hl; apply Hv|by apply Hnew]. }
  unfold project_writes. cbv zeta. rewrite !last_write_app, HR. unfold metadata_writes, metadata_for.
  by rewrite (managed_hashes_last sha _ _ HR).
Qed.
End Order.

(** ** The move *)

Lemma move_tree_gone t from to q : from `prefix_of` q → ¬ to `prefix_of` q → move_tree t from to !! q = None.
Proof.
  intros Hf Ht. unfold move_tree. apply lookup_union_None. split.
  - apply not_elem_of_list_to_map. rewrite moved_keys. intros (p & -> & _)%list_elem_of_fmap. apply Ht. by eexists.
  - rewrite map_lookup_filter. destruct (t !! q); cbn; [|done]. rewrite option_guard_False; [done|]. by intros ?%within_false.
Qed.
Lemma Base_name c : name_component c → Base c = c.
Proof.
  intros (H1 & _ & _ & H4). unfold Base. destruct (String.eqb_spec c "") as [|_]; [done|]. unfold name_parts.
  change c with (join [c] "/") at 1. rewrite split_join; [|done|by intros x ->%list_elem_of_singleton].
  cbn. by destruct (String.eqb_spec c "").
Qed.
Lemma dirs_parent t p : dirs t p → parent_dir t p = true.
Proof.
  intros Hd. unfold parent_dir. destruct p as [|c p]; [done|]. rewrite Hd; [done|]. by apply elem_of_prefixes.
Qed.
(** A new directory in [cwd] and a free path whose parent is there are apart. *)
Lemma apart t cwd stag root x y parent :
  stag = cwd ++ [x] → root = parent ++ [y] → dirs t cwd → dirs t parent → t !! stag = None → t !! root = None → stag ≠ root →
  ¬ stag `prefix_of` root ∧ ¬ root `prefix_of` stag.
Proof.
  intros -> -> Hc Hp Hs Hr Hne. split; intros Hpre.
  - apply prefix_snoc_inv in Hpre; [|done]. rewrite Hp in Hs; [done|]. apply elem_of_prefixes. split; [by destruct cwd|done].
  - apply prefix_snoc_inv in Hpre; [|done]. rewrite Hc in Hr; [done|]. apply elem_of_prefixes. split; [by destruct parent|done].
Qed.
Lemma renameDir_quiet from to fs :
  faults fs = [] → ¬ from `prefix_of` to → parent_dir (tree fs) (dirname to) = true → is_Some (tree fs !! from) → tree fs !! to = None →
  finalizeProjectDir from to fs = (set_tree fs (move_tree (tree fs) from to), Ok tt).
Proof.
  intros Hf Hw Hp [n Hn] Ht. unfold finalizeProjectDir, bind, attempt, renameDir, bind. rewrite next_fault_quiet by done.
  cbn [io_error]. rewrite (proj2 (within_false _ _) Hw), Hp, Hn, Ht. done.
Qed.

(** ** From the working directory to the staging directory *)

Lemma generate_starts fs_templates render format marshal sha visit cwd config fs stag ns :
  let cfg := Normalize config in
  let parent := if String.eqb (Config.Dir cfg) "" then cwd
                else if IsAbs (Config.Dir cfg) then clean_parts (Config.Dir cfg) else resolve cwd (Config.Dir cfg) in
  let root := parent ++ [Name cfg] in
  Validate cfg = Ok tt → name_component (Name cfg) → faults fs = [] → Forall name_component cwd → dirs (tree fs) cwd →
  dirs (tree fs) parent → tree fs !! root = None → first_free (tree fs) cwd ".fgoths-" (names fs) = Some (stag, ns) →
  Generate fs_templates render format marshal sha visit cwd config fs =
    cleanup stag
      (do* generate_in fs_templates render format marshal sha visit cwd stag cfg (template_data root cfg) in
       wrap (λ e, "failed to finalize project generation: " +:+ e) (finalizeProjectDir stag root))
      (mkProject (<[stag := Dir]> (tree fs)) (faults fs) ns (umask fs)).
Proof.
  intros cfg parent root Hval Hname Hf Hcwd Hdc Hdp Hroot Hfree. unfold Generate. fold cfg. rewrite Hval.
  assert (projectRoot cwd (Name cfg) (Config.Dir cfg) fs = (fs, Ok root)) as E1.
  { destruct (projectRoot cwd (Name cfg) (Config.Dir cfg) fs) as [fs1 r] eqn:E. revert E. unfold projectRoot.
    rewrite Base_name, String.eqb_refl by done. destruct Hname as (H1 & H2 & H3 & H4).
    rewrite (proj2 (String.eqb_neq _ _) H2), (proj2 (String.eqb_neq _ _) H3), H4. cbn [negb orb].
    unfold root, parent. destruct (String.eqb (Config.Dir cfg) "") eqn:Ed.
    - intros [= <- <-]. by rewrite resolve_name by (done || by split_and!).
    - unfold bind, wrap. destruct (IsAbs (Config.Dir cfg)); [by intros [= <- <-]|].
      rewrite next_fault_quiet by done. by intros [= <- <-]. }
  rewrite (bind_run _ _ _ _ _ E1).
  rewrite (bind_run _ _ fs fs None).
  2: { apply wrap_run. rewrite stat_run, find_node_dirs, Hroot; [done| |done]. intros q Hq. right. apply Hdp.
       unfold root in Hq. by rewrite dirname_snoc in Hq. }
  rewrite (bind_run _ _ fs (mkProject (<[stag := Dir]> (tree fs)) (faults fs) ns (umask fs)) stag); [done|].
  apply wrap_run. unfold mkdirTemp, bind. rewrite next_fault_quiet by done. cbn [io_error].
  by rewrite dirs_parent, Hfree by done.
Qed.
Lemma fresh_staged t cwd st mode :
  tree_closed t → dirs t cwd → t !! (cwd ++ [st]) = None → staged cwd st mode [] (<[cwd ++ [st] := Dir]> t).
Proof.
  intros Hclosed Hdc Hs. split.
  - intros q Hq. destruct (decide (q = cwd ++ [st])) as [->|Hne]; [apply lookup_insert_eq|]. rewrite lookup_insert_ne by done.
    apply elem_of_prefixes in Hq as [Hq1 Hq2]. apply Hdc, elem_of_prefixes. split; [done|by eapply prefix_snoc_inv].
  - intros rel Hrel. rewrite lookup_insert_ne.
    + by rewrite (closed_absent t (cwd ++ [st])); [|done|apply snoc_ne|done|eexists].
    + intros E. rewrite <- (app_nil_r (cwd ++ [st])) in E at 1. by apply app_inv_head in E.
Qed.
(** The tree after the move. *)
Lemma moved_project mode W t t2 cwd st parent name :
  tree_closed t → dirs t cwd → dirs t parent → t !! (cwd ++ [st]) = None → t !! (parent ++ [name]) = None →
  cwd ++ [st] ≠ parent ++ [name] → staged cwd st mode W t2 → (∀ q, ¬ (cwd ++ [st]) `prefix_of` q → t2 !! q = t !! q) →
  let t3 := move_tree t2 (cwd ++ [st]) (parent ++ [name]) in
  (∀ q, ¬ (parent ++ [name]) `prefix_of` q → t3 !! q = t !! q) ∧ t3 !! (parent ++ [name]) = Some Dir
  ∧ ∀ rel, rel ≠ [] → t3 !! ((parent ++ [name]) ++ rel) = expected mode W rel.
Proof.
  set (stag := cwd ++ [st]). set (root := parent ++ [name]). intros Hclosed Hdc Hdp Hs Hr Hne [Hd Hn] Ho t3.
  destruct (apart t cwd stag root st name parent) as [Hsr Hrs]; try done.
  assert (∀ r, t3 !! (root ++ r) = t2 !! (stag ++ r)) as Hmoved.
  { intros r. apply move_tree_moved. intros q Hq. rewrite Ho.
    - by apply (closed_absent t root); [|apply snoc_ne|..].
    - intros Hsq. by destruct (prefix_weak_total stag root q Hsq Hq). }
  split_and!.
  - intros q Hq. destruct (decide (stag `prefix_of` q)) as [Hsq|Hsq].
    + unfold t3. rewrite move_tree_gone by done. symmetry. by apply (closed_absent t stag); [|apply snoc_ne|..].
    + unfold t3. rewrite move_tree_other by done. by apply Ho.
  - rewrite <- (app_nil_r root), Hmoved, app_nil_r. apply Hd, elem_of_prefixes. split; [apply snoc_ne|done].
  - intros rel Hrel. rewrite Hmoved. by apply Hn.
Qed.

Lemma generate_run content render format marshal sha visit cwd config fs stag ns :
  let cfg := Normalize config in
  let parent := if String.eqb (Config.Dir cfg) "" then cwd
                else if IsAbs (Config.Dir cfg) then clean_parts (Config.Dir cfg) else resolve cwd (Config.Dir cfg) in
  let root := parent ++ [Name cfg] in
  let data := template_data root cfg in
  let features := remove_dups (features_of cfg) in
  Validate cfg = Ok tt → name_component (Name cfg) → (∀ l, visit l ≡ₚ l) →
  (∀ kt, kt ∈ managedRuntimeTemplates → contains (content kt.2) "{{" = false) → (∀ m, is_ok (marshal m) = true) →
  (∀ f, f ∈ stage_files (templatesFS content) cfg ++ feature_files (templatesFS content) features →
    is_ok (output (templatesFS content) render format data f) = true) →
  faults fs = [] → tree_closed (tree fs) → Forall name_component cwd → dirs (tree fs) cwd → dirs (tree fs) parent →
  tree fs !! root = None → first_free (tree fs) cwd ".fgoths-" (names fs) = Some (stag, ns) → stag ≠ root →
  ∃ fs', Generate (templatesFS content) render format marshal sha visit cwd config fs = (fs', Ok tt)
    ∧ (∀ q, ¬ root `prefix_of` q → tree fs' !! q = tree fs !! q) ∧ tree fs' !! root = Some Dir
    ∧ ∀ rel, rel ≠ [] → tree fs' !! (root ++ rel) =
        expected (Z.ldiff 420 (umask fs)) (project_writes content render format marshal sha cfg data features) rel.
Proof.
  intros cfg parent root data features Hval Hname Hvisit Hplain Hmarshal Hout Hf Hclosed Hcwd Hdc Hdp Hroot Hfree Hne.
  pose proof (proj1 (Validate_spec cfg) Hval) as (Hn0 & _ & Ha & Hd & Hfe).
  destruct (first_free_None _ _ _ _ _ _ Hfree) as [Hs [n Est]]. set (st := ".fgoths-" +:+ n) in *.
  destruct (apart (tree fs) cwd stag root st (Name cfg) parent) as [Hsr Hrs]; try done.
  rewrite (generate_starts _ _ _ _ _ _ _ _ _ stag ns) by done. fold cfg parent root. fold data. subst stag.
  set (mode := Z.ldiff 420 (umask fs)). set (fs1 := mkProject _ _ _ _).
  destruct (generate_in_staged content render format marshal sha visit Hvisit Hplain Hmarshal cwd st mode cfg data fs1)
    as (t2 & E2 & Hs2); try done; [by apply fresh_staged|].
  pose proof (generate_in_below (templatesFS content) render format marshal sha visit cwd (cwd ++ [st]) cfg data fs1) as [_ Ho].
  { by destruct (fresh_staged (tree fs) cwd st mode). }
  rewrite E2 in Ho. cbn [fst set_tree tree] in Ho.
  assert (∀ q, ¬ (cwd ++ [st]) `prefix_of` q → t2 !! q = tree fs !! q) as Ho'.
  { intros q Hq. rewrite Ho by done. cbn. rewrite lookup_insert_ne; [done|]. by intros <-. }
  destruct (moved_project mode _ (tree fs) t2 cwd st parent (Name cfg) Hclosed Hdc Hdp Hs Hroot Hne Hs2 Ho') as (H1 & H2 & H3).
  exists (set_tree fs1 (move_tree t2 (cwd ++ [st]) root)). split.
  - unfold cleanup. rewrite (bind_run _ _ _ _ _ E2), (wrap_run _ _ _ (set_tree fs1 (move_tree t2 (cwd ++ [st]) root)) tt); [done|].
    apply renameDir_quiet; try done.
    + unfold root. rewrite dirname_snoc. apply dirs_parent. intros q Hq. cbn. rewrite Ho'; [by apply Hdp|]. intros Hpre.
      apply elem_of_prefixes in Hq as [_ Hq]. apply Hsr. etransitivity; [exact Hpre|]. etransitivity; [exact Hq|by eexists].
    + exists Dir. apply (staged_dirs _ _ _ _ _ Hs2), elem_of_prefixes. split; [apply snoc_ne|done].
    + cbn. by rewrite Ho'.
  - split; [exact H1|]. split; [exact H2|]. intros rel Hrel. cbn [set_tree tree]. rewrite H3 by done. apply expected_last. intros q.
    apply project_writes_order; [done|apply Hvisit| |].
    + rewrite Hvisit. apply NoDup_remove_dups.
    + intros f. rewrite Hvisit. cbn. rewrite elem_of_remove_dups. apply Hfe.
Qed.

(** * Properties *)

(** C38 : When no call fails, generation makes exactly the project that the configuration asks for, whatever
    the order in which the features are visited: below the new directory there are, with the last content
    written to each, the files of the base, of the layout, of the database and of the features, in that
    order; their directories; [gitignore] under its dotted name; for a release, the metadata with the
    hashes of the managed runtime files; and nothing else, there or anywhere. *)
Theorem generate_complete content render format marshal sha visit cwd config fs stag ns :
  let cfg := Normalize config in
  let parent := if String.eqb (Config.Dir cfg) "" then cwd
                else if IsAbs (Config.Dir cfg) then clean_parts (Config.Dir cfg) else resolve cwd (Config.Dir cfg) in
  let root := parent ++ [Name cfg] in
  let data := template_data root cfg in
  let features := remove_dups (features_of cfg) in
  Validate cfg = Ok tt → name_component (Name cfg) → (∀ l, visit l ≡ₚ l) →
  (∀ kt, kt ∈ managedRuntimeTemplates → contains (content kt.2) "{{" = false) → (∀ m, is_ok (marshal m) = true) →
  (∀ f, f ∈ stage_files (templatesFS content) cfg ++ feature_files (templatesFS content) features →
    is_ok (output (templatesFS content) render format data f) = true) →
  faults fs = [] → tree_closed (tree fs) → Forall name_component cwd → dirs (tree fs) cwd → dirs (tree fs) parent →
  tree fs !! root = None → first_free (tree fs) cwd ".fgoths-" (names fs) = Some (stag, ns) → stag ≠ root →
  ∃ fs', Generate (templatesFS content) render format marshal sha visit cwd config fs = (fs', Ok tt)
    ∧ (∀ q, ¬ root `prefix_of` q → tree fs' !! q = tree fs !! q) ∧ tree fs' !! root = Some Dir
    ∧ ∀ rel, rel ≠ [] → tree fs' !! (root ++ rel) =
        expected (Z.ldiff 420 (umask fs)) (project_writes content render format marshal sha cfg data features) rel.
Proof. apply generate_run. Qed.

(** Nothing changed, or, where a call failed, only something below a directory that is new. *)
Definition at_most_staging (fs fs' : project) : Prop :=
  tree fs' = tree fs ∨ faults fs ≠ [] ∧ ∃ stag, tree fs !! stag = None ∧ ∀ q, ¬ stag `prefix_of` q → tree fs' !! q = tree fs !! q.

(** A server-rendered project on top of nothing but the working directory. *)
Definition demo_config : ProjectConfig :=
  mkConfig "shop" "" "ssr" "mvc" "sqlite" (Some ["htmx"; "flatbuffers"; "jwt-auth"]) "v1.4.1".
Definition demo_disk : project := mkProject {[ ["work"] := Dir ]} [] ["7"] 18.
Definition demo_render (file name source : string) (d : TemplateData) : result string := Ok source.
Definition demo_content (file : string) : string := "from " +:+ file.
Lemma demo_closed : tree_closed (tree demo_disk) ∧ dirs (tree demo_disk) ["work"].
Proof.
  split.
  - intros p c Hp [n Hn]. cbn in Hn. apply lookup_singleton_Some in Hn as [E _]. by destruct p as [|? []].
  - intros q [Hq [x Hx]]%elem_of_prefixes. destruct q as [|a [|]]; [done| |done]. injection Hx as <- _. apply lookup_singleton_eq.
Qed.
Lemma generate_complete_witness : ∃ fs',
  Generate (templatesFS demo_content) demo_render (λ _, Ok) (λ _, Ok "{}") id reverse ["work"] demo_config demo_disk = (fs', Ok tt)
  ∧ tree fs' !! ["work"; "shop"; ".gitignore"] = Some (File "from templates/base/gitignore.tpl" 420)
  ∧ tree fs' !! ["work"; "shop"; "schemas"; "app.fbs"] = Some (File "from templates/features/flatbuffers/schemas/app.fbs.tpl" 420)
  ∧ tree fs' !! ["work"; "shop"; ".fgoths"; "upgrade.json"] = Some (File ("{}" +:+ newline) 420)
  ∧ tree fs' !! ["work"; ".fgoths-7"] = None.
Proof.
  destruct (generate_complete demo_content demo_render (λ _, Ok) (λ _, Ok "{}") id reverse ["work"] demo_config demo_disk
    ["work"; ".fgoths-7"] []) as (fs' & E & Ho & _ & Hn).
  - vm_compute. reflexivity.
  - by split_and!.
  - apply reverse_Permutation.
  - intros kt Hkt. assert (forallb (λ kt, negb (contains (demo_content kt.2) "{{")) managedRuntimeTemplates = true) as H by (vm_compute; reflexivity).
    rewrite forallb_forall in H. by apply negb_true_iff, H, list_elem_of_In.
  - done.
  - intros f Hf. apply list_elem_of_In in Hf. revert f Hf. apply forallb_forall. vm_compute. reflexivity.
  - reflexivity.
  - apply demo_closed.
  - repeat constructor; done.
  - apply demo_closed.
  - apply demo_closed.
  - reflexivity.
  - vm_compute. reflexivity.
  - done.
  - cbn [demo_config Normalize Config.Dir Name String.eqb app] in Hn, Ho. exists fs'. split; [exact E|]. split_and!.
    + etransitivity; [apply (Hn [".gitignore"]); done|vm_compute; reflexivity].
    + etransitivity; [apply (Hn ["schemas"; "app.fbs"]); done|vm_compute; reflexivity].
    + etransitivity; [apply (Hn [".fgoths"; "upgrade.json"]); done|vm_compute; reflexivity].
    + rewrite Ho; [reflexivity|]. intros [x Hx]. by injection Hx.
Defined.
