(* ===== verification/Lifecycle.v ===== *)
(** * From [fgoths init] to [fgoths upgrade]

    The two commands that own the runtime files of a project, one after the
    other: what a release generates is a project that the upgrade command of
    every later release recognises.  The generator is that of Generator.v with
    the templates of the old release, the upgrade that of Upgrade.v with the
    templates of the new one; the project is seen from its own root. *)

From S2P Require Import Prelude GoStrings Config Os ProjectFs Upgrade UpgradeLive Generator GeneratorSpec.

(** The nodes below a directory, by their paths from it. *)
Definition below_root (root : path) (pn : path * node) : option (path * node) :=
  if decide (root `prefix_of` pn.1) then Some (drop (length root) pn.1, pn.2) else None.
Definition subtree (root : path) (t : gmap path node) : gmap path node := list_to_map (omap (below_root root) (map_to_list t)).
Definition project_at (root : path) (fs : project) (ns : list string) : project :=
  mkProject (subtree root (tree fs)) [] ns (umask fs).

Lemma lookup_subtree root t rel : subtree root t !! rel = t !! (root ++ rel).
Proof.
  unfold subtree. assert (NoDup (omap (below_root root) (map_to_list t)).*1) as Hn.
  { pose proof (NoDup_fst_map_to_list t) as Hn. induction (map_to_list t) as [|[p n] l IH]; [constructor|].
    apply NoDup_cons in Hn as [Hp Hn]. cbn [omap list_omap]. unfold below_root at 1. cbn [fst snd].
    destruct (decide (root `prefix_of` p)) as [[r ->]|]; [|by apply IH]. rewrite drop_app_length. cbn. apply NoDup_cons. split; [|by apply IH].
    intros ([r' n'] & Er & (x & Hx & Ex)%list_elem_of_omap)%list_elem_of_fmap. cbn in Er. subst r'. unfold below_root in Ex.
    destruct (decide _) as [[r' E]|]; [|done]. rewrite E, drop_app_length in Ex. injection Ex as -> _. apply Hp.
    cbn. rewrite <- E. by apply list_elem_of_fmap_2. }
  destruct (t !! (root ++ rel)) as [n|] eqn:E.
  - apply elem_of_list_to_map_1; [done|]. apply list_elem_of_omap. exists (root ++ rel, n). split; [by apply elem_of_map_to_list|].
    unfold below_root. cbn. rewrite decide_True by by eexists. by rewrite drop_app_length.
  - apply not_elem_of_list_to_map. intros ([r n] & -> & ([p n'] & Hp & Ep)%list_elem_of_omap)%list_elem_of_fmap.
    unfold below_root in Ep. cbn in *. destruct (decide _) as [[r' ->]|]; [|done]. rewrite drop_app_length in Ep. injection Ep as -> ->.
    apply elem_of_map_to_list in Hp. congruence.
Qed.

(** ** The two sets of files *)

(** No file of a project is below a place where the upgrade writes, and none is
    on the way to one. *)
Definition apart_from_upgrade (e : embedded) : bool :=
  forallb (λ a, forallb (λ c, negb (has_prefix c temp_prefix)) a && negb (bool_decide ([".fgoths"; "upgrade-backups"] `prefix_of` a))
    && negb (bool_decide (a = [".fgoths"])) && negb (bool_decide (a = []))
    && forallb (λ s, bool_decide (a = parts s)
         || negb (bool_decide (a `prefix_of` parts s)) && negb (bool_decide (parts s `prefix_of` a))) managed) (all_paths e).
Lemma table_apart content : apart_from_upgrade (templatesFS content) = true.
Proof. vm_compute. reflexivity. Qed.

Section Generated.
Context (content : string → string) (stamp : string) (Hstamp : mem_byte "/" stamp = false).
Local Abbreviation paths := (all_paths (templatesFS content)).

Lemma apart_spec a : a ∈ paths →
  Forall (λ c, has_prefix c temp_prefix = false) a ∧ ¬ [".fgoths"; "upgrade-backups"] `prefix_of` a ∧ a ≠ [".fgoths"] ∧ a ≠ []
  ∧ ∀ s, s ∈ managed → a = parts s ∨ ¬ a `prefix_of` parts s ∧ ¬ parts s `prefix_of` a.
Proof using.
  pose proof (table_apart content) as H. unfold apart_from_upgrade in H. rewrite forallb_forall in H. intros Ha%list_elem_of_In%H.
  rewrite !andb_true_iff, !negb_true_iff, !bool_decide_eq_false, !forallb_forall in Ha.
  destruct Ha as [[[[H1 H2] H3] H4] H5]. split_and!; try done.
  - apply Forall_forall. intros c Hc%list_elem_of_In%H1. by apply negb_true_iff.
  - intros s Hs%list_elem_of_In%H5. rewrite orb_true_iff, andb_true_iff, !negb_true_iff, !bool_decide_eq_false, bool_decide_eq_true in Hs. done.
Qed.
Lemma backup_free a s : a ∈ paths → s ∈ managed → ¬ a `prefix_of` backup_of stamp s ∧ ¬ backup_of stamp s `prefix_of` a.
Proof using.
  intros (_ & Hb & Hf & Hne & _)%apart_spec _. split.
  - intros [z Hz]. destruct a as [|x [|y a]]; [done|by injection Hz as <- _|]. injection Hz as <- <- _. apply Hb. by exists a.
  - intros [z ->]. apply Hb. eexists. reflexivity.
Qed.

(** What a sequence of writes to files of the project amounts to. *)
Context (W : writes) (HW : ∀ p, p ∈ W.*1 → p ∈ paths) (mode : Z).
Context (t : gmap path node) (Ht : ∀ rel, rel ≠ [] → t !! rel = expected mode W rel).

Lemma writes_no_conflict : no_conflict W.*1.
Proof using HW. eapply no_conflict_incl; [exact HW|apply table_no_conflict]. Qed.
Lemma expected_closed : tree_closed t.
Proof using HW Ht.
  intros p c Hp. rewrite !Ht by (done || apply snoc_ne). unfold expected. intros [n Hn].
  assert (is_parent W p = true) as Hpar.
  { apply is_parent_spec. destruct (last_write W (p ++ [c])) eqn:E.
    - exists (p ++ [c]). split_and!; [by eapply last_write_Some|by eexists|]. intros Ep. apply (f_equal length) in Ep.
      rewrite length_app in Ep. cbn in Ep. lia.
    - destruct (is_parent W (p ++ [c])) eqn:Ep; [|done]. apply is_parent_spec in Ep as (q & Hq & [z ->] & _).
      exists ((p ++ [c]) ++ z). rewrite <- (assoc_L (++)) in *. split_and!; [done|by eexists|]. intros E'. apply (f_equal length) in E'.
      rewrite length_app in E'. cbn in E'. lia. }
  by rewrite (no_conflict_parent _ _ writes_no_conflict Hpar), Hpar.
Qed.
Lemma expected_absent rel : rel ≠ [] → (∀ a, a ∈ paths → ¬ rel `prefix_of` a) → t !! rel = None.
Proof using HW Ht.
  intros Hne Ha. rewrite Ht by done. unfold expected. destruct (last_write W rel) eqn:E.
  - by destruct (Ha rel (HW _ (last_write_Some _ _ _ E))).
  - destruct (is_parent W rel) eqn:Ep; [|done]. apply is_parent_spec in Ep as (q & Hq & Hpre & _). by destruct (Ha q (HW _ Hq)).
Qed.
Lemma expected_way rel p : rel ∈ prefixes (dirname p) → (∀ a, a ∈ paths → a ≠ p → ¬ a `prefix_of` p) → free_or_dir t rel.
Proof using HW Ht.
  intros (Hpre & Hne & Hne0)%prefix_of_dirname Ha. unfold free_or_dir. rewrite Ht by done. unfold expected.
  destruct (last_write W rel) eqn:E; [|destruct (is_parent W rel); auto].
  by destruct (Ha rel (HW _ (last_write_Some _ _ _ E)) Hne).
Qed.
Lemma generated_ready ns : ready (touched stamp) ns t.
Proof using All.
  split.
  - apply expected_closed.
  - intros p q (s & Hs & [-> | ->])%elem_of_touched Hq; (eapply expected_way; [exact Hq|]); intros a Ha Hne.
    + destruct (apart_spec a Ha) as (_ & _ & _ & _ & H). by destruct (H s Hs) as [|[]].
    + by apply backup_free.
  - intros p (s & Hs & [-> | ->])%elem_of_touched.
    + rewrite Ht by by apply managed_ne. unfold expected. destruct (last_write W (parts s)) eqn:E; [right; eauto|].
      destruct (is_parent W (parts s)) eqn:Ep; [|by left]. apply is_parent_spec in Ep as (a & Ha & Hpre & Hne).
      destruct (apart_spec a (HW _ Ha)) as (_ & _ & _ & _ & H). by destruct (H s Hs) as [|[]].
    + left. apply expected_absent; [done|]. intros a Ha. by apply backup_free.
  - intros p n _ _. apply expected_absent; [apply snoc_ne|]. intros a (Hf & _)%apart_spec [z ->].
    apply Forall_app in Hf as [Hf _]. apply Forall_app in Hf as [_ Hf]. apply Forall_cons in Hf as [Hf _]. by rewrite has_prefix_app in Hf.
Qed.
Lemma generated_new s : s ∈ managed → t !! backup_of stamp s = None.
Proof using HW Ht. intros Hs. apply expected_absent; [done|]. intros a Ha. by apply backup_free. Qed.
End Generated.

(** ** The files of a generated project *)

(** No other template becomes a managed runtime file. *)
Definition managed_unique (e : embedded) : bool :=
  forallb (λ f, forallb (λ kt, negb (bool_decide (out_path f = out_path kt.2)) || String.eqb f kt.2) managedRuntimeTemplates) (all_files e).
Lemma table_unique content f k t :
  f ∈ all_files (templatesFS content) → (k, t) ∈ managedRuntimeTemplates → out_path f = out_path t → f = t.
Proof.
  assert (managed_unique (templatesFS content) = true) as H by (vm_compute; reflexivity). unfold managed_unique in H.
  rewrite forallb_forall in H. intros Hf%list_elem_of_In%H Ht%list_elem_of_In E. rewrite forallb_forall in Hf. specialize (Hf _ Ht).
  cbn [snd] in Hf. rewrite bool_decide_eq_true_2 in Hf by done. by apply String.eqb_eq.
Qed.
Lemma last_write_In W rel c : last_write W rel = Some c → (rel, c) ∈ W.
Proof. unfold last_write. intros H%elem_of_list_to_map_2. by rewrite elem_of_reverse in H. Qed.
(** The template of a runtime file that upgrades replace. *)
Definition template_of (r : string) : string := default "" ((list_to_map managedRuntimeTemplates : gmap string string) !! r).
Lemma template_managed r : r ∈ runtimeUpgradePaths → (r, template_of r) ∈ managedRuntimeTemplates ∧ parts r = out_path (template_of r).
Proof.
  intros Hr. assert (forallb (λ r, bool_decide ((r, template_of r) ∈ managedRuntimeTemplates)
    && bool_decide (parts r = out_path (template_of r))) runtimeUpgradePaths = true) as H by (vm_compute; reflexivity).
  rewrite forallb_forall in H. apply list_elem_of_In, H, andb_true_iff in Hr as [H1 H2]. by apply bool_decide_eq_true in H1, H2.
Qed.

Section Project.
Context (content : string → string) (render : string → string → string → TemplateData → result string)
  (format : string → string → result string) (marshal : projectUpgradeMetadata → result string) (sha : string → string).
Local Abbreviation tfs := (templatesFS content).
Context (cfg : ProjectConfig) (data : TemplateData) (Hvalid : valid cfg).
Definition project_files : list string := stage_files tfs cfg ++ feature_files tfs (remove_dups (features_of cfg)).
Local Abbreviation W := (project_writes content render format marshal sha cfg data (remove_dups (features_of cfg))).
Local Abbreviation W0 := (template_writes content render format cfg data (remove_dups (features_of cfg))).

Lemma metadata_keys W1 p : p ∈ (metadata_writes marshal sha cfg W1).*1 → p = [".fgoths"; "upgrade.json"].
Proof using.
  unfold metadata_writes. destruct (IsReleaseVersion _); [|by intros ?%elem_of_nil].
  destruct (marshal _); [|by intros ?%elem_of_nil]. by intros ?%list_elem_of_singleton.
Qed.
Lemma template_keys p : p ∈ W0.*1 → p ∈ out_path <$> all_files tfs.
Proof using Hvalid.
  unfold template_writes. rewrite keys_written. intros (f & -> & Hf)%list_elem_of_fmap. apply list_elem_of_fmap_2.
  destruct Hvalid as (Ha & Hd & Hfe). apply elem_of_app in Hf as [Hf|Hf]; [by eapply stage_files_all|].
  eapply feature_files_all; [|exact Hf]. intros g. rewrite elem_of_remove_dups. apply Hfe.
Qed.
Lemma project_keys p : p ∈ W.*1 → p ∈ all_paths tfs.
Proof using Hvalid.
  unfold project_writes. cbv zeta. rewrite fmap_app. intros [Hp|Hp]%elem_of_app.
  - by apply (rename_paths content W0 template_keys).
  - apply metadata_keys in Hp as ->. apply elem_of_app. right. right. left.
Qed.
(** A template of the project that is neither the ignore file nor written twice. *)
Lemma project_write p : p ≠ ["gitignore"] → p ≠ [".gitignore"] → p ≠ [".fgoths"; "upgrade.json"] → last_write W p = last_write W0 p.
Proof using Hvalid.
  intros H1 H2 H3. unfold project_writes. cbv zeta. rewrite last_write_app.
  rewrite (proj2 (last_write_None _ _)) by by intros ?%metadata_keys.
  rewrite last_write_rename; [by rewrite !decide_False|]. intros Hk%template_keys. by apply table_new in Hk as [[] _].
Qed.
Lemma file_written f : f ∈ project_files → is_Some (last_write W0 (out_path f)).
Proof using.
  intros Hf. destruct (last_write W0 (out_path f)) eqn:E; [by eexists|]. apply last_write_None in E. destruct E.
  unfold template_writes. rewrite keys_written. by apply list_elem_of_fmap_2.
Qed.
Lemma managed_written r c : r ∈ runtimeUpgradePaths → last_write W (parts r) = Some c →
  template_of r ∈ project_files ∧ c = (written tfs render format data (template_of r)).2.
Proof using Hvalid.
  intros Hr. destruct (template_managed r Hr) as [Hm Ep]. rewrite project_write.
  2-4: unfold runtimeUpgradePaths in Hr; repeat (apply elem_of_cons in Hr as [->|Hr]; [by vm_compute|]); by apply elem_of_nil in Hr.
  intros (f & E & Hf)%last_write_In%list_elem_of_fmap. injection E as E ->. rewrite Ep in E. symmetry in E.
  apply (table_unique content _ r) in E as ->; [done| |done].
  assert (out_path f ∈ W0.*1) as Hk%template_keys by (unfold template_writes; rewrite keys_written; by apply list_elem_of_fmap_2).
  destruct Hvalid as (Ha & Hd & Hfe). apply elem_of_app in Hf as [Hf|Hf]; [by eapply stage_files_all|].
  eapply feature_files_all; [|exact Hf]. intros g. rewrite elem_of_remove_dups. apply Hfe.
Qed.
Lemma managed_file_written r : r ∈ runtimeUpgradePaths → template_of r ∈ project_files →
  last_write W (parts r) = Some (written tfs render format data (template_of r)).2.
Proof using Hvalid.
  intros Hr Hf. destruct (last_write W (parts r)) as [c|] eqn:E; [by apply managed_written in E as [_ ->]|].
  destruct (template_managed r Hr) as [_ Ep]. rewrite project_write in E.
  2-4: unfold runtimeUpgradePaths in Hr; repeat (apply elem_of_cons in Hr as [->|Hr]; [by vm_compute|]); by apply elem_of_nil in Hr.
  rewrite Ep in E. apply file_written in Hf as [c Hc]. congruence.
Qed.
Lemma base_written f : f ∈ baseFiles → f ∈ project_files.
Proof using. intros Hf. apply elem_of_app. left. apply elem_of_app. by left. Qed.
Lemma metadata_written : IsReleaseVersion (FrameworkVersion cfg) = true → (∀ m, is_ok (marshal m) = true) →
  ∃ m json, m_FrameworkVersion m = FrameworkVersion cfg ∧ marshal m = Ok json
    ∧ last_write W [".fgoths"; "upgrade.json"] = Some (json +:+ newline).
Proof using.
  intros Hv Hm. unfold project_writes. cbv zeta. rewrite last_write_app. unfold metadata_writes. rewrite Hv.
  set (m := metadata_for _ _ _). specialize (Hm m). destruct (marshal m) as [json|] eqn:E; [|done].
  exists m, json. split_and!; [done|done|]. by vm_compute.
Qed.
End Project.

(** ** What the new release brings *)

Lemma read_sources_values content ks : ∀ acc,
  (∀ kt, kt ∈ managedRuntimeTemplates → contains (content kt.2) "{{" = false) → (∀ k, k ∈ ks → k ∈ managedRuntimeTemplates.*1) →
  ∃ m, read_sources (templatesFS content) ks acc = Ok m
    ∧ ∀ k t, (k, t) ∈ managedRuntimeTemplates → k ∈ ks ∨ acc !! k = Some (content t) → m !! k = Some (content t).
Proof.
  induction ks as [|k ks IH]; intros acc Hplain Hks; cbn [read_sources]; [exists acc; split; [done|]; by intros k t _ [?%elem_of_nil|]|].
  assert (∃ t, (k, t) ∈ managedRuntimeTemplates ∧ (list_to_map managedRuntimeTemplates : gmap string string) !! k = Some t) as (t & Ht & El).
  { destruct (list_to_map managedRuntimeTemplates !! k) as [t|] eqn:E; [exists t; split; [by apply elem_of_list_to_map_2|done]|].
    apply not_elem_of_list_to_map in E. destruct E. apply Hks. left. }
  rewrite El. change (default "" (Some t)) with t. cbv zeta. destruct (managed_paths content k t Ht) as (_ & _ & ->).
  pose proof (Hplain _ Ht) as Hp. cbn [snd] in Hp. rewrite Hp.
  destruct (IH (<[k := content t]> acc)) as (m & -> & Hm); [done|intros; apply Hks; by right|]. exists m. split; [done|].
  intros k' t' Ht'. destruct (decide (k' = k)) as [->|Hne].
  - intros _. apply Hm; [done|]. right. rewrite lookup_insert_eq. f_equal.
    assert (t' = t) as ->; [|done]. apply elem_of_list_to_map_1 in Ht'; [congruence|]. apply (bool_decide_unpack _). vm_compute. exact I.
  - rewrite elem_of_cons. intros [[?|?]|?]; [done|apply Hm; auto..]. right. by rewrite lookup_insert_ne.
Qed.
Lemma read_baseline_values embedded v c paths : ∀ acc,
  (∀ r, r ∈ paths → embedded !! ("upgrade/baselines/v" +:+ v +:+ "/" +:+ r +:+ ".txt") = Some (c r)) →
  ∃ b, read_baseline embedded v paths acc = Ok b ∧ ∀ r, r ∈ paths ∨ acc !! r = Some (c r) → b !! r = Some (c r).
Proof.
  induction paths as [|r paths IH]; intros acc He; cbn [read_baseline]; [exists acc; split; [done|]; by intros r [?%elem_of_nil|]|].
  rewrite He by left. destruct (IH (<[r := c r]> acc)) as (b & -> & Hb); [intros; apply He; by right|]. exists b. split; [done|].
  intros r' Hr'. apply Hb. destruct (decide (r' = r)) as [->|Hne]; [right; apply lookup_insert_eq|].
  rewrite lookup_insert_ne by done. rewrite elem_of_cons in Hr'. naive_solver.
Qed.
Lemma supported_release v : v ∈ latestRuntimeUpgradeVersion :: supportedRuntimeUpgradeSources →
  IsReleaseVersion v = true ∧ v ≠ "".
Proof.
  intros Hv. repeat (apply elem_of_cons in Hv as [->|Hv]; [by vm_compute|]). by apply elem_of_nil in Hv.
Qed.
Lemma plan_from_recorded m v : um_Version m = v → v ≠ "" → plan_from "" m = Ok v.
Proof. intros <- Hv. unfold plan_from. by rewrite (proj2 (String.eqb_neq _ _) Hv). Qed.

(** ** The two commands *)

Section Life.
(* the old release *)
Context (content : string → string) (render : string → string → string → TemplateData → result string)
  (format : string → string → result string) (marshal : projectUpgradeMetadata → result string)
  (visit : list string → list string).
(* the new one *)
Context (content' : string → string) (visit' : list string → list string) (embedded : gmap string string)
  (json_unmarshal : string → result upgradeManifest) (json_marshal : upgradeManifest → result string)
  (merge : string → string → string → merge_result) (stamp updatedAt : string).
Context (sha : string → string) (cwd : path) (config : ProjectConfig) (fs : project) (stag : path) (ns : list string).
Local Abbreviation cfg := (Normalize config).
Definition parent_of : path :=
  if String.eqb (Config.Dir cfg) "" then cwd else if IsAbs (Config.Dir cfg) then clean_parts (Config.Dir cfg) else resolve cwd (Config.Dir cfg).
Definition root_of : path := parent_of ++ [Name cfg].
Local Abbreviation data := (template_data root_of cfg).
Local Abbreviation W := (project_writes content render format marshal sha cfg data (remove_dups (features_of cfg))).
Local Abbreviation generate := (Generate (templatesFS content) render format marshal sha visit cwd config).
Local Abbreviation upgrade := (RunUpgrade embedded (ManagedRuntimeSources (templatesFS content') visit') json_unmarshal json_marshal
  merge sha stamp updatedAt latestRuntimeUpgradeVersion "").

(** Nothing stands in the way of the generation. *)
Record can_generate : Prop := mkCanGenerate {
  gen_config : Validate cfg = Ok tt;
  gen_name : name_component (Name cfg);
  gen_visit : ∀ l, visit l ≡ₚ l;
  gen_plain : ∀ kt, kt ∈ managedRuntimeTemplates → contains (content kt.2) "{{" = false;
  gen_marshal : ∀ m, is_ok (marshal m) = true;
  gen_output : ∀ f, f ∈ project_files content cfg → is_ok (output (templatesFS content) render format data f) = true;
  gen_faults : faults fs = [];
  gen_closed : tree_closed (tree fs);
  gen_cwd : Forall name_component cwd;
  gen_dirs : dirs (tree fs) cwd;
  gen_parent : dirs (tree fs) parent_of;
  gen_free : tree fs !! root_of = None;
  gen_temp : first_free (tree fs) cwd ".fgoths-" (names fs) = Some (stag, ns);
  gen_stag : stag ≠ root_of;
}.
(** The new release knows the old one: its baselines are the runtime files that the old one generated, which are the
    templates as they are, its own templates are plain, and each of the two reads what the other wrote. *)
Record knows_release : Prop := mkKnows {
  knows_baseline : ∀ r, r ∈ runtimeUpgradePaths → 
    embedded !! ("upgrade/baselines/v" +:+ FrameworkVersion cfg +:+ "/" +:+ r +:+ ".txt") = Some (content (template_of r));
  knows_files : ∀ r, r ∈ runtimeUpgradePaths → template_of r ∈ project_files content cfg →
    output (templatesFS content) render format data (template_of r) = Ok (content (template_of r));
  knows_visit : ∀ l, visit' l ≡ₚ l;
  knows_plain : ∀ kt, kt ∈ managedRuntimeTemplates → contains (content' kt.2) "{{" = false;
  knows_marshal : ∀ m, is_ok (json_marshal m) = true;
  knows_own : records_read_back json_unmarshal json_marshal;
}.
(** What [fgoths init] recorded is what [fgoths upgrade] reads. *)
Definition reads_metadata : Prop := ∀ m json, marshal m = Ok json →
  ∃ m', json_unmarshal (json +:+ newline) = Ok m' ∧ um_Version m' = m_FrameworkVersion m.

Lemma generate_project : can_generate →
  ∃ fs1, generate fs = (fs1, Ok tt) ∧ subtree root_of (tree fs1) !! [] = Some Dir
    ∧ ∀ rel, rel ≠ [] → subtree root_of (tree fs1) !! rel = expected (Z.ldiff 420 (umask fs)) W rel.
Proof using.
  intros []. destruct (generate_run content render format marshal sha visit cwd config fs stag ns) as (fs1 & E & _ & Hd & Hrel); try done.
  exists fs1. split_and!; [done|by rewrite lookup_subtree, app_nil_r|]. intros rel Hne. rewrite lookup_subtree. by apply Hrel.
Qed.
Lemma config_valid : can_generate → valid cfg.
Proof using. intros [Hv]. apply Validate_spec in Hv as (_ & _ & Ha & Hd & Hfe). by split_and!. Qed.
Lemma generated_file (mode : Z) (t : gmap path node) (rel : path) (c : string) : (∀ rel : path, rel ≠ [] → t !! rel = expected mode W rel) → rel ≠ [] →
  last_write W rel = Some c → t !! rel = Some (File c mode).
Proof using. intros Ht Hne E. rewrite Ht by done. unfold expected. by rewrite E. Qed.

(** The generated project is one that the upgrade command accepts, at the version it was generated by. *)
Lemma generated_project fs1 tmp k : mem_byte "/" stamp = false → can_generate → reads_metadata →
  FrameworkVersion cfg ∈ latestRuntimeUpgradeVersion :: supportedRuntimeUpgradeSources → k ≤ length tmp →
  subtree root_of (tree fs1) !! [] = Some Dir →
  (∀ rel, rel ≠ [] → subtree root_of (tree fs1) !! rel = expected (Z.ldiff 420 (umask fs)) W rel) →
  current_project stamp k (project_at root_of fs1 tmp)
  ∧ ∃ m, manifest_at json_unmarshal (tree (project_at root_of fs1 tmp)) = Ok m ∧ um_Version m = FrameworkVersion cfg.
Proof using.
  intros Hstamp Hg Hread Hv Hk Hroot Ht. pose proof (config_valid Hg) as Hvalid.
  pose proof (project_keys content render format marshal sha cfg data Hvalid) as HW.
  destruct (supported_release _ Hv) as [Hrel Hne]. split.
  - split; cbn [project_at tree faults names].
    + split; [done|done|]. by eapply generated_ready.
    + done.
    + destruct (file_written content render format cfg data "templates/base/go.mod.tpl") as [c Hc]; [by apply base_written; left|].
      exists c, (Z.ldiff 420 (umask fs)). eapply generated_file; [exact Ht|done|]. by rewrite project_write.
    + eexists _, _. eapply generated_file; [exact Ht|by vm_compute|].
      apply managed_file_written; [done|by left|]. apply base_written. apply (bool_decide_unpack _). by vm_compute.
  - destruct (metadata_written content render format marshal sha cfg data Hrel (gen_marshal Hg)) as (m & json & Em & Ej & El).
    destruct (Hread m json Ej) as (m' & Ej' & Em'). exists m'. split; [|congruence]. unfold manifest_at. cbn [project_at tree].
    change (parts metadata_path) with [".fgoths"; "upgrade.json"]. by rewrite (generated_file _ _ [".fgoths"; "upgrade.json"] _ Ht ltac:(done) El).
Qed.

(** To the new release, every file it manages is as the old one made it. *)
Lemma generated_mergeable fs1 tmp baseline targets : can_generate → knows_release →
  (∀ rel, rel ≠ [] → subtree root_of (tree fs1) !! rel = expected (Z.ldiff 420 (umask fs)) W rel) →
  (∀ r, r ∈ runtimeUpgradePaths → baseline !! r = Some (content (template_of r))) →
  (∀ r, r ∈ runtimeUpgradePaths → targets !! r = Some (content' (template_of r))) →
  (∀ r c m, r ∈ runtimeUpgradePaths → subtree root_of (tree fs1) !! parts r = Some (File c m) → c = content (template_of r))
  ∧ all_mergeable merge baseline targets (tree (project_at root_of fs1 tmp)).
Proof using.
  intros Hg Hk Ht Hb Htg. assert (∀ r c m, r ∈ runtimeUpgradePaths →
    subtree root_of (tree fs1) !! parts r = Some (File c m) → c = content (template_of r)) as Hc.
  { intros r c m Hr. rewrite Ht by by apply managed_ne, runtime_managed. unfold expected.
    destruct (last_write W (parts r)) as [c'|] eqn:E; [|by destruct (is_parent _ _)]. intros [= <- _].
    apply managed_written in E as [Hf ->]; [|by apply config_valid|done]. cbn [written snd]. by rewrite (knows_files Hk r Hr Hf). }
  split; [done|]. intros r Hr. exists (content (template_of r)), (content' (template_of r)). split_and!; [by apply Hb|by apply Htg|].
  intros c m Hn. right; left. by eapply Hc.
Qed.
Local Abbreviation generated fs1 :=
  (∀ rel, rel ≠ [] → subtree root_of (tree fs1) !! rel = expected (Z.ldiff 420 (umask fs)) W rel).
Lemma generated_healthy fs1 tmp : can_generate → generated fs1 →
  current_project stamp 8 (project_at root_of fs1 tmp) → healthy stamp (project_at root_of fs1 tmp).
Proof using.
  intros Hg Ht Hp. split; [done|]. intros s Hs.
  refine (generated_new content stamp _ (project_keys content render format marshal sha cfg data (config_valid Hg)) _ _ Ht s Hs).
Qed.
(** The runtime files after the upgrade. *)
Lemma generated_outcome fs1 tmp t2 baseline targets r : can_generate → generated fs1 → r ∈ runtimeUpgradePaths →
  (∀ c m, subtree root_of (tree fs1) !! parts r = Some (File c m) → c = content (template_of r)) →
  baseline !! r = Some (content (template_of r)) → targets !! r = Some (content' (template_of r)) →
  upgrade_done stamp merge json_marshal baseline targets (tree (project_at root_of fs1 tmp)) t2 →
  if decide (template_of r ∈ project_files content cfg)
  then ∃ m, t2 !! parts r = Some (File (content' (template_of r)) m) else t2 !! parts r = None.
Proof using.
  intros Hg Ht Hr Hcur Hb Htg (_ & _ & Hrt). pose proof (config_valid Hg) as Hvalid.
  assert (parts r ≠ []) as Hne by by apply managed_ne, runtime_managed.
  destruct (Hrt r Hr) as [[E1 E2]|(c & m1 & m2 & base & target_ & E1 & Eb & Et & -> & _)]; cbn [project_at tree] in E1; case_decide as Hf.
  - rewrite (generated_file _ _ _ _ Ht Hne (managed_file_written content render format marshal sha cfg data Hvalid r Hr Hf)) in E1. done.
  - done.
  - exists m2. rewrite (Hcur c m1 E1). rewrite Hb in Eb. rewrite Htg in Et. injection Eb as <-. injection Et as <-.
    unfold upgraded. rewrite String.eqb_refl. by destruct (String.eqb_spec (content (template_of r)) (content' (template_of r))) as [->|].
  - destruct Hf. rewrite Ht in E1 by done. unfold expected in E1.
    destruct (last_write W (parts r)) as [c'|] eqn:El; [by apply managed_written in El as [Hf _]|by destruct (is_parent _ _)].
Qed.
End Life.

(** * Properties *)

(** C32 : A project as [fgoths init] makes it, by a release that upgrades support, is upgraded by
    [fgoths upgrade --apply] without a conflict and without a merge (whatever merging would do): the version is
    found in the metadata that init wrote, every runtime file that init wrote gets the content it has in the new
    release, no other runtime file appears, every other file of the project is as it was, the metadata records
    the new version, and running the command again changes nothing. *)
Theorem init_then_upgrade content render format marshal visit content' visit' embedded json_unmarshal json_marshal
    merge stamp updatedAt sha cwd config fs stag ns :
  let cfg := Normalize config in
  let upgrade := RunUpgrade embedded (ManagedRuntimeSources (templatesFS content') visit') json_unmarshal json_marshal
                   merge sha stamp updatedAt latestRuntimeUpgradeVersion "" in
  can_generate content render format marshal visit cwd config fs stag ns →
  knows_release content render format content' visit' embedded json_unmarshal json_marshal cwd config →
  reads_metadata marshal json_unmarshal → FrameworkVersion cfg ∈ supportedRuntimeUpgradeSources → mem_byte "/" stamp = false →
  ∃ fs1, Generate (templatesFS content) render format marshal sha visit cwd config fs = (fs1, Ok tt)
    ∧ ∀ tmp, 8 ≤ length tmp → ∃ fs2, upgrade "" true (project_at (root_of cwd config) fs1 tmp) = (fs2, Ok tt)
      ∧ (∀ r, r ∈ runtimeUpgradePaths →
          if decide (template_of r ∈ project_files content cfg)
          then ∃ m, tree fs2 !! parts r = Some (File (content' (template_of r)) m) else tree fs2 !! parts r = None)
      ∧ (∀ q n, q ∉ touched stamp → tree fs1 !! (root_of cwd config ++ q) = Some n → tree fs2 !! q = Some n)
      ∧ records_version json_marshal (tree fs2) latestRuntimeUpgradeVersion
      ∧ ∀ apply, upgrade "" apply fs2 = (fs2, Ok tt).
Proof.
  intros cfg upgrade Hg Hk Hread Hv Hstamp.
  destruct (generate_project _ _ _ _ _ sha _ _ _ _ _ Hg) as (fs1 & E & Hroot & Ht). exists fs1. split; [exact E|]. intros tmp Htmp.
  destruct (generated_project content render format marshal visit json_unmarshal stamp sha cwd config fs stag ns fs1 tmp 8) as (Hp & m & Em & Ev);
    try done; [by right|].
  destruct (supported_release (FrameworkVersion cfg)) as [_ Hne]; [by right|].
  destruct (read_baseline_values embedded (FrameworkVersion cfg) (λ r, content (template_of r)) runtimeUpgradePaths ∅) as (b & Eb & Hb);
    [by apply Hk|].
  destruct (read_sources_values content' (visit' managedRuntimeTemplates.*1) ∅ (knows_plain _ _ _ _ _ _ _ _ _ _ Hk)) as (tg & Etg & Htg);
    [intros k; by rewrite (knows_visit _ _ _ _ _ _ _ _ _ _ Hk)|].
  assert (∀ r, r ∈ runtimeUpgradePaths → tg !! r = Some (content' (template_of r))) as Htg'.
  { intros r Hr. apply Htg; [by apply template_managed|]. left. rewrite (knows_visit _ _ _ _ _ _ _ _ _ _ Hk).
    apply list_elem_of_fmap. exists (r, template_of r). split; [done|]. by apply template_managed. }
  destruct (generated_mergeable content render format marshal visit content' visit' embedded json_unmarshal json_marshal merge sha cwd config fs
    stag ns fs1 tmp b tg) as [Hcur Hall]; try done; [intros r Hr; apply Hb; by left|].
  pose proof (generated_healthy content render format marshal visit stamp sha cwd config fs stag ns fs1 tmp Hg Ht Hp) as Hh.
  destruct (RunUpgrade_quiet stamp Hstamp merge embedded (ManagedRuntimeSources (templatesFS content') visit') json_unmarshal json_marshal
    sha updatedAt latestRuntimeUpgradeVersion "" "" (project_at (root_of cwd config) fs1 tmp) m (FrameworkVersion cfg) b tg)
    as (fs2 & E2 & Hc2 & Hd2); try done.
  - by right.
  - by apply plan_from_recorded.
  - intros E'. fold cfg in E'. rewrite E' in Hv. by apply (bool_decide_pack _) in Hv.
  - unfold runtimeUpgradeBaseline. replace (existsb _ _) with true; [done|]. symmetry. apply existsb_exists. exists (FrameworkVersion cfg).
    split; [by apply list_elem_of_In|apply String.eqb_refl].
  - apply Hk.
  - exists fs2. split; [exact E2|]. pose proof Hd2 as (Hmade & Hrec & _). split_and!; [| |done|].
    + intros r Hr. eapply (generated_outcome content render format marshal visit content'); [exact Hg|exact Ht|done| | |by apply Htg'|exact Hd2].
      * intros c m'. by apply Hcur.
      * apply Hb. by left.
    + intros q n Hq Hn. destruct (Hmade q Hq) as [E'|[E' _]]; cbn [project_at tree] in E'; rewrite lookup_subtree in E'; congruence.
    + intros apply. destruct (done_current stamp Hstamp merge json_unmarshal json_marshal b tg (project_at (root_of cwd config) fs1 tmp) fs2)
        as (Hp2 & m2 & Em2 & Ev2); [done..|by apply Hk|].
      eapply RunUpgrade_current; [exact Hp2|by right|exact Em2|]. by apply plan_from_recorded.
Qed.

(** A project that the very release of the upgrade command has just made is left alone: the command, with or
    without --apply, finds the version up to date and changes nothing. *)
Theorem init_is_current content render format marshal visit content' visit' embedded json_unmarshal json_marshal
    merge stamp updatedAt sha cwd config fs stag ns :
  can_generate content render format marshal visit cwd config fs stag ns → reads_metadata marshal json_unmarshal →
  FrameworkVersion (Normalize config) = latestRuntimeUpgradeVersion → mem_byte "/" stamp = false →
  ∃ fs1, Generate (templatesFS content) render format marshal sha visit cwd config fs = (fs1, Ok tt)
    ∧ ∀ tmp apply, let fs2 := project_at (root_of cwd config) fs1 tmp in
        RunUpgrade embedded (ManagedRuntimeSources (templatesFS content') visit') json_unmarshal json_marshal
          merge sha stamp updatedAt latestRuntimeUpgradeVersion "" "" apply fs2 = (fs2, Ok tt).
Proof.
  intros Hg Hread Hv Hstamp. destruct (generate_project _ _ _ _ _ sha _ _ _ _ _ Hg) as (fs1 & E & Hroot & Ht). exists fs1. split; [exact E|].
  intros tmp apply. destruct (generated_project content render format marshal visit json_unmarshal stamp sha cwd config fs stag ns fs1 tmp 0)
    as (Hp & m & Em & Ev); try done; [rewrite Hv; by left|lia|].
  eapply RunUpgrade_current; [exact Hp|by right|exact Em|]. apply plan_from_recorded; [congruence|done].
Qed.

(** ** A project of release 1.4.0 *)

Definition life_config (version : string) : ProjectConfig :=
  mkConfig "shop" "" "ssr" "mvc" "sqlite" (Some ["htmx"; "jwt-auth"]) version.
Definition life_disk : project := mkProject {[ ["work"] := Dir ]} [] ["7"] 18.
Definition life_render (file name source : string) (d : TemplateData) : result string := Ok source.
Definition old_content (file : string) : string := "from " +:+ file.
Definition new_content (file : string) : string := "new " +:+ file.
Definition life_marshal (m : projectUpgradeMetadata) : result string := Ok (m_FrameworkVersion m).
Definition life_embedded : gmap string string :=
  list_to_map ((λ r, ("upgrade/baselines/v1.4.0/" +:+ r +:+ ".txt", old_content (template_of r))) <$> runtimeUpgradePaths).
Lemma plain_contents : ∀ kt, kt ∈ managedRuntimeTemplates →
  contains (old_content kt.2) "{{" = false ∧ contains (new_content kt.2) "{{" = false.
Proof.
  intros kt Hkt. assert (forallb (λ kt, negb (contains (old_content kt.2) "{{") && negb (contains (new_content kt.2) "{{"))
    managedRuntimeTemplates = true) as H by (vm_compute; reflexivity).
  rewrite forallb_forall in H. apply list_elem_of_In, H, andb_true_iff in Hkt as [H1 H2]. by rewrite <- negb_true_iff, <- negb_true_iff.
Qed.
Lemma life_can_generate version : version ∈ ["1.4.0"; "1.4.1"] →
  can_generate old_content life_render (λ _, Ok) life_marshal reverse ["work"] (life_config version) life_disk ["work"; ".fgoths-7"] [].
Proof.
  assert (tree_closed (tree life_disk) ∧ dirs (tree life_disk) ["work"]) as [Hc Hd].
  { split.
    - intros p c Hp [n Hn]. cbn in Hn. apply lookup_singleton_Some in Hn as [E _]. by destruct p as [|? []].
    - intros q [Hq [x Hx]]%elem_of_prefixes. destruct q as [|a [|]]; [done| |done]. injection Hx as <- _. apply lookup_singleton_eq. }
  assert (Forall name_component ["work"]) as Hw by (constructor; [by split_and!|constructor]).
  intros Hv. assert (parent_of ["work"] (life_config version) = ["work"] ∧ Name (Normalize (life_config version)) = "shop") as [Hp Hname]
    by (split; reflexivity).
  assert (root_of ["work"] (life_config version) = ["work"; "shop"]) as Hr by (unfold root_of; by rewrite Hp, Hname).
  split; rewrite ?Hp, ?Hr, ?Hname.
  - repeat (apply elem_of_cons in Hv as [->|Hv]; [vm_compute; reflexivity|]). by apply elem_of_nil in Hv.
  - by split_and!.
  - apply reverse_Permutation.
  - intros kt Hkt. by apply plain_contents.
  - done.
  - intros f Hf. apply list_elem_of_In in Hf. revert f Hf. apply forallb_forall.
    repeat (apply elem_of_cons in Hv as [->|Hv]; [vm_compute; reflexivity|]). by apply elem_of_nil in Hv.
  - reflexivity.
  - exact Hc.
  - exact Hw.
  - exact Hd.
  - exact Hd.
  - vm_compute. reflexivity.
  - vm_compute. reflexivity.
  - done.
Qed.
Lemma life_reads : reads_metadata life_marshal live_unmarshal.
Proof. intros m json [= <-]. eexists. split; [reflexivity|]. apply trim_suffix_app. Qed.

Lemma init_then_upgrade_witness : ∃ fs1 fs2,
  Generate (templatesFS old_content) life_render (λ _, Ok) life_marshal id reverse ["work"] (life_config "1.4.0") life_disk = (fs1, Ok tt)
  ∧ tree fs1 !! ["work"; "shop"; "pkg"; "runtime"; "auth.go"] = Some (File "from templates/features/jwt-auth/pkg/runtime/auth.go.tpl" 420)
  ∧ RunUpgrade life_embedded (ManagedRuntimeSources (templatesFS new_content) id) live_unmarshal demo_marshal (λ _ _ _, MergeError "no git")
      id "now" "now" "1.4.1" "" "" true (project_at ["work"; "shop"] fs1 ["1"; "2"; "3"; "4"; "5"; "6"; "7"; "8"]) = (fs2, Ok tt)
  ∧ (∃ m, tree fs2 !! ["pkg"; "runtime"; "auth.go"] = Some (File "new templates/features/jwt-auth/pkg/runtime/auth.go.tpl" m))
  ∧ tree fs2 !! [".gitignore"] = Some (File "from templates/base/gitignore.tpl" 420).
Proof.
  destruct (init_then_upgrade old_content life_render (λ _, Ok) life_marshal reverse new_content id life_embedded live_unmarshal demo_marshal
    (λ _ _ _, MergeError "no git") "now" "now" id ["work"] (life_config "1.4.0") life_disk ["work"; ".fgoths-7"] []) as (fs1 & E1 & H).
  - apply life_can_generate. by left.
  - split.
    + intros r Hr. unfold runtimeUpgradePaths in Hr.
      repeat (apply elem_of_cons in Hr as [->|Hr]; [vm_compute; reflexivity|]). by apply elem_of_nil in Hr.
    + intros r Hr _. unfold runtimeUpgradePaths in Hr.
      repeat (apply elem_of_cons in Hr as [->|Hr]; [vm_compute; reflexivity|]). by apply elem_of_nil in Hr.
    + done.
    + intros kt Hkt. by apply plain_contents.
    + done.
    + intros m d [= <-]. eexists. split; [reflexivity|]. apply trim_suffix_app.
  - apply life_reads.
  - apply (bool_decide_unpack _). vm_compute. exact I.
  - reflexivity.
  - destruct (H ["1"; "2"; "3"; "4"; "5"; "6"; "7"; "8"]) as (fs2 & E2 & Hr & Hkeep & _); [cbn; lia|]. exists fs1, fs2.
    assert (tree fs1 = tree (fs1, @Ok unit tt).1) as Ht by reflexivity. rewrite <- E1 in Ht. split; [exact E1|]. split_and!.
    + rewrite Ht. vm_compute. reflexivity.
    + exact E2.
    + specialize (Hr "pkg/runtime/auth.go"). rewrite decide_True in Hr; [by apply Hr; do 5 right; left|].
      apply (bool_decide_unpack _). vm_compute. exact I.
    + apply Hkeep; [apply (bool_decide_unpack (_ ∉ _)); vm_compute; exact I|]. rewrite Ht. vm_compute. reflexivity.
Defined.
Lemma init_is_current_witness : ∃ fs1,
  Generate (templatesFS old_content) life_render (λ _, Ok) life_marshal id reverse ["work"] (life_config "1.4.1") life_disk = (fs1, Ok tt)
  ∧ let fs2 := project_at ["work"; "shop"] fs1 [] in
    RunUpgrade life_embedded (ManagedRuntimeSources (templatesFS new_content) id) live_unmarshal demo_marshal (λ _ _ _, MergeError "no git")
      id "now" "now" "1.4.1" "" "" true fs2 = (fs2, Ok tt).
Proof.
  destruct (init_is_current old_content life_render (λ _, Ok) life_marshal reverse new_content id life_embedded live_unmarshal demo_marshal
    (λ _ _ _, MergeError "no git") "now" "now" id ["work"] (life_config "1.4.1") life_disk ["work"; ".fgoths-7"] []) as (fs1 & E1 & H).
  - apply life_can_generate. by right; left.
  - apply life_reads.
  - reflexivity.
  - reflexivity.
  - exists fs1. split; [exact E1|]. apply (H [] true).
Defined.
