(* ===== verification/Assets.v ===== *)
(** * Static assets

    Models src/examples/webapp-demo/cmd/assetmanifest/main.go, the program that
    fingerprints the files below static, src/examples/webapp-demo/internal/assets/assets.go,
    which answers for the fingerprints, and the cache headers that
    src/examples/webapp-demo/main.go decides by them.  Every generated project has the
    three.  SHA-256, gofmt and the escapes of [net/url] are parameters. *)

From S2P Require Import Prelude GoStrings Http Os ProjectFs UpgradeLive Generator.

(** ** cmd/assetmanifest *)

Section Manifest.
Context (sha256Hex : string → string) (format_Source : string → result string).

(** What the closure collects: the names in the order of the walk, and their versions. *)
Record scanned := mkScanned { entries : list string; versions : gmap string string }.
(** [filepath.ToSlash] of [filepath.Rel] of [staticRoot] and the path. *)
Definition rel_name (filePath : path) : string := match drop 1 filePath with [] => "." | l => join l "/" end.
Definition visit_file (filePath : path) (found : scanned) : M scanned :=
  let* content := readFile filePath in
  let name := rel_name filePath in
  ret (mkScanned (entries found ++ [name]) (<[name := sha256Hex content]> (versions found))).

(** [filepath.WalkDir] with this closure: nothing is done for a directory, any error ends the walk.  [fuel] bounds
    the depth. *)
Fixpoint walk_dir (fuel : nat) (filePath : path) (isDir : bool) (found : scanned) : M scanned :=
  if isDir then
    match fuel with
    | 0 => fail "path too long"
    | S fuel =>
        let* es := readDir filePath in
        (fix go (es : list (string * bool)) (found : scanned) : M scanned :=
           match es with
           | [] => ret found
           | (name, d) :: es => let* found := walk_dir fuel (filePath ++ [name]) d found in go es found
           end) es found
    end
  else visit_file filePath found.
Definition scan (staticRoot : path) : M scanned :=
  let* info := lstat staticRoot in
  match info with
  | None => fail "no such file or directory"
  | Some n => let* t := get_tree in walk_dir (depth t) staticRoot (is_dir n) (mkScanned [] ∅)
  end.

Definition manifest_line (vs : gmap string string) (name : string) : string :=
  String (ascii_of_N 9) "versions[" +:+ quote name +:+ "] = " +:+ quote (default "" (vs !! name)) +:+ newline.
Definition manifest_source (s : scanned) : string :=
  "package assets" +:+ newline +:+ newline +:+ "func init() {" +:+ newline
  +:+ foldr String.append "" (manifest_line (versions s) <$> entries s) +:+ "}" +:+ newline.

Definition static_root : path := ["static"].
Definition manifest_target : path := ["internal"; "assets"; "manifest_gen.go"].
(** [generateManifest], in the directory of the project. *)
Definition generateManifest : M unit :=
  let* found := wrap (λ e, "scan static assets: " +:+ e) (scan static_root) in
  do* wrap (λ e, "create manifest directory: " +:+ e) (mkdirAll (dirname manifest_target)) in
  let* formatted := wrap (λ e, "format manifest: " +:+ e) (of_result (format_Source (manifest_source found))) in
  let write := wrap (λ e, "write manifest: " +:+ e) (writeFile manifest_target formatted 420) in
  let* current := attempt (readFile manifest_target) in
  match current with
  | Ok current => if String.eqb current formatted then ret tt else write
  | Err e => if negb (IsNotExist e) then fail ("read existing manifest: " +:+ e) else write
  end.
End Manifest.

(** ** internal/assets *)

(** The map after the [init] function of a manifest with these assignments. *)
Definition loaded (s : scanned) : gmap string string :=
  foldl (λ m name, <[name := default "" (versions s !! name)]> m) ∅ (entries s).
(** [path.Clean] is [filepath.Clean] on Unix. *)
Definition assetPath (name : string) : string := trim_prefix (Clean ("/" +:+ name)) "/".
Definition asset_URL (EscapedPath QueryEscape : string → string) (vs : gmap string string) (name : string) : string :=
  let name := assetPath name in
  let version := default "" (vs !! name) in
  let assetURL := EscapedPath ("/static/" +:+ name) in
  if String.eqb version "" then assetURL else assetURL +:+ "?v=" +:+ QueryEscape version.
Definition IsVersioned (vs : gmap string string) (name version : string) : bool :=
  negb (String.eqb version "") && String.eqb (default "" (vs !! assetPath name)) version.

(** ** The handler of /static/* *)

(** [v] is the query parameter, [dev] whether FGOTHS_DEV is 1. *)
Definition static_handler (vs : gmap string string) (dev : bool) (v : string)
    (staticFiles : request → list writer_op) (r : request) : list writer_op :=
  (if dev then
     [OpSet "Cache-Control" "no-store, no-cache, must-revalidate"; OpSet "Pragma" "no-cache"; OpSet "Expires" "0"]
   else if IsVersioned vs (trim_prefix (url_path r) "/static/") v then
     [OpSet "Cache-Control" "public, max-age=31536000, immutable"]
   else [OpSet "Cache-Control" "no-cache"]) ++ staticFiles r.

(** * Lemmas *)

(** ** The walk *)

(** Below the static directory there are files and directories. *)
Definition plain_tree (t : gmap path node) : Prop :=
  tree_closed t ∧ (∀ p, is_Some (t !! p) → Forall name_component p)
  ∧ ∀ p, is_Some (t !! (static_root ++ p)) → t !! (static_root ++ p) = Some Dir ∨ ∃ c m, t !! (static_root ++ p) = Some (File c m).

(** The files below a path, in the order of the walk. *)
Fixpoint files_below (fuel : nat) (t : gmap path node) (p : path) : list (path * string) :=
  match t !! p with
  | Some Dir =>
      match fuel with
      | 0 => []
      | S fuel => children t p ≫= λ c, files_below fuel t (p ++ [c])
      end
  | Some (File c _) => [(p, c)]
  | _ => []
  end.
Definition static_files (t : gmap path node) : list (path * string) := files_below (depth t) t static_root.

Lemma tree_closed_prefix t p q : tree_closed t → p ≠ [] → p `prefix_of` q → p ≠ q → is_Some (t !! q) → t !! p = Some Dir.
Proof.
  intros Ht Hp [r ->] Hne Hs. destruct r as [|c r]; [by rewrite app_nil_r in Hne|]. apply (Ht p c); [done|].
  destruct (t !! (p ++ [c])) eqn:E; [by eexists|]. assert (t !! (p ++ c :: r) = None) as E'; [|rewrite E' in Hs; by destruct Hs].
  apply (closed_absent t (p ++ [c])); [done|apply snoc_ne|done|]. exists r. by rewrite <- (assoc_L (++)).
Qed.
Lemma find_node_closed t p : tree_closed t → is_Some (t !! p) → find_node t p = Ok (t !! p).
Proof.
  intros Ht Hs. apply find_node_dirs. intros q Hq. right. destruct p as [|c p _] using rev_ind; [by apply elem_of_nil in Hq|].
  rewrite dirname_snoc in Hq. apply elem_of_prefixes in Hq as [Hne [z ->]].
  apply (tree_closed_prefix t q ((q ++ z) ++ [c])); [done|done|by rewrite <- (assoc_L (++)); eexists| |done].
  intros E. apply (f_equal length) in E. rewrite !length_app in E. cbn in E. lia.
Qed.

Section Walk.
Context (sha : string → string) (t : gmap path node) (Ht : plain_tree t).
Local Abbreviation root := static_root.

Definition add_file (s : scanned) (pc : path * string) : scanned :=
  mkScanned (entries s ++ [rel_name pc.1]) (<[rel_name pc.1 := sha pc.2]> (versions s)).
Definition deep (fuel : nat) (p : path) : Prop := ∀ q, is_Some (t !! q) → p `prefix_of` q → length q < length p + fuel.

Lemma static_node p : root `prefix_of` p → is_Some (t !! p) → t !! p = Some Dir ∨ ∃ c m, t !! p = Some (File c m).
Proof using Ht. intros [r ->]. apply Ht. Qed.
Lemma deep_child fuel p c : deep (S fuel) p → deep fuel (p ++ [c]).
Proof using.
  intros Hd q Hq Hp. specialize (Hd q Hq). rewrite length_app. cbn. assert (p `prefix_of` q) as Hpq by (etransitivity; [|exact Hp]; by eexists).
  specialize (Hd Hpq). lia.
Qed.
Lemma walk_dir_quiet fs fuel : ∀ p n found, faults fs = [] → tree fs = t → root `prefix_of` p → t !! p = Some n → deep fuel p →
  walk_dir sha fuel p (is_dir n) found fs = (fs, Ok (foldl add_file found (files_below fuel t p))).
Proof using Ht.
  induction fuel as [|fuel IH]; intros p n found Hf Htree Hroot Hn Hd.
  { specialize (Hd p (mk_is_Some _ _ Hn) ltac:(done)). lia. }
  destruct (static_node p Hroot (mk_is_Some _ _ Hn)) as [E|(c & m & E)]; rewrite E in Hn; injection Hn as <-; cbn [is_dir walk_dir files_below]; rewrite E.
  - rewrite (bind_run _ _ fs fs (dir_entry t p <$> children t p)).
    2: { rewrite readDir_quiet; [by rewrite Htree|done|]. rewrite Htree, find_node_closed by (done || apply Ht). by rewrite E. }
    assert (∀ c, c ∈ children t p → is_Some (t !! (p ++ [c]))) as Hc by (intros c; by rewrite elem_of_children).
    revert found Hc. induction (children t p) as [|c cs IHc]; intros found Hc; [done|]. cbn [fmap list_fmap mbind list_bind].
    destruct (Hc c ltac:(left)) as [n Hn]. unfold dir_entry at 1. rewrite Hn.
    rewrite (bind_run _ _ _ _ _ (IH (p ++ [c]) n found Hf Htree ltac:(by apply prefix_app_r) Hn (deep_child _ _ _ Hd))).
    rewrite foldl_app. apply IHc. intros c' Hc'. apply Hc. by right.
  - unfold visit_file. rewrite (bind_run _ _ fs fs c); [done|]. apply readFile_quiet; [done|]. by rewrite Htree, E.
Qed.
Lemma elem_of_files_below fuel : ∀ p q c, root `prefix_of` p → deep fuel p →
  (q, c) ∈ files_below fuel t p ↔ p `prefix_of` q ∧ ∃ m, t !! q = Some (File c m).
Proof using Ht.
  induction fuel as [|fuel IH]; intros p q c Hroot Hd.
  { destruct (t !! p) as [n|] eqn:E; [specialize (Hd p (mk_is_Some _ _ E) ltac:(done)); lia|]. cbn. rewrite E. split; [by intros ?%elem_of_nil|].
    intros (Hpq & m & Hq). rewrite (closed_absent t p q) in Hq; [done|apply Ht|intros ->; by destruct Hroot as [z Hz]|done|done]. }
  cbn [files_below]. destruct (t !! p) as [n|] eqn:E.
  2: { split; [by intros ?%elem_of_nil|]. intros (Hpq & m & Hq).
       rewrite (closed_absent t p q) in Hq; [done|apply Ht|intros ->; by destruct Hroot as [z Hz]|done|done]. }
  destruct (static_node p Hroot (mk_is_Some _ _ E)) as [E'|(c' & m' & E')]; rewrite E in E'; injection E' as ->.
  - rewrite list_elem_of_bind. split.
    + intros (x & Hq & Hx). apply IH in Hq as (Hpq & Hm); [|by apply prefix_app_r|by apply deep_child].
      split; [|done]. etransitivity; [|exact Hpq]. by eexists.
    + intros ([[|x z] ->] & m & Hq); [rewrite app_nil_r, E in Hq; done|]. exists x. split.
      * apply IH; [by apply prefix_app_r|by apply deep_child|]. split; [exists z; by rewrite <- (assoc_L (++))|by eexists].
      * apply elem_of_children. destruct (t !! (p ++ [x])) eqn:Ex; [by eexists|].
        rewrite (closed_absent t (p ++ [x])) in Hq; [done|apply Ht|apply snoc_ne|done|exists z; by rewrite <- (assoc_L (++))].
  - rewrite list_elem_of_singleton. split.
    + intros [= -> ->]. split; [done|by eexists].
    + intros ([z ->] & m & Hq). destruct z as [|x z]; [rewrite app_nil_r in *; congruence|].
      rewrite (tree_closed_prefix t p (p ++ x :: z)) in E; [done|apply Ht|intros ->; by destruct Hroot as [z' Hz]|by eexists| |by eexists].
      intros E'. apply (f_equal length) in E'. rewrite length_app in E'. cbn in E'. lia.
Qed.
Lemma deep_root : deep (depth t) root.
Proof using.
  intros q [n Hq] _. unfold depth. enough (length q ≤ max_list (length <$> (map_to_list t).*1)) by lia.
  apply max_list_elem_of_le. rewrite <- list_fmap_compose. apply list_elem_of_fmap. exists (q, n). split; [done|]. by apply elem_of_map_to_list.
Qed.
End Walk.

(** The walk sees what is below the static directory, and nothing else. *)
Lemma children_same t t' p : (∀ c, is_Some (t !! (p ++ [c])) ↔ is_Some (t' !! (p ++ [c]))) → children t p = children t' p.
Proof.
  intros H. unfold children. apply sort_strings_eq.
  assert (∀ u, omap (child_name p) (map_to_list u).*1 ≡ₚ children u p) as Hp by (intros u; unfold children; by rewrite sort_strings_Permutation).
  rewrite !Hp. apply NoDup_Permutation; [apply children_NoDup..|]. intros c. by rewrite !elem_of_children.
Qed.
Lemma files_below_same t t' fuel : ∀ fuel' p, plain_tree t → deep t fuel p → deep t' fuel' p →
  (∀ q, p `prefix_of` q → t !! q = t' !! q) → files_below fuel t p = files_below fuel' t' p.
Proof.
  induction fuel as [|fuel IH]; intros fuel' p Hp Hd Hd' Hs; pose proof (Hs p ltac:(done)) as Hn.
  - destruct fuel'; cbn [files_below]; rewrite <- Hn; destruct (t !! p) as [[]|] eqn:E; try done.
    specialize (Hd p (mk_is_Some _ _ E) ltac:(done)). lia.
  - destruct fuel' as [|fuel']; cbn [files_below]; rewrite <- Hn; destruct (t !! p) as [[]|] eqn:E; try done.
    { specialize (Hd' p). rewrite <- Hn in Hd'. specialize (Hd' ltac:(by eexists) ltac:(done)). lia. }
    rewrite <- (children_same t t' p).
    2: { intros c. rewrite Hs; [done|by eexists]. }
    induction (children t p) as [|c cs IHc]; [done|]. cbn [mbind list_bind]. rewrite IHc. f_equal.
    apply IH; [done|by apply deep_child..|]. intros q Hq. apply Hs. etransitivity; [|exact Hq]. by eexists.
Qed.

(** ** Names *)

Lemma rel_name_join l : l ≠ [] → rel_name (static_root ++ l) = join l "/".
Proof. by destruct l. Qed.
Lemma join_names_inj l l' : Forall name_component l → Forall name_component l' → l ≠ [] → l' ≠ [] → join l "/" = join l' "/" → l = l'.
Proof.
  intros Hl Hl' Hn Hn' E. rewrite <- (clean_parts_join l Hl Hn), <- (clean_parts_join l' Hl' Hn'). by rewrite E.
Qed.
Lemma clean_rooted_names l : ∀ acc, Forall name_component acc → Forall (λ c, mem_byte "/" c = false) l →
  Forall name_component (foldl (clean_step true) acc l).
Proof.
  induction l as [|c l IH]; intros acc Ha Hl; [done|]. apply Forall_cons in Hl as [Hc Hl]. cbn [foldl]. apply IH; [|done].
  unfold clean_step. destruct (String.eqb_spec c ""); [done|]. destruct (String.eqb_spec c "."); [done|]. cbn [orb].
  destruct (String.eqb_spec c ".."); [|by constructor]. destruct acc as [|d acc]; [constructor|]. apply Forall_cons in Ha as [Hd Ha].
  destruct (String.eqb_spec d ".."); [by destruct Hd as (_ & _ & [] & _)|done].
Qed.
Lemma clean_parts_rooted name : Forall name_component (clean_parts ("/" +:+ name)).
Proof.
  unfold clean_parts. change (IsAbs ("/" +:+ name)) with true. apply Forall_rev, clean_rooted_names; [constructor|].
  apply Forall_forall. intros x. apply split_elem_no_sep.
Qed.
Lemma assetPath_clean name : assetPath name = join (clean_parts ("/" +:+ name)) "/".
Proof. unfold assetPath, Clean. change (IsAbs ("/" +:+ name)) with true. apply trim_prefix_app. Qed.

(** ** The versions *)

Lemma loaded_lookup s k : loaded s !! k = if decide (k ∈ entries s) then Some (default "" (versions s !! k)) else None.
Proof.
  unfold loaded. generalize (versions s) as vs. intros vs. induction (entries s) as [|e l IH] using rev_ind; [done|].
  rewrite foldl_app. cbn [foldl]. destruct (decide (k = e)) as [->|Hne].
  - rewrite lookup_insert_eq, decide_True; [done|]. apply elem_of_app. right. by left.
  - rewrite lookup_insert_ne by done. rewrite IH. apply decide_ext. rewrite elem_of_app, list_elem_of_singleton. naive_solver.
Qed.


Section Versions.
Context (sha : string → string).

Lemma versions_fold F s0 k v : (∀ x y, x ∈ F → y ∈ F → rel_name x.1 = rel_name y.1 → x.2 = y.2) →
  versions (foldl (add_file sha) s0 F) !! k = Some v ↔
    (∃ x, x ∈ F ∧ rel_name x.1 = k ∧ v = sha x.2) ∨ (versions s0 !! k = Some v ∧ ∀ x, x ∈ F → rel_name x.1 ≠ k).
Proof using.
  induction F as [|x F IH] using rev_ind; intros Hu; [cbn; split; [intros H; right; split; [done|]; by intros ? ?%elem_of_nil|]|].
  { intros [(? & ?%elem_of_nil & _)|[? _]]; done. }
  rewrite foldl_app. cbn [foldl add_file versions]. destruct (decide (k = rel_name x.1)) as [->|Hne].
  - rewrite lookup_insert_eq. split.
    + intros [= <-]. left. exists x. split_and!; [|done..]. apply elem_of_app. right. by left.
    + intros [(y & Hy & E & ->)|[_ H]]; [|by destruct (H x); [apply elem_of_app; right; left|]].
      f_equal. f_equal. apply Hu; [apply elem_of_app; right; left|done|done].
  - rewrite lookup_insert_ne by done. rewrite IH.
    2: { intros a b Ha Hb. apply Hu; apply elem_of_app; by left. }
    setoid_rewrite elem_of_app. setoid_rewrite list_elem_of_singleton. naive_solver.
Qed.
Lemma entries_fold F s0 : entries (foldl (add_file sha) s0 F) = entries s0 ++ ((λ x, rel_name x.1) <$> F).
Proof using. revert s0. induction F as [|x F IH]; intros s0; cbn; [by rewrite app_nil_r|]. rewrite IH. cbn. by rewrite <- (assoc_L (++)). Qed.
Context (t : gmap path node) (Ht : plain_tree t) (Hstatic : t !! static_root = Some Dir).
Definition scanned_tree : scanned := foldl (add_file sha) (mkScanned [] ∅) (static_files t).

Lemma elem_of_static q c : (q, c) ∈ static_files t ↔ ∃ l m, l ≠ [] ∧ Forall name_component l ∧ q = static_root ++ l ∧ t !! q = Some (File c m).
Proof using Ht Hstatic.
  unfold static_files. rewrite elem_of_files_below; [|done|done|apply deep_root]. split.
  - intros ([l ->] & m & Hq). exists l, m. split_and!; [|..|done|done].
    + intros ->. rewrite app_nil_r in Hq. congruence.
    + destruct Ht as (_ & Hn & _). specialize (Hn _ (mk_is_Some _ _ Hq)). by apply Forall_app in Hn as [_ Hn].
  - intros (l & m & _ & _ & -> & Hq). split; [by eexists|by exists m].
Qed.
Lemma static_unique x y : x ∈ static_files t → y ∈ static_files t → rel_name x.1 = rel_name y.1 → x.2 = y.2.
Proof using Ht Hstatic.
  destruct x as [q c], y as [q' c']. intros (l & m & Hl & Hn & -> & Hq)%elem_of_static (l' & m' & Hl' & Hn' & -> & Hq')%elem_of_static.
  cbn [fst snd]. rewrite !rel_name_join by done. intros E%join_names_inj; [|done..]. subst l'. congruence.
Qed.
(** The version of a name is that of the file there. *)
Lemma version_exact name v :
  loaded scanned_tree !! assetPath name = Some v
  ↔ ∃ c m, t !! (static_root ++ clean_parts ("/" +:+ name)) = Some (File c m) ∧ v = sha c.
Proof using Ht Hstatic.
  pose proof static_unique as Hu.
  assert (versions scanned_tree !! assetPath name = Some v ↔ ∃ c m, t !! (static_root ++ clean_parts ("/" +:+ name)) = Some (File c m) ∧ v = sha c) as Hv.
  { unfold scanned_tree. rewrite versions_fold by done. cbn [versions]. rewrite lookup_empty. split.
    - intros [([q c] & Hx & E & ->)|[? _]]; [|done]. apply elem_of_static in Hx as (l & m & Hl & Hn & -> & Hq). cbn [fst snd] in *.
      rewrite rel_name_join, assetPath_clean in E by done. exists c, m. split; [|done].
      destruct (decide (clean_parts ("/" +:+ name) = [])) as [E0|Hne].
      + rewrite E0 in E. exfalso. assert (clean_parts (join l "/") = l) as Hcl by by apply clean_parts_join.
        rewrite E in Hcl. cbn in Hcl. congruence.
      + apply join_names_inj in E; [by rewrite <- E|done|apply clean_parts_rooted|done|done].
    - intros (c & m & Hq & ->). left. exists (static_root ++ clean_parts ("/" +:+ name), c).
      assert (clean_parts ("/" +:+ name) ≠ []) as Hne by (intros E0; rewrite E0, app_nil_r in Hq; congruence).
      split_and!; [|cbn [fst]; by rewrite rel_name_join, assetPath_clean|done]. apply elem_of_static.
      exists (clean_parts ("/" +:+ name)), m. split_and!; [done|apply clean_parts_rooted|done|done]. }
  rewrite <- Hv, loaded_lookup. assert (assetPath name ∈ entries scanned_tree ↔ is_Some (versions scanned_tree !! assetPath name)) as He.
  { unfold scanned_tree. rewrite entries_fold. cbn [entries app]. rewrite list_elem_of_fmap. split.
    - intros (x & E & Hx). exists (sha x.2). apply versions_fold; [done|]. left. by exists x.
    - intros [v' [(x & Hx & E & _)|[Hx _]]%versions_fold]; [by exists x|cbn in Hx; by rewrite lookup_empty in Hx|done]. }
  case_decide as Hin.
  - apply He in Hin as [v' Hv']. by rewrite Hv'.
  - split; [done|]. intros E. destruct Hin. apply He. by eexists.
Qed.
End Versions.

(** ** The program *)

(** The manifest of [t] is in place in [t']. *)
Definition manifest_of (formatted : string) (t t' : gmap path node) : Prop :=
  (∃ m, t' !! manifest_target = Some (File formatted m))
  ∧ ∀ q, q ≠ manifest_target → t' !! q = if decide (q ∈ prefixes (dirname manifest_target)) then Some Dir else t !! q.
Definition can_write (t : gmap path node) : Prop :=
  (∀ q, q ∈ prefixes (dirname manifest_target) → free_or_dir t q)
  ∧ (t !! manifest_target = None ∨ ∃ c m, t !! manifest_target = Some (File c m)).

Lemma target_not_dir : manifest_target ∉ prefixes (dirname manifest_target).
Proof. intros (_ & [] & _)%prefix_of_dirname. done. Qed.
Lemma target_names q : q = manifest_target ∨ q ∈ prefixes (dirname manifest_target) → Forall name_component q ∧ ¬ static_root `prefix_of` q.
Proof.
  intros Hq. assert (q = ["internal"] ∨ q = ["internal"; "assets"] ∨ q = manifest_target) as Hin.
  { destruct Hq as [->|Hq]; [by do 2 right|].
    change (prefixes (dirname manifest_target)) with [["internal"]; ["internal"; "assets"]] in Hq.
    rewrite !elem_of_cons, elem_of_nil in Hq. naive_solver. }
  destruct Hin as [-> |[-> | ->]]; (split; [vm_compute; repeat constructor; done|by intros [z Hz]]).
Qed.
Lemma manifest_static formatted t t' q : manifest_of formatted t t' → static_root `prefix_of` q → t' !! q = t !! q.
Proof.
  intros [_ Hq] Hs. rewrite Hq, decide_False; [done|..].
  - intros Hin. by destruct (target_names q) as [_ []]; [by right|].
  - intros ->. by destruct (target_names manifest_target) as [_ []]; [by left|].
Qed.
Lemma manifest_plain formatted t t' : manifest_of formatted t t' → can_write t → plain_tree t → plain_tree t'.
Proof.
  intros Hm [Hway Hfile] (Hc & Hn & Hs). pose proof Hm as [(m & Htgt) Hq]. split_and!.
  - apply (placed_closed manifest_target (File formatted m) t); [|done|done|].
    + intros q. destruct (decide (q = manifest_target)) as [->|]; [done|by apply Hq].
    + intros c. destruct (t !! (manifest_target ++ [c])) eqn:E; [|done].
      assert (t !! manifest_target = Some Dir) by (apply (Hc _ c); [done|by eexists]). destruct Hfile as [?|(? & ? & ?)]; congruence.
  - intros p Hp. destruct (decide (p = manifest_target ∨ p ∈ prefixes (dirname manifest_target))) as [Hin|Hin]; [by apply target_names|].
    apply Hn. rewrite Hq, decide_False in Hp by tauto. done.
  - intros p. rewrite (manifest_static formatted t t') by (done || by eexists). apply Hs.
Qed.

Section Program.
Context (sha : string → string) (format_Source : string → result string).
Local Abbreviation generate := (generateManifest sha format_Source).

Lemma scan_quiet fs : faults fs = [] → plain_tree (tree fs) → tree fs !! static_root = Some Dir →
  scan sha static_root fs = (fs, Ok (scanned_tree sha (tree fs))).
Proof using.
  intros Hf Ht Hs. unfold scan. rewrite (bind_run _ _ fs fs (Some Dir)) by by rewrite lstat_quiet, Hs.
  cbn [is_dir]. rewrite (bind_run _ _ fs fs (tree fs)) by done.
  rewrite (walk_dir_quiet sha (tree fs) Ht fs (depth (tree fs)) static_root Dir); try done. apply deep_root.
Qed.
Lemma manifest_scanned formatted t t' : manifest_of formatted t t' → plain_tree t → scanned_tree sha t' = scanned_tree sha t.
Proof using.
  intros Hm Ht. unfold scanned_tree, static_files. f_equal. symmetry. apply files_below_same; [done|apply deep_root..|].
  intros q Hq. symmetry. by eapply manifest_static.
Qed.

(** One run: the scan, then the manifest is put in place unless it is there. *)
Lemma generate_quiet fs formatted : faults fs = [] → plain_tree (tree fs) → tree fs !! static_root = Some Dir → can_write (tree fs) →
  format_Source (manifest_source (scanned_tree sha (tree fs))) = Ok formatted →
  ∃ t', generate fs = (set_tree fs t', Ok tt) ∧ manifest_of formatted (tree fs) t'
    ∧ ((∃ m, tree fs !! manifest_target = Some (File formatted m)) → t' = tree fs).
Proof using.
  intros Hf Ht Hs [Hway Hfile] Hfmt. unfold generateManifest.
  rewrite (bind_run _ _ _ _ _ (wrap_run _ _ _ _ _ (scan_quiet fs Hf Ht Hs))).
  destruct (mkdirAll_quiet (dirname manifest_target) fs Hf Hway) as (t1 & E1 & H1). rewrite (bind_run _ _ _ _ _ (wrap_run _ _ _ _ _ E1)).
  rewrite (bind_run _ _ (set_tree fs t1) (set_tree fs t1) formatted) by (apply wrap_run; by rewrite <- Hfmt).
  assert (t1 !! manifest_target = tree fs !! manifest_target) as Htgt by by rewrite H1, decide_False by apply target_not_dir.
  assert (find_node t1 manifest_target = Ok (t1 !! manifest_target)) as Hfind.
  { apply find_node_dirs. intros q Hq. right. by rewrite H1, decide_True. }
  assert (∀ m, manifest_of formatted (tree fs) (<[manifest_target := File formatted m]> t1)) as Hput.
  { intros m. split; [exists m; apply lookup_insert_eq|]. intros q Hq. by rewrite lookup_insert_ne. }
  destruct Hfile as [E|(c & m & E)]; rewrite E in Htgt.
  - rewrite (bind_run _ _ (set_tree fs t1) (set_tree fs t1) (Err "no such file or directory")).
    2: { apply attempt_run. unfold readFile, bind. rewrite next_fault_quiet by done. cbn. by rewrite Htgt. }
    change (IsNotExist "no such file or directory") with true. cbn [negb]. rewrite Htgt in Hfind.
    rewrite (wrap_run _ _ _ _ _ (writeFile_quiet manifest_target formatted 420 (set_tree fs t1) Hf Hfind (parent_made _ _ _ H1))).
    eexists. split; [reflexivity|]. split; [apply Hput|]. intros (m & ?). congruence.
  - rewrite (bind_run _ _ (set_tree fs t1) (set_tree fs t1) (Ok c)).
    2: { apply attempt_run, readFile_quiet; [done|]. cbn. by rewrite Htgt. }
    destruct (String.eqb_spec c formatted) as [->|Hne].
    + exists t1. split; [done|]. split; [split; [by exists m|]; intros q _; apply H1|]. intros _.
      apply map_eq. intros q. rewrite H1. case_decide as Hq; [|done]. symmetry.
      apply prefix_of_dirname in Hq as (Hp & Hne & Hq0). apply (tree_closed_prefix _ q manifest_target); [apply Ht|done|done|done|by eexists].
    + rewrite Htgt in Hfind.
      rewrite (wrap_run _ _ _ _ _ (writeFile_over manifest_target formatted 420 (set_tree fs t1) c m Hf Hfind)).
      eexists. split; [reflexivity|]. split; [apply Hput|]. intros (m' & ?). congruence.
Qed.
End Program.

(** * Properties *)


(** ** A project with one stylesheet *)

Definition name_b (c : string) : bool :=
  negb (String.eqb c "" || String.eqb c "." || String.eqb c ".." || mem_byte "/" c).
Definition plain_b (t : gmap path node) : bool :=
  forallb (λ kv, forallb name_b kv.1
    && (bool_decide (dirname kv.1 = []) || match t !! dirname kv.1 with Some Dir => true | _ => false end)
    && (negb (bool_decide (static_root `prefix_of` kv.1)) || is_dir kv.2 || is_regular kv.2)) (map_to_list t).
Lemma plain_b_spec t : plain_b t = true → plain_tree t.
Proof.
  unfold plain_b. rewrite forallb_forall. intros H.
  assert (∀ p n, t !! p = Some n → Forall name_component p ∧ (dirname p = [] ∨ t !! dirname p = Some Dir)
    ∧ (static_root `prefix_of` p → n = Dir ∨ ∃ c m, n = File c m)) as Hp.
  { intros p n Hn. assert (In (p, n) (map_to_list t)) as Hin by by apply list_elem_of_In, elem_of_map_to_list.
    apply H in Hin. cbn [fst snd] in Hin. rewrite !andb_true_iff, !orb_true_iff, forallb_forall, negb_true_iff, bool_decide_eq_true, bool_decide_eq_false in Hin.
    destruct Hin as [[H1 H2] H3]. split_and!.
    - apply Forall_forall. intros c Hc%list_elem_of_In%H1. unfold name_b in Hc.
      rewrite negb_true_iff, !orb_false_iff, !String.eqb_neq in Hc. by destruct Hc as [[[? ?] ?] ?].
    - destruct H2 as [H2|H2]; [by left|right]. by destruct (t !! dirname p) as [[]|].
    - intros Hs. destruct n; naive_solver. }
  split_and!.
  - intros p c Hne [n Hn]. destruct (Hp _ _ Hn) as (_ & Hd & _). rewrite dirname_snoc in Hd. by destruct Hd.
  - intros p [n Hn]. by apply (Hp p n).
  - intros p [n Hn]. destruct (Hp _ _ Hn) as (_ & _ & Hs). rewrite Hn. destruct Hs as [->|(c & m & ->)]; [by eexists|by left|right; eauto].
Qed.
Definition css_project : project :=
  mkProject {[ [] := Dir; ["static"] := Dir; ["static"; "css"] := Dir; ["static"; "css"; "app.css"] := File "body{}" 420 ]} [] [] 18.
Definition demo_hash (c : string) : string := "#" +:+ c.
Definition css_manifest : string := manifest_source (scanned_tree demo_hash (tree css_project)).
