(* ===== verification/DemoApps.v ===== *)
(** * The example applications

    Models src/examples/webapp-demo/main.go, handlers/counter.go and
    middleware/logger.go (the counter page, its routes and its log) and
    src/examples/api-demo/internal/metrics/metrics.go (the metrics that an API
    project collects and prints).  They run on the server of Server.v; static
    files and pages are handlers given to the model, the JSON decoder, the
    database's answer to a ping and the layout of decimal fractions are
    parameters. *)

From S2P Require Import Prelude GoStrings Paths RoutePattern Http Metrics Router Server.

(** ** webapp-demo: the counter *)

Record app := mkApp {
  app_counter : Z;
  app_log : list (string * string * Z * duration);   (* the lines of the log *)
  app_body : result Z;   (* what [Decode], into a struct with an [int], makes of the body of the request being served *)
}.
Definition counter_value (w : world app) : Z := app_counter (w_user w).
Definition set_counter (n : Z) (w : world app) : world app := set_user (mkApp n (app_log (w_user w)) (app_body (w_user w))) w.

Definition method_not_allowed : list writer_op := http_error "Method not allowed" 405.
(** [json.NewEncoder(w).Encode(map[string]int{"counter": n})]. *)
Definition counter_json (n : Z) : string :=
  "{" +:+ dquote +:+ "counter" +:+ dquote +:+ ":" +:+ itoa n +:+ "}" +:+ String (ascii_of_N 10) "".
Definition json_counter (n : Z) : list writer_op := [OpSet "Content-Type" "application/json"; OpWrite (counter_json n)].
Definition html_counter (n : Z) : list writer_op := [OpSet "Content-Type" "text/html"; OpWrite (itoa n)].

Definition CounterGetHandler : Handler app := λ _ r w,
  if negb (String.eqb (method r) "GET") then (method_not_allowed, w)
  else (json_counter (counter_value w), w).
Definition CounterIncrementHandler : Handler app := λ _ r w,
  if negb (String.eqb (method r) "POST") then (method_not_allowed, w)
  else let current := i64_add (counter_value w) 1 in (html_counter current, set_counter current w).
Definition CounterDecrementHandler : Handler app := λ _ r w,
  if negb (String.eqb (method r) "POST") then (method_not_allowed, w)
  else let current := i64_sub (counter_value w) 1 in (html_counter current, set_counter current w).
Definition CounterDeleteHandler : Handler app := λ _ r w,
  if negb (String.eqb (method r) "DELETE") then (method_not_allowed, w)
  else (json_counter 0, set_counter 0 w).

Section WebApp.
Definition CounterPutHandler : Handler app := λ _ r w,
  if negb (String.eqb (method r) "PUT") then (method_not_allowed, w)
  else match app_body (w_user w) with
       | Err _ => (http_error "Invalid request body" 400, w)
       | Ok value => (json_counter value, set_counter value w)
       end.
(** The function that [newServer] gives to [Any]. *)
Definition counter_route : Handler app := λ pattern r w,
  if String.eqb (method r) "GET" then CounterGetHandler pattern r w
  else if String.eqb (method r) "PUT" then CounterPutHandler pattern r w
  else if String.eqb (method r) "DELETE" then CounterDeleteHandler pattern r w
  else (method_not_allowed, w).

(** middleware/logger.go.  The wrapper keeps the last status it is given; it hides the [Flush] of the writer. *)
Definition logged_status (ops : list writer_op) : Z :=
  foldl (λ code o, match o with OpWriteHeader c => c | _ => code end) 200%Z ops.
Definition no_flush (o : writer_op) : bool := match o with OpFlush => false | _ => true end.
Definition app_logger (next : Handler app) : Handler app := λ pattern r w,
  let '(start, w) := read_clock w in
  let '(ops, w) := next pattern r w in
  let '(now, w) := read_clock w in
  let u := w_user w in
  (List.filter no_flush ops,
   set_user (mkApp (app_counter u) (app_log u ++ [(method r, url_path r, logged_status ops, time_sub now start)]) (app_body u)) w).

(** internal/health/health.go; [PingContext] has two seconds. *)
Definition health_reply (code : Z) (status : string) : list writer_op :=
  [OpSet "Content-Type" "application/json"; OpWriteHeader code;
   OpWrite ("{" +:+ dquote +:+ "status" +:+ dquote +:+ ":" +:+ dquote +:+ status +:+ dquote +:+ "}" +:+ String (ascii_of_N 10) "")].
Definition Live : Handler app := λ _ _ w, (health_reply 200 "ok", w).
Definition Ready (checker : option (app → option error)) : Handler app := λ _ _ w,
  match checker ≫= λ ping, ping (w_user w) with
  | Some _ => (health_reply 503 "not ready", w)
  | None => (health_reply 200 "ok", w)
  end.

Context (ping : app → option error) {Ctx L : Type} (static IndexHandler AboutHandler : Handler app).
Local Abbreviation state := (option (Server app Ctx L) * gmap string (list routeSegment) * world app)%type.
(** [newServer]; no entity has been generated, so [RegisterCRUDRoutes] registers nothing. *)
Definition newServer (addr : string) (w : world app) : state :=
  let x : state := (Some (NewServer addr), ∅, w) in
  let x := server_Handle x "GET" "/static/*" (Some static) in
  let x := server_Get x "/" (Some IndexHandler) in
  let x := server_Get x "/about" (Some AboutHandler) in
  let x := server_Post x "/api/counter/increment" (Some CounterIncrementHandler) in
  let x := server_Post x "/api/counter/decrement" (Some CounterDecrementHandler) in
  let x := server_Any x "/api/counter" (Some counter_route) in
  let x := server_Get x "/health" (Some Live) in
  let x := server_Get x "/health/live" (Some Live) in
  let x := server_Get x "/health/ready" (Some (Ready (Some ping))) in
  server_Use x [app_logger].

(** ** What the counter is: a number, and what a request does to it *)

Inductive counter_op := Increment | Decrement | Put (n : Z) | Reset | Read | Refused | Malformed.
Definition counter_step (n : Z) (o : counter_op) : Z :=
  match o with
  | Increment => i64_add n 1
  | Decrement => i64_sub n 1
  | Put v => v
  | Reset => 0
  | Read | Refused | Malformed => n
  end.
Definition counter_reply (n : Z) (o : counter_op) : list writer_op :=
  match o with
  | Increment | Decrement => html_counter (counter_step n o)
  | Put _ | Reset | Read => json_counter (counter_step n o)
  | Refused => method_not_allowed
  | Malformed => http_error "Invalid request body" 400
  end.
Definition reply_status (o : counter_op) : Z := match o with Refused => 405 | Malformed => 400 | _ => 200 end.
(** The request that a client makes of the counter; the path is matched without its trailing slash, the
    method without its case, but the handlers compare the method as it was sent. *)
Definition counter_request (r : request) (body : result Z) : option counter_op :=
  let path := normalizePath (url_path r) in
  if String.eqb path "/api/counter/increment" then
    if String.eqb (to_upper (method r)) "POST" then Some (if String.eqb (method r) "POST" then Increment else Refused) else None
  else if String.eqb path "/api/counter/decrement" then
    if String.eqb (to_upper (method r)) "POST" then Some (if String.eqb (method r) "POST" then Decrement else Refused) else None
  else if String.eqb path "/api/counter" then
    if existsb (String.eqb (to_upper (method r))) all_methods then
      Some (if String.eqb (method r) "GET" then Read
            else if String.eqb (method r) "PUT" then match body with Ok v => Put v | Err _ => Malformed end
            else if String.eqb (method r) "DELETE" then Reset
            else Refused)
    else None
  else None.

(** A request with its body, and the order in which Go walks the routes of its method. *)
Record arrival := mkArrival { a_order : list (string * routeEntry (Handler app)); a_request : request; a_body : result Z }.
Definition set_body (b : result Z) (w : world app) : world app :=
  set_user (mkApp (app_counter (w_user w)) (app_log (w_user w)) b) w.
(** The requests in the order in which the handlers run. *)
Fixpoint serve_all (s : Server app Ctx L) (rs : list arrival) (w : world app) : list (list writer_op) * world app :=
  match rs with
  | [] => ([], w)
  | a :: rs =>
      let '(ops, w) := serve (a_order a) s (a_request a) (set_body (a_body a) w) in
      let '(replies, w) := serve_all s rs w in (ops :: replies, w)
  end.
Definition site (addr : string) (w : world app) : Server app Ctx L := default (NewServer addr) (newServer addr w).1.1.
Definition entry_of (s : Server app Ctx L) (m path : string) : option (routeEntry (Handler app)) :=
  router s ≫= λ rt, routes rt !! m ≫= (.!! path).

Lemma serve_exact order s rt r w e : router s = Some rt → entry_of s (to_upper (method r)) (normalizePath (url_path r)) = Some e →
  serve order s r w = chain (middleware rt) (handler e) (normalizePath (url_path r)) r w.
Proof using.
  intros Hr He. unfold entry_of in He. rewrite Hr in He. cbn [mbind option_bind] in He. apply bind_Some in He as (rs & Hrs & He).
  unfold serve, Router.ServeHTTP, matchRoute. rewrite Hr. cbn [on_recv]. by rewrite Hrs, He.
Qed.
#[local] Ltac by_table :=
  unfold site, newServer;
  generalize CounterIncrementHandler CounterDecrementHandler counter_route Live (Ready (Some ping)) app_logger; intros; by vm_compute.
Lemma site_middleware addr w : middleware <$> router (site addr w) = Some [app_logger].
Proof using. by_table. Qed.
Lemma increment_entry addr w : entry_of (site addr w) "POST" "/api/counter/increment" = Some (RouteEntry CounterIncrementHandler [] false 0).
Proof using. by_table. Qed.
Lemma decrement_entry addr w : entry_of (site addr w) "POST" "/api/counter/decrement" = Some (RouteEntry CounterDecrementHandler [] false 0).
Proof using. by_table. Qed.
Lemma counter_entry addr w m : m ∈ all_methods → entry_of (site addr w) m "/api/counter" = Some (RouteEntry counter_route [] false 0).
Proof using. intros Hm. repeat (apply elem_of_cons in Hm as [-> | Hm]; [by_table|]). by apply elem_of_nil in Hm. Qed.

Lemma settle_set n w (ops : list writer_op) : ∃ w', (ops, set_counter n w) = (ops, w') ∧ counter_value w' = n ∧ app_log (w_user w') = app_log (w_user w).
Proof using. eexists. split; [reflexivity|split; reflexivity]. Qed.
Lemma settle_same w (ops : list writer_op) : ∃ w', (ops, w) = (ops, w') ∧ counter_value w' = counter_value w ∧ app_log (w_user w') = app_log (w_user w).
Proof using. eexists. split; [reflexivity|split; reflexivity]. Qed.
#[local] Ltac settle :=
  match goal with H : Some _ = Some _ |- _ => injection H as <- end;
  cbn [counter_reply counter_step]; first [apply settle_same|apply settle_set].
(** One request of the counter, with its line of the log. *)
Definition logged (u : app) : list (string * string * Z) := (λ l : string * string * Z * duration, l.1) <$> app_log u.
Lemma serve_counter addr w0 order r body w o : counter_request r body = Some o →
  ∃ w', serve order (site addr w0) r (set_body body w) = (counter_reply (counter_value w) o, w')
    ∧ counter_value w' = counter_step (counter_value w) o
    ∧ logged (w_user w') = logged (w_user w) ++ [(method r, url_path r, reply_status o)].
Proof using.
  intros Ho. pose proof (site_middleware addr w0) as Hm. destruct (router (site addr w0)) as [rt|] eqn:Hr; [|discriminate Hm]. injection Hm as Hm.
  assert (∃ h, entry_of (site addr w0) (to_upper (method r)) (normalizePath (url_path r)) = Some (RouteEntry h [] false 0)
    ∧ ∀ p w, app_body (w_user w) = body → ∃ w', h p r w = (counter_reply (counter_value w) o, w') ∧ counter_value w' = counter_step (counter_value w) o
        ∧ app_log (w_user w') = app_log (w_user w)) as (h & He & Hh).
  { unfold counter_request in Ho. destruct (String.eqb_spec (normalizePath (url_path r)) "/api/counter/increment") as [->|_].
    { destruct (String.eqb_spec (to_upper (method r)) "POST") as [->|_]; [|discriminate Ho]. exists CounterIncrementHandler. split; [apply increment_entry|].
      intros p v Hv. unfold CounterIncrementHandler. destruct (String.eqb (method r) "POST"); settle. }
    destruct (String.eqb_spec (normalizePath (url_path r)) "/api/counter/decrement") as [->|_].
    { destruct (String.eqb_spec (to_upper (method r)) "POST") as [->|_]; [|discriminate Ho]. exists CounterDecrementHandler. split; [apply decrement_entry|].
      intros p v Hv. unfold CounterDecrementHandler. destruct (String.eqb (method r) "POST"); settle. }
    destruct (String.eqb_spec (normalizePath (url_path r)) "/api/counter") as [->|_]; [|discriminate Ho].
    destruct (existsb _ all_methods) eqn:Ex; [|discriminate Ho]. apply existsb_exists in Ex as (m & Hin & ->%String.eqb_eq).
    exists counter_route. split; [by apply counter_entry, list_elem_of_In|]. intros p v Hv.
    unfold counter_route, CounterGetHandler, CounterPutHandler, CounterDeleteHandler.
    destruct (String.eqb (method r) "GET"); [settle|].
    destruct (String.eqb (method r) "PUT"); [rewrite Hv; destruct body; settle|].
    destruct (String.eqb (method r) "DELETE"); settle. }
  rewrite (serve_exact order _ rt r _ _ Hr He), Hm. cbn [chain fold_right handler]. unfold app_logger.
  destruct (read_clock (set_body body w)) as [start w1] eqn:E1.
  assert (w_user w1 = mkApp (app_counter (w_user w)) (app_log (w_user w)) body) as Hu1.
  { unfold read_clock in E1. destruct (w_clock (set_body body w)); by injection E1 as _ <-. }
  destruct (Hh (normalizePath (url_path r)) w1) as (w2 & E2 & Hc & Hl); [by rewrite Hu1|]. rewrite E2.
  destruct (read_clock w2) as [now w3] eqn:E3. assert (w_user w3 = w_user w2) as Hu3 by (unfold read_clock in E3; destruct (w_clock w2); by injection E3 as _ <-).
  unfold counter_value, logged in *. eexists. split_and!.
  - rewrite Hu1. f_equal. by destruct o.
  - cbn [w_user set_user app_counter]. by rewrite Hu3, Hc, Hu1.
  - cbn [w_user set_user app_log]. rewrite Hu3, Hl, Hu1, fmap_app. cbn [app_counter app_log]. f_equal. cbn. by destruct o.
Qed.

Fixpoint counter_replies (n : Z) (os : list counter_op) : list (list writer_op) :=
  match os with [] => [] | o :: os => counter_reply n o :: counter_replies (counter_step n o) os end.
(** The counter of webapp-demo behaves as one number behind a lock.  Whatever requests reach its paths, in
    whatever order their handlers run and the routes are walked, each is answered as the number at that point says
    (the new value, 405 for a method the path does not take, 400 for a body that is no number), the number that
    remains is the one their effects give in that order, and the log has one line per request, in that order, with its
    method, path and the status that was sent. *)
Theorem counter_refines addr w0 rs os w : Forall2 (λ a o, counter_request (a_request a) (a_body a) = Some o) rs os →
  ∃ w', serve_all (site addr w0) rs w = (counter_replies (counter_value w) os, w')
    ∧ counter_value w' = foldl counter_step (counter_value w) os
    ∧ logged (w_user w') = logged (w_user w) ++ zip_with (λ a o, (method (a_request a), url_path (a_request a), reply_status o)) rs os
    ∧ status <$> (respond <$> counter_replies (counter_value w) os) = reply_status <$> os.
Proof using.
  intros H. revert w. induction H as [|a o rs os Ho _ IH]; intros w.
  { exists w. split_and!; [done..|cbn; by rewrite app_nil_r|done]. }
  destruct (serve_counter addr w0 (a_order a) (a_request a) (a_body a) w o Ho) as (w1 & E1 & Hc & Hl).
  destruct (IH w1) as (w' & E & Hc' & Hl' & Hs). cbn [serve_all counter_replies foldl zip_with fmap list_fmap snd].
  rewrite E1, E. exists w'. rewrite Hc in *. split_and!; [done|done| |].
  - by rewrite Hl', Hl, <- (assoc_L (++)).
  - f_equal; [by destruct o|exact Hs].
Qed.
End WebApp.

(** ** Pages, the document of the API, and the database *)

(** handlers/index.go: [render] is the generated view. *)
Definition page_handler (render : request → list writer_op * option error) (message : string) : Handler app := λ _ r w,
  let '(ops, err) := render r in
  (match err with Some _ => ops ++ http_error message 500 | None => ops end, w).
Definition IndexHandler (render : request → list writer_op * option error) : Handler app := page_handler render "failed to render home page".
Definition AboutHandler (render : request → list writer_op * option error) : Handler app := page_handler render "failed to render about page".

(** internal/openapi of api-demo: a document whose objects are maps, and the page that links to it. *)
Inductive json := JText (s : string) | JObject (members : list (string * json)).
Definition documented (summary description : string) : json :=
  JObject [("get", JObject [("summary", JText summary);
    ("responses", JObject [("200", JObject [("description", JText description)])])])].
Definition openapi_document : json :=
  JObject [("openapi", JText "3.0.0");
    ("info", JObject [("title", JText "api-demo"); ("version", JText "1.0.0"); ("description", JText "Generated by FGOTHS Framework")]);
    ("paths", JObject [("/health", documented "Health check" "Service is up"); ("/metrics", documented "Prometheus metrics" "Metrics endpoint")])].
Definition member_of (j : json) (key : string) : option json :=
  match j with JObject ms => snd <$> List.find (λ m, String.eqb m.1 key) ms | JText _ => None end.
Definition keys_of (j : json) : list string := match j with JObject ms => ms.*1 | JText _ => [] end.
Definition Spec {U} (encode : json → string) : Handler U := λ _ _ w,
  ([OpSet "Content-Type" "application/json"; OpWrite (encode openapi_document)], w).
Definition Docs {U} (html : string) : Handler U := λ _ _ w, ([OpSet "Content-Type" "text/html; charset=utf-8"; OpWrite html], w).

(** internal/database: the pool, and the pool that was closed again. *)
Definition defaultDSN : string := "file:app.db?_pragma=journal_mode(WAL)&_pragma=busy_timeout(5000)&_pragma=foreign_keys(1)".
Definition Open {DB} (getenv : string → string) (sql_Open : string → result DB) (limit : DB → DB)
    (ping apply : DB → DB * option error) (close : DB → DB) : result DB * option DB :=
  let dsn := if String.eqb (getenv "DATABASE_URL") "" then defaultDSN else getenv "DATABASE_URL" in
  match sql_Open dsn with
  | Err e => (Err ("open SQLite: " +:+ e), None)
  | Ok db =>
      match ping (limit db) with
      | (db, Some e) => (Err ("ping SQLite: " +:+ e), Some (close db))
      | (db, None) =>
          match apply db with
          | (db, Some e) => (Err ("apply migrations: " +:+ e), Some (close db))
          | (db, None) => (Ok db, None)
          end
      end
  end.
Lemma Open_exact {DB} getenv (sql_Open : string → result DB) limit ping apply close :
  let r := Open getenv sql_Open limit ping apply close in
  (∀ db, r.1 = Ok db → r.2 = None ∧ ∃ db0 db1, (ping (limit db0) = (db1, None)) ∧ apply db1 = (db, None))
  ∧ ∀ e, r.1 = Err e → (∃ e', e = "open SQLite: " +:+ e') ∨ ∃ db, r.2 = Some (close db).
Proof.
  unfold Open. destruct (sql_Open _) as [db0|e0]; [|split; [done|]; intros e [= <-]; left; by eexists].
  destruct (ping (limit db0)) as [db1 [e1|]] eqn:Ep; [split; [done|]; intros e [= <-]; right; by eexists|].
  destruct (apply db1) as [db2 [e2|]] eqn:Ea; [split; [done|]; intros e [= <-]; right; by eexists|].
  split; [|done]. intros db [= <-]. split; [done|]. by exists db0, db1.
Qed.

(** ** A session: an overflow, a body that is no number, a method in lower case *)

Definition idle_app : world app := World None ∅ [] [] [] (mkApp 9223372036854775807 [] (Err "EOF")).
Definition nothing : Handler app := λ _ _ w, ([], w).
Definition demo_site : Server app unit unit := site (λ _, None) nothing nothing nothing ":8080" idle_app.
Definition call (m p : string) (b : result Z) : arrival := mkArrival [] (Request m "" "" p "" ∅ "" ∅ None) b.
Definition demo_calls := [call "POST" "/api/counter/increment/" (Err "EOF"); call "PUT" "/api/counter" (Ok 41%Z);
  call "PUT" "/api/counter" (Err "EOF"); call "POST" "/api/counter/increment" (Err "EOF");
  call "post" "/api/counter/increment" (Err "EOF"); call "GET" "/api/counter" (Err "EOF")].
Lemma counter_refines_witness : ∃ w',
  serve_all demo_site demo_calls idle_app
  = ([html_counter (-9223372036854775808); json_counter 41; http_error "Invalid request body" 400; html_counter 42;
      method_not_allowed; json_counter 42], w')
  ∧ counter_value w' = 42%Z ∧ (λ l, l.2) <$> logged (w_user w') = [200; 200; 400; 200; 405; 200]%Z.
Proof.
  destruct (counter_refines (λ _, None) (Ctx:=unit) (L:=unit) nothing nothing nothing ":8080" idle_app demo_calls
    [Increment; Put 41; Malformed; Increment; Refused; Read] idle_app) as (w' & E & Hc & Hl & _).
  { repeat constructor. }
  exists w'. split; [|split].
  - etransitivity; [exact E|]. f_equal.
  - rewrite Hc. reflexivity.
  - rewrite Hl. reflexivity.
Defined.

(** ** api-demo: the metrics *)

Lemma bump_is_Some {K} `{Countable K} (k j : K) v (m : gmap K Z) : is_Some (bump k v m !! j) ↔ j = k ∨ is_Some (m !! j).
Proof. unfold bump. rewrite lookup_insert_is_Some. destruct (decide (k = j)); naive_solver. Qed.
(** The keys of the maps are those of the calls. *)
Lemma run_keys cs : ∃ m, run_metrics cs = Some m ∧ accounted cs m
  ∧ (∀ k, is_Some (byStatus m !! k) ↔ k ∈ c_status <$> cs) ∧ ∀ k, is_Some (byRoute m !! k) ↔ k ∈ call_route <$> cs.
Proof.
  induction cs as [|c cs (m & E & Ha & Hs & Hr)] using rev_ind.
  { destruct (run_accounted []) as (m & E & Ha). exists m. injection E as <-. split_and!; [done..| |]; intros k; cbn;
      rewrite lookup_empty, elem_of_nil; split; (by intros []) || done. }
  destruct (run_accounted (cs ++ [c])) as (m' & E' & Ha'). exists m'. split_and!; [done..| |]; intros k;
    rewrite fmap_app, elem_of_app; cbn [fmap list_fmap]; rewrite list_elem_of_singleton, (or_comm (_ ∈ _)); rewrite run_metrics_snoc, E in E';
    destruct (Record_unfold m (c_method c) (c_route c) (c_status c) (c_elapsed c)) as (w & hd & ct & er & _ & Eq);
    unfold record_call in E'; rewrite Eq in E'; injection E' as <-; cbn [byStatus byRoute]; rewrite bump_is_Some.
  - by rewrite Hs.
  - by rewrite Hr.
Qed.
Section Api.
(** The collector of the server, [%.3f] of a number of milliseconds and [%.6f] of the seconds of a duration. *)
Context {U : Type} (milliseconds3 : Z → string) (seconds6 : duration → string).

(** [statusRecorder]: it starts with 200 and only a status that is 0 is replaced. *)
Definition demo_recorder_step (statusCode : Z) (o : writer_op) : Z :=
  match o with
  | OpWriteHeader code => if (statusCode =? 0)%Z then code else statusCode
  | OpWrite _ => if (statusCode =? 0)%Z then 200%Z else statusCode
  | _ => statusCode
  end.
Definition Middleware (next : Handler U) : Handler U := λ pattern r w,
  let '(start, w) := read_clock w in
  let '(ops, w) := next pattern r w in
  let '(now, w) := read_clock w in
  (List.filter no_flush ops,
   set_metrics (Record_ (w_metrics w) (method r) (url_path r) (foldl demo_recorder_step 200%Z ops) (Some (time_sub now start))) w).

Definition sortedStringKeys {A} (m : gmap string A) : list string := sort_strings (map_to_list m).*1.
Definition sortedIntKeys {A} (m : gmap Z A) : list Z := merge_sort Z.le (map_to_list m).*1.
Definition line (s : string) : writer_op := OpWrite (s +:+ nl).
Definition heading (name help kind : string) : list writer_op :=
  [line ("# HELP " +:+ name +:+ " " +:+ help); line ("# TYPE " +:+ name +:+ " " +:+ kind)].
(** A family with one sample per key, left out when the map is empty. *)
Definition family (name help kind : string) (samples : list writer_op) (empty : bool) : list writer_op :=
  if empty then [] else heading name help kind ++ samples.
Definition method_sample (m : gmap string Z) (k : string) : writer_op :=
  line ("http_requests_by_method_total{method=" +:+ quote k +:+ "} " +:+ itoa (default 0%Z (m !! k))).
Definition route_sample (m : gmap string Z) (k : string) : writer_op :=
  line ("http_requests_by_route_total{route=" +:+ quote k +:+ "} " +:+ itoa (default 0%Z (m !! k))).
Definition status_sample (m : gmap Z Z) (k : Z) : writer_op :=
  line ("http_requests_by_status_total{status=" +:+ itoa k +:+ "} " +:+ itoa (default 0%Z (m !! k))).
Definition quantile (labels : string) (q : string) (d : duration) : writer_op :=
  line ("http_request_duration_seconds_" +:+ labels +:+ "quantile=" +:+ dquote +:+ q +:+ dquote +:+ "} " +:+ seconds6 d).
Definition quantiles (labels : string) (p : DurationPercentiles) : list writer_op :=
  [quantile labels "0.5" (P50 p); quantile labels "0.95" (P95 p); quantile labels "0.99" (P99 p)].

Definition exposition (snap : MetricsSnapshot) (gp : DurationPercentiles) : list writer_op :=
  heading "http_requests_total" "Total HTTP requests received" "counter"
  ++ [line ("http_requests_total " +:+ itoa (TotalRequests snap))]
  ++ heading "http_requests_errors_total" "Total HTTP requests that returned 4xx or 5xx" "counter"
  ++ [line ("http_requests_errors_total " +:+ itoa (TotalErrors snap))]
  ++ heading "http_request_duration_milliseconds_total" "Total HTTP request duration in milliseconds" "counter"
  ++ [line ("http_request_duration_milliseconds_total " +:+ milliseconds3 (Z.quot (TotalLatency snap) 1000000))]
  ++ heading "http_request_duration_seconds_global" "HTTP request duration global percentiles" "gauge"
  ++ quantiles "global{" gp
  ++ family "http_requests_by_method_total" "HTTP requests by HTTP method" "counter"
       (method_sample (ByMethod snap) <$> sortedStringKeys (ByMethod snap)) (bool_decide (ByMethod snap = ∅))
  ++ family "http_requests_by_route_total" "HTTP requests by route pattern" "counter"
       (route_sample (ByRoute snap) <$> sortedStringKeys (ByRoute snap)) (bool_decide (ByRoute snap = ∅))
  ++ family "http_requests_by_status_total" "HTTP requests by status code" "counter"
       (status_sample (ByStatus snap) <$> sortedIntKeys (ByStatus snap)) (bool_decide (ByStatus snap = ∅))
  ++ family "http_request_duration_seconds_route" "HTTP request duration percentiles by route" "gauge"
       (sortedStringKeys (ByRoutePercentiles snap) ≫= λ route,
          quantiles ("route{route=" +:+ quote route +:+ ",") (default no_percentiles (ByRoutePercentiles snap !! route)))
       (bool_decide (ByRoutePercentiles snap = ∅)).
(** [Handler(srv)]. *)
Definition metrics_Handler : Handler U := λ _ _ w,
  let content_type := OpSet "Content-Type" "text/plain; version=0.0.4; charset=utf-8" in
  match w_metrics w with
  | None => ([content_type], w)
  | Some m => let '(snap, m') := Snapshot (Some m) in (content_type :: exposition snap (GlobalPercentiles m'), set_metrics m' w)
  end.
(** [Status] of handlers.go, and [Docs] and [Spec] are handlers of this shape: they leave the collector alone. *)
Definition Status (service : string) : Handler U := λ _ _ w,
  ([OpSet "Content-Type" "application/json"; OpWriteHeader 200;
    OpWrite ("{" +:+ quote "service" +:+ ":" +:+ quote service +:+ "," +:+ quote "status" +:+ ":" +:+ quote "up" +:+ "}" +:+ nl)], w).

(** main.go of api-demo. *)
Definition api_server {Ctx L} (encode : json → string) (html : string) (live : Handler U) (addr : string) (w : world U)
    : option (Server U Ctx L) * gmap string (list routeSegment) * world U :=
  let x := (Some (NewServer addr), ∅, set_metrics (Some NewMetrics) w) in
  let x := server_Get x "/status" (Some (Status "api-demo")) in
  let x := server_Get x "/health" (Some live) in
  let x := server_Get x "/health/live" (Some live) in
  let x := server_Get x "/docs" (Some (Docs html)) in
  let x := server_Get x "/openapi.yaml" (Some (Spec encode)) in
  let x := server_Handle x "GET" "/metrics" (Some metrics_Handler) in
  server_Use x [Middleware].

(** ** What it counts *)

(** The requests that the middleware sees, each with the handler of its route. *)
Fixpoint serve_api (calls : list (Handler U * string * request)) (w : world U) : list (list writer_op) * world U :=
  match calls with
  | [] => ([], w)
  | (h, pattern, r) :: calls =>
      let '(ops, w) := Middleware h pattern r w in
      let '(replies, w) := serve_api calls w in (ops :: replies, w)
  end.
Definition keeps_metrics (h : Handler U) : Prop := ∀ pattern r w, w_metrics (h pattern r w).2 = w_metrics w.

Lemma recorder_stuck ops : foldl demo_recorder_step 200%Z ops = 200%Z.
Proof using. induction ops as [|[] ops IH]; done. Qed.
Lemma read_clock_metrics (w : world U) : w_metrics (read_clock w).2 = w_metrics w.
Proof using. unfold read_clock. by destruct (w_clock w). Qed.
Lemma Middleware_records h pattern r w : keeps_metrics h → ∃ d,
  w_metrics (Middleware h pattern r w).2 = Record_ (w_metrics w) (method r) (url_path r) 200 (Some d).
Proof using.
  intros Hh. unfold Middleware. pose proof (read_clock_metrics w) as H1. destruct (read_clock w) as [start w1]. cbn [snd] in H1.
  pose proof (Hh pattern r w1) as H2. destruct (h pattern r w1) as [ops w2]. cbn [snd] in H2.
  pose proof (read_clock_metrics w2) as H3. destruct (read_clock w2) as [now w3]. cbn [snd] in H3.
  exists (time_sub now start). cbn. by rewrite recorder_stuck, H3, H2, H1.
Qed.
Lemma serve_api_records calls : ∀ w cs, w_metrics w = run_metrics cs → Forall (λ c, keeps_metrics c.1.1) calls →
  ∃ cs', w_metrics (serve_api calls w).2 = run_metrics (cs ++ cs')
    ∧ Forall2 (λ c mc, c_method mc = method c.2 ∧ c_route mc = url_path c.2 ∧ c_status mc = 200%Z) calls cs'.
Proof using.
  induction calls as [|[[h pattern] r] calls IH]; intros w cs Hw Hc; [exists []; by rewrite app_nil_r|].
  apply Forall_cons in Hc as [Hh Hc]. cbn [serve_api]. destruct (Middleware_records h pattern r w Hh) as [d Hd].
  destruct (Middleware h pattern r w) as [ops w1]. cbn [snd] in Hd.
  destruct (IH w1 (cs ++ [MetricCall (method r) (url_path r) 200 (Some d)])) as (cs' & E & H); [|done|].
  { rewrite run_metrics_snoc, Hd, Hw. done. }
  destruct (serve_api calls w1) as [replies w2]. exists (MetricCall (method r) (url_path r) 200 (Some d) :: cs').
  rewrite <- (assoc_L (++)) in E. split; [exact E|]. by constructor.
Qed.
Lemma no_errors cs : Forall (λ c, c_status c = 200%Z) cs → total status_failed (λ _, 1%Z) true cs = 0%Z.
Proof using. induction 1 as [|c cs Hc _ IH]; [done|]. cbn [total]. rewrite IH, decide_False; [done|]. unfold status_failed. by rewrite Hc. Qed.

Lemma elem_of_sortedStringKeys {A} (m : gmap string A) k : k ∈ sortedStringKeys m ↔ is_Some (m !! k).
Proof using.
  unfold sortedStringKeys. rewrite sort_strings_Permutation, list_elem_of_fmap. split.
  - intros ([k' v] & -> & H%elem_of_map_to_list). by exists v.
  - intros [v H]. exists (k, v). split; [done|]. by apply elem_of_map_to_list.
Qed.
Lemma elem_of_sortedIntKeys {A} (m : gmap Z A) k : k ∈ sortedIntKeys m ↔ is_Some (m !! k).
Proof using.
  unfold sortedIntKeys. rewrite merge_sort_Permutation, list_elem_of_fmap. split.
  - intros ([k' v] & -> & H%elem_of_map_to_list). by exists v.
  - intros [v H]. exists (k, v). split; [done|]. by apply elem_of_map_to_list.
Qed.

Lemma in_family name help kind samples b s : b = false → s ∈ samples → s ∈ family name help kind samples b.
Proof using. intros -> Hs. unfold family. apply elem_of_app. by right. Qed.
Lemma in_exposition snap gp s :
  s = line ("http_requests_total " +:+ itoa (TotalRequests snap)) ∨ s = line ("http_requests_errors_total " +:+ itoa (TotalErrors snap))
  ∨ (∃ k, k ∈ sortedIntKeys (ByStatus snap) ∧ s = status_sample (ByStatus snap) k)
  ∨ (∃ k, k ∈ sortedStringKeys (ByRoute snap) ∧ s = route_sample (ByRoute snap) k) → s ∈ exposition snap gp.
Proof using.
  unfold exposition. intros [->|[->|[(k & Hk & ->)|(k & Hk & ->)]]].
  - apply elem_of_app; right; apply elem_of_app; left. by left.
  - do 3 (apply elem_of_app; right). apply elem_of_app; left. by left.
  - do 10 (apply elem_of_app; right). apply elem_of_app; left. apply in_family; [|by apply list_elem_of_fmap_2].
    apply bool_decide_eq_false. intros E. apply elem_of_sortedIntKeys in Hk. rewrite E, lookup_empty in Hk. by destruct Hk.
  - do 9 (apply elem_of_app; right). apply elem_of_app; left. apply in_family; [|by apply list_elem_of_fmap_2].
    apply bool_decide_eq_false. intros E. apply elem_of_sortedStringKeys in Hk. rewrite E, lookup_empty in Hk. by destruct Hk.
Qed.

(** The metrics of a generated API see no error.  Whatever its handlers answer, the recorder of the middleware
    keeps the 200 it starts with: after any requests the printed text counts them all, counts none as an error, knows
    the status 200 alone, and has one line per path that was asked for (not per route pattern). *)
Theorem api_metrics_blind calls w r : w_metrics w = Some NewMetrics → Forall (λ c, keeps_metrics c.1.1) calls → calls ≠ [] →
  ∃ m ops, w_metrics (serve_api calls w).2 = Some m ∧ (metrics_Handler "" r (serve_api calls w).2).1 = ops
    ∧ line ("http_requests_total " +:+ itoa (wrap64 (Z.of_nat (length calls)))) ∈ ops
    ∧ line "http_requests_errors_total 0" ∈ ops
    ∧ sortedIntKeys (byStatus m) = [200%Z] ∧ status_sample (byStatus m) 200 ∈ ops
    ∧ ∀ k, (k ∈ sortedStringKeys (byRoute m) ↔ ∃ c, c ∈ calls ∧ normalizePath (url_path c.2) = k)
        ∧ (k ∈ sortedStringKeys (byRoute m) → route_sample (byRoute m) k ∈ ops).
Proof using.
  intros Hw Hc Hn. destruct (serve_api_records calls w [] Hw Hc) as (cs & E & Hcs). rewrite app_nil_l in E.
  destruct (run_keys cs) as (m & Em & Ha & Hs & Hr). rewrite Em in E. exists m, (metrics_Handler "" r (serve_api calls w).2).1.
  assert (length cs = length calls) as Hlen by by apply Forall2_length in Hcs.
  assert (∀ mc, mc ∈ cs → c_status mc = 200%Z) as H200.
  { intros mc [i Hi]%list_elem_of_lookup. destruct (Forall2_lookup_r _ _ _ _ _ Hcs Hi) as (c & _ & _ & _ & ?). done. }
  assert (sortedIntKeys (byStatus m) = [200%Z]) as Hk.
  { apply Permutation_singleton_r. apply NoDup_Permutation.
    - unfold sortedIntKeys. rewrite merge_sort_Permutation. apply NoDup_fst_map_to_list.
    - apply NoDup_singleton.
    - intros k. rewrite elem_of_sortedIntKeys, Hs, list_elem_of_fmap, list_elem_of_singleton. split.
      + intros (mc & -> & Hin). by apply H200.
      + intros ->. destruct cs as [|mc cs]; [by destruct calls|]. exists mc. split; [symmetry; apply H200|]; by left. }
  assert (∀ s, s ∈ exposition (Snapshot (Some m)).1 (GlobalPercentiles (Snapshot (Some m)).2) → s ∈ (metrics_Handler "" r (serve_api calls w).2).1) as Hin.
  { intros s Hin. unfold metrics_Handler. rewrite E. cbn [Snapshot fst snd] in *. by right. }
  assert (totalErrors m = 0%Z) as Herr.
  { rewrite (acc_errors _ _ Ha), no_errors; [done|]. by apply Forall_forall. }
  split_and!; [done|done| | |done| |].
  - apply Hin, in_exposition. left. cbn. by rewrite (acc_requests _ _ Ha), Hlen.
  - apply Hin, in_exposition. right. left. cbn. by rewrite Herr.
  - apply Hin, in_exposition. right. right. left. exists 200%Z. split; [|done]. cbn. rewrite Hk. by left.
  - intros k. split.
    + rewrite elem_of_sortedStringKeys, Hr, list_elem_of_fmap. split.
      * intros (mc & -> & [i Hi]%list_elem_of_lookup). destruct (Forall2_lookup_r _ _ _ _ _ Hcs Hi) as (c & Hci & _ & Hp & _).
        exists c. split; [by eapply list_elem_of_lookup_2|]. unfold call_route. by rewrite Hp.
      * intros (c & [i Hi]%list_elem_of_lookup & <-). destruct (Forall2_lookup_l _ _ _ _ _ Hcs Hi) as (mc & Hci & _ & Hp & _).
        exists mc. split; [|by eapply list_elem_of_lookup_2]. unfold call_route. by rewrite Hp.
    + intros Hk'. apply Hin, in_exposition. do 3 right. by exists k.
Qed.
End Api.

(** Every path that the API documents is one that it answers, behind its metrics. *)
Definition api_site {U Ctx L} ms3 s6 encode html live addr (w : world U) : Server U Ctx L :=
  default (NewServer addr) (api_server ms3 s6 encode html live addr w).1.1.
Lemma api_documented {U Ctx L} ms3 s6 encode html (live : Handler U) addr w order r w' path :
  path ∈ keys_of (default (JText "") (member_of openapi_document "paths")) → method r = "GET" → url_path r = path →
  serve order (@api_site U Ctx L ms3 s6 encode html live addr w) r w'
  = Middleware (if String.eqb path "/health" then live else metrics_Handler ms3 s6) path r w'.
Proof.
  intros Hp Hm Hu. unfold serve, Router.ServeHTTP, matchRoute. rewrite Hm, Hu. unfold api_site, api_server.
  generalize (Middleware (U:=U)) (metrics_Handler (U:=U) ms3 s6) (Status (U:=U) "api-demo") (Docs (U:=U) html) (Spec (U:=U) encode).
  intros mw metrics st docs spec. cbn in Hp.
  repeat (apply elem_of_cons in Hp as [-> | Hp]; [vm_compute; reflexivity|]). by apply elem_of_nil in Hp.
Qed.

(** Two requests that fail, for two items of one route. *)
Definition failing : Handler nat := λ _ _ w, (http_error "boom" 500, w).
Definition api_world : world nat := World (Some NewMetrics) ∅ [] [] [] 0.
Definition get_item (id : string) : Handler nat * string * request :=
  (failing, "/items/{id}", Request "GET" "" "" ("/items/" +:+ id) "" ∅ "" ∅ None).
Lemma api_metrics_blind_witness :
  (serve_api [get_item "1"; get_item "2"] api_world).1 = [http_error "boom" 500; http_error "boom" 500]
  ∧ ∃ ops, (metrics_Handler itoa itoa "" (get_item "1").2 (serve_api [get_item "1"; get_item "2"] api_world).2).1 = ops
    ∧ line "http_requests_errors_total 0" ∈ ops ∧ line "http_requests_by_status_total{status=200} 2" ∈ ops
    ∧ line ("http_requests_by_route_total{route=" +:+ quote "/items/2" +:+ "} 1") ∈ ops.
Proof.
  split; [reflexivity|].
  destruct (api_metrics_blind itoa itoa [get_item "1"; get_item "2"] api_world (get_item "1").2) as (m & ops & E & Ho & _ & He & _ & Hs & Hr).
  - reflexivity.
  - repeat constructor.
  - done.
  - vm_compute in E. injection E as <-. exists ops. split_and!; [exact Ho|exact He|exact Hs|].
    apply (Hr "/items/2"). apply (Hr "/items/2"). exists (get_item "2"). split; [right; by left|reflexivity].
Defined.
