(* ===== verification/Tls.v ===== *)
(** * TLS configuration

    Models src/pkg/runtime/tls.go on the proxy of [Proxy].  [load_pair] is
    [tls.LoadX509KeyPair], [read_file] [os.ReadFile] and [parse_pem] whether
    [AppendCertsFromPEM] finds a certificate. *)

From S2P Require Import Prelude GoStrings RetryTransport Proxy.

Definition VersionTLS12 : Z := 771.
Inductive client_auth := NoClientCert | RequireAndVerifyClientCert.
Record server_tls := mkServerTls {
  Certificates : list string;
  MinVersion : Z;
  ClientCAs : option string;
  ClientAuth : client_auth;
}.

Section Tls.
Context (load_pair : string → string → result string) (read_file : string → result string) (parse_pem : string → bool).

Definition BuildServerTLSConfig (certFile keyFile clientCAFile : string) : result server_tls :=
  if String.eqb certFile "" || String.eqb keyFile "" then Err "certificate and key file are required"
  else
    try cert := load_pair certFile keyFile in
    if String.eqb clientCAFile "" then Ok (mkServerTls [cert] VersionTLS12 None NoClientCert)
    else
      try caPEM := read_file clientCAFile in
      if negb (parse_pem caPEM) then Err "failed to parse client CA certificate"
      else Ok (mkServerTls [cert] VersionTLS12 (Some caPEM) RequireAndVerifyClientCert).
(** The server's [TLSConfig] after the call, and the error; [None] is a nil server. *)
Definition WithMutualTLS (current : option (option server_tls)) (certFile keyFile clientCAFile : string)
    : option (option server_tls) * option error :=
  match current with
  | None => (None, Some "server is nil")
  | Some c => match BuildServerTLSConfig certFile keyFile clientCAFile with
              | Err e => (Some c, Some e)
              | Ok cfg => (Some (Some cfg), None)
              end
  end.

Definition upstream_pair (certFile keyFile : string) : result (option string) :=
  if String.eqb certFile "" && String.eqb keyFile "" then Ok None
  else if String.eqb certFile "" || String.eqb keyFile "" then Err "certFile and keyFile must both be set"
  else match load_pair certFile keyFile with
       | Err e => Err ("load upstream client certificate: " +:+ e)
       | Ok c => Ok (Some c)
       end.
Definition upstream_roots (caFile : string) : result (option string) :=
  if String.eqb caFile "" then Ok None
  else match read_file caFile with
       | Err e => Err ("read upstream CA file: " +:+ e)
       | Ok pem => if parse_pem pem then Ok (Some pem) else Err "failed to parse upstream CA certificate"
       end.
Definition WithUpstreamTLS (p : option Proxy) (certFile keyFile caFile : string) : result (option Proxy) :=
  match p with
  | None => Err "proxy is nil"
  | Some q =>
      if String.eqb certFile "" && String.eqb keyFile "" && String.eqb caFile "" then Ok p
      else
        try cert := upstream_pair certFile keyFile in
        try roots := upstream_roots caFile in
        Ok (Some (with_transport q (Transport (Some (Upstream cert roots)) None) (timeout q) (retryAttempts q) (retryDelay q)))
  end.

(** ** What the files amount to *)

Definition pair_loads (certFile keyFile : string) (cert : option string) : Prop :=
  match cert with
  | None => certFile = "" ∧ keyFile = ""
  | Some c => certFile ≠ "" ∧ keyFile ≠ "" ∧ load_pair certFile keyFile = Ok c
  end.
Definition roots_load (caFile : string) (roots : option string) : Prop :=
  match roots with
  | None => caFile = ""
  | Some pem => caFile ≠ "" ∧ read_file caFile = Ok pem ∧ parse_pem pem = true
  end.

Lemma upstream_pair_spec certFile keyFile cert :
  upstream_pair certFile keyFile = Ok cert ↔ pair_loads certFile keyFile cert.
Proof using All.
  unfold upstream_pair, pair_loads. destruct (String.eqb_spec certFile ""), (String.eqb_spec keyFile ""); cbn;
    destruct (load_pair certFile keyFile), cert; naive_solver.
Qed.
Lemma upstream_roots_spec caFile roots : upstream_roots caFile = Ok roots ↔ roots_load caFile roots.
Proof using All.
  unfold upstream_roots, roots_load. destruct (String.eqb_spec caFile "").
  - destruct roots; split; [done|by intros []|done|done].
  - destruct (read_file caFile) as [pem|]; [destruct (parse_pem pem) eqn:Ep|];
      destruct roots; (split; [by intros [= <-] || done|]); try done; try (intros (_ & [= ->] & Hp)); congruence.
Qed.
Lemma server_tls_spec certFile keyFile caFile cfg :
  BuildServerTLSConfig certFile keyFile caFile = Ok cfg ↔
  ∃ cert roots, pair_loads certFile keyFile (Some cert) ∧ roots_load caFile roots
    ∧ cfg = mkServerTls [cert] VersionTLS12 roots (match roots with Some _ => RequireAndVerifyClientCert | None => NoClientCert end).
Proof using All.
  unfold BuildServerTLSConfig, pair_loads.
  destruct (String.eqb_spec certFile ""), (String.eqb_spec keyFile ""); cbn; try naive_solver.
  destruct (load_pair certFile keyFile) as [cert|]; cbn; [|naive_solver]. unfold roots_load.
  destruct (String.eqb_spec caFile "") as [Eca|Eca].
  { split; [intros [= <-]; by exists cert, None|]. intros (c & [pem|] & (_ & _ & [= ->]) & Hr & ->); naive_solver. }
  destruct (read_file caFile) as [pem|]; cbn; [destruct (parse_pem pem) eqn:Ep; cbn|].
  - split; [intros [= <-]; by exists cert, (Some pem)|].
    intros (c & [pem'|] & (_ & _ & [= ->]) & Hr & ->); [by destruct Hr as (_ & [= ->] & _)|done].
  - split; [done|]. intros (c & [pem'|] & _ & Hr & _); [destruct Hr as (_ & [= ->] & ?); congruence|done].
  - split; [done|]. intros (c & [pem'|] & _ & Hr & _); [by destruct Hr as (_ & ? & _)|done].
Qed.

(** TLS configuration fails closed.  The server gets a configuration only from a certificate that
    loads, with TLS 1.2 at least, and demands and verifies client certificates exactly when a CA file is
    named, whose certificates it could read.  The proxy's transport is replaced only when what was named
    loads, both halves of the pair included, and then carries exactly that; nothing else of the proxy
    changes; with no file named it stays as it is. *)
Theorem tls_fails_closed certFile keyFile caFile q :
  (∀ cfg, BuildServerTLSConfig certFile keyFile caFile = Ok cfg ↔
     ∃ cert, pair_loads certFile keyFile (Some cert) ∧ Certificates cfg = [cert] ∧ MinVersion cfg = VersionTLS12
       ∧ roots_load caFile (ClientCAs cfg)
       ∧ ClientAuth cfg = match ClientCAs cfg with Some _ => RequireAndVerifyClientCert | None => NoClientCert end)
  ∧ (∀ p', WithUpstreamTLS (Some q) certFile keyFile caFile = Ok p' ↔
      ∃ cert roots, pair_loads certFile keyFile cert ∧ roots_load caFile roots ∧
        p' = Some (if decide (cert = None ∧ roots = None) then q
                   else with_transport q (Transport (Some (Upstream cert roots)) None) (timeout q) (retryAttempts q) (retryDelay q))).
Proof using All.
  split.
  - intros [cs v cas auth]. rewrite server_tls_spec. cbn. split.
    + intros (cert & roots & Hp & Hr & [= -> -> -> ->]). by exists cert.
    + intros (cert & Hp & -> & -> & Hr & ->). by exists cert, cas.
  - intros p'. unfold WithUpstreamTLS. setoid_rewrite <- upstream_pair_spec. setoid_rewrite <- upstream_roots_spec.
    destruct (String.eqb certFile "" && String.eqb keyFile "" && String.eqb caFile "") eqn:E.
    + apply andb_true_iff in E as [Ep Er]. unfold upstream_pair, upstream_roots. rewrite Ep, Er. split.
      * intros [= <-]. exists None, None. by rewrite decide_True.
      * intros (c & r & [= <-] & [= <-] & ->). by rewrite decide_True.
    + destruct (upstream_pair certFile keyFile) as [c|] eqn:Ec; cbn; [|naive_solver].
      destruct (upstream_roots caFile) as [r|] eqn:Er; cbn; [|naive_solver].
      assert (¬ (c = None ∧ r = None)) as Hn.
      { intros [-> ->]. apply upstream_pair_spec in Ec as [-> ->]. apply upstream_roots_spec in Er. cbn in Er. by subst. }
      split; [intros [= <-]; exists c, r; by rewrite decide_False|].
      intros (c' & r' & [= <-] & [= <-] & ->). by rewrite decide_False.
Qed.

(** The builders of the transport do not compose: what was set up before is lost. *)
Theorem upstream_tls_drops_retry q n d cert key ca p' :
  (0 < n)%Z → ca ≠ "" → WithUpstreamTLS (WithRetry (Some q) n d) cert key ca = Ok (Some p') →
  retry (rp_transport p') = None ∧ retryAttempts p' = n.
Proof using All.
  intros Hn Hca. unfold WithRetry, on_recv, WithUpstreamTLS. destruct (Z.leb_spec n 0); [lia|].
  rewrite (proj2 (String.eqb_neq ca "") Hca), andb_false_r.
  destruct (upstream_pair cert key); cbn; [|done]. destruct (upstream_roots ca); cbn; [|done]. by intros [= <-].
Qed.
Theorem timeout_drops_credentials p t :
  (0 < t)%Z → ∀ q, WithTimeout (Some p) t = Some q → base (rp_transport q) = Some (WithTimeouts t).
Proof using All.
  intros Ht q. unfold WithTimeout, on_recv. destruct (Z.ltb_spec 0 t); [|lia]. intros [= <-]. cbn.
  by destruct (0 <? retryAttempts p)%Z.
Qed.
End Tls.
