(* ===== verification/HmrServer.v ===== *)
(** * Hot module replacement on the development server

    Models src/examples/webapp-demo/pkg/runtime/hmr_server.go: the endpoints that
    [WithHMR] puts in front of a server, and the writer that injects the client
    script into its pages.  [detect] is [http.DetectContentType], [decode] the JSON
    decoder, [lower_table] Unicode's lower case beyond ASCII. *)

From S2P Require Import Prelude GoStrings Unicode Http Hmr.

(** ** Endpoints *)

Inductive endpoint := MetaEndpoint | EventsEndpoint | ScriptEndpoint | BroadcastEndpoint.
(** The table of the [ServeMux], for a clean path; GET patterns serve HEAD too. *)
Definition hmr_mux (meth path : string) : option endpoint :=
  let get := String.eqb meth "GET" || String.eqb meth "HEAD" in
  if get && String.eqb path "/hmr/meta" then Some MetaEndpoint
  else if get && String.eqb path "/hmr/events" then Some EventsEndpoint
  else if get && String.eqb path "/hmr/hmr.js" then Some ScriptEndpoint
  else if String.eqb meth "POST" && String.eqb path "/hmr/broadcast" then Some BroadcastEndpoint
  else None.
Inductive destination := ToMux (e : option endpoint) | ToServer.
Definition hmr_route (meth path : string) : destination :=
  if has_prefix path "/hmr/" then ToMux (hmr_mux meth path) else ToServer.

Record broadcastMessage := mkMessage { Kind : string; Target : string; Payload : string; Source : string; Route : string }.
(** The answer, and the event that is published. *)
Definition broadcastHandler (decode : string → result broadcastMessage) (meth body : string) : list writer_op * option Event :=
  if negb (String.eqb meth "POST") then (http_error "method not allowed" 405, None)
  else match decode body with
       | Err _ => (http_error "invalid json" 400, None)
       | Ok msg =>
           let kind := if String.eqb (Kind msg) "" then EventReload else Kind msg in
           ([OpWriteHeader 202], Some (MkEvent kind (Target msg) (Payload msg) (Source msg) (Route msg) 0 0 "" 0))
       end.

(** ** The writer *)

Record hmrInjectWriter := mkInject { ibuf : string; istatus : Z }.
(** A call of the handler on the wrapper, over the response beneath. *)
Definition inject_step (w : hmrInjectWriter * response) (o : writer_op) : hmrInjectWriter * response :=
  let '(w, r) := w in
  match o with
  | OpWriteHeader code => (mkInject (ibuf w) code, r)
  | OpWrite b => (mkInject (ibuf w +:+ b) (istatus w), r)
  | OpFlush => (w, response_step r OpFlush)
  | _ => (w, response_step r o)
  end.
Section Inject.
Context (lower_table : Z → Z) (detect : string → string).
Definition html_type : string := "text/html; charset=utf-8".
(** The headers and the body of the final response; [None] is a panic. *)
Definition finalize (w : hmrInjectWriter) (r : response) : option response :=
  let status := if (istatus w =? 0)%Z then 200%Z else istatus w in
  let body := ibuf w in
  let contentType := header_get (live r) "Content-Type" in
  let sniffed := String.eqb contentType "" && String.eqb (detect body) html_type in
  let contentType := if sniffed then html_type else contentType in
  let r := if sniffed then response_step r (OpSet "Content-Type" html_type) else r in
  match (if (200 <=? status)%Z && (status <? 300)%Z && contains contentType "text/html"
         then InjectClientScript lower_table body else Some body) with
  | None => None
  | Some body =>
      Some (respond_from r [OpSet "Content-Length" (itoa (Z.of_nat (String.length body))); OpWriteHeader status; OpWrite body])
  end.
(** A request to the wrapped server. *)
Definition serve_wrapped (ops : list writer_op) : option response :=
  let '(w, r) := foldl inject_step (mkInject "" 0, new_response) ops in
  commit <$> finalize w r.

(** ** A page under the wrapper *)

Definition page_ops (hs : list writer_op) (c : option Z) (chunks : list string) : list writer_op :=
  hs ++ option_list (OpWriteHeader <$> c) ++ (OpWrite <$> chunks).
Definition whole (chunks : list string) : string := foldr String.append "" chunks.
Definition headers_of (hs : list writer_op) : gmap string (list string) := live (respond_from new_response hs).
Definition type_of (h : gmap string (list string)) (body : string) : string :=
  let t := header_get h "Content-Type" in
  if String.eqb t "" && String.eqb (detect body) html_type then html_type else t.
Definition sniff (h : gmap string (list string)) (body : string) : gmap string (list string) :=
  if String.eqb (header_get h "Content-Type") "" && String.eqb (detect body) html_type
  then header_set h "Content-Type" html_type else h.
Definition is_page (status : Z) (h : gmap string (list string)) (body : string) : bool :=
  (200 <=? status)%Z && (status <? 300)%Z && contains (type_of h body) "text/html".

End Inject.

Lemma respond_headers hs r : forallb is_header_op hs = true →
  interim (respond_from r hs) = interim r ∧ final (respond_from r hs) = final r ∧ sent (respond_from r hs) = sent r.
Proof.
  revert r. induction hs as [|o hs IH]; intros r; [done|]. cbn [forallb]. intros [Ho Hs]%andb_true_iff.
  change (respond_from r (o :: hs)) with (respond_from (response_step r o) hs).
  destruct (IH (response_step r o) Hs) as (-> & -> & ->). by destruct o.
Qed.
Lemma inject_headers hs w r : forallb is_header_op hs = true →
  foldl inject_step (w, r) hs = (w, respond_from r hs).
Proof.
  revert r. induction hs as [|o hs IH]; intros r; [done|]. cbn [forallb]. intros [Ho Hs]%andb_true_iff.
  change (respond_from r (o :: hs)) with (respond_from (response_step r o) hs). rewrite <- (IH (response_step r o)) by done.
  cbn [foldl]. f_equal. by destruct o.
Qed.
Lemma inject_writes chunks w r :
  foldl inject_step (w, r) (OpWrite <$> chunks) = (mkInject (ibuf w +:+ whole chunks) (istatus w), r).
Proof.
  revert w. induction chunks as [|b chunks IH]; intros w; cbn; [by rewrite str_app_nil_r; destruct w|].
  rewrite IH. cbn. by rewrite str_app_assoc.
Qed.
Lemma respond_writes chunks r code h : final r = Some (code, h) →
  respond_from r (OpWrite <$> chunks) =
    Response (live r) (interim r) (final r) (if body_allowed code then sent r +:+ whole chunks else sent r).
Proof.
  revert r. induction chunks as [|b chunks IH]; intros r Hf.
  { cbn. rewrite str_app_nil_r. destruct r. by destruct (body_allowed code). }
  change (respond_from r (OpWrite <$> b :: chunks)) with (respond_from (response_step r (OpWrite b)) (OpWrite <$> chunks)).
  assert (response_step r (OpWrite b) =
    Response (live r) (interim r) (final r) (if body_allowed code then sent r +:+ b else sent r)) as ->.
  { destruct r as [l i f s]. cbn in Hf. subst f. cbn. by destruct (body_allowed code). }
  rewrite IH by done. cbn. by destruct (body_allowed code); rewrite ?str_app_assoc.
Qed.

(** What the page is without the wrapper, and what the writer has at the end. *)
Lemma final_status k : (200 ≤ k)%Z → informational k = false.
Proof. intros Hk. unfold informational. destruct (Z.leb_spec k 199); [lia|]. by rewrite andb_false_r. Qed.
Lemma respond_page hs c chunks : forallb is_header_op hs = true → (∀ k, c = Some k → (200 ≤ k)%Z) →
  let code := default 200%Z c in
  let r := respond (page_ops hs c chunks) in
  final r = Some (code, headers_of hs) ∧ sent r = (if body_allowed code then whole chunks else "").
Proof.
  intros Hh Hc code r. unfold r, respond, page_ops, respond_from. rewrite !foldl_app. fold (respond_from new_response hs).
  destruct (respond_headers hs new_response Hh) as (_ & Hf & Hs). unfold headers_of.
  set (r0 := respond_from new_response hs) in *. cbn in Hf, Hs.
  assert (∀ k r1, (200 ≤ k)%Z → final r1 = Some (k, live r0) → sent r1 = "" →
    let r2 := commit (foldl response_step r1 (OpWrite <$> chunks)) in
    final r2 = Some (k, live r0) ∧ sent r2 = (if body_allowed k then whole chunks else "")) as Hr.
  { intros k r1 Hk Hf1 Hs1. fold (respond_from r1 (OpWrite <$> chunks)). rewrite (respond_writes _ _ _ _ Hf1). unfold commit. cbn.
    rewrite Hf1. cbn. by rewrite Hs1. }
  destruct c as [k|]; cbn [fmap option_fmap option_map option_list foldl response_step].
  - unfold code. cbn. specialize (Hc k eq_refl). unfold write_header. rewrite Hf, (final_status k Hc). by apply Hr.
  - assert (commit r0 = Response (live r0) (interim r0) (Some (200%Z, live r0)) (sent r0)) as Hcom by (unfold commit, write_header; by rewrite Hf).
    change (foldl response_step r0 (option_list None)) with r0.
    destruct chunks as [|b chunks]; [change (foldl response_step r0 (OpWrite <$> [])) with r0; by rewrite Hcom|].
    replace (foldl response_step r0 (OpWrite <$> b :: chunks)) with (foldl response_step (commit r0) (OpWrite <$> b :: chunks));
      [rewrite Hcom; by apply Hr|].
    cbn [fmap list_fmap foldl response_step]. by rewrite Hcom.
Qed.
Lemma wrapped_page hs c chunks : forallb is_header_op hs = true →
  foldl inject_step (mkInject "" 0, new_response) (page_ops hs c chunks) =
    (mkInject (whole chunks) (default 0%Z c), respond_from new_response hs).
Proof.
  intros Hh. unfold page_ops. rewrite !foldl_app, inject_headers by done.
  destruct c as [k|].
  - change (foldl inject_step (mkInject "" 0, respond_from new_response hs) (option_list (OpWriteHeader <$> Some k)))
      with (mkInject "" k, respond_from new_response hs). by rewrite inject_writes.
  - change (foldl inject_step (mkInject "" 0, respond_from new_response hs) (option_list (OpWriteHeader <$> None)))
      with (mkInject "" 0, respond_from new_response hs). by rewrite inject_writes.
Qed.

(** * Properties *)

(** A page behind the development wrapper is the page with the script: for a handler that sets headers,
    a final status and writes its body in any pieces, the client gets the same status, the same headers but
    for the length (and the type, where it is sniffed), and the same body, with the script put in exactly
    where the answer is a successful HTML page; an answer without a body stays without one. *)
Theorem hmr_page lower_table detect hs c chunks r :
  forallb is_header_op hs = true → (∀ k, c = Some k → (200 ≤ k)%Z) →
  serve_wrapped lower_table detect (page_ops hs c chunks) = Some r →
  let plain := respond (page_ops hs c chunks) in
  ∃ body', (if is_page detect (status plain) (headers_of hs) (whole chunks)
            then InjectClientScript lower_table (whole chunks) else Some (whole chunks)) = Some body'
    ∧ status r = status plain
    ∧ sent_headers r = header_set (sniff detect (sent_headers plain) (whole chunks)) "Content-Length"
        (itoa (Z.of_nat (String.length body')))
    ∧ sent r = (if body_allowed (status plain) then body' else "")
    ∧ (body' = whole chunks → sent r = sent plain).
Proof.
  intros Hh Hc E plain. destruct (respond_page hs c chunks Hh Hc) as [Hpf Hps]. fold plain in Hpf, Hps.
  unfold status, sent_headers. rewrite Hpf. set (code := default 200%Z c) in *.
  unfold serve_wrapped in E. rewrite wrapped_page in E by done. unfold finalize in E. cbn [ibuf istatus] in E. cbv zeta in E.
  replace (if (default 0 c =? 0)%Z then 200%Z else default 0%Z c) with code in E.
  2: { unfold code. destruct c as [k|]; [cbn|done]. specialize (Hc k eq_refl). by destruct (Z.eqb_spec k 0); [lia|]. }
  assert (200 ≤ code)%Z as Hcode by (unfold code; destruct c; cbn; [by apply Hc|lia]).
  set (r0 := respond_from new_response hs) in *. unfold is_page, type_of, headers_of. fold r0. cbv zeta.
  set (sniffed := String.eqb _ "" && _) in *.
  match type of E with context [match ?x with Some _ => _ | None => _ end] => destruct x as [body'|] eqn:Eb end; [|done]. exists body'.
  destruct (respond_headers hs new_response Hh) as (_ & Hf & Hs). fold r0 in Hf, Hs. cbn in Hf, Hs.
  assert (∀ r1, final r1 = None → sent r1 = "" → Some r = commit <$> Some (respond_from r1
      [OpSet "Content-Length" (itoa (Z.of_nat (String.length body'))); OpWriteHeader code; OpWrite body']) →
    final r = Some (code, header_set (live r1) "Content-Length" (itoa (Z.of_nat (String.length body'))))
    ∧ sent r = (if body_allowed code then body' else "")) as Hr.
  { intros r1 Hf1 Hs1 [= ->]. unfold respond_from. cbn [foldl response_step]. unfold write_header. cbn [final].
    rewrite Hf1, (final_status code Hcode). unfold commit. cbn. rewrite Hs1. by destruct (body_allowed code). }
  split; [done|].
  assert (final r = Some (code, header_set (sniff detect (live r0) (whole chunks)) "Content-Length"
    (itoa (Z.of_nat (String.length body')))) ∧ sent r = (if body_allowed code then body' else "")) as [-> ->].
  { unfold sniff. fold sniffed. destruct sniffed; symmetry in E; apply Hr in E; try done. }
  split_and!; [done..|]. intros ->. by rewrite Hps.
Qed.

Definition demo_detect (body : string) : string := if has_prefix body "<" then html_type else "text/plain; charset=utf-8".
Lemma hmr_page_witness : ∃ r body',
  serve_wrapped id demo_detect (page_ops [OpSet "X-Build" "7"] None ["<body>"; "hi</body>"]) = Some r
  ∧ InjectClientScript id "<body>hi</body>" = Some body' ∧ status r = 200%Z ∧ sent r = body'.
Proof.
  destruct (serve_wrapped id demo_detect (page_ops [OpSet "X-Build" "7"] None ["<body>"; "hi</body>"])) as [r|] eqn:E;
    [|vm_compute in E; discriminate E].
  destruct (hmr_page id demo_detect [OpSet "X-Build" "7"] None ["<body>"; "hi</body>"] r eq_refl (λ k E, ltac:(discriminate E)) E)
    as (body' & Eb & Hs & _ & Hb & _).
  exists r, body'. split; [reflexivity|]. split; [exact Eb|]. split; [exact Hs|exact Hb].
Defined.

(** A flush goes to the writer beneath, which answers 200 before the status is known. *)
Theorem hmr_flush_loses_status lower_table detect :
  let ops := [OpSet "Content-Type" "text/plain"; OpWriteHeader 500; OpFlush; OpWrite "failed"] in
  status (respond ops) = 500%Z ∧ status <$> serve_wrapped lower_table detect ops = Some 200%Z.
Proof. done. Qed.
(** A second status replaces the first, which net/http ignores. *)
Theorem hmr_last_status_wins lower_table detect :
  let ops := [OpSet "Content-Type" "text/plain"; OpWriteHeader 200; OpWrite "part"; OpWriteHeader 500] in
  status (respond ops) = 200%Z ∧ status <$> serve_wrapped lower_table detect ops = Some 500%Z.
Proof. done. Qed.

(** The handler publishes what is posted, a reload where no kind is given; its
    own check of the method is never the reason under the mux. *)
Lemma broadcast_under_mux decode meth body :
  hmr_mux meth "/hmr/broadcast" = Some BroadcastEndpoint →
  (broadcastHandler decode meth body).2 =
    match decode body with
    | Ok msg => Some (MkEvent (if String.eqb (Kind msg) "" then EventReload else Kind msg) (Target msg) (Payload msg) (Source msg) (Route msg) 0 0 "" 0)
    | Err _ => None
    end.
Proof.
  unfold hmr_mux, broadcastHandler. cbn. rewrite !andb_false_r, andb_true_r. destruct (String.eqb meth "POST"); [|done].
  intros _. cbn. by destruct (decode body).
Qed.
