(* ===== verification/DevMain.v ===== *)
(** * The development program around its loop

    Models the rest of src/examples/webapp-demo/cmd/dev/main.go: [main], the commands and
    processes that it starts with their environment, the directories that it has watched, and
    the two calls that it makes to the server.  A command, a process or a request is a value;
    what comes of it is an argument. *)

From stdpp Require Import strings gmap.
From S2P Require Import Prelude GoStrings ProjectFs Filepath Server DevFiles DevLoop.

(** ** Commands and processes *)

Record command := mkCommand { c_name : string; c_args : list string; c_env : option (list string); c_setpgid : bool }.
Definition runGenerate : command := mkCommand "make" ["generate-assets"] None false.
Definition buildTarget : string := ".".
Definition newBuildID (unixNano : Z) : string := "dev-" +:+ itoa unixNano.
(** [filepath.Join] of a clean directory and a name. *)
Definition in_dir (tempDir name : string) : string := Clean (tempDir +:+ "/" +:+ name).
Definition server_binary (tempDir : string) (pid unixNano : Z) : string :=
  in_dir tempDir ("fgoths-dev-" +:+ itoa pid +:+ "-" +:+ itoa unixNano).
Definition buildServer (binPath : string) : command := mkCommand "go" ["build"; "-o"; binPath; buildTarget] None false.
Definition readyFileFor (tempDir buildID : string) : string := in_dir tempDir ("fgoths-ready-" +:+ buildID).
Definition envOr (getenv : string → string) (key fallback : string) : string :=
  if String.eqb (getenv key) "" then fallback else getenv key.
Definition appURL (getenv : string → string) : string := "http://localhost:" +:+ envOr getenv "PORT" "8080".

(** What is done to files and processes. *)
Inductive effect :=
  | Remove (file : string)
  | Start (c : command)
  | Kill (pid : Z)          (* a negative number names the group *)
  | KillProcess (pid : Z)
  | Wait (pid : Z).
Definition server_env (environ : list string) (buildID readyFile : string) : list string :=
  environ ++ ["FGOTHS_DEV=1"; "FGOTHS_BUILD_ID=" +:+ buildID; "FGOTHS_READY_FILE=" +:+ readyFile].
Definition startServer (environ : list string) (binPath buildID readyFile : string) : list effect :=
  [Remove readyFile; Start (mkCommand binPath [] (Some (server_env environ buildID readyFile)) true)].
Definition stopServer (cmd : option Z) : list effect :=
  match cmd with None => [] | Some pid => [Kill (- pid); KillProcess pid; Wait pid] end.

(** [os.Getenv] of a process started with this environment: of equal keys the last counts. *)
Fixpoint getenv_of (env : list string) (key : string) : string :=
  match env with
  | [] => ""
  | kv :: env =>
      if existsb (λ kv', has_prefix kv' (key +:+ "=")) env then getenv_of env key
      else if has_prefix kv (key +:+ "=") then trim_prefix kv (key +:+ "=") else ""
  end.

(** [main]: what comes of generating, building and starting. *)
Inductive outcome := Exit (code : Z) | Watching (d : dev).
Definition main (generated : option error) (built : result string) (proc : string → result Z) : outcome :=
  match built with
  | Err _ => Exit 1
  | Ok binPath => match proc binPath with Err _ => Exit 1 | Ok _ => Watching started end
  end.

(** ** Watching *)

(** [watchTree]: the paths given to the watcher; an error of [Add] is dropped. *)
Fixpoint watch_walk (rel : list string) (e : entry) : list string :=
  if match last rel with Some base => hidden base | None => false end then []
  else match e with
       | EFile _ => let clean := join rel "/" in if watched clean then [clean] else []
       | EDir children => (match rel with [] => "." | _ => join rel "/" end) :: concat ((λ c, watch_walk (rel ++ [c.1]) c.2) <$> children)
       end.
Definition watchTree (root : entry) : list string := watch_walk [] root.

(** ** Calls of the server *)

(** [http.Get]: the status and the body, or errors of the call and of reading the body. *)
Definition fetched (response : result (Z * result string)) : option string :=
  match response with Ok (200%Z, Ok body) => Some body | _ => None end.
Definition fetchFragment (get : string → result (Z * result string)) (url route : string) : option string :=
  fetched (get (url +:+ route)) ≫= extractFragment.
(** The request that is made: address and body. *)
Definition postBroadcast (marshal : broadcastMessage → result string) (url : string) (msg : broadcastMessage) : option (string * string) :=
  match marshal msg with Err _ => None | Ok body => Some (url +:+ "/hmr/broadcast", body) end.

(** * Lemmas *)

(** ** What is watched *)

Inductive dir_at : entry → list string → Prop :=
  | dir_here children : dir_at (EDir children) []
  | dir_below children n c rest : (n, c) ∈ children → dir_at c rest → dir_at (EDir children) (n :: rest).
Definition path_of (comps : list string) : string := match comps with [] => "." | _ => join comps "/" end.
Definition watch_holds (e : entry) : Prop := ∀ rel p,
  p ∈ watch_walk rel e ↔ visible rel ∧ ∃ rest, Forall (λ c, hidden c = false) rest ∧
    ((dir_at e rest ∧ p = path_of (rel ++ rest)) ∨ ((∃ st, file_at e rest st) ∧ p = join (rel ++ rest) "/" ∧ watched p = true)).
Fixpoint watch_spec (e : entry) : watch_holds e.
Proof.
  assert (∀ children, e = EDir children → Forall (λ c, watch_holds c.2) children) as IH.
  { destruct e as [|children]; [done|]. intros ? [= <-]. induction children as [|[n c] children IHc]; constructor; [apply watch_spec|exact IHc]. }
  clear watch_spec. intros rel p. assert (p ∈ watch_walk rel e ↔ visible rel ∧ p ∈ match e with
    | EFile _ => let clean := join rel "/" in if watched clean then [clean] else []
    | EDir children => path_of rel :: concat ((λ c, watch_walk (rel ++ [c.1]) c.2) <$> children) end) as ->.
  { unfold visible. destruct e; cbn [watch_walk]; destruct (last rel) as [b|]; try destruct (hidden b); set_solver. }
  apply and_iff_compat_l. destruct e as [st|children]; cbn zeta.
  - split.
    + destruct (watched (join rel "/")) eqn:E; [|by intros ?%elem_of_nil]. intros ->%list_elem_of_singleton.
      exists []. split; [constructor|]. right. rewrite app_nil_r. split_and!; [by eexists; constructor|done..].
    + intros (rest & _ & [[Hd _]|[[st' Hf] [-> Hw]]]); [by inversion Hd|]. inversion Hf; subst. rewrite app_nil_r in *. rewrite Hw. by left.
  - specialize (IH children eq_refl). rewrite Forall_forall in IH. rewrite elem_of_cons. split.
    + intros [->|Hin].
      { exists []. split; [constructor|]. left. rewrite app_nil_r. split; [constructor|done]. }
      rewrite list_elem_of_In, in_concat in Hin. destruct Hin as (l & Hl & Hp%list_elem_of_In). apply list_elem_of_In in Hl.
      apply list_elem_of_fmap in Hl as ([n c] & -> & Hin). cbn [fst snd] in Hp.
      apply (IH (n, c) Hin) in Hp as (Hv & rest & Hr & H). apply visible_snoc in Hv. exists (n :: rest). rewrite <- app_assoc in H.
      split; [by constructor|]. destruct H as [[Hd ->]|[[st Hf] [-> Hw]]]; [left|right]; split_and!; eauto using dir_at, file_at.
    + intros (rest & Hr & H). destruct rest as [|n rest].
      { destruct H as [[_ ->]|[[st Hf] _]]; [left; by rewrite app_nil_r|inversion Hf]. }
      right. apply Forall_cons in Hr as [Hn Hr].
      assert (∃ c, (n, c) ∈ children ∧ ((dir_at c rest ∧ p = path_of (rel ++ n :: rest))
        ∨ ((∃ st, file_at c rest st) ∧ p = join (rel ++ n :: rest) "/" ∧ watched p = true))) as (c & Hin & H').
      { destruct H as [[Hd ->]|[[st Hf] [-> Hw]]]; [inversion Hd|inversion Hf]; subst; eauto 10. }
      rewrite list_elem_of_In, in_concat. exists (watch_walk (rel ++ [n]) c). split; rewrite <- list_elem_of_In.
      * apply list_elem_of_fmap. by exists (n, c).
      * apply (IH (n, c) Hin). split; [by apply visible_snoc|]. exists rest. by rewrite <- app_assoc.
Qed.

(** ** The environment *)

Lemma getenv_of_last env kv more key : has_prefix kv (key +:+ "=") = true →
  (∀ kv', kv' ∈ more → has_prefix kv' (key +:+ "=") = false) → getenv_of (env ++ kv :: more) key = trim_prefix kv (key +:+ "=").
Proof.
  intros Hk Hm. assert (existsb (λ kv', has_prefix kv' (key +:+ "=")) more = false) as Hmore.
  { apply not_true_iff_false. intros (x & Hx%list_elem_of_In & Ex)%existsb_exists. by rewrite Hm in Ex. }
  induction env as [|e env IH]; cbn [app getenv_of]; [by rewrite Hmore, Hk|].
  assert (existsb (λ kv', has_prefix kv' (key +:+ "=")) (env ++ kv :: more) = true) as ->; [|done].
  apply existsb_exists. exists kv. split; [|done]. apply list_elem_of_In, elem_of_app. right. by left.
Qed.
Lemma server_env_build environ id file : getenv_of (server_env environ id file) "FGOTHS_BUILD_ID" = id.
Proof.
  unfold server_env. change (environ ++ ["FGOTHS_DEV=1"; "FGOTHS_BUILD_ID=" +:+ id; "FGOTHS_READY_FILE=" +:+ file])
    with (environ ++ (["FGOTHS_DEV=1"] ++ ("FGOTHS_BUILD_ID" +:+ "=" +:+ id) :: ["FGOTHS_READY_FILE=" +:+ file])).
  rewrite (assoc_L (++)), getenv_of_last.
  - apply (trim_prefix_app "FGOTHS_BUILD_ID=").
  - apply (has_prefix_app "FGOTHS_BUILD_ID=").
  - intros kv ->%list_elem_of_singleton. done.
Qed.
Lemma server_env_ready environ id file : getenv_of (server_env environ id file) "FGOTHS_READY_FILE" = file.
Proof.
  unfold server_env. change (environ ++ ["FGOTHS_DEV=1"; "FGOTHS_BUILD_ID=" +:+ id; "FGOTHS_READY_FILE=" +:+ file])
    with (environ ++ (["FGOTHS_DEV=1"; "FGOTHS_BUILD_ID=" +:+ id] ++ ["FGOTHS_READY_FILE" +:+ "=" +:+ file])).
  rewrite (assoc_L (++)), getenv_of_last.
  - apply (trim_prefix_app "FGOTHS_READY_FILE=").
  - apply (has_prefix_app "FGOTHS_READY_FILE=").
  - by intros kv ?%elem_of_nil.
Qed.
Lemma waitForBuild_spec reads id : waitForBuild reads id = true ↔ Some id ∈ reads.
Proof.
  induction reads as [|[data|] reads IH]; cbn [waitForBuild]; rewrite ?elem_of_cons.
  - split; [done|by intros ?%elem_of_nil].
  - destruct (String.eqb_spec data id) as [->|Hne]; [by split; [left|]|]. rewrite IH. split; [by right|intros [[= ->]|]; done].
  - rewrite IH. split; [by right|intros [[=]|]; done].
Qed.

(** * Properties *)

(** The watcher of the development program is given the root, every directory below it that no hidden or skipped
    name is above, and every watched file in one, and nothing else. *)
Theorem watch_tree_exact children p :
  p ∈ watchTree (EDir children) ↔ ∃ comps, Forall (λ c, hidden c = false) comps ∧
    ((dir_at (EDir children) comps ∧ p = path_of comps)
     ∨ ((∃ st, file_at (EDir children) comps st) ∧ p = join comps "/" ∧ watched p = true)).
Proof. unfold watchTree. rewrite (watch_spec (EDir children) [] p). cbn [app]. split; [by intros [_ ?]|by split]. Qed.

(** A rebuilt server counts as ready when it, and no other, has opened its listener.  The file is removed before the
    process starts; whatever the environment held before, the process reads its own build and that file from it, and
    writes the one to the other once it listens; the wait ends well exactly when the file held that build. *)
Theorem ready_handshake {U Ctx L : Type} net_listen reuse_listen environ binPath id file (s : Server U Ctx L) s' ln :
  file ≠ "" → http_server s = true → listen net_listen reuse_listen s = (s', Ok ln) →
  ∃ c env, startServer environ binPath id file = [Remove file; Start c] ∧ c_env c = Some env
    ∧ ListenAndServe net_listen reuse_listen (getenv_of env) (Some s) = (Some s', Serving ln (Some (file, id)))
    ∧ ∀ reads, waitForBuild reads id = true ↔ Some id ∈ reads.
Proof.
  intros Hf Hs Hl. do 2 eexists. split; [reflexivity|]. split; [reflexivity|]. split; [|intros; apply waitForBuild_spec].
  unfold ListenAndServe. rewrite Hs. cbn [negb]. rewrite Hl. cbv zeta. rewrite server_env_ready, server_env_build.
  by rewrite (proj2 (String.eqb_neq _ _) Hf).
Qed.

Definition dev_server : Server nat unit string := NewServer ":8080".
Lemma ready_handshake_witness :
  ListenAndServe (λ a, Ok a) (λ a, Ok a)
    (getenv_of (server_env ["FGOTHS_BUILD_ID=old"; "PORT=8080"] (newBuildID 17) (readyFileFor "/tmp" (newBuildID 17)))) (Some dev_server)
  = (Some dev_server, Serving ":8080" (Some ("/tmp/fgoths-ready-dev-17", "dev-17")))
  ∧ waitForBuild [None; Some ""; Some "dev-17"] "dev-17" = true.
Proof.
  destruct (ready_handshake (λ a, Ok a) (λ a, Ok a) ["FGOTHS_BUILD_ID=old"; "PORT=8080"] "/tmp/x" (newBuildID 17)
    (readyFileFor "/tmp" (newBuildID 17)) dev_server dev_server ":8080") as (c & env & Hs & He & Hl & Hw).
  - vm_compute. discriminate.
  - reflexivity.
  - reflexivity.
  - injection Hs as <-. injection He as <-. split; [|apply Hw; right; right; left].
    etransitivity; [exact Hl|]. reflexivity.
Defined.
