(* ===== verification/HmrHub.v ===== *)
(** * The hub of a development server, and the way of an edit to the page

    Models the rest of src/examples/webapp-demo/pkg/runtime/hmr_server.go ([HMRHub], [WithHMR]
    and the metadata endpoint) and [ScriptHandler] of src/pkg/runtime/hmr/client.go, and puts the
    parts together: the message of the watcher (DevLoop.v), the call it makes (DevMain.v), the
    endpoint that takes it (HmrServer.v), the hub that passes it on (Hmr.v) and what the page
    does (Browser.v). *)

From stdpp Require Import strings gmap sets.
From S2P Require Import Prelude GoStrings Http DevFiles.
From S2P Require Hmr Browser HmrServer DevLoop DevMain.
Import Hmr.

(** ** Hubs by server *)

Definition build_id (env : string) (unixMilli : Z) : string := if String.eqb env "" then "dev-" +:+ itoa unixMilli else env.
(** A server is its address, [None] the nil pointer; the hub of a server is where its entry of the map points. *)
Definition HMRHub (env : string) (unixMilli : Z) (s : option nat) (hubs : gmap nat Hub) : option nat * gmap nat Hub :=
  match s with
  | None => (None, hubs)
  | Some s =>
      match hubs !! s with
      | Some _ => (Some s, hubs)
      | None => (Some s, <[s := NewHub (build_id env unixMilli)]> hubs)
      end
  end.

(** ** The handler *)

Section Handler.
Context (json_meta : string → Z → Z → string) (ClientScript : string).
Definition metaHandler (h : Hub) : list writer_op :=
  [OpSet "Content-Type" "application/json"; OpSet "Cache-Control" "no-cache";
   OpWrite (json_meta (buildID h) SchemaMajor SchemaMinor)].
Definition ScriptHandler : list writer_op :=
  [OpSet "Content-Type" "text/javascript; charset=utf-8"; OpSet "Cache-Control" "no-cache"; OpWrite ClientScript].

Context (decode : string → result HmrServer.broadcastMessage) (lower_table : Z → Z) (detect : string → string).
Context {W : Type}.
(** A response ([None] is a panic), the stream of a hub, or the mux's own refusal. *)
Inductive reply := Answer (r : option response) | Events (hub : nat) | Refusal.
Definition inner_handler : Type := request → W → list writer_op * W.
(** [WithHMR]: [inner] becomes this handler.  The body of the request and the readings of the clock are arguments. *)
Definition WithHMR (hub : nat) (inner : inner_handler) (r : request) (body : string) (now now' : time)
    (s : gmap nat Hub * W) : reply * (gmap nat Hub * W) :=
  let '(hubs, w) := s in
  match HmrServer.hmr_route (method r) (url_path r), hubs !! hub with
  | HmrServer.ToServer, _ =>
      let '(ops, w) := inner r w in (Answer (HmrServer.serve_wrapped lower_table detect ops), (hubs, w))
  | HmrServer.ToMux (Some HmrServer.MetaEndpoint), Some h => (Answer (Some (respond (metaHandler h))), s)
  | HmrServer.ToMux (Some HmrServer.EventsEndpoint), _ => (Events hub, s)
  | HmrServer.ToMux (Some HmrServer.ScriptEndpoint), _ => (Answer (Some (respond ScriptHandler)), s)
  | HmrServer.ToMux (Some HmrServer.BroadcastEndpoint), Some h =>
      match HmrServer.broadcastHandler decode (method r) body with
      | (ops, None) => (Answer (Some (respond ops)), s)
      | (ops, Some ev) =>
          match Broadcast ev now now' h with
          | Next h' _ => (Answer (Some (respond ops)), (<[hub := h']> hubs, w))
          | _ => (Answer None, s)
          end
      end
  | _, _ => (Refusal, s)
  end.
End Handler.

(** * Lemmas *)

(** The same message as each of the two programs declares it. *)
Definition mirror (m : DevLoop.broadcastMessage) : HmrServer.broadcastMessage :=
  HmrServer.mkMessage (DevLoop.Kind m) (DevLoop.Target m) (DevLoop.Payload m) (DevLoop.Source m) (DevLoop.Route m).
(** The event that it becomes. *)
Definition event_of (bid : string) (now : time) (m : DevLoop.broadcastMessage) : Event :=
  stamp bid (MkEvent (DevLoop.Kind m) (DevLoop.Target m) (DevLoop.Payload m) (DevLoop.Source m) (DevLoop.Route m) 0 0 "" 0) now.
(** What a change of a source does to a tab: [html] is what the fetch of its route yields. *)
Definition wanted (source : string) (html : option string) (pathname : string) (found : string → bool) : action :=
  match routeForView source, html with
  | Some route, Some html =>
      if String.eqb route pathname && found "#fgoths-content" then Swap "#fgoths-content" html else Ignore
  | _, _ => Reload
  end.

Lemma notify_fetched source response :
  DevLoop.notify source (DevMain.fetched response)
  = match routeForView source, DevMain.fetched response ≫= extractFragment with
    | Some route, Some html => DevLoop.fragment_message route html source
    | _, _ => DevLoop.reload_message source
    end.
Proof.
  unfold DevLoop.notify. destruct (routeForView source) as [route|]; [|done]. destruct (DevMain.fetched response) as [body|]; [|done].
  cbn. by destruct (extractFragment body).
Qed.
Lemma route_not_empty source route : routeForView source = Some route → route ≠ "".
Proof.
  unfold routeForView. destruct (_ || _); [done|]. cbv zeta. destruct (_ || _); [done|].
  destruct (String.eqb _ "index"); intros [= <-]; done.
Qed.
Lemma notify_kind source reply : DevLoop.Kind (DevLoop.notify source reply) ≠ "".
Proof.
  unfold DevLoop.notify. destruct (routeForView source); [|done]. destruct reply as [body|]; [|done]. by destruct (extractFragment body).
Qed.
Lemma dispatch_notify bid now source response pathname found :
  dispatch pathname found (event_of bid now (DevLoop.notify source (DevMain.fetched response)))
  = wanted source (DevMain.fetched response ≫= extractFragment) pathname found.
Proof.
  rewrite notify_fetched. unfold wanted. destruct (routeForView source) as [route|] eqn:Er; [|done].
  destruct (DevMain.fetched response ≫= extractFragment) as [html|]; [|done]. apply route_not_empty in Er.
  unfold dispatch, event_of, stamp. cbn [ev_major ev_minor Kind Target Route Payload DevLoop.fragment_message DevLoop.Kind DevLoop.Target
    DevLoop.Route DevLoop.Payload].
  change (negb (SchemaMajor =? SchemaMajor)%Z || (SchemaMinor <? SchemaMinor)%Z) with false. cbv beta iota.
  change (String.eqb "fragment" "reload") with false. change (String.eqb "fragment" "fragment") with true.
  change (String.eqb "#fgoths-content" "") with false. rewrite (proj2 (String.eqb_neq route "")) by done. cbn [negb orb andb].
  destruct (String.eqb route pathname); cbn [negb andb]; [|done]. by destruct (found "#fgoths-content").
Qed.

(** * Properties *)

(** A server has one hub, made once: asked again, with any environment, it is the same, and no other server's changes. *)
Theorem one_hub env ms env' ms' s hubs hub hubs' : HMRHub env ms (Some s) hubs = (hub, hubs') →
  hub = Some s ∧ is_Some (hubs' !! s) ∧ (∀ x, x ≠ s → hubs' !! x = hubs !! x) ∧ HMRHub env' ms' (Some s) hubs' = (hub, hubs').
Proof.
  unfold HMRHub. destruct (hubs !! s) as [h|] eqn:E; intros [= <- <-].
  - rewrite E. split_and!; [done|by eexists|done|done].
  - rewrite lookup_insert_eq. split_and!; [done|by eexists| |done]. intros x Hx. by rewrite lookup_insert_ne.
Qed.

Lemma broadcast_next bid h ev now now' : hub_ok bid h → ∃ h', Broadcast ev now now' h = Next h' ().
Proof.
  intros Hok. pose proof (step_ok bid h Hok (LBroadcast ev now now')) as Hs. cbn [step] in Hs.
  destruct (Broadcast ev now now' h) as [| |h' []] eqn:E; [|done|by exists h'].
  unfold Broadcast in E. by destruct (send_all _ _ _).
Qed.

Lemma broadcast_time ev now now' h h' : Broadcast ev now now' h = Next h' () → lastAt h' = now'.
Proof. unfold Broadcast. destruct (send_all _ _ _); [|done]. by intros [= <-]. Qed.
Lemma register_replay ch now h h2 ev : last h = Some ev → (time_sub now (lastAt h) < replayWindow)%Z →
  Subscribe_register ch now h = Next h2 () → pending h2 !! ch = Some ev.
Proof.
  unfold Subscribe_register. destruct (decide _); [|done]. intros -> Hnow. cbn [mbind option_bind].
  destruct (Z.ltb_spec (time_sub now (lastAt h)) replayWindow); [|lia]. intros [= <-]. apply lookup_insert_eq.
Qed.

(** C37 : An edit of a view changes exactly the tabs that show it; any other edit reloads every tab.  After any history of
    the hub, the message that the watcher posts for a source is answered 202 and put, stamped, behind what each
    connected tab has yet to take (unless eight events wait there), and a tab that connects within two seconds is owed
    it.  The script then swaps the content element of the tabs at the route of the view for the fragment that was
    fetched, and leaves the others; where the source is no view, or no fragment could be fetched, it reloads. *)
Theorem edit_reaches_tabs json_meta ClientScript marshal decode lower_table detect {W : Type} bid t h got hub hubs (w : W)
    (inner : inner_handler) source response url body r now now' :
  run t (NewHub bid) = Some (h, got) → hubs !! hub = Some h →
  let m := DevLoop.notify source (DevMain.fetched response) in
  marshal m = Ok body → decode body = Ok (mirror m) → method r = "POST" → url_path r = "/hmr/broadcast" →
  let ev := event_of bid now m in
  ∃ h', DevMain.postBroadcast marshal url m = Some (url +:+ "/hmr/broadcast", body)
    ∧ WithHMR json_meta ClientScript decode lower_table detect hub inner r body now now' (hubs, w)
      = (Answer (Some (respond [OpWriteHeader 202])), (<[hub := h']> hubs, w))
    ∧ (∀ ch, ch ∈ clients h → ∃ c, chans h !! ch = Some c
        ∧ chans h' !! ch = Some (if length (buf c) <? 8 then MkChan (buf c ++ [ev]) false else c))
    ∧ (∀ ch now2 h2, Subscribe_register ch now2 h' = Next h2 () → (time_sub now2 now' < replayWindow)%Z → pending h2 !! ch = Some ev)
    ∧ ∀ pathname found, dispatch pathname found ev = wanted source (DevMain.fetched response ≫= extractFragment) pathname found.
Proof.
  intros Hrun Hh m Hm Hd Hmeth Hpath ev. destruct (run_ok bid _ _ _ _ (NewHub_ok bid) Hrun) as [Hok _].
  set (e0 := MkEvent (DevLoop.Kind m) (DevLoop.Target m) (DevLoop.Payload m) (DevLoop.Source m) (DevLoop.Route m) 0 0 "" 0).
  destruct (broadcast_next bid h e0 now now' Hok) as [h' Eb]. pose proof (broadcast_inv _ _ _ _ _ Eb) as (Hc & Hl & Hb & Hp & Hch).
  rewrite (ok_build _ _ Hok) in Hl, Hch. exists h'. split_and!.
  - unfold DevMain.postBroadcast. by rewrite Hm.
  - unfold WithHMR. rewrite Hmeth, Hpath. change (HmrServer.hmr_route "POST" "/hmr/broadcast") with (HmrServer.ToMux (Some HmrServer.BroadcastEndpoint)).
    cbv iota. rewrite Hh. unfold HmrServer.broadcastHandler. cbn [String.eqb Ascii.eqb Bool.eqb negb]. rewrite Hd.
    assert (String.eqb (HmrServer.Kind (mirror m)) "" = false) as ->.
    { apply String.eqb_neq. apply notify_kind. }
    change (MkEvent _ _ _ _ _ 0 0 "" 0) with e0. by rewrite Eb.
  - intros ch Hin. destruct (ok_clients _ _ Hok ch Hin) as [c Hcc]. exists c. split; [done|].
    rewrite Hch, decide_True, Hcc by done. reflexivity.
  - intros ch now2 h2 Hreg Hnow. apply (register_replay ch now2 h' h2); [done|by rewrite (broadcast_time _ _ _ _ _ Eb)|done].
  - intros. apply dispatch_notify.
Qed.

(** ** A tab at the home page, one elsewhere, and an edit of the home page *)

Definition tab : list label := [LRegister 0 100].
Definition tab_hub : Hub := match run tab (NewHub "dev-1") with Some (h, _) => h | None => NewHub "" end.
Definition home_reply : result (Z * result string) := Ok (200%Z, Ok (page "<p>new</p>")).
Definition home_message : DevLoop.broadcastMessage := DevLoop.notify "views/index.templ" (DevMain.fetched home_reply).
Definition post_request : request := Request "POST" "" "" "/hmr/broadcast" "" ∅ "" ∅ None.
Lemma edit_reaches_tabs_witness :
  let ev := event_of "dev-1" 200 home_message in
  ∃ h', WithHMR (W:=nat) (λ b _ _, b) "" (λ _, Ok (mirror home_message)) id id 0 (λ _ w, ([], w)) post_request "{}" 200 201 ({[ 0 := tab_hub ]}, 0)
    = (Answer (Some (respond [OpWriteHeader 202])), ({[ 0 := h' ]}, 0))
  ∧ chans h' !! 0 = Some (MkChan [ev] false)
  ∧ dispatch "/" (λ _, true) ev = Swap "#fgoths-content" "<p>new</p>" ∧ dispatch "/about" (λ _, true) ev = Ignore.
Proof.
  destruct (edit_reaches_tabs (λ b _ _, b) "" (λ _, Ok "{}") (λ _, Ok (mirror home_message)) id id "dev-1" tab tab_hub [] 0 {[ 0 := tab_hub ]} 0
    (λ _ w, ([], w)) "views/index.templ" home_reply "http://localhost:8080" "{}" post_request 200 201) as (h' & _ & Hw & Hc & _ & Hd).
  - vm_compute. reflexivity.
  - reflexivity.
  - reflexivity.
  - reflexivity.
  - reflexivity.
  - reflexivity.
  - exists h'. split_and!.
    + etransitivity; [exact Hw|]. by rewrite insert_singleton.
    + destruct (Hc 0) as (c & Ec & Hc'); [vm_compute; set_solver|]. vm_compute in Ec. injection Ec as <-. exact Hc'.
    + etransitivity; [exact (Hd "/" (λ _, true))|]. vm_compute. reflexivity.
    + etransitivity; [exact (Hd "/about" (λ _, true))|]. vm_compute. reflexivity.
Defined.
