(* ===== verification/SyncTemplates.v ===== *)
(** * Keeping the templates in step with the runtime

    Models src/internal/cli/sync_templates.go over the file system of [Os]: the
    command copies each managed source of pkg/runtime into its template, or, with
    --check, reports whether it would have to. *)

From stdpp Require Import sorting.
From S2P Require Import Prelude GoStrings Os ProjectFs Generator.

Definition runtimeSyncFiles : list (string * string) := [
  ("router.go", "base/pkg/runtime/router.go.tpl");
  ("server.go", "base/pkg/runtime/server.go.tpl");
  ("proxy.go", "base/pkg/runtime/proxy.go.tpl");
  ("requestid.go", "base/pkg/runtime/requestid.go.tpl");
  ("metrics.go", "base/pkg/runtime/metrics.go.tpl");
  ("health.go", "base/pkg/runtime/health.go.tpl");
  ("hmr/hmr.go", "base/pkg/runtime/hmr/hmr.go.tpl");
  ("hmr/client.go", "base/pkg/runtime/hmr/client.go.tpl");
  ("hmr/codec.go", "base/pkg/runtime/hmr/codec.go.tpl");
  ("auth.go", "features/jwt-auth/pkg/runtime/auth.go.tpl");
  ("otel.go", "features/otel/pkg/runtime/otel.go.tpl");
  ("tls.go", "features/mtls/pkg/runtime/tls.go.tpl");
  ("identity.go", "features/mtls/pkg/runtime/identity.go.tpl")].
Definition runtimeSourceDir : string := "pkg/runtime".
Definition templateDestDir : string := "internal/generator/templates".
Definition sync_names : list string := sort_strings runtimeSyncFiles.*1.
Definition template_of (name : string) : string := default "" ((list_to_map runtimeSyncFiles : gmap string string) !! name).

Section Sync.
Context (root : string).
Definition src_path (name : string) : string := filepath_Join [root; runtimeSourceDir; name].
Definition dst_path (name : string) : string := filepath_Join [root; templateDestDir; template_of name].

(** Whether any file drifted so far, with the error that ends the loop. *)
Fixpoint sync_loop (checkOnly : bool) (names : list string) (drifted : bool) (fs : filesystem)
    : filesystem * (bool * option error) :=
  match names with
  | [] => (fs, (drifted, None))
  | name :: names =>
      let srcPath := src_path name in
      let dstPath := dst_path name in
      match read_file fs srcPath with
      | (fs, Err e) => (fs, (drifted, Some ("read " +:+ srcPath +:+ ": " +:+ e)))
      | (fs, Ok None) => (fs, (drifted, Some ("read " +:+ srcPath +:+ ": no such file or directory")))
      | (fs, Ok (Some src)) =>
          if contains src "{{" then
            (fs, (drifted, Some (srcPath +:+ " contains Go template directives and cannot be synced verbatim")))
          else
            match read_file fs dstPath with
            | (fs, Err e) => (fs, (drifted, Some ("read " +:+ dstPath +:+ ": " +:+ e)))
            | (fs, Ok dst) =>
                if String.eqb src (default "" dst) then sync_loop checkOnly names drifted fs
                else if checkOnly then sync_loop checkOnly names true fs
                else match write_file fs dstPath src with
                     | (fs, Some e) => (fs, (true, Some ("write " +:+ dstPath +:+ ": " +:+ e)))
                     | (fs, None) => sync_loop checkOnly names true fs
                     end
            end
      end
  end.
Definition syncRuntimeTemplates (checkOnly : bool) (fs : filesystem) : filesystem * (bool * option error) :=
  sync_loop checkOnly sync_names false fs.
(** The exit code. *)
Definition RunSyncTemplates (args : list string) (fs : filesystem) : filesystem * Z :=
  let checkOnly := existsb (String.eqb "--check") args in
  match syncRuntimeTemplates checkOnly fs with
  | (fs, (_, Some _)) => (fs, 1%Z)
  | (fs, (drifted, None)) => (fs, if checkOnly && drifted then 1%Z else 0%Z)
  end.

(** ** What it does *)

Definition in_step (fs : gmap string string) (name : string) : bool :=
  String.eqb (default "" (fs !! src_path name)) (default "" (fs !! dst_path name)).
Definition sources_ok (fs : gmap string string) (names : list string) : Prop :=
  ∀ n, n ∈ names → ∃ s, fs !! src_path n = Some s ∧ contains s "{{" = false.
(** No template is a source, and no two are the same file. *)
Definition apart (names : list string) : Prop :=
  (∀ n m, n ∈ names → m ∈ names → src_path n ≠ dst_path m) ∧ (∀ n m, n ∈ names → m ∈ names → dst_path n = dst_path m → n = m).

Lemma read_file_files fs p : files (read_file fs p).1 = files fs.
Proof using. unfold read_file, next_io. destruct (plan fs) as [|o more]; cbn; [done|]. by destruct (io_error o). Qed.
Lemma check_files names drifted fs : files (sync_loop true names drifted fs).1 = files fs.
Proof using.
  revert drifted fs. induction names as [|n names IH]; intros drifted fs; cbn [sync_loop]; [done|].
  pose proof (read_file_files fs (src_path n)) as H1. destruct (read_file fs (src_path n)) as [fs1 [[src|]|e]]; cbn in *; try done.
  destruct (contains src "{{"); [done|].
  pose proof (read_file_files fs1 (dst_path n)) as H2. destruct (read_file fs1 (dst_path n)) as [fs2 [dst|e]]; cbn in *; [|congruence].
  destruct (String.eqb _ _); rewrite IH; congruence.
Qed.
(** The loop, when no call fails. *)
Lemma loop_quiet checkOnly names drifted fs :
  quiet fs → sources_ok (files fs) names → apart names → NoDup names →
  ∃ fs', sync_loop checkOnly names drifted fs = (fs', (drifted || existsb (λ n, negb (in_step (files fs) n)) names, None))
    ∧ quiet fs' ∧ (checkOnly = true → files fs' = files fs)
    ∧ (checkOnly = false → ∀ n, n ∈ names → in_step (files fs') n = true)
    ∧ ∀ p, (∀ n, n ∈ names → p ≠ dst_path n) → files fs' !! p = files fs !! p.
Proof using.
  revert drifted fs. induction names as [|n names IH]; intros drifted fs Hq Hs Ha Hn; cbn [sync_loop existsb].
  { exists fs. rewrite orb_false_r. split_and!; [done..|by intros _ n ?%elem_of_nil|done]. }
  apply NoDup_cons in Hn as [Hnin Hn].
  assert (apart names) as Ha' by (split; intros; apply Ha; by (right || done)).
  assert (∀ m, m ∈ names → src_path n ≠ dst_path m ∧ dst_path n ≠ dst_path m) as Hsep.
  { intros m Hm. split; [apply Ha; [left|by right]|]. intros Hd. apply Ha in Hd as ->; [done|left|by right]. }
  destruct (Hs n) as (src & Hsrc & Hplain); [left|].
  destruct (read_file_quiet fs (src_path n) Hq) as (fs1 & -> & Hq1 & Hf1). rewrite Hsrc, Hplain.
  destruct (read_file_quiet fs1 (dst_path n) Hq1) as (fs2 & -> & Hq2 & Hf2). rewrite Hf1 in Hf2 |- *.
  assert (in_step (files fs) n = String.eqb src (default "" (files fs !! dst_path n))) as Hi by (unfold in_step; by rewrite Hsrc).
  rewrite Hi. rewrite <- Hf2 in Hs.
  assert (sources_ok (files fs2) names) as Hs' by (intros m Hm; apply Hs; by right).
  destruct (String.eqb_spec src (default "" (files fs !! dst_path n))) as [E|E]; cbn [negb orb].
  - destruct (IH drifted fs2) as (fs' & -> & Hq' & Hc & Hi' & Ho); [done..|]. rewrite Hf2 in *. exists fs'. split_and!; try done.
    + intros Hck m [->|Hm]%elem_of_cons; [|by apply Hi']. unfold in_step.
      rewrite !Ho, Hsrc by (intros m Hm; by apply Hsep).
      by apply String.eqb_eq.
    + intros p Hp. apply Ho. intros m Hm. apply Hp. by right.
  - rewrite orb_true_r. destruct checkOnly.
    + destruct (IH true fs2) as (fs' & -> & Hq' & Hc & Hi' & Ho); [done..|]. rewrite Hf2 in *. exists fs'. split_and!; try done.
      intros p Hp. apply Ho. intros m Hm. apply Hp. by right.
    + destruct (write_file_quiet fs2 (dst_path n) src Hq2) as (fs3 & -> & Hq3 & Hf3).
      assert (∀ m, m ∈ n :: names → files fs3 !! src_path m = files fs !! src_path m) as Hsrcs.
      { intros m Hm. rewrite Hf3, Hf2, lookup_insert_ne; [done|]. intros Hd. symmetry in Hd. revert Hd. apply Ha; [done|left]. }
      assert (∀ m, m ∈ names → files fs3 !! dst_path m = files fs !! dst_path m) as Hdsts.
      { intros m Hm. rewrite Hf3, Hf2, lookup_insert_ne; [done|]. intros Hd. apply Ha in Hd as ->; [done|left|by right]. }
      destruct (IH true fs3) as (fs' & -> & Hq' & Hc & Hi' & Ho); [done| |done..|].
      { intros m Hm. rewrite Hsrcs by by right. rewrite <- Hf2. by apply Hs'. }
      assert (existsb (λ m, negb (in_step (files fs3) m)) names = existsb (λ m, negb (in_step (files fs) m)) names) as ->.
      { apply eq_true_iff_eq. rewrite !existsb_true_iff. unfold in_step.
        split; intros (m & Hm & H); exists m; (split; [done|]); (rewrite Hsrcs, Hdsts in H by by (right || done)) ||
          (rewrite Hsrcs, Hdsts by by (right || done)); done. }
      exists fs'. split_and!; try done.
      * intros _ m [->|Hm]%elem_of_cons; [|by apply Hi']. unfold in_step.
        rewrite !Ho by (intros m Hm; by apply Hsep).
        rewrite Hsrcs by left. rewrite Hsrc, Hf3, lookup_insert_eq. apply String.eqb_refl.
      * intros p Hp. rewrite Ho, Hf3, Hf2, lookup_insert_ne; [done| |]; [intros <-; apply (Hp n); [left|done]|].
        intros m Hm. apply Hp. by right.
Qed.
End Sync.

Lemma sync_names_nodup : NoDup sync_names.
Proof. apply (bool_decide_unpack (NoDup sync_names)). vm_compute. exact I. Qed.
(** Every managed source is paired with the template the generator reads it back from. *)
Lemma managed_sources_synced :
  managedRuntimeTemplates = (λ '(s, t), (runtimeSourceDir +:+ "/" +:+ s, "templates/" +:+ t)) <$> runtimeSyncFiles.
Proof. reflexivity. Qed.
Lemma all_unless_any {A} (f : A → bool) l : (if existsb (λ x, negb (f x)) l then 1%Z else 0%Z) = if forallb f l then 0%Z else 1%Z.
Proof. induction l as [|x l IH]; cbn; [done|]. by destruct (f x). Qed.
Lemma check_run root fs :
  quiet fs → apart root sync_names → sources_ok root (files fs) sync_names →
  RunSyncTemplates root ["--check"] fs =
    ((RunSyncTemplates root ["--check"] fs).1, if forallb (in_step root (files fs)) sync_names then 0%Z else 1%Z).
Proof.
  intros Hq Ha Hs. destruct (loop_quiet root true sync_names false fs) as (fs1 & E & _ & _); [done..|apply sync_names_nodup|].
  unfold RunSyncTemplates, syncRuntimeTemplates.
  change (existsb (String.eqb "--check") ["--check"]) with true.
  rewrite E. cbn [orb andb fst]. by rewrite all_unless_any.
Qed.
Lemma check_run_files root fs : files (RunSyncTemplates root ["--check"] fs).1 = files fs.
Proof.
  unfold RunSyncTemplates, syncRuntimeTemplates. change (existsb (String.eqb "--check") ["--check"]) with true.
  pose proof (check_files root sync_names false fs) as H.
  by destruct (sync_loop root true sync_names false fs) as [fs1 [d [e|]]].
Qed.

(** A check writes nothing, whatever calls fail. With the sources
    readable and free of directives and no call failing, the check exits with 0
    exactly when every template is in step with its source; a sync exits with 0
    and leaves every template in step and every other file as it was, so that a
    check after it exits with 0. *)
Theorem sync_then_check root fs :
  files (RunSyncTemplates root ["--check"] fs).1 = files fs
  ∧ (quiet fs → apart root sync_names → sources_ok root (files fs) sync_names →
     (RunSyncTemplates root ["--check"] fs).2 = (if forallb (in_step root (files fs)) sync_names then 0%Z else 1%Z)
     ∧ ∃ fs1, RunSyncTemplates root [] fs = (fs1, 0%Z)
      ∧ (∀ n, n ∈ sync_names → in_step root (files fs1) n = true)
      ∧ (∀ p, (∀ n, n ∈ sync_names → p ≠ dst_path root n) → files fs1 !! p = files fs !! p)
      ∧ (RunSyncTemplates root ["--check"] fs1).2 = 0%Z).
Proof.
  split; [apply check_run_files|]. intros Hq Ha Hs. split; [by rewrite (check_run root fs)|].
  destruct (loop_quiet root false sync_names false fs) as (fs1 & E & Hq1 & _ & Hi & Ho); [done..|apply sync_names_nodup|].
  specialize (Hi eq_refl). exists fs1. split_and!; [|done..|].
  - unfold RunSyncTemplates, syncRuntimeTemplates. cbn [existsb]. by rewrite E.
  - rewrite check_run; [|done..|].
    + cbn [snd]. assert (forallb (in_step root (files fs1)) sync_names = true) as ->; [|done].
      apply forallb_forall. intros n Hn%list_elem_of_In. by apply Hi.
    + intros n Hn. destruct (Hs n Hn) as (s & H & Hp). exists s. split; [|done]. rewrite Ho; [done|]. intros m Hm. by apply Ha.
Qed.

(** A repository with every source, all but one template in step. *)
Definition demo_repo : filesystem :=
  mkFs (list_to_map ((λ n, (src_path "repo" n, "package runtime // " +:+ n)) <$> sync_names)
        ∪ list_to_map ((λ n, (dst_path "repo" n, "package runtime // " +:+ n)) <$> drop 1 sync_names)) [].
Definition apartb (root : string) (names : list string) : bool :=
  forallb (λ n, forallb (λ m, negb (String.eqb (src_path root n) (dst_path root m))) names) names
  && bool_decide (NoDup (dst_path root <$> names)).
Lemma NoDup_fmap_inj_on {A B} (f : A → B) l : NoDup (f <$> l) → ∀ x y, x ∈ l → y ∈ l → f x = f y → x = y.
Proof.
  induction l as [|a l IH]; cbn; intros Hn x y Hx Hy E; [by apply elem_of_nil in Hx|].
  apply NoDup_cons in Hn as [Ha Hn].
  apply elem_of_cons in Hx as [-> | Hx]; apply elem_of_cons in Hy as [-> | Hy]; [done| | |by apply IH].
  - destruct Ha. rewrite E. by apply list_elem_of_fmap_2.
  - destruct Ha. rewrite <- E. by apply list_elem_of_fmap_2.
Qed.
Lemma apartb_spec root names : apartb root names = true → apart root names.
Proof.
  unfold apartb. rewrite andb_true_iff, forallb_forall, bool_decide_eq_true. intros [H Hn]. split.
  - intros n m Hn' Hm E. apply list_elem_of_In in Hn', Hm. specialize (H n Hn'). rewrite forallb_forall in H.
    specialize (H m Hm). by rewrite E, String.eqb_refl in H.
  - intros n m. by apply NoDup_fmap_inj_on.
Qed.
Definition readable (root : string) (fs : gmap string string) (n : string) : bool :=
  match fs !! src_path root n with Some s => negb (contains s "{{") | None => false end.
Lemma readable_ok root fs names : forallb (readable root fs) names = true → sources_ok root fs names.
Proof.
  rewrite forallb_forall. intros H n Hn%list_elem_of_In. specialize (H n Hn). unfold readable in H.
  destruct (fs !! src_path root n) as [s|]; [|done]. exists s. by destruct (contains s "{{").
Qed.
Lemma sync_then_check_witness :
  (RunSyncTemplates "repo" ["--check"] demo_repo).2 = 1%Z
  ∧ (RunSyncTemplates "repo" [] demo_repo).2 = 0%Z.
Proof.
  destruct (sync_then_check "repo" demo_repo) as [_ H]. destruct H as (Hc & fs1 & Hs & _).
  - constructor.
  - apply apartb_spec. vm_compute. reflexivity.
  - apply readable_ok. vm_compute. reflexivity.
  - split; [rewrite Hc; vm_compute; reflexivity | by rewrite Hs].
Defined.
