(* ===== verification/Migrations.v ===== *)
(** * Database migrations

    Models src/examples/webapp-demo/migrations/migrations.go, which every project
    with a database gets.  [Apply] is a machine whose steps are its calls of the
    database: the query that looks a migration up, and the transaction that runs and
    records it, which a database isolates from the others.  Any number of programs
    may run it at once on one database.  [run_script] is what a script does to the
    rest of the database; it is not supposed to touch the table of migrations or to
    commit. *)

From S2P Require Import Prelude GoStrings.

(** How the calls of a step fare.  A commit may also take effect and report an error. *)
Inductive outcome :=
  | Done
  | CallFails (e : error)
  | BeginFails (e : error)
  | ScriptFails (e : error)
  | RecordFails (e : error)
  | CommitFails (e : error)
  | CommitLost (e : error).

Section Migrations.
Context {D : Type} (run_script : string → D → result D).
(** The embedded files; a directory has no content. *)
Context (files : list (string * option string)).

Record db := mkDb { table : option (list string); data : D }.
Definition recorded (d : db) : list string := default [] (table d).

(** Where a call of [Apply] is: at the first statement, at the head of the loop, at
    the transaction of a migration, or done. *)
Inductive runner :=
  | Creating
  | Next (todo : list string)
  | Transact (name : string) (todo : list string)
  | Returned (r : option error).

Definition sorted_names : list string := sort_strings files.*1.
Definition content (name : string) : option string := mjoin ((list_to_map files : gmap string (option string)) !! name).
Definition skipped (name : string) : bool := bool_decide (content name = None) || String.eqb name "migrations.go".

(** The transaction: begin, script, record, commit. *)
Definition transaction (o : outcome) (name : string) (d : db) : db * option error :=
  let script := default "" (content name) in
  match o with
  | BeginFails e => (d, Some ("begin migration " +:+ name +:+ ": " +:+ e))
  | ScriptFails e => (d, Some ("apply migration " +:+ name +:+ ": " +:+ e))
  | _ =>
      match run_script script (data d) with
      | Err e => (d, Some ("apply migration " +:+ name +:+ ": " +:+ e))
      | Ok data' =>
          let record e := (d, Some ("record migration " +:+ name +:+ ": " +:+ e)) in
          match o, table d with
          | RecordFails e, _ => record e
          | _, None => record "no such table: schema_migrations"
          | _, Some names =>
              if bool_decide (name ∈ names) then record "UNIQUE constraint failed: schema_migrations.name"
              else
                let d' := mkDb (Some (names ++ [name])) data' in
                match o with
                | CommitFails e => (d, Some ("commit migration " +:+ name +:+ ": " +:+ e))
                | CommitLost e => (d', Some ("commit migration " +:+ name +:+ ": " +:+ e))
                | _ => (d', None)
                end
          end
      end
  end.

Definition step (o : outcome) (r : runner) (d : db) : runner * db :=
  match r with
  | Creating =>
      match o with
      | CallFails e => (Returned (Some ("create migration table: " +:+ e)), d)
      | _ => (Next sorted_names, mkDb (Some (recorded d)) (data d))
      end
  | Next [] => (Returned None, d)
  | Next (name :: todo) =>
      if skipped name then (Next todo, d)
      else match o, table d with
           | CallFails e, _ => (Returned (Some ("check migration " +:+ name +:+ ": " +:+ e)), d)
           | _, None => (Returned (Some ("check migration " +:+ name +:+ ": no such table: schema_migrations")), d)
           | _, Some names => (if bool_decide (name ∈ names) then Next todo else Transact name todo, d)
           end
  | Transact name todo =>
      match transaction o name d with
      | (d, Some e) => (Returned (Some e), d)
      | (d, None) => (Next todo, d)
      end
  | Returned _ => (r, d)
  end.

(** Alone, with a list of outcomes, success when it runs out. *)
Fixpoint Apply (fuel : nat) (os : list outcome) (r : runner) (d : db) : runner * db :=
  match fuel with
  | 0 => (r, d)
  | S fuel => let '(r, d) := step (default Done (head os)) r d in Apply fuel (tail os) r d
  end.

(** Several at once: a schedule picks who goes on, and how its calls fare. *)
Record system := mkSystem { runners : list runner; base : db }.
Definition system_step (s : system) (m : nat * outcome) : system :=
  match runners s !! m.1 with
  | None => s
  | Some r => let '(r, d) := step m.2 r (base s) in mkSystem (<[m.1 := r]> (runners s)) d
  end.
Definition system_run : system → list (nat * outcome) → system := foldl system_step.

(** ** What it does *)

Fixpoint replay (names : list string) (x : D) : result D :=
  match names with
  | [] => Ok x
  | n :: names => res_bind (run_script (default "" (content n)) x) (replay names)
  end.
(** The migrations a database still lacks, in order. *)
Definition lacks (before : list string) (name : string) : Prop := skipped name = false ∧ name ∉ before.
#[export] Instance lacks_dec before name : Decision (lacks before name).
Proof using. unfold lacks. apply _. Defined.
Definition pending (before : list string) : list string := filter (lacks before) sorted_names.

(** What is known of a runner when [k] of the pending migrations are in. *)
Definition placed (before : list string) (k : nat) (r : runner) : Prop :=
  match r with
  | Creating | Returned (Some _) => True
  | Next todo => ∃ j, j ≤ k ∧ filter (lacks before) todo = drop j (pending before)
  | Transact n todo => lacks before n ∧ ∃ j, j ≤ k ∧ n :: filter (lacks before) todo = drop j (pending before)
  | Returned None => k = length (pending before)
  end.
Definition holds (before : list string) (x : D) (k : nat) (d : db) : Prop :=
  k ≤ length (pending before) ∧ recorded d = before ++ take k (pending before)
  ∧ replay (take k (pending before)) x = Ok (data d).

Lemma replay_snoc names n x y : replay names x = Ok y → replay (names ++ [n]) x = run_script (default "" (content n)) y.
Proof using.
  revert x. induction names as [|m names IH]; cbn; intros x.
  - intros [= ->]. by destruct (run_script _ y).
  - destruct (run_script (default "" (content m)) x); cbn; [apply IH|done].
Qed.
Lemma placed_mono before k k' r : k ≤ k' → k' ≤ length (pending before) → placed before k r → placed before k' r.
Proof using.
  intros Hk Hk'. destruct r as [|todo|n todo|[e|]]; cbn; [done| | |done|lia].
  - intros (j & ? & ?). exists j. split; [lia|done].
  - intros (? & j & ? & ?). split; [done|]. exists j. split; [lia|done].
Qed.

Hypothesis distinct : NoDup files.*1.
Lemma pending_NoDup before : NoDup (pending before).
Proof using distinct. apply NoDup_filter. unfold sorted_names. by rewrite sort_strings_Permutation. Qed.

(** Where the next pending migration stands. *)
Lemma at_position before k d x j n rest : holds before x k d → j ≤ k → n :: rest = drop j (pending before) →
  pending before !! j = Some n ∧ rest = drop (S j) (pending before) ∧ (lacks before n → (n ∈ recorded d ↔ j < k)).
Proof using distinct.
  intros (Hk & Hr & _) Hj E.
  assert (pending before !! j = Some n) as Hn by (rewrite <- (Nat.add_0_r j), <- lookup_drop, <- E; done).
  split_and!; [done| |].
  - rewrite (drop_S _ _ _ Hn) in E. by injection E.
  - intros [_ Hb]. rewrite Hr, elem_of_app. split.
    + intros [?|Hin]; [done|]. apply list_elem_of_lookup in Hin as [i Hi]. apply lookup_take_Some in Hi as [Hi ?].
      by rewrite (NoDup_lookup _ _ _ _ (pending_NoDup before) Hn Hi).
    + intros Hlt. right. apply list_elem_of_lookup. exists j. by rewrite lookup_take_lt.
Qed.

Lemma step_sound before x k d o r r' d' : holds before x k d → placed before k r → step o r d = (r', d') →
  ∃ k', k ≤ k' ∧ holds before x k' d' ∧ placed before k' r'.
Proof using distinct.
  intros Hh Hp E. destruct r as [|[|n todo]|n todo|r]; cbn [step] in E.
  - exists k. split; [done|]. destruct o; injection E as <- <-; (split; [exact Hh|]); cbn; try done; exists 0; (split; [lia|done]).
  - injection E as <- <-. destruct Hp as (j & Hj & E). exists k. split_and!; [done..|]. cbn in *.
    destruct Hh as (Hk & _). symmetry in E. apply (f_equal length) in E. rewrite length_drop in E. cbn in E. lia.
  - destruct Hp as (j & Hj & E'). cbn [filter list_filter] in E'. cbn in E'. exists k. split; [done|].
    destruct (skipped n) eqn:Es.
    { injection E as <- <-. split; [done|]. rewrite decide_False in E' by (intros [? _]; congruence). by exists j. }
    assert ((r', d') = (Returned (Some (match r' with Returned (Some e) => e | _ => "" end)), d) ∨
            (r', d') = (if bool_decide (n ∈ recorded d) then Next todo else Transact n todo, d)) as [E1|E1].
    { unfold recorded. destruct o, (table d); injection E as <- <-; auto. }
    { injection E1 as -> ->. done. }
    injection E1 as -> ->. split; [done|]. destruct (decide (lacks before n)) as [Hl|Hl].
    + destruct (at_position _ _ _ _ _ _ _ Hh Hj E') as (Hn & Hrest & Hin).
      case_bool_decide as Hb; cbn.
      * exists (S j). apply Hin in Hb; [|done]. split; [lia|done].
      * split; [done|]. by exists j.
    + rewrite bool_decide_true; [by exists j|]. destruct Hh as (_ & -> & _). apply elem_of_app. left.
      destruct (decide (n ∈ before)); [done|]. by destruct Hl.
  - destruct Hp as (Hl & j & Hj & E'). destruct (at_position _ _ _ _ _ _ _ Hh Hj E') as (Hn & Hrest & Hin).
    assert ((∃ e, (r', d') = (Returned (Some e), d)) ∨ ∃ names data', table d = Some names ∧ n ∉ names ∧
       run_script (default "" (content n)) (data d) = Ok data' ∧ d' = mkDb (Some (names ++ [n])) data'
       ∧ (r' = Next todo ∨ ∃ e, r' = Returned (Some e))) as [[e [= -> ->]]|(names & data' & Ht & Hnin & Hs & -> & Hr')].
    { unfold transaction in E. destruct (run_script (default "" (content n)) (data d)) as [data'|e'] eqn:Es.
      - destruct (table d) as [names|] eqn:Et.
        + case_bool_decide as Hb; destruct o; injection E as <- <-; try (left; by eexists); right; exists names, data'; eauto 10.
        + destruct o; injection E as <- <-; left; by eexists.
      - destruct o; injection E as <- <-; left; by eexists. }
    { by exists k. }
    assert (j = k) as ->.
    { destruct (decide (j < k)); [|lia]. exfalso. apply Hnin. unfold recorded in Hin. rewrite Ht in Hin. by apply Hin. }
    destruct Hh as (Hk & Hr & Hd). exists (S k). split_and!; [lia| |].
    + apply lookup_lt_Some in Hn as ?. split_and!; [lia| |].
      * cbn. unfold recorded in Hr. rewrite Ht in Hr. cbn in Hr. by rewrite (take_S_r _ _ _ Hn), Hr, app_assoc.
      * rewrite (take_S_r _ _ _ Hn). cbn. by rewrite (replay_snoc _ _ _ _ Hd).
    + destruct Hr' as [->|[e ->]]; [|done]. exists (S k). split; [lia|done].
  - injection E as <- <-. by exists k.
Qed.

(** Any number of runners, each where it may be. *)
Definition consistent (before : list string) (x : D) (s : system) : Prop :=
  ∃ k, holds before x k (base s) ∧ Forall (placed before k) (runners s).
Lemma system_sound before x sched s : consistent before x s → consistent before x (system_run s sched).
Proof using distinct.
  revert s. induction sched as [|m sched IH]; intros s Hc; [done|]. apply IH. destruct Hc as (k & Hh & Hr).
  unfold system_step. destruct (runners s !! m.1) as [r|] eqn:Er; [|by exists k].
  destruct (step m.2 r (base s)) as [r' d'] eqn:E.
  destruct (step_sound _ _ _ _ _ _ _ _ Hh (Forall_lookup_1 _ _ _ _ Hr Er) E) as (k' & Hk & Hh' & Hp').
  exists k'. split; [done|]. cbn. apply Forall_insert; [|done].
  eapply Forall_impl; [done|]. intros q. destruct Hh' as [? _]. by apply placed_mono.
Qed.
Lemma Apply_sound before x k fuel os r d : holds before x k d → placed before k r →
  ∃ k', holds before x k' (Apply fuel os r d).2 ∧ placed before k' (Apply fuel os r d).1.
Proof using distinct.
  revert k os r d. induction fuel as [|fuel IH]; intros k os r d Hh Hp; cbn [Apply]; [by exists k|].
  destruct (step (default Done (head os)) r d) as [r' d'] eqn:E.
  destruct (step_sound _ _ _ _ _ _ _ _ Hh Hp E) as (k' & _ & Hh' & Hp'). eauto.
Qed.

(** Alone and without failing calls. *)
Lemma lacks_snoc names n (todo : list string) : n ∉ todo → filter (lacks (names ++ [n])) todo = filter (lacks names) todo.
Proof using.
  induction todo as [|m todo IH]; intros Hn; [done|]. apply not_elem_of_cons in Hn as [Hm Hn].
  rewrite !filter_cons, IH by done. apply decide_ext. unfold lacks. rewrite not_elem_of_app, not_elem_of_cons.
  split; [by intros (? & ? & _)|]. intros [? ?]. split_and!; [done..|apply not_elem_of_nil].
Qed.
Lemma Apply_returned fuel os r d : Apply fuel os (Returned r) d = (Returned r, d).
Proof using. revert os. induction fuel; intros os; cbn; auto. Qed.
Lemma loop_complete names todo d y fuel : table d = Some names → NoDup todo →
  replay (filter (lacks names) todo) (data d) = Ok y → 2 * length todo + 1 ≤ fuel →
  Apply fuel [] (Next todo) d = (Returned None, mkDb (Some (names ++ filter (lacks names) todo)) y).
Proof using.
  revert names d fuel. induction todo as [|n todo IH]; intros names d fuel Ht Hn Hy Hf.
  - destruct fuel; [cbn in Hf; lia|]. cbn in *. rewrite Apply_returned, app_nil_r. injection Hy as <-. by destruct d as [t x]; cbn in Ht; subst t.
  - apply NoDup_cons in Hn as [Hin Hn]. destruct fuel as [|fuel]; [cbn in Hf; lia|]. cbn [length] in Hf.
    rewrite filter_cons in Hy |- *. cbn [Apply]. change (step (default Done (head [])) (Next (n :: todo)) d) with
      (if skipped n then (Next todo, d) else match table d with
        | None => (Returned (Some ("check migration " +:+ n +:+ ": no such table: schema_migrations")), d)
        | Some names => (if bool_decide (n ∈ names) then Next todo else Transact n todo, d) end).
    rewrite Ht. destruct (skipped n) eqn:Es.
    { rewrite decide_False in Hy |- * by (intros [? _]; congruence). apply IH; [done..|lia]. }
    case_bool_decide as Hb.
    { rewrite decide_False in Hy |- * by (intros [_ ?]; done). apply IH; [done..|lia]. }
    rewrite decide_True in Hy |- * by done. cbn [replay] in Hy.
    destruct (run_script (default "" (content n)) (data d)) as [x|] eqn:Ex; cbn [res_bind] in Hy; [|done].
    destruct fuel as [|fuel]; [lia|]. cbn [Apply].
    change (step (default Done (head (tail []))) (Transact n todo) d) with
      (match transaction Done n d with (d, Some e) => (Returned (Some e), d) | (d, None) => (Next todo, d) end).
    unfold transaction. rewrite Ex, Ht, bool_decide_false by done.
    rewrite (IH (names ++ [n])); [|done..| |lia].
    + by rewrite lacks_snoc, <- app_assoc by done.
    + by rewrite lacks_snoc by done.
Qed.
Lemma Apply_complete fuel d y : replay (pending (recorded d)) (data d) = Ok y → 2 * length files + 2 ≤ fuel →
  Apply fuel [] Creating d = (Returned None, mkDb (Some (recorded d ++ pending (recorded d))) y).
Proof using distinct.
  intros Hy Hf. destruct fuel as [|fuel]; [lia|]. cbn [Apply step default head].
  unfold pending in *. apply loop_complete; [done| |done|].
  - unfold sorted_names. by rewrite sort_strings_Permutation.
  - assert (length sorted_names = length files) as ->; [|lia].
    unfold sorted_names. rewrite (Permutation_length (sort_strings_Permutation _)). apply length_fmap.
Qed.
Lemma filter_all_elem {A} (P : A → Prop) `{∀ x, Decision (P x)} (l : list A) : (∀ x, x ∈ l → P x) → filter P l = l.
Proof using.
  induction l as [|x l IH]; intros Hl; [done|]. rewrite filter_cons_True by (apply Hl; by left).
  f_equal. apply IH. intros. apply Hl. by right.
Qed.
Lemma pending_after before k : pending (before ++ take k (pending before)) = drop k (pending before).
Proof using distinct.
  pose proof (pending_NoDup before) as Hn. rewrite <- (take_drop k (pending before)) in Hn. apply NoDup_app in Hn as (_ & Hd & _).
  assert (∀ T, pending (before ++ T) = filter (λ n, n ∉ T) (pending before)) as ->.
  { intros T. unfold pending. rewrite list_filter_filter. apply list_filter_iff. intros n. unfold lacks. rewrite not_elem_of_app.
    split; [intros (? & ? & ?)|intros (? & ? & ?)]; auto. }
  transitivity (filter (λ n, n ∉ take k (pending before)) (take k (pending before) ++ drop k (pending before))); [by rewrite take_drop|].
  rewrite filter_app, filter_none by auto. apply filter_all_elem. intros n Hn1 Hn2. by apply (Hd n).
Qed.
Lemma replay_app a b x y : replay a x = Ok y → replay (a ++ b) x = replay b y.
Proof using.
  revert x. induction a as [|n a IH]; cbn; intros x; [by intros [= ->]|].
  destruct (run_script (default "" (content n)) x); cbn; [apply IH|done].
Qed.

(** * Properties *)

(** However many programs migrate one database at once, in whatever order their
    steps interleave and whichever calls fail or commit without saying so: what the
    table records is what it recorded before and a prefix of the migrations that were
    missing, in lexical order, each once; the data is what exactly those scripts make
    of the data before; and a program that reports success leaves none missing. *)
Theorem migrations_once n d sched : let s := system_run (mkSystem (replicate n Creating) d) sched in
  ∃ k, recorded (base s) = recorded d ++ take k (pending (recorded d))
    ∧ replay (take k (pending (recorded d))) (data d) = Ok (data (base s))
    ∧ (Returned None ∈ runners s → recorded (base s) = recorded d ++ pending (recorded d)).
Proof using distinct.
  intros s. destruct (system_sound (recorded d) (data d) sched (mkSystem (replicate n Creating) d)) as (k & (Hk & Hr & Hd) & Hp).
  { exists 0. split; [|by apply Forall_replicate]. unfold holds. cbn. rewrite app_nil_r. split; [lia|done]. }
  fold s in Hr, Hd, Hp. exists k. split_and!; [done..|]. intros Hin.
  rewrite Forall_forall in Hp. specialize (Hp _ Hin). cbn in Hp. by rewrite Hr, Hp, firstn_all.
Qed.

(** Migration completes: when the scripts that are missing succeed and no call
    fails, [Apply] returns without an error, within two steps a file and two more, the
    table extended and the data brought up to date; and it picks up where a failed run
    stopped: after any number of steps with any failures, a run without failures
    reaches that same database, and yet another changes nothing. *)
Theorem migrations_complete d y os steps : let fuel := 2 * length files + 2 in
  replay (pending (recorded d)) (data d) = Ok y →
  let target := mkDb (Some (recorded d ++ pending (recorded d))) y in
  let interrupted := (Apply steps os Creating d).2 in
  Apply fuel [] Creating d = (Returned None, target)
  ∧ Apply fuel [] Creating interrupted = (Returned None, target)
  ∧ Apply fuel [] Creating target = (Returned None, target).
Proof using distinct.
  intros fuel Hy target interrupted. split_and!; [by apply Apply_complete| |].
  - destruct (Apply_sound (recorded d) (data d) 0 steps os Creating d) as (k & (Hk & Hr & Hd) & _); [|done|].
    { unfold holds. cbn. rewrite app_nil_r. split; [lia|done]. }
    fold interrupted in Hr, Hd. rewrite (Apply_complete fuel interrupted y), Hr, pending_after, <- app_assoc, take_drop; [done| |done].
    rewrite Hr, pending_after. by rewrite <- (replay_app _ (drop k (pending (recorded d))) _ _ Hd), take_drop.
  - assert (pending (recorded d ++ pending (recorded d)) = []) as Hnone.
    { pose proof (pending_after (recorded d) (length (pending (recorded d)))) as H.
      by rewrite firstn_all, drop_all in H. }
    rewrite (Apply_complete fuel target y); [cbn; by rewrite Hnone, app_nil_r| |done]. cbn. by rewrite Hnone.
Qed.
End Migrations.

(** Scripts that each add a table, once. *)
Definition demo_script (script : string) (tables : list string) : result (list string) :=
  if bool_decide (script ∈ tables) then Err ("table " +:+ script +:+ " already exists") else Ok (tables ++ [script]).
Definition demo_files : list (string * option string) :=
  [("0002_users.sql", Some "users"); ("archive", None); ("0001_todos.sql", Some "todos")].
Definition demo_db : db := mkDb (D:=list string) (Some ["0000_init.sql"]) ["meta"].
Lemma demo_distinct : NoDup demo_files.*1.
Proof. apply (bool_decide_unpack (NoDup demo_files.*1)). vm_compute. exact I. Qed.
(** Two programs at once: the second finds the first migration recorded under its feet. *)
Definition demo_sched : list (nat * outcome) :=
  [(0, Done); (1, Done); (0, Done); (1, Done); (0, Done); (1, Done); (0, Done); (0, CommitLost "gone")].
Lemma migrations_once_witness :
  NoDup demo_files.*1 ∧ ∃ k, recorded (base (system_run demo_script demo_files (mkSystem (replicate 2 Creating) demo_db) demo_sched))
    = recorded demo_db ++ take k (pending demo_files (recorded demo_db)).
Proof.
  split; [exact demo_distinct|].
  destruct (migrations_once demo_script demo_files demo_distinct 2 demo_db demo_sched) as (k & Hr & _). exists k. exact Hr.
Defined.
Example demo_interleaving :
  recorded (base (system_run demo_script demo_files (mkSystem (replicate 2 Creating) demo_db) demo_sched))
    = ["0000_init.sql"; "0001_todos.sql"; "0002_users.sql"].
Proof. vm_compute. reflexivity. Qed.
Lemma migrations_complete_witness :
  Apply demo_script demo_files 8 [] Creating (Apply demo_script demo_files 4 [Done; Done; Done; CommitLost "gone"] Creating demo_db).2
    = (Returned None, mkDb (Some ["0000_init.sql"; "0001_todos.sql"; "0002_users.sql"]) ["meta"; "todos"; "users"]).
Proof.
  destruct (migrations_complete demo_script demo_files demo_distinct demo_db ["meta"; "todos"; "users"]
    [Done; Done; Done; CommitLost "gone"] 4) as (_ & H & _); [vm_compute; reflexivity|].
  etransitivity; [exact H|]. vm_compute. reflexivity.
Defined.
