(* ===== verification/GenerateWatch.v ===== *)
(** * Generation and its watch mode

    Models src/internal/cli/generate.go: finding and running templ, the directories
    that watch mode watches, the events it reacts to, and its loop, a transition
    system over the timers that debounce the regeneration. *)

From S2P Require Import Prelude GoStrings Unicode ProjectFs Filepath DevFiles.

(** ** Running templ

    [W] is the machine: [look_path], [go_env] ([go env GOPATH]) and [exists_at] read
    it, [run_command] runs a program and waits for it. *)
Section Tool.
Context {W : Type} (look_path : W → string → option string) (go_env : W → option string)
  (exists_at : W → string → bool) (templ_files view_files : W → list string)
  (run_command : W → list string → W * option error).

Definition resolveToolPath (w : W) (toolName : string) : result string :=
  match look_path w toolName with
  | Some path => Ok path
  | None =>
      let missing := Err (toolName +:+ " not found") in
      if String.eqb toolName "templ" then
        match go_env w with
        | Some out =>
            let candidate := filepath_Join [trim_space out; "bin"; toolName] in
            if exists_at w candidate then Ok candidate else missing
        | None => missing
        end
      else missing
  end.
Definition ensureTool (w : W) (toolName installHint : string) : W * option error :=
  if is_ok (resolveToolPath w toolName) then (w, None)
  else if String.eqb toolName "templ" then
    let missing := Some (toolName +:+ " not found; install it with: " +:+ installHint) in
    match look_path w "go" with
    | None => (w, missing)
    | Some _ =>
        match run_command w ["go"; "install"; "github.com/a-h/templ/cmd/templ@latest"] with
        | (w, Some _) => (w, missing)
        | (w, None) => (w, if is_ok (resolveToolPath w toolName) then None else missing)
        end
    end
  else (w, Some (toolName +:+ " not found; install with: " +:+ installHint)).
Definition runTempl (w : W) : W * option error :=
  match resolveToolPath w "templ" with
  | Ok path => run_command w [path; "generate"]
  | Err _ =>
      match look_path w "go" with
      | Some _ => run_command w ["go"; "run"; "github.com/a-h/templ/cmd/templ@latest"; "generate"]
      | None => (w, Some "templ not installed; install with: go install github.com/a-h/templ/cmd/templ@latest")
      end
  end.
(** [Exits] is the end of the program. *)
Inductive generation := Generated (ran : bool) | Exits (e : error).
Definition runGenerateOnce (w : W) : W * generation :=
  if Nat.ltb 0 (length (templ_files w) + length (view_files w)) then
    match ensureTool w "templ" "go install github.com/a-h/templ/cmd/templ@latest" with
    | (w, Some e) => (w, Exits ("templ generate failed: " +:+ e))
    | (w, None) =>
        match runTempl w with
        | (w, Some e) => (w, Exits ("templ generate failed: " +:+ e))
        | (w, None) => (w, Generated true)
        end
    end
  else (w, Generated false).

Lemma resolve_templ w p : resolveToolPath w "templ" = Ok p ↔
  look_path w "templ" = Some p
  ∨ look_path w "templ" = None ∧ ∃ out, go_env w = Some out ∧ p = filepath_Join [trim_space out; "bin"; "templ"] ∧ exists_at w p = true.
Proof using.
  unfold resolveToolPath. cbn. destruct (look_path w "templ") as [q|].
  - split; [intros [= ->]; by left|]. by intros [[= ->]|[? _]].
  - destruct (go_env w) as [out|].
    + destruct (exists_at w _) eqn:E; split.
      * intros [= <-]. right. split; [done|]. by exists out.
      * by intros [?|(_ & ? & [= <-] & -> & _)].
      * done.
      * intros [?|(_ & ? & [= <-] & -> & ?)]; [done|congruence].
    + split; [done|]. by intros [?|(_ & ? & ? & _)].
Qed.
(** A generation that returns has compiled the templates, if there are any, with a
    templ that was there or that it installed; and it runs nothing otherwise. *)
Lemma generate_once_spec w w' ran : runGenerateOnce w = (w', Generated ran) →
  (ran = false ∧ w' = w ∧ templ_files w = [] ∧ view_files w = [])
  ∨ ran = true ∧ ∃ w1 p, resolveToolPath w1 "templ" = Ok p ∧ run_command w1 [p; "generate"] = (w', None)
      ∧ (w1 = w ∨ resolveToolPath w "templ" = Err "templ not found" ∧
         run_command w ["go"; "install"; "github.com/a-h/templ/cmd/templ@latest"] = (w1, None)).
Proof using.
  unfold runGenerateOnce. destruct (templ_files w) as [|f fs], (view_files w) as [|g gs]; cbn [length Nat.add Nat.ltb Nat.leb];
    [intros [= <- <-]; by left|..];
    (intros E; right; unfold ensureTool in E; destruct (resolveToolPath w "templ") as [p|e] eqn:Ep; cbn [is_ok] in E;
     [unfold runTempl in E; rewrite Ep in E; destruct (run_command w [p; "generate"]) as [w1 [e|]] eqn:Er; [done|];
      injection E as <- <-; split; [done|]; exists w, p; auto|];
     assert (e = "templ not found") as -> by (unfold resolveToolPath in Ep; cbn in Ep; go_inv Ep);
     cbn in E; destruct (look_path w "go"); [|done];
     destruct (run_command w _) as [w1 [e|]] eqn:Ei in E; [done|];
     destruct (resolveToolPath w1 "templ") as [p|e] eqn:Ep1; cbn [is_ok] in E; [|done];
     unfold runTempl in E; rewrite Ep1 in E; destruct (run_command w1 [p; "generate"]) as [w2 [e|]] eqn:Er; [done|];
     injection E as <- <-; split; [done|]; exists w1, p; auto).
Qed.
End Tool.

(** ** What is watched *)

Definition skip_segments : list string := [".git"; "bin"; "node_modules"; "vendor"; "dist"; "coverage"; "schemas/generated"].
Definition shouldSkipWatchDir (path : string) : bool :=
  if String.eqb path "" then true
  else
    let clean := Clean path in
    existsb (λ segment, String.eqb clean segment || has_suffix clean ("/" +:+ segment)
                        || contains clean ("/" +:+ segment +:+ "/")) skip_segments.
Definition ignore_segments : list string := ["bin"; "node_modules"; "vendor"; "dist"; "coverage"; "schemas/generated"].
Definition isIgnoredWatchPath (path : string) : bool :=
  if String.eqb path "" then true
  else
    let clean := Clean path in
    has_prefix clean ".git/" || String.eqb clean ".git"
    || existsb (λ segment, String.eqb clean segment || has_prefix clean (segment +:+ "/")
                           || contains clean ("/" +:+ segment +:+ "/")) ignore_segments.

(** The bits of [fsnotify.Op]. *)
Definition Create : Z := 1.
Definition Write : Z := 2.
Definition Remove : Z := 4.
Definition Rename : Z := 8.
Definition watch_exts : list string :=
  [".go"; ".templ"; ".fbs"; ".css"; ".js"; ".ts"; ".tsx"; ".html"; ".yaml"; ".yml"; ".json"; ".sql"; ".md"; ".txt"].
Section Handle.
Context (lower_table : Z → Z) (is_dir_now : string → bool).
Definition shouldHandleWatchEvent (path : string) (op : Z) : bool :=
  if String.eqb path "" || (op =? 0)%Z then false
  else if isIgnoredWatchPath path then false
  else if (Z.land op (Z.lor (Z.lor (Z.lor Write Create) Rename) Remove) =? 0)%Z then false
  else
    let clean := Clean path in
    if has_suffix clean ".swp" || has_suffix clean ".tmp" || has_suffix clean "~" then false
    else if is_dir_now clean then true
    else if in_set watch_exts (ToLower lower_table (Ext clean)) then true
    else has_suffix clean "/go.mod" || has_suffix clean "/Makefile" || has_suffix clean "/Dockerfile".
End Handle.

(** The walk of [setupGenerateWatcher] below the directory at the components [rel];
    [add] is the answer of the watcher, and an error of it ends the walk. *)
Section Setup.
Context (add : string → option error).
Definition shown_path (rel : list string) : string := match rel with [] => "." | _ => join rel "/" end.
Fixpoint all_ok (rs : list (result (list string))) : result (list string) :=
  match rs with
  | [] => Ok []
  | r :: rs => res_bind r (λ l, res_bind (all_ok rs) (λ l', Ok (l ++ l')))
  end.
Fixpoint watch_walk (rel : list string) (e : entry) : result (list string) :=
  match e with
  | EFile _ => Ok []
  | EDir children =>
      if shouldSkipWatchDir (shown_path rel) then Ok []
      else match add (shown_path rel) with
           | Some err => Err err
           | None => res_bind (all_ok ((λ c, watch_walk (rel ++ [c.1]) c.2) <$> children)) (λ l, Ok (shown_path rel :: l))
           end
  end.
(** The directories watched from the start. *)
Definition setupGenerateWatcher (root : entry) : result (list string) :=
  match watch_walk [] root with
  | Err e => Err ("watch setup failed: " +:+ e)
  | Ok dirs => Ok dirs
  end.
End Setup.

(** ** Names and segments *)

Definition segments (names : list string) : list (list string) := (λ s, split s "/") <$> names.
Lemma contains_spec s sub : contains s sub = true ↔ ∃ u v, s = u +:+ sub +:+ v.
Proof.
  split.
  - intros [i Hi]%contains_index. apply index_Some in Hi as [_ ->]. eauto.
  - intros (u & v & ->). apply contains_app.
Qed.
Section Comps.
Context (l : list string) (Hl : Forall name_component l) (Hne : l ≠ []).
Let clean := join l "/".
Lemma comps_split : split clean "/" = l.
Proof using Hl Hne. apply split_join; [done|]. intros x Hx. rewrite Forall_forall in Hl. by apply Hl. Qed.
Lemma eq_comps seg : String.eqb clean seg = true ↔ l = split seg "/".
Proof using Hl Hne.
  rewrite String.eqb_eq. split; [intros <-; by rewrite comps_split|]. intros E. unfold clean. rewrite E. apply join_split.
Qed.
Lemma suffix_comps seg : has_suffix clean ("/" +:+ seg) = true ↔ ∃ a, a ≠ [] ∧ l = a ++ split seg "/".
Proof using Hl Hne.
  rewrite has_suffix_spec. split.
  - intros [u E]. exists (split u "/"). split; [apply split_not_nil|].
    rewrite <- comps_split, E. apply split_app.
  - intros (a & Ha & E). exists (join a "/"). unfold clean. rewrite E, join_app, join_split; [done..|apply split_not_nil].
Qed.
Lemma prefix_comps seg : has_prefix clean (seg +:+ "/") = true ↔ ∃ b, b ≠ [] ∧ l = split seg "/" ++ b.
Proof using Hl Hne.
  rewrite has_prefix_spec. split.
  - intros [u E]. exists (split u "/"). split; [apply split_not_nil|].
    rewrite <- comps_split, E, <- str_app_assoc. apply split_app.
  - intros (b & Hb & E). exists (join b "/"). unfold clean.
    rewrite E, join_app, join_split, str_app_assoc; [done|apply split_not_nil|done].
Qed.
Lemma contains_comps seg : contains clean ("/" +:+ seg +:+ "/") = true ↔ ∃ a b, a ≠ [] ∧ b ≠ [] ∧ l = a ++ split seg "/" ++ b.
Proof using Hl Hne.
  rewrite contains_spec. split.
  - intros (u & v & E). exists (split u "/"), (split v "/"). split_and!; [apply split_not_nil..|].
    rewrite <- comps_split, E. rewrite <- str_app_assoc. change (u +:+ ("/" +:+ ((seg +:+ "/") +:+ v))) with (u +:+ String "/" ((seg +:+ "/") +:+ v)).
    rewrite split_app, <- (str_app_assoc seg). f_equal. apply split_app.
  - intros (a & b & Ha & Hb & E). exists (join a "/"), (join b "/"). unfold clean.
    rewrite E, !join_app, join_split, !str_app_assoc; [done|apply split_not_nil|done..|].
    intros [? _]%app_nil. by apply (split_not_nil seg "/").
Qed.
End Comps.
Lemma join_not_empty l : Forall name_component l → l ≠ [] → join l "/" ≠ "".
Proof.
  intros Hl Hne E. pose proof (comps_split l Hl Hne) as H. rewrite E in H. subst l.
  apply Forall_cons in Hl as [(Hc & _) _]. by apply Hc.
Qed.
Lemma comps_cases l seg : Forall name_component l → l ≠ [] →
  (String.eqb (join l "/") seg || has_suffix (join l "/") ("/" +:+ seg) || contains (join l "/") ("/" +:+ seg +:+ "/") = true
     ↔ ∃ a b, l = a ++ split seg "/" ++ b ∧ (a ≠ [] ∨ b = []))
  ∧ (String.eqb (join l "/") seg || has_prefix (join l "/") (seg +:+ "/") || contains (join l "/") ("/" +:+ seg +:+ "/") = true
     ↔ ∃ a b, l = a ++ split seg "/" ++ b ∧ (a = [] ∨ b ≠ [])).
Proof.
  intros Hl Hne. rewrite !orb_true_iff, eq_comps, suffix_comps, prefix_comps, contains_comps by done. split; split.
  - intros [[E|(a & Ha & E)]|(a & b & Ha & Hb & E)].
    + exists [], []. rewrite app_nil_r. auto.
    + exists a, []. rewrite app_nil_r. auto.
    + exists a, b. auto.
  - intros (a & b & E & Hor). destruct a as [|x a].
    + destruct Hor as [| ->]; [done|]. rewrite app_nil_r in E. auto.
    + destruct b as [|y b]; [rewrite app_nil_r in E; left; right; by exists (x :: a)|right; by exists (x :: a), (y :: b)].
  - intros [[E|(b & Hb & E)]|(a & b & Ha & Hb & E)].
    + exists [], []. rewrite app_nil_r. auto.
    + exists [], b. auto.
    + exists a, b. auto.
  - intros (a & b & E & Hor). destruct a as [|x a].
    + destruct b as [|y b]; [rewrite app_nil_r in E; auto|]. left; right. by exists (y :: b).
    + destruct Hor as [|Hb]; [done|]. right. by exists (x :: a), b.
Qed.
Lemma skip_comps l : Forall name_component l → l ≠ [] →
  shouldSkipWatchDir (join l "/") = true ↔ ∃ sl a b, sl ∈ segments skip_segments ∧ l = a ++ sl ++ b ∧ (a ≠ [] ∨ b = []).
Proof.
  intros Hl Hne. unfold shouldSkipWatchDir. rewrite (proj2 (String.eqb_neq _ _)) by by apply join_not_empty.
  rewrite Clean_join, existsb_true_iff by done. split.
  - intros (seg & Hs & (a & b & E & H)%comps_cases); [|done..]. exists (split seg "/"), a, b. split_and!; [|done..].
    apply list_elem_of_fmap. by exists seg.
  - intros (? & a & b & (seg & -> & Hs)%list_elem_of_fmap & E & H). exists seg. split; [done|]. apply comps_cases; [done..|]. by exists a, b.
Qed.
Lemma ignored_comps l : Forall name_component l → l ≠ [] →
  isIgnoredWatchPath (join l "/") = true ↔ head l = Some ".git" ∨ ∃ sl a b, sl ∈ segments ignore_segments ∧ l = a ++ sl ++ b ∧ (a = [] ∨ b ≠ []).
Proof.
  intros Hl Hne. unfold isIgnoredWatchPath. rewrite (proj2 (String.eqb_neq _ _)) by by apply join_not_empty.
  rewrite Clean_join, !orb_true_iff, existsb_true_iff by done. apply Morphisms_Prop.or_iff_morphism.
  - change (".git/") with (".git" +:+ "/"). rewrite prefix_comps, eq_comps by done. cbn. split.
    + intros [(b & _ & ->)| ->]; done.
    + destruct l as [|x [|y l]]; intros [= ->]; [by right|left; by exists (y :: l)].
  - split.
    + intros (seg & Hs & (a & b & E & H)%comps_cases); [|done..]. exists (split seg "/"), a, b. split_and!; [|done..].
      apply list_elem_of_fmap. by exists seg.
    + intros (? & a & b & (seg & -> & Hs)%list_elem_of_fmap & E & H). exists seg. split; [done|]. apply comps_cases; [done..|]. by exists a, b.
Qed.

(** No skipped segment stands anywhere among the components. *)
Definition unskipped (l : list string) : Prop := ∀ sl a b, sl ∈ segments skip_segments → l ≠ a ++ sl ++ b.
Lemma segments_not_nil names sl : sl ∈ segments names → sl ≠ [].
Proof. intros (s & -> & _)%list_elem_of_fmap. apply split_not_nil. Qed.
Lemma unskipped_prefix l l' : unskipped (l ++ l') → unskipped l.
Proof. intros H sl a b Hsl ->. apply (H sl a (b ++ l') Hsl). by rewrite <- !app_assoc. Qed.
Lemma skip_exact rel : Forall name_component rel → (rel ≠ [] → unskipped (removelast rel)) →
  shouldSkipWatchDir (shown_path rel) = false ↔ unskipped rel.
Proof.
  intros Hr Hp. destruct (decide (rel = [])) as [-> |Hne].
  { split; [|done]. intros _ sl a b Hsl E. symmetry in E. apply app_nil in E as [_ [E _]%app_nil].
    by apply segments_not_nil in Hsl. }
  replace (shown_path rel) with (join rel "/") by by destruct rel.
  rewrite <- not_true_iff_false, skip_comps by done. split.
  - intros Hn sl a b Hsl E. destruct (decide (b = [])) as [-> |Hb]; [apply Hn; exists sl, a, []; auto|].
    apply (Hp Hne sl a (removelast b) Hsl). by rewrite E, !removelast_app by (done || (intros [? _]%app_nil; by apply segments_not_nil in Hsl)).
  - intros Hu (sl & a & b & Hsl & E & _). by apply (Hu sl a b).
Qed.

(** [dir_at e p]: below [e] there is a directory at the components [p]. *)
Inductive dir_at : entry → list string → Prop :=
  | dir_here children : dir_at (EDir children) []
  | dir_sub children n c rest : (n, c) ∈ children → dir_at c rest → dir_at (EDir children) (n :: rest).
Lemma dir_at_names e comps : entry_ok e → dir_at e comps → Forall name_component comps.
Proof.
  intros He Hd. induction Hd as [|children n c rest Hin _ IH]; [constructor|].
  destruct (entry_ok_children _ _ _ He Hin) as [Hc Hn]. constructor; [done|by apply IH].
Qed.
Lemma all_ok_spec rs : (∀ r, r ∈ rs → ∃ l, r = Ok l) →
  ∃ l, all_ok rs = Ok l ∧ ∀ p, p ∈ l ↔ ∃ l', Ok l' ∈ rs ∧ p ∈ l'.
Proof.
  induction rs as [|r rs IH]; intros Hrs; [exists []; split; [done|]; intros p; split; [by intros ?%elem_of_nil|by intros (? & ?%elem_of_nil & _)]|].
  destruct (Hrs r) as [l ->]; [left|]. destruct IH as (l' & E & Hl'); [intros; apply Hrs; by right|].
  cbn [all_ok res_bind]. rewrite E. cbn [res_bind].
  exists (l ++ l'). split; [done|]. intros p. rewrite elem_of_app, Hl'. setoid_rewrite elem_of_cons. naive_solver.
Qed.
Definition setup_holds (e : entry) : Prop := ∀ rel, entry_ok e → Forall name_component rel →
  (rel ≠ [] → unskipped (removelast rel)) →
  ∃ dirs, watch_walk (λ _, None) rel e = Ok dirs ∧
    ∀ p, p ∈ dirs ↔ ∃ rest, dir_at e rest ∧ p = shown_path (rel ++ rest) ∧ unskipped (rel ++ rest).
Fixpoint setup_spec (e : entry) : setup_holds e.
Proof.
  assert (∀ children, e = EDir children → Forall (λ c, setup_holds c.2) children) as IH.
  { destruct e as [|children]; [done|]. intros ? [= <-]. induction children as [|[n c] children IHc]; constructor; [apply setup_spec|exact IHc]. }
  clear setup_spec. intros rel Hok Hrel Hp. destruct e as [st|children].
  { exists []. split; [done|]. intros p. split; [by intros ?%elem_of_nil|]. intros (? & Hd & _). inversion Hd. }
  specialize (IH children eq_refl). rewrite Forall_forall in IH. cbn [watch_walk].
  destruct (shouldSkipWatchDir (shown_path rel)) eqn:Es.
  { exists []. split; [done|]. intros p. split; [by intros ?%elem_of_nil|]. intros (rest & _ & _ & Hu).
    apply unskipped_prefix, (skip_exact rel Hrel Hp) in Hu. congruence. }
  apply (skip_exact rel Hrel Hp) in Es.
  assert (∀ n c, (n, c) ∈ children → ∃ dirs, watch_walk (λ _, None) (rel ++ [n]) c = Ok dirs ∧
    ∀ p, p ∈ dirs ↔ ∃ rest, dir_at c rest ∧ p = shown_path ((rel ++ [n]) ++ rest) ∧ unskipped ((rel ++ [n]) ++ rest)) as Hc.
  { intros n c Hin. destruct (entry_ok_children _ _ _ Hok Hin) as [Hc Hn]. apply (IH (n, c) Hin); [done| |].
    - apply Forall_app. by split; [|constructor].
    - intros _. by rewrite List.removelast_last. }
  destruct (all_ok_spec ((λ c, watch_walk (λ _, None) (rel ++ [c.1]) c.2) <$> children)) as (l & -> & Hl).
  { intros r ([n c] & -> & Hin)%list_elem_of_fmap. destruct (Hc n c Hin) as (dirs & E & _). by exists dirs. }
  exists (shown_path rel :: l). split; [done|]. intros p. rewrite elem_of_cons, Hl. split.
  - intros [-> |(l' & ([n c] & E & Hin)%list_elem_of_fmap & Hp')].
    + exists []. rewrite app_nil_r. split_and!; [constructor|done..].
    + cbn [fst snd] in E. destruct (Hc n c Hin) as (dirs & E' & Hd). rewrite E' in E. injection E as ->.
      apply Hd in Hp' as (rest & Hr & -> & Hu). exists (n :: rest). rewrite <- app_assoc in *. split_and!; [by econstructor|done..].
  - intros (rest & Hd & -> & Hu). inversion Hd as [|? n c rest' Hin Hd']; subst; [left; by rewrite app_nil_r|].
    right. destruct (Hc n c Hin) as (dirs & E & Hdirs). exists dirs. split.
    + apply list_elem_of_fmap. exists (n, c). by rewrite <- E.
    + apply Hdirs. exists rest'. rewrite <- app_assoc. by split_and!.
Qed.

Lemma shown_path_inj l l' : Forall name_component l → Forall name_component l' → shown_path l = shown_path l' → l = l'.
Proof.
  assert (∀ l, Forall name_component l → l ≠ [] → join l "/" ≠ ".") as Hdot.
  { intros k Hk Hne E. pose proof (comps_split k Hk Hne) as H. rewrite E in H. subst k.
    apply Forall_cons in Hk as [(_ & Hc & _) _]. by apply Hc. }
  intros Hl Hl' E. destruct l as [|x l], l' as [|y l']; cbn [shown_path] in E; [done| | |by apply join_inj].
  - symmetry in E. by apply Hdot in E.
  - by apply Hdot in E.
Qed.

(** ** What is handled *)

Lemma suffix_last s c t d : has_suffix (s +:+ String c "") (t +:+ String d "") = true → c = d.
Proof.
  intros [r E]%has_suffix_spec. rewrite str_app_assoc in E. apply (f_equal String.rev) in E.
  rewrite !str_rev_app in E. by injection E.
Qed.
Lemma not_suffix_last s c t d : c ≠ d → has_suffix (s +:+ String c "") (t +:+ String d "") = false.
Proof. intros H. apply not_true_iff_false. by intros ?%suffix_last. Qed.
Lemma ignored_segments sl : sl ∈ segments ignore_segments → sl ∈ segments skip_segments ∧ last sl ∈ Some <$> ["bin"; "node_modules"; "vendor"; "dist"; "coverage"; "generated"].
Proof.
  intros H. repeat (apply elem_of_cons in H as [-> |H]; [split; apply (bool_decide_unpack _); vm_compute; exact I|]).
  by apply elem_of_nil in H.
Qed.
Definition templ_path (comps : list string) (stem : string) : string := join (comps ++ [stem +:+ ".templ"]) "/".
Section Template.
Context (comps : list string) (stem : string)
  (Hn : Forall name_component (comps ++ [stem +:+ ".templ"])) (Hu : unskipped comps).
Let path := templ_path comps stem.
Lemma templ_ends : ∃ u, path = u +:+ "l".
Proof using Hn Hu.
  unfold path, templ_path. destruct comps as [|c cs] eqn:E.
  - exists (stem +:+ ".temp"). cbn [app join]. by rewrite <- str_app_assoc.
  - exists (join (c :: cs) "/" +:+ "/" +:+ stem +:+ ".temp"). rewrite join_app by done. cbn [join].
    by rewrite <- !str_app_assoc.
Qed.
Lemma templ_ext : Ext path = ".templ".
Proof using Hn Hu.
  apply Forall_app in Hn as [_ Hs]. apply Forall_cons in Hs as [(_ & _ & _ & Hs) _].
  unfold path, templ_path. destruct comps as [|c cs] eqn:E; [by apply Ext_name|].
  rewrite join_app by done. cbn [join]. change ("/" +:+ (stem +:+ ".templ")) with (String "/" (stem +:+ ".templ")).
  rewrite Ext_dir by done. by apply Ext_name.
Qed.
Lemma templ_not_ignored : isIgnoredWatchPath path = false.
Proof using Hn Hu.
  apply not_true_iff_false. unfold path, templ_path. rewrite ignored_comps; [|done|by intros [_ ?]%app_nil].
  assert (∀ seg, String.eqb (stem +:+ ".templ") seg = true → has_suffix seg ".templ" = true) as Hend.
  { intros seg <-%String.eqb_eq. apply has_suffix_app. }
  intros [Hg|(sl & a & b & Hsl & E & Hab)].
  - destruct comps as [|c cs]; [|injection Hg as ->; apply (Hu [".git"] [] cs); [left|done]].
    injection Hg as Hg. apply String.eqb_eq, Hend in Hg. done.
  - destruct (ignored_segments sl Hsl) as [Hsk Hlast]. destruct b as [|x b _] using rev_ind.
    + rewrite app_nil_r in E. apply (f_equal last) in E. rewrite last_snoc, last_app in E.
      apply list_elem_of_fmap in Hlast as (seg & Hseg & Hin). rewrite Hseg in E. injection E as E.
      assert (has_suffix seg ".templ" = true) as Hs by (rewrite <- E; apply has_suffix_app). clear E Hseg.
      repeat (apply elem_of_cons in Hin as [-> |Hin]; [done|]). by apply elem_of_nil in Hin.
    + rewrite !app_assoc in E. apply app_inj_tail in E as [E _]. apply (Hu sl a b Hsk). by rewrite E, app_assoc.
Qed.
Lemma templ_handled lower_table is_dir_now name op : Clean name = path → name ≠ "" → Z.land op 15 ≠ 0%Z →
  shouldHandleWatchEvent lower_table is_dir_now name op = true.
Proof using Hn Hu.
  intros Hc Hne Hop. pose proof templ_not_ignored as Hi. unfold isIgnoredWatchPath in Hi.
  assert (Clean path = path) as Hp by (apply Clean_join; [done|by intros [_ ?]%app_nil]).
  assert (String.eqb path "" = false) as He by (destruct templ_ends as [u ->]; by destruct u).
  rewrite He, Hp in Hi. cbv zeta in Hi. unfold shouldHandleWatchEvent, isIgnoredWatchPath.
  rewrite (proj2 (String.eqb_neq _ _) Hne), Hc. cbv zeta. rewrite Hi.
  change (Z.lor (Z.lor (Z.lor Write Create) Rename) Remove) with 15%Z.
  destruct (Z.eqb_spec op 0) as [-> |_]; [done|]. rewrite (proj2 (Z.eqb_neq _ _) Hop). cbn [orb].
  destruct templ_ends as [u Hend]. rewrite Hend at 1 2 3.
  pose proof (not_suffix_last u "l" ".sw" "p") as E1. pose proof (not_suffix_last u "l" ".tm" "p") as E2.
  pose proof (not_suffix_last u "l" "" "~") as E3. cbn [String.append] in E1, E2, E3. rewrite E1, E2, E3 by done.
  cbn [orb]. destruct (is_dir_now path); [done|]. by rewrite templ_ext, ToLower_ascii.
Qed.
End Template.

(** Watch mode misses no template: in a project where nothing fails, the
    directories watched are exactly those with no skipped segment among their
    components, and whatever happens to a template in one of them (it is created,
    written, renamed or removed), under any spelling of its path, is handled. *)
Theorem watch_misses_no_template lower_table is_dir_now children : entry_ok (EDir children) →
  ∃ dirs, setupGenerateWatcher (λ _, None) (EDir children) = Ok dirs
    ∧ (∀ p, p ∈ dirs ↔ ∃ comps, dir_at (EDir children) comps ∧ p = shown_path comps ∧ unskipped comps)
    ∧ ∀ comps stem name op, shown_path comps ∈ dirs → Forall name_component (comps ++ [stem +:+ ".templ"]) →
        name ≠ "" → Clean name = templ_path comps stem → Z.land op 15 ≠ 0%Z →
        shouldHandleWatchEvent lower_table is_dir_now name op = true.
Proof.
  intros Hok. destruct (setup_spec (EDir children) [] Hok) as (dirs & E & Hd); [constructor|done|].
  exists dirs. unfold setupGenerateWatcher. rewrite E. split_and!; [done|apply Hd|].
  intros comps stem name op Hin Hn Hne Hc Hop. apply (templ_handled comps stem); [done| |done..].
  apply Hd in Hin as (comps' & Hda & Es & Hu). cbn [app] in Es, Hu.
  apply Forall_app in Hn as [Hn _]. assert (comps = comps') as ->; [|done].
  apply shown_path_inj; [done| |done].
  by eapply dir_at_names.
Qed.
Definition watch_tree : list (string * entry) :=
  [("views", EDir [("index.templ", EFile (mkStamp 1 10))]); ("web", EDir [("node_modules", EDir [])])].
Lemma watch_misses_no_template_witness : entry_ok (EDir watch_tree)
  ∧ setupGenerateWatcher (λ _, None) (EDir watch_tree) = Ok ["."; "views"; "web"]
  ∧ shouldHandleWatchEvent id (λ _, false) "./views/index.templ" Write = true.
Proof.
  assert (entry_ok (EDir watch_tree)) as Hok.
  { cbn. unfold name_component. cbn. repeat split; try (repeat constructor; set_solver); try discriminate. }
  split; [exact Hok|]. destruct (watch_misses_no_template id (λ _, false) watch_tree Hok) as (dirs & E & _ & H).
  split; [vm_compute; reflexivity|]. vm_compute in E. injection E as <-.
  apply (H ["views"] "index" "./views/index.templ" Write); [right; left| |discriminate|reflexivity|discriminate].
  repeat constructor; vm_compute; discriminate.
Defined.

(** What templ writes is handled like any other Go file. *)
Theorem generated_output_handled lower_table :
  shouldHandleWatchEvent lower_table (λ _, false) "views/index_templ.go" Write = true.
Proof. reflexivity. Qed.
(** The files named without an extension are only seen below a directory. *)
Theorem root_go_mod_missed lower_table :
  shouldHandleWatchEvent lower_table (λ _, false) "./go.mod" Write = false
  ∧ shouldHandleWatchEvent lower_table (λ _, false) "service/go.mod" Write = true.
Proof. done. Qed.
(** A directory the set-up skips is handled when it appears: the ignored segments do
    not cover a last component. *)
Theorem new_skipped_directory_handled lower_table :
  shouldSkipWatchDir "web/node_modules" = true
  ∧ shouldHandleWatchEvent lower_table (λ _, true) "web/node_modules" Create = true.
Proof. done. Qed.
