(* ===== verification/GenerateLoop.v ===== *)
(** * The loop of watch mode

    Models [loopGenerateWatcher] of src/internal/cli/generate.go: the events of the
    watcher, the timers that debounce them, and their callbacks, which run beside the
    loop and beside each other. *)

From S2P Require Import Prelude GoStrings GenerateWatch.

(** ** The loop

    A handled event stops the timer it finds in [regenTimer] and arms another; a
    timer that is due starts its callback, which first clears [regenTimer] and then
    generates.  A timer is named by the number of the event that armed it.  The
    critical sections under [regenMu] are single steps.  [handled], [stopped],
    [finished] and [covered] only count: events handled, timers stopped, generations
    ended, and events handled before the last generation began. *)
Definition debounce : duration := 250000000.
Record loop := mkLoop {
  clock : time;
  watching : list string;
  armed : list (nat * time);
  regenTimer : option nat;
  fired : list nat;
  running : list nat;
  exited : bool;
  handled : nat;
  stopped : nat;
  finished : nat;
  covered : nat;
}.
Definition idle_loop (dirs : list string) (now : time) : loop := mkLoop now dirs [] None [] [] false 0 0 0 0.
(** An event comes with what [os.Stat] says of it, twice, and the watcher's answer to
    a new directory; a generation with whether it ends the program. *)
Inductive action :=
  | Event (name : string) (op : Z) (is_dir new_dir : bool) (add : option error)
  | WatchError
  | Elapse (d : duration)
  | Fire (id : nat)
  | Reset (id : nat)
  | Finish (id : nat) (exits : bool).

Section Loop.
Context (lower_table : Z → Z).
Definition disarm (s : loop) : list (nat * time) :=
  match regenTimer s with
  | Some id => List.filter (λ t, negb (Nat.eqb t.1 id)) (armed s)
  | None => armed s
  end.
Definition without (id : nat) (l : list nat) : list nat := List.filter (λ i, negb (Nat.eqb i id)) l.
Definition step (s : loop) (a : action) : option loop :=
  if exited s then None
  else match a with
  | Event name op is_dir new_dir add =>
      if negb (shouldHandleWatchEvent lower_table (λ _, is_dir) name op) then Some s
      else
        let dirs := if negb (Z.land op Create =? 0)%Z && new_dir && bool_decide (add = None)
                    then watching s ++ [name] else watching s in
        let id := S (handled s) in
        Some (mkLoop (clock s) dirs ((id, time_add (clock s) debounce) :: disarm s) (Some id) (fired s) (running s) false
                id (stopped s + (length (armed s) - length (disarm s))) (finished s) (covered s))
  | WatchError => Some s
  | Elapse d =>
      if (d <? 0)%Z then None
      else Some (mkLoop (time_add (clock s) d) (watching s) (armed s) (regenTimer s) (fired s) (running s) false
                   (handled s) (stopped s) (finished s) (covered s))
  | Fire id =>
      if existsb (λ t, Nat.eqb t.1 id && (t.2 <=? clock s)%Z) (armed s)
      then Some (mkLoop (clock s) (watching s) (List.filter (λ t, negb (Nat.eqb t.1 id)) (armed s)) (regenTimer s)
                   (id :: fired s) (running s) false (handled s) (stopped s) (finished s) (covered s))
      else None
  | Reset id =>
      if existsb (Nat.eqb id) (fired s)
      then Some (mkLoop (clock s) (watching s) (armed s) None (without id (fired s)) (id :: running s) false
                   (handled s) (stopped s) (finished s) (handled s))
      else None
  | Finish id exits =>
      if existsb (Nat.eqb id) (running s)
      then Some (mkLoop (clock s) (watching s) (armed s) (regenTimer s) (fired s) (without id (running s)) exits
                   (handled s) (stopped s) (S (finished s)) (covered s))
      else None
  end.
Fixpoint run_loop (s : loop) (acts : list action) : option loop :=
  match acts with
  | [] => Some s
  | a :: acts => match step s a with Some s' => run_loop s' acts | None => None end
  end.

Record loop_ok (s : loop) : Prop := {
  ok_nodup : NoDup ((armed s).*1 ++ fired s ++ running s);
  ok_ids : ∀ i, i ∈ (armed s).*1 ++ fired s ++ running s → 1 ≤ i ≤ handled s;
  ok_count : handled s = stopped s + length (armed s) + length (fired s) + length (running s) + finished s;
  ok_timer : ∀ i, regenTimer s = Some i → i = handled s;
  ok_cover : covered s = handled s ∨ handled s ∈ (armed s).*1 ++ fired s;
  ok_due : ∀ t, t ∈ armed s → (t.2 ≤ clock s + debounce)%Z;
}.
Lemma filter_out {A} (f : A → nat) id (l : list A) :
  (∀ x, x ∈ List.filter (λ x, negb (Nat.eqb (f x) id)) l ↔ x ∈ l ∧ f x ≠ id).
Proof using. intros x. rewrite list_elem_of_In, filter_In, <- list_elem_of_In. by destruct (Nat.eqb_spec (f x) id); cbn; naive_solver. Qed.
Lemma filter_out_fst id (l : list (nat * time)) : (List.filter (λ t, negb (Nat.eqb t.1 id)) l).*1 = without id l.*1.
Proof using. induction l as [|t l IH]; [done|]. cbn. destruct (Nat.eqb t.1 id); cbn; by rewrite IH. Qed.
Lemma elem_of_without i id l : i ∈ without id l ↔ i ∈ l ∧ i ≠ id.
Proof using. apply (filter_out (λ i, i)). Qed.
Lemma without_sub id l : without id l ⊆+ l.
Proof using. unfold without. induction l as [|x l IH]; [done|]. cbn. destruct (Nat.eqb x id); cbn; [by apply submseteq_cons|by apply submseteq_skip]. Qed.
Lemma without_Permutation id l : NoDup l → id ∈ l → l ≡ₚ id :: without id l.
Proof using.
  induction l as [|x l IH]; [by intros _ ?%elem_of_nil|]. intros [Hx Hn]%NoDup_cons [<-|Hin]%elem_of_cons; unfold without; cbn.
  - rewrite Nat.eqb_refl. cbn. constructor. clear IH Hn. induction l as [|y l IH]; [done|]. apply not_elem_of_cons in Hx as [Hy Hx].
    cbn. destruct (Nat.eqb_spec y id); [congruence|]. cbn. constructor. by apply IH.
  - destruct (Nat.eqb_spec x id) as [-> |]; [done|]. cbn. rewrite IH at 1 by done. constructor.
Qed.

Lemma disarm_ids s : (disarm s).*1 = match regenTimer s with Some id => without id (armed s).*1 | None => (armed s).*1 end.
Proof using. unfold disarm. destruct (regenTimer s); [apply filter_out_fst|done]. Qed.
Lemma disarm_sub s : (disarm s).*1 ⊆+ (armed s).*1.
Proof using. rewrite disarm_ids. destruct (regenTimer s); [apply without_sub|done]. Qed.
Lemma disarm_le s : length (disarm s) ≤ length (armed s).
Proof using. rewrite <- !(length_fmap fst). apply submseteq_length, disarm_sub. Qed.
Lemma idle_ok dirs now : loop_ok (idle_loop dirs now).
Proof using.
  split; cbn; [constructor|by intros ? ?%elem_of_nil|done..|by left|by intros ? ?%elem_of_nil].
Qed.
Lemma NoDup_sub {A} (l k : list A) : l ⊆+ k → NoDup k → NoDup l.
Proof using. intros (k' & ->)%submseteq_Permutation Hn. by apply NoDup_app in Hn as (? & _). Qed.
Lemma loop_step_ok s a s' : loop_ok s → step s a = Some s' → loop_ok s'.
Proof using.
  intros [Hn Hi Hc Ht Hv Hd] E. unfold step in E. destruct (exited s); [done|]. destruct a as [name op dir dir' add| |d|id|id|id ex].
  - destruct (negb _); [by injection E as <-|]. injection E as <-.
    assert ((disarm s).*1 ++ fired s ++ running s ⊆+ (armed s).*1 ++ fired s ++ running s) as Hsub
      by (apply submseteq_app; [apply disarm_sub|done]).
    split; cbn [armed fired running handled stopped regenTimer covered finished clock fmap list_fmap app fst].
    + apply NoDup_cons. split; [|by eapply NoDup_sub]. intros Hin.
      pose proof (Hi _ (elem_of_submseteq _ _ _ Hin Hsub)). lia.
    + intros i [-> |Hin]%elem_of_cons; [lia|]. pose proof (Hi _ (elem_of_submseteq _ _ _ Hin Hsub)). lia.
    + cbn. pose proof (disarm_le s). lia.
    + by intros i [= <-].
    + right. left.
    + intros t [-> |Hin]%elem_of_cons; [cbn; done|]. apply Hd. unfold disarm in Hin.
      destruct (regenTimer s) as [c|]; [by apply filter_out in Hin as [? _]|done].
  - by injection E as <-.
  - destruct (Z.ltb_spec d 0); [done|]. injection E as <-. split; cbn; try done.
    intros t Hin. apply Hd in Hin. unfold time_add, debounce in *. lia.
  - destruct (existsb _ (armed s)) eqn:Ex; [|done]. injection E as <-. apply existsb_true_iff in Ex as (t & Hin & He).
    apply andb_true_iff in He as [<-%Nat.eqb_eq _].
    assert (t.1 ∈ (armed s).*1) as Ht1 by (apply list_elem_of_fmap; by exists t).
    assert ((armed s).*1 ≡ₚ t.1 :: without t.1 (armed s).*1) as Hp.
    { apply without_Permutation; [|done]. by apply NoDup_app in Hn as (? & _). }
    split; cbn [armed fired running handled stopped regenTimer covered finished clock]; rewrite ?filter_out_fst; try done.
    + assert (without t.1 (armed s).*1 ++ (t.1 :: fired s) ++ running s ≡ₚ (armed s).*1 ++ fired s ++ running s) as ->; [|done].
      cbn [app]. rewrite <- Permutation_middle, app_comm_cons. by rewrite <- Hp.
    + intros i. specialize (Hi i). revert Hi. rewrite !elem_of_app, elem_of_cons, elem_of_without. naive_solver.
    + rewrite Hc. rewrite <- (length_fmap fst (armed s)), <- (length_fmap fst (List.filter _ _)), filter_out_fst, (Permutation_length Hp).
      cbn. lia.
    + destruct Hv as [?|Hv]; [by left|right]. revert Hv. rewrite !elem_of_app, elem_of_cons, elem_of_without.
      destruct (decide (handled s = t.1)); naive_solver.
    + intros u Hu. apply Hd. by apply filter_out in Hu as [? _].
  - destruct (existsb _ (fired s)) eqn:Ex; [|done]. injection E as <-. apply existsb_true_iff in Ex as (j & Hin & <-%Nat.eqb_eq).
    apply NoDup_app in Hn as (Hn1 & Hn2 & (Hn3 & Hn4 & Hn5)%NoDup_app).
    assert (fired s ≡ₚ id :: without id (fired s)) as Hp by by apply without_Permutation.
    split; cbn [armed fired running handled stopped regenTimer covered finished clock]; try done.
    + assert ((armed s).*1 ++ without id (fired s) ++ id :: running s ≡ₚ (armed s).*1 ++ fired s ++ running s) as ->.
      { f_equiv. rewrite <- Permutation_middle, app_comm_cons. by rewrite <- Hp. }
      apply NoDup_app. split_and!; [done..|]. by apply NoDup_app.
    + intros i. specialize (Hi i). revert Hi. rewrite !elem_of_app, elem_of_cons, elem_of_without. naive_solver.
    + rewrite Hc, (Permutation_length Hp). cbn. lia.
    + by left.
  - destruct (existsb _ (running s)) eqn:Ex; [|done]. injection E as <-. apply existsb_true_iff in Ex as (j & Hin & <-%Nat.eqb_eq).
    apply NoDup_app in Hn as (Hn1 & Hn2 & (Hn3 & Hn4 & Hn5)%NoDup_app).
    assert (running s ≡ₚ id :: without id (running s)) as Hp by by apply without_Permutation.
    split; cbn [armed fired running handled stopped regenTimer covered finished clock]; try done.
    + apply (NoDup_sub _ ((armed s).*1 ++ fired s ++ running s)).
      * do 2 (apply submseteq_app; [done|]). apply without_sub.
      * apply NoDup_app. split_and!; [done..|]. by apply NoDup_app.
    + intros i Hin'. apply Hi. revert Hin'. rewrite !elem_of_app, elem_of_without. naive_solver.
    + rewrite Hc, (Permutation_length Hp). cbn. lia.
Qed.

Lemma loop_run_ok s acts s' : loop_ok s → run_loop s acts = Some s' → loop_ok s'.
Proof using.
  revert s. induction acts as [|a acts IH]; intros s Hs; cbn; [by intros [= <-]|].
  destruct (step s a) as [s1|] eqn:E; [|done]. apply IH. by eapply loop_step_ok.
Qed.
Lemma loop_run_app s p q : run_loop s (p ++ q) = match run_loop s p with Some s' => run_loop s' q | None => None end.
Proof using. revert s. induction p as [|a p IH]; intros s; [done|]. cbn. by destruct (step s a). Qed.

(** Without new events, each of the three callbacks of a timer happens at most once. *)
Definition is_event (a : action) : bool := match a with Event _ _ _ _ _ => true | _ => false end.
Definition is_work (a : action) : bool := match a with Fire _ | Reset _ | Finish _ _ => true | _ => false end.
Definition work_left (s : loop) : nat := 3 * length (armed s) + 2 * length (fired s) + length (running s).
Lemma step_work s a s' : loop_ok s → step s a = Some s' → is_event a = false →
  (if is_work a then 1 else 0) + work_left s' ≤ work_left s.
Proof using.
  intros [Hn _ _ _ _ _] E Ha. unfold step in E. destruct (exited s); [done|]. destruct a as [| |d|id|id|id ex]; [done|..];
    apply NoDup_app in Hn as (Hn1 & _ & (Hn3 & _ & Hn5)%NoDup_app).
  - by injection E as <-.
  - destruct (d <? 0)%Z; [done|]. by injection E as <-.
  - destruct (existsb _ (armed s)) eqn:Ex; [|done]. injection E as <-. apply existsb_true_iff in Ex as (t & Hin & He).
    apply andb_true_iff in He as [<-%Nat.eqb_eq _]. unfold work_left. cbn.
    pose proof (without_Permutation t.1 (armed s).*1 Hn1) as Hp. rewrite <- filter_out_fst in Hp.
    apply Permutation_length in Hp; [|apply list_elem_of_fmap; by exists t]. cbn in Hp. rewrite !length_fmap in Hp. lia.
  - destruct (existsb _ (fired s)) eqn:Ex; [|done]. injection E as <-. apply existsb_true_iff in Ex as (j & Hin & <-%Nat.eqb_eq).
    pose proof (Permutation_length (without_Permutation _ _ Hn3 Hin)). unfold work_left. cbn in *. lia.
  - destruct (existsb _ (running s)) eqn:Ex; [|done]. injection E as <-. apply existsb_true_iff in Ex as (j & Hin & <-%Nat.eqb_eq).
    pose proof (Permutation_length (without_Permutation _ _ Hn5 Hin)). unfold work_left. cbn in *. lia.
Qed.
Lemma run_work s acts s' : loop_ok s → run_loop s acts = Some s' → forallb (λ a, negb (is_event a)) acts = true →
  length (List.filter is_work acts) + work_left s' ≤ work_left s.
Proof using.
  revert s. induction acts as [|a acts IH]; intros s Hs; cbn [run_loop forallb]; [intros [= <-] _; cbn; lia|].
  destruct (step s a) as [s1|] eqn:E; [|done]. intros Hr [Ha%negb_true_iff Hacts]%andb_true_iff.
  pose proof (step_work _ _ _ Hs E Ha) as H1. pose proof (IH s1 (loop_step_ok _ _ _ Hs E) Hr Hacts) as H2.
  cbn [List.filter]. destruct (is_work a); cbn [length] in *; lia.
Qed.

(** And they all can happen. *)
Lemma settle_run n s : loop_ok s → exited s = false → work_left s ≤ n → (∀ t, t ∈ armed s → (t.2 ≤ clock s)%Z) →
  ∃ acts s', run_loop s acts = Some s' ∧ forallb is_work acts = true ∧ work_left s' = 0 ∧ exited s' = false ∧ handled s' = handled s.
Proof using.
  revert s. induction n as [|n IH]; intros s Hs Hx Hn Hdue.
  { exists [], s. split_and!; [done..|lia|done|done]. }
  assert (∀ a s1, step s a = Some s1 → is_work a = true → is_event a = false → exited s1 = false → handled s1 = handled s →
    (∀ t, t ∈ armed s1 → (t.2 ≤ clock s1)%Z) →
    ∃ acts s', run_loop s acts = Some s' ∧ forallb is_work acts = true ∧ work_left s' = 0 ∧ exited s' = false ∧ handled s' = handled s) as Hgo.
  { intros a s1 E Hw Ha Hx1 Hh1 Hd1. pose proof (step_work _ _ _ Hs E Ha) as Hl. rewrite Hw in Hl.
    destruct (IH s1) as (acts & s' & Hr & Hall & H0 & Hx' & Hh'); [by eapply loop_step_ok|done|lia|done|].
    exists (a :: acts), s'. cbn. rewrite E, Hw. split_and!; [done..|congruence]. }
  destruct (running s) as [|id l] eqn:Er; [destruct (fired s) as [|id l] eqn:Ef; [destruct (armed s) as [|[id due] l] eqn:Ea|]|].
  - exists [], s. unfold work_left. rewrite Er, Ef, Ea. by split_and!.
  - eapply (Hgo (Fire id)); [|done|done|..].
    + unfold step. rewrite Hx, Ea. cbn [existsb fst snd]. rewrite Nat.eqb_refl, (proj2 (Z.leb_le _ _)); [done|]. apply (Hdue (id, due)). left.
    + done.
    + done.
    + cbn. intros t Ht. apply Hdue. revert Ht. unfold List.filter. fold (List.filter (λ t : nat * time, negb (Nat.eqb t.1 id))).
      rewrite Nat.eqb_refl. cbn. intros Ht. right. by apply filter_out in Ht as [? _].
  - eapply (Hgo (Reset id)); [|done|done|..].
    + unfold step. rewrite Hx, Ef. cbn [existsb]. by rewrite Nat.eqb_refl.
    + done.
    + done.
    + done.
  - eapply (Hgo (Finish id false)); [|done|done|..].
    + unfold step. rewrite Hx, Er. cbn [existsb]. by rewrite Nat.eqb_refl.
    + done.
    + done.
    + done.
Qed.

(** A burst: events that are handled, each with the time since the one before. *)
Definition is_handled (a : action) : bool :=
  match a with Event name op is_dir _ _ => shouldHandleWatchEvent lower_table (λ _, is_dir) name op | _ => false end.
Definition burst (l : list (duration * action)) : list action := concat ((λ x, [Elapse x.1; x.2]) <$> l).
Definition in_burst (x : duration * action) : Prop := (0 ≤ x.1 < debounce)%Z ∧ is_handled x.2 = true.

Lemma handled_step s a : exited s = false → is_handled a = true →
  ∃ s', step s a = Some s' ∧ clock s' = clock s ∧ exited s' = false ∧ armed s' = (S (handled s), time_add (clock s) debounce) :: disarm s
    ∧ regenTimer s' = Some (S (handled s)) ∧ handled s' = S (handled s)
    ∧ stopped s' = stopped s + (length (armed s) - length (disarm s)) ∧ covered s' = covered s.
Proof using.
  intros Hx Ha. unfold step. rewrite Hx. destruct a as [name op d d' add| | | | |]; try done. cbn in Ha. rewrite Ha. cbn [negb].
  eexists. by split_and!.
Qed.
(** Inside a burst: one timer, not due yet. *)
Definition one_timer (s : loop) : Prop := exited s = false ∧ armed s = [(handled s, time_add (clock s) debounce)] ∧ regenTimer s = Some (handled s).
Lemma burst_step s x : one_timer s → in_burst x →
  ∃ s1 s2, step s (Elapse x.1) = Some s1 ∧ step s1 x.2 = Some s2 ∧ one_timer s2
    ∧ handled s2 = S (handled s) ∧ stopped s2 = S (stopped s) ∧ covered s2 = covered s ∧ ∀ id, step s1 (Fire id) = None.
Proof using.
  intros (Hx & Ha & Hr) [[H0 Hd] Hh].
  set (s1 := mkLoop (time_add (clock s) x.1) (watching s) (armed s) (regenTimer s) (fired s) (running s) false
                   (handled s) (stopped s) (finished s) (covered s)).
  assert (step s (Elapse x.1) = Some s1) as E1 by (unfold step; rewrite Hx; by destruct (Z.ltb_spec x.1 0); [lia|]).
  destruct (handled_step s1 x.2 eq_refl Hh) as (s2 & E2 & Hc2 & Hx2 & Ha2 & Hr2 & Hh2 & Hs2 & Hv2).
  assert (disarm s1 = []) as Hdis by (unfold disarm; cbn; rewrite Hr, Ha; cbn; by rewrite Nat.eqb_refl).
  exists s1, s2. rewrite Hdis in *. cbn in *. split_and!; try done.
  - unfold one_timer. by rewrite Hx2, Ha2, Hr2, Hh2, Hc2.
  - rewrite Hs2, Ha. cbn. lia.
  - intros id. unfold step. cbn. rewrite Ha. cbn. rewrite (proj2 (Z.leb_gt _ _)), andb_false_r; [done|].
    unfold time_add, debounce in *. lia.
Qed.
Lemma burst_run l s : one_timer s → Forall in_burst l →
  ∃ s', run_loop s (burst l) = Some s' ∧ one_timer s' ∧ handled s' = handled s + length l ∧ stopped s' = stopped s + length l
    ∧ covered s' = covered s ∧ ∀ p q t id, burst l = p ++ q → run_loop s p = Some t → step t (Fire id) = None.
Proof using.
  intros Hs Hl. revert s Hs. induction Hl as [|x l Hx _ IH]; intros s Hs.
  - exists s. split_and!; [done|done|cbn; lia..|done|]. intros p q t id E. symmetry in E. apply app_nil in E as [-> _]. intros [= <-].
    destruct Hs as (Hx & Ha & _). unfold step. rewrite Hx, Ha. cbn. rewrite (proj2 (Z.leb_gt _ _)), andb_false_r; [done|].
    unfold time_add, debounce. lia.
  - destruct (burst_step s x Hs Hx) as (s1 & s2 & E1 & E2 & Hs2 & Hh2 & Hst2 & Hc2 & Hf).
    destruct (IH s2 Hs2) as (s' & Hr & Ho & Hh & Hst & Hc & Hno). exists s'.
    change (burst (x :: l)) with (Elapse x.1 :: x.2 :: burst l). cbn [run_loop length]. rewrite E1, E2.
    split_and!; [done|done|lia|lia|congruence|]. intros p q t id E Hp.
    destruct p as [|a [|b p]]; cbn [app run_loop] in *.
    + injection Hp as <-. destruct Hs as (Hx' & Ha & _). unfold step. rewrite Hx', Ha. cbn.
      rewrite (proj2 (Z.leb_gt _ _)), andb_false_r; [done|]. unfold time_add, debounce. lia.
    + injection E as <- E. rewrite E1 in Hp. injection Hp as <-. apply Hf.
    + injection E as <- <- E. rewrite E1, E2 in Hp. by eapply Hno.
Qed.

(** * Properties *)

(** In every reachable state of watch mode, each handled event accounts for one
    timer, stopped, pending, with its callback under way, or finished, no two alike; a
    timer is due within the debounce time; and once no timer and no callback is
    waiting, the last generation began after the last event. Left without events the
    callbacks come to an end, at most three for each timer; and if the program has not
    exited, after the debounce time they can all happen, which leaves every event
    covered. *)
Theorem watch_settles dirs now acts s : run_loop (idle_loop dirs now) acts = Some s →
  handled s = stopped s + length (armed s) + length (fired s) + length (running s) + finished s
  ∧ NoDup ((armed s).*1 ++ fired s ++ running s)
  ∧ (∀ t, t ∈ armed s → (t.2 ≤ clock s + debounce)%Z)
  ∧ (armed s = [] → fired s = [] → covered s = handled s)
  ∧ (∀ quiet s', run_loop s quiet = Some s' → forallb (λ a, negb (is_event a)) quiet = true →
       length (List.filter is_work quiet) ≤ work_left s)
  ∧ (exited s = false → ∃ work s', run_loop s (Elapse debounce :: work) = Some s' ∧ forallb is_work work = true
       ∧ work_left s' = 0 ∧ handled s' = handled s ∧ covered s' = handled s').
Proof using.
  intros Hr. pose proof (loop_run_ok _ _ _ (idle_ok dirs now) Hr) as Hok. split_and!; [apply ok_count, Hok|apply ok_nodup, Hok|by apply ok_due|..].
  - intros Ha Hf. destruct (ok_cover s Hok) as [?|Hin]; [done|]. rewrite Ha, Hf in Hin. by apply elem_of_nil in Hin.
  - intros quiet s' Hq Hne. pose proof (run_work _ _ _ Hok Hq Hne). lia.
  - intros Hx. set (s1 := mkLoop (time_add (clock s) debounce) (watching s) (armed s) (regenTimer s) (fired s) (running s) false
                   (handled s) (stopped s) (finished s) (covered s)).
    assert (step s (Elapse debounce) = Some s1) as E1 by (unfold step; by rewrite Hx).
    pose proof (loop_step_ok _ _ _ Hok E1) as Hok1.
    destruct (settle_run (work_left s1) s1) as (work & s' & Hw & Hall & H0 & _ & Hh); [done..| |].
    { intros t Ht. cbn. apply (ok_due s Hok t Ht). }
    exists work, s'. cbn [run_loop]. rewrite E1. split_and!; [done..|].
    unfold work_left in H0. pose proof (loop_run_ok _ _ _ Hok1 Hw) as Hok'.
    destruct (ok_cover s' Hok') as [?|Hin]; [done|].
    destruct (armed s'), (fired s'); cbn in H0; try lia. by apply elem_of_nil in Hin.
Qed.

(** Debouncing: when no timer is pending, a burst of handled events, each less
    than the debounce time after the one before, ends with exactly one timer pending,
    the last event's, all the others stopped; and at no point inside the burst can a
    timer fire, so that the burst is generated once. *)
Theorem burst_generates_once s x l : exited s = false → armed s = [] → Forall in_burst (x :: l) →
  ∃ s', run_loop s (burst (x :: l)) = Some s'
    ∧ armed s' = [(handled s', time_add (clock s') debounce)] ∧ handled s' = handled s + S (length l)
    ∧ stopped s' = stopped s + length l ∧ covered s' = covered s
    ∧ ∀ p q t id, burst (x :: l) = p ++ q → run_loop s p = Some t → step t (Fire id) = None.
Proof using.
  intros Hx Ha [[[H0 Hd] Hh] Hl]%Forall_cons.
  set (s1 := mkLoop (time_add (clock s) x.1) (watching s) (armed s) (regenTimer s) (fired s) (running s) false
                   (handled s) (stopped s) (finished s) (covered s)).
  assert (step s (Elapse x.1) = Some s1) as E1 by (unfold step; rewrite Hx; by destruct (Z.ltb_spec x.1 0); [lia|]).
  destruct (handled_step s1 x.2 eq_refl Hh) as (s2 & E2 & Hc2 & Hx2 & Ha2 & Hr2 & Hh2 & Hs2 & Hv2).
  assert (disarm s1 = []) as Hdis by (unfold disarm; cbn; rewrite Ha; by destruct (regenTimer s)).
  assert (length (armed s1) = 0) as Hz by (cbn; by rewrite Ha).
  rewrite Hdis in Ha2, Hs2. rewrite Hz in Hs2. cbn in Hc2, Ha2, Hr2, Hh2, Hs2, Hv2.
  assert (one_timer s2) as Ho by (unfold one_timer; by rewrite Hx2, Ha2, Hr2, Hh2, Hc2).
  destruct (burst_run l s2 Ho Hl) as (s' & Hr & (_ & Ha' & _) & Hh' & Hs' & Hc' & Hno).
  exists s'. change (burst (x :: l)) with (Elapse x.1 :: x.2 :: burst l). cbn [run_loop]. rewrite E1, E2.
  split_and!; [done|done|lia|lia|congruence|]. intros p q t id E Hp.
  destruct p as [|a [|b p]]; cbn [app run_loop] in *.
  - injection Hp as <-. unfold step. by rewrite Hx, Ha.
  - injection E as <- E. rewrite E1 in Hp. injection Hp as <-. unfold step. cbn. by rewrite Ha.
  - injection E as <- <- E. rewrite E1, E2 in Hp. by eapply Hno.
Qed.
End Loop.

Definition edit (name : string) : action := Event name Write false false None.
Definition two_edits : list action := [Elapse 5; edit "views/a.templ"; Elapse 1000; edit "views/a.templ"; Elapse debounce; Fire 2].
Lemma watch_settles_witness : ∃ s, run_loop id (idle_loop ["."] 0) two_edits = Some s ∧ handled s = 2 ∧ stopped s = 1
  ∧ handled s = stopped s + length (armed s) + length (fired s) + length (running s) + finished s.
Proof.
  destruct (run_loop id (idle_loop ["."] 0) two_edits) as [s|] eqn:E; [|vm_compute in E; discriminate E].
  pose proof (watch_settles id ["."] 0%Z two_edits s E) as [H _]. exists s.
  split; [reflexivity|]. split; [vm_compute in E; injection E as <-; reflexivity|].
  split; [vm_compute in E; injection E as <-; reflexivity|exact H].
Defined.
Lemma burst_generates_once_witness : ∃ s',
  run_loop id (idle_loop ["."] 0) (burst [(5%Z, edit "a.templ"); (1000%Z, edit "b.go"); (0%Z, edit "a.templ")]) = Some s'
  ∧ handled s' = 3 ∧ stopped s' = 2.
Proof.
  destruct (burst_generates_once id (idle_loop ["."] 0) (5%Z, edit "a.templ") [(1000%Z, edit "b.go"); (0%Z, edit "a.templ")])
    as (s' & Hr & _ & Hh & Hs & _); [reflexivity|reflexivity| |].
  { repeat constructor; vm_compute; congruence. }
  exists s'. split; [exact Hr|]. split; [exact Hh|exact Hs].
Defined.

(** The lock covers only the timer: two generations can run at once. *)
Theorem generations_overlap : ∃ s,
  run_loop id (idle_loop ["."] 0) [edit "a.templ"; Elapse debounce; Fire 1; Reset 1; edit "a.templ"; Elapse debounce; Fire 2; Reset 2] = Some s
  ∧ running s = [2; 1].
Proof. vm_compute. eauto. Qed.
(** A callback clears whatever timer is in [regenTimer], also a newer one, which the
    next event then does not stop: one burst is generated twice. *)
Theorem stale_callback_splits_burst : ∃ s,
  run_loop id (idle_loop ["."] 0) [edit "a.templ"; Elapse debounce; Fire 1; edit "a.templ"; Reset 1; edit "a.templ"] = Some s
  ∧ (armed s).*1 = [3; 2].
Proof. vm_compute. eauto. Qed.
