(* ===== verification/Build.v ===== *)
(** * Building, and the bill of materials

    Models src/internal/cli/build.go and [frameworkVersion] of version.go.  The go
    command, the reader of a binary's build information, the time format and the
    JSON encoder are parameters; files are those of [Os]. *)

From stdpp Require Import pretty.
From S2P Require Import Prelude GoStrings Os Generator.

(** ** [strconv.ParseInt] in base 10, of 64 bits *)

Fixpoint digits (acc : Z) (s : string) : option Z :=
  match s with
  | EmptyString => Some acc
  | String c s => if byte_in 48 57 c then digits (acc * 10 + (Z.of_N (byte_val c) - 48)) s else None
  end.
Definition ParseInt (s : string) : result Z :=
  let fails why := Err ("strconv.ParseInt: parsing " +:+ quote s +:+ ": " +:+ why) in
  let '(neg, rest) := match s with
                      | String "+" r => (false, r)
                      | String "-" r => (true, r)
                      | _ => (false, s)
                      end in
  match rest with
  | EmptyString => fails "invalid syntax"
  | _ => match digits 0 rest with
         | None => fails "invalid syntax"
         | Some n => let z := if neg then (- n)%Z else n in
                     if (int64_min <=? z)%Z && (z <=? int64_max)%Z then Ok z else fails "value out of range"
         end
  end.

(** ** The bill of materials *)

Record go_module := mkModule { Path : string; Version : string; Sum : string }.
Record dependency := mkDep { module : go_module; Replace : option go_module }.
Record BuildInfo := mkBuildInfo {
  GoVersion : string;
  Main : go_module;
  Deps : list dependency;
  Settings : list (string * string);
}.
Record cycloneDXProperty := mkProp { PName : string; Value : string }.
Record cycloneDXComponent := mkComp {
  CType : string;
  BOMRef : string;
  CName : string;
  CVersion : string;
  PURL : string;
  Properties : list cycloneDXProperty;
}.
Record cycloneDXMetadata := mkMeta { Timestamp : string; Tools : list cycloneDXComponent; Component : cycloneDXComponent }.
Record cycloneDXBOM := mkBOM {
  BOMFormat : string;
  SpecVersion : string;
  BVersion : Z;
  Metadata : cycloneDXMetadata;
  Components : list cycloneDXComponent;
}.

Definition goModuleComponent (kind path version : string) : cycloneDXComponent :=
  let purl := "pkg:golang/" +:+ path in
  let purl := if negb (String.eqb version "") && negb (String.eqb version "(devel)") then purl +:+ "@" +:+ version else purl in
  mkComp kind purl path version purl [].
Definition with_properties (c : cycloneDXComponent) (ps : list cycloneDXProperty) : cycloneDXComponent :=
  mkComp (CType c) (BOMRef c) (CName c) (CVersion c) (PURL c) (Properties c ++ ps).

Definition application_component (info : BuildInfo) : cycloneDXComponent :=
  with_properties (goModuleComponent "application" (Path (Main info)) (Version (Main info)))
    (mkProp "golang:toolchain" (GoVersion info) :: ((λ s, mkProp ("golang:build:" +:+ s.1) s.2) <$> Settings info)).
Definition stdlib_component (info : BuildInfo) : cycloneDXComponent :=
  let stdlibVersion := trim_prefix (GoVersion info) "go" in
  mkComp "library" ("pkg:golang/stdlib@" +:+ stdlibVersion) "stdlib" (GoVersion info) ("pkg:golang/stdlib@" +:+ stdlibVersion) [].
Definition dependency_component (dep : dependency) : cycloneDXComponent :=
  let linked := default (module dep) (Replace dep) in
  with_properties (goModuleComponent "library" (Path linked) (Version linked))
    ((match Replace dep with Some _ => [mkProp "golang:replaces" (Path (module dep) +:+ "@" +:+ Version (module dep))] | None => [] end)
     ++ (if String.eqb (Sum linked) "" then [] else [mkProp "golang:sum" (Sum linked)])).

(** [Version] of the package, and the version of the running binary's module. *)
Definition frameworkVersion (version : string) (own : option go_module) : string :=
  if IsReleaseVersion version then version
  else match own with
       | Some m => let v := trim_prefix (Version m) "v" in if IsReleaseVersion v then v else version
       | None => version
       end.

Section Build.
Context (fgoths_version : string) (format_time : Z → string) (now : Z)
  (read_info : gmap string string → string → result BuildInfo) (encode : cycloneDXBOM → string)
  (go_build : list string → list string → filesystem → filesystem * option error)
  (environ : list string) (GOOS GOARCH : string) (getenv : string → string).

Definition newCycloneDXBOM (info : BuildInfo) (timestamp : Z) : cycloneDXBOM :=
  mkBOM "CycloneDX" "1.5" 1
    (mkMeta (format_time timestamp) [mkComp "application" "" "fgoths" fgoths_version "" []] (application_component info))
    (stdlib_component info :: (dependency_component <$> Deps info)).
Definition sbomTimestamp : result Z :=
  let epoch := getenv "SOURCE_DATE_EPOCH" in
  if String.eqb epoch "" then Ok now
  else match ParseInt epoch with
       | Err e => Err ("invalid SOURCE_DATE_EPOCH " +:+ quote epoch +:+ ": " +:+ e)
       | Ok seconds => Ok seconds
       end.
Definition generateSBOM (binaryPath : string) (fs : filesystem) : filesystem * option error :=
  match read_info (files fs) binaryPath with
  | Err e => (fs, Some ("read build info from " +:+ binaryPath +:+ ": " +:+ e))
  | Ok info => match sbomTimestamp with
               | Err e => (fs, Some e)
               | Ok timestamp => write_file fs "sbom.json" (encode (newCycloneDXBOM info timestamp))
               end
  end.
Definition nl : string := String (ascii_of_N 10) EmptyString.
Definition dockerfile (binaryPath : string) : string :=
  "FROM scratch" +:+ nl +:+ "COPY " +:+ binaryPath +:+ " /app" +:+ nl +:+ "EXPOSE 8080" +:+ nl
  +:+ "ENTRYPOINT [" +:+ dquote +:+ "/app" +:+ dquote +:+ "]" +:+ nl.
Definition generateDockerfile (binaryPath : string) (fs : filesystem) : filesystem * option error :=
  write_file fs "Dockerfile" (dockerfile binaryPath).

Record build_flags := mkFlags { out : string; scratch : bool; sbom : bool }.
Definition build_command (flags : build_flags) (pkg : string) : list string :=
  ["go"; "build"; "-ldflags=-s -w"; "-trimpath"; "-o"; out flags; pkg].
Definition build_env (flags : build_flags) : list string :=
  environ ++ ["CGO_ENABLED=0"; "GOOS=" +:+ (if scratch flags then "linux" else GOOS); "GOARCH=" +:+ (if scratch flags then "amd64" else GOARCH)].
(** The exit code; what is printed is left out. *)
Definition RunBuild (flags : build_flags) (fs : filesystem) : filesystem * Z :=
  let pkg := match read_file fs "cmd/app/main.go" with (_, Ok (Some _)) => "./cmd/app" | _ => "." end in
  match go_build (build_command flags pkg) (build_env flags) fs with
  | (fs, Some _) => (fs, 1%Z)
  | (fs, None) =>
      let fs := if scratch flags then (generateDockerfile (out flags) fs).1 else fs in
      let fs := if sbom flags then (generateSBOM (out flags) fs).1 else fs in
      (fs, 0%Z)
  end.
End Build.

(** ** Facts *)

Lemma digits_pretty_go x s : digits 0 (pretty_N_go x s) = digits (Z.of_N x) s.
Proof.
  revert s. induction (N.lt_wf_0 x) as [x _ IH]; intros s.
  destruct (decide (x = 0)%N) as [-> |Hx]; [by rewrite pretty_N_go_0|].
  rewrite pretty_N_go_step by lia. rewrite IH by (apply N.div_lt; lia). cbn [digits].
  assert (∀ d, (d < 10)%N → byte_in 48 57 (pretty_N_char d) = true ∧ Z.of_N (byte_val (pretty_N_char d)) = (48 + Z.of_N d)%Z) as Hd.
  { intros d Hd. assert (d ∈ [0; 1; 2; 3; 4; 5; 6; 7; 8; 9]%N) as Hin by (rewrite !elem_of_cons; lia).
    repeat (apply elem_of_cons in Hin as [-> |Hin]; [done|]). by apply elem_of_nil in Hin. }
  destruct (Hd (x `mod` 10)%N) as [-> ->]; [apply N.mod_lt; lia|]. f_equal. rewrite N2Z.inj_div, N2Z.inj_mod.
  pose proof (Z.div_mod (Z.of_N x) 10). lia.
Qed.
Lemma digits_itoa p : digits 0 (pretty (N.pos p)) = Some (Z.pos p).
Proof. unfold pretty, pretty_N. rewrite decide_False by lia. apply digits_pretty_go. Qed.
Lemma pretty_pos_head p : ∃ c r, pretty (N.pos p) = String c r ∧ c ≠ "+"%char ∧ c ≠ "-"%char.
Proof.
  pose proof (digits_itoa p) as H. destruct (pretty (N.pos p)) as [|c r]; [by cbn in H|].
  exists c, r. split; [done|]. cbn [digits] in H. destruct (byte_in 48 57 c) eqn:E; [|done]. by split; intros ->.
Qed.
Lemma ParseInt_itoa z : in_int64 z → ParseInt (itoa z) = Ok z.
Proof.
  intros Hz. unfold itoa. destruct z as [|p|p]; [reflexivity|..]; unfold in_int64 in Hz.
  - change (pretty (Z.pos p)) with (pretty (N.pos p)). unfold ParseInt.
    pose proof (digits_itoa p) as Hd. destruct (pretty_pos_head p) as (c & r & E & Hp & Hm). rewrite E in *.
    assert ((match String c r with String "+" r => (false, r) | String "-" r => (true, r) | _ => (false, String c r) end)
      = (false, String c r)) as ->.
    { destruct c as [[] [] [] [] [] [] [] []]; try done; by (destruct Hp || destruct Hm). }
    cbv iota beta zeta. rewrite Hd. destruct (Z.leb_spec int64_min (Z.pos p)), (Z.leb_spec (Z.pos p) int64_max); try done; lia.
  - change (pretty (Z.neg p)) with (String "-" (pretty (N.pos p))). unfold ParseInt. cbv iota beta zeta.
    pose proof (digits_itoa p) as Hd. destruct (pretty_pos_head p) as (c & r & E & _ & _). rewrite E in *. rewrite Hd.
    change (- Z.pos p)%Z with (Z.neg p).
    destruct (Z.leb_spec int64_min (Z.neg p)), (Z.leb_spec (Z.neg p) int64_max); try done; lia.
Qed.

(** What is linked for a dependency, and what it stands in for. *)
Definition linked (d : dependency) : (string * string * string) * option (string * string) :=
  let m := default (module d) (Replace d) in
  ((Path m, Version m, Sum m), match Replace d with Some _ => Some (Path (module d), Version (module d)) | None => None end).
Definition plain_path (p : string) : Prop := mem_byte "@" p = false.
Definition plain_deps (info : BuildInfo) : Prop :=
  ∀ d, d ∈ Deps info → plain_path (Path (module d)) ∧ plain_path (Path (default (module d) (Replace d))).

Lemma at_inj p p' v v' : plain_path p → plain_path p' → p +:+ String "@" v = p' +:+ String "@" v' → p = p' ∧ v = v'.
Proof.
  intros Hp Hp' E. assert (p = p') as ->.
  { pose proof (f_equal (λ s, index_byte s "@") E) as Hi. cbn beta in Hi. rewrite !index_byte_app in Hi by done. injection Hi as Hi.
    apply (str_app_length_inj p p' _ _ Hi E). }
  split; [done|]. apply str_app_inj_l in E. by injection E.
Qed.
Lemma dependency_inj d d' : plain_path (Path (module d)) → plain_path (Path (module d')) →
  dependency_component d = dependency_component d' → linked d = linked d'.
Proof.
  intros Hp Hp' E. pose proof (f_equal CName E) as En. pose proof (f_equal CVersion E) as Ev. pose proof (f_equal Properties E) as Eprops.
  cbn in En, Ev, Eprops. unfold linked. destruct (Replace d) as [m|], (Replace d') as [m'|]; cbn in *; rewrite En, Ev.
  - destruct (String.eqb_spec (Sum m) ""), (String.eqb_spec (Sum m') ""); cbn in Eprops; simplify_eq; (apply at_inj in H as [-> ->] || idtac); congruence.
  - destruct (String.eqb_spec (Sum (module d')) ""), (String.eqb_spec (Sum m) ""); cbn in Eprops; simplify_eq.
  - destruct (String.eqb_spec (Sum (module d)) ""), (String.eqb_spec (Sum m') ""); cbn in Eprops; simplify_eq.
  - destruct (String.eqb_spec (Sum (module d)) ""), (String.eqb_spec (Sum (module d')) ""); cbn in Eprops; simplify_eq; congruence.
Qed.
Lemma dependencies_inj ds ds' : (∀ d, d ∈ ds ++ ds' → plain_path (Path (module d))) →
  dependency_component <$> ds = dependency_component <$> ds' → linked <$> ds = linked <$> ds'.
Proof.
  revert ds'. induction ds as [|d ds IH]; intros [|d' ds'] Hp E; try done.
  pose proof (f_equal head E) as E1. pose proof (f_equal tail E) as E2. rewrite !fmap_cons. f_equal.
  - apply dependency_inj; [apply Hp; left|apply Hp, elem_of_app; right; left|exact (inj Some _ _ E1)].
  - apply IH; [|done]. intros x Hx. apply Hp. set_solver.
Qed.
Lemma settings_inj (l l' : list (string * string)) :
  (λ s, mkProp ("golang:build:" +:+ s.1) s.2) <$> l = (λ s, mkProp ("golang:build:" +:+ s.1) s.2) <$> l' → l = l'.
Proof.
  revert l'. induction l as [|[k v] l IH]; intros [|[k' v'] l'] E; try done. cbn in E. injection E as -> -> E. by rewrite (IH _ E).
Qed.
(** A reference is the path, with or without a version behind an "@". *)
Lemma ref_of_module kind p v : ∃ x, BOMRef (goModuleComponent kind p v) = "pkg:golang/" +:+ p +:+ x ∧ (x = "" ∨ ∃ r, x = String "@" r).
Proof.
  unfold goModuleComponent. cbn [BOMRef]. destruct (negb _ && negb _); [|exists ""; rewrite str_app_nil_r; auto].
  exists ("@" +:+ v). rewrite <- str_app_assoc. eauto.
Qed.
Lemma ref_inj p p' x x' : plain_path p → plain_path p' → (x = "" ∨ ∃ r, x = String "@" r) → (x' = "" ∨ ∃ r, x' = String "@" r) →
  p +:+ x = p' +:+ x' → p = p'.
Proof.
  unfold plain_path. intros Hp Hp' [-> |[r ->]] [-> |[r' ->]] E; rewrite ?str_app_nil_r in E; [done| | |by apply at_inj in E as [-> _]].
  - subst p. rewrite mem_byte_app in Hp. cbn in Hp. by rewrite orb_true_r in Hp.
  - subst p'. rewrite mem_byte_app in Hp'. cbn in Hp'. by rewrite orb_true_r in Hp'.
Qed.

Lemma NoDup_fmap_via {A B C} (f : A → B) (g : A → C) l : NoDup (f <$> l) →
  (∀ x y, x ∈ l → y ∈ l → g x = g y → f x = f y) → NoDup (g <$> l).
Proof.
  induction l as [|x l IH]; intros Hn Hg; [constructor|]. rewrite fmap_cons in *. apply NoDup_cons in Hn as [Hx Hn]. apply NoDup_cons. split.
  - intros (y & E & Hy)%list_elem_of_fmap. apply Hx. apply list_elem_of_fmap. exists y. split; [|done].
    apply Hg; [left|by right|done].
  - apply IH; [done|]. intros y z ? ?. apply Hg; by right.
Qed.

(** * Properties *)

(** The bill of materials is faithful: whatever it leaves out of the build
    information does not bear on what was linked. Two builds with the same bill have
    the same toolchain, the same main module, the same build settings, and the same
    linked modules in the same order, with their versions and sums and with what each
    replaces; and where the linked modules have different paths, other than that of
    the standard library, no two components share a reference. *)
Theorem sbom_faithful fv ft info t : plain_deps info →
  (∀ info' t', plain_deps info' → newCycloneDXBOM fv ft info t = newCycloneDXBOM fv ft info' t' →
     GoVersion info = GoVersion info' ∧ Path (Main info) = Path (Main info') ∧ Version (Main info) = Version (Main info')
     ∧ Settings info = Settings info' ∧ linked <$> Deps info = linked <$> Deps info')
  ∧ (NoDup ("stdlib" :: ((λ d, (linked d).1.1.1) <$> Deps info)) → NoDup (BOMRef <$> Components (newCycloneDXBOM fv ft info t))).
Proof.
  intros Hp. split.
  - intros info' t' Hp' E. pose proof (f_equal (λ b, Component (Metadata b)) E) as Ea. cbn in Ea.
    injection Ea as _ E1 E2 _ E3 E4. apply settings_inj in E4.
    assert (dependency_component <$> Deps info = dependency_component <$> Deps info') as Ed by (pose proof (f_equal Components E) as Ec; by injection Ec).
    split_and!; [done..|]. apply dependencies_inj; [|done].
    intros d [Hd|Hd]%elem_of_app; [apply (Hp d Hd)|apply (Hp' d Hd)].
  - intros Hn.
    assert (∃ x, BOMRef (stdlib_component info) = "pkg:golang/" +:+ "stdlib" +:+ x ∧ (x = "" ∨ ∃ r, x = String "@" r)) as Hstd.
    { eexists (String "@" _). split; [reflexivity|eauto]. }
    cbn [Components newCycloneDXBOM]. rewrite fmap_cons. apply NoDup_cons in Hn as [Hs Hn].
    assert (∀ d, d ∈ Deps info → ∃ x, BOMRef (dependency_component d) = "pkg:golang/" +:+ (linked d).1.1.1 +:+ x ∧ (x = "" ∨ ∃ r, x = String "@" r)) as Href
      by (intros d _; apply (ref_of_module "library")).
    apply NoDup_cons. split.
    + intros (c & Ec & (d & -> & Hd)%list_elem_of_fmap)%list_elem_of_fmap. apply Hs.
      destruct Hstd as (x & E1 & Hx), (Href d Hd) as (y & E2 & Hy). rewrite E1, E2 in Ec. apply str_app_inj_l in Ec.
      apply ref_inj in Ec; [rewrite Ec; apply list_elem_of_fmap; by exists d|done|by apply (Hp d Hd)|done..].
    + rewrite <- list_fmap_compose. apply (NoDup_fmap_via (λ d, (linked d).1.1.1)); [done|]. intros d d' Hd Hd' Ec. cbn beta delta [compose] in Ec.
      destruct (Href d Hd) as (x & E1 & Hx), (Href d' Hd') as (y & E2 & Hy). rewrite E1, E2 in Ec. apply str_app_inj_l in Ec.
      apply ref_inj in Ec; [done|by apply (Hp d Hd)|by apply (Hp d' Hd')|done..].
Qed.

(** A build writes what it says and nothing else. When the go command fails the
    exit code is 1 and nothing follows it; otherwise, with no failing writes, every
    file is as the go command left it but for the Dockerfile, there exactly when it was
    asked for, and the bill of materials, there exactly when it was asked for, the binary
    can be read and the date is unset or a number, and then that of the binary just built;
    the date that is the decimal form of a 64-bit number is that number. *)
Theorem build_writes_exactly fv ft now read_info encode go_build environ goos goarch getenv flags fs :
  let '(fs', code) := RunBuild fv ft now read_info encode go_build environ goos goarch getenv flags fs in
  ∃ pkg fs1 r, (pkg = "./cmd/app" ∨ pkg = ".")
    ∧ go_build (build_command flags pkg) (build_env environ goos goarch flags) fs = (fs1, r)
    ∧ (is_Some r → code = 1%Z ∧ fs' = fs1)
    ∧ (r = None → quiet fs1 → code = 0%Z ∧
        let fs2 := if scratch flags then <["Dockerfile" := dockerfile (out flags)]> (files fs1) else files fs1 in
        files fs' = match read_info fs2 (out flags), sbomTimestamp now getenv with
                    | Ok info, Ok t => if sbom flags then <["sbom.json" := encode (newCycloneDXBOM fv ft info t)]> fs2 else fs2
                    | _, _ => fs2
                    end)
    ∧ (∀ z, in_int64 z → getenv "SOURCE_DATE_EPOCH" = itoa z → sbomTimestamp now getenv = Ok z).
Proof.
  unfold RunBuild. set (pkg := match read_file fs "cmd/app/main.go" with (_, Ok (Some _)) => "./cmd/app" | _ => "." end).
  assert (pkg = "./cmd/app" ∨ pkg = ".") as Hpkg by (unfold pkg; destruct (read_file fs _) as [? [[?|]|?]]; auto).
  assert (∀ z, in_int64 z → getenv "SOURCE_DATE_EPOCH" = itoa z → sbomTimestamp now getenv = Ok z) as Hts.
  { intros z Hz E. unfold sbomTimestamp. rewrite E, (ParseInt_itoa z Hz).
    destruct (String.eqb_spec (itoa z) "") as [Ez|]; [|done]. pose proof (ParseInt_itoa z Hz) as Hp. by rewrite Ez in Hp. }
  destruct (go_build _ _ fs) as [fs1 [e|]] eqn:Eb.
  { exists pkg, fs1, (Some e). split_and!; try done. }
  exists pkg, fs1, None. split_and!; try done. intros _ Hq. split; [done|].
  set (g := if scratch flags then _ else _). set (fs2 := if scratch flags then _ else files fs1).
  assert (quiet g ∧ files g = fs2) as [Hqg Hg].
  { unfold g, fs2. destruct (scratch flags); [|done]. unfold generateDockerfile.
    destruct (write_file_quiet fs1 "Dockerfile" (dockerfile (out flags)) Hq) as (f & -> & ? & ?). done. }
  destruct (sbom flags); [|rewrite Hg; by destruct (read_info fs2 _), (sbomTimestamp now getenv)].
  unfold generateSBOM. rewrite Hg. destruct (read_info fs2 (out flags)) as [info|]; [|done].
  destruct (sbomTimestamp now getenv) as [t|]; [|done].
  destruct (write_file_quiet g "sbom.json" (encode (newCycloneDXBOM fv ft info t)) Hqg) as (f & -> & _ & Hf). cbn [fst]. by rewrite Hf, Hg.
Qed.

Definition demo_info : BuildInfo :=
  mkBuildInfo "go1.22" (mkModule "example.com/app" "(devel)" "")
    [mkDep (mkModule "example.com/a" "v1.0.0" "h1:x") (Some (mkModule "example.com/fork" "v1.0.1" "h1:y"));
     mkDep (mkModule "example.com/b" "v0.1.0" "") None] [("CGO_ENABLED", "0")].
Lemma sbom_faithful_witness : plain_deps demo_info
  ∧ NoDup (BOMRef <$> Components (newCycloneDXBOM "1.0.0" itoa demo_info 0)).
Proof.
  assert (plain_deps demo_info) as Hp by (intros d Hd; repeat (apply elem_of_cons in Hd as [-> |Hd]; [split; reflexivity|]); by apply elem_of_nil in Hd).
  split; [exact Hp|]. destruct (sbom_faithful "1.0.0" itoa demo_info 0%Z Hp) as [_ H]. apply H.
  apply (bool_decide_unpack (NoDup ("stdlib" :: ((λ d, (linked d).1.1.1) <$> Deps demo_info)))). vm_compute. exact I.
Defined.

(** What goes wrong with the bill of materials is printed; the exit code is 0. *)
Theorem sbom_failure_succeeds fv ft now encode environ goos goarch getenv :
  RunBuild fv ft now (λ _ _, Err "not a Go executable") encode (λ _ _ fs, (fs, None)) environ goos goarch getenv
    (mkFlags "bin/app" false true) (mkFs ∅ []) = (mkFs ∅ [], 0%Z).
Proof. done. Qed.
