(* ===== verification/RouteList.v ===== *)
(** * Listing the routes of a project

    Models [scanRoutes] of src/internal/cli/routes.go: a scan of the source, line by
    line, for calls that register a route.  The three regular expressions are matched
    as the regexp package does, leftmost first. *)

From S2P Require Import Prelude GoStrings ProjectFs Filepath DevFiles GenerateWatch.

(** ** The expressions *)

Definition space_byte (c : ascii) : bool := existsb (Ascii.eqb c) [" "; "009"; "010"; "012"; "013"]%char.
Fixpoint skip_spaces (s : string) : string :=
  match s with String c r => if space_byte c then skip_spaces r else s | EmptyString => "" end.
Definition dq : ascii := "034"%char.
(** A literal, what is behind it. *)
Definition after (s p : string) : option string := if has_prefix s p then Some (str_drop (String.length p) s) else None.
(** Spaces, a quotation mark, at least one character, a quotation mark. *)
Definition quoted (s : string) : option string :=
  match skip_spaces s with
  | String c r =>
      if Ascii.eqb c dq then
        match index_byte r dq with Some (S n) => Some (str_take (S n) r) | _ => None end
      else None
  | EmptyString => None
  end.
Fixpoint first_of {A} (alts : list string) (s : string) (k : string → string → option A) : option A :=
  match alts with
  | [] => None
  | alt :: alts => match after s alt with
                   | Some r => match k alt r with Some a => Some a | None => first_of alts s k end
                   | None => first_of alts s k
                   end
  end.
Fixpoint leftmost {A} (m : string → option A) (s : string) : option A :=
  match m s with
  | Some a => Some a
  | None => match s with EmptyString => None | String _ r => leftmost m r end
  end.
Definition muxRegisterPattern : string → option string := leftmost (λ s,
  after s "mux." ≫= λ r, first_of ["HandleFunc"; "Handle"] r (λ _ r, after r "(" ≫= quoted)).
Definition receivers : list string := ["server."; "registrar."].
Definition serverMethodPattern : string → option (string * string) := leftmost (λ s,
  first_of receivers s (λ _ r, first_of ["Get"; "Post"; "Put"; "Patch"; "Delete"; "Any"] r (λ m r,
    after r "(" ≫= λ r, pair m <$> quoted r))).
Definition serverHandlePattern : string → option (string * string) := leftmost (λ s,
  first_of receivers s (λ _ r, after r "Handle(" ≫= λ r, after (skip_spaces r) "http.Method" ≫= λ r,
    first_of ["Get"; "Post"; "Put"; "Patch"; "Delete"] r (λ m r,
      after (skip_spaces r) "," ≫= λ r, pair m <$> quoted r))).

(** ** The scan *)

Record routeEntry := mkRoute { Method : string; RPath : string; File : string; Line : Z }.
(** The method and path of the first registration of a line. *)
Definition line_route (line : string) : option (string * string) :=
  match muxRegisterPattern line with
  | Some p => Some (match index_byte p " " with
                    | Some i => (str_take i p, str_drop (S i) p)
                    | None => ("ANY", p)
                    end)
  | None => match serverMethodPattern line with
            | Some (m, p) => Some (to_upper m, p)
            | None => match serverHandlePattern line with
                      | Some (m, p) => Some (to_upper m, p)
                      | None => None
                      end
            end
  end.
Fixpoint scan_lines (file : string) (n : Z) (lines : list string) : list routeEntry :=
  match lines with
  | [] => []
  | line :: lines =>
      option_list ((λ mp : string * string, mkRoute mp.1 mp.2 file n) <$> line_route line) ++ scan_lines file (n + 1) lines
  end.
Definition scan_file (file content : string) : list routeEntry := scan_lines file 1 (split content (ascii_of_N 10)).
(** Below the root, in the order of the walk: files carry their content, [None] where it cannot be read. *)
Inductive source :=
  | SFile (content : option string)
  | SDir (children : list (string * source)).
Definition route_source (path : string) : bool := has_suffix path ".go" && negb (has_suffix path "_test.go").
Fixpoint scan_walk (rel : list string) (e : source) : list routeEntry :=
  match e with
  | SDir children =>
      if match last rel with Some base => shouldSkipWatchDir base | None => false end then []
      else concat ((λ c, scan_walk (rel ++ [c.1]) c.2) <$> children)
  | SFile content =>
      let path := join rel "/" in
      if route_source path then match content with Some c => scan_file path c | None => [] end else []
  end.
Definition scanRoutes (root : source) : list routeEntry := scan_walk [] root.

Example route_get : line_route ("	server.Get(" +:+ dquote +:+ "/users/{id}" +:+ dquote +:+ ", show)") = Some ("GET", "/users/{id}").
Proof. reflexivity. Qed.
Example route_mux : line_route ("mux.HandleFunc( " +:+ dquote +:+ "POST /users" +:+ dquote +:+ ", create)") = Some ("POST", "/users").
Proof. reflexivity. Qed.
Example route_handle : line_route ("registrar.Handle(http.MethodPut , " +:+ dquote +:+ "/x" +:+ dquote) = Some ("PUT", "/x").
Proof. reflexivity. Qed.

(** ** Facts *)

Lemma elem_of_scan_lines file n lines r : r ∈ scan_lines file n lines ↔
  ∃ i line, lines !! i = Some line ∧ line_route line = Some (Method r, RPath r) ∧ File r = file ∧ Line r = (n + Z.of_nat i)%Z.
Proof.
  revert n. induction lines as [|l lines IH]; intros n; cbn [scan_lines].
  - split; [by intros ?%elem_of_nil|by intros (i & ? & ? & _)].
  - rewrite elem_of_app, IH. split.
    + intros [Hin|(i & line & Hi & Hr & Hf & Hl)].
      * destruct (line_route l) as [[m p]|] eqn:E; [|by apply elem_of_nil in Hin]. apply list_elem_of_singleton in Hin as ->.
        exists 0, l. cbn. split_and!; [done..|lia].
      * exists (S i), line. split_and!; [done..|lia].
    + intros (i & line & Hi & Hr & Hf & Hl). destruct i as [|i]; cbn in Hi.
      * left. injection Hi as ->. rewrite Hr. apply list_elem_of_singleton. destruct r; cbn in *. f_equal; [done|lia].
      * right. exists i, line. split_and!; [done..|lia].
Qed.
Inductive source_at : source → list string → string → Prop :=
  | source_here content : source_at (SFile (Some content)) [] content
  | source_below children n c rest content : (n, c) ∈ children → source_at c rest content → source_at (SDir children) (n :: rest) content.
(** No directory on the way is skipped; the file itself may have any name. *)
Definition scanned_dirs (comps : list string) : Prop := Forall (λ n, shouldSkipWatchDir n = false) (removelast comps).
Definition scan_holds (e : source) : Prop := ∀ rel r,
  r ∈ scan_walk rel e ↔ ∃ rest content, source_at e rest content
    ∧ Forall (λ n, shouldSkipWatchDir n = false) (if bool_decide (rest = []) then [] else option_list (last rel) ++ removelast rest)
    ∧ route_source (join (rel ++ rest) "/") = true ∧ r ∈ scan_file (join (rel ++ rest) "/") content.
Fixpoint scan_spec (e : source) : scan_holds e.
Proof.
  assert (∀ children, e = SDir children → Forall (λ c, scan_holds c.2) children) as IH.
  { destruct e as [|children]; [done|]. intros ? [= <-]. induction children as [|[n c] children IHc]; constructor; [apply scan_spec|exact IHc]. }
  clear scan_spec. intros rel r. destruct e as [content|children].
  - cbn [scan_walk]. split.
    + destruct (route_source (join rel "/")) eqn:Er; [|by intros ?%elem_of_nil]. destruct content as [c|]; [|by intros ?%elem_of_nil].
      intros Hin. exists [], c. rewrite (app_nil_r rel). split_and!; [apply source_here|by rewrite bool_decide_true|done..].
    + intros (rest & c & Hs & _ & Hr & Hin). inversion Hs; subst. rewrite (app_nil_r rel) in Hr, Hin. by rewrite Hr.
  - specialize (IH children eq_refl). rewrite Forall_forall in IH.
    assert (r ∈ scan_walk rel (SDir children) ↔ Forall (λ n, shouldSkipWatchDir n = false) (option_list (last rel)) ∧
      ∃ n c, (n, c) ∈ children ∧ r ∈ scan_walk (rel ++ [n]) c) as ->.
    { cbn [scan_walk]. destruct (last rel) as [b|]; cbn; [destruct (shouldSkipWatchDir b) eqn:Eb|].
      - split; [by intros ?%elem_of_nil|]. intros [H _]. apply Forall_cons in H as [H _]. congruence.
      - rewrite list_elem_of_In, in_concat. setoid_rewrite <- list_elem_of_In. setoid_rewrite list_elem_of_fmap. split.
        + intros (l & ([n c] & -> & Hin) & Hr). split; [by repeat constructor|]. eauto.
        + intros (_ & n & c & Hin & Hr). eexists. split; [by exists (n, c)|done].
      - rewrite list_elem_of_In, in_concat. setoid_rewrite <- list_elem_of_In. setoid_rewrite list_elem_of_fmap. split.
        + intros (l & ([n c] & -> & Hin) & Hr). split; [constructor|]. eauto.
        + intros (_ & n & c & Hin & Hr). eexists. split; [by exists (n, c)|done]. }
    split.
    + intros (Hl & n & c & Hin & Hr). apply (IH (n, c) Hin) in Hr as (rest & content & Hs & Hv & Hrs & Hr).
      exists (n :: rest), content. rewrite <- app_assoc in Hrs, Hr. cbn [app] in Hrs, Hr. split_and!; [by econstructor| |done..].
      apply Forall_app. split; [done|]. rewrite last_snoc in Hv. case_bool_decide as E; [subst rest; constructor|].
      destruct rest; [done|]. exact Hv.
    + intros (rest & content & Hs & Hv & Hrs & Hr). inversion Hs as [|? n c rest' ? Hin Hs']; subst. cbn in Hv.
      apply Forall_app in Hv as [Hl Hv]. split; [done|]. exists n, c. split; [done|]. apply (IH (n, c) Hin).
      exists rest', content. rewrite <- app_assoc, last_snoc. split_and!; [done| |done..].
      case_bool_decide as E; [constructor|]. destruct rest'; [done|]. exact Hv.
Qed.

(** A registration behind an indentation, with no mention of a mux on its line. *)
Definition registration (indent recv m spaces p rest : string) : string :=
  indent +:+ recv +:+ m +:+ "(" +:+ spaces +:+ String dq (p +:+ String dq rest).
Lemma after_app p r : after (p +:+ r) p = Some r.
Proof. unfold after. by rewrite has_prefix_app, str_drop_app. Qed.
Lemma after_none s p : has_prefix s p = false → after s p = None.
Proof. unfold after. by intros ->. Qed.
Lemma first_of_head {A} alt alts s r (k : string → string → option A) a :
  after s alt = Some r → k alt r = Some a → first_of (alt :: alts) s k = Some a.
Proof. intros E1 E2. cbn. by rewrite E1, E2. Qed.
Lemma first_of_next {A} alt alts s (k : string → string → option A) :
  has_prefix s alt = false → first_of (alt :: alts) s k = first_of alts s k.
Proof. intros E. cbn. by rewrite after_none. Qed.
Lemma quoted_here spaces p rest : all_bytes space_byte spaces = true → p ≠ "" → mem_byte dq p = false →
  quoted (spaces +:+ String dq (p +:+ String dq rest)) = Some p.
Proof.
  intros Hs Hp Hd. unfold quoted.
  assert (skip_spaces (spaces +:+ String dq (p +:+ String dq rest)) = String dq (p +:+ String dq rest)) as ->.
  { induction spaces as [|c spaces IH]; [done|]. cbn in Hs |- *. apply andb_true_iff in Hs as [-> Hs]. by apply IH. }
  rewrite Ascii.eqb_refl, index_byte_app by done. destruct (String.length p) as [|n] eqn:El; [destruct p; done|].
  by rewrite <- El, str_take_app.
Qed.
Lemma leftmost_here {A} (m : string → option A) s a : m s = Some a → leftmost m s = Some a.
Proof. intros E. destruct s; cbn [leftmost]; by rewrite E. Qed.
Lemma leftmost_skip {A} (m : string → option A) (f : ascii → bool) t s : (∀ c r, f c = true → m (String c r) = None) →
  all_bytes f t = true → leftmost m (t +:+ s) = leftmost m s.
Proof.
  intros Hm. induction t as [|c t IH]; [done|]. cbn [all_bytes]. intros [Hc Ht]%andb_true_iff.
  rewrite str_app_cons. cbn [leftmost]. rewrite (Hm _ _ Hc). by apply IH.
Qed.
Lemma leftmost_none {A} (m : string → option A) s : (∀ t u, s = t +:+ u → m u = None) → leftmost m s = None.
Proof.
  induction s as [|c s IH]; intros Hm; cbn [leftmost]; rewrite (Hm "") by done; [done|]. apply IH.
  intros t u ->. by apply (Hm (String c t)).
Qed.
Lemma no_mux line : contains line "mux." = false → muxRegisterPattern line = None.
Proof.
  intros Hc. apply leftmost_none. intros t u ->. rewrite after_none; [done|]. apply not_true_iff_false. intros [r ->]%has_prefix_spec.
  by rewrite contains_app in Hc.
Qed.
Lemma space_not_receiver {A} c r (k : string → string → option A) : space_byte c = true → first_of receivers (String c r) k = None.
Proof.
  intros Hc. assert (c ≠ "s"%char ∧ c ≠ "r"%char) as [Hs Hr] by (by split; intros ->).
  cbn [receivers first_of]. rewrite !after_none; [done|..]; apply not_true_iff_false; intros [r' E]%has_prefix_spec; by injection E.
Qed.

(** * Properties *)

(** The listing is exact: it has one entry for each line of each Go file, tests
    left out, that no skipped directory is above, on which a registration is recognised,
    with the file and the number of the line, and no other; and a call of a server or a
    registrar, at any indentation, with spaces before its pattern, is recognised with
    its method in capitals and the whole path, on any line that mentions no mux. *)
Theorem scan_exact children r :
  (r ∈ scanRoutes (SDir children) ↔ ∃ comps content i line, source_at (SDir children) comps content
     ∧ scanned_dirs comps ∧ route_source (join comps "/") = true ∧ File r = join comps "/"
     ∧ split content (ascii_of_N 10) !! i = Some line ∧ Line r = (1 + Z.of_nat i)%Z ∧ line_route line = Some (Method r, RPath r))
  ∧ ∀ indent recv m spaces p rest, recv ∈ receivers → m ∈ ["Get"; "Post"; "Put"; "Patch"; "Delete"; "Any"] →
      all_bytes space_byte indent = true → all_bytes space_byte spaces = true → p ≠ "" → mem_byte dq p = false →
      let line := registration indent recv m spaces p rest in
      contains line "mux." = false → line_route line = Some (to_upper m, p).
Proof.
  split.
  - unfold scanRoutes. rewrite (scan_spec (SDir children) [] r). split.
    + intros (rest & content & Hs & Hv & Hr & (i & line & Hi & Hl & Hf & Hn)%elem_of_scan_lines).
      exists rest, content, i, line. split_and!; try done. unfold scanned_dirs. case_bool_decide as E; [by rewrite E|exact Hv].
    + intros (comps & content & i & line & Hs & Hv & Hr & Hf & Hi & Hn & Hl). exists comps, content. split_and!; [done| |done|].
      * case_bool_decide; [constructor|exact Hv].
      * apply elem_of_scan_lines. eauto 10.
  - intros indent recv m spaces p rest Hrecv Hm Hi Hs Hp Hd line Hmux. unfold line_route. rewrite (no_mux line Hmux).
    assert (serverMethodPattern line = Some (m, p)) as ->; [|done].
    unfold serverMethodPattern, line, registration. rewrite (leftmost_skip _ space_byte); [|intros; by apply space_not_receiver|done].
    apply leftmost_here.
    assert (∀ r, first_of ["Get"; "Post"; "Put"; "Patch"; "Delete"; "Any"] (m +:+ "(" +:+ r) (λ m r, after r "(" ≫= λ r, pair m <$> quoted r)
      = pair m <$> quoted r) as Hmeth.
    { intros r'. repeat (apply elem_of_cons in Hm as [-> |Hm]; [cbn; by destruct (quoted r')|]). by apply elem_of_nil in Hm. }
    assert (∀ r, (pair m <$> quoted (spaces +:+ String dq (p +:+ String dq r))) = Some (m, p)) as Hq by (intros; by rewrite quoted_here).
    unfold receivers in *. apply elem_of_cons in Hrecv as [-> | ->%list_elem_of_singleton].
    + eapply first_of_head; [apply after_app|]. cbv beta. by rewrite Hmeth, Hq.
    + rewrite first_of_next by done. eapply first_of_head; [apply after_app|]. cbv beta. by rewrite Hmeth, Hq.
Qed.

(** A second registration on a line is not listed, nor one whose pattern is on the next. *)
Theorem second_registration_missed :
  line_route (registration "" "server." "Get" "" "/a" ("; server.Post(" +:+ String dq ("/b" +:+ String dq ")"))) = Some ("GET", "/a")
  ∧ line_route ("server.Get(") = None.
Proof. done. Qed.
(** A commented registration is listed. *)
Theorem comment_listed : line_route (registration "// " "server." "Get" "" "/old" ", h)") = Some ("GET", "/old").
Proof. done. Qed.
