(* ===== verification/RouteTable.v ===== *)
(** * The table of routes

    Models [RunRoutes] of src/internal/cli/routes.go, which sorts and prints what
    RouteList.v scans.  [sort.Slice] is not stable: it is a parameter of which only the
    documented behaviour is used.  The width of a column is measured in bytes and [fmt]
    pads it in runes, so the decoding of UTF-8 is modelled. *)

From S2P Require Import Prelude GoStrings ProjectFs RouteList.

(** ** Padding *)

(** [utf8.RuneCountInString]: how many of the next bytes belong to the rune that [c] starts; a byte that starts
    none is a rune of its own. *)
Definition cont (lo hi : N) (s : string) : bool :=
  match s with String d _ => byte_in lo hi d | EmptyString => false end.
Definition tail (s : string) : string := match s with String _ r => r | EmptyString => "" end.
Definition rune_more (c : ascii) (r : string) : nat :=
  let any := cont 128 191 in
  if byte_in 194 223 c then if any r then 1 else 0
  else if byte_in 224 239 c then
    let first := if byte_in 224 224 c then cont 160 191 r else if byte_in 237 237 c then cont 128 159 r else any r in
    if first && any (tail r) then 2 else 0
  else if byte_in 240 244 c then
    let first := if byte_in 240 240 c then cont 144 191 r else if byte_in 244 244 c then cont 128 143 r else any r in
    if first && any (tail r) && any (tail (tail r)) then 3 else 0
  else 0.
Fixpoint rune_count (s : string) : nat :=
  match s with
  | EmptyString => 0
  | String c r =>
      S match rune_more c r, r with
        | 1, String _ r => rune_count r
        | 2, String _ (String _ r) => rune_count r
        | 3, String _ (String _ (String _ r)) => rune_count r
        | _, _ => rune_count r
        end
  end.
Definition spaces (n : nat) : string := foldr String "" (replicate n " "%char).
(** [%-*s]. *)
Definition pad_right (width : nat) (s : string) : string := s +:+ spaces (width - rune_count s).

(** ** The command *)

(** The function given to [sort.Slice]. *)
Definition route_less (r1 r2 : routeEntry) : bool :=
  if negb (String.eqb (RPath r1) (RPath r2)) then String.ltb (RPath r1) (RPath r2) else String.ltb (Method r1) (Method r2).
Definition width_of (title : string) (field : routeEntry → string) (routes : list routeEntry) : nat :=
  foldl (λ width r, if width <? String.length (field r) then String.length (field r) else width) (String.length title) routes.
Definition table_line (methodWidth pathWidth : nat) (method path source : string) : string :=
  pad_right methodWidth method +:+ "  " +:+ pad_right pathWidth path +:+ "  " +:+ source.
Definition route_line (methodWidth pathWidth : nat) (r : routeEntry) : string :=
  table_line methodWidth pathWidth (Method r) (RPath r) (File r +:+ ":" +:+ itoa (Line r)).
Definition route_table (routes : list routeEntry) : list string :=
  let methodWidth := width_of "METHOD" Method routes in
  let pathWidth := width_of "PATH" RPath routes in
  table_line methodWidth pathWidth "METHOD" "PATH" "SOURCE" :: (route_line methodWidth pathWidth <$> routes).

Section Command.
Context (sort_Slice : ∀ A, (A → A → bool) → list A → list A).
(** The lines printed; [goMod] tells whether the directory has a go.mod. *)
Definition RunRoutes (goMod : bool) (scan : result (list routeEntry)) : list string :=
  if negb goMod then
    ["❌ go.mod not found; run this inside a generated project";
     "   Next step: cd into the project generated by `fgoths init`."]
  else match scan with
       | Err e => ["❌ Could not scan routes: " +:+ e]
       | Ok [] =>
           ["No routes found.";
            "   Next step: register a handler with server.Get/Post/Put/Patch/Delete or run `fgoths generate crud`."]
       | Ok routes => route_table (sort_Slice _ route_less routes)
       end.
End Command.

Example runes : rune_count "é→a" = 3.
Proof. reflexivity. Qed.
Example bad_runes : rune_count (String "195" (String "255" "a")) = 3.
Proof. reflexivity. Qed.

(** * Lemmas *)

(** What [sort.Slice] promises of an order. *)
Definition sorts (sort_Slice : ∀ A, (A → A → bool) → list A → list A) : Prop :=
  ∀ A (less : A → A → bool) l, (∀ x, less x x = false) → (∀ x y z, less x y = true → less y z = true → less x z = true) →
    (∀ x y z, less x y = false → less y z = false → less x z = false) →
    sort_Slice A less l ≡ₚ l ∧ ∀ i j x y, i < j → sort_Slice A less l !! i = Some x → sort_Slice A less l !! j = Some y → less y x = false.

Lemma ltb_leb a b : String.ltb a b = negb (String.leb b a).
Proof. unfold String.ltb, String.leb. rewrite (String.compare_antisym a b). by destruct (String.compare b a). Qed.
(** Ordered by path, then by method. *)
Definition route_le (r1 r2 : routeEntry) : Prop :=
  (RPath r1 ≠ RPath r2 ∧ String.le (RPath r1) (RPath r2)) ∨ (RPath r1 = RPath r2 ∧ String.le (Method r1) (Method r2)).
Lemma route_less_false r1 r2 : route_less r1 r2 = false ↔ route_le r2 r1.
Proof.
  unfold route_less, route_le, String.le. rewrite !ltb_leb. destruct (String.eqb_spec (RPath r1) (RPath r2)) as [E|E]; cbn [negb];
    rewrite negb_false_iff, !Is_true_true; split; intros H.
  - by right.
  - destruct H as [[? _]|[_ ?]]; congruence.
  - left. by split; [congruence|].
  - destruct H as [[_ ?]|[? _]]; congruence.
Qed.
Lemma route_le_refl r : route_le r r.
Proof. by right. Qed.
Lemma route_le_trans r1 r2 r3 : route_le r1 r2 → route_le r2 r3 → route_le r1 r3.
Proof.
  unfold route_le. intros [[N1 H1]|[E1 H1]] [[N2 H2]|[E2 H2]].
  - left. split; [|by etransitivity]. intros E. rewrite E in H1. apply N2. by apply (anti_symm String.le).
  - left. by rewrite <- E2.
  - left. by rewrite E1.
  - right. split; [congruence|by etransitivity].
Qed.
Lemma route_le_total r1 r2 : route_le r1 r2 ∨ route_le r2 r1.
Proof.
  unfold route_le. destruct (decide (RPath r1 = RPath r2)) as [E|E].
  - destruct (total String.le (Method r1) (Method r2)); [left|right]; by right.
  - destruct (total String.le (RPath r1) (RPath r2)); [left|right]; by left.
Qed.
Lemma sorts_routes sort_Slice routes : sorts sort_Slice →
  sort_Slice _ route_less routes ≡ₚ routes ∧ StronglySorted route_le (sort_Slice _ route_less routes).
Proof.
  intros H. destruct (H _ route_less routes) as [Hp Hs].
  - intros x. apply route_less_false, route_le_refl.
  - intros x y z Hxy Hyz. apply not_false_iff_true. intros Hxz%route_less_false.
    destruct (route_le_total x y) as [Hle|Hle%route_less_false]; [|congruence].
    assert (route_less y z = false); [|congruence]. apply route_less_false. by apply (route_le_trans _ x).
  - intros x y z. rewrite !route_less_false. intros Hxy Hyz. by apply (route_le_trans _ y).
  - split; [done|]. revert Hs. generalize (sort_Slice _ route_less routes). intros l Hs.
    induction l as [|x l IH]; constructor.
    + apply IH. intros i j a b Hij Ha Hb. by apply (Hs (S i) (S j) a b); [lia|..].
    + apply Forall_forall. intros y [j Hj]%list_elem_of_lookup. apply route_less_false. by apply (Hs 0 (S j) x y); [lia|..].
Qed.

Definition ascii_text : string → bool := all_bytes (byte_in 0 127).
Lemma ascii_rune c r : byte_in 0 127 c = true → rune_more c r = 0.
Proof. by destruct c as [[] [] [] [] [] [] [] []]. Qed.
Lemma rune_count_ascii s : ascii_text s = true → rune_count s = String.length s.
Proof.
  unfold ascii_text. induction s as [|c s IH]; [done|]. cbn [all_bytes rune_count String.length]. intros [Hc Hs]%andb_true_iff.
  rewrite ascii_rune by done. by rewrite IH.
Qed.
Lemma length_spaces n : String.length (spaces n) = n.
Proof. unfold spaces. induction n as [|n IH]; [done|]. cbn. by rewrite IH. Qed.
Lemma length_pad w s : ascii_text s = true → String.length s ≤ w → String.length (pad_right w s) = w.
Proof. intros Hs Hw. unfold pad_right. rewrite str_length_app, length_spaces, rune_count_ascii by done. lia. Qed.
Lemma width_of_max title field routes :
  width_of title field routes = max_list (String.length title :: (String.length ∘ field <$> routes)).
Proof.
  unfold width_of. generalize (String.length title). induction routes as [|r routes IH]; intros n; [cbn; lia|].
  cbn [foldl]. rewrite IH. cbn [fmap list_fmap max_list foldr compose]. destruct (Nat.ltb_spec n (String.length (field r))); cbn; lia.
Qed.
Lemma width_of_perm title field l l' : l ≡ₚ l' → width_of title field l = width_of title field l'.
Proof.
  intros H. rewrite !width_of_max. cbn [max_list foldr]. f_equal. induction H; cbn; lia.
Qed.
Lemma width_of_ge title field routes r : r ∈ routes → String.length (field r) ≤ width_of title field routes.
Proof.
  intros Hr. rewrite width_of_max. apply max_list_elem_of_le. right. apply list_elem_of_fmap. by exists r.
Qed.
Lemma width_of_title title field routes : String.length title ≤ width_of title field routes.
Proof. rewrite width_of_max. apply max_list_elem_of_le. by left. Qed.
Lemma table_column mw pw m p src : ascii_text m = true → ascii_text p = true → String.length m ≤ mw → String.length p ≤ pw →
  str_drop (mw + pw + 4) (table_line mw pw m p src) = src.
Proof.
  intros Hm Hp Hlm Hlp. unfold table_line.
  assert (pad_right mw m +:+ "  " +:+ pad_right pw p +:+ "  " +:+ src = (pad_right mw m +:+ "  " +:+ pad_right pw p +:+ "  ") +:+ src) as ->
    by by rewrite <- !str_app_assoc.
  replace (mw + pw + 4) with (String.length (pad_right mw m +:+ "  " +:+ pad_right pw p +:+ "  ")); [apply str_drop_app|].
  rewrite !str_length_app, !length_pad by done. cbn. lia.
Qed.

(** * Properties *)

(** The command prints every route that the scan finds once, ordered by path and then by method, whatever an unstable
    sort does to equal ones; where the methods and paths are ASCII each source stands in the same column, behind the
    longest method and the longest path.  Without a go.mod, a route or a scan that works it prints why. *)
Theorem routes_listed sort_Slice routes : sorts sort_Slice →
  (∀ scan, RunRoutes sort_Slice false scan = ["❌ go.mod not found; run this inside a generated project";
     "   Next step: cd into the project generated by `fgoths init`."])
  ∧ (routes ≠ [] → ∃ rs mw pw, rs ≡ₚ routes ∧ StronglySorted route_le rs
      ∧ RunRoutes sort_Slice true (Ok routes) = table_line mw pw "METHOD" "PATH" "SOURCE" :: (route_line mw pw <$> rs)
      ∧ str_drop (mw + pw + 4) (table_line mw pw "METHOD" "PATH" "SOURCE") = "SOURCE"
      ∧ ∀ r, r ∈ routes → ascii_text (Method r) = true → ascii_text (RPath r) = true →
          str_drop (mw + pw + 4) (route_line mw pw r) = File r +:+ ":" +:+ itoa (Line r)).
Proof.
  intros H. split; [done|]. intros Hn. destruct (sorts_routes sort_Slice routes H) as [Hp Hs].
  exists (sort_Slice _ route_less routes), (width_of "METHOD" Method routes), (width_of "PATH" RPath routes). split_and!; [done|done| | |].
  - destruct routes as [|r0 routes]; [done|]. unfold RunRoutes, route_table. cbn [negb]. by rewrite !(width_of_perm _ _ _ _ Hp).
  - apply table_column; [done|done|apply width_of_title..].
  - intros r Hr Hm Hpa. apply table_column; [done|done|by apply width_of_ge..].
Qed.

(** ** Two methods of a path and a shorter path *)

Definition not_after {A} (less : A → A → bool) (x y : A) : Prop := less y x = false.
#[local] Instance not_after_dec {A} (less : A → A → bool) : RelDecision (not_after less).
Proof. intros x y. unfold not_after. apply _. Defined.
Definition merge_Slice (A : Type) (less : A → A → bool) (l : list A) : list A := merge_sort (not_after less) l.
Lemma merge_Slice_sorts : sorts merge_Slice.
Proof.
  intros A less l Hi Ht Hn. unfold merge_Slice. set (R := not_after less). split; [apply merge_sort_Permutation|].
  assert (StronglySorted R (merge_sort R l)) as Hs.
  { apply StronglySorted_merge_sort.
    - intros x y z Hxy Hyz. by apply (Hn z y x).
    - intros x y. unfold R, not_after. destruct (less y x) eqn:E; [|by left]. right. apply not_true_iff_false. intros E'.
      specialize (Hi x). by rewrite (Ht x y x) in Hi. }
  revert Hs. generalize (merge_sort R l). clear l. intros l Hs. induction Hs as [|x l Hs IH Hx]; intros i j a b Hij Ha Hb; [done|].
  destruct j as [|j]; [lia|]. destruct i as [|i]; cbn in Ha, Hb.
  - injection Ha as <-. by apply (proj1 (Forall_forall _ _) Hx), (list_elem_of_lookup_2 _ j).
  - apply (IH i j); [lia|done..].
Qed.
Definition demo_routes : list routeEntry :=
  [mkRoute "POST" "/users" "main.go" 12; mkRoute "GET" "/users" "main.go" 11; mkRoute "GET" "/" "main.go" 10].
Lemma routes_listed_witness :
  RunRoutes merge_Slice true (Ok demo_routes)
  = ["METHOD  PATH    SOURCE"; "GET     /       main.go:10"; "GET     /users  main.go:11"; "POST    /users  main.go:12"]
  ∧ (∀ r, r ∈ demo_routes → ascii_text (Method r) = true → ascii_text (RPath r) = true →
      ∃ mw pw, str_drop (mw + pw + 4) (route_line mw pw r) = File r +:+ ":" +:+ itoa (Line r)).
Proof.
  destruct (routes_listed merge_Slice demo_routes merge_Slice_sorts) as [_ H]. destruct (H ltac:(done)) as (rs & mw & pw & _ & _ & _ & _ & Hc).
  split; [reflexivity|]. intros r Hr Hm Hp. exists mw, pw. by apply Hc.
Defined.
