(* ===== verification/Cli.v ===== *)
(** * The command line

    Models src/internal/cli/root.go, the choice of command of generate.go, and
    controlplane.go with both forms of [sqliteStores]: from the arguments to the
    control plane of [ControlPlane] that is served. *)

From S2P Require Import Prelude GoStrings Ledger PolicyVersioning ControlPlane.

(** ** Commands *)

Inductive command :=
  | CInit | CGenerate | CCrud | CDev | CBuild | CControlPlane | CSyncTemplates | CUpgrade | CVersion | CPresets | CRoutes | CUsage.
(** The names of the switch of [Execute], in its order. *)
Definition command_names : list (list string * command) := [
  (["init"; "new"; "create"], CInit);
  (["generate"; "gen"], CGenerate);
  (["dev"; "run"], CDev);
  (["build"], CBuild);
  (["controlplane"; "cp"], CControlPlane);
  (["sync-templates"; "sync"], CSyncTemplates);
  (["upgrade"], CUpgrade);
  (["version"; "--version"; "-v"], CVersion);
  (["presets"; "list-presets"; "templates"], CPresets);
  (["routes"], CRoutes);
  (["help"; "-h"; "--help"], CUsage)].
Fixpoint find_command (name : string) (table : list (list string * command)) : option command :=
  match table with
  | [] => None
  | (names, c) :: table => if existsb (String.eqb name) names then Some c else find_command name table
  end.
(** [RunGenerate] passes "crud" on. *)
Definition refine (c : command) (args : list string) : command * list string :=
  match c, args with
  | CGenerate, a :: rest => if String.eqb a "crud" then (CCrud, rest) else (c, args)
  | _, _ => (c, args)
  end.
Definition dispatch (argv : list string) : option (command * list string) :=
  match argv with
  | _ :: name :: args => match find_command name command_names with Some c => Some (refine c args) | None => None end
  | _ => None
  end.
(** [run] is the exit code of a command; an unknown one, or none, is 1 after the usage. *)
Definition Execute (run : command → list string → Z) (argv : list string) : Z :=
  match dispatch argv with Some (c, args) => run c args | None => 1%Z end.

(** ** The control plane *)

Record cp_flags := mkCpFlags { cp_addr : string; cp_storePath : string; cp_token : string }.
Definition cp_flag (f : cp_flags) (arg : string) : cp_flags :=
  if has_prefix arg "--addr=" then mkCpFlags (trim_prefix arg "--addr=") (cp_storePath f) (cp_token f)
  else if has_prefix arg "--store=" then mkCpFlags (cp_addr f) (trim_prefix arg "--store=") (cp_token f)
  else if has_prefix arg "--token=" then mkCpFlags (cp_addr f) (cp_storePath f) (trim_prefix arg "--token=")
  else f.
Definition parse_cp (env_token : string) (args : list string) : cp_flags :=
  foldl cp_flag (mkCpFlags ":9091" "controlplane-ledger.json" env_token) args.

Section Cli.
(** The file stores and the SQLite stores; the latter exist only in a build with the tag. *)
Context {S P S' P' : Type} `{DeploymentStore S} `{PolicyVersionStore P} `{DeploymentStore S'} `{PolicyVersionStore P'}.
Context (order : histories → list (list PolicyVersionRecord)) (open_store : string → S) (open_policies : string → P)
  (sqlite_tag : bool) (NewSQLiteDeploymentStore : string → result S') (NewSQLitePolicyVersionStore : string → result P').

(** The second component is a store that was opened and closed again. *)
Definition sqliteStores (path : string) : result (S' * P') * option S' :=
  if sqlite_tag then
    match NewSQLiteDeploymentStore path with
    | Err e => (Err ("open sqlite deployment store: " +:+ e), None)
    | Ok dep =>
        match NewSQLitePolicyVersionStore path with
        | Err e => (Err ("open sqlite policy store: " +:+ e), Some (store_close dep).1)
        | Ok pol => (Ok (dep, pol), None)
        end
    end
  else (Err ("sqlite backend requires building with -tags sqlite (go build -tags sqlite ./cmd/fgoths); got store spec sqlite://" +:+ path), None).

Definition control_plane : Type := @ControlPlaneServer S P + @ControlPlaneServer S' P'.
Definition config_of (cp : control_plane) : ControlPlaneConfig := match cp with inl s => cp_config s | inr s => cp_config s end.
Definition newControlPlaneServer (storeSpec token : string) : result control_plane :=
  if has_prefix storeSpec "sqlite://" then
    match (sqliteStores (trim_prefix storeSpec "sqlite://")).1 with
    | Err e => Err e
    | Ok (dep, pol) => Ok (inr (NewControlPlaneServerWithStores order (mkConfig "" "" token 0) (Some dep) (Some pol)))
    end
  else Ok (inl (NewControlPlaneServer order open_store open_policies (mkConfig "" storeSpec token 0))).

Inductive cp_outcome := ExitsWith (code : Z) | Serves (addr : string) (cp : control_plane).
Definition RunControlPlane (env_token : string) (args : list string) : cp_outcome :=
  let f := parse_cp env_token args in
  if String.eqb (trim_space (cp_token f)) "" then ExitsWith 1
  else match newControlPlaneServer (cp_storePath f) (cp_token f) with
       | Err _ => ExitsWith 1
       | Ok cp => Serves (cp_addr f) cp
       end.
End Cli.

(** The last argument that gives a flag its value, or the default. *)
Definition given (flag default_ : string) (args : list string) : string :=
  default default_ (last (omap (λ a, if has_prefix a flag then Some (trim_prefix a flag) else None) args)).
Lemma given_snoc flag d args a :
  given flag d (args ++ [a]) = if has_prefix a flag then trim_prefix a flag else given flag d args.
Proof.
  unfold given. rewrite omap_app. cbn. destruct (has_prefix a flag); [by rewrite last_snoc|by rewrite app_nil_r].
Qed.
(** No argument gives two flags. *)
Lemma flags_exclusive a p q : has_prefix a p = true → has_prefix p q = false → has_prefix q p = false → has_prefix a q = false.
Proof.
  intros [r ->]%has_prefix_spec. revert q. induction p as [|c p IH]; intros [|d q]; [done..|].
  rewrite str_app_cons. cbn [has_prefix]. rewrite (Ascii.eqb_sym c d). destruct (Ascii.eqb d c); [apply IH|done].
Qed.
Lemma parse_cp_spec env_token args :
  parse_cp env_token args = mkCpFlags (given "--addr=" ":9091" args) (given "--store=" "controlplane-ledger.json" args) (given "--token=" env_token args).
Proof.
  unfold parse_cp. induction args as [|a args IH] using rev_ind; [done|]. rewrite foldl_app, IH, !given_snoc. cbn [foldl]. unfold cp_flag. cbn [cp_addr cp_storePath cp_token].
  destruct (has_prefix a "--addr=") eqn:E1.
  { by rewrite (flags_exclusive a "--addr=" "--store="), (flags_exclusive a "--addr=" "--token=") by done. }
  destruct (has_prefix a "--store=") eqn:E2; [by rewrite (flags_exclusive a "--store=" "--token=")|]. by destruct (has_prefix a "--token=").
Qed.

(** * Properties *)

Section Properties.
Context {S P S' P' : Type} `{DeploymentStore S} `{PolicyVersionStore P} `{DeploymentStore S'} `{PolicyVersionStore P'}.
Context (order : histories → list (list PolicyVersionRecord)) (open_store : string → S) (open_policies : string → P)
  (sqlite_tag : bool) (open_dep : string → result S') (open_pol : string → result P').
Let run := RunControlPlane order open_store open_policies sqlite_tag open_dep open_pol.

Lemma config_kept {S0 P0} `{DeploymentStore S0} `{PolicyVersionStore P0} cfg (dep : option S0) (pol : option P0) : cp_config (NewControlPlaneServerWithStores order cfg dep pol) = cfg.
Proof using. unfold NewControlPlaneServerWithStores. destruct dep as [d|]; [|done]. by destruct (LoadFrom _ _) as [[? ?] ?]. Qed.

(** The command line fails closed. The control plane is served exactly when the
    last token given, or the one of the environment where none is, is not blank and the
    stores open; it is then served at the last address given and demands that token, and
    a specification with the sqlite scheme is never served from files, nor any other
    from SQLite. In every other case the exit code is 1; and a store that was opened for
    a pair whose other half fails is closed. *)
Theorem command_line_fails_closed env_token args :
  let token := given "--token=" env_token args in
  let spec := given "--store=" "controlplane-ledger.json" args in
  (run env_token args = ExitsWith 1 ↔ trim_space token = "" ∨
     has_prefix spec "sqlite://" = true ∧
       (sqlite_tag = false ∨ is_ok (open_dep (trim_prefix spec "sqlite://")) = false ∨ is_ok (open_pol (trim_prefix spec "sqlite://")) = false))
  ∧ (∀ addr cp, run env_token args = Serves addr cp →
       addr = given "--addr=" ":9091" args ∧ AdminToken (config_of cp) = token ∧ trim_space token ≠ ""
       ∧ (has_prefix spec "sqlite://" = match cp with inl _ => false | inr _ => true end))
  ∧ (∀ code, run env_token args = ExitsWith code → code = 1%Z)
  ∧ (∀ path dep, sqlite_tag = true → open_dep path = Ok dep → is_ok (open_pol path) = false →
       (sqliteStores sqlite_tag open_dep open_pol path).2 = Some (store_close dep).1).
Proof using.
  intros token spec. unfold run, RunControlPlane. rewrite parse_cp_spec. cbn [cp_addr cp_storePath cp_token]. fold token spec.
  assert (∀ path dep, sqlite_tag = true → open_dep path = Ok dep → is_ok (open_pol path) = false →
       (sqliteStores sqlite_tag open_dep open_pol path).2 = Some (store_close dep).1) as Hclose.
  { intros path dep Ht Ed Ep. unfold sqliteStores. rewrite Ht, Ed. by destruct (open_pol path). }
  destruct (String.eqb_spec (trim_space token) "") as [Eb|Eb].
  { split_and!; [split; [by left|done]|done|by intros ? [= <-]|done]. }
  unfold newControlPlaneServer. destruct (has_prefix spec "sqlite://") eqn:Es.
  - unfold sqliteStores. destruct sqlite_tag; [|split_and!; [split; [by right; split; [done|left]|done]|done|by intros ? [= <-]|done]].
    destruct (open_dep _) as [dep|e]; [destruct (open_pol _) as [pol|e]|]; cbn; split_and!; try done; try (by intros ? [= <-]).
    + split; [done|]. intros [?|(_ & [?|[?|?]])]; done.
    + intros addr cp [= <- <-]. split_and!; [done|cbn|done..]. by rewrite config_kept.
    + split; [|done]. intros _. right. auto.
    + split; [|done]. intros _. right. auto.
  - split_and!; [split; [done|]; by intros [?|[? _]]| |done..]. intros addr cp [= <- <-]. split_and!; [done|cbn|done..].
    unfold NewControlPlaneServer. by destruct (String.eqb _ ""); rewrite config_kept.
Qed.
End Properties.
