(* ===== verification/Flags.v ===== *)
(** * The arguments of the commands

    Models how src/internal/cli/init.go, build.go, generate.go and upgrade.go read their
    arguments: [FlagSet.Parse] of the standard library, with the flags that each command
    declares, and what the command makes of errors, of a request for help and of arguments that
    are no flags.  [RunDev], which starts make and passes signals on, is here as well. *)

From S2P Require Import Prelude GoStrings ProjectFs Config Build Cli.

(** ** [flag.FlagSet] *)

Record flag := mkFlag { f_name : string; f_bool : bool }.
(** The values that were set, in order; how the parse ended and what was left. *)
Inductive parse_end := Parsed (rest : list string) | HelpWanted | Bad (e : error).
Definition ParseBool (s : string) : option bool :=
  if existsb (String.eqb s) ["1"; "t"; "T"; "true"; "TRUE"; "True"] then Some true
  else if existsb (String.eqb s) ["0"; "f"; "F"; "false"; "FALSE"; "False"] then Some false
  else None.
Definition formal (flags : list flag) (name : string) : option flag := List.find (λ f, String.eqb (f_name f) name) flags.
(** An argument as [parseOne] takes it apart. *)
Inductive argument := Positional | Terminator | BadSyntax | Flag (name : string) (value : option string).
Definition read_argument (s : string) : argument :=
  if (String.length s <? 2) || negb (has_prefix s "-") then Positional
  else if String.eqb s "--" then Terminator
  else
    let name := if has_prefix s "--" then str_drop 2 s else str_drop 1 s in
    if has_prefix name "-" || has_prefix name "=" then BadSyntax
    else match index_byte name "=" with
         | Some i => Flag (str_take i name) (Some (str_drop (S i) name))
         | None => Flag name None
         end.
Fixpoint parse (flags : list flag) (args : list string) (values : list (string * string)) : list (string * string) * parse_end :=
  match args with
  | [] => (values, Parsed [])
  | s :: rest =>
      match read_argument s with
      | Positional => (values, Parsed args)
      | Terminator => (values, Parsed rest)
      | BadSyntax => (values, Bad ("bad flag syntax: " +:+ s))
      | Flag name value =>
          match formal flags name with
          | None =>
              if String.eqb name "help" || String.eqb name "h" then (values, HelpWanted)
              else (values, Bad ("flag provided but not defined: -" +:+ name))
          | Some f =>
              if f_bool f then
                match value with
                | None => parse flags rest (values ++ [(name, "true")])
                | Some v =>
                    match ParseBool v with
                    | Some b => parse flags rest (values ++ [(name, if b then "true" else "false")])
                    | None => (values, Bad ("invalid boolean value " +:+ quote v +:+ " for -" +:+ name +:+ ": parse error"))
                    end
                end
              else
                match value, rest with
                | Some v, _ => parse flags rest (values ++ [(name, v)])
                | None, v :: rest => parse flags rest (values ++ [(name, v)])
                | None, [] => (values, Bad ("flag needs an argument: -" +:+ name))
                end
          end
      end
  end.
(** The value of a flag: the last that was set. *)
Definition value_of (values : list (string * string)) (name default_ : string) : string :=
  default default_ (last (omap (λ nv : string * string, if String.eqb nv.1 name then Some nv.2 else None) values)).
Definition switched (values : list (string * string)) (name : string) : bool := String.eqb (value_of values name "false") "true".

(** ** The commands *)

(** A command runs with what it has read, ends the program, or returns an error. *)
Inductive read_args (A : Type) := Runs (a : A) | ExitWith (code : Z) | Returns (e : option error).
Arguments Runs {A} a.
Arguments ExitWith {A} code.
Arguments Returns {A} e.
(** A set made with [flag.ExitOnError]. *)
Definition exit_on_error {A} (run : list (string * string) → A) (p : list (string * string) * parse_end) : read_args A :=
  match p with (values, Parsed _) => Runs (run values) | (_, HelpWanted) => ExitWith 0 | (_, Bad _) => ExitWith 2 end.

Definition init_flag_set : list flag :=
  [mkFlag "name" false; mkFlag "dir" false; mkFlag "db" false; mkFlag "features" false; mkFlag "preset" false].
Definition init_args (args : list string) : read_args init_flags :=
  exit_on_error (λ v, mkInitFlags (value_of v "name" "") (value_of v "dir" "") (value_of v "db" "") (value_of v "features" "")
                        (value_of v "preset" "")) (parse init_flag_set args []).
Definition build_flag_set : list flag := [mkFlag "out" false; mkFlag "scratch" true; mkFlag "sbom" true].
Definition build_args (args : list string) : read_args build_flags :=
  exit_on_error (λ v, mkFlags (value_of v "out" "bin/app") (switched v "scratch") (switched v "sbom")) (parse build_flag_set args []).

Inductive generate_mode := GenerateCRUD (args : list string) | GenerateWatch | GenerateOnce.
Definition RunGenerate (args : list string) : read_args generate_mode :=
  let flags := exit_on_error (λ v, if switched v "watch" then GenerateWatch else GenerateOnce) (parse [mkFlag "watch" true] args []) in
  match args with
  | a :: rest => if String.eqb a "crud" then Runs (GenerateCRUD rest) else flags
  | [] => flags
  end.

Record upgrade_flags := mkUpgrade { u_dir : string; u_from : string; u_apply : bool }.
Definition upgrade_flag_set : list flag := [mkFlag "dir" false; mkFlag "from" false; mkFlag "apply" true].
(** A set made with [flag.ContinueOnError]; a request for help is no error. *)
Definition upgrade_args (args : list string) : read_args upgrade_flags :=
  match parse upgrade_flag_set args [] with
  | (_, HelpWanted) => Returns None
  | (_, Bad e) => Returns (Some e)
  | (_, Parsed (_ :: _)) => Returns (Some "upgrade does not accept positional arguments")
  | (v, Parsed []) => Runs (mkUpgrade (value_of v "dir" ".") (value_of v "from" "") (switched v "apply"))
  end.

(** [RunDev]: what comes of starting make, and of its end; the signals that arrive before that are passed on. *)
Inductive signal := SIGINT | SIGTERM.
Definition RunDev (args : list string) (makefile : bool) (start : result Z) (signals : list signal) (ended : option error)
    : list (Z * signal) * Z :=
  match args with
  | _ :: _ => ([], 1%Z)
  | [] =>
      if negb makefile then ([], 1%Z)
      else match start with
           | Err _ => ([], 1%Z)
           | Ok pid => (pair pid <$> signals, match ended with Some _ => 1%Z | None => 0%Z end)
           end
  end.

Example init_once : init_args ["--preset=api"; "-name"; "shop"; "--name=cart"; "--"; "--db=sqlite"]
  = Runs (mkInitFlags "cart" "" "" "" "api").
Proof. reflexivity. Qed.
Example bad_bool : parse build_flag_set ["-sbom=yes"] [] = ([], Bad ("invalid boolean value " +:+ quote "yes" +:+ " for -sbom: parse error")).
Proof. reflexivity. Qed.

(** * Lemmas *)

(** ** Writing arguments *)

(** A setting of a flag, in the three forms that a user has for it. *)
Inductive setting :=
  | Joined (dashes : bool) (name value : string)      (* -name=value or --name=value *)
  | Apart (dashes : bool) (name value : string)       (* -name value *)
  | Bare (dashes : bool) (name : string).             (* -name *)
Definition dash (two : bool) (s : string) : string := if two then "--" +:+ s else "-" +:+ s.
Definition written (s : setting) : list string :=
  match s with
  | Joined d n v => [dash d (n +:+ "=" +:+ v)]
  | Apart d n v => [dash d n; v]
  | Bare d n => [dash d n]
  end.
Definition flag_name (n : string) : Prop := n ≠ "" ∧ has_prefix n "-" = false ∧ mem_byte "=" n = false.
(** It sets this value of a declared flag. *)
Definition sets (flags : list flag) (s : setting) (nv : string * string) : Prop :=
  flag_name nv.1 ∧ ∃ f, formal flags nv.1 = Some f ∧
    match s with
    | Joined _ n v => n = nv.1 ∧ (if f_bool f then ∃ b : bool, ParseBool v = Some b ∧ nv.2 = if b then "true" else "false" else nv.2 = v)
    | Apart _ n v => n = nv.1 ∧ f_bool f = false ∧ nv.2 = v
    | Bare _ n => n = nv.1 ∧ f_bool f = true ∧ nv.2 = "true"
    end.
(** Where the flags end. *)
Definition ends_flags (rest left : list string) : Prop :=
  match rest with [] => left = [] | a :: more => (read_argument a = Positional ∧ left = rest) ∨ (a = "--" ∧ left = more) end.

Lemma str_drop_behind s c t : str_drop (S (String.length s)) (s +:+ String c t) = t.
Proof. induction s; [by destruct t|done]. Qed.
Lemma read_dash d n r : flag_name n → (r = "" ∨ ∃ v, r = "=" +:+ v) →
  read_argument (dash d (n +:+ r)) = Flag n (match r with String _ v => Some v | EmptyString => None end).
Proof.
  intros (Hn & Hd & He) Hr. destruct n as [|c n]; [done|].
  assert (Ascii.eqb c "-" = false ∧ Ascii.eqb c "=" = false) as [Hc1 Hc2].
  { cbn in Hd, He. destruct (Ascii.eqb_spec c "-") as [->|]; [by destruct n|]. by destruct (Ascii.eqb_spec c "=") as [->|]. }
  assert (read_argument (dash d (String c n +:+ r))
    = match index_byte (String c n +:+ r) "=" with
      | Some i => Flag (str_take i (String c n +:+ r)) (Some (str_drop (S i) (String c n +:+ r)))
      | None => Flag (String c n +:+ r) None end) as ->.
  { clear -Hc1 Hc2. destruct c as [[] [] [] [] [] [] [] []]; try discriminate Hc1; try discriminate Hc2; by destruct d. }
  destruct Hr as [->|[v ->]].
  - rewrite str_app_nil_r. assert (index_byte (String c n) "=" = None) as ->; [|done]. by apply index_byte_None.
  - change ("=" +:+ v) with (String "=" v). rewrite index_byte_app by done. by rewrite str_take_app, str_drop_behind.
Qed.

Lemma read_bare d n : flag_name n → read_argument (dash d n) = Flag n None.
Proof. intros Hn. pose proof (read_dash d n "" Hn (or_introl eq_refl)) as E. by rewrite str_app_nil_r in E. Qed.
Lemma parse_setting flags s nv args values : sets flags s nv → parse flags (written s ++ args) values = parse flags args (values ++ [nv]).
Proof.
  destruct nv as [n v]. intros (Hn & f & Hf & Hs). cbn [fst snd] in *. destruct s as [d n' v'|d n' v'|d n']; cbn [written app parse].
  - destruct Hs as [-> Hs]. rewrite (read_dash d n ("=" +:+ v') Hn) by (right; by eexists). cbn [String.append]. rewrite Hf.
    destruct (f_bool f); [destruct Hs as (b & -> & ->); by destruct b|by subst v'].
  - destruct Hs as (-> & Hb & ->). by rewrite (read_bare d n Hn), Hf, Hb.
  - destruct Hs as (-> & Hb & ->). by rewrite (read_bare d n Hn), Hf, Hb.
Qed.
Lemma parse_end_spec flags rest left values : ends_flags rest left → parse flags rest values = (values, Parsed left).
Proof.
  unfold ends_flags. destruct rest as [|a more]; [by intros ->|]. intros [[Ha ->]|[-> ->]]; cbn [parse]; [by rewrite Ha|done].
Qed.
Lemma parse_settings flags ss nvs rest left : Forall2 (sets flags) ss nvs → ends_flags rest left →
  ∀ values, parse flags (concat (written <$> ss) ++ rest) values = (values ++ nvs, Parsed left).
Proof.
  intros H Hr. induction H as [|s nv ss nvs Hs _ IH]; intros values; cbn [fmap list_fmap concat].
  - rewrite app_nil_r. by apply parse_end_spec.
  - rewrite <- app_assoc, (parse_setting _ _ _ _ _ Hs), IH. by rewrite <- app_assoc.
Qed.

(** * Properties *)

(** What a user writes is what a command gets.  Any settings of declared flags, each in any of the forms (one dash or
    two, the value joined or behind, a switch alone or with any spelling of its truth), up to the first argument
    that is no flag or a double dash, are read as their values, of which the last counts; the build command ignores
    what comes behind, flags included, the upgrade refuses it, and both refuse a flag that they do not declare. *)
Theorem arguments_read flags ss nvs rest left : Forall2 (sets flags) ss nvs → ends_flags rest left →
  parse flags (concat (written <$> ss) ++ rest) [] = (nvs, Parsed left)
  ∧ (flags = build_flag_set → build_args (concat (written <$> ss) ++ rest)
       = Runs (mkFlags (value_of nvs "out" "bin/app") (switched nvs "scratch") (switched nvs "sbom")))
  ∧ (flags = upgrade_flag_set → upgrade_args (concat (written <$> ss) ++ rest)
       = if bool_decide (left = []) then Runs (mkUpgrade (value_of nvs "dir" ".") (value_of nvs "from" "") (switched nvs "apply"))
         else Returns (Some "upgrade does not accept positional arguments"))
  ∧ ∀ d n more, flag_name n → n ≠ "h" → n ≠ "help" → formal flags n = None →
      parse flags (concat (written <$> ss) ++ dash d n :: more) [] = (nvs, Bad ("flag provided but not defined: -" +:+ n)).
Proof.
  intros H Hr. pose proof (parse_settings flags ss nvs rest left H Hr []) as E. rewrite app_nil_l in E. split_and!; [done|..].
  - intros ->. unfold build_args. by rewrite E.
  - intros ->. unfold upgrade_args. rewrite E. by destruct left.
  - intros d n more Hn H1 H2 Hf. clear E Hr. assert (∀ values, parse flags (concat (written <$> ss) ++ dash d n :: more) values
      = (values ++ nvs, Bad ("flag provided but not defined: -" +:+ n))) as E; [|apply (E [])].
    induction H as [|s nv ss nvs Hs _ IH]; intros values; cbn [fmap list_fmap concat app].
    + cbn [parse]. rewrite (read_bare d n Hn), Hf, (proj2 (String.eqb_neq _ _) H1), (proj2 (String.eqb_neq _ _) H2). by rewrite app_nil_r.
    + rewrite <- app_assoc, (parse_setting _ _ _ _ _ Hs), IH. by rewrite <- app_assoc.
Qed.

(** A misplaced argument hides the flags behind it: the watch of [fgoths generate views --watch] is not started, and
    [fgoths build app --sbom] writes no bill of materials; [fgoths dev] refuses such an argument. *)
Theorem flags_behind_argument_ignored makefile start signals ended :
  RunGenerate ["views"; "--watch"] = Runs GenerateOnce
  ∧ build_args ["app"; "--sbom"] = Runs (mkFlags "bin/app" false false)
  ∧ (RunDev ["app"] makefile start signals ended).2 = 1%Z.
Proof. done. Qed.

Definition demo_settings : list setting := [Apart false "out" "bin/x"; Joined true "sbom" "T"; Bare true "scratch"; Joined false "scratch" "0"].
Lemma arguments_read_witness :
  build_args ["-out"; "bin/x"; "--sbom=T"; "--scratch"; "-scratch=0"; "main"; "-out=y"] = Runs (mkFlags "bin/x" false true).
Proof.
  destruct (arguments_read build_flag_set demo_settings [("out", "bin/x"); ("sbom", "true"); ("scratch", "true"); ("scratch", "false")]
    ["main"; "-out=y"] ["main"; "-out=y"]) as (_ & Hb & _).
  - repeat constructor; try discriminate.
    + by exists (mkFlag "out" false).
    + exists (mkFlag "sbom" true). split; [done|]. split; [done|]. by exists true.
    + by exists (mkFlag "scratch" true).
    + exists (mkFlag "scratch" true). split; [done|]. split; [done|]. by exists false.
  - left. by split.
  - exact (Hb eq_refl).
Defined.
