(* ===== verification/Serving.v ===== *)
(** * The control plane as a process

    Models [RunControlPlane] and [serveControlPlaneUntilSignalWith] of
    src/internal/cli/controlplane.go from the moment the server is made: it serves until a
    signal, drains, and closes its stores; the accessors of src/pkg/runtime/controlplane.go; and
    the sockets of src/pkg/runtime/server.go and reuseport_*.go that share a port. *)

From S2P Require Import Prelude GoStrings Http Ledger PolicyVersioning ControlPlane Router Server.

(** ** Sharing a port *)

Section ReusePort.
(** The files of one function, by build constraint. *)
Inductive platform := Linux | Posix | Other.
Context (SOL_SOCKET SO_REUSEPORT : Z) (SetsockoptInt : Z → Z → Z → Z → option error).
Definition linuxSOReusePort : Z := 15.
Definition setReusePort (p : platform) (fd : Z) : option error :=
  match p with
  | Linux => SetsockoptInt fd SOL_SOCKET linuxSOReusePort 1
  | Posix => SetsockoptInt fd SOL_SOCKET SO_REUSEPORT 1
  | Other => None
  end.
(** The [Control] of the configuration; [raw] is the descriptor that [RawConn.Control] gives the function, or why not. *)
Definition reusePortControl (p : platform) (raw : result Z) : option error :=
  match raw with Err e => Some e | Ok fd => setReusePort p fd end.
End ReusePort.

(** ** Serving until a signal *)

Section Process.
Context {S P Ctx L : Type} `{DeploymentStore S} `{PolicyVersionStore P}.
Local Abbreviation cp := (@ControlPlaneServer S P).

Definition PolicyVersioner (c : option cp) : option (PolicyVersioning.PolicyVersioner P) := cp_policies <$> c.
Definition Registry (c : option cp) : option Registry.RouteRegistry := cp_registry <$> c.
Definition Ledger (c : option cp) : option DeploymentLedger := cp_ledger <$> c.
(** [path_of] tells a file store, with its path, from another. *)
Definition StorePath (path_of : S → option string) (c : option cp) : string :=
  match c with Some c => match cp_store c with Some s => default "" (path_of s) | None => "" end | None => "" end.

Definition close_hook : hook (U:=cp) (Ctx:=Ctx) := λ _ c, Close c.
(** The server that [RunControlPlane] makes; its handler is that of the control plane, not the router. *)
Definition cp_server (addr : string) (w : world cp) : option (Server cp Ctx L) :=
  let x := (Some (NewServer addr), ∅, w) in
  let x := WithShutdownTimeout x (30 * second) in
  (OnShutdown x (Some close_hook)).1.1.

Context (background : Ctx) (with_timeout : Ctx → duration → Ctx) (drain : hook (U:=cp) (Ctx:=Ctx)).
(** What a request does to the control plane. *)
Context (request_step : cp → cp → Prop).
Definition ErrServerClosed : error := "http: Server closed".
Inductive phase := Listening | Closed | Fatal (e : error) | Stopped (e : option error).
Inductive proc_step (server : option (Server cp Ctx L)) : phase * cp → phase * cp → Prop :=
  | step_request ph c c' : ph = Listening → request_step c c' → proc_step server (ph, c) (ph, c')
  | step_listen_ends c (r : option error) : proc_step server (Listening, c)
      (match r with Some e => if String.eqb e ErrServerClosed then Closed else Fatal e | None => Closed end, c)
  | step_signal ph c : ph = Listening ∨ ph = Closed → proc_step server (ph, c)
      (let '(c', r) := Shutdown with_timeout drain server (with_timeout background (30 * second)) c in (Stopped r, c')).

(** * Lemmas *)

Lemma close_releases (c : cp) : cp_store (Close c).1 = None.
Proof using.
  unfold Close. destruct (cp_store c) as [s|] eqn:E.
  - destruct (store_close s) as [s' r]. destruct (versioner_close _) as [pv r']. done.
  - destruct (versioner_close _) as [pv r']. done.
Qed.
Lemma cp_shutdown addr w ctx c : Shutdown with_timeout drain (cp_server addr w) ctx c
  = match drain (with_timeout ctx (30 * second)) c with
    | (c', Some e) => (c', Some e)
    | (c', None) => Close c'
    end.
Proof using.
  unfold cp_server. cbn. destruct (drain _ c) as [c' [e|]]; [done|]. unfold close_hook. by destruct (Close c') as [c2 [e|]].
Qed.

(** What is so when the process is in a phase. *)
Definition ended (c0 : cp) (ph : phase) (c : cp) : Prop :=
  match ph with
  | Listening | Closed => rtc request_step c0 c
  | Fatal e => rtc request_step c0 c ∧ e ≠ ErrServerClosed
  | Stopped r => ∃ c1 c2 d, rtc request_step c0 c1 ∧ drain (with_timeout (with_timeout background (30 * second)) (30 * second)) c1 = (c2, d)
      ∧ match d with
        | Some e => r = Some e ∧ c = c2
        | None => Close c2 = (c, r) ∧ cp_store c = None
        end
  end.
Lemma proc_step_ended addr w c0 s s' : proc_step (cp_server addr w) s s' → ended c0 s.1 s.2 → ended c0 s'.1 s'.2.
Proof using.
  intros [ph c c' -> Hs|c r|ph c Hph] H1; cbn [fst snd] in *.
  - by eapply rtc_r.
  - destruct r as [e|]; [|done]. destruct (String.eqb_spec e ErrServerClosed); [done|by split].
  - rewrite cp_shutdown. assert (rtc request_step c0 c) as Hc by by destruct Hph; subst ph.
    destruct (drain _ c) as [c2 [e|]] eqn:Ed.
    + by exists c, c2, (Some e).
    + destruct (Close c2) as [c3 r] eqn:Ec. exists c, c2, None. split_and!; [done|done|done|]. pose proof (close_releases c2) as Hn. by rewrite Ec in Hn.
Qed.

(** * Properties *)

(** The control plane ends in order.  From a start where it listens, whatever requests come: it stops only by a signal or by
    a failure to listen that is not the server's own closing; a stop after a drain that went well has closed both
    stores and released the ledger's, and reports what closing them reported; a drain that fails leaves the stores
    open (the hook is not called) and is what is reported. *)
Theorem control_plane_stops addr w c0 ph c : rtc (proc_step (cp_server addr w)) (Listening, c0) (ph, c) → ended c0 ph c.
Proof using.
  intros Hr. apply (rtc_ind_r (λ s, ended c0 s.1 s.2) (Listening, c0)) in Hr; [done|apply rtc_refl|].
  intros s1 s2 _ Hs. by apply proc_step_ended with addr w.
Qed.
End Process.

(** ** A stop, and a stop whose drain runs out of time *)

Definition served_store : ControlPlaneServer DeploymentLedgerState PolicyVersionState := booted demo_config (Some empty_state) None.
Definition idle : world (ControlPlaneServer DeploymentLedgerState PolicyVersionState) := World None ∅ [] [] [] served_store.
#[local] Existing Instance memory_ledger.
#[local] Existing Instance memory_store.
Lemma control_plane_stops_witness :
  let run drain := Shutdown (λ (c : unit) _, c) drain (cp_server (L:=unit) ":9091" idle) tt served_store in
  cp_store (run (λ _ c, (c, None))).1 = None ∧ (run (λ _ c, (c, Some "context deadline exceeded"))).1 = served_store.
Proof.
  split.
  - assert (ended tt (λ (c : unit) _, c) (λ _ c, (c, None)) (λ _ _, False) served_store (Stopped None) (Close served_store).1) as (c1 & c2 & d & _ & Hd & H).
    { apply (control_plane_stops tt (λ (c : unit) _, c) (λ _ c, (c, None)) (λ _ _, False) (L:=unit) ":9091" idle).
      apply rtc_once. exact (step_signal tt _ _ _ (cp_server ":9091" idle) Listening served_store (or_introl eq_refl)). }
    injection Hd as <- <-. apply H.
  - assert (ended tt (λ (c : unit) _, c) (λ _ c, (c, Some "context deadline exceeded")) (λ _ _, False) served_store
      (Stopped (Some "context deadline exceeded")) served_store) as (c1 & c2 & d & _ & Hd & H).
    { apply (control_plane_stops tt (λ (c : unit) _, c) (λ _ c, (c, Some "context deadline exceeded")) (λ _ _, False) (L:=unit) ":9091" idle).
      apply rtc_once. exact (step_signal tt _ _ _ (cp_server ":9091" idle) Listening served_store (or_introl eq_refl)). }
    reflexivity.
Defined.
