(* ===== verification/Terminal.v ===== *)
(** * What the commands print

    Models src/internal/cli/ux.go (colours and the list of presets), the usage text of root.go,
    the version and the reports of [fgoths init] and [fgoths upgrade].  A printed text is the list of
    its lines.  Environment, build information and platform are arguments. *)

From S2P Require Import Prelude GoStrings ProjectFs Config Upgrade Build Cli Flags.

(** ** Colours *)

Section Terminal.
(** Whether NO_COLOR is in the environment. *)
Context (no_color : bool).
Definition esc (code : string) : string := String "027" ("[" +:+ code +:+ "m").
Definition colorReset : string := esc "0".
Definition colorBold : string := esc "1".
Definition colorCyan : string := esc "36".
Definition colorGreen : string := esc "32".
Definition colorRed : string := esc "31".
Definition colorGray : string := esc "90".
Definition supportsColor : bool := negb no_color.
Definition color (s c : string) : string := if negb supportsColor then s else c +:+ s +:+ colorReset.
Definition bold (s : string) : string := color s colorBold.
Definition cyan (s : string) : string := color s colorCyan.
Definition green (s : string) : string := color s colorGreen.
Definition red (s : string) : string := color s colorRed.
Definition gray (s : string) : string := color s colorGray.
Definition emoji (s : string) : string :=
  match index_byte s " " with Some (S idx) => str_take (S idx) s | _ => s end.
Definition repeat_text (s : string) (n : nat) : string := foldr String.append "" (replicate n s).

(** ** Presets *)

Definition preset_lines (p : Preset) : list string :=
  ["  " +:+ cyan (p_Name p) +:+ color (":" +:+ repeat_text " " (14 - String.length (p_Name p))) colorGray +:+ p_Description p;
   "     Type: " +:+ p_Type p +:+ " | Arch: " +:+ p_Architecture p +:+ " | DB: " +:+ p_Database p]
  ++ (match p_Features p with [] => [] | fs => ["     " +:+ gray "Features:" +:+ " " +:+ join fs (cyan ", ")] end) ++ [""].
Definition featureAliases : list (string * string) :=
  [("health", "Health check endpoints (/health, /health/live, /health/ready)"); ("metrics", "Prometheus-compatible metrics (zero deps, /metrics)");
   ("openapi", "OpenAPI spec + docs (/docs, /openapi.yaml)"); ("grpc", "gRPC-style JSON API (:9090)");
   ("flatbuffers", "FlatBuffers schema serialization"); ("htmx", "HTMX for SSR without JavaScript");
   ("jwt-auth", "JWT middleware with roles/scopes"); ("mtls", "Mutual TLS + client identity routing");
   ("otel", "OpenTelemetry distributed tracing"); ("ci-cd", "GitHub Actions + GitLab CI templates")].
Definition preset_examples : list string :=
  ["fgoths init --name=my-api --preset=api"; "fgoths init --name=my-site --preset=webapp --features=metrics,openapi"].
Definition example_line (e : string) : string := "  " +:+ gray "$" +:+ " " +:+ cyan e.
Definition RunPresets : list string :=
  [""; bold "FGOTHS Project Presets"; repeat_text "─" 50; ""]
  ++ (ListPresets ≫= λ p, match GetPreset (p_Name p) with Some p => preset_lines p | None => [] end)
  ++ [bold "Feature aliases:"] ++ ((λ a : string * string, "  " +:+ cyan a.1 +:+ " - " +:+ a.2) <$> featureAliases)
  ++ [""; bold "Quick start:"] ++ (example_line <$> preset_examples) ++ [""].

(** ** Usage and version *)

Definition usage_commands : list (string * string * string) :=
  [("init", "           ", "Generate a new project [--name --dir --preset --db --features]");
   ("presets", "        ", "Show the two presets and every opt-in feature");
   ("routes", "         ", "List registered HTTP routes in the current project");
   ("generate", "       ", "Compile .templ files (webapp projects)");
   ("dev", "            ", "Hot reload dev loop with fragment HMR");
   ("build", "          ", "Compile the static production binary");
   ("upgrade", "        ", "Safely update an existing project's embedded runtime [--from --dir --apply]");
   ("version", "        ", "Print framework version");
   ("controlplane", "   ", "Run governance API [--addr --store --token]");
   ("sync-templates", " ", "Framework maintainers only: sync pkg/runtime -> templates [--check]")].
Definition usage_examples : list string :=
  ["fgoths init --name=user-service --preset=api"; "fgoths init --name=my-app --preset=api --db=sqlite --features=metrics,openapi";
   "fgoths init --name=my-site --preset=webapp"; "fgoths upgrade --from=1.1.0 --dir=../my-site";
   "fgoths upgrade --from=1.1.0 --dir=../my-site --apply"; "fgoths presets"].
Definition PrintUsage : list string :=
  [""; bold "FGOTHS CLI" +:+ " - the secure alternative to Node.js for mission-critical services"; "";
   bold "Usage:"; "  fgoths <command> [options]"; ""; bold "Commands:"]
  ++ ((λ c : string * string * string, "  " +:+ cyan c.1.1 +:+ c.1.2 +:+ gray c.2) <$> usage_commands)
  ++ [""; bold "Presets — pick one, opt in to the rest:";
      "  " +:+ cyan "api" +:+ "     Flat JSON API + health + proxy";
      "          " +:+ gray "opt-ins: metrics, openapi, grpc, jwt-auth, mtls, otel, flatbuffers, --db=sqlite";
      "  " +:+ cyan "webapp" +:+ "  MVC SSR + HTMX + SQLite + proxy";
      "          " +:+ gray "opt-ins: metrics, openapi, jwt-auth, mtls, otel, flatbuffers"; "";
      bold "Choosing:";
      "  " +:+ gray "JSON API or service-to-service?" +:+ " " +:+ cyan "api";
      "  " +:+ gray "Rendering HTML pages?" +:+ " " +:+ cyan "webapp";
      "  " +:+ gray "Both in one binary?" +:+ " " +:+ cyan "webapp" +:+ gray " - its handlers serve JSON too"; "";
      bold "Examples:"]
  ++ (example_line <$> usage_examples) ++ [""].
Definition RunVersion (version : string) (own : option go_module) (commit built go goos goarch : string) : list string :=
  ["FGOTHS Framework"; "  version:   " +:+ frameworkVersion version own; "  commit:    " +:+ commit; "  built:     " +:+ built;
   "  go:        " +:+ go; "  platform:  " +:+ goos +:+ "/" +:+ goarch].

(** ** Reports *)

Definition printConfig (cfg : ProjectConfig) (presetName : string) : list string :=
  [""] ++ (if String.eqb presetName "" then [] else ["📦 Using preset: " +:+ presetName])
  ++ ["🚀 Project: " +:+ Name cfg; "🏗️  Type: " +:+ ProjectType cfg; "📐 Architecture: " +:+ Architecture cfg;
      "🗄️  Database: " +:+ Database cfg]
  ++ (match features_of cfg with [] => [] | fs => ["✨ Features: [" +:+ join fs " " +:+ "]"] end) ++ [""].
Definition printSuccess (cfg : ProjectConfig) : list string :=
  let rule := bold "+========================================================+" in
  [""; rule; bold "+" +:+ "  " +:+ green "Project generated successfully!" +:+ repeat_text " " 17 +:+ bold "+"; rule; "";
   bold "  Next steps:"; "    " +:+ gray "$" +:+ " " +:+ cyan ("cd " +:+ Name cfg); "    " +:+ gray "$" +:+ " " +:+ cyan "make run"; "";
   "  " +:+ gray "->" +:+ " Open http://localhost:8080 in your browser"; "";
   bold "  Available endpoints:"; "    /health           - Health checks"]
  ++ (if HasFeature cfg FeatureMetrics then ["    /metrics          - Prometheus metrics (zero deps)"] else [])
  ++ (if HasFeature cfg FeatureOpenAPI then ["    /docs             - API documentation"; "    /openapi.yaml     - OpenAPI spec"] else [])
  ++ (if HasFeature cfg FeatureGRPC then ["    :9090             - gRPC server"] else [])
  ++ [""; bold "  Useful commands:"; "    " +:+ gray "$" +:+ " " +:+ cyan "make build" +:+ "  " +:+ gray "- Build static binary";
      "    " +:+ gray "$" +:+ " " +:+ cyan "make test" +:+ "     " +:+ gray "- Run tests";
      "    " +:+ gray "$" +:+ " " +:+ cyan "make generate" +:+ "  " +:+ gray "- Regenerate code"; ""].
Definition report_line (applying : bool) (a : upgradeFileAction) : list string :=
  match status a with
  | StUpdate => ["  Update " +:+ ac_path a]
  | StMerge => ["  Merge local changes in " +:+ ac_path a]
  | StConflict => ["  Conflict in " +:+ ac_path a +:+ "; original will be preserved"
                   +:+ (if applying then "" else " (candidate: " +:+ conflictTo a +:+ ")")]
  | StCurrent => ["  Current " +:+ ac_path a]
  | StIgnore => []
  end.
Definition printUpgradeReport (report : upgradeReport) (applying : bool) : list string :=
  let head := "FGOTHS runtime upgrade plan: v" +:+ from report +:+ " -> v" +:+ to report in
  match actions report, artifactIgnore report with
  | [], None => [head; "  No runtime source changes are required."]
  | acts, ignore =>
      [head] ++ (acts ≫= report_line applying)
      ++ (match ignore with Some _ => ["  Add .fgoths/.gitignore to keep upgrade backups and conflicts out of Git"] | None => [] end)
  end.
End Terminal.

(** * Lemmas *)

(** A text without its escape sequences; [inside] is a sequence that has begun. *)
Fixpoint strip (inside : bool) (s : string) : string :=
  match s with
  | EmptyString => ""
  | String c s =>
      if inside then strip (negb (Ascii.eqb c "m")) s
      else if Ascii.eqb c "027" then strip true s else String c (strip false s)
  end.
Definition no_escape (s : string) : Prop := mem_byte "027" s = false.
Lemma strip_plain s t : no_escape s → strip false (s +:+ t) = s +:+ strip false t.
Proof.
  unfold no_escape. induction s as [|c s IH]; [done|]. rewrite str_app_cons. cbn [strip mem_byte].
  destruct (Ascii.eqb_spec c "027"); [done|]. cbn [orb]. intros Hs. by rewrite IH.
Qed.
Lemma strip_none s : no_escape s → strip false s = s.
Proof. intros Hs. rewrite <- (str_app_nil_r s) at 1. by rewrite strip_plain, str_app_nil_r. Qed.
Lemma strip_color s c t : no_escape s → (∀ u, strip false (c +:+ u) = strip false u) →
  strip false (color false s c +:+ t) = s +:+ strip false t.
Proof.
  intros Hs Hc. unfold color. cbn [supportsColor negb]. rewrite <- !str_app_assoc, Hc, strip_plain by done. done.
Qed.
Lemma no_escape_app s t : no_escape s → no_escape t → no_escape (s +:+ t).
Proof. unfold no_escape. intros Hs Ht. by rewrite mem_byte_app, Hs, Ht. Qed.

(** What the command line makes of an example. *)
Definition accepted (lower_table : Z → Z) (example : string) : bool :=
  match dispatch (split example " ") with
  | Some (CInit, args) =>
      match init_args args with Runs f => is_ok (init_config lower_table "1.4.1" f) | _ => false end
  | Some (CUpgrade, args) => match upgrade_args args with Runs f => String.eqb (u_from f) "1.1.0" | _ => false end
  | Some (_, args) => match args with [] => true | _ => false end
  | None => false
  end.

(** * Properties *)

(** The help tells the truth: every example of the usage text and of the list of presets is a command line that is
    dispatched and whose flags and values are accepted, every command named there is one, and every feature named in the
    list is understood, as itself. *)
Theorem help_is_accepted lower_table :
  Forall (λ e, accepted lower_table e = true) (usage_examples ++ preset_examples)
  ∧ Forall (λ c : string * string * string, ∃ k args, dispatch ["fgoths"; c.1.1] = Some (k, args)) usage_commands
  ∧ Forall (λ a : string * string, normalizeFeatureName lower_table a.1 = Some a.1 ∧ a.1 ∈ ValidFeatures) featureAliases.
Proof.
  split_and!.
  - repeat (constructor; [vm_compute; reflexivity|]). constructor.
  - repeat (constructor; [do 2 eexists; vm_compute; reflexivity|]). constructor.
  - repeat (constructor; [split; [vm_compute; reflexivity|apply (bool_decide_unpack _); vm_compute; exact I]|]). constructor.
Qed.

(** Colours change nothing but the colours.  The usage, the list of presets and the report of a generated
    project are, without their escape sequences, what is printed where NO_COLOR is set, whatever the project; and there no
    escape sequence is printed. *)
Theorem colours_are_colours cfg : no_escape (Name cfg) →
  strip false <$> PrintUsage false = PrintUsage true ∧ strip false <$> RunPresets false = RunPresets true
  ∧ strip false <$> printSuccess false cfg = printSuccess true cfg
  ∧ Forall no_escape (PrintUsage true ++ RunPresets true ++ printSuccess true cfg).
Proof.
  intros Hn. split_and!.
  - vm_compute. reflexivity.
  - vm_compute. reflexivity.
  - unfold printSuccess. cbv zeta.
    assert (strip false ("    " +:+ gray false "$" +:+ " " +:+ cyan false ("cd " +:+ Name cfg)) = "    " +:+ gray true "$" +:+ " " +:+ cyan true ("cd " +:+ Name cfg)) as Hname.
    { rewrite strip_plain by done. unfold gray. rewrite strip_color by done. rewrite (strip_plain " ") by done.
      rewrite <- (str_app_nil_r (cyan false _)). unfold cyan. rewrite strip_color; [|by apply no_escape_app|done]. by rewrite str_app_nil_r. }
    rewrite !fmap_app. cbn [fmap list_fmap]. rewrite Hname. by destruct (HasFeature cfg FeatureMetrics), (HasFeature cfg FeatureOpenAPI), (HasFeature cfg FeatureGRPC).
  - apply Forall_app. split; [|apply Forall_app; split].
    + apply (bool_decide_unpack _). vm_compute. exact I.
    + apply (bool_decide_unpack _). vm_compute. exact I.
    + unfold printSuccess. cbv zeta. repeat (apply Forall_app; split); try (by destruct (HasFeature _ _); repeat constructor); repeat (constructor; [first [done|by apply no_escape_app]|]); constructor.
Qed.

Lemma colours_are_colours_witness :
  let cfg := mkConfig "shop" "" TypeAPI ArchFlat DBNone (Some [FeatureMetrics]) "1.4.1" in
  strip false <$> printSuccess false cfg = printSuccess true cfg ∧ printSuccess false cfg ≠ printSuccess true cfg.
Proof.
  intros cfg. split; [by apply (colours_are_colours cfg)|]. vm_compute. discriminate.
Defined.
