(* ===== verification/Otel.v ===== *)
(** * Tracing

    Models src/pkg/runtime/otel.go.  OpenTelemetry is third-party code: what the
    source asks of it is recorded as a list of events, and [extract] is its reader of
    trace headers, which puts a remote span into the context where they name one. *)

From S2P Require Import Prelude GoStrings Paths Http RequestID.

Inductive attribute :=
  | AString (key value : string)
  | AInt (key : string) (value : Z)
  | ABool (key : string) (value : bool).
(** What a context carries as the current span. *)
Inductive span_ref := Remote (traceparent : string) | Local (name : string).
Inductive event :=
  | SpanStart (tracer name : string) (parent : option span_ref)
  | SpanAttributes (l : list attribute)
  | SpanEnd
  | Other (what : string) (current : option span_ref).
Definition context : Type := option span_ref.

Definition service (serviceName : string) : string := if String.eqb serviceName "" then "fgoths-runtime" else serviceName.
Definition schemeFromRequest (tls : bool) (r : option request) : string :=
  match r with
  | None => "http"
  | Some r => if tls then "https" else if negb (String.eqb (url_scheme r) "") then url_scheme r else "http"
  end.
Definition statusCode (resp : option Z) : Z := default 0%Z resp.

Section Otel.
Context (extract : header → option string) (random : option string) (timestamp : string).

Definition Extract (ctx : context) (h : header) : context := match extract h with Some t => Some (Remote t) | None => ctx end.
Definition id_attributes (requestID : string) : list event :=
  if String.eqb requestID "" then [] else [SpanAttributes [AString "request.id" requestID]].
(** A handler gets the context and a request, which may be nil. *)
Definition traced_handler : Type := context → option request → list event.

Definition Server_WithOpenTelemetry (serviceName addr : string) (tls : bool) (next : traced_handler) : traced_handler := λ ctx r,
  match r with
  | None => next ctx None
  | Some _ =>
      let '(requestID, r') := ensureRequestID random timestamp r in
      let rq := default (Request "" "" "" "" "" ∅ "" ∅ None) r' in
      let ctx := Extract ctx (headers rq) in
      [SpanStart (service serviceName) "fgoths.http.server" ctx]
      ++ id_attributes requestID
      ++ [SpanAttributes [AString "http.method" (method rq); AString "http.route" (normalizePath (url_path rq));
                          AString "server.address" addr; AString "url.scheme" (schemeFromRequest tls r')]]
      ++ (if tls then [SpanAttributes [ABool "tls.enabled" true]] else [])
      ++ next (Some (Local "fgoths.http.server")) r'
      ++ [SpanEnd]
  end.
Definition TraceMiddleware (serviceName : string) (next : traced_handler) : traced_handler := λ ctx r,
  match r with
  | None => next ctx None
  | Some _ =>
      let '(requestID, r') := ensureRequestID random timestamp r in
      let rq := default (Request "" "" "" "" "" ∅ "" ∅ None) r' in
      let ctx := Extract ctx (headers rq) in
      [SpanStart (service serviceName) "fgoths.http.middleware" ctx]
      ++ id_attributes requestID
      ++ [SpanAttributes [AString "http.method" (method rq); AString "http.route" (normalizePath (url_path rq))]]
      ++ next (Some (Local "fgoths.http.middleware")) r'
      ++ [SpanEnd]
  end.

(** An observer of the proxy: the context of the request, the request, the status of
    the answer and the time it took. *)
Definition traced_observer : Type := context → option request → option Z → duration → list event.
Definition Proxy_WithOpenTelemetry (serviceName target : string) (previous : option traced_observer) : traced_observer :=
  λ ctx req resp elapsed,
    let observe ctx := match previous with Some o => o ctx req resp elapsed | None => [] end in
    match req with
    | None => observe ctx
    | Some rq =>
        [SpanStart (service serviceName) "fgoths.http.upstream" ctx;
         SpanAttributes [AString "http.method" (method rq); AString "http.route" (normalizePath (url_path rq));
                         AString "upstream.target" target; AInt "http.response.status_code" (statusCode resp);
                         AInt "http.server.request.duration_ms" (Z.quot elapsed 1000000)]]
        ++ (if (500 <=? statusCode resp)%Z && bool_decide (is_Some resp) then [SpanAttributes [ABool "error" true]] else [])
        ++ observe (Some (Local "fgoths.http.upstream"))
        ++ [SpanEnd]
    end.
End Otel.

(** ** What tracing leaves alone *)

Definition is_span (e : event) : bool := match e with Other _ _ => false | _ => true end.
Definition effects (l : list event) : list string := omap (λ e, match e with Other w _ => Some w | _ => None end) l.
(** Spans that end in the order opposite to their start, none before it starts. *)
Fixpoint open_spans (n : nat) (l : list event) : option nat :=
  match l with
  | [] => Some n
  | SpanStart _ _ _ :: l => open_spans (S n) l
  | SpanEnd :: l => match n with S n => open_spans n l | 0 => None end
  | _ :: l => open_spans n l
  end.
Definition balanced (l : list event) : Prop := ∀ n l', open_spans n (l ++ l') = open_spans n l'.

Lemma effects_app l l' : effects (l ++ l') = effects l ++ effects l'.
Proof. apply omap_app. Qed.
Lemma effects_id_attributes id : effects (id_attributes id) = [].
Proof. unfold id_attributes. by destruct (String.eqb id ""). Qed.
Lemma effects_attributes l : Forall (λ e, ∃ a, e = SpanAttributes a) l → effects l = [].
Proof. intros H. by induction H as [|e l [a ->] _ IH]. Qed.
Lemma balanced_app l l' : balanced l → balanced l' → balanced (l ++ l').
Proof. intros H H' n k. by rewrite <- app_assoc, H, H'. Qed.
Lemma balanced_attributes l : Forall (λ e, ∃ a, e = SpanAttributes a) l → balanced l.
Proof. intros H n k. induction H as [|e l [a ->] _ IH]; [done|]. cbn. apply IH. Qed.
Lemma balanced_span tracer name parent attrs l : Forall (λ e, ∃ a, e = SpanAttributes a) attrs → balanced l →
  balanced (SpanStart tracer name parent :: attrs ++ l ++ [SpanEnd]).
Proof.
  intros Ha Hl n k. cbn [app open_spans]. rewrite <- !app_assoc, (balanced_attributes attrs Ha), Hl. reflexivity.
Qed.

(** A span around a body, with attributes before it. *)
Lemma span_transparent tracer sp parent attrs body l w : Forall (λ e, ∃ a, e = SpanAttributes a) attrs → balanced body →
  effects body = w → l = SpanStart tracer sp parent :: attrs ++ body ++ [SpanEnd] → balanced l ∧ effects l = w.
Proof.
  intros Ha Hb <- ->. split; [by apply balanced_span|].
  change (effects (attrs ++ body ++ [SpanEnd]) = effects body). by rewrite !effects_app, (effects_attributes attrs Ha), app_nil_r.
Qed.

(** * Properties *)

(** Tracing is transparent: a traced handler, server or middleware, has on every
    request the effects of the handler on the request with its identifier ensured, and a
    traced observer those of the one before it, each exactly once and in order, and nil
    requests are passed on untouched; and what tracing adds are spans that nest and end. *)
Theorem tracing_transparent extract random ts name addr tls target (next : traced_handler) (previous : option traced_observer) :
  (∀ ctx r, balanced (next ctx r)) → (∀ o ctx r resp d, previous = Some o → balanced (o ctx r resp d)) →
  (∀ ctx ctx' r, effects (next ctx r) = effects (next ctx' r)) →
  (∀ o ctx ctx' r resp d, previous = Some o → effects (o ctx r resp d) = effects (o ctx' r resp d)) →
  ∀ ctx r resp d,
    let ensured := match r with None => None | Some _ => (ensureRequestID random ts r).2 end in
    (let l := Server_WithOpenTelemetry extract random ts name addr tls next ctx r in
     balanced l ∧ effects l = effects (next ctx ensured))
    ∧ (let l := TraceMiddleware extract random ts name next ctx r in
       balanced l ∧ effects l = effects (next ctx ensured))
    ∧ (let l := Proxy_WithOpenTelemetry name target previous ctx r resp d in
       balanced l ∧ effects l = match previous with Some o => effects (o ctx r resp d) | None => [] end).
Proof.
  intros Hb Hob He Hoe ctx r resp d ensured.
  assert (∀ id, Forall (λ e, ∃ a, e = SpanAttributes a) (id_attributes id)) as Hid.
  { intros id. unfold id_attributes. destruct (String.eqb id ""); repeat constructor. by eexists. }
  split_and!; cbv zeta.
  - unfold Server_WithOpenTelemetry, ensured. destruct r as [rq|]; [|by split]. destruct (ensureRequestID random ts (Some rq)) as [id r'].
    eapply (span_transparent _ _ _ (id_attributes id ++ [_] ++ (if tls then _ else []))); [|apply Hb|apply He|by rewrite <- !app_assoc].
    apply Forall_app. split; [done|]. constructor; [by eexists|]. destruct tls; repeat constructor. by eexists.
  - unfold TraceMiddleware, ensured. destruct r as [rq|]; [|by split]. destruct (ensureRequestID random ts (Some rq)) as [id r'].
    eapply (span_transparent _ _ _ (id_attributes id ++ [_])); [|apply Hb|apply He|by rewrite <- !app_assoc].
    apply Forall_app. split; [done|]. repeat constructor. by eexists.
  - unfold Proxy_WithOpenTelemetry. destruct r as [rq|].
    + eapply (span_transparent _ _ _ ([_] ++ (if (500 <=? statusCode resp)%Z && bool_decide (is_Some resp) then _ else []))); [| | |reflexivity].
      * constructor; [by eexists|]. destruct (_ && _); repeat constructor. by eexists.
      * destruct previous as [o|]; [by eapply Hob|by intros n k].
      * destruct previous as [o|]; [by apply Hoe|done].
    + destruct previous as [o|]; [|done]. split; [by eapply Hob|done].
Qed.

Definition demo_request : request := Request "GET" "" "" "/users" "" ∅ "" ∅ None.
Definition demo_next : traced_handler := λ ctx _, [Other "handled" ctx].
Lemma tracing_transparent_witness :
  effects (TraceMiddleware (λ _, Some "00-remote") (Some "12345678") "0" "" demo_next None (Some demo_request)) = ["handled"].
Proof.
  destruct (tracing_transparent (λ _, Some "00-remote") (Some "12345678") "0" "" ":80" false "http://a" demo_next None
    (λ ctx r n l, eq_refl) (λ o ctx r resp d E, ltac:(discriminate E)) (λ ctx ctx' r, eq_refl) (λ o ctx ctx' r resp d E, ltac:(discriminate E))
    None (Some demo_request) None 0%Z) as (_ & [_ H] & _). exact H.
Defined.

(** Both middlewares read the trace headers: behind the server's, with a remote trace,
    the middleware's span is a second child of the remote span, not of the server's. *)
Theorem middleware_span_is_sibling random ts :
  let l := Server_WithOpenTelemetry (λ _, Some "00-remote") random ts "s" ":80" false
             (TraceMiddleware (λ _, Some "00-remote") random ts "s" demo_next) None (Some demo_request) in
  omap (λ e, match e with SpanStart _ n p => Some (n, p) | _ => None end) l
    = [("fgoths.http.server", Some (Remote "00-remote")); ("fgoths.http.middleware", Some (Remote "00-remote"))].
Proof.
  unfold Server_WithOpenTelemetry, TraceMiddleware. destruct (ensureRequestID random ts (Some demo_request)) as [id r'] eqn:E.
  assert (∃ rq, r' = Some rq) as [rq ->].
  { unfold ensureRequestID in E. destruct (decide _); injection E as _ <-; by eexists. }
  destruct (ensureRequestID random ts (Some rq)) as [id' r'']. cbn [id_attributes]. unfold id_attributes.
  by destruct (String.eqb id ""), (String.eqb id' "").
Qed.
